(* ===== verification/_CoqProject ===== *)
-Q . S2P
Prelude.v
GoStrings.v
GoTime.v
Decimal.v
Ledger.v
Events.v
Payloads.v
Betting.v
Placement.v
Settlement.v
SettlementProps.v
Corrections.v
Book.v
Float64.v
Pricing.v
Parlay.v
Competition.v
Match.v
MatchProps.v
Dispatcher.v
OutboxPG.v
Identity.v
Base64.v
Session.v
LegacyBook.v
SQL.v
Keeping.v
Sample.v
BettingDB.v
EventIDs.v
StoreSteps.v
PricingStore.v
WagerStore.v
ParlayStore.v
MarketStore.v
AdminStore.v
AdjustStore.v
ReadersStore.v
StoreRefinement.v
StoreExample.v
IdentityDB.v
IdentityStore.v
IdentityRuns.v
IdentityExample.v
CompetitionDB.v
Slugs.v
CompetitionStore.v
CompetitionOps.v
CompetitionRuns.v
CompetitionBetting.v
CompetitionReaders.v
CompetitionPublic.v
CompetitionExample.v
Url.v
AuthWeb.v
AuthWebDB.v
AuthWebProps.v
AuthWebExample.v
Web.v
Amounts.v
PrivateWeb.v
BettingWeb.v
BettingPages.v
BettingWebProps.v
BettingWebStore.v
BettingWebExample.v
MembersWeb.v
CompetitionWeb.v
StaffWebStore.v
StaffWebExample.v
Promotion.v
PromotionPG.v
PromotionReport.v
PromotionRepeat.v
PromotionStore.v
PromotionProps.v
PromotionExample.v
PrivateStore.v
PrivateStoreProps.v
PrivateStoreExample.v
