(* ===== verification/Prelude.v ===== *)
(** * Cabot Cup: verification of the Go core

    Cabot Cup (src/) is a Go modular monolith for a private golf tournament: a
    betting book with a double-entry ledger in integer cents, line pricing,
    match results that opponents confirm, invitation-only identities, and a
    transactional outbox.  The packages under src/internal/ that hold its own
    logic are pure Go; the [*pg] packages wrap them in PostgreSQL transactions
    and the [*web] packages in HTTP handlers.  This development models all
    three layers: the pure packages, the stores over the tables of the
    migrations, and the pages as programs over the calls they make on the
    stores; and it proves what makes them correct, alone and together.

    ** Conventions

    - A Go function returning [(T, error)] is a function to [result T]
      (below); statements run in the [result] monad, [fail_if] is a guard with
      an early return.  An [error] keeps its sentinel, its format and what it
      wraps; the text interpolated into it is not modelled.
    - int64 and int32 values are [Z]; where the code computes without a guard
      the wrap-around is written out ([wrap64], [quot64], [rem64]).  Amounts
      that enter from outside are assumed int64 only where a theorem says so
      ([wager_ints], [good_wager], [command_ints]).
    - Strings are byte strings; [GoStrings] models the parts of strings,
      unicode/utf8, strconv and encoding/hex the code calls, [Base64] those of
      encoding/base64, [GoTime] those of time, [Float64] IEEE binary64.
    - Go maps are [gmap] or [gset]; where the code ranges over one and the
      order can be observed, the order is the parameter [map_order].  Structs
      are passed by value as in the code, except the match aggregate and the
      reconciliation report, which are mutated through pointers and are passed
      as explicit state.
    - Parameters stand for code outside src/ and for numeric behaviour Go
      leaves to the platform: math.Exp, float-to-int conversion out of range,
      SHA-256, net/mail.ParseAddress, Unicode case tables, the random source,
      the clock, the identity provider's answers, and stores behind an
      interface.
    - The stores run in the monad [SQL.go]: a session is the tables and the
      number of statements run so far.  A statement reads or replaces tables,
      draws identifiers and the time from that number, and may fail at any
      point ([statement_fault]); [SQL.transaction] rolls back when its body
      fails, and [in_tx] of the betting store also checks the deferred ledger
      balance at commit.  A COMMIT that reports an error may have been refused,
      or may have taken effect and lost its reply, as the environment says
      ([commit_strike]); the caller gets the error either way.  A single
      statement outside a transaction that reports an error is taken to have
      had no effect.  Transactions run one at a time, which is what their row locks
      are for, so the locks themselves are not visible.  Constraints the
      schema declares and the model does not write out are statements that
      may fail.  An identifier the database returned is cast back without a
      check.  Text is ordered bytewise where the database has a collation.
    - A page is a [program]: a tree of calls on its stores ending in a
      response (status, redirect, text, or a page with its data).  Running it
      against the operations of a store is what the wiring in cmd/cabot does.
      [Visit] is what the middleware left of the request: session, path values,
      query and form.

    ** The parts

    - [Ledger] (ledger/money.go, odds.go, posting.go): money with checked
      addition and negation, American odds and their integer profit, postings
      and transactions.  Everything financial builds on it.
    - [Events] (events/envelope.go, state.go, betting/events.go): the event
      envelope, its payloads and the outbox state machine.  [Payloads]
      (events/payloads.go): the payloads other packages exchange.
    - [Betting] (betting/types.go, errors.go): markets, selections, wagers and
      their transition tables.  [Placement] (place.go): placing, accepting,
      rejecting and cancelling a wager.  [Settlement] and [SettlementProps]
      (settle.go): grading one wager, settling and voiding a market, dead
      heats.  [Corrections] (adjust.go, voidwager.go, reducewager.go):
      settle-ups and reversals, voiding and reducing one wager. The
      module [LedgerKeys]: the idempotency keys of all wager movements.  [Book]:
      the operations composed into a step relation over all wagers and account
      balances.
    - [Pricing] (pricing/pricing.go): re-pricing lines in binary64.  [Parlay]
      (betting/parlay.go, parlayprice.go): pricing, placing and grading
      parlays, on the same arithmetic.
    - [Competition] (competition/types.go) and [Match], [MatchProps]
      (competition/match.go): teams, results and the match aggregate with its
      five commands, as a step relation with reachability.
    - [Dispatcher] (events/dispatcher.go): the consumers' loop against the
      class [OutboxStore]; [OutboxPG] (eventspg/store.go): the PostgreSQL
      outbox, proved to satisfy the class's laws.
    - [SQL]: transactions and statements over any database; [Keeping]: what
      operations do to a relation on its states, and publishing to the outbox
      from a store's transaction; [Sample]: an environment to run examples in.
    - The betting store (bettingpg/*.go): [BettingDB] (store.go, errors.go) the
      tables and the shared loads and inserts,
      [EventIDs] the identifiers it draws; [PricingStore] (reprice.go,
      setline.go), [WagerStore] (place.go, accept.go, voidwager.go,
      reducewager.go), [ParlayStore] (parlay.go, parlayload.go), [MarketStore]
      (market.go, mapping.go, regrade.go, match_settlement.go, consumer.go,
      the consumer of reprice.go), [AdminStore] (create.go, noaction.go,
      closetime.go, stakelimit.go, restrict.go), [AdjustStore] (adjust.go,
      memberbook.go), [ReadersStore] (readers.go, record.go) one definition
      per method.  [StoreSteps] is the specification: the steps a store
      operation may make on the database and the simulation of those steps by
      [Book]; each file proves its operations make only such steps, and
      [StoreRefinement] composes them into runs of commands.  [StoreExample]
      is a concrete run.
    - [Identity] (identity/types.go, authorization.go), [Session]
      (identity/secrets.go, session.go): principals, permissions, bearer
      secrets and the session service against the class [SessionStore].
    - The identity store (identitypg/*.go): [IdentityDB] one definition per
      method; [IdentityStore] the changes they make to the tables;
      [IdentityRuns] runs of its commands and of the session service over it;
      [IdentityExample].
    - The competition store (competitionpg/*.go): [CompetitionDB] the operations
      that write; [Slugs] the slugs they derive; [CompetitionStore] the tables
      as a state machine with its invariant, [CompetitionOps] the operations as
      steps of it, [CompetitionRuns] runs with deliveries of the outbox;
      [CompetitionReaders] the readers and [CompetitionPublic] what the public
      page shows; [CompetitionBetting] a recorded result followed through the
      outbox to the betting store; [CompetitionExample].
    - [LegacyBook] (migration/legacybook/reconcile.go): amount parsing and the
      reconciliation report of the archived book.  [Promotion] (promote.go) and
      [PromotionPG] (postgres.go, the promoting command of cmd/cabot): turning a
      report into users and ledger accounts; [PromotionReport],
      [PromotionRepeat], [PromotionStore] and [PromotionProps] prove it;
      [PromotionExample].
    - Signing in (authweb/*.go, oidcclient/client.go): [Url] the parts of net/url,
      [AuthWeb] the handlers, [AuthWebDB] the attempts in PostgreSQL,
      [AuthWebProps], [AuthWebExample].
    - The pages: [Decimal] numbers as text, [Web] what the handlers share
      (sessions, forms, the anti-forgery token, amounts), [Amounts] amounts as
      text and back; [BettingWeb] and [BettingPages] (bettingweb/*.go) the views
      and the handlers of the book, [BettingWebProps] what they may ask for,
      [BettingWebStore] the pages run on the betting store; [PrivateWeb]
      (privateweb/private.go); [MembersWeb] and [CompetitionWeb]
      (membersweb, competitionweb) and [StaffWebStore], those run on the
      identity and competition stores; [BettingWebExample], [StaffWebExample].
    - The private readers (privatepg/*.go): [PrivateStore] every query of the
      dashboard and of a member's pages, on the betting store's tables;
      [PrivateStoreProps] the dashboard against the ledger and against grading;
      [PrivateStoreExample].

    ** What is shown

    - Money: profits are the exact ratio rounded half up and overflow is
      always reported; validated transactions conserve money; grading,
      voiding, reducing, accepting and settle-ups move exactly the stated
      amounts between exactly the stated accounts; over any history escrow
      equals the open stakes; idempotency keys never collide; settling again
      pays nothing and the order of wagers is irrelevant.
    - Admission: placement, acceptance, corrections and parlays succeed
      exactly when their declarative conditions hold; no accepted wager can be
      stranded; a wager's terms never change.
    - The store: from a database without bets, whatever commands run with
      whatever arguments and faults, each currency's wagers and balances are a
      book the pure operations reach; escrow's ledger balance is the stakes of
      the accepted wagers and parlays; stored wagers are well formed and keep
      their terms; a command that reports an error changed nothing, or did the
      whole of its transaction and lost the reply to its COMMIT; a member's board shows
      exactly what placement would take; identifiers are version 4 UUIDs.
    - Prices: re-pricing is total and postable, drift floors hold, odds and
      probability round-trip.  A placed parlay grades as it was sold, unless
      legs that dropped out leave survivors shorter than even money, which the
      code does not foresee.
    - Matches: reachable matches are coherent, results are confirmed by
      opponents, history is append-only, accepted commands replay for ever and
      administrators can always resolve a match.
    - The season: whatever commands run, a recorded result stands, whatever later
      requests ask and return, and its match cannot be deleted, whoever played stays on the roster, statistics are
      those of the verified results once delivered and every result is
      delivered; the public page is that history; the recorded winner is who
      wins the market.
    - Events: processing is at-least-once and receipt-guarded against every
      lawful store; the PostgreSQL store leases due rows only, keeps its table
      constraints and the row lifecycle; back-off is bounded.
    - Identity: authorization is the rank order of roles on signed-in
      principals; secrets have one spelling; over any run of the store an owner
      always remains, authority comes only from owners, only members sign in,
      issued sessions resume until they end and never after; a browser's
      sign-in spends the one attempt it began with.
    - Pages: a request changes a store only through commands in the name of its
      session, allowed to its role, behind a form with its token (creating a player is the one command that
      names nobody); so the book
      behind the pages stays a book and the identity store keeps its order;
      amounts typed are the cents stored or refused; the direction shown for a
      moved line is exact.
    - The dashboard: escrow as shown is the open stakes, the ledger is found
      balanced, house and players sum to zero in a book of one currency once
      nothing rides, and the exposure shown for an outcome is what grading it as the
      only winner posts to house clearing.
    - Migration: amounts are read exactly or refused; a promotable report
      accounts for every row of the archive; promoting opens and closes every
      account in balance and may be repeated.

    ** Bounds and fuel

    Loops over Go slices are structural recursion, so they terminate.  Two
    loops of [Pricing] carry a bound: the drift-floor passes run at most once
    per selection plus once, and it is proved that they always leave by their
    own exit; the walk to the floor is bounded in the code by
    [maxRoundingSteps].  [ImpliedProbability_roundtrip] is checked by
    evaluation on its whole stated range.

    ** Not modelled

    Templates and the HTML they render, response headers beyond redirects and
    cookies: text for a browser, which no other part reads.  web/public.go: it
    renders the public page, whose data [CompetitionReaders] models, and serves
    health checks and files.  The list of marketable matches
    (ListMarketableMatches) is a parameter of the pages, and so are, in the
    betting store, the sides of the match a market is made for: both read the
    competition's tables.  Configuration, process start-up, connection pools,
    the OIDC client's discovery, logging and metrics are I/O around libraries;
    snapshot import and seeding run once, on embedded data.  The dispatcher's
    ticker loop [Run] repeats the poll that is modelled.  Interleavings of the
    statements of two transactions, and mutexes: commands on one aggregate run
    one at a time.  Three views of the tables keep apart what the code keeps in
    one database: the betting store's, the competition store's with the people
    in it, and the promotion's; a property that needs two of them says how they
    meet.  The outbox statements are modelled by their effect on the two tables
    as atomic steps that may also fail without effect; identifiers are compared
    as text.  Go may fuse floating-point multiply-add on some platforms; the
    model rounds every operation, as on amd64. *)
From Stdlib Require Export ZArith Lia Bool Ascii String.
From stdpp Require Export base tactics list gmap strings pretty sorting.
From stdpp Require Import options.
#[global] Open Scope Z_scope.

(** ** Go errors

    A Go [error] is a value with an [Unwrap] chain.  [Sentinel] is a
    package-level [errors.New] value, identified by its qualified name;
    [Errorf] is [fmt.Errorf] (or a local [errors.New]) without a [%w] verb and
    [Wrapf] is [fmt.Errorf] with the error its [%w] verb wraps.  Both keep the
    format; the arguments interpolated into the text are for display only and
    are not modelled. [TransitionError] is the struct that both
    [internal/betting] and [internal/competition] declare, whose [Unwrap] is
    the package's [ErrInvalidTransition]. *)
Inductive error : Type :=
  | Sentinel (name : string)
  | Errorf (format : string)
  | Wrapf (format : string) (wrapped : error)
  | TransitionError (operation state : string) (unwraps : error).

#[export] Instance error_eq_dec : EqDecision error.
Proof. solve_decision. Defined.

(** [errors.Is]: walk the [Unwrap] chain looking for a sentinel. *)
Fixpoint errors_is (name : string) (e : error) : bool :=
  match e with
  | Sentinel n => bool_decide (n = name)
  | Errorf _ => false
  | Wrapf _ e' => errors_is name e'
  | TransitionError _ _ e' => errors_is name e'
  end.

(** ** Results: the [(T, error)] pairs of Go, [Err] when the error is set *)
Inductive result (A : Type) : Type :=
  | Ok (a : A)
  | Err (e : error).
Arguments Ok {A} a.
Arguments Err {A} e.

#[export] Instance result_eq_dec `{EqDecision A} : EqDecision (result A).
Proof. solve_decision. Defined.

#[export] Instance result_ret : MRet result := @Ok.
#[export] Instance result_bind : MBind result := fun A B f m =>
  match m with Ok a => f a | Err e => Err e end.
#[export] Instance result_map : FMap result := fun A B f m =>
  match m with Ok a => Ok (f a) | Err e => Err e end.

(** [if cond { return ..., err }] *)
Definition fail_if (cond : bool) (e : error) : result unit :=
  if cond then Err e else Ok ().

(** [if err != nil { return fmt.Errorf(format, err) }] *)
Definition wrap_err {A} (format : string) (m : result A) : result A :=
  match m with Ok a => Ok a | Err e => Err (Wrapf format e) end.

(** [if err != nil { return other }]: the cause is dropped. *)
Definition or_err {A} (other : error) (m : result A) : result A :=
  match m with Ok a => Ok a | Err _ => Err other end.

Definition is_Ok {A} (m : result A) : bool :=
  match m with Ok _ => true | Err _ => false end.

Section result_lemmas.
Context {A B : Type}.

Lemma bind_Ok (m : result A) (f : A -> result B) (b : B) :
  (m ≫= f) = Ok b <-> exists a, m = Ok a /\ f a = Ok b.
Proof. destruct m; cbn; naive_solver. Qed.

Lemma bind_Err (m : result A) (f : A -> result B) (e : error) :
  (m ≫= f) = Err e <-> m = Err e \/ exists a, m = Ok a /\ f a = Err e.
Proof. destruct m; cbn; naive_solver. Qed.

Lemma wrap_err_Ok fmt (m : result A) a : wrap_err fmt m = Ok a <-> m = Ok a.
Proof. destruct m; cbn; naive_solver. Qed.

Lemma or_err_Ok e (m : result A) a : or_err e m = Ok a <-> m = Ok a.
Proof. destruct m; cbn; naive_solver. Qed.

Lemma is_Ok_alt (m : result A) : is_Ok m = true <-> exists a, m = Ok a.
Proof. destruct m; cbn; naive_solver. Qed.
End result_lemmas.

Lemma fail_if_Ok c e u : fail_if c e = Ok u <-> c = false.
Proof. destruct c, u; cbn; naive_solver. Qed.

Lemma fail_if_Err c e e' : fail_if c e = Err e' <-> c = true /\ e = e'.
Proof. destruct c; cbn; naive_solver. Qed.

Lemma fail_if_bind {A} c e (k : unit -> result A) :
  (fail_if c e ≫= k) = if c then Err e else k ().
Proof. by destruct c. Qed.

(** The way back: run a handler forward, one statement at a time. *)
Lemma go_ok {A B} (m : result A) (k : A -> result B) a b : m = Ok a -> k a = Ok b -> (m ≫= k) = Ok b.
Proof. by intros ->. Qed.
Lemma guard_ok {B} c e (k : unit -> result B) b :
  c = false -> k () = Ok b -> (fail_if c e ≫= k) = Ok b.
Proof. by intros ->. Qed.
Ltac go_step := first [eapply guard_ok | eapply go_ok]; cbv beta.

(** Two computations fail alike or succeed with related results. *)
Definition same_result {A B} (R : A -> B -> Prop) (m : result A) (m' : result B) : Prop :=
  match m, m' with
  | Ok a, Ok b => R a b
  | Err e, Err e' => e = e'
  | _, _ => False
  end.

Lemma same_result_bind2 {A A' B B'} (Q : A -> A' -> Prop) (R : B -> B' -> Prop) m m'
    (k : A -> result B) (k' : A' -> result B') :
  same_result Q m m' -> (forall a a', Q a a' -> same_result R (k a) (k' a')) ->
  same_result R (m ≫= k) (m' ≫= k').
Proof. destruct m, m'; cbn; naive_solver. Qed.

Lemma same_result_bind {A B B'} (R : B -> B' -> Prop) (m : result A)
    (k : A -> result B) (k' : A -> result B') :
  (forall a, same_result R (k a) (k' a)) -> same_result R (m ≫= k) (m ≫= k').
Proof. intros H. destruct m; cbn; [apply H|done]. Qed.

(** Decompose a hypothesis [m = Ok r] along the statements of a handler. *)
Ltac go_inv_step :=
  match goal with
  | H : Ok _ = Ok _ |- _ => injection H as H; try subst
  | H : Err _ = Err _ |- _ => injection H as H; try subst
  | H : Err _ = Ok _ |- _ => discriminate H
  | H : Ok _ = Err _ |- _ => discriminate H
  | H : mret _ = _ |- _ => unfold mret, result_ret in H
  | H : (_ ≫= _) = Ok _ |- _ =>
      apply bind_Ok in H; let a := fresh "v" in
      let H1 := fresh "Hok" in destruct H as (a & H1 & H)
  | H : fail_if _ _ = Ok ?u |- _ => apply fail_if_Ok in H; try clear u
  | H : wrap_err _ _ = Ok _ |- _ => apply wrap_err_Ok in H
  | H : or_err _ _ = Ok _ |- _ => apply or_err_Ok in H
  end.
Ltac go_inv := repeat go_inv_step.

(** Boolean guards to propositions. *)
Ltac bool_prop :=
  repeat match goal with
  | H : negb _ = true |- _ => apply negb_true_iff in H
  | H : negb _ = false |- _ => apply negb_false_iff in H
  | H : _ || _ = false |- _ => apply orb_false_iff in H as [? ?]
  | H : _ && _ = true |- _ => apply andb_true_iff in H as [? ?]
  | H : bool_decide _ = true |- _ => apply bool_decide_eq_true in H
  | H : bool_decide _ = false |- _ => apply bool_decide_eq_false in H
  | H : (_ <? _) = true |- _ => apply Z.ltb_lt in H
  | H : (_ <? _) = false |- _ => apply Z.ltb_ge in H
  | H : (_ <=? _) = true |- _ => apply Z.leb_le in H
  | H : (_ <=? _) = false |- _ => apply Z.leb_gt in H
  | H : (_ =? _) = true |- _ => apply Z.eqb_eq in H
  | H : (_ =? _) = false |- _ => apply Z.eqb_neq in H
  | H : (_ >? _) = _ |- _ => rewrite Z.gtb_ltb in H
  | H : (_ >=? _) = _ |- _ => rewrite Z.geb_leb in H
  end.

(** ** int64

    Machine integers are [Z]; Go's wrap-around is written out where the code
    computes without an overflow check. *)
Definition MaxInt64 : Z := 9223372036854775807.
Definition MinInt64 : Z := -9223372036854775808.
Definition int64 (z : Z) : Prop := MinInt64 <= z <= MaxInt64.
Definition wrap64 (z : Z) : Z := (z - MinInt64) mod 18446744073709551616 + MinInt64.

#[export] Instance int64_dec z : Decision (int64 z).
Proof. unfold int64. apply _. Defined.

Lemma wrap64_id z : int64 z -> wrap64 z = z.
Proof.
  unfold int64, wrap64, MinInt64, MaxInt64. intros H.
  rewrite Z.mod_small; lia.
Qed.

Lemma wrap64_int64 z : int64 (wrap64 z).
Proof.
  unfold int64, wrap64, MinInt64, MaxInt64.
  pose proof (Z.mod_pos_bound (z - -9223372036854775808) 18446744073709551616). lia.
Qed.

Lemma wrap64_add a b : wrap64 (wrap64 a + b) = wrap64 (a + b).
Proof.
  unfold wrap64. f_equal.
  replace ((a - MinInt64) mod 18446744073709551616 + MinInt64 + b - MinInt64)
    with ((a - MinInt64) mod 18446744073709551616 + b) by lia.
  rewrite Zplus_mod_idemp_l. f_equal. lia.
Qed.

(** int64 division and remainder truncate towards zero. *)
Definition quot64 (a b : Z) : Z := wrap64 (Z.quot a b).
Definition rem64 (a b : Z) : Z := Z.rem a b.

(** ** Lists *)
Lemma length_ind {A} (P : list A -> Prop) :
  (forall l, (forall l', (length l' < length l)%nat -> P l') -> P l) -> forall l, P l.
Proof. intros H l. apply (well_founded_ind (well_founded_ltof _ (@length A))). apply H. Qed.

Definition sumZ {A} (f : A -> Z) (l : list A) : Z := foldr (fun x acc => f x + acc) 0 l.

Section sumZ.
Context {A : Type} (f : A -> Z).
Implicit Types l : list A.

Lemma sumZ_nil : sumZ f [] = 0.
Proof. done. Qed.
Lemma sumZ_cons x l : sumZ f (x :: l) = f x + sumZ f l.
Proof. done. Qed.
Lemma sumZ_app l1 l2 : sumZ f (l1 ++ l2) = sumZ f l1 + sumZ f l2.
Proof. induction l1 as [|x l1 IH]; cbn; [done|]. unfold sumZ in *. lia. Qed.
Lemma sumZ_nonneg l : (forall x, x ∈ l -> 0 <= f x) -> 0 <= sumZ f l.
Proof.
  induction l as [|x l IH]; intros H; cbn; [lia|].
  assert (0 <= f x) by (apply H; set_solver).
  assert (0 <= sumZ f l) by (apply IH; set_solver). unfold sumZ in *. lia.
Qed.
#[export] Instance sumZ_perm : Proper ((≡ₚ) ==> eq) (sumZ f).
Proof. unfold sumZ. induction 1; cbn; lia. Qed.
End sumZ.

Lemma sumZ_ext {A} (f g : A -> Z) l :
  (forall x, x ∈ l -> f x = g x) -> sumZ f l = sumZ g l.
Proof.
  induction l as [|x l IH]; intros H; cbn; [done|].
  rewrite (H x) by set_solver. f_equal. apply IH. set_solver.
Qed.

Lemma sumZ_map {A B} (f : B -> Z) (g : A -> B) l :
  sumZ f (g <$> l) = sumZ (fun x => f (g x)) l.
Proof. unfold sumZ. induction l as [|x l IH]; cbn; [done|]. by rewrite IH. Qed.

Lemma Forall2_map_eq {A B C} (f : A -> C) (g : B -> C) l k :
  Forall2 (fun x y => f x = g y) l k -> f <$> l = g <$> k.
Proof. induction 1 as [|x y l k H _ IH]; [done|]. by rewrite !fmap_cons, H, IH. Qed.

Lemma filter_split_perm {A} (p : A -> bool) l :
  List.filter (fun x => negb (p x)) l ++ List.filter p l ≡ₚ l.
Proof.
  induction l as [|x l IH]; [done|]. cbn. destruct (p x); cbn; [|by rewrite IH].
  by rewrite <- Permutation_middle, IH.
Qed.

Lemma filter_bool_elem {A} (p : A -> bool) l x : x ∈ List.filter p l <-> x ∈ l /\ p x = true.
Proof. rewrite !list_elem_of_In. apply filter_In. Qed.

Lemma NoDup_fmap_filter {A B} (f : A -> B) (p : A -> bool) l :
  NoDup (f <$> l) -> NoDup (f <$> List.filter p l).
Proof.
  induction l as [|x l IH]; [done|]. rewrite fmap_cons, NoDup_cons. intros [Hn Hnd]. cbn.
  destruct (p x); [|auto]. rewrite fmap_cons, NoDup_cons. split; [|auto].
  intros (y & Hy & Hin)%list_elem_of_fmap. apply filter_bool_elem in Hin as [Hin _].
  apply Hn, list_elem_of_fmap. eauto.
Qed.

Lemma filter_bool_perm {A} (p : A -> bool) l l' : l ≡ₚ l' -> List.filter p l ≡ₚ List.filter p l'.
Proof.
  induction 1 as [|x l l' _ IH|x y l|l l' l'' _ IH1 _ IH2]; cbn; [done|..].
  - by destruct (p x); rewrite ?IH.
  - destruct (p x), (p y); try done. apply Permutation_swap.
  - by rewrite IH1.
Qed.

(** Sums split, filtered, flattened and exchanged. *)
Lemma sumZ_plus {A} (f g : A -> Z) l : sumZ (fun x => f x + g x) l = sumZ f l + sumZ g l.
Proof. induction l as [|x l IH]; [done|]. rewrite !sumZ_cons, IH. lia. Qed.
Lemma sumZ_zero {A} (f : A -> Z) l : (forall x, x ∈ l -> f x = 0) -> sumZ f l = 0.
Proof. intros H. rewrite (sumZ_ext f (fun _ => 0)) by done. clear H. by induction l. Qed.
Lemma sumZ_filter {A} (f : A -> Z) p l : sumZ f (List.filter p l) = sumZ (fun x => if (p x : bool) then f x else 0) l.
Proof. induction l as [|x l IH]; [done|]. cbn [List.filter]. rewrite sumZ_cons, <- IH. by destruct (p x). Qed.
Lemma sumZ_bind {A B} (f : B -> Z) (g : A -> list B) l : sumZ f (l ≫= g) = sumZ (fun x => sumZ f (g x)) l.
Proof. induction l as [|x l IH]; [done|]. rewrite bind_cons, sumZ_app, IH. done. Qed.
Lemma sumZ_swap {A B} (f : A -> B -> Z) l k : sumZ (fun x => sumZ (f x) k) l = sumZ (fun y => sumZ (fun x => f x y) l) k.
Proof. induction l as [|x l IH]; [symmetry; by apply sumZ_zero|]. rewrite sumZ_cons, IH, <- sumZ_plus. done. Qed.
(** One element of a list counts. *)
Lemma sumZ_one {A} (p : A -> bool) (c : Z) x l :
  NoDup l -> x ∈ l -> (forall y, y ∈ l -> p y = true <-> y = x) -> sumZ (fun y => if p y then c else 0) l = c.
Proof.
  intros Hnd Hx Hp. apply list_elem_of_split in Hx as (l1 & l2 & ->). rewrite sumZ_app, sumZ_cons.
  apply NoDup_app in Hnd as (_ & H1 & Hnd). apply NoDup_cons in Hnd as [H2 _].
  rewrite (proj2 (Hp x ltac:(set_solver)) eq_refl). rewrite !sumZ_zero; [lia|..].
  all: intros y Hy; destruct (p y) eqn:Ey; [|done]; apply Hp in Ey; [|set_solver]; subst; set_solver.
Qed.

(** [sort.Slice] by a string key, compared bytewise.  Go's sort is not stable,
    so callers rely on it only where keys are distinct; there the sorted
    order is unique ([sort_by_unique]). *)
Definition key_le {A} (key : A -> string) (x y : A) : Prop := String.le (key x) (key y).
#[export] Instance key_le_dec {A} (key : A -> string) : RelDecision (key_le key).
Proof. intros x y. unfold key_le. apply _. Defined.
Definition sort_by {A} (key : A -> string) (l : list A) : list A := merge_sort (key_le key) l.

Section sort_by.
Context {A : Type} (key : A -> string).
#[local] Instance key_le_trans : Transitive (key_le key).
Proof. intros x y z. unfold key_le. apply transitivity. Qed.
#[local] Instance key_le_total : Total (key_le key).
Proof. intros x y. unfold key_le. apply total, _. Qed.

Lemma sort_by_perm l : sort_by key l ≡ₚ l.
Proof. apply merge_sort_Permutation. Qed.
Lemma sort_by_sorted l : Sorted (key_le key) (sort_by key l).
Proof. apply (Sorted_merge_sort _). Qed.

(** With distinct keys any sorted permutation is the result. *)
Lemma sort_by_unique l l' :
  NoDup (key <$> l) -> l' ≡ₚ l -> Sorted (key_le key) l' -> l' = sort_by key l.
Proof.
  intros Hnd Hp Hs. apply (Sorted_unique_strong (key_le key)); [|done|apply sort_by_sorted|].
  - intros x y Hx Hy H1 H2. assert (Heq : key x = key y) by by apply (anti_symm String.le).
    rewrite Hp in Hx. rewrite sort_by_perm in Hy. clear Hp Hs H1 H2.
    apply list_elem_of_lookup in Hx as [i Hi], Hy as [j Hj].
    assert (i = j) as ->; [|congruence].
    apply (NoDup_lookup _ _ _ (key x) Hnd); rewrite list_lookup_fmap; [by rewrite Hi|].
    by rewrite Hj, Heq.
  - by rewrite sort_by_perm.
Qed.

Lemma sort_by_perm_eq l l' : NoDup (key <$> l) -> l ≡ₚ l' -> sort_by key l = sort_by key l'.
Proof.
  intros Hnd Hp. symmetry. apply sort_by_unique; [done| |apply sort_by_sorted].
  by rewrite sort_by_perm.
Qed.
End sort_by.

#[global] Arguments sumZ {A} f l : simpl never.

Create HintDb cabot.
Create Rewrite HintDb cabot.
#[export] Hint Rewrite @sumZ_nil @sumZ_cons @sumZ_app : cabot.
#[export] Hint Resolve wrap64_int64 wrap64_id : cabot.
