(* ===== verification/GoStrings.v ===== *)
(** * The parts of Go's [strings], [unicode/utf8], [encoding/hex], [strconv]
      and [fmt] packages the modelled code uses

    A Go [string] is a sequence of bytes; it is modelled by Rocq's [string],
    one [ascii] per byte.  [len(s)] is [String.length s]. *)
From S2P Require Import Prelude.

(** ** Bytes *)
Definition byte_val (a : ascii) : Z := Z.of_N (N_of_ascii a).
Definition between (lo hi : Z) (a : ascii) : bool := (lo <=? byte_val a) && (byte_val a <=? hi).
Definition is_digit : ascii -> bool := between 48 57.
Definition is_upper : ascii -> bool := between 65 90.
Definition is_lower : ascii -> bool := between 97 122.
Definition is_ascii : ascii -> bool := between 0 127.
Definition is_hex (a : ascii) : bool := is_digit a || between 97 102 a || between 65 70 a.
Definition byte_is (z : Z) (a : ascii) : bool := byte_val a =? z.

Definition bytes : string -> list ascii := list_ascii_of_string.
Definition of_bytes : list ascii -> string := string_of_list_ascii.
Definition len (s : string) : Z := Z.of_nat (String.length s).
Definition all_bytes (p : ascii -> bool) (s : string) : bool := forallb p (bytes s).

(** [s[i]]; in Go an index out of range panics, and the code guards it. *)
Definition byte_at (i : nat) (s : string) : option ascii := String.get i s.
Definition byte_at_is (i : nat) (c : ascii) (s : string) : bool :=
  bool_decide (byte_at i s = Some c).

(** ** [strings.TrimSpace]

    [unicode.IsSpace] holds of six ASCII bytes and of the runes U+0085, U+00A0,
    U+1680, U+2000-U+200A, U+2028, U+2029, U+202F, U+205F and U+3000, whose
    UTF-8 encodings are the two- and three-byte patterns below. *)
Definition space1 (a : ascii) : bool := between 9 13 a || byte_is 32 a.
Definition space2 (a b : ascii) : bool := byte_is 194 a && (byte_is 133 b || byte_is 160 b).
Definition space3 (a b c : ascii) : bool :=
  (byte_is 225 a && byte_is 154 b && byte_is 128 c)
  || (byte_is 226 a && byte_is 128 b
      && (between 128 138 c || byte_is 168 c || byte_is 169 c || byte_is 175 c))
  || (byte_is 226 a && byte_is 129 b && byte_is 159 c)
  || (byte_is 227 a && byte_is 128 b && byte_is 128 c).

(** Drop leading spaces, reading each multi-byte pattern in the order the
    list presents it: [trim_right] runs on the reversed bytes. *)
Fixpoint trim_with (sp2 : ascii -> ascii -> bool) (sp3 : ascii -> ascii -> ascii -> bool)
    (l : list ascii) : list ascii :=
  match l with
  | [] => []
  | a :: l1 =>
      if space1 a then trim_with sp2 sp3 l1 else
      match l1 with
      | [] => l
      | b :: l2 =>
          if sp2 a b then trim_with sp2 sp3 l2 else
          match l2 with
          | [] => l
          | c :: l3 => if sp3 a b c then trim_with sp2 sp3 l3 else l
          end
      end
  end.
Definition trim_left : list ascii -> list ascii := trim_with space2 space3.
Definition trim_right (l : list ascii) : list ascii :=
  reverse (trim_with (fun b a => space2 a b) (fun c b a => space3 a b c) (reverse l)).
Definition TrimSpace (s : string) : string := of_bytes (trim_right (trim_left (bytes s))).

(** [strings.TrimSpace(s) == ""] *)
Definition is_blank (s : string) : bool := bool_decide (TrimSpace s = ""%string).

(** ** [utf8.RuneCountInString]: invalid bytes count as one rune each *)
Definition cont : ascii -> bool := between 128 191.
Fixpoint RuneCount_bytes (l : list ascii) : Z :=
  match l with
  | [] => 0
  | a :: l1 =>
      if is_ascii a then 1 + RuneCount_bytes l1 else
      match l1 with
      | [] => 1
      | b :: l2 =>
          if between 194 223 a && cont b then 1 + RuneCount_bytes l2 else
          match l2 with
          | [] => 1 + RuneCount_bytes l1
          | c :: l3 =>
              if ((byte_is 224 a && between 160 191 b)
                  || (byte_is 237 a && between 128 159 b)
                  || ((between 225 236 a || between 238 239 a) && cont b)) && cont c
              then 1 + RuneCount_bytes l3 else
              match l3 with
              | [] => 1 + RuneCount_bytes l1
              | d :: l4 =>
                  if ((byte_is 240 a && between 144 191 b)
                      || (between 241 243 a && cont b)
                      || (byte_is 244 a && between 128 143 b)) && cont c && cont d
                  then 1 + RuneCount_bytes l4 else 1 + RuneCount_bytes l1
              end
          end
      end
  end.
Definition RuneCountInString (s : string) : Z := RuneCount_bytes (bytes s).

(** [[]rune(s)]: the runes of a string as their UTF-8 encodings; an invalid
    byte becomes U+FFFD.  [string(runes)] concatenates the encodings. *)
Definition replacement : list ascii := [ascii_of_nat 239; ascii_of_nat 191; ascii_of_nat 189].
Fixpoint runes_of (l : list ascii) : list (list ascii) :=
  match l with
  | [] => []
  | a :: l1 =>
      if is_ascii a then [a] :: runes_of l1 else
      match l1 with
      | [] => [replacement]
      | b :: l2 =>
          if between 194 223 a && cont b then [a; b] :: runes_of l2 else
          match l2 with
          | [] => replacement :: runes_of l1
          | c :: l3 =>
              if ((byte_is 224 a && between 160 191 b)
                  || (byte_is 237 a && between 128 159 b)
                  || ((between 225 236 a || between 238 239 a) && cont b)) && cont c
              then [a; b; c] :: runes_of l3 else
              match l3 with
              | [] => replacement :: runes_of l1
              | d :: l4 =>
                  if ((byte_is 240 a && between 144 191 b)
                      || (between 241 243 a && cont b)
                      || (byte_is 244 a && between 128 143 b)) && cont c && cont d
                  then [a; b; c; d] :: runes_of l4 else replacement :: runes_of l1
              end
          end
      end
  end.

(** ** [encoding/hex] and UUID text *)
Definition remove_dashes (s : string) : string :=
  of_bytes (List.filter (fun a => negb (byte_is 45 a)) (bytes s)).
(** [_, err := hex.DecodeString(s); err == nil] *)
Definition hex_decodes (s : string) : bool := Z.even (len s) && all_bytes is_hex s.

(** ** [fmt.Sprintf("%d", n)] *)
Definition sprint_d (n : Z) : string := pretty n.

(** ** [strconv.ParseInt(s, 10, bits)] *)
Definition digit_val (a : ascii) : Z := byte_val a - 48.
Definition digits_val (l : list ascii) : Z := foldl (fun acc a => acc * 10 + digit_val a) 0 l.
Definition ParseInt (bits : Z) (s : string) : option Z :=
  let '(neg, ds) :=
    match bytes s with
    | [] => (false, [])
    | a :: l => if byte_is 45 a then (true, l) else if byte_is 43 a then (false, l) else (false, a :: l)
    end in
  if bool_decide (ds = []) || negb (forallb is_digit ds) then None
  else
    let v := digits_val ds in
    if neg then (if v <=? 2 ^ (bits - 1) then Some (- v) else None)
    else (if v <? 2 ^ (bits - 1) then Some v else None).

(** ** [strings.Split(s, ".")] on bytes *)
Fixpoint split_on (sep : Z) (l : list ascii) : list (list ascii) :=
  match l with
  | [] => [[]]
  | a :: l' =>
      if byte_is sep a then [] :: split_on sep l'
      else match split_on sep l' with
           | [] => [[a]]
           | w :: ws => (a :: w) :: ws
           end
  end.

(** ** [strings.ToLower]: ASCII text is lowered bytewise; other text goes
    through the Unicode tables, which are a parameter. *)
Definition lower_byte (a : ascii) : ascii :=
  if is_upper a then ascii_of_N (N_of_ascii a + 32) else a.
Definition ToLower (unicode_lower : string -> string) (s : string) : string :=
  if all_bytes is_ascii s then of_bytes (map lower_byte (bytes s)) else unicode_lower s.

(** ** Facts about [TrimSpace] *)
Lemma bytes_of_bytes l : bytes (of_bytes l) = l.
Proof. apply list_ascii_of_string_of_list_ascii. Qed.
Lemma of_bytes_bytes s : of_bytes (bytes s) = s.
Proof. apply string_of_list_ascii_of_string. Qed.
#[export] Hint Rewrite bytes_of_bytes of_bytes_bytes : cabot.

Lemma of_bytes_nil l : of_bytes l = ""%string <-> l = [].
Proof. by destruct l. Qed.

Section trim.
Context (sp2 : ascii -> ascii -> bool) (sp3 : ascii -> ascii -> ascii -> bool).
Abbreviation trim := (trim_with sp2 sp3).

(** Case analysis along the branches of [trim_with], by size. *)
Lemma trim_rect (P : list ascii -> list ascii -> Prop) :
  P [] [] ->
  (forall a l, space1 a = true -> P l (trim l) -> P (a :: l) (trim l)) ->
  (forall a b l, space1 a = false -> sp2 a b = true -> P l (trim l) -> P (a :: b :: l) (trim l)) ->
  (forall a b c l, space1 a = false -> sp2 a b = false -> sp3 a b c = true ->
     P l (trim l) -> P (a :: b :: c :: l) (trim l)) ->
  (forall l, trim l = l -> P l l) ->
  forall l, P l (trim l).
Proof.
  intros Hnil H1 H2 H3 Hid l.
  induction l as [l IH] using length_ind.
  destruct l as [|a l1]; [done|]. cbn.
  destruct (space1 a) eqn:E1; [apply H1; [done|apply IH; cbn; lia]|].
  destruct l1 as [|b l2]; [apply Hid; cbn; by rewrite E1|].
  destruct (sp2 a b) eqn:E2; [apply H2; [done..|apply IH; cbn; lia]|].
  destruct l2 as [|c l3]; [apply Hid; cbn; by rewrite E1, E2|].
  destruct (sp3 a b c) eqn:E3; [apply H3; [done..|apply IH; cbn; lia]|].
  apply Hid; cbn; by rewrite E1, E2, E3.
Qed.

Lemma trim_with_suffix l : exists k, trim l = drop k l.
Proof.
  apply (trim_rect (fun l t => exists k, t = drop k l)); [by exists 0%nat|..|by exists 0%nat].
  - intros a l0 _ [k ->]. by exists (S k).
  - intros a b l0 _ _ [k ->]. by exists (S (S k)).
  - intros a b c l0 _ _ _ [k ->]. by exists (S (S (S k))).
Qed.

Lemma trim_with_length l : (length (trim l) <= length l)%nat.
Proof. destruct (trim_with_suffix l) as [k ->]. rewrite length_drop. lia. Qed.

Lemma trim_with_idem l : trim (trim l) = trim l.
Proof. by apply (trim_rect (fun _ t => trim t = t)). Qed.

(** No pattern matches at the front. *)
Definition front_clean (l : list ascii) : bool :=
  match l with
  | [] => true
  | [a] => negb (space1 a)
  | [a; b] => negb (space1 a) && negb (sp2 a b)
  | a :: b :: c :: _ => negb (space1 a) && negb (sp2 a b) && negb (sp3 a b c)
  end.

Lemma trim_with_clean l : trim l = l <-> front_clean l = true.
Proof.
  split.
  - intros H. pose proof (trim_with_length (drop 1 l)) as L1.
    pose proof (trim_with_length (drop 2 l)) as L2.
    pose proof (trim_with_length (drop 3 l)) as L3.
    destruct l as [|a [|b [|c l]]]; cbn in *;
      repeat case_match; try done;
      repeat match goal with E : negb _ = _ |- _ => rewrite E end;
      try (apply (f_equal length) in H; cbn in H; cbn in *; lia);
      subst; cbn; try done.
  - destruct l as [|a [|b [|c l]]]; cbn; intros H; bool_prop; [done|..];
      repeat match goal with E : _ = false |- _ => rewrite E; clear E end; done.
Qed.

Lemma front_clean_take k l : front_clean l = true -> front_clean (take k l) = true.
Proof.
  destruct l as [|a [|b [|c l]]], k as [|[|[|k]]]; cbn; try done;
    rewrite ?andb_true_iff; naive_solver.
Qed.
End trim.

Lemma trim_right_prefix l : exists k, trim_right l = take k l.
Proof.
  unfold trim_right.
  destruct (trim_with_suffix (fun b a => space2 a b) (fun c b a => space3 a b c) (reverse l)) as [k ->].
  rewrite drop_reverse, reverse_involutive. eauto.
Qed.

Lemma trim_right_idem l : trim_right (trim_right l) = trim_right l.
Proof. unfold trim_right. by rewrite reverse_involutive, trim_with_idem. Qed.

Lemma trim_left_of_trim_right l : trim_left l = l -> trim_left (trim_right l) = trim_right l.
Proof.
  destruct (trim_right_prefix l) as [k ->]. unfold trim_left.
  rewrite !trim_with_clean. apply front_clean_take.
Qed.

Lemma TrimSpace_idem s : TrimSpace (TrimSpace s) = TrimSpace s.
Proof.
  unfold TrimSpace. rewrite bytes_of_bytes.
  rewrite trim_left_of_trim_right; [|apply trim_with_idem].
  by rewrite trim_right_idem.
Qed.

Lemma is_blank_TrimSpace s : is_blank (TrimSpace s) = is_blank s.
Proof. unfold is_blank. by rewrite TrimSpace_idem. Qed.

Lemma TrimSpace_len s : len (TrimSpace s) <= len s.
Proof.
  assert (Hlen : forall l, len (of_bytes l) = Z.of_nat (length l)).
  { intros l. unfold len. f_equal. induction l; cbn; congruence. }
  unfold TrimSpace. rewrite <- (of_bytes_bytes s) at 2. rewrite !Hlen.
  destruct (trim_right_prefix (trim_left (bytes s))) as [k ->].
  destruct (trim_with_suffix space2 space3 (bytes s)) as [j Hj].
  unfold trim_left. rewrite Hj, length_take, length_drop. lia.
Qed.

(** A string that starts with a printable ASCII byte is not blank: every
    ledger key and source type the code builds is of this shape. *)
Definition plain (a : ascii) : bool := is_ascii a && negb (space1 a).

Lemma plain_spec a : plain a = true -> space1 a = false /\ byte_val a < 128.
Proof. unfold plain, is_ascii, between. intros H. bool_prop. split; [done|lia]. Qed.

Lemma trim_with_last_plain l a :
  plain a = true -> last l = Some a ->
  trim_with (fun b a => space2 a b) (fun c b a => space3 a b c) l <> [].
Proof.
  intros [Hs Hv]%plain_spec.
  assert (H2 : forall b, space2 a b = false).
  { intros b. unfold space2, byte_is. by rewrite (proj2 (Z.eqb_neq _ 194)) by lia. }
  assert (H3 : forall b c, space3 a b c = false).
  { intros b c. unfold space3, byte_is. by rewrite !(proj2 (Z.eqb_neq (byte_val a) _)) by lia. }
  apply (trim_rect _ _ (fun l t => last l = Some a -> t <> [])).
  - done.
  - intros x [|y l'] ? IH ?; [naive_solver congruence|by apply IH].
  - intros x y [|z l'] ? ? IH ?; [naive_solver congruence|by apply IH].
  - intros x y z [|w l'] ? ? ? IH ?; [naive_solver congruence|by apply IH].
  - by intros [].
Qed.

Lemma not_blank_plain a s : plain a = true -> is_blank (String a s) = false.
Proof.
  intros Hp. unfold is_blank. apply bool_decide_eq_false. unfold TrimSpace.
  rewrite of_bytes_nil. intros Hnil.
  destruct (plain_spec a Hp) as [Hs Hv].
  assert (Hl : trim_left (bytes (String a s)) = a :: bytes s).
  { unfold trim_left. apply trim_with_clean.
    destruct (bytes s) as [|b [|c l]]; cbn -[space1 space2 space3]; rewrite Hs; cbn; [done|..];
      unfold space2, space3, byte_is; rewrite !(proj2 (Z.eqb_neq (byte_val a) _)) by lia; done. }
  rewrite Hl in Hnil. unfold trim_right in Hnil.
  apply (f_equal reverse) in Hnil. rewrite reverse_involutive, reverse_cons in Hnil.
  revert Hnil.
  apply (trim_with_last_plain _ a Hp). by rewrite last_snoc.
Qed.
#[export] Hint Rewrite TrimSpace_idem is_blank_TrimSpace : cabot.

(** A text that starts and ends with printable ASCII keeps what is between. *)
Lemma plain_not_space a : plain a = true ->
  (forall b, space2 a b = false) /\ (forall b, space2 b a = false)
  /\ (forall b c, space3 a b c = false) /\ (forall b c, space3 b a c = false) /\ (forall b c, space3 b c a = false).
Proof.
  intros [_ Hv]%plain_spec. unfold space2, space3, byte_is, between.
  assert (Hn : forall z, 128 <= z -> (byte_val a =? z) = false) by (intros z Hz; apply Z.eqb_neq; lia).
  assert (Hl : (128 <=? byte_val a) = false) by (apply Z.leb_gt; lia).
  split_and!; intros; rewrite ?Hl, ?Hn by lia; cbn; rewrite ?andb_false_r; done.
Qed.

Lemma trim_left_plain a l : plain a = true -> trim_left (a :: l) = a :: l.
Proof.
  intros Hp. destruct (plain_spec a Hp) as [Hs _]. destruct (plain_not_space a Hp) as (H2 & _ & H3 & _).
  unfold trim_left. apply trim_with_clean. destruct l as [|b [|c l]]; cbn; by rewrite Hs, ?H2, ?H3.
Qed.

Lemma trim_with_stops a l q : plain a = true ->
  exists l', trim_with (fun b a => space2 a b) (fun c b a => space3 a b c) (l ++ a :: q) = l' ++ a :: q.
Proof.
  intros Hp. destruct (plain_spec a Hp) as [Hs _]. destruct (plain_not_space a Hp) as (H2 & H2' & H3 & H3' & H3'').
  enough (H : forall m, (fun l0 t => forall l, l0 = l ++ a :: q -> exists l', t = l' ++ a :: q) m
    (trim_with (fun b a => space2 a b) (fun c b a => space3 a b c) m)) by by eapply H.
  apply (trim_rect _ _ (fun l0 t => forall l, l0 = l ++ a :: q -> exists l', t = l' ++ a :: q)).
  - by intros [].
  - intros x m Hx IH [|y l0] [= -> Hm]; [congruence|by eapply IH].
  - intros x y m _ Hxy IH [|x' [|y' l0]]; intros [= -> Hm]; [by rewrite H2' in Hxy| |by eapply IH; simplify_eq].
    simplify_eq. by rewrite H2 in Hxy.
  - intros x y z m _ _ Hxyz IH [|x' [|y' [|z' l0]]]; intros [= -> Hm]; simplify_eq;
      [by rewrite H3'' in Hxyz|by rewrite H3' in Hxyz|by rewrite H3 in Hxyz|by eapply IH].
  - eauto.
Qed.

Lemma TrimSpace_keeps a l b q : plain a = true -> plain b = true ->
  exists q', TrimSpace (of_bytes (a :: l ++ b :: q)) = of_bytes (a :: l ++ b :: q').
Proof.
  intros Ha Hb. unfold TrimSpace. rewrite bytes_of_bytes, trim_left_plain by done. unfold trim_right.
  rewrite app_comm_cons, reverse_app, reverse_cons, <- app_assoc. cbn [app].
  destruct (trim_with_stops b (reverse q) (reverse (a :: l)) Hb) as [l' ->].
  exists (reverse l'). by rewrite reverse_app, reverse_cons, reverse_involutive, <- app_assoc.
Qed.
Lemma TrimSpace_plain_ends a l b : plain a = true -> plain b = true -> TrimSpace (of_bytes (a :: l ++ [b])) = of_bytes (a :: l ++ [b]).
Proof.
  intros Ha Hb. destruct (TrimSpace_keeps a l b [] Ha Hb) as [q' Hq]. rewrite Hq. pose proof (TrimSpace_len (of_bytes (a :: l ++ [b]))) as Hl.
  assert (Hlen : forall l, len (of_bytes l) = Z.of_nat (length l)) by (intros m; unfold len; f_equal; induction m; cbn; congruence).
  rewrite Hq, !Hlen in Hl. cbn in Hl. rewrite !length_app in Hl. cbn in Hl. destruct q'; [done|cbn in Hl; lia].
Qed.
Lemma TrimSpace_plain_one a : plain a = true -> TrimSpace (of_bytes [a]) = of_bytes [a].
Proof.
  intros Ha. unfold TrimSpace. rewrite bytes_of_bytes, trim_left_plain by done. unfold trim_right. cbn.
  destruct (plain_spec a Ha) as [-> _]. done.
Qed.
