(* ===== verification/GoTime.v ===== *)
(** * The parts of Go's [time] package the modelled code uses

    A [time.Time] is an instant, in nanoseconds since the zero time (1 January
    of year 1, UTC), together with whether its location is [time.UTC].
    Monotonic clock readings are not modelled. A [time.Duration] is an int64
    number of nanoseconds. *)
From S2P Require Import Prelude.

Record Time := mkTime { nanos : Z; loc_utc : bool }.

#[export] Instance Time_eq_dec : EqDecision Time.
Proof. solve_decision. Defined.

Definition zeroTime : Time := mkTime 0 true.
Definition IsZero (t : Time) : bool := nanos t =? 0.
Definition Before (t u : Time) : bool := nanos t <? nanos u.
Definition After (t u : Time) : bool := nanos u <? nanos t.
Definition TimeEqual (t u : Time) : bool := nanos t =? nanos u.
Definition UTC (t : Time) : Time := mkTime (nanos t) true.
Definition TimeAdd (t : Time) (d : Z) : Time := mkTime (nanos t + d) (loc_utc t).

Definition Nanosecond : Z := 1.
Definition Microsecond : Z := 1000 * Nanosecond.
Definition Millisecond : Z := 1000 * Microsecond.
Definition Second : Z := 1000 * Millisecond.
Definition Minute : Z := 60 * Second.
Definition Hour : Z := 60 * Minute.

(** [t.Truncate(d)] rounds down to a multiple of [d] since the zero time. *)
Definition Truncate (t : Time) (d : Z) : Time :=
  if d <=? 0 then t else mkTime (nanos t - nanos t mod d) (loc_utc t).

Lemma IsZero_UTC t : IsZero (UTC t) = IsZero t.
Proof. done. Qed.
Lemma UTC_UTC t : UTC (UTC t) = UTC t.
Proof. done. Qed.
Lemma Before_irrefl t : Before t t = false.
Proof. unfold Before. apply Z.ltb_irrefl. Qed.
Lemma Before_After t u : Before t u = After u t.
Proof. done. Qed.
#[export] Hint Rewrite IsZero_UTC UTC_UTC : cabot.

Ltac time_prop :=
  unfold Before, After, TimeEqual, IsZero, UTC, TimeAdd in *; cbn in *; bool_prop.
