(* ===== verification/Decimal.v ===== *)
(** * Decimal text

    What a run of digits is worth, [strconv.ParseInt] on it, [fmt.Sprintf] of a
    number that is not negative, and texts cut at their dots. *)
From S2P Require Import Prelude GoStrings.

(** ** Digits *)
Lemma digits_val_from acc l :
  foldl (fun acc a => acc * 10 + digit_val a) acc l = acc * 10 ^ Z.of_nat (length l) + digits_val l.
Proof.
  unfold digits_val. revert acc. induction l as [|a l IH]; intros acc; cbn [foldl length]; [lia|].
  rewrite IH, (IH (0 * 10 + digit_val a)). rewrite Nat2Z.inj_succ, Z.pow_succ_r by lia. ring.
Qed.
Lemma digits_val_cons a l : digits_val (a :: l) = digit_val a * 10 ^ Z.of_nat (length l) + digits_val l.
Proof. unfold digits_val at 1. cbn [foldl]. by rewrite digits_val_from. Qed.
Lemma digits_val_app l1 l2 :
  digits_val (l1 ++ l2) = digits_val l1 * 10 ^ Z.of_nat (length l2) + digits_val l2.
Proof. unfold digits_val at 1. rewrite foldl_app. apply digits_val_from. Qed.

Lemma is_digit_val a : is_digit a = true -> 0 <= digit_val a <= 9.
Proof. unfold is_digit, between, digit_val. intros H. bool_prop. lia. Qed.
Lemma digits_val_range l : forallb is_digit l = true -> 0 <= digits_val l < 10 ^ Z.of_nat (length l).
Proof.
  induction l as [|a l IH]; [cbn; lia|]. cbn [forallb]. rewrite andb_true_iff. intros [Ha Hl].
  rewrite digits_val_cons. cbn [length]. rewrite Nat2Z.inj_succ, Z.pow_succ_r by lia.
  apply is_digit_val in Ha. specialize (IH Hl). nia.
Qed.

(** A digit is not a sign or a dot. *)
Lemma digit_not z a : is_digit a = true -> z < 48 -> byte_is z a = false.
Proof. unfold is_digit, between, byte_is. intros H Hz. bool_prop. apply Z.eqb_neq. lia. Qed.

Lemma ParseInt_digits bits l : l <> [] -> forallb is_digit l = true ->
  ParseInt bits (of_bytes l) = if digits_val l <? 2 ^ (bits - 1) then Some (digits_val l) else None.
Proof.
  intros Hne Hl. unfold ParseInt. rewrite bytes_of_bytes. destruct l as [|a l]; [done|]. pose proof Hl as Ha. cbn in Ha.
  apply andb_true_iff in Ha as [Ha _]. rewrite !(digit_not _ a) by (done || lia). by rewrite Hl.
Qed.

(** ** Numbers printed *)
Lemma pretty_N_char_digit n : (n < 10)%N -> is_digit (pretty_N_char n) = true /\ digit_val (pretty_N_char n) = Z.of_N n.
Proof.
  intros Hn. destruct n as [|p]; [done|]. do 4 (destruct p as [p|p|]; try done); lia.
Qed.

Lemma pretty_N_go_digits n : forall s, forallb is_digit (bytes s) = true ->
  forallb is_digit (bytes (pretty_N_go n s)) = true
  /\ digits_val (bytes (pretty_N_go n s)) = Z.of_N n * 10 ^ Z.of_nat (length (bytes s)) + digits_val (bytes s).
Proof.
  induction (N.lt_wf_0 n) as [n _ IH]; intros s Hs. destruct (decide (0 < n)%N) as [Hpos|Hz].
  - rewrite pretty_N_go_step by done. destruct (pretty_N_char_digit (n mod 10)) as [Hd Hv]; [by apply N.mod_lt|].
    destruct (IH (n / 10)%N) with (s := String (pretty_N_char (n mod 10)) s) as [H1 H2]; [by apply N.div_lt|..].
    { cbn. by rewrite Hd. }
    split; [done|]. rewrite H2. change (bytes (String ?a s)) with (a :: bytes s). rewrite digits_val_cons, Hv.
    cbn [length]. rewrite Nat2Z.inj_succ, Z.pow_succ_r by lia. pose proof (N.div_mod n 10). rewrite N2Z.inj_div, N2Z.inj_mod in *.
    change (Z.of_N 10) with 10 in *. pose proof (Z.div_mod (Z.of_N n) 10). nia.
  - replace n with 0%N by lia. rewrite pretty_N_go_0. split; [done|lia].
Qed.

Lemma sprint_d_pos p : sprint_d (Z.pos p) = pretty_N_go (N.pos p) "".
Proof. done. Qed.
Lemma sprint_d_digits n : 0 <= n ->
  forallb is_digit (bytes (sprint_d n)) = true /\ digits_val (bytes (sprint_d n)) = n /\ bytes (sprint_d n) <> [].
Proof.
  intros Hn. destruct n as [|p|p]; [done| |lia]. rewrite sprint_d_pos.
  destruct (pretty_N_go_digits (N.pos p) "" eq_refl) as [H1 H2]. split; [done|]. cbn [bytes list_ascii_of_string length] in H2.
  rewrite H2. split; [cbn; lia|]. intros E. rewrite E in H2. cbn in H2. lia.
Qed.

(** The text of a number has as many digits as the number. *)
Lemma pretty_N_go_length n : forall s k, (n < 10 ^ N.of_nat k)%N -> (length (bytes (pretty_N_go n s)) <= k + length (bytes s))%nat.
Proof.
  induction (N.lt_wf_0 n) as [n _ IH]; intros s k Hk. destruct (decide (0 < n)%N) as [Hpos|Hz].
  - rewrite pretty_N_go_step by done. destruct k as [|k]; [cbn in Hk; lia|].
    etrans; [apply (IH (n / 10)%N) with (k := k)|cbn; lia]; [by apply N.div_lt|].
    rewrite Nat2N.inj_succ, N.pow_succ_r' in Hk. by apply N.Div0.div_lt_upper_bound.
  - replace n with 0%N by lia. rewrite pretty_N_go_0. lia.
Qed.
Lemma sprint_d_length n k : 0 <= n < 10 ^ Z.of_nat k -> (1 <= k)%nat -> (length (bytes (sprint_d n)) <= k)%nat.
Proof.
  intros [Hn Hk] H1. destruct n as [|p|p]; [done| |lia]. rewrite sprint_d_pos.
  etrans; [apply (pretty_N_go_length _ _ k)|cbn; lia]. apply N2Z.inj_lt. rewrite N2Z.inj_pow, nat_N_Z. exact Hk.
Qed.

(** ** Dots *)
Definition dot : ascii := ".".
Lemma byte_is_dot a : byte_is 46 a = true <-> a = dot.
Proof. split; [|by intros ->]. destruct a as [[] [] [] [] [] [] [] []]; try done; vm_compute; congruence. Qed.

Definition no_dot (l : list ascii) : bool := forallb (fun a => negb (byte_is 46 a)) l.
Lemma split_on_none l : no_dot l = true -> split_on 46 l = [l].
Proof.
  induction l as [|a l IH]; [done|]. cbn. rewrite andb_true_iff, negb_true_iff. intros [-> Hl]. by rewrite IH.
Qed.
Lemma split_on_dot p q : no_dot p = true -> split_on 46 (p ++ dot :: q) = p :: split_on 46 q.
Proof.
  induction p as [|a p IH]; [done|]. cbn. rewrite andb_true_iff, negb_true_iff. intros [-> Hp]. by rewrite IH.
Qed.
Lemma split_on_nonempty l : split_on 46 l <> [].
Proof. destruct l as [|a l]; [done|]. cbn. by destruct (byte_is 46 a), (split_on 46 l). Qed.
(** The parts of a text, one or two of them, are what it is made of. *)
Lemma split_on_inv l p ps :
  split_on 46 l = p :: ps -> no_dot p = true /\ (ps = [] /\ l = p \/ exists q, ps = split_on 46 q /\ l = p ++ dot :: q).
Proof.
  revert p ps. induction l as [|a l IH]; intros p ps; cbn.
  - intros [= <- <-]. auto.
  - destruct (byte_is 46 a) eqn:Ha.
    + apply byte_is_dot in Ha as ->. intros [= <- <-]. split; [done|]. right. by exists l.
    + destruct (split_on 46 l) as [|w ws] eqn:Hs; intros [= <- <-].
      * destruct l as [|b l]; [done|]. cbn in Hs. destruct (byte_is 46 b); [done|]. by destruct (split_on 46 l).
      * destruct (IH _ _ eq_refl) as (Hn & Hc). cbn. rewrite Ha. split; [done|].
        destruct Hc as [[-> ->]|(q & -> & ->)]; [auto|]. right. by exists q.
Qed.

Lemma digits_no_dot l : forallb is_digit l = true -> no_dot l = true.
Proof.
  unfold no_dot. rewrite !forallb_forall. intros H a Ha. by rewrite (digit_not 46 a) by (lia || by apply H).
Qed.
