(* ===== verification/Ledger.v ===== *)
(** * internal/ledger: money, American odds and double-entry transactions

    [money.go], [odds.go] and [posting.go]: int64 cents with checked
    arithmetic, the integer profit computation, and the validation every
    ledger transaction passes before it is stored. *)
From S2P Require Import Prelude GoStrings.

Definition ErrInvalidCurrency := Sentinel "ledger.ErrInvalidCurrency".
Definition ErrCurrencyMismatch := Sentinel "ledger.ErrCurrencyMismatch".
Definition ErrAmountOverflow := Sentinel "ledger.ErrAmountOverflow".
Definition ErrInvalidAmericanOdds := Sentinel "ledger.ErrInvalidAmericanOdds".
Definition ErrInvalidStake := Sentinel "ledger.ErrInvalidStake".
Definition ErrInvalidTransaction := Sentinel "ledger.ErrInvalidTransaction".
Definition ErrUnbalancedPostings := Sentinel "ledger.ErrUnbalancedPostings".

(** ** money.go *)
Definition Currency := string.
Definition CAD : Currency := "CAD".

(** The loop ranges over rune starts; a byte outside A-Z is first met at a
    rune start, so it is the test that every byte is in A-Z. *)
Definition ParseCurrency (value : string) : result Currency :=
  fail_if (negb (len value =? 3)) ErrInvalidCurrency;;
  fail_if (negb (all_bytes is_upper value)) ErrInvalidCurrency;;
  Ok value.

Definition Currency_Validate (c : Currency) : result unit :=
  ParseCurrency c;; Ok ().

Record Money := mkMoney { Cents : Z; Money_Currency : Currency }.

#[export] Instance Money_eq_dec : EqDecision Money.
Proof. solve_decision. Defined.

Definition NewMoney (cents : Z) (currency : Currency) : result Money :=
  Currency_Validate currency;; Ok (mkMoney cents currency).

Definition Money_Validate (m : Money) : result unit := Currency_Validate (Money_Currency m).

Definition Money_Add (m other : Money) : result Money :=
  Money_Validate m;;
  Money_Validate other;;
  fail_if (negb (bool_decide (Money_Currency m = Money_Currency other))) ErrCurrencyMismatch;;
  fail_if (((0 <? Cents other) && (MaxInt64 - Cents other <? Cents m))
           || ((Cents other <? 0) && (Cents m <? MinInt64 - Cents other))) ErrAmountOverflow;;
  Ok (mkMoney (wrap64 (Cents m + Cents other)) (Money_Currency m)).

Definition Negate (m : Money) : result Money :=
  Money_Validate m;;
  fail_if (Cents m =? MinInt64) ErrAmountOverflow;;
  Ok (mkMoney (wrap64 (- Cents m)) (Money_Currency m)).

(** ** odds.go *)
Definition AmericanOdds := Z.

Definition Odds_Validate (o : AmericanOdds) : result unit :=
  fail_if ((-100 <? o) && (o <? 100)) ErrInvalidAmericanOdds.

Definition NewAmericanOdds (value : Z) : result AmericanOdds :=
  Odds_Validate value;; Ok value.

(** The ratio a price pays: profit per unit staked is numerator/denominator. *)
Definition odds_ratio (o : AmericanOdds) : Z * Z :=
  if 0 <? o then (o, 100) else (100, - o).

Definition Profit (o : AmericanOdds) (stake : Money) : result Money :=
  Odds_Validate o;;
  Money_Validate stake;;
  fail_if (Cents stake <=? 0) ErrInvalidStake;;
  let '(numerator, denominator) := odds_ratio o in
  fail_if (quot64 MaxInt64 numerator <? Cents stake) ErrAmountOverflow;;
  let product := wrap64 (Cents stake * numerator) in
  let profit := quot64 product denominator in
  if quot64 (denominator + 1) 2 <=? rem64 product denominator then
    fail_if (profit =? MaxInt64) ErrAmountOverflow;;
    Ok (mkMoney (profit + 1) (Money_Currency stake))
  else Ok (mkMoney profit (Money_Currency stake)).

Definition Return (o : AmericanOdds) (stake : Money) : result Money :=
  profit ← Profit o stake;
  Money_Add stake profit.

(** ** posting.go

    A Go string-typed enumeration also holds texts outside its constants;
    [TransactionOther s] is such a text. *)
Inductive TransactionType :=
  | TransactionWagerAcceptance
  | TransactionWagerWin
  | TransactionWagerLoss
  | TransactionWagerRefund
  | TransactionAdminAdjustment
  | TransactionMigrationAdjust
  | TransactionReversal
  | TransactionOther (text : string).

#[export] Instance TransactionType_eq_dec : EqDecision TransactionType.
Proof. solve_decision. Defined.

Definition TransactionType_Validate (t : TransactionType) : result unit :=
  match t with
  | TransactionOther _ => Err (Wrapf "%w: unknown type %q" ErrInvalidTransaction)
  | _ => Ok ()
  end.

Record Posting := mkPosting { AccountID : string; Amount : Money }.

Record Transaction := mkTransaction {
  Tx_Type : TransactionType;
  Tx_Currency : Currency;
  Tx_IdempotencyKey : string;
  Tx_Actor : string;
  Tx_SourceType : string;
  Tx_SourceID : string;
  Tx_Reason : string;
  Tx_ReversalOf : string;
  Tx_Postings : list Posting
}.

Definition ExpectedPostingCount (t : Transaction) : nat := length (Tx_Postings t).

(** The body of [ValidatePostings]' loop over the postings still to read,
    with the trimmed accounts seen and the running int64 sum. *)
Fixpoint validate_postings_loop (currency : Currency) (postings : list Posting)
    (seen : gset string) (sum : Z) : result Z :=
  match postings with
  | [] => Ok sum
  | posting :: rest =>
      let accountID := TrimSpace (AccountID posting) in
      fail_if (bool_decide (accountID = ""%string)) (Wrapf "%w: posting %d has no account" ErrInvalidTransaction);;
      fail_if (bool_decide (accountID ∈ seen)) (Wrapf "%w: account %q is posted more than once" ErrInvalidTransaction);;
      or_err (Wrapf "%w: posting %d: %v" ErrInvalidTransaction) (Money_Validate (Amount posting));;
      fail_if (negb (bool_decide (Money_Currency (Amount posting) = currency)))
        (Wrapf "%w: posting %d: %v" ErrInvalidTransaction);;
      fail_if (Cents (Amount posting) =? 0) (Wrapf "%w: posting %d is zero" ErrInvalidTransaction);;
      let amount := Cents (Amount posting) in
      fail_if (((0 <? amount) && (MaxInt64 - amount <? sum))
               || ((amount <? 0) && (sum <? MinInt64 - amount))) ErrAmountOverflow;;
      validate_postings_loop currency rest ({[accountID]} ∪ seen) (wrap64 (sum + amount))
  end.

Definition ValidatePostings (currency : Currency) (postings : list Posting) : result unit :=
  Currency_Validate currency;;
  fail_if (Z.of_nat (length postings) <? 2) (Wrapf "%w: at least two postings are required" ErrUnbalancedPostings);;
  sum ← validate_postings_loop currency postings ∅ 0;
  fail_if (negb (sum =? 0)) (Wrapf "%w: net is %d cents" ErrUnbalancedPostings).

Definition needs_reason (t : TransactionType) : bool :=
  match t with
  | TransactionAdminAdjustment | TransactionMigrationAdjust | TransactionReversal => true
  | _ => false
  end.

Definition Transaction_Validate (t : Transaction) : result unit :=
  TransactionType_Validate (Tx_Type t);;
  or_err (Wrapf "%w: %v" ErrInvalidTransaction) (Currency_Validate (Tx_Currency t));;
  fail_if (is_blank (Tx_IdempotencyKey t) || is_blank (Tx_Actor t)
           || is_blank (Tx_SourceType t) || is_blank (Tx_SourceID t))
    (Wrapf "%w: idempotency key, actor, and source reference are required" ErrInvalidTransaction);;
  fail_if (bool_decide (Tx_Type t = TransactionReversal) && is_blank (Tx_ReversalOf t))
    (Wrapf "%w: reversal must reference the original transaction" ErrInvalidTransaction);;
  fail_if (needs_reason (Tx_Type t) && is_blank (Tx_Reason t))
    (Wrapf "%w: adjustment and reversal transactions require a reason" ErrInvalidTransaction);;
  ValidatePostings (Tx_Currency t) (Tx_Postings t).

(** ** Specifications *)

(** The currency texts the code accepts. *)
Definition valid_currency (c : Currency) : bool := (len c =? 3) && all_bytes is_upper c.

(** Nearest cent to [cents * numerator / denominator], exact halves up. *)
Definition profit_spec (o : AmericanOdds) (cents : Z) : Z :=
  let '(n, d) := odds_ratio o in (2 * (cents * n) + d) / (2 * d).

(** What one transaction does to one account. *)
Definition net (account : string) (ps : list Posting) : Z :=
  sumZ (fun p => if bool_decide (AccountID p = account) then Cents (Amount p) else 0) ps.

(** Account balances after posting, and the total the ledger holds. *)
Definition post_one (p : Posting) (balances : gmap string Z) : gmap string Z :=
  <[AccountID p := default 0 (balances !! AccountID p) + Cents (Amount p)]> balances.
Definition post_all (ps : list Posting) (balances : gmap string Z) : gmap string Z :=
  foldr post_one balances ps.
Definition total (balances : gmap string Z) : Z := map_fold (fun _ v acc => v + acc) 0 balances.

(** ** Lemmas *)
Lemma Currency_Validate_Ok c u : Currency_Validate c = Ok u <-> valid_currency c = true.
Proof.
  unfold Currency_Validate, ParseCurrency, valid_currency, fail_if. destruct u.
  destruct (len c =? 3), (all_bytes is_upper c); cbn; naive_solver.
Qed.

Lemma Currency_Validate_err c : valid_currency c = false -> Currency_Validate c = Err ErrInvalidCurrency.
Proof.
  unfold Currency_Validate, ParseCurrency, valid_currency, fail_if.
  destruct (len c =? 3), (all_bytes is_upper c); cbn; naive_solver.
Qed.

Lemma Money_Validate_Ok m u : Money_Validate m = Ok u <-> valid_currency (Money_Currency m) = true.
Proof. apply Currency_Validate_Ok. Qed.

Lemma Odds_Validate_Ok o u : Odds_Validate o = Ok u <-> o <= -100 \/ 100 <= o.
Proof. unfold Odds_Validate. rewrite fail_if_Ok, andb_false_iff, !Z.ltb_ge. lia. Qed.

Lemma valid_currency_Ok c : valid_currency c = true -> Currency_Validate c = Ok ().
Proof. apply (Currency_Validate_Ok c ()). Qed.
#[export] Hint Resolve valid_currency_Ok : cabot.

(** Checked addition: the exact sum, or the overflow error. *)
Lemma Money_Add_spec m other :
  int64 (Cents m) -> int64 (Cents other) ->
  valid_currency (Money_Currency m) = true -> Money_Currency other = Money_Currency m ->
  Money_Add m other =
    if decide (int64 (Cents m + Cents other))
    then Ok (mkMoney (Cents m + Cents other) (Money_Currency m)) else Err ErrAmountOverflow.
Proof.
  intros Hm Ho Hc Heq. unfold Money_Add, Money_Validate. rewrite Heq, valid_currency_Ok by done.
  cbn. rewrite bool_decide_true by done. cbn.
  destruct m as [x c], other as [y c']; cbn in *. unfold fail_if. case_decide as Hi.
  - rewrite wrap64_id by done. unfold int64, MaxInt64, MinInt64 in *.
    destruct (Z.ltb_spec 0 y), (Z.ltb_spec (9223372036854775807 - y) x),
      (Z.ltb_spec y 0), (Z.ltb_spec x (-9223372036854775808 - y)); cbn; done || lia.
  - unfold int64, MaxInt64, MinInt64 in *.
    destruct (Z.ltb_spec 0 y), (Z.ltb_spec (9223372036854775807 - y) x),
      (Z.ltb_spec y 0), (Z.ltb_spec x (-9223372036854775808 - y)); cbn; done || lia.
Qed.

Lemma Negate_Ok m r :
  int64 (Cents m) -> Negate m = Ok r ->
  r = mkMoney (- Cents m) (Money_Currency m) /\ Cents m <> MinInt64
  /\ valid_currency (Money_Currency m) = true.
Proof.
  unfold Negate. intros Hi H. go_inv. apply Money_Validate_Ok in Hok. bool_prop.
  split_and!; try done. rewrite wrap64_id; [done|].
  unfold int64, MinInt64, MaxInt64 in *. lia.
Qed.

Lemma Negate_pos m :
  0 < Cents m <= MaxInt64 -> valid_currency (Money_Currency m) = true ->
  Negate m = Ok (mkMoney (- Cents m) (Money_Currency m)).
Proof.
  intros Hp Hc. unfold Negate, Money_Validate. rewrite valid_currency_Ok by done. cbn.
  unfold MinInt64, MaxInt64, fail_if in *.
  rewrite (proj2 (Z.eqb_neq _ _)) by lia. cbn. rewrite wrap64_id; [done|].
  unfold int64, MinInt64, MaxInt64. lia.
Qed.

(** int32 prices the code accepts. *)
Definition valid_odds (o : AmericanOdds) : Prop :=
  -2147483648 <= o <= 2147483647 /\ (o <= -100 \/ 100 <= o).

Lemma odds_ratio_pos o n d : valid_odds o -> odds_ratio o = (n, d) -> 100 <= n /\ 100 <= d.
Proof.
  unfold valid_odds, odds_ratio. intros [? ?].
  destruct (Z.ltb_spec 0 o); intros [= <- <-]; lia.
Qed.

(** The code rounds the truncated quotient up exactly when the remainder is
    at least half the denominator: this is floor(x + 1/2). *)
Lemma half_up_eq x d :
  0 <= x -> 0 < d ->
  (2 * x + d) / (2 * d) =
    if Z.quot (d + 1) 2 <=? Z.rem x d then Z.quot x d + 1 else Z.quot x d.
Proof.
  intros Hx Hd. rewrite Z.quot_div_nonneg, Z.rem_mod_nonneg, (Z.quot_div_nonneg x) by lia.
  pose proof (Z.div_mod x d ltac:(lia)). pose proof (Z.mod_pos_bound x d ltac:(lia)).
  pose proof (Z.div_mod (d + 1) 2 ltac:(lia)). pose proof (Z.mod_pos_bound (d + 1) 2 ltac:(lia)).
  set (q := x / d) in *. set (r := x mod d) in *. set (h := (d + 1) / 2) in *.
  symmetry. destruct (Z.leb_spec h r).
  - apply Z.div_unique with (2 * r - d); nia.
  - apply Z.div_unique with (2 * r + d); nia.
Qed.

Lemma Profit_eq o stake :
  valid_odds o -> valid_currency (Money_Currency stake) = true -> 0 < Cents stake <= MaxInt64 ->
  Profit o stake =
    if MaxInt64 / fst (odds_ratio o) <? Cents stake then Err ErrAmountOverflow
    else Ok (mkMoney (profit_spec o (Cents stake)) (Money_Currency stake)).
Proof.
  intros Ho Hc Hs. unfold Profit, Money_Validate.
  rewrite (proj2 (Odds_Validate_Ok o ()) (proj2 Ho)), valid_currency_Ok by done.
  unfold fail_if at 1. rewrite (proj2 (Z.leb_gt _ _)) by lia. cbn.
  unfold profit_spec. destruct (odds_ratio o) as [n d] eqn:E.
  destruct (odds_ratio_pos o n d Ho E) as [Hn Hd]. cbn.
  assert (0 <= MaxInt64 / n <= MaxInt64).
  { split; [apply Z.div_pos; unfold MaxInt64; lia|]. apply Z.div_le_upper_bound; unfold MaxInt64; nia. }
  assert (Hq : quot64 MaxInt64 n = MaxInt64 / n).
  { unfold quot64. rewrite Z.quot_div_nonneg, wrap64_id; try (unfold MaxInt64; lia). 
    unfold int64, MinInt64. lia. }
  rewrite Hq. unfold fail_if at 1. destruct (Z.ltb_spec (MaxInt64 / n) (Cents stake)) as [|Hle]; [done|].
  cbn. assert (Hprod : 0 <= Cents stake * n <= MaxInt64).
  { split; [nia|]. pose proof (Z.mul_div_le MaxInt64 n ltac:(lia)). nia. }
  rewrite wrap64_id by (unfold int64, MinInt64; lia). set (x := Cents stake * n) in *.
  rewrite half_up_eq by lia.
  assert (Hh : quot64 (d + 1) 2 = Z.quot (d + 1) 2).
  { unfold quot64. apply wrap64_id. rewrite Z.quot_div_nonneg by lia.
    assert (d <= 2147483648). { unfold odds_ratio in E. destruct (0 <? o); injection E; unfold valid_odds in Ho; lia. }
    assert (0 <= (d + 1) / 2 <= d + 1) by (split; [apply Z.div_pos|apply Z.div_le_upper_bound]; lia).
    unfold int64, MinInt64, MaxInt64. lia. }
  assert (Hp : 0 <= Z.quot x d < MaxInt64).
  { rewrite Z.quot_div_nonneg by lia. split; [apply Z.div_pos; lia|].
    apply Z.div_lt_upper_bound; unfold MaxInt64 in *; nia. }
  assert (Hpq : quot64 x d = Z.quot x d).
  { unfold quot64. apply wrap64_id. unfold int64, MinInt64. lia. }
  unfold rem64. rewrite Hh, Hpq. destruct (_ <=? _); [|done].
  unfold fail_if. rewrite (proj2 (Z.eqb_neq _ _)) by lia. done.
Qed.

Lemma profit_spec_bounds o c :
  valid_odds o -> 0 <= c -> 0 <= profit_spec o c.
Proof.
  intros Ho Hc. unfold profit_spec. destruct (odds_ratio o) as [n d] eqn:E.
  destruct (odds_ratio_pos o n d Ho E). apply Z.div_pos; nia.
Qed.

Lemma profit_spec_mono o c1 c2 :
  valid_odds o -> 0 <= c1 <= c2 -> profit_spec o c1 <= profit_spec o c2.
Proof.
  intros Ho Hc. unfold profit_spec. destruct (odds_ratio o) as [n d] eqn:E.
  destruct (odds_ratio_pos o n d Ho E). apply Z.div_le_mono; nia.
Qed.

(** What a successful [Profit] tells its caller. *)
Lemma Profit_Ok o stake p :
  -2147483648 <= o <= 2147483647 -> int64 (Cents stake) -> Profit o stake = Ok p ->
  valid_odds o /\ valid_currency (Money_Currency stake) = true /\ 0 < Cents stake
  /\ Cents stake <= MaxInt64 / 100
  /\ p = mkMoney (profit_spec o (Cents stake)) (Money_Currency stake) /\ 0 <= Cents p <= MaxInt64.
Proof.
  intros Hr Hi H. assert (H0 := H). unfold Profit in H. go_inv.
  apply Odds_Validate_Ok in Hok. apply Money_Validate_Ok in Hok0. bool_prop.
  assert (Ho : valid_odds o) by done. unfold int64 in Hi.
  rewrite Profit_eq in H0 by (done || lia).
  destruct (Z.ltb_spec (MaxInt64 / fst (odds_ratio o)) (Cents stake)) as [|Hle]; [done|].
  go_inv. destruct (odds_ratio o) as [n d] eqn:E.
  destruct (odds_ratio_pos o n d Ho E) as [Hn Hd]. cbn [fst] in *.
  assert (MaxInt64 / n <= MaxInt64 / 100) by (apply Z.div_le_compat_l; unfold MaxInt64; lia).
  split_and!; try done; try lia; cbn.
  - apply profit_spec_bounds; lia || done.
  - unfold profit_spec. rewrite E. pose proof (Z.mul_div_le MaxInt64 n ltac:(lia)).
    apply Z.div_le_upper_bound; [lia|]. unfold MaxInt64 in *. nia.
Qed.

Lemma profit_spec_int64 o c :
  valid_odds o -> 0 < c <= MaxInt64 / fst (odds_ratio o) -> 0 <= profit_spec o c <= MaxInt64.
Proof.
  intros Ho Hc. split; [apply profit_spec_bounds; lia || done|].
  unfold profit_spec. destruct (odds_ratio o) as [n d] eqn:E.
  destruct (odds_ratio_pos o n d Ho E) as [Hn Hd]. cbn [fst] in *.
  pose proof (Z.mul_div_le MaxInt64 n ltac:(lia)).
  apply Z.div_le_upper_bound; [lia|]. unfold MaxInt64 in *. nia.
Qed.

Lemma Profit_iff o stake p :
  -2147483648 <= o <= 2147483647 -> int64 (Cents stake) ->
  Profit o stake = Ok p <->
    valid_odds o /\ valid_currency (Money_Currency stake) = true
    /\ 0 < Cents stake <= MaxInt64 / fst (odds_ratio o)
    /\ p = mkMoney (profit_spec o (Cents stake)) (Money_Currency stake).
Proof.
  intros Hr Hi. split.
  - intros H. pose proof (Profit_Ok o stake p Hr Hi H) as (Ho & Hc & Hs & _ & -> & _).
    unfold int64 in Hi. rewrite Profit_eq in H by (done || lia).
    destruct (Z.ltb_spec (MaxInt64 / fst (odds_ratio o)) (Cents stake)); [done|].
    split_and!; try done.
  - intros (Ho & Hc & Hs & ->). unfold int64 in Hi. rewrite Profit_eq by (done || lia).
    by rewrite (proj2 (Z.ltb_ge _ _)) by lia.
Qed.

(** *** Postings *)
Definition posting_ok (currency : Currency) (p : Posting) : Prop :=
  is_blank (AccountID p) = false /\ Money_Currency (Amount p) = currency
  /\ valid_currency (Money_Currency (Amount p)) = true /\ Cents (Amount p) <> 0.
Definition posting_account (p : Posting) : string := TrimSpace (AccountID p).
Definition posting_cents (p : Posting) : Z := Cents (Amount p).

(** The running sum is checked before every addition, so the loop never
    wraps: its int64 accumulator is the exact sum. *)
Definition prefixes_in_range (start : Z) (ps : list Posting) : Prop :=
  forall k, int64 (start + sumZ posting_cents (take k ps)).

Lemma overflow_guard amount sum :
  int64 amount -> int64 sum ->
  ((0 <? amount) && (MaxInt64 - amount <? sum)) || ((amount <? 0) && (sum <? MinInt64 - amount)) = false
  <-> int64 (sum + amount).
Proof.
  unfold int64, MaxInt64, MinInt64. intros ? ?.
  destruct (Z.ltb_spec 0 amount), (Z.ltb_spec (9223372036854775807 - amount) sum),
    (Z.ltb_spec amount 0), (Z.ltb_spec sum (-9223372036854775808 - amount)); cbn; split; done || lia.
Qed.

Lemma prefixes_in_range_cons start p ps :
  prefixes_in_range start (p :: ps)
  <-> int64 start /\ prefixes_in_range (start + posting_cents p) ps.
Proof.
  unfold prefixes_in_range. split.
  - intros H. split; [specialize (H 0%nat); cbn in H; by rewrite sumZ_nil, Z.add_0_r in H|].
    intros k. specialize (H (S k)). cbn in H. by rewrite sumZ_cons, Z.add_assoc in H.
  - intros [H0 H] [|k]; cbn; [by rewrite sumZ_nil, Z.add_0_r|].
    rewrite sumZ_cons, Z.add_assoc. apply H.
Qed.

Lemma validate_postings_loop_Ok currency ps seen sum r :
  Forall (fun p => int64 (posting_cents p)) ps -> int64 sum ->
  validate_postings_loop currency ps seen sum = Ok r <->
  Forall (posting_ok currency) ps /\ NoDup (posting_account <$> ps)
  /\ Forall (fun p => posting_account p ∉ seen) ps
  /\ prefixes_in_range sum ps /\ r = sum + sumZ posting_cents ps.
Proof.
  intros Hps. revert seen sum. induction Hps as [|p ps Hp Hps IH]; intros seen sum Hs; cbn.
  - split.
    + intros H. go_inv. rewrite sumZ_nil, Z.add_0_r. split_and!; [constructor..| |done].
      intros k. rewrite take_nil, sumZ_nil. by rewrite Z.add_0_r.
    + intros (_ & _ & _ & _ & ->). by rewrite sumZ_nil, Z.add_0_r.
  - unfold posting_cents at 1 in Hp. split.
    + intros H. go_inv.
      match goal with Ho : (_ && _) || (_ && _) = false |- _ =>
        rename Ho into Hg; apply overflow_guard in Hg; [|done..] end.
      bool_prop. apply Money_Validate_Ok in Hok1.
      apply IH in H; [|by apply wrap64_int64].
      rewrite wrap64_id in H by done. destruct H as (H1 & H2 & H3 & H4 & ->).
      split_and!.
      * constructor; [|done]. unfold posting_ok, is_blank. by rewrite bool_decide_false.
      * constructor; [|done]. rewrite list_elem_of_fmap. intros (q & Hq1 & Hq2).
        rewrite Forall_forall in H3. specialize (H3 q Hq2). fold (posting_account p) in H3. set_solver.
      * constructor; [done|]. eapply Forall_impl; [exact H3|]. set_solver.
      * apply prefixes_in_range_cons. done.
      * rewrite sumZ_cons. change (posting_cents p) with (Cents (Amount p)). lia.
    + intros (H1 & H2 & H3 & H4 & ->).
      apply Forall_cons in H1 as [(Hb & Hc & Hv & Hz) H1]. apply NoDup_cons in H2 as [Hn H2].
      apply Forall_cons in H3 as [Hsn H3]. apply prefixes_in_range_cons in H4 as [_ H4].
      unfold posting_account at 1 in Hsn. unfold posting_cents at 1 in H4.
      assert (Hg : int64 (sum + Cents (Amount p))).
      { specialize (H4 0%nat). by rewrite take_0, sumZ_nil, Z.add_0_r in H4. }
      unfold is_blank in Hb. bool_prop.
      rewrite (bool_decide_false (_ = ""%string)), (bool_decide_false (_ ∈ seen)) by eassumption. cbn.
      unfold Money_Validate. rewrite valid_currency_Ok by done. cbn.
      rewrite (bool_decide_true (_ = currency)) by done. cbn.
      rewrite (proj2 (Z.eqb_neq _ _)) by done. cbn.
      rewrite (proj2 (overflow_guard _ _ Hp Hs)) by done. cbn.
      apply IH; [by apply wrap64_int64|]. rewrite wrap64_id by done. split_and!; try done.
      * rewrite Forall_forall in H3 |- *. intros q Hq.
        assert (posting_account q <> posting_account p).
        { intros Heq. apply Hn. rewrite <- Heq. apply list_elem_of_fmap. eauto. }
        specialize (H3 q Hq). fold (posting_account p). set_solver.
      * rewrite sumZ_cons. change (posting_cents p) with (Cents (Amount p)). lia.
Qed.

Lemma ValidatePostings_Ok currency ps u :
  Forall (fun p => int64 (posting_cents p)) ps ->
  ValidatePostings currency ps = Ok u <->
  valid_currency currency = true /\ (2 <= length ps)%nat
  /\ Forall (posting_ok currency) ps /\ NoDup (posting_account <$> ps)
  /\ prefixes_in_range 0 ps /\ sumZ posting_cents ps = 0.
Proof.
  intros Hps. unfold ValidatePostings. split.
  - intros H. go_inv. apply Currency_Validate_Ok in Hok. bool_prop.
    apply validate_postings_loop_Ok in Hok1; [|done..].
    destruct Hok1 as (? & ? & _ & ? & ->). split_and!; try done; lia.
  - intros (Hc & Hl & H1 & H2 & H3 & H4). rewrite valid_currency_Ok by done. cbn.
    rewrite (proj2 (Z.ltb_ge _ _)) by lia. cbn.
    assert (Hloop : validate_postings_loop currency ps ∅ 0 = Ok 0).
    { apply validate_postings_loop_Ok; [done..|]. rewrite H4. split_and!; try done.
      apply Forall_forall. set_solver. }
    rewrite Hloop. cbn. by destruct u.
Qed.

(** Sufficient conditions, as the commands that build transactions meet them. *)
Lemma Transaction_Validate_intro t :
  (forall s, Tx_Type t <> TransactionOther s) -> valid_currency (Tx_Currency t) = true ->
  is_blank (Tx_IdempotencyKey t) = false -> is_blank (Tx_Actor t) = false ->
  is_blank (Tx_SourceType t) = false -> is_blank (Tx_SourceID t) = false ->
  (Tx_Type t = TransactionReversal -> is_blank (Tx_ReversalOf t) = false) ->
  (needs_reason (Tx_Type t) = true -> is_blank (Tx_Reason t) = false) ->
  ValidatePostings (Tx_Currency t) (Tx_Postings t) = Ok () ->
  Transaction_Validate t = Ok ().
Proof.
  intros Ht Hc Hk Ha Hst Hsi Hr Hn Hp. unfold Transaction_Validate.
  assert (TransactionType_Validate (Tx_Type t) = Ok ()) as -> by (destruct (Tx_Type t); naive_solver).
  rewrite valid_currency_Ok, Hk, Ha, Hst, Hsi by done. cbn.
  assert (bool_decide (Tx_Type t = TransactionReversal) && is_blank (Tx_ReversalOf t) = false) as ->.
  { apply andb_false_iff. rewrite bool_decide_eq_false. destruct (decide (Tx_Type t = TransactionReversal)); auto. }
  assert (needs_reason (Tx_Type t) && is_blank (Tx_Reason t) = false) as ->.
  { apply andb_false_iff. destruct (needs_reason (Tx_Type t)); auto. }
  done.
Qed.

Lemma prefixes_in_range_nil start : prefixes_in_range start [] <-> int64 start.
Proof.
  unfold prefixes_in_range. split.
  - intros H. specialize (H 0%nat). by rewrite take_nil, sumZ_nil, Z.add_0_r in H.
  - intros H k. by rewrite take_nil, sumZ_nil, Z.add_0_r.
Qed.

(** A transfer of a positive amount between two accounts validates. *)
Lemma ValidatePostings_transfer c from to_ amount :
  valid_currency c = true -> is_blank from = false -> is_blank to_ = false ->
  TrimSpace from <> TrimSpace to_ -> 0 < amount <= MaxInt64 ->
  ValidatePostings c [mkPosting from (mkMoney (- amount) c); mkPosting to_ (mkMoney amount c)] = Ok ()
  /\ ValidatePostings c [mkPosting to_ (mkMoney amount c); mkPosting from (mkMoney (- amount) c)] = Ok ().
Proof.
  intros Hc Hf Ht Hne Ha.
  assert (Hi : int64 amount /\ int64 (- amount) /\ int64 0) by (unfold int64, MinInt64, MaxInt64 in *; lia).
  destruct Hi as (Hi & Hi' & Hi0).
  assert (Hp : forall a m, is_blank a = false -> Cents m <> 0 -> Money_Currency m = c ->
                posting_ok c (mkPosting a m)) by (intros a m ? ? <-; done).
  split; apply ValidatePostings_Ok; try (rewrite !Forall_cons; by rewrite Forall_nil).
  all: split_and!; [done|cbn; lia|..].
  1,5: rewrite !Forall_cons, Forall_nil; split_and!; try done; apply Hp; cbn; done || lia.
  1,4: cbn; unfold posting_account; cbn; rewrite !NoDup_cons; split_and!; [set_solver..|constructor].
  1,3: rewrite !prefixes_in_range_cons, prefixes_in_range_nil; unfold posting_cents; cbn;
       rewrite ?Z.add_0_l, ?Z.add_opp_diag_l, ?Z.add_opp_diag_r; done.
  all: rewrite !sumZ_cons, sumZ_nil; unfold posting_cents; cbn; lia.
Qed.

(** *** Balances *)
Lemma total_insert_new k v (m : gmap string Z) : m !! k = None -> total (<[k := v]> m) = v + total m.
Proof. intros H. unfold total. apply map_fold_insert_L; [|done]. intros; lia. Qed.

Lemma total_insert k v (m : gmap string Z) :
  total (<[k := v]> m) = total m - default 0 (m !! k) + v.
Proof.
  destruct (m !! k) as [w|] eqn:E; cbn; [|rewrite total_insert_new by done; lia].
  assert (Hm : total m = w + total (delete k m)).
  { rewrite <- (insert_id m k w E) at 1. rewrite <- insert_delete_eq.
    apply total_insert_new, lookup_delete_eq. }
  rewrite <- insert_delete_eq, total_insert_new by apply lookup_delete_eq. lia.
Qed.

Lemma post_all_cons p ps m : post_all (p :: ps) m = post_one p (post_all ps m).
Proof. done. Qed.

Lemma total_post_all ps m : total (post_all ps m) = total m + sumZ posting_cents ps.
Proof.
  induction ps as [|p ps IH]; [cbn; rewrite sumZ_nil; lia|].
  rewrite post_all_cons. unfold post_one. rewrite total_insert, IH, sumZ_cons.
  change (posting_cents p) with (Cents (Amount p)). lia.
Qed.

Lemma net_cons a p ps :
  net a (p :: ps) = (if bool_decide (AccountID p = a) then Cents (Amount p) else 0) + net a ps.
Proof. done. Qed.
Lemma net_nil a : net a [] = 0.
Proof. done. Qed.
#[export] Hint Rewrite net_nil net_cons : cabot.

Lemma post_all_lookup ps m a :
  default 0 (post_all ps m !! a) = default 0 (m !! a) + net a ps.
Proof.
  induction ps as [|p ps IH]; [cbn; rewrite net_nil; lia|].
  rewrite net_cons, post_all_cons. unfold post_one. rewrite lookup_insert. case_decide as Hd.
  - subst. rewrite bool_decide_true by done. cbn. lia.
  - rewrite bool_decide_false by done. lia.
Qed.

(** ** Properties of the ledger *)

(** The integer profit computation is exact: for every valid price and
    every positive int64 stake it returns stake * numerator / denominator
    rounded to the nearest cent with exact halves up, within half a cent of
    the true quotient, and it refuses precisely the stakes whose product with
    the numerator would not fit in an int64. *)
Theorem Profit_rounds_half_up (o : AmericanOdds) (stake : Money) :
  valid_odds o -> valid_currency (Money_Currency stake) = true -> 0 < Cents stake <= MaxInt64 ->
  let '(n, d) := odds_ratio o in
  match Profit o stake with
  | Ok p =>
      Cents stake * n <= MaxInt64
      /\ Money_Currency p = Money_Currency stake
      /\ Cents p = (2 * (Cents stake * n) + d) / (2 * d)
      /\ - d <= 2 * (Cents stake * n) - 2 * d * Cents p < d
  | Err e => e = ErrAmountOverflow /\ MaxInt64 < Cents stake * n
  end.
Proof.
  intros Ho Hc Hs. pose proof (Profit_eq o stake Ho Hc Hs) as HP. unfold profit_spec in HP.
  destruct (odds_ratio o) as [n d] eqn:E. destruct (odds_ratio_pos o n d Ho E) as [Hn Hd].
  cbn [fst] in HP. rewrite HP. pose proof (Z.mul_div_le MaxInt64 n ltac:(lia)).
  destruct (Z.ltb_spec (MaxInt64 / n) (Cents stake)) as [Hlt|Hle].
  - split; [done|]. pose proof (Z.mul_succ_div_gt MaxInt64 n ltac:(lia)). nia.
  - cbn. set (x := Cents stake * n).
    pose proof (Z.div_mod (2 * x + d) (2 * d) ltac:(lia)).
    pose proof (Z.mod_pos_bound (2 * x + d) (2 * d) ltac:(lia)).
    split_and!; try done; nia.
Qed.

Lemma Profit_rounds_half_up_witness :
  Profit (-180) (mkMoney 300000 "CAD") = Ok (mkMoney 166667 "CAD")
  /\ let '(n, d) := odds_ratio (-180) in
     match Profit (-180) (mkMoney 300000 "CAD") with
     | Ok p =>
         300000 * n <= MaxInt64 /\ Money_Currency p = "CAD"%string
         /\ Cents p = (2 * (300000 * n) + d) / (2 * d)
         /\ - d <= 2 * (300000 * n) - 2 * d * Cents p < d
     | Err e => e = ErrAmountOverflow /\ MaxInt64 < 300000 * n
     end.
Proof.
  split; [by vm_compute|].
  apply (Profit_rounds_half_up (-180) (mkMoney 300000 "CAD")).
  - unfold valid_odds; lia.
  - by vm_compute.
  - unfold MaxInt64; cbn; lia.
Defined.

(** [Transaction.Validate] accepts exactly the well-formed double-entry
    transactions: a known type, a currency code, non-blank key, actor and
    source, a referenced original for reversals, a reason for adjustments and
    reversals, and at least two non-zero postings of that currency to
    different non-blank accounts whose exact sum is zero, no running sum of
    which leaves int64. *)
Theorem Transaction_Validate_iff (t : Transaction) :
  Forall (fun p => int64 (posting_cents p)) (Tx_Postings t) ->
  Transaction_Validate t = Ok () <->
    (forall s, Tx_Type t <> TransactionOther s)
    /\ valid_currency (Tx_Currency t) = true
    /\ is_blank (Tx_IdempotencyKey t) = false /\ is_blank (Tx_Actor t) = false
    /\ is_blank (Tx_SourceType t) = false /\ is_blank (Tx_SourceID t) = false
    /\ (Tx_Type t = TransactionReversal -> is_blank (Tx_ReversalOf t) = false)
    /\ (needs_reason (Tx_Type t) = true -> is_blank (Tx_Reason t) = false)
    /\ (2 <= length (Tx_Postings t))%nat
    /\ Forall (posting_ok (Tx_Currency t)) (Tx_Postings t)
    /\ NoDup (posting_account <$> Tx_Postings t)
    /\ prefixes_in_range 0 (Tx_Postings t)
    /\ sumZ posting_cents (Tx_Postings t) = 0.
Proof.
  intros Hps. unfold Transaction_Validate. split.
  - intros H. go_inv. apply Currency_Validate_Ok in Hok0.
    apply ValidatePostings_Ok in H as (_ & ? & ? & ? & ? & ?); [|done].
    repeat match goal with
    | E : _ || _ = false |- _ => apply orb_false_iff in E as [E ?]
    | E : _ && _ = false |- _ => apply andb_false_iff in E
    end. unfold TransactionType_Validate in Hok.
    split_and!; try done; try (destruct (Tx_Type t); naive_solver).
  - intros (Ht & Hc & Hk & Ha & Hst & Hsi & Hr & Hn & Hp).
    apply Transaction_Validate_intro; try done. apply ValidatePostings_Ok; naive_solver.
Qed.

Definition example_transfer : Transaction :=
  mkTransaction TransactionWagerAcceptance "CAD" "wager:w1:acceptance" "admin" "wager" "w1" "" ""
    [mkPosting "cash:alice" (mkMoney (-2500) "CAD"); mkPosting "escrow" (mkMoney 2500 "CAD")].

Lemma Transaction_Validate_iff_witness :
  Transaction_Validate example_transfer = Ok () /\ sumZ posting_cents (Tx_Postings example_transfer) = 0.
Proof.
  split; [by vm_compute|].
  apply (Transaction_Validate_iff example_transfer); [|by vm_compute].
  repeat constructor; cbn; unfold MinInt64, MaxInt64; lia.
Defined.

(** Posting any validated transaction conserves money: the sum of all
    account balances is unchanged, each account it names changes by exactly
    its own posting, and every other account keeps its balance. *)
Theorem validated_postings_conserve currency ps (balances : gmap string Z) :
  Forall (fun p => int64 (posting_cents p)) ps ->
  ValidatePostings currency ps = Ok () ->
  total (post_all ps balances) = total balances
  /\ (forall p, p ∈ ps ->
        default 0 (post_all ps balances !! AccountID p)
        = default 0 (balances !! AccountID p) + Cents (Amount p))
  /\ (forall a, a ∉ AccountID <$> ps ->
        default 0 (post_all ps balances !! a) = default 0 (balances !! a)).
Proof.
  intros Hps Hv. apply ValidatePostings_Ok in Hv as (_ & _ & _ & Hnd & _ & Hsum); [|done].
  split_and!; [rewrite total_post_all; lia|..]; setoid_rewrite post_all_lookup.
  - intros p Hp. f_equal. clear Hps Hsum. induction ps as [|q ps IH]; [set_solver|].
    apply NoDup_cons in Hnd as [Hn Hnd]. rewrite net_cons.
    assert (Hnet : forall r, r ∈ ps -> AccountID r <> AccountID q).
    { intros r Hr Heq. apply Hn, list_elem_of_fmap. exists r. unfold posting_account. by rewrite Heq. }
    apply elem_of_cons in Hp as [->|Hp].
    + rewrite bool_decide_true by done.
      enough (net (AccountID q) ps = 0) by lia. clear -Hnet.
      induction ps as [|r ps IH]; [done|]. rewrite net_cons, bool_decide_false by (apply Hnet; set_solver).
      rewrite IH; [done|]. intros; apply Hnet; set_solver.
    + rewrite bool_decide_false by (intros Heq; by apply (Hnet p)). cbn. auto.
  - intros a Ha. enough (net a ps = 0) by lia. clear -Ha.
    induction ps as [|r ps IH]; [done|]. rewrite net_cons, bool_decide_false by set_solver.
    rewrite IH; [done|set_solver].
Qed.

Lemma validated_postings_conserve_witness :
  ValidatePostings "CAD" (Tx_Postings example_transfer) = Ok ()
  /\ total (post_all (Tx_Postings example_transfer) {["cash:alice" := 4000; "escrow" := 100]})
     = total {["cash:alice" := 4000; "escrow" := 100]}.
Proof.
  assert (H : ValidatePostings "CAD" (Tx_Postings example_transfer) = Ok ()) by by vm_compute.
  split; [exact H|].
  assert (Hr : Forall (fun p => int64 (posting_cents p)) (Tx_Postings example_transfer)).
  { repeat constructor; cbn; unfold MinInt64, MaxInt64; lia. }
  exact (proj1 (validated_postings_conserve "CAD" _ {["cash:alice" := 4000; "escrow" := 100]} Hr H)).
Defined.
