(* ===== verification/Events.v ===== *)
(** * internal/events: the event envelope and the outbox lifecycle

    [envelope.go], [payloads.go] and [state.go], and [buildEnvelope] of
    [internal/betting/events.go] with the payload structs it marshals. *)
From S2P Require Import Prelude GoStrings GoTime.

Definition ErrInvalidEnvelope := Sentinel "events.ErrInvalidEnvelope".

(** ** JSON payloads

    A [json.RawMessage] is either the marshalled form of one of the flat
    payload structs, kept as its fields in order, or other bytes together with
    whether [json.Valid] accepts them.  [json.Marshal] of a struct of strings,
    integers and booleans never fails and yields a JSON object. *)
Inductive JSONScalar :=
  | JString (s : string)
  | JInt (n : Z)
  | JBool (b : bool).
Inductive RawMessage :=
  | RawObject (fields : list (string * JSONScalar))
  | RawBytes (valid : bool) (raw : string).

#[export] Instance JSONScalar_eq_dec : EqDecision JSONScalar.
Proof. solve_decision. Defined.
#[export] Instance RawMessage_eq_dec : EqDecision RawMessage.
Proof. solve_decision. Defined.

Definition json_Valid (m : RawMessage) : bool :=
  match m with RawObject _ => true | RawBytes valid _ => valid end.

(** [trimmed := bytes.TrimSpace(payload)] starts with a brace and ends with one. *)
Definition braced (m : RawMessage) : bool :=
  match m with
  | RawObject _ => true
  | RawBytes _ raw =>
      let trimmed := bytes (TrimSpace raw) in
      (2 <=? Z.of_nat (length trimmed))
      && bool_decide (head trimmed = Some "{"%char) && bool_decide (last trimmed = Some "}"%char)
  end.

(** ** Event types: [^[A-Z][A-Za-z0-9]+\.v[1-9][0-9]*$] *)
Definition EventType := string.

Definition MatchResultSubmitted : EventType := "MatchResultSubmitted.v1".
Definition MatchResultDisputed : EventType := "MatchResultDisputed.v1".
Definition MatchResultVerified : EventType := "MatchResultVerified.v1".
Definition MatchResultCorrected : EventType := "MatchResultCorrected.v1".
Definition PlayerLinkedToUser : EventType := "PlayerLinkedToUser.v1".
Definition PlayerUnlinkedFromUser : EventType := "PlayerUnlinkedFromUser.v1".
Definition CompetitionSetupDeleted : EventType := "CompetitionSetupDeleted.v1".
Definition TeamRosterChanged : EventType := "TeamRosterChanged.v1".
Definition MarketSettledType : EventType := "MarketSettled.v1".
Definition WagerAcceptedType : EventType := "WagerAccepted.v1".
Definition WagerSettledType : EventType := "WagerSettled.v1".

Fixpoint span (p : ascii -> bool) (l : list ascii) : list ascii * list ascii :=
  match l with
  | [] => ([], [])
  | a :: l' => if p a then let '(w, r) := span p l' in (a :: w, r) else ([], l)
  end.

Definition is_alnum (a : ascii) : bool := is_upper a || is_lower a || is_digit a.

(** The alphanumeric run cannot contain the dot, so the greedy split is the
    only one. *)
Definition eventTypePattern (s : string) : bool :=
  match bytes s with
  | [] => false
  | a :: rest =>
      let '(w, r) := span is_alnum rest in
      is_upper a && negb (bool_decide (w = []))
      && match r with
         | dot :: v :: d :: ds =>
             byte_is 46 dot && byte_is 118 v && between 49 57 d && forallb is_digit ds
         | _ => false
         end
  end.

Definition EventType_Validate (t : EventType) : result unit :=
  fail_if (negb (eventTypePattern t))
    (Wrapf "%w: event type %q must include a positive version" ErrInvalidEnvelope).

(** ** Envelopes *)
Record Envelope := mkEnvelope {
  Env_ID : string;
  AggregateType : string;
  AggregateID : string;
  AggregateVersion : Z;
  Env_Type : EventType;
  Payload : RawMessage;
  OccurredAt : Time;
  CorrelationID : string;
  CausationID : string
}.

#[export] Instance Envelope_eq_dec : EqDecision Envelope.
Proof. solve_decision. Defined.

Definition validUUID (value : string) : bool :=
  (len value =? 36)
  && byte_at_is 8 "-" value && byte_at_is 13 "-" value
  && byte_at_is 18 "-" value && byte_at_is 23 "-" value
  && hex_decodes (remove_dashes value).

Definition Envelope_Validate (e : Envelope) : result unit :=
  fail_if (negb (validUUID (Env_ID e)) || negb (validUUID (AggregateID e)))
    (Wrapf "%w: event and aggregate IDs must be UUIDs" ErrInvalidEnvelope);;
  fail_if (is_blank (AggregateType e) || (80 <? len (AggregateType e)))
    (Wrapf "%w: aggregate type is required and limited to 80 characters" ErrInvalidEnvelope);;
  fail_if (AggregateVersion e <=? 0)
    (Wrapf "%w: aggregate version must be positive" ErrInvalidEnvelope);;
  EventType_Validate (Env_Type e);;
  fail_if (IsZero (OccurredAt e) || negb (loc_utc (OccurredAt e)))
    (Wrapf "%w: occurrence time must be a non-zero UTC timestamp" ErrInvalidEnvelope);;
  fail_if (negb (bool_decide (CorrelationID e = ""%string)) && negb (validUUID (CorrelationID e)))
    (Wrapf "%w: correlation ID must be a UUID" ErrInvalidEnvelope);;
  fail_if (negb (bool_decide (CausationID e = ""%string)) && negb (validUUID (CausationID e)))
    (Wrapf "%w: causation ID must be a UUID" ErrInvalidEnvelope);;
  fail_if (negb (json_Valid (Payload e)))
    (Wrapf "%w: payload is not valid JSON" ErrInvalidEnvelope);;
  fail_if (negb (braced (Payload e)))
    (Wrapf "%w: payload must be a JSON object" ErrInvalidEnvelope).

(** ** The betting payloads and [buildEnvelope] *)
Record wagerAcceptedPayload := mkWagerAcceptedPayload {
  WAP_WagerID : string; WAP_UserID : string; WAP_MarketID : string; WAP_SelectionID : string;
  WAP_StakeCents : Z; WAP_Currency : string; WAP_AcceptedAmericanOdds : Z; WAP_PotentialProfitCents : Z
}.
Definition marshal_wagerAccepted (p : wagerAcceptedPayload) : RawMessage :=
  RawObject [("wager_id"%string, JString (WAP_WagerID p)); ("user_id"%string, JString (WAP_UserID p));
    ("market_id"%string, JString (WAP_MarketID p)); ("selection_id"%string, JString (WAP_SelectionID p));
    ("stake_cents"%string, JInt (WAP_StakeCents p)); ("currency"%string, JString (WAP_Currency p));
    ("accepted_american_odds"%string, JInt (WAP_AcceptedAmericanOdds p));
    ("potential_profit_cents"%string, JInt (WAP_PotentialProfitCents p))].

Record wagerSettledPayload := mkWagerSettledPayload {
  WSP_WagerID : string; WSP_UserID : string; WSP_Result : string;
  WSP_StakeCents : Z; WSP_ProfitCents : Z; WSP_ReturnedCents : Z; WSP_Currency : string
}.
Definition marshal_wagerSettled (p : wagerSettledPayload) : RawMessage :=
  RawObject [("wager_id"%string, JString (WSP_WagerID p)); ("user_id"%string, JString (WSP_UserID p));
    ("result"%string, JString (WSP_Result p)); ("stake_cents"%string, JInt (WSP_StakeCents p));
    ("profit_cents"%string, JInt (WSP_ProfitCents p)); ("returned_cents"%string, JInt (WSP_ReturnedCents p));
    ("currency"%string, JString (WSP_Currency p))].

Record marketSettledPayload := mkMarketSettledPayload {
  MSP_MarketID : string; MSP_Version : Z;
  MSP_WinCount : Z; MSP_LossCount : Z; MSP_PushCount : Z; MSP_VoidCount : Z;
  MSP_TotalStakeCents : Z; MSP_TotalProfitCents : Z; MSP_TotalReturnedCents : Z; MSP_Currency : string
}.
Definition marshal_marketSettled (p : marketSettledPayload) : RawMessage :=
  RawObject [("market_id"%string, JString (MSP_MarketID p)); ("version"%string, JInt (MSP_Version p));
    ("win_count"%string, JInt (MSP_WinCount p)); ("loss_count"%string, JInt (MSP_LossCount p));
    ("push_count"%string, JInt (MSP_PushCount p)); ("void_count"%string, JInt (MSP_VoidCount p));
    ("total_stake_cents"%string, JInt (MSP_TotalStakeCents p));
    ("total_profit_cents"%string, JInt (MSP_TotalProfitCents p));
    ("total_returned_cents"%string, JInt (MSP_TotalReturnedCents p));
    ("currency"%string, JString (MSP_Currency p))].

Definition buildEnvelope (id aggregateID aggregateType : string) (aggregateVersion : Z)
    (eventType : EventType) (occurredAt : Time) (payload : RawMessage) : result Envelope :=
  let envelope := mkEnvelope id aggregateType aggregateID aggregateVersion eventType payload
                    (UTC occurredAt) "" "" in
  wrap_err "build %s envelope: %w" (Envelope_Validate envelope);;
  Ok envelope.

(** ** state.go *)
Inductive OutboxState :=
  | OutboxPending
  | OutboxProcessing
  | OutboxCompleted
  | OutboxFailed
  | OutboxOther (text : string).

#[export] Instance OutboxState_eq_dec : EqDecision OutboxState.
Proof. solve_decision. Defined.

Definition OutboxState_Validate (s : OutboxState) : result unit :=
  match s with
  | OutboxOther _ => Err (Errorf "unknown outbox state %q")
  | _ => Ok ()
  end.

Definition OutboxState_CanTransitionTo (s next : OutboxState) : bool :=
  if negb (is_Ok (OutboxState_Validate s)) || negb (is_Ok (OutboxState_Validate next))
     || bool_decide (s = next) then false
  else
    match s with
    | OutboxPending => bool_decide (next = OutboxProcessing) || bool_decide (next = OutboxFailed)
    | OutboxProcessing =>
        bool_decide (next = OutboxPending) || bool_decide (next = OutboxCompleted)
        || bool_decide (next = OutboxFailed)
    | _ => false
    end.

(** ** Lemmas *)
Lemma Envelope_Validate_Ok e u :
  Envelope_Validate e = Ok u ->
  validUUID (Env_ID e) = true /\ validUUID (AggregateID e) = true /\ 0 < AggregateVersion e
  /\ nanos (OccurredAt e) <> 0 /\ loc_utc (OccurredAt e) = true
  /\ json_Valid (Payload e) = true /\ braced (Payload e) = true.
Proof.
  unfold Envelope_Validate, EventType_Validate. intros H. go_inv.
  repeat match goal with E : _ || _ = false |- _ => apply orb_false_iff in E as [? ?] end.
  unfold IsZero in *. bool_prop. done.
Qed.

(** UUID text starts with a dash or a hexadecimal digit, so it is not blank. *)
Lemma is_hex_plain a : is_hex a = true -> plain a = true.
Proof.
  unfold is_hex, is_digit, plain, is_ascii, space1, byte_is, between. generalize (byte_val a). intros n.
  rewrite !orb_true_iff, !andb_true_iff, negb_true_iff, orb_false_iff, andb_false_iff, !Z.leb_le, !Z.leb_gt, Z.eqb_neq.
  lia.
Qed.

Lemma dash_plain a : byte_is 45 a = true -> plain a = true.
Proof.
  unfold plain, is_ascii, space1, byte_is, between. generalize (byte_val a). intros n.
  rewrite !andb_true_iff, negb_true_iff, orb_false_iff, andb_false_iff, !Z.leb_le, !Z.leb_gt, Z.eqb_neq, Z.eqb_eq.
  lia.
Qed.

Lemma validUUID_not_blank s : validUUID s = true -> is_blank s = false.
Proof.
  unfold validUUID, hex_decodes, all_bytes, remove_dashes. intros H. bool_prop.
  destruct s as [|a s]; [done|]. apply not_blank_plain.
  match goal with E : forallb _ _ = true |- _ => revert E end. rewrite bytes_of_bytes. cbn [bytes list_ascii_of_string].
  cbn [List.filter]. destruct (byte_is 45 a) eqn:E; [intros _; by apply dash_plain|].
  cbn [negb forallb]. rewrite andb_true_iff. intros [Hh _]. by apply is_hex_plain.
Qed.

(** Building an envelope succeeds on the inputs the betting commands pass. *)
Lemma buildEnvelope_ok id aggregateID aggregateType version eventType at_ payload :
  validUUID id = true -> validUUID aggregateID = true ->
  is_blank aggregateType = false -> len aggregateType <= 80 -> 0 < version ->
  eventTypePattern eventType = true -> IsZero at_ = false ->
  json_Valid payload = true -> braced payload = true ->
  buildEnvelope id aggregateID aggregateType version eventType at_ payload
  = Ok (mkEnvelope id aggregateType aggregateID version eventType payload (UTC at_) "" "").
Proof.
  intros H1 H2 H3 H4 H5 H6 H7 H8 H9.
  unfold buildEnvelope, Envelope_Validate, EventType_Validate. cbn.
  rewrite H1, H2, H3, H6, H8, H9, IsZero_UTC, H7. cbn.
  rewrite (proj2 (Z.ltb_ge _ _)), (proj2 (Z.leb_gt _ _)) by lia. done.
Qed.

Lemma buildEnvelope_Ok id aggregateID aggregateType version eventType at_ payload e :
  buildEnvelope id aggregateID aggregateType version eventType at_ payload = Ok e ->
  e = mkEnvelope id aggregateType aggregateID version eventType payload (UTC at_) "" ""
  /\ validUUID id = true /\ validUUID aggregateID = true /\ 0 < version.
Proof.
  unfold buildEnvelope. intros H. go_inv. apply Envelope_Validate_Ok in Hok. naive_solver.
Qed.
