(* ===== verification/Payloads.v ===== *)
(** * internal/events/payloads.go

    The payloads of events that leave the competition store, as JSON objects,
    and how the consumers read the result of a match back. *)
From S2P Require Import Prelude GoStrings GoTime Events.

Record MatchResultVerifiedPayload := mkMatchResultVerifiedPayload {
  MRV_MatchID : string;
  MRV_CompetitionEventID : string;
  MRV_VerificationID : string;
  MRV_Outcome : string;
  MRV_WinningSideID : string;
  MRV_Score : string
}.
(** [winning_side_id] is [omitempty]. *)
Definition marshal_MatchResultVerified (p : MatchResultVerifiedPayload) : RawMessage :=
  RawObject ([("match_id"%string, JString (MRV_MatchID p));
              ("competition_event_id"%string, JString (MRV_CompetitionEventID p));
              ("verification_id"%string, JString (MRV_VerificationID p)); ("outcome"%string, JString (MRV_Outcome p))]
             ++ (if bool_decide (MRV_WinningSideID p = ""%string) then []
                 else [("winning_side_id"%string, JString (MRV_WinningSideID p))])
             ++ [("score"%string, JString (MRV_Score p))]).

Record PlayerUserLinkChangedPayload := mkPlayerUserLinkChangedPayload { PUL_PlayerID : string; PUL_UserID : string }.
Definition marshal_PlayerUserLinkChanged (p : PlayerUserLinkChangedPayload) : RawMessage :=
  RawObject [("player_id"%string, JString (PUL_PlayerID p)); ("user_id"%string, JString (PUL_UserID p))].

Record CompetitionSetupDeletedPayload := mkCompetitionSetupDeletedPayload {
  CSD_RecordType : string; CSD_RecordID : string; CSD_Name : string; CSD_Reason : string
}.
Definition marshal_CompetitionSetupDeleted (p : CompetitionSetupDeletedPayload) : RawMessage :=
  RawObject [("record_type"%string, JString (CSD_RecordType p)); ("record_id"%string, JString (CSD_RecordID p));
             ("name"%string, JString (CSD_Name p)); ("reason"%string, JString (CSD_Reason p))].

Record TeamRosterChangedPayload := mkTeamRosterChangedPayload {
  TRC_EventID : string; TRC_TeamID : string; TRC_PlayerID : string; TRC_Action : string; TRC_IsCaptain : bool
}.
Definition marshal_TeamRosterChanged (p : TeamRosterChangedPayload) : RawMessage :=
  RawObject [("event_id"%string, JString (TRC_EventID p)); ("team_id"%string, JString (TRC_TeamID p));
             ("player_id"%string, JString (TRC_PlayerID p)); ("action"%string, JString (TRC_Action p));
             ("is_captain"%string, JBool (TRC_IsCaptain p))].

(** ** [json.Unmarshal] into a payload *)

(** A string field of an object; the last of several with the same key, and
    empty when there is none. *)
Definition string_field (key : string) (fields : list (string * JSONScalar)) : result string :=
  match (list_to_map (reverse fields) : gmap string JSONScalar) !! key with
  | None => Ok ""%string
  | Some (JString s) => Ok s
  | Some _ => Err (Errorf "json: cannot unmarshal value into Go struct field of type string")
  end.

(** [unmarshal_bytes] reads bytes the program did not marshal. *)
Definition unmarshal_MatchResultVerified (unmarshal_bytes : string -> result MatchResultVerifiedPayload) (m : RawMessage)
    : result MatchResultVerifiedPayload :=
  match m with
  | RawObject fields =>
      matchID ← string_field "match_id" fields;
      competitionEventID ← string_field "competition_event_id" fields;
      verificationID ← string_field "verification_id" fields;
      outcome ← string_field "outcome" fields;
      winningSideID ← string_field "winning_side_id" fields;
      score ← string_field "score" fields;
      Ok (mkMatchResultVerifiedPayload matchID competitionEventID verificationID outcome winningSideID score)
  | RawBytes _ raw => unmarshal_bytes raw
  end.

Lemma unmarshal_marshal_MatchResultVerified unmarshal_bytes p :
  unmarshal_MatchResultVerified unmarshal_bytes (marshal_MatchResultVerified p) = Ok p.
Proof.
  destruct p as [m c v o w s]. cbn. case_bool_decide as Hw; [subst w|]; unfold string_field; cbn;
    repeat first [rewrite lookup_insert_eq | rewrite lookup_insert_ne by done]; reflexivity.
Qed.
