(* ===== verification/Betting.v ===== *)
(** * internal/betting: markets, selections, wagers and their state machines

    [types.go] and [errors.go].  Identifiers are opaque strings; a Go
    string-typed enumeration is an inductive type whose last constructor is a
    text outside the declared constants. *)
From S2P Require Import Prelude GoStrings GoTime Ledger.

(** ** errors.go *)
Definition ErrInvalid := Sentinel "betting.ErrInvalid".
Definition ErrInvalidTransition := Sentinel "betting.ErrInvalidTransition".
Definition ErrUnauthorized := Sentinel "betting.ErrUnauthorized".
Definition ErrReasonRequired := Sentinel "betting.ErrReasonRequired".
Definition ErrMarketNotOpen := Sentinel "betting.ErrMarketNotOpen".
Definition ErrSelectionInactive := Sentinel "betting.ErrSelectionInactive".
Definition ErrSelectionMismatch := Sentinel "betting.ErrSelectionMismatch".
Definition ErrUserRestricted := Sentinel "betting.ErrUserRestricted".
Definition ErrStakeAboveLimit := Sentinel "betting.ErrStakeAboveLimit".
Definition ErrPayoutAboveLimit := Sentinel "betting.ErrPayoutAboveLimit".
Definition ErrParlayTooFewLegs := Sentinel "betting.ErrParlayTooFewLegs".
Definition ErrParlayTooManyLegs := Sentinel "betting.ErrParlayTooManyLegs".
Definition ErrParlayMarketNotEligible := Sentinel "betting.ErrParlayMarketNotEligible".
Definition ErrSideFull := Sentinel "betting.ErrSideFull".
Definition ErrParlayDuplicateMarket := Sentinel "betting.ErrParlayDuplicateMarket".
Definition ErrParlayTooShort := Sentinel "betting.ErrParlayTooShort".
Definition ErrIncompleteOutcome := Sentinel "betting.ErrIncompleteOutcome".
Definition ErrWagerMarketMismatch := Sentinel "betting.ErrWagerMarketMismatch".

Definition invalidf (format : string) : error := Wrapf format ErrInvalid.
Definition transitionErr (operation state : string) : error :=
  TransitionError operation state ErrInvalidTransition.

(** ** types.go *)
Definition ID := string.
Definition validID (id : ID) : bool := negb (is_blank id).

Definition is_key_char (a : ascii) : bool := is_lower a || is_digit a.
Definition is_key_sep (a : ascii) : bool := byte_is 46 a || byte_is 95 a || byte_is 45 a.

(** [^[a-z0-9]+(?:[._-][a-z0-9]+)*$] as an automaton whose state says whether
    the byte just read was alphanumeric. *)
Fixpoint key_automaton (after_char : bool) (l : list ascii) : bool :=
  match l with
  | [] => after_char
  | a :: l' =>
      if is_key_char a then key_automaton true l'
      else if after_char && is_key_sep a then key_automaton false l' else false
  end.
Definition selectionKeyPattern (s : string) : bool := key_automaton false (bytes s).

Inductive MarketType := MarketMatch | MarketFuture | MarketProp | MarketTypeOther (text : string).
#[export] Instance MarketType_eq_dec : EqDecision MarketType.
Proof. solve_decision. Defined.

Definition MarketType_Validate (t : MarketType) : result unit :=
  match t with
  | MarketTypeOther _ => Err (invalidf "market type %q is not supported")
  | _ => Ok ()
  end.

Inductive MarketState :=
  | MarketDraft | MarketOpen | MarketClosed | MarketSettlementPending | MarketSettled
  | MarketVoided | MarketCancelled | MarketNoAction | MarketStateOther (text : string).
#[export] Instance MarketState_eq_dec : EqDecision MarketState.
Proof. solve_decision. Defined.

Definition MarketState_text (s : MarketState) : string :=
  match s with
  | MarketDraft => "draft" | MarketOpen => "open" | MarketClosed => "closed"
  | MarketSettlementPending => "settlement_pending" | MarketSettled => "settled"
  | MarketVoided => "voided" | MarketCancelled => "cancelled"
  | MarketNoAction => "closed_no_action" | MarketStateOther text => text
  end.

Definition MarketState_Validate (s : MarketState) : result unit :=
  match s with
  | MarketStateOther _ => Err (invalidf "market state %q is not supported")
  | _ => Ok ()
  end.

(** [marketTransitions], a map of maps: absent keys read as false. *)
Definition MarketState_CanTransitionTo (s to : MarketState) : bool :=
  match s with
  | MarketDraft => bool_decide (to ∈ [MarketOpen; MarketCancelled])
  | MarketOpen => bool_decide (to ∈ [MarketClosed; MarketCancelled])
  | MarketClosed => bool_decide (to ∈ [MarketVoided; MarketSettlementPending; MarketNoAction])
  | MarketSettlementPending => bool_decide (to ∈ [MarketSettled; MarketVoided; MarketNoAction])
  | _ => false
  end.

Inductive WagerState :=
  | WagerPending | WagerAccepted | WagerRejected | WagerSettled | WagerVoided
  | WagerStateOther (text : string).
#[export] Instance WagerState_eq_dec : EqDecision WagerState.
Proof. solve_decision. Defined.

Definition WagerState_text (s : WagerState) : string :=
  match s with
  | WagerPending => "pending" | WagerAccepted => "accepted" | WagerRejected => "rejected"
  | WagerSettled => "settled" | WagerVoided => "voided" | WagerStateOther text => text
  end.

Definition WagerState_Validate (s : WagerState) : result unit :=
  match s with
  | WagerStateOther _ => Err (invalidf "wager state %q is not supported")
  | _ => Ok ()
  end.

Definition WagerState_CanTransitionTo (s to : WagerState) : bool :=
  match s with
  | WagerPending => bool_decide (to ∈ [WagerAccepted; WagerRejected])
  | WagerAccepted => bool_decide (to ∈ [WagerSettled; WagerVoided])
  | _ => false
  end.

Inductive SettlementResult :=
  | ResultWin | ResultLoss | ResultPush | ResultVoid | ResultOther (text : string).
#[export] Instance SettlementResult_eq_dec : EqDecision SettlementResult.
Proof. solve_decision. Defined.

Definition SettlementResult_text (r : SettlementResult) : string :=
  match r with
  | ResultWin => "win" | ResultLoss => "loss" | ResultPush => "push" | ResultVoid => "void"
  | ResultOther text => text
  end.

Definition SettlementResult_Validate (r : SettlementResult) : result unit :=
  match r with
  | ResultOther _ => Err (invalidf "settlement result %q is not supported")
  | _ => Ok ()
  end.

Inductive FundingAccountType :=
  | FundingUserCash | FundingUserFreePlay | FundingOther (text : string).
#[export] Instance FundingAccountType_eq_dec : EqDecision FundingAccountType.
Proof. solve_decision. Defined.

Definition FundingAccountType_Validate (f : FundingAccountType) : result unit :=
  match f with
  | FundingOther _ => Err (invalidf "funding account type %q is not supported")
  | _ => Ok ()
  end.

Record Market := mkMarket {
  Market_ID : ID;
  Market_Type : MarketType;
  MatchID : ID;
  Title : string;
  Market_State : MarketState;
  Market_Currency : Currency;
  OpensAt : Time;
  ClosesAt : Time
}.

(** [result.Market.State = s] *)
Definition set_Market_State (s : MarketState) (m : Market) : Market :=
  mkMarket (Market_ID m) (Market_Type m) (MatchID m) (Title m) s (Market_Currency m)
    (OpensAt m) (ClosesAt m).

Definition Market_Validate (m : Market) : result unit :=
  fail_if (negb (validID (Market_ID m))) (invalidf "market requires an ID");;
  MarketType_Validate (Market_Type m);;
  fail_if (bool_decide (Market_Type m = MarketMatch) && negb (validID (MatchID m)))
    (invalidf "match markets require a match ID");;
  fail_if (negb (bool_decide (Market_Type m = MarketMatch)) && validID (MatchID m))
    (invalidf "non-match markets cannot reference a match ID");;
  let title := TrimSpace (Title m) in
  fail_if (bool_decide (title = ""%string) || (200 <? len title))
    (invalidf "market title must be between 1 and 200 characters");;
  MarketState_Validate (Market_State m);;
  Currency_Validate (Market_Currency m);;
  fail_if (IsZero (ClosesAt m)) (invalidf "market requires a close time");;
  fail_if (negb (IsZero (OpensAt m)) && negb (After (ClosesAt m) (OpensAt m)))
    (invalidf "market close time must be after its open time").

Record Selection := mkSelection {
  Selection_ID : ID;
  Selection_MarketID : ID;
  Key : string;
  DisplayTerms : string;
  OfferedAmericanOdds : AmericanOdds;
  SemanticResultKey : string;
  Active : bool
}.

Definition Selection_Validate (s : Selection) : result unit :=
  fail_if (negb (validID (Selection_ID s)) || negb (validID (Selection_MarketID s)))
    (invalidf "selection requires an ID and market ID");;
  fail_if (negb (selectionKeyPattern (Key s))) (invalidf "selection key %q is not valid");;
  let terms := TrimSpace (DisplayTerms s) in
  fail_if (bool_decide (terms = ""%string) || (500 <? len terms))
    (invalidf "selection display terms must be between 1 and 500 characters");;
  Odds_Validate (OfferedAmericanOdds s).

Record Wager := mkWager {
  Wager_ID : ID;
  Wager_UserID : ID;
  Wager_MarketID : ID;
  Wager_SelectionID : ID;
  Wager_Funding : FundingAccountType;
  Stake : Money;
  AcceptedOdds : AmericanOdds;
  AcceptedTerms : string;
  PotentialProfit : Money;
  Wager_State : WagerState;
  IdempotencyKey : string;
  PlacedBy : ID;
  PlacedAt : Time
}.

#[export] Instance Wager_eq_dec : EqDecision Wager.
Proof. solve_decision. Defined.

(** [wager.State = s] *)
Definition set_Wager_State (s : WagerState) (w : Wager) : Wager :=
  mkWager (Wager_ID w) (Wager_UserID w) (Wager_MarketID w) (Wager_SelectionID w) (Wager_Funding w)
    (Stake w) (AcceptedOdds w) (AcceptedTerms w) (PotentialProfit w) s (IdempotencyKey w)
    (PlacedBy w) (PlacedAt w).

Definition PlacedForMember (w : Wager) : bool :=
  negb (bool_decide (PlacedBy w = ""%string)) && negb (bool_decide (PlacedBy w = Wager_UserID w)).

Definition Wager_Validate (w : Wager) : result unit :=
  fail_if (negb (validID (Wager_ID w)) || negb (validID (Wager_UserID w))
           || negb (validID (Wager_MarketID w)) || negb (validID (Wager_SelectionID w)))
    (invalidf "wager requires ID, user, market, and selection references");;
  FundingAccountType_Validate (Wager_Funding w);;
  Money_Validate (Stake w);;
  fail_if (Cents (Stake w) <=? 0) (invalidf "wager stake must be greater than zero");;
  Odds_Validate (AcceptedOdds w);;
  let terms := TrimSpace (AcceptedTerms w) in
  fail_if (bool_decide (terms = ""%string) || (1000 <? len terms))
    (invalidf "accepted terms must be between 1 and 1000 characters");;
  Money_Validate (PotentialProfit w);;
  fail_if (Cents (PotentialProfit w) <? 0) (invalidf "potential profit cannot be negative");;
  WagerState_Validate (Wager_State w);;
  let key := TrimSpace (IdempotencyKey w) in
  fail_if (bool_decide (key = ""%string) || (200 <? len key))
    (invalidf "idempotency key must be between 1 and 200 characters").

(** ** Well-formed values: what the int64 and int32 fields can hold *)
Definition wager_ints (w : Wager) : Prop :=
  int64 (Cents (Stake w)) /\ int64 (Cents (PotentialProfit w))
  /\ -2147483648 <= AcceptedOdds w <= 2147483647.

(** ** Lemmas *)
Lemma Wager_Validate_Ok w u :
  Wager_Validate w = Ok u ->
  validID (Wager_ID w) = true /\ validID (Wager_UserID w) = true
  /\ validID (Wager_MarketID w) = true /\ validID (Wager_SelectionID w) = true
  /\ valid_currency (Money_Currency (Stake w)) = true /\ 0 < Cents (Stake w)
  /\ (AcceptedOdds w <= -100 \/ 100 <= AcceptedOdds w)
  /\ 0 <= Cents (PotentialProfit w).
Proof.
  unfold Wager_Validate. intros H. go_inv.
  repeat match goal with E : _ || _ = false |- _ => apply orb_false_iff in E as [? ?] end.
  repeat match goal with
  | E : Money_Validate _ = Ok _ |- _ => apply Money_Validate_Ok in E
  | E : Odds_Validate _ = Ok _ |- _ => apply Odds_Validate_Ok in E
  end. bool_prop. split_and!; done || lia.
Qed.

(** Changing only the state keeps a wager valid when the new state is known. *)
Lemma Wager_Validate_set_State s w :
  WagerState_Validate s = Ok () -> Wager_Validate w = Ok () ->
  Wager_Validate (set_Wager_State s w) = Ok ().
Proof.
  unfold Wager_Validate. destruct w; cbn. intros Hs H. go_inv.
  repeat match goal with E : ?x = Ok ?v |- context [?x] => rewrite E end.
  repeat match goal with E : ?x = false |- context [?x] => rewrite E end.
  done.
Qed.

Lemma wager_ints_set_State s w : wager_ints (set_Wager_State s w) <-> wager_ints w.
Proof. done. Qed.
#[export] Hint Resolve Wager_Validate_set_State : cabot.

Lemma validID_alt id : validID id = true <-> is_blank id = false.
Proof. unfold validID. destruct (is_blank id); naive_solver. Qed.

Lemma WagerState_to_final_inv s to :
  WagerState_CanTransitionTo s to = true -> to ∈ [WagerSettled; WagerVoided] -> s = WagerAccepted.
Proof. destruct s; cbn; try done; rewrite ?bool_decide_eq_true; set_solver. Qed.

(** A valid wager whose integer fields are in their Go ranges. *)
Definition good_wager (w : Wager) : Prop := wager_ints w /\ Wager_Validate w = Ok ().

Lemma good_wager_facts w :
  good_wager w ->
  valid_currency (Money_Currency (Stake w)) = true /\ 0 < Cents (Stake w) <= MaxInt64
  /\ valid_odds (AcceptedOdds w) /\ 0 <= Cents (PotentialProfit w) <= MaxInt64
  /\ is_blank (Wager_ID w) = false.
Proof.
  intros [(H1 & H2 & H3) Hv]. apply Wager_Validate_Ok in Hv. unfold int64, valid_odds in *.
  rewrite validID_alt in Hv. naive_solver lia.
Qed.

Lemma good_wager_set_State s w :
  WagerState_Validate s = Ok () -> good_wager w -> good_wager (set_Wager_State s w).
Proof. intros Hs [? ?]. split; [done|]. by apply Wager_Validate_set_State. Qed.
#[export] Hint Resolve good_wager_set_State : cabot.
