(* ===== verification/Placement.v ===== *)
(** * internal/betting/place.go: placing, accepting, rejecting and cancelling
      a wager *)
From S2P Require Import Prelude GoStrings GoTime Ledger Events Betting.

(** ** Restrictions *)
Record Restriction := mkRestriction {
  Restriction_UserID : ID;
  Restriction_SelectionID : ID;
  Restriction_Reason : string
}.

Definition Restricts (r : Restriction) (userID selectionID : ID) : bool :=
  if negb (bool_decide (Restriction_UserID r = userID)) then false
  else bool_decide (Restriction_SelectionID r = ""%string)
       || bool_decide (Restriction_SelectionID r = selectionID).

(** ** Placement *)
Record PlaceWagerCommand := mkPlaceWagerCommand {
  PWC_WagerID : ID;
  PWC_UserID : ID;
  PWC_Market : Market;
  PWC_Selection : Selection;
  Restrictions : list Restriction;
  MaxStakeCents : Z;
  ExistingStakeCents : Z;
  SelectionMaxStakeCents : Z;
  ExistingSelectionStakeCents : Z;
  TotalStakeCapCents : Z;
  ExistingTotalStakeCents : Z;
  MaxPayoutCents : Z;
  PWC_PlacedBy : ID;
  PWC_Funding : FundingAccountType;
  PWC_Stake : Money;
  PWC_IdempotencyKey : string;
  Now : Time
}.

(** [limit > 0 && existing+stake > limit], with Go's wrapping int64 sum. *)
Definition above_cap (limit existing stake : Z) : bool :=
  (0 <? limit) && (limit <? wrap64 (existing + stake)).

Definition PlaceWager (command : PlaceWagerCommand) : result Wager :=
  let market := PWC_Market command in
  let selection := PWC_Selection command in
  let stake := PWC_Stake command in
  fail_if (negb (validID (PWC_WagerID command)) || negb (validID (PWC_UserID command)))
    (invalidf "wager placement requires a wager ID and user ID");;
  Market_Validate market;;
  Selection_Validate selection;;
  fail_if (negb (bool_decide (Selection_MarketID selection = Market_ID market))) ErrSelectionMismatch;;
  fail_if (IsZero (Now command)) (invalidf "wager placement requires the current time");;
  let now := UTC (Now command) in
  fail_if (negb (bool_decide (Market_State market = MarketOpen))) ErrMarketNotOpen;;
  fail_if (negb (IsZero (OpensAt market)) && Before now (OpensAt market)) ErrMarketNotOpen;;
  fail_if (negb (Before now (ClosesAt market))) ErrMarketNotOpen;;
  fail_if (negb (Active selection)) ErrSelectionInactive;;
  fail_if (existsb (fun r => Restricts r (PWC_UserID command) (Selection_ID selection)) (Restrictions command))
    ErrUserRestricted;;
  FundingAccountType_Validate (PWC_Funding command);;
  Money_Validate stake;;
  fail_if (Cents stake <=? 0) (invalidf "stake must be greater than zero");;
  fail_if (negb (bool_decide (Money_Currency stake = Market_Currency market))) ErrCurrencyMismatch;;
  fail_if (above_cap (MaxStakeCents command) (ExistingStakeCents command) (Cents stake)) ErrStakeAboveLimit;;
  fail_if (above_cap (SelectionMaxStakeCents command) (ExistingSelectionStakeCents command) (Cents stake))
    ErrStakeAboveLimit;;
  fail_if (above_cap (TotalStakeCapCents command) (ExistingTotalStakeCents command) (Cents stake)) ErrSideFull;;
  fail_if (is_blank (PWC_IdempotencyKey command)) (invalidf "wager placement requires an idempotency key");;
  profit ← wrap_err "compute potential profit: %w" (Profit (OfferedAmericanOdds selection) stake);
  fail_if (Cents profit <=? 0)
    (invalidf "stake is too small to win at least one cent at the offered odds");;
  fail_if ((0 <? MaxPayoutCents command) && (MaxPayoutCents command <? Cents profit)) ErrPayoutAboveLimit;;
  let wager := mkWager (PWC_WagerID command) (PWC_UserID command) (Market_ID market)
      (Selection_ID selection) (PWC_Funding command) stake (OfferedAmericanOdds selection)
      (DisplayTerms selection) profit WagerPending (TrimSpace (PWC_IdempotencyKey command))
      (PWC_PlacedBy command) now in
  Wager_Validate wager;;
  Ok wager.

(** ** Acceptance *)
Record AcceptanceAccountRefs := mkAcceptanceAccountRefs {
  AAR_UserFundingAccountID : string;
  AAR_EscrowAccountID : string
}.

Definition AcceptanceAccountRefs_validate (r : AcceptanceAccountRefs) : result unit :=
  fail_if (is_blank (AAR_UserFundingAccountID r) || is_blank (AAR_EscrowAccountID r))
    (invalidf "wager acceptance requires user funding and escrow account references");;
  fail_if (bool_decide (AAR_UserFundingAccountID r = AAR_EscrowAccountID r))
    (invalidf "user funding and escrow accounts must be distinct").

Record AcceptWagerResult := mkAcceptWagerResult {
  AWR_Wager : Wager;
  AWR_Transaction : Transaction;
  AWR_Event : Envelope
}.

Definition acceptance_key (wagerID : ID) : string := ("wager:" ++ wagerID ++ ":acceptance")%string.

Definition AcceptWager (wager : Wager) (actor : ID) (occurredAt : Time)
    (refs : AcceptanceAccountRefs) (eventID : ID) : result AcceptWagerResult :=
  Wager_Validate wager;;
  fail_if (negb (WagerState_CanTransitionTo (Wager_State wager) WagerAccepted))
    (transitionErr "accept wager" (WagerState_text (Wager_State wager)));;
  fail_if (negb (validID actor)) ErrUnauthorized;;
  AcceptanceAccountRefs_validate refs;;
  fail_if (IsZero occurredAt) (invalidf "wager acceptance requires an occurrence time");;
  fail_if (negb (validID eventID)) (invalidf "wager acceptance requires an event ID");;
  let at_ := UTC occurredAt in
  negatedStake ← Negate (Stake wager);
  let txn := mkTransaction TransactionWagerAcceptance (Money_Currency (Stake wager))
      (acceptance_key (Wager_ID wager)) actor "wager" (Wager_ID wager) "" ""
      [mkPosting (AAR_UserFundingAccountID refs) negatedStake;
       mkPosting (AAR_EscrowAccountID refs) (Stake wager)] in
  wrap_err "build acceptance transaction: %w" (Transaction_Validate txn);;
  let payload := mkWagerAcceptedPayload (Wager_ID wager) (Wager_UserID wager) (Wager_MarketID wager)
      (Wager_SelectionID wager) (Cents (Stake wager)) (Money_Currency (Stake wager))
      (AcceptedOdds wager) (Cents (PotentialProfit wager)) in
  envelope ← buildEnvelope eventID (Wager_ID wager) "wager" 1 WagerAcceptedType at_
               (marshal_wagerAccepted payload);
  Ok (mkAcceptWagerResult (set_Wager_State WagerAccepted wager) txn envelope).

(** ** Rejection and cancellation *)
Definition RejectWager (wager : Wager) (actor : ID) (reason : string) : result Wager :=
  Wager_Validate wager;;
  fail_if (negb (WagerState_CanTransitionTo (Wager_State wager) WagerRejected))
    (transitionErr "reject wager" (WagerState_text (Wager_State wager)));;
  fail_if (negb (validID actor)) ErrUnauthorized;;
  let reason := TrimSpace reason in
  fail_if (bool_decide (reason = ""%string)) ErrReasonRequired;;
  Ok (set_Wager_State WagerRejected wager).

Definition CancelWager (wager : Wager) (actor : ID) : result Wager :=
  Wager_Validate wager;;
  fail_if (negb (validID actor) || negb (bool_decide (actor = Wager_UserID wager))) ErrUnauthorized;;
  fail_if (negb (WagerState_CanTransitionTo (Wager_State wager) WagerRejected))
    (transitionErr "cancel wager" (WagerState_text (Wager_State wager)));;
  Ok (set_Wager_State WagerRejected wager).

(** ** Specification of placement *)

(** A cap of zero or less is no cap; otherwise the exact total fits under it. *)
Definition within_cap (limit existing stake : Z) : Prop := limit <= 0 \/ existing + stake <= limit.
(** The same of the int64 sum the code compares. *)
Definition machine_cap (limit existing stake : Z) : Prop := limit <= 0 \/ wrap64 (existing + stake) <= limit.

(** The betting window of a market at an instant: from its opening, when it
    has one, up to but not including its close. *)
Definition in_window (m : Market) (t : Time) : Prop :=
  (IsZero (OpensAt m) = true \/ nanos (OpensAt m) <= nanos t) /\ nanos t < nanos (ClosesAt m).

Definition unrestricted (rs : list Restriction) (user selection : ID) : Prop :=
  forall r, r ∈ rs -> Restriction_UserID r = user ->
    Restriction_SelectionID r <> ""%string /\ Restriction_SelectionID r <> selection.

Definition offered_profit (c : PlaceWagerCommand) : Z :=
  profit_spec (OfferedAmericanOdds (PWC_Selection c)) (Cents (PWC_Stake c)).

(** A bet that may be placed, its caps read by [cap]. *)
Record eligible_under (cap : Z -> Z -> Z -> Prop) (c : PlaceWagerCommand) : Prop := {
  el_ids : validID (PWC_WagerID c) = true /\ validID (PWC_UserID c) = true;
  el_market : Market_Validate (PWC_Market c) = Ok ();
  el_selection : Selection_Validate (PWC_Selection c) = Ok ();
  el_match : Selection_MarketID (PWC_Selection c) = Market_ID (PWC_Market c);
  el_now : IsZero (Now c) = false;
  el_open : Market_State (PWC_Market c) = MarketOpen;
  el_window : in_window (PWC_Market c) (Now c);
  el_active : Active (PWC_Selection c) = true;
  el_unrestricted : unrestricted (Restrictions c) (PWC_UserID c) (Selection_ID (PWC_Selection c));
  el_funding : FundingAccountType_Validate (PWC_Funding c) = Ok ();
  el_stake : 0 < Cents (PWC_Stake c)
             <= MaxInt64 / fst (odds_ratio (OfferedAmericanOdds (PWC_Selection c)));
  el_currency : Money_Currency (PWC_Stake c) = Market_Currency (PWC_Market c);
  el_member_cap : cap (MaxStakeCents c) (ExistingStakeCents c) (Cents (PWC_Stake c));
  el_side_cap : cap (SelectionMaxStakeCents c) (ExistingSelectionStakeCents c) (Cents (PWC_Stake c));
  el_total_cap : cap (TotalStakeCapCents c) (ExistingTotalStakeCents c) (Cents (PWC_Stake c));
  el_key : is_blank (PWC_IdempotencyKey c) = false /\ len (TrimSpace (PWC_IdempotencyKey c)) <= 200;
  el_profit : 0 < offered_profit c;
  el_payout : MaxPayoutCents c <= 0 \/ offered_profit c <= MaxPayoutCents c
}.
Arguments Build_eligible_under {cap c}.
Abbreviation eligible := (eligible_under within_cap).

(** The wager a placement creates: the price and terms of the selection as
    they stand, pending. *)
Definition snapshot (c : PlaceWagerCommand) : Wager :=
  mkWager (PWC_WagerID c) (PWC_UserID c) (Market_ID (PWC_Market c)) (Selection_ID (PWC_Selection c))
    (PWC_Funding c) (PWC_Stake c) (OfferedAmericanOdds (PWC_Selection c))
    (DisplayTerms (PWC_Selection c)) (mkMoney (offered_profit c) (Money_Currency (PWC_Stake c)))
    WagerPending (TrimSpace (PWC_IdempotencyKey c)) (PWC_PlacedBy c) (UTC (Now c)).

(** What the int64 and int32 fields hold, with running totals far from the
    int64 limit. *)
Definition command_ints (c : PlaceWagerCommand) : Prop :=
  int64 (Cents (PWC_Stake c))
  /\ -2147483648 <= OfferedAmericanOdds (PWC_Selection c) <= 2147483647
  /\ Forall (fun x => 0 <= x <= MaxInt64 - MaxInt64 / 100)
       [ExistingStakeCents c; ExistingSelectionStakeCents c; ExistingTotalStakeCents c].

(** ** Lemmas *)
Lemma above_cap_machine limit existing stake :
  above_cap limit existing stake = false <-> machine_cap limit existing stake.
Proof. unfold above_cap, machine_cap. rewrite andb_false_iff, !Z.ltb_ge. lia. Qed.

Lemma machine_cap_exact limit existing stake :
  int64 (existing + stake) -> machine_cap limit existing stake <-> within_cap limit existing stake.
Proof. intros H. unfold machine_cap, within_cap. by rewrite wrap64_id. Qed.

Lemma restricts_unrestricted rs user selection :
  existsb (fun r => Restricts r user selection) rs = false <-> unrestricted rs user selection.
Proof.
  unfold unrestricted, Restricts. induction rs as [|r rs IH]; cbn.
  - split; [set_solver|done].
  - rewrite orb_false_iff, IH. split.
    + intros [Hr Hrs] r' [->|Hin]%elem_of_cons Hu; [|by apply Hrs].
      rewrite bool_decide_true in Hr by done. cbn in Hr. by bool_prop.
    + intros H. split.
      * case_bool_decide as Hu; [|done]. cbn. destruct (H r) as [H1 H2]; [set_solver|done|].
        by rewrite !bool_decide_false.
      * intros r' Hin. apply H. set_solver.
Qed.

Lemma window_guards m t :
  negb (IsZero (OpensAt m)) && Before (UTC t) (OpensAt m) = false
  /\ negb (Before (UTC t) (ClosesAt m)) = false <-> in_window m t.
Proof.
  unfold in_window, Before, UTC. cbn [nanos]. rewrite andb_false_iff, !negb_false_iff, Z.ltb_ge, Z.ltb_lt.
  tauto.
Qed.

Lemma odds_ratio_le o : valid_odds o -> MaxInt64 / fst (odds_ratio o) <= MaxInt64 / 100.
Proof.
  intros Ho. destruct (odds_ratio o) as [n d] eqn:E. destruct (odds_ratio_pos o n d Ho E).
  apply Z.div_le_compat_l; unfold MaxInt64; cbn; lia.
Qed.

Lemma Market_Validate_currency m u :
  Market_Validate m = Ok u -> valid_currency (Market_Currency m) = true /\ validID (Market_ID m) = true.
Proof.
  unfold Market_Validate. intros H. go_inv. bool_prop.
  match goal with E : Currency_Validate _ = Ok _ |- _ => apply Currency_Validate_Ok in E end. done.
Qed.

Lemma Selection_Validate_facts s u :
  Selection_Validate s = Ok u ->
  validID (Selection_ID s) = true /\ (OfferedAmericanOdds s <= -100 \/ 100 <= OfferedAmericanOdds s)
  /\ TrimSpace (DisplayTerms s) <> ""%string /\ len (TrimSpace (DisplayTerms s)) <= 500.
Proof.
  unfold Selection_Validate. intros H. go_inv. bool_prop. apply Odds_Validate_Ok in H. done.
Qed.

Lemma snapshot_validates cap c :
  eligible_under cap c -> Wager_Validate (snapshot c) = Ok ().
Proof.
  intros [[Hid1 Hid2] Hm Hs Hsm _ _ _ _ _ Hf Hst Hc _ _ _ [Hk Hk2] Hp _].
  apply Market_Validate_currency in Hm as [Hcur Hmid].
  apply Selection_Validate_facts in Hs as (Hsid & Hodds & Ht1 & Ht2).
  unfold Wager_Validate, snapshot, Money_Validate;
    cbn [Wager_ID Wager_UserID Wager_MarketID Wager_SelectionID Wager_Funding Stake AcceptedOdds
         AcceptedTerms PotentialProfit Wager_State IdempotencyKey Cents Money_Currency].
  rewrite Hid1, Hid2, Hmid, Hsid, Hf, Hc, valid_currency_Ok, TrimSpace_idem by done.
  rewrite (proj2 (Odds_Validate_Ok _ ()) Hodds).
  rewrite (bool_decide_false _ Ht1). unfold is_blank in Hk. rewrite Hk.
  assert ((Cents (PWC_Stake c) <=? 0) = false) as -> by (apply Z.leb_gt; lia).
  assert ((1000 <? len (TrimSpace (DisplayTerms (PWC_Selection c)))) = false) as -> by (apply Z.ltb_ge; lia).
  assert ((200 <? len (TrimSpace (PWC_IdempotencyKey c))) = false) as -> by (apply Z.ltb_ge; lia).
  assert ((offered_profit c <? 0) = false) as -> by (apply Z.ltb_ge; lia).
  done.
Qed.

Lemma PlaceWager_admits c w :
  int64 (Cents (PWC_Stake c)) -> -2147483648 <= OfferedAmericanOdds (PWC_Selection c) <= 2147483647 ->
  PlaceWager c = Ok w <-> eligible_under machine_cap c /\ w = snapshot c.
Proof.
  intros Hi Ho. split.
  - unfold PlaceWager. cbv zeta. intros H. go_inv.
    repeat match goal with u : unit |- _ => destruct u end.
    match goal with E : Profit _ _ = Ok _ |- _ => apply Profit_iff in E; [|done..];
      destruct E as (Hodds & Hcur & Hst & ->) end.
    cbn [Cents Money_Currency] in *. fold (offered_profit c) in *.
    repeat match goal with E : above_cap _ _ _ = false |- _ => apply above_cap_machine in E end.
    match goal with E : existsb _ _ = false |- _ => apply restricts_unrestricted in E end.
    split; [|done]. bool_prop.
    assert (Hw : in_window (PWC_Market c) (Now c)) by (apply window_guards; rewrite negb_false_iff; done).
    match goal with E : _ && (_ <? _) = false |- _ =>
      rewrite andb_false_iff, !Z.ltb_ge in E end.
    match goal with E : Wager_Validate _ = Ok _ |- _ => unfold Wager_Validate in E; cbn -[TrimSpace] in E end.
    go_inv. bool_prop. rewrite TrimSpace_idem in *. constructor; try done; lia.
  - intros [Hel ->]. pose proof (snapshot_validates _ c Hel) as Hv. destruct Hel.
    assert (Hodds : valid_odds (OfferedAmericanOdds (PWC_Selection c))).
    { apply Selection_Validate_facts in el_selection0. split; [lia|naive_solver]. }
    pose proof (proj1 (Market_Validate_currency _ _ el_market0)) as Hcur.
    rewrite <- el_currency0 in Hcur. destruct el_ids0 as [Hid1 Hid2], el_key0 as [Hk _].
    destruct (proj2 (window_guards _ _) el_window0) as [Hw1 Hw2].
    unfold PlaceWager. cbv zeta.
    go_step; [by rewrite Hid1, Hid2|]. go_step; [done|]. go_step; [done|].
    go_step; [by rewrite bool_decide_true|]. go_step; [done|].
    go_step; [by rewrite bool_decide_true|]. go_step; [done|]. go_step; [done|].
    go_step; [by rewrite el_active0|]. go_step; [by apply restricts_unrestricted|].
    go_step; [done|]. go_step; [by apply valid_currency_Ok|]. go_step; [apply Z.leb_gt; lia|].
    go_step; [by rewrite bool_decide_true|].
    do 3 (go_step; [by apply above_cap_machine|]). go_step; [done|].
    go_step; [apply wrap_err_Ok, Profit_iff; [done..|]; split_and!; [done|done|lia|lia|reflexivity]|].
    cbn [Cents Money_Currency]. fold (offered_profit c). go_step; [apply Z.leb_gt; lia|].
    go_step; [rewrite andb_false_iff, !Z.ltb_ge; lia|].
    fold (snapshot c). go_step; [exact Hv|done].
Qed.

(** Without a wrap the two readings of the caps agree. *)
Lemma eligible_exactly c :
  Forall (fun total => int64 (total + Cents (PWC_Stake c)))
    [ExistingStakeCents c; ExistingSelectionStakeCents c; ExistingTotalStakeCents c] ->
  eligible_under machine_cap c <-> eligible c.
Proof.
  rewrite !Forall_cons. intros (H1 & H2 & H3 & _).
  split; intros []; constructor; try done; by apply machine_cap_exact.
Qed.

Lemma PlaceWager_spec c w :
  command_ints c ->
  PlaceWager c = Ok w <-> eligible c /\ w = snapshot c.
Proof.
  intros (Hi & Ho & Hex). rewrite PlaceWager_admits by done.
  enough (0 < Cents (PWC_Stake c) <= MaxInt64 / 100 -> eligible_under machine_cap c <-> eligible c) as Heq.
  { assert (Hst : forall cap, eligible_under cap c -> 0 < Cents (PWC_Stake c) <= MaxInt64 / 100).
    { intros cap [_ _ (_ & Hodds & _)%Selection_Validate_facts _ _ _ _ _ _ _ Hs _ _ _ _ _ _ _].
      pose proof (odds_ratio_le (OfferedAmericanOdds (PWC_Selection c))) as Hle. unfold valid_odds in Hle. lia. }
    split; intros [Hel ->]; (split; [|done]); apply Heq; eauto. }
  intros Hs. apply eligible_exactly. eapply Forall_impl; [exact Hex|]. cbn. intros x Hx. unfold int64, MinInt64, MaxInt64 in *. lia.
Qed.

(** C6. [PlaceWager] admits exactly the eligible bets.  For any int64 stake and
    int32 price it succeeds if and only if the wager and the member are named;
    the market and the selection are valid and the selection is the market's and
    active; the time is set, the market open and the time inside its window; no
    restriction bars the member; the funding account is one of the two; the
    stake is positive, small enough for its odds that the profit does not
    overflow, and in the market's currency; each of the three caps is unset or
    not exceeded by the running total plus the stake, summed as int64; the
    idempotency key is not blank and at most 200 bytes trimmed; and the rounded
    profit is at least one cent and within the payout ceiling, if there is one.
    The wager is then the snapshot of the offered price and terms, pending, at
    the current time.  When none of the three sums leaves int64 the caps hold in
    exact arithmetic. *)
Theorem PlaceWager_iff_eligible c w :
  int64 (Cents (PWC_Stake c)) -> -2147483648 <= OfferedAmericanOdds (PWC_Selection c) <= 2147483647 ->
  (PlaceWager c = Ok w <-> eligible_under machine_cap c /\ w = snapshot c)
  /\ (Forall (fun total => int64 (total + Cents (PWC_Stake c)))
        [ExistingStakeCents c; ExistingSelectionStakeCents c; ExistingTotalStakeCents c] ->
      eligible_under machine_cap c <-> eligible c).
Proof. intros Hi Ho. split; [by apply PlaceWager_admits|apply eligible_exactly]. Qed.

Definition ex_uuid (last : string) : string := ("00000000-0000-4000-8000-00000000000" ++ last)%string.
Definition ex_now : Time := mkTime 63900000000000000000 true.
Definition ex_open_market : Market :=
  mkMarket (ex_uuid "9") MarketMatch "match-1" "Alice v Bob" MarketOpen "CAD" zeroTime (TimeAdd ex_now Hour).
Definition ex_place : PlaceWagerCommand :=
  mkPlaceWagerCommand (ex_uuid "1") "alice" ex_open_market
    (mkSelection "s1" (ex_uuid "9") "side-one" "Alice to win" (-110) "" true)
    [mkRestriction "bob" "" "plays in it"; mkRestriction "alice" "s2" "no betting against herself"]
    10000 7500 0 0 50000 47500 0 "" FundingUserCash (mkMoney 2500 "CAD") " key-1 " ex_now.

(** 25.00 at -110 exactly fills the member's cap and the side. *)
Lemma PlaceWager_iff_eligible_witness :
  eligible ex_place /\ offered_profit ex_place = 2273.
Proof.
  split; [|reflexivity].
  assert (Hi : int64 (Cents (PWC_Stake ex_place))) by (unfold int64, MinInt64, MaxInt64; cbn; lia).
  assert (Ho : -2147483648 <= OfferedAmericanOdds (PWC_Selection ex_place) <= 2147483647) by (cbn; lia).
  destruct (PlaceWager ex_place) as [w|e] eqn:E; [|vm_compute in E; discriminate E].
  destruct (PlaceWager_iff_eligible ex_place w Hi Ho) as [Hiff Hexact]. apply Hexact; [|exact (proj1 (proj1 Hiff E))].
  repeat constructor; unfold MinInt64, MaxInt64; cbn; lia.
Defined.

(** ** Acceptance *)
Record acceptable (w : Wager) (actor : ID) (at_ : Time) (refs : AcceptanceAccountRefs) (eid : ID) : Prop := {
  ac_pending : Wager_State w = WagerPending;
  ac_actor : validID actor = true;
  ac_accounts : is_blank (AAR_UserFundingAccountID refs) = false
                /\ is_blank (AAR_EscrowAccountID refs) = false
                /\ TrimSpace (AAR_UserFundingAccountID refs) <> TrimSpace (AAR_EscrowAccountID refs);
  ac_time : IsZero at_ = false;
  ac_event : validUUID eid = true;
  ac_wager : validUUID (Wager_ID w) = true
}.

Definition acceptance_transaction (w : Wager) (actor : ID) (refs : AcceptanceAccountRefs) : Transaction :=
  mkTransaction TransactionWagerAcceptance (Money_Currency (Stake w)) (acceptance_key (Wager_ID w))
    actor "wager" (Wager_ID w) "" ""
    [mkPosting (AAR_UserFundingAccountID refs) (mkMoney (- Cents (Stake w)) (Money_Currency (Stake w)));
     mkPosting (AAR_EscrowAccountID refs) (Stake w)].

Definition acceptance_event (w : Wager) (at_ : Time) (eid : ID) : Envelope :=
  mkEnvelope eid "wager" (Wager_ID w) 1 WagerAcceptedType
    (marshal_wagerAccepted (mkWagerAcceptedPayload (Wager_ID w) (Wager_UserID w) (Wager_MarketID w)
       (Wager_SelectionID w) (Cents (Stake w)) (Money_Currency (Stake w))
       (AcceptedOdds w) (Cents (PotentialProfit w)))) (UTC at_) "" "".

Lemma acceptance_postings_net w actor refs a :
  net a (Tx_Postings (acceptance_transaction w actor refs))
  = (if bool_decide (AAR_UserFundingAccountID refs = a) then - Cents (Stake w) else 0)
    + (if bool_decide (AAR_EscrowAccountID refs = a) then Cents (Stake w) else 0).
Proof. unfold acceptance_transaction. cbn [Tx_Postings]. rewrite !net_cons, net_nil. cbn. lia. Qed.

Lemma pending_to_accepted s : WagerState_CanTransitionTo s WagerAccepted = true <-> s = WagerPending.
Proof. by destruct s. Qed.

Lemma acceptance_postings_ok w actor refs :
  good_wager w ->
  ValidatePostings (Money_Currency (Stake w)) (Tx_Postings (acceptance_transaction w actor refs)) = Ok ()
  <-> is_blank (AAR_UserFundingAccountID refs) = false /\ is_blank (AAR_EscrowAccountID refs) = false
      /\ TrimSpace (AAR_UserFundingAccountID refs) <> TrimSpace (AAR_EscrowAccountID refs).
Proof.
  intros Hg. pose proof (good_wager_facts w Hg) as (Hc & Hst & _).
  unfold acceptance_transaction. cbn [Tx_Postings]. split.
  - intros H. apply ValidatePostings_Ok in H as (_ & _ & Hf & Hnd & _).
    + rewrite !Forall_cons in Hf. destruct Hf as ((Hb1 & _) & (Hb2 & _) & _).
      rewrite !fmap_cons, !NoDup_cons in Hnd. cbn in *. split_and!; [done..|]. set_solver.
    + rewrite !Forall_cons, Forall_nil. unfold int64, MinInt64, MaxInt64, posting_cents in *; cbn. lia.
  - intros (H1 & H2 & H3). destruct (Stake w) as [cents c] eqn:E. cbn [Cents Money_Currency] in *.
    exact (proj1 (ValidatePostings_transfer _ _ _ _ Hc H1 H2 H3 Hst)).
Qed.

Lemma acceptance_transaction_ok w actor at_ refs eid :
  good_wager w -> acceptable w actor at_ refs eid ->
  Transaction_Validate (acceptance_transaction w actor refs) = Ok ().
Proof.
  intros Hg [Hp Ha Hacc Ht He Hw]. pose proof (good_wager_facts w Hg) as (Hc & _).
  apply Transaction_Validate_intro; try done.
  - by apply not_blank_plain.
  - by apply validID_alt.
  - by apply validUUID_not_blank.
  - by apply acceptance_postings_ok.
Qed.

Lemma AcceptWager_spec w actor at_ refs eid r :
  good_wager w ->
  AcceptWager w actor at_ refs eid = Ok r <->
    acceptable w actor at_ refs eid
    /\ r = mkAcceptWagerResult (set_Wager_State WagerAccepted w)
             (acceptance_transaction w actor refs) (acceptance_event w at_ eid).
Proof.
  intros Hg. pose proof (good_wager_facts w Hg) as (Hc & Hst & _).
  pose proof (Negate_pos (Stake w) ltac:(lia) Hc) as Hneg.
  split.
  - unfold AcceptWager. cbv zeta. intros H. go_inv. rewrite Hneg in *.
    match goal with E : Ok _ = Ok ?v |- _ => injection E as <- end.
    match goal with E : Transaction_Validate ?t = Ok ?u |- _ =>
      change t with (acceptance_transaction w actor refs) in *; rename E into Htx end.
    match goal with E : buildEnvelope _ _ _ _ _ _ _ = Ok _ |- _ =>
      apply buildEnvelope_Ok in E as (-> & Hu1 & Hu2 & _) end.
    assert (Hp : ValidatePostings (Money_Currency (Stake w))
                   (Tx_Postings (acceptance_transaction w actor refs)) = Ok ()).
    { clear -Htx. unfold Transaction_Validate in Htx. go_inv.
      by repeat match goal with u : unit |- _ => destruct u end. }
    apply (acceptance_postings_ok _ actor) in Hp; [|done].
    bool_prop. match goal with E : WagerState_CanTransitionTo _ _ = true |- _ => apply pending_to_accepted in E end.
    done.
  - intros [Hacc ->]. pose proof (acceptance_transaction_ok w actor at_ refs eid Hg Hacc) as Htx.
    destruct Hacc as [Hp Ha (Hb1 & Hb2 & Hne) Ht He Hw]. unfold AcceptWager. cbv zeta.
    go_step; [apply Hg|]. go_step; [by rewrite Hp|]. go_step; [by rewrite Ha|].
    go_step.
    { unfold AcceptanceAccountRefs_validate. rewrite Hb1, Hb2. cbn.
      instantiate (1 := tt). apply fail_if_Ok, bool_decide_eq_false. congruence. }
    go_step; [done|]. go_step; [apply negb_false_iff; unfold validID; by rewrite validUUID_not_blank|].
    go_step; [exact Hneg|]. go_step; [apply wrap_err_Ok; exact Htx|].
    go_step; [apply buildEnvelope_ok; done || by vm_compute|]. reflexivity.
Qed.

(** C9. [AcceptWager] succeeds, on a wager whose fields are within their Go
    types, if and only if the wager passes the domain validation and is pending,
    the actor is named, the two accounts are usable and different, the time is
    set and the identifiers of the wager and of the event are UUIDs; it then
    only changes the wager's state, at the snapshotted price, and posts one
    valid transaction that takes the whole stake from the funding account to
    escrow and touches no other account, under the wager's acceptance key, with
    the matching event. *)
Theorem AcceptWager_iff_acceptable w actor at_ refs eid r :
  wager_ints w ->
  (AcceptWager w actor at_ refs eid = Ok r <->
    Wager_Validate w = Ok () /\ acceptable w actor at_ refs eid
    /\ r = mkAcceptWagerResult (set_Wager_State WagerAccepted w)
             (acceptance_transaction w actor refs) (acceptance_event w at_ eid))
  /\ (AcceptWager w actor at_ refs eid = Ok r ->
       let ps := Tx_Postings (AWR_Transaction r) in
       Transaction_Validate (AWR_Transaction r) = Ok ()
       /\ net (AAR_UserFundingAccountID refs) ps = - Cents (Stake w)
       /\ net (AAR_EscrowAccountID refs) ps = Cents (Stake w)
       /\ forall a, a <> AAR_UserFundingAccountID refs -> a <> AAR_EscrowAccountID refs -> net a ps = 0).
Proof.
  intros Hi. destruct (Wager_Validate w) as [[]|e] eqn:Ev.
  2:{ assert (Hno : AcceptWager w actor at_ refs eid = Err e) by (unfold AcceptWager; by rewrite Ev).
      rewrite Hno. split; [split; [done|by intros [[=] _]]|done]. }
  assert (Hg : good_wager w) by by split. split; [rewrite AcceptWager_spec by done; tauto|]. intros H.
  apply AcceptWager_spec in H as [Hacc ->]; [|done]. cbn [AWR_Transaction].
  pose proof (acceptance_transaction_ok w actor at_ refs eid Hg Hacc) as Htx.
  destruct Hacc as [_ _ (_ & _ & Hne) _ _ _].
  assert (AAR_UserFundingAccountID refs <> AAR_EscrowAccountID refs) by congruence.
  setoid_rewrite acceptance_postings_net. split; [exact Htx|].
  split_and!; intros; repeat case_bool_decide; congruence || lia.
Qed.

Definition ex_pending : Wager := snapshot ex_place.
Definition ex_acceptance_refs : AcceptanceAccountRefs := mkAcceptanceAccountRefs "cash:alice" "escrow".

Lemma AcceptWager_iff_acceptable_witness :
  exists r, AcceptWager ex_pending "admin" ex_now ex_acceptance_refs (ex_uuid "3") = Ok r
    /\ net "escrow" (Tx_Postings (AWR_Transaction r)) = 2500.
Proof.
  assert (Hg : wager_ints ex_pending) by (vm_compute; repeat split; intros H; discriminate H).
  destruct (AcceptWager ex_pending "admin" ex_now ex_acceptance_refs (ex_uuid "3")) as [r|e] eqn:E;
    [|vm_compute in E; discriminate E].
  exists r. split; [reflexivity|].
  destruct (proj2 (AcceptWager_iff_acceptable ex_pending "admin" ex_now ex_acceptance_refs (ex_uuid "3") r Hg) E)
    as (_ & _ & Hn & _). exact Hn.
Defined.
