(* ===== verification/Settlement.v ===== *)
(** * internal/betting/settle.go: grading and voiding a market *)
From S2P Require Import Prelude GoStrings GoTime Ledger Events Betting.

(** ** Outcomes, account references and settlements *)

(** [map[ID]SettlementResult] *)
Abbreviation MarketOutcome := (gmap string SettlementResult) (only parsing).

Fixpoint outcome_covers (o : MarketOutcome) (selections : list Selection) : result unit :=
  match selections with
  | [] => Ok ()
  | selection :: rest =>
      match o !! Selection_ID selection with
      | None => Err (Wrapf "%w: selection %s missing" ErrIncompleteOutcome)
      | Some res => SettlementResult_Validate res;; outcome_covers o rest
      end
  end.

Definition MarketOutcome_validate (o : MarketOutcome) (selections : list Selection) : result unit :=
  fail_if (negb (bool_decide (size o = length selections))) ErrIncompleteOutcome;;
  outcome_covers o selections.

Record SettlementAccountRefs := mkSettlementAccountRefs {
  SAR_UserFundingAccountID : string;
  SAR_EscrowAccountID : string;
  SAR_HouseClearingAccountID : string
}.

Definition is_win_or_loss (r : SettlementResult) : bool :=
  bool_decide (r = ResultWin) || bool_decide (r = ResultLoss).

Definition SettlementAccountRefs_validate (r : SettlementAccountRefs) (res : SettlementResult)
    : result unit :=
  fail_if (is_blank (SAR_UserFundingAccountID r) || is_blank (SAR_EscrowAccountID r))
    (invalidf "settlement requires user funding and escrow account references");;
  fail_if (is_win_or_loss res && is_blank (SAR_HouseClearingAccountID r))
    (invalidf "win and loss settlement requires a house clearing account reference").

Record WagerSettlement := mkWagerSettlement {
  WS_ID : ID;
  WS_WagerID : ID;
  WS_MarketSettlementID : ID;
  WS_Result : SettlementResult;
  WS_Stake : Money;
  WS_Profit : Money;
  WS_Returned : Money;
  WS_DeadHeatDivisor : Z;
  WS_Transaction : Transaction
}.

(** The stake that rides at the accepted odds, and the stake that loses. *)
Definition deadHeatSplit (stake : Money) (divisor : Z) : Money * Money :=
  let divisor := if divisor <? 1 then 1 else divisor in
  let winningCents := quot64 (Cents stake) divisor in
  (mkMoney winningCents (Money_Currency stake),
   mkMoney (wrap64 (Cents stake - winningCents)) (Money_Currency stake)).

(** ** One wager *)
Definition settlement_key (wagerID : ID) (version : Z) : string :=
  ("wager:" ++ wagerID ++ ":settlement:v" ++ sprint_d version)%string.

(** The [switch result] of [settleWager]: transaction type, profit, returned
    amount and postings. *)
Definition settlement_amounts (wager : Wager) (res : SettlementResult)
    (refs : SettlementAccountRefs) (deadHeatDivisor : Z) (negatedStake : Money)
    : result (TransactionType * Money * Money * list Posting) :=
  let currency := Money_Currency (Stake wager) in
  match res with
  | ResultWin =>
      let '(winningStake, lostStake) := deadHeatSplit (Stake wager) deadHeatDivisor in
      profit ← (if Cents winningStake =? 0 then Ok (mkMoney 0 currency)
                else Profit (AcceptedOdds wager) winningStake);
      returned ← Money_Add winningStake profit;
      let houseAmount := mkMoney (wrap64 (Cents lostStake - Cents profit)) currency in
      Ok (TransactionWagerWin, profit, returned,
          [mkPosting (SAR_EscrowAccountID refs) negatedStake]
          ++ (if Cents houseAmount =? 0 then []
              else [mkPosting (SAR_HouseClearingAccountID refs) houseAmount])
          ++ (if Cents returned =? 0 then []
              else [mkPosting (SAR_UserFundingAccountID refs) returned]))
  | ResultLoss =>
      Ok (TransactionWagerLoss, mkMoney 0 currency, mkMoney 0 currency,
          [mkPosting (SAR_EscrowAccountID refs) negatedStake;
           mkPosting (SAR_HouseClearingAccountID refs) (Stake wager)])
  | ResultPush | ResultVoid =>
      Ok (TransactionWagerRefund, mkMoney 0 currency, Stake wager,
          [mkPosting (SAR_EscrowAccountID refs) negatedStake;
           mkPosting (SAR_UserFundingAccountID refs) (Stake wager)])
  | ResultOther _ => Err (invalidf "settlement result %q is not supported")
  end.

(** The divisor after the two guards at the top of [settleWager]. *)
Definition effective_divisor (res : SettlementResult) (deadHeatDivisor : Z) : Z :=
  let deadHeatDivisor := if deadHeatDivisor <? 1 then 1 else deadHeatDivisor in
  if negb (bool_decide (res = ResultWin)) then 1 else deadHeatDivisor.

Definition settleWager (wager : Wager) (res : SettlementResult) (refs : SettlementAccountRefs)
    (marketSettlementID wagerSettlementID : ID) (version : Z) (actor : ID) (at_ : Time)
    (eventID : ID) (deadHeatDivisor : Z) : result (WagerSettlement * Wager * Envelope) :=
  SettlementAccountRefs_validate refs res;;
  let deadHeatDivisor := effective_divisor res deadHeatDivisor in
  let nextState := if bool_decide (res = ResultVoid) then WagerVoided else WagerSettled in
  fail_if (negb (WagerState_CanTransitionTo (Wager_State wager) nextState))
    (transitionErr "settle wager" (WagerState_text (Wager_State wager)));;
  let currency := Money_Currency (Stake wager) in
  negatedStake ← Negate (Stake wager);
  '(txnType, profit, returned, postings) ←
    settlement_amounts wager res refs deadHeatDivisor negatedStake;
  let txn := mkTransaction txnType currency (settlement_key (Wager_ID wager) version) actor
      "market_settlement" marketSettlementID "" "" postings in
  wrap_err "build settlement transaction for wager %s: %w" (Transaction_Validate txn);;
  let settledWager := set_Wager_State nextState wager in
  let settlement := mkWagerSettlement wagerSettlementID (Wager_ID wager) marketSettlementID res
      (Stake wager) profit returned deadHeatDivisor txn in
  let payload := mkWagerSettledPayload (Wager_ID wager) (Wager_UserID wager)
      (SettlementResult_text res) (Cents (Stake wager)) (Cents profit) (Cents returned) currency in
  envelope ← buildEnvelope eventID (Wager_ID wager) "wager" version WagerSettledType at_
               (marshal_wagerSettled payload);
  Ok (settlement, settledWager, envelope).

(** ** A market *)
Record SettleMarketCommand := mkSettleMarketCommand {
  SMC_Market : Market;
  Selections : list Selection;
  Outcome : MarketOutcome;
  SMC_Wagers : list Wager;
  SMC_Refs : gmap string SettlementAccountRefs;
  SMC_WagerSettlementIDs : gmap string ID;
  SMC_WagerEventIDs : gmap string ID;
  SMC_SettlementID : ID;
  SMC_Version : Z;
  SMC_Actor : ID;
  SMC_OccurredAt : Time;
  SMC_MarketEventID : ID;
  Regrade : bool;
  DeadHeat : bool;
  SMC_DeadHeatDivisor : Z
}.

Record SettleMarketResult := mkSettleMarketResult {
  SMR_Market : Market;
  SMR_Wagers : list Wager;
  SMR_Settlements : list WagerSettlement;
  SMR_MarketEvent : Envelope;
  SMR_WagerEvents : list Envelope;
  SMR_DeadHeatDivisor : Z
}.

Definition winners (o : MarketOutcome) : Z :=
  Z.of_nat (size (filter (fun kv => kv.2 = ResultWin) o)).

Definition deadHeatDivisor (command : SettleMarketCommand) : result Z :=
  if negb (DeadHeat command) then
    fail_if (1 <? SMC_DeadHeatDivisor command)
      (invalidf "a dead-heat divisor was supplied without declaring a dead heat");;
    Ok 1
  else if 0 <? SMC_DeadHeatDivisor command then
    fail_if (SMC_DeadHeatDivisor command <? 2) (invalidf "a dead heat needs at least two tied winners");;
    Ok (SMC_DeadHeatDivisor command)
  else
    fail_if (winners (Outcome command) <? 2)
      (invalidf "a dead heat needs at least two winning selections, found %d");;
    Ok (winners (Outcome command)).

Definition is_accepted (w : Wager) : bool := bool_decide (Wager_State w = WagerAccepted).

(** The wagers left as they are, in input order, and the accepted ones sorted
    by ID. *)
Definition splitAcceptedWagers (marketID : ID) (wagers : list Wager)
    : result (list Wager * list Wager) :=
  fail_if (existsb (fun w => negb (bool_decide (Wager_MarketID w = marketID))) wagers)
    ErrWagerMarketMismatch;;
  Ok (List.filter (fun w => negb (is_accepted w)) wagers,
      sort_by Wager_ID (List.filter is_accepted wagers)).

Definition resultIndex (r : SettlementResult) : nat :=
  match r with ResultWin => 0 | ResultLoss => 1 | ResultPush => 2 | _ => 3 end.

(** The accumulators of the settlement loop: the three result slices, the
    counts and the int64 totals. *)
Record settle_acc := mkSettleAcc {
  acc_settlements : list WagerSettlement;
  acc_wagers : list Wager;
  acc_events : list Envelope;
  acc_counts : list Z;
  acc_stake : Z;
  acc_profit : Z;
  acc_returned : Z
}.

Definition acc_init (unchanged : list Wager) : settle_acc :=
  mkSettleAcc [] unchanged [] [0; 0; 0; 0] 0 0 0.

Definition acc_add (acc : settle_acc) (outcome : SettlementResult)
    (r : WagerSettlement * Wager * Envelope) : settle_acc :=
  let '(settlement, updatedWager, envelope) := r in
  mkSettleAcc (acc_settlements acc ++ [settlement]) (acc_wagers acc ++ [updatedWager])
    (acc_events acc ++ [envelope]) (alter (Z.add 1) (resultIndex outcome) (acc_counts acc))
    (wrap64 (acc_stake acc + Cents (WS_Stake settlement)))
    (wrap64 (acc_profit acc + Cents (WS_Profit settlement)))
    (wrap64 (acc_returned acc + Cents (WS_Returned settlement))).

(** The references and identifiers both market commands look up for a wager. *)
Definition wager_refs (refs : gmap string SettlementAccountRefs) (sids eids : gmap string ID)
    (wager : Wager) : result (SettlementAccountRefs * ID * ID) :=
  match refs !! Wager_ID wager with
  | None => Err (Wrapf "%w: missing account references for wager %s" ErrInvalid)
  | Some r =>
      let settlementID := default ""%string (sids !! Wager_ID wager) in
      let eventID := default ""%string (eids !! Wager_ID wager) in
      fail_if (negb (validID settlementID) || negb (validID eventID))
        (Wrapf "%w: missing settlement or event ID for wager %s" ErrInvalid);;
      Ok (r, settlementID, eventID)
  end.

(** The body of a grading loop yields the wager's result with its records. *)
Abbreviation graded := (SettlementResult * (WagerSettlement * Wager * Envelope))%type.

(** [for _, wager := range acceptedWagers { ... }], stopping at the first error. *)
Fixpoint grade_loop (grade : Wager -> result graded) (accepted : list Wager) (acc : settle_acc)
    : result settle_acc :=
  match accepted with
  | [] => Ok acc
  | wager :: rest =>
      '(outcome, r) ← grade wager;
      grade_loop grade rest (acc_add acc outcome r)
  end.

Definition settle_one (command : SettleMarketCommand) (at_ : Time) (divisor : Z) (wager : Wager)
    : result graded :=
  match Outcome command !! Wager_SelectionID wager with
  | None => Err (Wrapf "%w: wager %s selection has no outcome" ErrIncompleteOutcome)
  | Some outcome =>
      '(refs, settlementID, eventID) ←
        wager_refs (SMC_Refs command) (SMC_WagerSettlementIDs command)
          (SMC_WagerEventIDs command) wager;
      r ← settleWager wager outcome refs (SMC_SettlementID command) settlementID
            (SMC_Version command) (SMC_Actor command) at_ eventID divisor;
      Ok (outcome, r)
  end.

(** [switch command.Market.State] at the top of [SettleMarket]. *)
Definition settleable (s : MarketState) (regrade : bool) : bool :=
  match s with
  | MarketClosed | MarketSettlementPending => true
  | MarketSettled => regrade
  | _ => false
  end.

Definition SettleMarket (command : SettleMarketCommand) : result SettleMarketResult :=
  let market := SMC_Market command in
  Market_Validate market;;
  fail_if (negb (settleable (Market_State market) (Regrade command)))
    (transitionErr "settle market" (MarketState_text (Market_State market)));;
  fail_if (SMC_Version command <=? 0) (invalidf "settlement version must be positive");;
  fail_if (negb (validID (SMC_SettlementID command)) || negb (validID (SMC_Actor command))
           || negb (validID (SMC_MarketEventID command)))
    (invalidf "market settlement requires settlement, actor, and event IDs");;
  fail_if (IsZero (SMC_OccurredAt command)) (invalidf "market settlement requires an occurrence time");;
  fail_if (existsb (fun s => negb (bool_decide (Selection_MarketID s = Market_ID market)))
             (Selections command)) ErrSelectionMismatch;;
  MarketOutcome_validate (Outcome command) (Selections command);;
  divisor ← deadHeatDivisor command;
  let at_ := UTC (SMC_OccurredAt command) in
  '(unchanged, accepted) ← splitAcceptedWagers (Market_ID market) (SMC_Wagers command);
  acc ← grade_loop (settle_one command at_ divisor) accepted (acc_init unchanged);
  let count i := default 0 (acc_counts acc !! i) in
  let payload := mkMarketSettledPayload (Market_ID market) (SMC_Version command)
      (count 0%nat) (count 1%nat) (count 2%nat) (count 3%nat)
      (acc_stake acc) (acc_profit acc) (acc_returned acc) (Market_Currency market) in
  envelope ← buildEnvelope (SMC_MarketEventID command) (Market_ID market) "market"
               (SMC_Version command) MarketSettledType at_ (marshal_marketSettled payload);
  Ok (mkSettleMarketResult (set_Market_State MarketSettled market) (acc_wagers acc)
        (acc_settlements acc) envelope (acc_events acc) divisor).

(** ** Voiding *)
Record VoidMarketCommand := mkVoidMarketCommand {
  VMC_Market : Market;
  VMC_Wagers : list Wager;
  VMC_Refs : gmap string SettlementAccountRefs;
  VMC_WagerSettlementIDs : gmap string ID;
  VMC_WagerEventIDs : gmap string ID;
  VMC_SettlementID : ID;
  VMC_Version : Z;
  VMC_Actor : ID;
  VMC_Reason : string;
  VMC_OccurredAt : Time;
  VMC_MarketEventID : ID
}.

Definition voidable (s : MarketState) : bool :=
  match s with
  | MarketOpen | MarketClosed | MarketSettlementPending => true
  | _ => false
  end.

(** A void refunds the whole stake, so no dead heat applies to it. *)
Definition void_one (command : VoidMarketCommand) (at_ : Time) (wager : Wager) : result graded :=
  '(refs, settlementID, eventID) ←
    wager_refs (VMC_Refs command) (VMC_WagerSettlementIDs command)
      (VMC_WagerEventIDs command) wager;
  r ← settleWager wager ResultVoid refs (VMC_SettlementID command) settlementID
        (VMC_Version command) (VMC_Actor command) at_ eventID 1;
  Ok (ResultVoid, r).

(** The result's [DeadHeatDivisor] keeps its zero value. *)
Definition VoidMarket (command : VoidMarketCommand) : result SettleMarketResult :=
  let market := VMC_Market command in
  Market_Validate market;;
  fail_if (negb (voidable (Market_State market)))
    (transitionErr "void market" (MarketState_text (Market_State market)));;
  fail_if (is_blank (VMC_Reason command)) ErrReasonRequired;;
  fail_if (VMC_Version command <=? 0) (invalidf "settlement version must be positive");;
  fail_if (negb (validID (VMC_SettlementID command)) || negb (validID (VMC_Actor command))
           || negb (validID (VMC_MarketEventID command)))
    (invalidf "market void requires settlement, actor, and event IDs");;
  fail_if (IsZero (VMC_OccurredAt command)) (invalidf "market void requires an occurrence time");;
  let at_ := UTC (VMC_OccurredAt command) in
  '(unchanged, accepted) ← splitAcceptedWagers (Market_ID market) (VMC_Wagers command);
  acc ← grade_loop (void_one command at_) accepted (acc_init unchanged);
  let payload := mkMarketSettledPayload (Market_ID market) (VMC_Version command)
      0 0 0 (Z.of_nat (length accepted)) (acc_stake acc) 0 (acc_stake acc)
      (Market_Currency market) in
  envelope ← buildEnvelope (VMC_MarketEventID command) (Market_ID market) "market"
               (VMC_Version command) MarketSettledType at_ (marshal_marketSettled payload);
  Ok (mkSettleMarketResult (set_Market_State MarketVoided market) (acc_wagers acc)
        (acc_settlements acc) envelope (acc_events acc) 0).

(** ** Specification of one settlement *)

(** What rides at the accepted odds when [d] selections tie. *)
Definition riding (w : Wager) (d : Z) : Z := Cents (Stake w) / d.
Definition profit_cents (w : Wager) (res : SettlementResult) (d : Z) : Z :=
  match res with
  | ResultWin => if riding w d =? 0 then 0 else profit_spec (AcceptedOdds w) (riding w d)
  | _ => 0
  end.
Definition returned_cents (w : Wager) (res : SettlementResult) (d : Z) : Z :=
  match res with
  | ResultWin => riding w d + profit_cents w res d
  | ResultLoss => 0
  | _ => Cents (Stake w)
  end.

(** The postings: escrow releases the stake, the member gets what is
    returned, and house clearing absorbs the difference. *)
Definition nonzero_posting (account : string) (cents : Z) (c : Currency) : list Posting :=
  if cents =? 0 then [] else [mkPosting account (mkMoney cents c)].
Definition settlement_postings (w : Wager) (res : SettlementResult) (refs : SettlementAccountRefs)
    (d : Z) : list Posting :=
  let c := Money_Currency (Stake w) in
  mkPosting (SAR_EscrowAccountID refs) (mkMoney (- Cents (Stake w)) c)
  :: nonzero_posting (SAR_HouseClearingAccountID refs)
       (Cents (Stake w) - returned_cents w res d) c
  ++ nonzero_posting (SAR_UserFundingAccountID refs) (returned_cents w res d) c.
Definition settlement_type (res : SettlementResult) : TransactionType :=
  match res with
  | ResultWin => TransactionWagerWin
  | ResultLoss => TransactionWagerLoss
  | _ => TransactionWagerRefund
  end.
Definition known_result (res : SettlementResult) : bool := is_Ok (SettlementResult_Validate res).

Lemma money_eta m : mkMoney (Cents m) (Money_Currency m) = m.
Proof. by destruct m. Qed.

Lemma deadHeatSplit_eq stake d :
  1 <= d -> 0 < Cents stake <= MaxInt64 ->
  deadHeatSplit stake d =
    (mkMoney (Cents stake / d) (Money_Currency stake),
     mkMoney (Cents stake - Cents stake / d) (Money_Currency stake))
  /\ 0 <= Cents stake / d <= Cents stake.
Proof.
  intros Hd Hs. unfold deadHeatSplit. rewrite (proj2 (Z.ltb_ge _ _)) by lia.
  assert (0 <= Cents stake / d <= Cents stake).
  { split; [apply Z.div_pos; lia|]. apply Z.div_le_upper_bound; [lia|nia]. }
  unfold quot64. rewrite Z.quot_div_nonneg by lia.
  rewrite !wrap64_id; [done|..]; unfold int64, MinInt64; lia.
Qed.

Lemma riding_bounds w d : 1 <= d -> 0 < Cents (Stake w) -> 0 <= riding w d <= Cents (Stake w).
Proof.
  intros Hd Hs. unfold riding. split; [apply Z.div_pos; lia|].
  apply Z.div_le_upper_bound; [lia|nia].
Qed.

Lemma profit_cents_nonneg w res d :
  good_wager w -> 1 <= d -> 0 <= profit_cents w res d.
Proof.
  intros (_ & Hs & Ho & _)%good_wager_facts Hd. destruct res; cbn; try lia.
  case_match; [lia|]. apply profit_spec_bounds; [done|]. apply riding_bounds; lia.
Qed.

(** The [switch] computes the specified amounts or reports an overflow. *)
Lemma settlement_amounts_eq w res refs d :
  good_wager w -> 1 <= d -> known_result res = true ->
  let r := settlement_amounts w res refs d
             (mkMoney (- Cents (Stake w)) (Money_Currency (Stake w))) in
  r = Err ErrAmountOverflow
    /\ (MaxInt64 / fst (odds_ratio (AcceptedOdds w)) < riding w d
        \/ ~ int64 (returned_cents w res d))
  \/ int64 (returned_cents w res d) /\ int64 (profit_cents w res d)
     /\ r = Ok (settlement_type res,
                mkMoney (profit_cents w res d) (Money_Currency (Stake w)),
                mkMoney (returned_cents w res d) (Money_Currency (Stake w)),
                settlement_postings w res refs d).
Proof.
  intros Hg Hd Hres. pose proof (good_wager_facts w Hg) as (Hc & Hs & Ho & _ & _).
  assert (Hi : int64 (Cents (Stake w)) /\ int64 0) by (unfold int64, MinInt64, MaxInt64 in *; lia).
  assert (Hz : (Cents (Stake w) =? 0) = false) by (apply Z.eqb_neq; lia).
  destruct res; [|right..|done].
  2-4: cbn; split_and!; try naive_solver; unfold settlement_postings, nonzero_posting; cbn;
       rewrite ?Z.sub_0_r, ?Z.sub_diag, Hz; cbn; by rewrite money_eta.
  unfold settlement_amounts.
  destruct (deadHeatSplit_eq (Stake w) d Hd (conj (proj1 Hs) (proj2 Hs))) as [-> Hr].
  fold (riding w d) in *. cbn [Cents].
  assert (Hp : (if riding w d =? 0 then Ok (mkMoney 0 (Money_Currency (Stake w)))
                else Profit (AcceptedOdds w) (mkMoney (riding w d) (Money_Currency (Stake w))))
               = Err ErrAmountOverflow
               /\ MaxInt64 / fst (odds_ratio (AcceptedOdds w)) < riding w d
          \/ 0 <= profit_cents w ResultWin d <= MaxInt64 /\
             (if riding w d =? 0 then Ok (mkMoney 0 (Money_Currency (Stake w)))
              else Profit (AcceptedOdds w) (mkMoney (riding w d) (Money_Currency (Stake w))))
             = Ok (mkMoney (profit_cents w ResultWin d) (Money_Currency (Stake w)))).
  { cbn. destruct (Z.eqb_spec (riding w d) 0); [right; unfold MaxInt64; split; [lia|done]|].
    destruct (Profit _ _) as [p|e] eqn:E.
    - right. apply Profit_Ok in E; [|destruct Ho; lia|cbn; unfold int64, MinInt64; lia].
      cbn in E. destruct E as (_ & _ & _ & _ & -> & ?). done.
    - left. rewrite Profit_eq in E by (done || cbn; lia).
      destruct (Z.ltb_spec (MaxInt64 / fst (odds_ratio (AcceptedOdds w)))
                  (Cents (mkMoney (riding w d) (Money_Currency (Stake w))))); naive_solver. }
  destruct Hp as [[-> Hlt]|[Hpr ->]]; [left; naive_solver|]. cbn [mbind result_bind].
  rewrite Money_Add_spec by (cbn [Cents Money_Currency]; first [done | unfold int64, MinInt64; lia]).
  cbn [Cents Money_Currency].
  change (if riding w d =? 0 then 0 else profit_spec (AcceptedOdds w) (riding w d))
    with (profit_cents w ResultWin d).
  case_decide as Hsum; [right|left; split; [done|by right]].
  split; [exact Hsum|]. split; [unfold int64, MinInt64; lia|].
  unfold settlement_postings, returned_cents, nonzero_posting.
  rewrite wrap64_id by (unfold int64, MinInt64, MaxInt64 in *; lia).
  replace (Cents (Stake w) - riding w d - profit_cents w ResultWin d)
    with (Cents (Stake w) - (riding w d + profit_cents w ResultWin d)) by lia.
  by destruct (_ =? 0), (_ =? 0).
Qed.

Definition final_state (res : SettlementResult) : WagerState :=
  if bool_decide (res = ResultVoid) then WagerVoided else WagerSettled.

(** The settlement record a successful grading produces. *)
Definition settlement_record (w : Wager) (res : SettlementResult) (refs : SettlementAccountRefs)
    (marketSettlementID wagerSettlementID : ID) (version : Z) (actor : ID) (d : Z)
    : WagerSettlement :=
  let c := Money_Currency (Stake w) in
  mkWagerSettlement wagerSettlementID (Wager_ID w) marketSettlementID res (Stake w)
    (mkMoney (profit_cents w res d) c) (mkMoney (returned_cents w res d) c) d
    (mkTransaction (settlement_type res) c (settlement_key (Wager_ID w) version) actor
       "market_settlement" marketSettlementID "" "" (settlement_postings w res refs d)).

Lemma effective_divisor_pos res d : 1 <= effective_divisor res d.
Proof. unfold effective_divisor. case_bool_decide; cbn; [|lia]. destruct (Z.ltb_spec d 1); lia. Qed.

Lemma final_state_valid res : WagerState_Validate (final_state res) = Ok ().
Proof. unfold final_state. by case_bool_decide. Qed.

Lemma final_state_step res s :
  WagerState_CanTransitionTo s (final_state res) = true -> s = WagerAccepted.
Proof.
  intros H. apply (WagerState_to_final_inv _ _ H). unfold final_state. case_bool_decide; set_solver.
Qed.

Lemma settleWager_Ok w res refs msid wsid version actor at_ eid d ws w' ev :
  good_wager w ->
  settleWager w res refs msid wsid version actor at_ eid d = Ok (ws, w', ev) ->
  let d' := effective_divisor res d in
  Wager_State w = WagerAccepted /\ known_result res = true
  /\ w' = set_Wager_State (final_state res) w
  /\ ws = settlement_record w res refs msid wsid version actor d'
  /\ Transaction_Validate (WS_Transaction ws) = Ok ()
  /\ int64 (returned_cents w res d') /\ int64 (profit_cents w res d')
  /\ Env_ID ev = eid /\ AggregateID ev = Wager_ID w /\ AggregateVersion ev = version
  /\ Env_Type ev = WagerSettledType /\ 0 < version.
Proof.
  intros Hg H d'. pose proof (good_wager_facts w Hg) as (Hc & Hs & Ho & _ & _).
  unfold settleWager in H. go_inv. fold (final_state res) in *.
  bool_prop. apply final_state_step in Hok0.
  rewrite Negate_pos in Hok1 by done. injection Hok1 as <-.
  destruct (known_result res) eqn:Hres.
  2:{ by destruct res. }
  pose proof (settlement_amounts_eq w res refs d' Hg (effective_divisor_pos res d) Hres) as Ha.
  cbn zeta in Ha. fold d' in Hok2. destruct Ha as [[Ha _]|(Hi1 & Hi2 & Ha)]; rewrite Ha in Hok2; [done|].
  injection Hok2 as <-. go_inv.
  match goal with E : Transaction_Validate _ = Ok ?u |- _ => destruct u end.
  match goal with E : buildEnvelope _ _ _ _ _ _ _ = Ok _ |- _ =>
    apply buildEnvelope_Ok in E as (-> & _ & _ & Hv) end.
  split_and!; done.
Qed.

(** ** Totality: an accepted wager can always be graded *)

(** Three usable, different accounts. *)
Definition settlement_accounts (refs : SettlementAccountRefs) : Prop :=
  Forall (fun a => is_blank a = false)
    [SAR_EscrowAccountID refs; SAR_HouseClearingAccountID refs; SAR_UserFundingAccountID refs]
  /\ NoDup (TrimSpace <$> [SAR_EscrowAccountID refs; SAR_HouseClearingAccountID refs;
                           SAR_UserFundingAccountID refs]).

Lemma nonzero_posting_ok a x c :
  is_blank a = false -> valid_currency c = true -> Forall (posting_ok c) (nonzero_posting a x c).
Proof.
  intros Ha Hc. unfold nonzero_posting. destruct (Z.eqb_spec x 0); [constructor|].
  by rewrite Forall_cons, Forall_nil.
Qed.

Lemma nonzero_posting_sum a x c : sumZ posting_cents (nonzero_posting a x c) = x.
Proof.
  unfold nonzero_posting. destruct (Z.eqb_spec x 0) as [->|]; [done|].
  rewrite sumZ_cons, sumZ_nil. unfold posting_cents; cbn. lia.
Qed.

Lemma nonzero_posting_net b a x c :
  net b (nonzero_posting a x c) = if bool_decide (a = b) then x else 0.
Proof.
  unfold nonzero_posting. destruct (Z.eqb_spec x 0) as [->|].
  - rewrite net_nil. by case_bool_decide.
  - rewrite net_cons, net_nil. cbn. case_bool_decide; lia.
Qed.

Lemma nonzero_posting_int64 a x c :
  int64 x -> Forall (fun p => int64 (posting_cents p)) (nonzero_posting a x c).
Proof.
  intros Hx. unfold nonzero_posting. destruct (x =? 0); [constructor|].
  by rewrite Forall_cons, Forall_nil.
Qed.

Lemma returned_cents_bounds w res d :
  good_wager w -> 1 <= d -> 0 <= returned_cents w res d.
Proof.
  intros Hg Hd. pose proof (good_wager_facts w Hg) as (_ & Hs & _).
  pose proof (profit_cents_nonneg w res d Hg Hd).
  pose proof (riding_bounds w d Hd ltac:(lia)). destruct res; cbn [returned_cents]; lia.
Qed.

Lemma settlement_postings_validate w res refs d :
  good_wager w -> 1 <= d -> settlement_accounts refs -> int64 (returned_cents w res d) ->
  ValidatePostings (Money_Currency (Stake w)) (settlement_postings w res refs d) = Ok ().
Proof.
  intros Hg Hd [Hb Hnd] Hr. pose proof (good_wager_facts w Hg) as (Hc & Hs & _).
  pose proof (returned_cents_bounds w res d Hg Hd) as Hr0.
  rewrite !Forall_cons in Hb. destruct Hb as (Hb1 & Hb2 & Hb3 & _).
  rewrite !fmap_cons, !NoDup_cons in Hnd. destruct Hnd as (Hn1 & Hn2 & _).
  set (s := Cents (Stake w)) in *. set (r := returned_cents w res d) in *.
  assert (Hi : int64 (- s) /\ int64 (s - r) /\ int64 (- s + (s - r)) /\ int64 0
               /\ int64 (- s + (s - r) + r) /\ int64 (- s + r)).
  { unfold int64, MinInt64, MaxInt64 in *. lia. }
  destruct Hi as (Hi1 & Hi2 & Hi3 & Hi4 & Hi5 & Hi6).
  unfold settlement_postings. fold s r.
  apply ValidatePostings_Ok.
  { apply Forall_cons; split; [done|]. apply Forall_app; split; by apply nonzero_posting_int64. }
  split_and!; [done|..].
  - unfold nonzero_posting. destruct (Z.eqb_spec (s - r) 0), (Z.eqb_spec r 0); cbn; lia.
  - apply Forall_cons; split; [unfold posting_ok; cbn; split_and!; done || lia|].
    apply Forall_app; split; by apply nonzero_posting_ok.
  - unfold nonzero_posting, posting_account.
    destruct (s - r =? 0), (r =? 0); cbn; rewrite ?NoDup_cons; split_and!; try set_solver; constructor.
  - unfold nonzero_posting. destruct (Z.eqb_spec (s - r) 0), (Z.eqb_spec r 0); cbn [app];
      rewrite ?prefixes_in_range_cons, prefixes_in_range_nil; unfold posting_cents; cbn [Cents Amount];
      rewrite ?Z.add_0_l; done.
  - rewrite sumZ_cons, sumZ_app, !nonzero_posting_sum. unfold posting_cents; cbn. lia.
Qed.

(** A price and stake the ledger accepted at placement never overflow later:
    the riding part is no larger, and profit plus stake stays far below
    MaxInt64. *)
Lemma returned_cents_fits w res d :
  good_wager w -> 1 <= d -> Cents (Stake w) <= MaxInt64 / fst (odds_ratio (AcceptedOdds w)) ->
  int64 (returned_cents w res d)
  /\ riding w d <= MaxInt64 / fst (odds_ratio (AcceptedOdds w)).
Proof.
  intros Hg Hd Hfit. pose proof (good_wager_facts w Hg) as (_ & Hs & Ho & _).
  pose proof (returned_cents_bounds w res d Hg Hd) as Hr0.
  pose proof (riding_bounds w d Hd ltac:(lia)) as Hrb. split; [|lia].
  enough (returned_cents w res d <= MaxInt64) by (unfold int64, MinInt64; lia).
  destruct res; cbn [returned_cents profit_cents]; try lia.
  unfold profit_spec. destruct (odds_ratio (AcceptedOdds w)) as [n m] eqn:E. cbn [fst] in *.
  destruct (odds_ratio_pos _ _ _ Ho E) as [Hn Hm].
  assert (H100 : MaxInt64 / n <= MaxInt64 / 100) by (apply Z.div_le_compat_l; unfold MaxInt64; lia).
  pose proof (Z.mul_div_le MaxInt64 n ltac:(lia)) as Hmul.
  change (MaxInt64 / 100) with 92233720368547758 in *.
  destruct (riding w d =? 0); [unfold MaxInt64 in *; lia|].
  assert (Hq : (2 * (riding w d * n) + m) / (2 * m) <= 92233720368547760).
  { apply Z.div_le_upper_bound; [lia|].
    assert (riding w d * n <= 9223372036854775807) by (unfold MaxInt64 in *; nia). nia. }
  unfold MaxInt64 in *. lia.
Qed.

(** What the caller of a grading command supplies for a wager that was
    accepted through [PlaceWager] and [AcceptWager]. *)
Record gradable (w : Wager) (refs : SettlementAccountRefs) (marketSettlementID : ID)
    (version : Z) (actor : ID) (at_ : Time) (eventID : ID) : Prop := {
  gr_wager : good_wager w;
  gr_accepted : Wager_State w = WagerAccepted;
  gr_fits : Cents (Stake w) <= MaxInt64 / fst (odds_ratio (AcceptedOdds w));
  gr_uuid : validUUID (Wager_ID w) = true;
  gr_accounts : settlement_accounts refs;
  gr_settlement : is_blank marketSettlementID = false;
  gr_version : 0 < version;
  gr_actor : is_blank actor = false;
  gr_time : IsZero at_ = false;
  gr_event : validUUID eventID = true
}.

Lemma settlement_key_not_blank w version : is_blank (settlement_key w version) = false.
Proof. by apply not_blank_plain. Qed.

Lemma settleWager_succeeds w res refs msid wsid version actor at_ eid d :
  gradable w refs msid version actor at_ eid -> known_result res = true ->
  exists ev,
    settleWager w res refs msid wsid version actor at_ eid d
    = Ok (settlement_record w res refs msid wsid version actor (effective_divisor res d),
          set_Wager_State (final_state res) w, ev)
    /\ Env_ID ev = eid.
Proof.
  intros [Hg Hacc Hfit Hu Ha Hs Hv Hac Ht He] Hres.
  pose proof (good_wager_facts w Hg) as (Hc & Hst & Ho & _ & _).
  set (d' := effective_divisor res d). assert (Hd : 1 <= d') by apply effective_divisor_pos.
  destruct (returned_cents_fits w res d' Hg Hd Hfit) as [Hret Hrid].
  unfold settleWager. fold (final_state res). fold d'.
  pose proof (proj1 Ha) as Hb.
  rewrite !Forall_cons in Hb. destruct Hb as (Hb1 & Hb2 & Hb3 & _).
  unfold SettlementAccountRefs_validate. rewrite Hb1, Hb2, Hb3, andb_false_r. cbn.
  rewrite Hacc. assert (WagerState_CanTransitionTo WagerAccepted (final_state res) = true) as ->.
  { unfold final_state. by case_bool_decide. }
  cbn. rewrite Negate_pos by done. cbn [mbind result_bind].
  destruct (settlement_amounts_eq w res refs d' Hg Hd Hres) as [[_ [?|?]]|(_ & _ & ->)];
    [lia|done|]. cbn [mbind result_bind].
  rewrite Transaction_Validate_intro; cbn; try done.
  - rewrite buildEnvelope_ok by (done || cbn; lia || by vm_compute). cbn. eauto.
  - by destruct res.
  - apply settlement_key_not_blank.
  - by destruct res.
  - by destruct res.
  - by apply settlement_postings_validate.
Qed.

(** ** The grading loop *)

(** The loop accumulates the results of grading the wagers in order. *)
Definition acc_all (acc : settle_acc) (rs : list graded) : settle_acc :=
  foldl (fun a r => acc_add a r.1 r.2) acc rs.

Lemma grade_loop_eq grade l acc : grade_loop grade l acc = acc_all acc <$> mapM grade l.
Proof.
  unfold acc_all. revert acc. induction l as [|w l IH]; intros acc; [done|].
  cbn. destruct (grade w) as [[outcome r]|e]; [|done]. cbn.
  rewrite IH. by destruct (mapM grade l).
Qed.

Lemma mapM_Ok (grade : Wager -> result graded) l rs :
  mapM grade l = Ok rs <-> Forall2 (fun w r => grade w = Ok r) l rs.
Proof.
  revert rs. induction l as [|w l IH]; intros rs.
  - cbn. split; [intros [= <-]; constructor|inversion 1; done].
  - cbn. split.
    + intros H. go_inv. constructor; [done|]. by apply IH.
    + inversion 1 as [|? r ? rs' Hr Hrs]; subst. rewrite Hr. cbn.
      apply IH in Hrs. by rewrite Hrs.
Qed.

Lemma acc_all_fields acc rs :
  acc_settlements (acc_all acc rs) = acc_settlements acc ++ ((fun r => r.2.1.1) <$> rs)
  /\ acc_wagers (acc_all acc rs) = acc_wagers acc ++ ((fun r => r.2.1.2) <$> rs)
  /\ acc_events (acc_all acc rs) = acc_events acc ++ ((fun r => r.2.2) <$> rs).
Proof.
  unfold acc_all. revert acc. induction rs as [|[outcome [[ws w'] ev]] rs IH]; intros acc.
  - cbn. by rewrite !app_nil_r.
  - cbn [foldl fst snd]. rewrite !fmap_cons.
    destruct (IH (acc_add acc outcome (ws, w', ev))) as (-> & -> & ->). cbn.
    by rewrite <- !(assoc_L (++)).
Qed.

(** The int64 totals wrap once at most: they are the wrapped exact sums. *)
Lemma acc_all_totals acc rs :
  wrap64 (acc_stake acc) = acc_stake acc -> wrap64 (acc_profit acc) = acc_profit acc ->
  wrap64 (acc_returned acc) = acc_returned acc ->
  acc_stake (acc_all acc rs) = wrap64 (acc_stake acc + sumZ (fun r => Cents (WS_Stake r.2.1.1)) rs)
  /\ acc_profit (acc_all acc rs) = wrap64 (acc_profit acc + sumZ (fun r => Cents (WS_Profit r.2.1.1)) rs)
  /\ acc_returned (acc_all acc rs)
     = wrap64 (acc_returned acc + sumZ (fun r => Cents (WS_Returned r.2.1.1)) rs).
Proof.
  unfold acc_all. revert acc. induction rs as [|[outcome [[ws w'] ev]] rs IH]; intros acc H1 H2 H3.
  - cbn. rewrite !sumZ_nil, !Z.add_0_r. done.
  - cbn [foldl fst snd]. rewrite !sumZ_cons. cbn [fst snd].
    destruct (IH (acc_add acc outcome (ws, w', ev))) as (-> & -> & ->); cbn;
      try (apply wrap64_id, wrap64_int64).
    rewrite !wrap64_add, !Z.add_assoc. done.
Qed.

(** Which wagers were left alone does not influence anything else. *)
Lemma acc_all_unchanged u acc rs :
  acc_all (mkSettleAcc (acc_settlements acc) (u ++ acc_wagers acc) (acc_events acc)
             (acc_counts acc) (acc_stake acc) (acc_profit acc) (acc_returned acc)) rs
  = let r := acc_all acc rs in
    mkSettleAcc (acc_settlements r) (u ++ acc_wagers r) (acc_events r)
      (acc_counts r) (acc_stake r) (acc_profit r) (acc_returned r).
Proof.
  unfold acc_all. revert acc. induction rs as [|[outcome [[ws w'] ev]] rs IH]; intros acc; [done|].
  cbn [foldl fst snd]. rewrite <- IH. f_equal. cbn. by rewrite (assoc_L (++)).
Qed.

Lemma splitAcceptedWagers_Ok marketID wagers u a :
  splitAcceptedWagers marketID wagers = Ok (u, a) ->
  u = List.filter (fun w => negb (is_accepted w)) wagers
  /\ a = sort_by Wager_ID (List.filter is_accepted wagers)
  /\ Forall (fun w => Wager_MarketID w = marketID) wagers.
Proof.
  unfold splitAcceptedWagers. intros H. apply bind_Ok in H as (x & Hx & H).
  apply fail_if_Ok in Hx. simplify_eq. split_and!; try done.
  clear -Hx. induction wagers as [|w l IH]; [constructor|]. cbn in Hx.
  apply orb_false_iff in Hx as [Hw Hl]. bool_prop. constructor; auto.
Qed.

(** What a successful [SettleMarket] computed. *)
Lemma SettleMarket_Ok c r :
  SettleMarket c = Ok r ->
  exists divisor rs,
    let accepted := sort_by Wager_ID (List.filter is_accepted (SMC_Wagers c)) in
    deadHeatDivisor c = Ok divisor
    /\ Forall2 (fun w g => settle_one c (UTC (SMC_OccurredAt c)) divisor w = Ok g) accepted rs
    /\ SMR_Market r = set_Market_State MarketSettled (SMC_Market c)
    /\ SMR_Wagers r = List.filter (fun w => negb (is_accepted w)) (SMC_Wagers c)
                      ++ ((fun g => g.2.1.2) <$> rs)
    /\ SMR_Settlements r = (fun g => g.2.1.1) <$> rs
    /\ SMR_WagerEvents r = (fun g => g.2.2) <$> rs
    /\ settleable (Market_State (SMC_Market c)) (Regrade c) = true
    /\ SMR_DeadHeatDivisor r = divisor.
Proof.
  unfold SettleMarket. intros H. go_inv.
  match goal with v : (list Wager * list Wager)%type |- _ => destruct v as [u a] end. go_inv.
  match goal with E : splitAcceptedWagers _ _ = _ |- _ =>
    apply splitAcceptedWagers_Ok in E as (-> & -> & _) end.
  match goal with E : grade_loop _ _ _ = _ |- _ => rewrite grade_loop_eq in E; rename E into Hloop end.
  destruct (mapM _ _) as [rs|] eqn:Em; [|done]. cbn in Hloop. injection Hloop as <-.
  apply mapM_Ok in Em. bool_prop. eexists _, rs. cbn zeta.
  destruct (acc_all_fields (acc_init (List.filter (fun w => negb (is_accepted w)) (SMC_Wagers c))) rs)
    as (E1 & E2 & E3).
  split_and!; try done.
Qed.
