(* ===== verification/SettlementProps.v ===== *)
(** * Properties of grading and voiding markets (internal/betting/settle.go)

    Money conservation and totality for one wager; completeness, idempotence
    and order-independence of [SettleMarket]; full refunds by [VoidMarket]. *)
From S2P Require Import Prelude GoStrings GoTime Ledger Events Betting Settlement.

(** ** A concrete settlement used by the witnesses *)
Definition ex_uuid (last : string) : string := ("00000000-0000-4000-8000-00000000000" ++ last)%string.
Definition ex_time : Time := mkTime 63900000000000000000 true.
Definition ex_wager : Wager :=
  mkWager (ex_uuid "1") "alice" "m1" "s1" FundingUserCash (mkMoney 2500 "CAD") 150 "Alice to win"
    (mkMoney 3750 "CAD") WagerAccepted "key-1" "" ex_time.
Definition ex_refs : SettlementAccountRefs := mkSettlementAccountRefs "cash:alice" "escrow" "house".

Lemma ex_wager_good : good_wager ex_wager.
Proof.
  split; [|by vm_compute]. unfold wager_ints, int64, MinInt64, MaxInt64; cbn. lia.
Qed.

Lemma ex_accounts : settlement_accounts ex_refs.
Proof.
  split.
  - rewrite !Forall_cons, Forall_nil. split_and!; by vm_compute.
  - apply (bool_decide_unpack _). by vm_compute.
Qed.

Lemma ex_gradable : gradable ex_wager ex_refs "settlement-1" 1 "admin" ex_time (ex_uuid "2").
Proof.
  split; [apply ex_wager_good|by vm_compute|by vm_compute|by vm_compute|apply ex_accounts|by vm_compute..].
Qed.

Lemma settlement_net w res refs d a :
  NoDup [SAR_EscrowAccountID refs; SAR_HouseClearingAccountID refs; SAR_UserFundingAccountID refs] ->
  net a (settlement_postings w res refs d)
  = if bool_decide (a = SAR_EscrowAccountID refs) then - Cents (Stake w)
    else if bool_decide (a = SAR_HouseClearingAccountID refs)
         then Cents (Stake w) - returned_cents w res d
    else if bool_decide (a = SAR_UserFundingAccountID refs) then returned_cents w res d else 0.
Proof.
  intros Hnd. rewrite !NoDup_cons in Hnd. destruct Hnd as (H1 & H2 & _).
  assert (Happ : forall p q, net a (p ++ q) = net a p + net a q) by (intros; apply sumZ_app).
  unfold settlement_postings. rewrite net_cons, Happ, !nonzero_posting_net. cbn.
  repeat case_bool_decide; subst; try lia; set_solver.
Qed.

(** C3. Grading one accepted wager moves exactly the right money.  On success
    the stored transaction is valid and balanced: escrow releases the whole
    stake, the member's funding account receives exactly what is returned (the
    stake's share of a dead heat plus its profit for a win, nothing for a loss,
    the whole stake for a push or a void), house clearing takes the
    difference, and no other account moves; the wager only changes state, and
    the key is the one determined by wager and version. *)
Theorem settleWager_moves_money w res refs msid wsid version actor at_ eid d ws w' ev :
  good_wager w ->
  NoDup [SAR_EscrowAccountID refs; SAR_HouseClearingAccountID refs; SAR_UserFundingAccountID refs] ->
  settleWager w res refs msid wsid version actor at_ eid d = Ok (ws, w', ev) ->
  let stake := Cents (Stake w) in
  let returned := Cents (WS_Returned ws) in
  let ps := Tx_Postings (WS_Transaction ws) in
  Transaction_Validate (WS_Transaction ws) = Ok ()
  /\ net (SAR_EscrowAccountID refs) ps = - stake
  /\ net (SAR_UserFundingAccountID refs) ps = returned
  /\ net (SAR_HouseClearingAccountID refs) ps = stake - returned
  /\ (forall a, a ∉ [SAR_EscrowAccountID refs; SAR_HouseClearingAccountID refs;
                     SAR_UserFundingAccountID refs] -> net a ps = 0)
  /\ 0 <= returned
  /\ match res with
     | ResultWin =>
         let share := stake / Z.max 1 d in
         Cents (WS_Profit ws) = (if share =? 0 then 0 else profit_spec (AcceptedOdds w) share)
         /\ returned = share + Cents (WS_Profit ws)
     | ResultLoss => returned = 0
     | _ => returned = stake
     end
  /\ Wager_State w = WagerAccepted
  /\ w' = set_Wager_State (if bool_decide (res = ResultVoid) then WagerVoided else WagerSettled) w
  /\ Tx_IdempotencyKey (WS_Transaction ws) = settlement_key (Wager_ID w) version.
Proof.
  intros Hg Hnd H. apply settleWager_Ok in H; [|done].
  destruct H as (Hacc & Hres & -> & -> & Hv & Hi & _ & _).
  set (d' := effective_divisor res d) in *. assert (Hd : 1 <= d') by apply effective_divisor_pos.
  pose proof (returned_cents_bounds w res d' Hg Hd).
  cbn [WS_Returned WS_Transaction settlement_record Tx_Postings Cents] in *.
  rewrite !NoDup_cons in Hnd. destruct Hnd as (Hn1 & Hn2 & Hn3 & Hn4).
  split_and!; try done.
  - rewrite settlement_net by (by rewrite !NoDup_cons). by rewrite bool_decide_true.
  - rewrite settlement_net by (by rewrite !NoDup_cons).
    repeat case_bool_decide; try done; set_solver.
  - rewrite settlement_net by (by rewrite !NoDup_cons).
    repeat case_bool_decide; try done; set_solver.
  - intros a Ha. rewrite settlement_net by (by rewrite !NoDup_cons).
    repeat case_bool_decide; try done; set_solver.
  - destruct res; try done. cbn. subst d'. unfold effective_divisor, riding. cbn.
    replace (if d <? 1 then 1 else d) with (Z.max 1 d) by (destruct (Z.ltb_spec d 1); lia). done.
Qed.

Definition ex_tie := settleWager ex_wager ResultWin ex_refs "settlement-1" "ws-1" 1 "admin" ex_time (ex_uuid "2") 2.

(** A 25.00 wager at +150 in a two-way dead heat: 12.50 rides and wins 18.75. *)
Lemma settleWager_moves_money_witness :
  exists ws w' ev, ex_tie = Ok (ws, w', ev)
    /\ net "cash:alice" (Tx_Postings (WS_Transaction ws)) = 3125
    /\ Cents (WS_Returned ws) = 3125.
Proof.
  destruct ex_tie as [[[ws w'] ev]|e] eqn:E; [|vm_compute in E; discriminate E].
  exists ws, w', ev. split; [done|].
  assert (Hnd : NoDup [SAR_EscrowAccountID ex_refs; SAR_HouseClearingAccountID ex_refs;
                       SAR_UserFundingAccountID ex_refs]).
  { apply (bool_decide_unpack _). by vm_compute. }
  destruct (settleWager_moves_money _ _ _ _ _ _ _ _ _ _ _ _ _ ex_wager_good Hnd E)
    as (_ & _ & Hu & _ & _ & _ & Hm & _).
  destruct Hm as [Hp Hr]. rewrite Hp in Hr. change (AcceptedOdds ex_wager) with 150 in Hr.
  split; [etransitivity; [exact Hu|]|]; rewrite Hr; by vm_compute.
Defined.

(** No accepted wager can be stranded in escrow: for every wager whose
    stake the price could pay when it was placed, every supported result and
    every dead-heat divisor, grading succeeds, for whatever account and
    identifier references name three usable accounts and a UUID event. *)
Theorem settleWager_total w res refs msid wsid version actor at_ eid d :
  gradable w refs msid version actor at_ eid ->
  SettlementResult_Validate res = Ok () ->
  exists ws w' ev,
    settleWager w res refs msid wsid version actor at_ eid d = Ok (ws, w', ev)
    /\ WS_Result ws = res /\ Wager_State w' <> WagerAccepted
    /\ Transaction_Validate (WS_Transaction ws) = Ok ()
    /\ Cents (WS_Returned ws) <= MaxInt64.
Proof.
  intros Hg Hres. assert (Hk : known_result res = true) by (unfold known_result; by rewrite Hres).
  destruct (settleWager_succeeds w res refs msid wsid version actor at_ eid d Hg Hk) as (ev & H & _).
  exists (settlement_record w res refs msid wsid version actor (effective_divisor res d)),
    (set_Wager_State (final_state res) w), ev.
  apply settleWager_Ok in H as Hs; [|apply Hg]. destruct Hs as (_ & _ & _ & _ & Hv & Hi & _).
  split_and!; try done.
  - unfold final_state. by case_bool_decide.
  - apply Hi.
Qed.

Lemma settleWager_total_witness :
  exists ws w' ev,
    settleWager ex_wager ResultLoss ex_refs "settlement-1" "ws-1" 1 "admin" ex_time (ex_uuid "2") 3
    = Ok (ws, w', ev)
    /\ WS_Result ws = ResultLoss /\ Wager_State w' <> WagerAccepted
    /\ Transaction_Validate (WS_Transaction ws) = Ok () /\ Cents (WS_Returned ws) <= MaxInt64.
Proof. apply (settleWager_total ex_wager ResultLoss); [apply ex_gradable|reflexivity]. Defined.

(** ** Markets *)
Lemma settle_one_Ok c at_ d w g :
  settle_one c at_ d w = Ok g ->
  exists refs sid eid,
    Outcome c !! Wager_SelectionID w = Some g.1
    /\ settleWager w g.1 refs (SMC_SettlementID c) sid (SMC_Version c) (SMC_Actor c) at_ eid d = Ok g.2.
Proof.
  unfold settle_one. intros H. destruct (Outcome c !! _) as [outcome|]; [|done].
  apply bind_Ok in H as ([[refs sid] eid] & _ & H). apply bind_Ok in H as (r & Hr & H).
  injection H as <-. naive_solver.
Qed.

Lemma void_one_Ok c at_ w g :
  void_one c at_ w = Ok g ->
  g.1 = ResultVoid /\
  exists refs sid eid,
    settleWager w ResultVoid refs (VMC_SettlementID c) sid (VMC_Version c) (VMC_Actor c) at_ eid 1 = Ok g.2.
Proof.
  unfold void_one. intros H.
  apply bind_Ok in H as ([[refs sid] eid] & _ & H). apply bind_Ok in H as (r & Hr & H).
  injection H as <-. naive_solver.
Qed.

(** What happens to one wager of a settled market. *)
Definition graded_wager (outcome_of : Wager -> SettlementResult) (w : Wager) : Wager :=
  if is_accepted w then set_Wager_State (final_state (outcome_of w)) w else w.
Definition market_outcome (o : gmap string SettlementResult) (w : Wager) : SettlementResult :=
  default (ResultOther "") (o !! Wager_SelectionID w).

Lemma graded_wager_not_accepted f w : Wager_State (graded_wager f w) <> WagerAccepted.
Proof.
  unfold graded_wager, is_accepted. case_bool_decide as H; [|done].
  unfold final_state. by case_bool_decide.
Qed.

(** The wagers a grading command returns are its input wagers, the accepted
    ones with their new state. *)
Lemma graded_wagers_perm f wagers :
  List.filter (fun w => negb (is_accepted w)) wagers
    ++ ((fun w => set_Wager_State (final_state (f w)) w)
        <$> sort_by Wager_ID (List.filter is_accepted wagers))
  ≡ₚ graded_wager f <$> wagers.
Proof.
  rewrite sort_by_perm. rewrite <- (filter_split_perm is_accepted wagers) at 3.
  rewrite fmap_app. apply Permutation_app.
  - induction wagers as [|w l IH]; [done|]. cbn. destruct (is_accepted w) eqn:E; cbn; [done|].
    unfold graded_wager at 1. rewrite E. by apply Permutation_cons.
  - induction wagers as [|w l IH]; [done|]. cbn. destruct (is_accepted w) eqn:E; cbn; [|done].
    unfold graded_wager at 1. rewrite E. by apply Permutation_cons.
Qed.

Lemma sorted_accepted_good wagers :
  Forall good_wager wagers ->
  Forall good_wager (sort_by Wager_ID (List.filter is_accepted wagers)).
Proof.
  rewrite !Forall_forall. intros H w Hw. apply H. rewrite sort_by_perm in Hw.
  by apply filter_bool_elem in Hw as [? _].
Qed.

Lemma Forall2_good (P Q : Wager -> graded -> Prop) l rs :
  Forall good_wager l -> (forall w g, good_wager w -> P w g -> Q w g) ->
  Forall2 P l rs -> Forall2 Q l rs.
Proof.
  intros Hl HPQ H. induction H as [|w g l rs Hw _ IH]; constructor;
    apply Forall_cons in Hl as [? ?]; auto.
Qed.

Lemma Sorted_keys {A} (key : A -> string) l : Sorted (key_le key) l -> Sorted String.le (key <$> l).
Proof. apply Sorted_fmap. by unfold key_le. Qed.

Lemma Forall2_Forall_r {A B} (P : A -> B -> Prop) (Q : B -> Prop) l k :
  (forall x y, P x y -> Q y) -> Forall2 P l k -> Forall Q k.
Proof. intros HPQ. induction 1; constructor; eauto. Qed.

(** C5. [SettleMarket] leaves no accepted wager behind and grades each exactly
    once: the returned wagers are the input wagers, every accepted one moved
    to the final state its selection's outcome dictates and every other one
    untouched; the settlements are one per accepted wager in ID order, each
    with a valid balanced transaction under its own settlement key; and the
    market is settled. *)
Theorem SettleMarket_grades_everything c r :
  Forall good_wager (SMC_Wagers c) ->
  SettleMarket c = Ok r ->
  Market_State (SMR_Market r) = MarketSettled
  /\ SMR_Wagers r ≡ₚ graded_wager (market_outcome (Outcome c)) <$> SMC_Wagers c
  /\ Forall (fun w => Wager_State w <> WagerAccepted) (SMR_Wagers r)
  /\ (WS_WagerID <$> SMR_Settlements r) ≡ₚ Wager_ID <$> List.filter is_accepted (SMC_Wagers c)
  /\ Sorted String.le (WS_WagerID <$> SMR_Settlements r)
  /\ Forall (fun ws => Transaction_Validate (WS_Transaction ws) = Ok ()
               /\ Tx_IdempotencyKey (WS_Transaction ws) = settlement_key (WS_WagerID ws) (SMC_Version c))
       (SMR_Settlements r).
Proof.
  intros Hgood H. apply SettleMarket_Ok in H as (d & rs & _ & Hrs & Hm & Hw & Hs & _).
  rewrite Hm, Hw, Hs. set (l := sort_by _ _) in Hrs.
  assert (Hrs' : Forall2 (fun w g =>
      set_Wager_State (final_state (market_outcome (Outcome c) w)) w = g.2.1.2
      /\ Wager_ID w = WS_WagerID g.2.1.1
      /\ Transaction_Validate (WS_Transaction g.2.1.1) = Ok ()
      /\ Tx_IdempotencyKey (WS_Transaction g.2.1.1) = settlement_key (WS_WagerID g.2.1.1) (SMC_Version c)) l rs).
  { eapply Forall2_good; [by apply sorted_accepted_good| |exact Hrs].
    intros w [outcome [[ws w'] ev]] Hg Hone. apply settle_one_Ok in Hone as (refs & sid & eid & Ho & Hse).
    cbn in *. apply settleWager_Ok in Hse; [|done]. destruct Hse as (_ & _ & -> & -> & Hv & _).
    unfold market_outcome. rewrite Ho. done. }
  assert (Hmap : (fun g : graded => g.2.1.2) <$> rs
                 = (fun w => set_Wager_State (final_state (market_outcome (Outcome c) w)) w) <$> l).
  { symmetry. apply Forall2_map_eq. eapply Forall2_impl; [exact Hrs'|naive_solver]. }
  assert (Hids : WS_WagerID <$> ((fun g : graded => g.2.1.1) <$> rs) = Wager_ID <$> l).
  { rewrite <- list_fmap_compose. symmetry. apply Forall2_map_eq.
    eapply Forall2_impl; [exact Hrs'|naive_solver]. }
  pose proof (graded_wagers_perm (market_outcome (Outcome c)) (SMC_Wagers c)) as Hperm. fold l in Hperm.
  rewrite Hmap, Hids. split_and!.
  - done.
  - exact Hperm.
  - apply Forall_forall. intros w Hin. rewrite Hperm in Hin.
    apply list_elem_of_fmap in Hin as (w0 & -> & _). apply graded_wager_not_accepted.
  - unfold l. by rewrite sort_by_perm.
  - apply Sorted_keys, sort_by_sorted.
  - apply Forall_fmap. eapply Forall2_Forall_r; [|exact Hrs']. intros w g (_ & _ & ? & ?). done.
Qed.

Definition ex_market (state : MarketState) : Market :=
  mkMarket (ex_uuid "9") MarketMatch "match-1" "Alice v Bob" state "CAD" zeroTime ex_time.
Definition ex_selection (id : string) : Selection :=
  mkSelection id (ex_uuid "9") "side-one" "Alice to win" 150 "" true.
Definition ex_bet (n : string) (selection : string) (state : WagerState) : Wager :=
  mkWager (ex_uuid n) "alice" (ex_uuid "9") selection FundingUserCash (mkMoney 2500 "CAD") 150
    "Alice to win" (mkMoney 3750 "CAD") state "key-1" "" ex_time.
Definition ex_command (wagers : list Wager) (state : MarketState) (regrade : bool) : SettleMarketCommand :=
  mkSettleMarketCommand (ex_market state) [ex_selection "s1"; ex_selection "s2"]
    {["s1" := ResultWin; "s2" := ResultLoss]} wagers
    {[ex_uuid "1" := ex_refs; ex_uuid "2" := ex_refs]}
    {[ex_uuid "1" := "ws-1"; ex_uuid "2" := "ws-2"]}
    {[ex_uuid "1" := ex_uuid "5"; ex_uuid "2" := ex_uuid "6"]}
    "settlement-1" 1 "admin" ex_time (ex_uuid "7") regrade false 0.
Definition ex_wagers : list Wager :=
  [ex_bet "2" "s2" WagerAccepted; ex_bet "1" "s1" WagerAccepted; ex_bet "3" "s1" WagerPending].

Lemma ex_wagers_good : Forall good_wager ex_wagers.
Proof.
  assert (H : forall n sel st, is_blank (ex_uuid n) = false -> is_blank sel = false ->
            WagerState_Validate st = Ok () -> good_wager (ex_bet n sel st)).
  { intros n sel st Hn Hsel Hst. split.
    - unfold wager_ints, int64, MinInt64, MaxInt64; cbn. lia.
    - unfold Wager_Validate, validID. cbn. rewrite Hn, Hsel, Hst. by vm_compute. }
  unfold ex_wagers. rewrite !Forall_cons, Forall_nil. split_and!; try done; apply H; by vm_compute.
Qed.

Lemma SettleMarket_grades_everything_witness :
  exists r, SettleMarket (ex_command ex_wagers MarketClosed false) = Ok r
    /\ Market_State (SMR_Market r) = MarketSettled
    /\ Forall (fun w => Wager_State w <> WagerAccepted) (SMR_Wagers r)
    /\ length (SMR_Settlements r) = 2%nat.
Proof.
  destruct (SettleMarket (ex_command ex_wagers MarketClosed false)) as [r|e] eqn:E;
    [|vm_compute in E; discriminate E].
  exists r. destruct (SettleMarket_grades_everything (ex_command ex_wagers MarketClosed false) r ex_wagers_good E) as (H1 & _ & H3 & H4 & _).
  apply Permutation_length in H4. rewrite !length_fmap in H4.
  split; [reflexivity|]. split; [exact H1|]. split; [exact H3|]. rewrite H4. reflexivity.
Defined.

Lemma sort_by_nil {A} (key : A -> string) : sort_by key [] = [].
Proof. done. Qed.

Lemma no_accepted_filter wagers :
  Forall (fun w => Wager_State w <> WagerAccepted) wagers ->
  List.filter is_accepted wagers = [] /\ List.filter (fun w => negb (is_accepted w)) wagers = wagers.
Proof.
  unfold is_accepted. induction 1 as [|w l Hw _ [IH1 IH2]]; [done|]. cbn.
  rewrite bool_decide_false by done. cbn. by rewrite IH1, IH2.
Qed.

(** A market cannot pay twice.  Re-running settlement over the wagers a
    settlement returned, as a regrade does, posts no transaction, emits no
    wager event and returns the wagers unchanged, whatever outcome, version,
    references and divisor the second run is given; and without the regrade
    flag a settled market is refused as an invalid transition. *)
Theorem settling_again_pays_nothing c r c' :
  Forall good_wager (SMC_Wagers c) ->
  SettleMarket c = Ok r ->
  SMC_Market c' = SMR_Market r -> SMC_Wagers c' = SMR_Wagers r ->
  match SettleMarket c' with
  | Ok r' => Regrade c' = true /\ SMR_Settlements r' = [] /\ SMR_WagerEvents r' = []
             /\ SMR_Wagers r' = SMR_Wagers r
  | Err e => Regrade c' = false -> Market_Validate (SMC_Market c) = Ok () ->
             e = transitionErr "settle market" "settled"
  end.
Proof.
  intros Hgood H Hm Hw. apply SettleMarket_Ok in H as (d & rs & _ & Hrs & Hmk & Hws & _ & _ & _ & _).
  assert (Hna : Forall (fun w => Wager_State w <> WagerAccepted) (SMR_Wagers r)).
  { rewrite Hws. apply Forall_app; split.
    - apply Forall_forall. intros w [_ Hf]%filter_bool_elem. unfold is_accepted in Hf. by bool_prop.
    - apply Forall_fmap. eapply Forall2_Forall_r; [|eapply Forall2_good;
        [by apply sorted_accepted_good| |exact Hrs]]; [intros w g Hg; exact Hg|].
      intros w [o [[ws w'] ev]] Hg Hone. apply settle_one_Ok in Hone as (refs & sid & eid & _ & Hse).
      cbn in *. apply settleWager_Ok in Hse; [|done]. destruct Hse as (_ & _ & -> & _).
      cbn. unfold final_state. by case_bool_decide. }
  destruct (no_accepted_filter _ Hna) as [Hf1 Hf2].
  assert (Hset : Market_State (SMC_Market c') = MarketSettled) by by rewrite Hm, Hmk.
  destruct (SettleMarket c') as [r'|e] eqn:E.
  - apply SettleMarket_Ok in E as (d' & rs' & _ & Hrs' & _ & Hw' & Hs' & He' & Hreg & _).
    cbv zeta in Hrs'. rewrite Hw, Hf1, sort_by_nil in Hrs'. inversion Hrs'; subst rs'.
    rewrite Hset in Hreg. split_and!; try done. rewrite Hw', Hw, Hf2. by rewrite app_nil_r.
  - intros Hreg Hval. unfold SettleMarket in E.
    assert (Hv : Market_Validate (SMC_Market c') = Ok ()).
    { rewrite Hm, Hmk. revert Hval. unfold Market_Validate. destruct (SMC_Market c); cbn. intros Hval.
      go_inv. repeat match goal with F : ?x = Ok ?v |- context [?x] => rewrite F end.
      repeat match goal with F : ?x = false |- context [?x] => rewrite F end. done. }
    rewrite Hv, Hset, Hreg in E. cbn in E. congruence.
Qed.

Lemma settling_again_pays_nothing_witness :
  exists r, SettleMarket (ex_command ex_wagers MarketClosed false) = Ok r
    /\ match SettleMarket (ex_command (SMR_Wagers r) MarketSettled true) with
       | Ok r' => true = true /\ SMR_Settlements r' = [] /\ SMR_WagerEvents r' = []
                  /\ SMR_Wagers r' = SMR_Wagers r
       | Err e => true = false -> Market_Validate (ex_market MarketClosed) = Ok () ->
                  e = transitionErr "settle market" "settled"
       end.
Proof.
  destruct (SettleMarket (ex_command ex_wagers MarketClosed false)) as [r|e] eqn:E;
    [|vm_compute in E; discriminate E].
  exists r. split; [done|].
  apply (settling_again_pays_nothing (ex_command ex_wagers MarketClosed false) r
    (ex_command (SMR_Wagers r) MarketSettled true) ex_wagers_good E);
    [|done].
  vm_compute in E. injection E as <-. reflexivity.
Defined.

Definition with_wagers (wagers : list Wager) (c : SettleMarketCommand) : SettleMarketCommand :=
  mkSettleMarketCommand (SMC_Market c) (Selections c) (Outcome c) wagers (SMC_Refs c)
    (SMC_WagerSettlementIDs c) (SMC_WagerEventIDs c) (SMC_SettlementID c) (SMC_Version c)
    (SMC_Actor c) (SMC_OccurredAt c) (SMC_MarketEventID c) (Regrade c) (DeadHeat c)
    (SMC_DeadHeatDivisor c).

Lemma existsb_perm {A} (p : A -> bool) l l' : l ≡ₚ l' -> existsb p l = existsb p l'.
Proof.
  induction 1 as [|x l l' _ IH|x y l|l l' l'' _ IH1 _ IH2]; cbn; [done|by rewrite IH| |congruence].
  by destruct (p x), (p y).
Qed.

Lemma split_perm marketID l l' :
  l ≡ₚ l' -> NoDup (Wager_ID <$> l) ->
  same_result (fun p p' => p.1 ≡ₚ p'.1 /\ p.2 = p'.2)
    (splitAcceptedWagers marketID l) (splitAcceptedWagers marketID l').
Proof.
  intros Hp Hnd. unfold splitAcceptedWagers. rewrite (existsb_perm _ l l' Hp).
  destruct (existsb _ l'); cbn; [done|]. split; [by apply filter_bool_perm|].
  apply sort_by_perm_eq; [|by apply filter_bool_perm].
  by apply NoDup_fmap_filter.
Qed.

Lemma grade_loop_unchanged grade a u :
  grade_loop grade a (acc_init u)
  = (fun r => mkSettleAcc (acc_settlements r) (u ++ acc_wagers r) (acc_events r)
                (acc_counts r) (acc_stake r) (acc_profit r) (acc_returned r))
    <$> grade_loop grade a (acc_init []).
Proof.
  rewrite !grade_loop_eq. destruct (mapM grade a) as [rs|]; [|done]. cbn. f_equal.
  pose proof (acc_all_unchanged u (acc_init []) rs) as H. cbn zeta in H. rewrite <- H.
  by rewrite app_nil_r.
Qed.

(** The order in which storage returns a market's wagers does not matter.
    With distinct wager IDs, settling a permutation of the wagers fails with
    the same error or produces the same market, the same settlements and the
    same events in the same order, and a permutation of the same wagers. *)
Theorem settlement_order_independent c wagers' :
  SMC_Wagers c ≡ₚ wagers' -> NoDup (Wager_ID <$> SMC_Wagers c) ->
  same_result (fun r r' =>
      SMR_Market r' = SMR_Market r /\ SMR_Settlements r' = SMR_Settlements r
      /\ SMR_WagerEvents r' = SMR_WagerEvents r /\ SMR_MarketEvent r' = SMR_MarketEvent r
      /\ SMR_DeadHeatDivisor r' = SMR_DeadHeatDivisor r /\ SMR_Wagers r' ≡ₚ SMR_Wagers r)
    (SettleMarket c) (SettleMarket (with_wagers wagers' c)).
Proof.
  intros Hp Hnd. unfold SettleMarket. cbv zeta.
  do 7 (apply same_result_bind; intros _).
  apply same_result_bind. intros divisor.
  pose proof (split_perm (Market_ID (SMC_Market c)) _ _ Hp Hnd) as Hs.
  eapply same_result_bind2; [exact Hs|]. intros [u a] [u' a'] [Hu Ha]. cbn in Hu, Ha. subst a'.
  change (SMC_Market (with_wagers wagers' c)) with (SMC_Market c).
  change (settle_one (with_wagers wagers' c)) with (settle_one c).
  rewrite (grade_loop_unchanged _ _ u), (grade_loop_unchanged _ _ u').
  change (SMC_OccurredAt (with_wagers wagers' c)) with (SMC_OccurredAt c).
  destruct (grade_loop _ a (acc_init [])) as [r|]; [|done]. cbn [fmap result_map mbind result_bind].
  apply same_result_bind. intros env. cbn. by rewrite Hu.
Qed.

Lemma settlement_order_independent_witness :
  exists r r', SettleMarket (ex_command ex_wagers MarketClosed false) = Ok r
    /\ SettleMarket (ex_command (rev ex_wagers) MarketClosed false) = Ok r'
    /\ SMR_Settlements r' = SMR_Settlements r /\ length (SMR_Settlements r) = 2%nat.
Proof.
  pose proof (settlement_order_independent (ex_command ex_wagers MarketClosed false) (rev ex_wagers)
    (Permutation_rev ex_wagers)) as H.
  assert (Hnd : NoDup (Wager_ID <$> ex_wagers)) by (apply (bool_decide_unpack _); by vm_compute).
  specialize (H Hnd). change (with_wagers _ _) with (ex_command (rev ex_wagers) MarketClosed false) in H.
  destruct (SettleMarket (ex_command ex_wagers MarketClosed false)) as [r|e] eqn:E;
    [|vm_compute in E; discriminate E].
  destruct (SettleMarket (ex_command (rev ex_wagers) MarketClosed false)) as [r'|e'];
    [|destruct H].
  destruct H as (_ & Hs & _). exists r, r'.
  split; [reflexivity|]. split; [reflexivity|]. split; [exact Hs|].
  vm_compute in E. injection E as <-. reflexivity.
Defined.

(** ** Voiding a market *)
Lemma VoidMarket_Ok c r :
  VoidMarket c = Ok r ->
  exists rs,
    Forall2 (fun w g => void_one c (UTC (VMC_OccurredAt c)) w = Ok g)
      (sort_by Wager_ID (List.filter is_accepted (VMC_Wagers c))) rs
    /\ SMR_Market r = set_Market_State MarketVoided (VMC_Market c)
    /\ SMR_Wagers r = List.filter (fun w => negb (is_accepted w)) (VMC_Wagers c)
                      ++ ((fun g => g.2.1.2) <$> rs)
    /\ SMR_Settlements r = (fun g => g.2.1.1) <$> rs
    /\ is_blank (VMC_Reason c) = false
    /\ voidable (Market_State (VMC_Market c)) = true
    /\ Payload (SMR_MarketEvent r)
       = marshal_marketSettled (mkMarketSettledPayload (Market_ID (VMC_Market c)) (VMC_Version c)
           0 0 0 (Z.of_nat (length rs))
           (wrap64 (sumZ (fun g : graded => Cents (WS_Stake g.2.1.1)) rs)) 0
           (wrap64 (sumZ (fun g : graded => Cents (WS_Stake g.2.1.1)) rs))
           (Market_Currency (VMC_Market c))).
Proof.
  unfold VoidMarket. intros H. go_inv.
  match goal with v : (list Wager * list Wager)%type |- _ => destruct v as [u a] end. go_inv.
  match goal with E : splitAcceptedWagers _ _ = _ |- _ =>
    apply splitAcceptedWagers_Ok in E as (-> & -> & _) end.
  match goal with E : grade_loop _ _ _ = _ |- _ => rewrite grade_loop_eq in E; rename E into Hloop end.
  destruct (mapM _ _) as [rs|] eqn:Em; [|done]. cbn in Hloop. injection Hloop as <-.
  apply mapM_Ok in Em. bool_prop. exists rs.
  set (u := List.filter (fun w => negb (is_accepted w)) (VMC_Wagers c)) in *.
  destruct (acc_all_fields (acc_init u) rs) as (E1 & E2 & E3).
  destruct (acc_all_totals (acc_init u) rs) as (T1 & _ & _); [done..|].
  match goal with E : buildEnvelope _ _ _ _ _ _ _ = Ok _ |- _ => rename E into Henv end.
  apply buildEnvelope_Ok in Henv as (-> & _). pose proof (Forall2_length _ _ _ Em) as Hlen.
  split_and!; try done. cbn [SMR_MarketEvent Payload]. by rewrite T1, Hlen.
Qed.

(** Voiding a market refunds everybody in full.  The market ends voided;
    the returned wagers are the input wagers with every accepted one voided;
    there is exactly one settlement per accepted wager, in ID order, whose
    transaction is valid and moves the whole stake, and nothing else, from
    escrow back to the member's funding account; the reason is mandatory; and
    the market event reports the stake total as the returned total. *)
Theorem VoidMarket_refunds_everyone c r :
  Forall good_wager (VMC_Wagers c) ->
  VoidMarket c = Ok r ->
  Market_State (SMR_Market r) = MarketVoided
  /\ is_blank (VMC_Reason c) = false
  /\ SMR_Wagers r ≡ₚ graded_wager (fun _ => ResultVoid) <$> VMC_Wagers c
  /\ Forall2 (fun w ws =>
       WS_WagerID ws = Wager_ID w /\ WS_Returned ws = mkMoney (Cents (Stake w)) (Money_Currency (Stake w))
       /\ Cents (WS_Profit ws) = 0
       /\ Transaction_Validate (WS_Transaction ws) = Ok ()
       /\ exists escrow member, Tx_Postings (WS_Transaction ws)
            = [mkPosting escrow (mkMoney (- Cents (Stake w)) (Money_Currency (Stake w)));
               mkPosting member (mkMoney (Cents (Stake w)) (Money_Currency (Stake w)))])
       (sort_by Wager_ID (List.filter is_accepted (VMC_Wagers c))) (SMR_Settlements r)
  /\ exists p, Payload (SMR_MarketEvent r) = marshal_marketSettled p
       /\ MSP_TotalReturnedCents p = MSP_TotalStakeCents p
       /\ MSP_TotalStakeCents p
          = wrap64 (sumZ (fun w => Cents (Stake w)) (List.filter is_accepted (VMC_Wagers c))).
Proof.
  intros Hgood H. apply VoidMarket_Ok in H as (rs & Hrs & Hm & Hw & Hs & Hb & _ & Hp).
  rewrite Hm, Hw, Hs, Hp. set (l := sort_by _ _) in *.
  assert (Hl : Forall good_wager l) by by apply sorted_accepted_good.
  assert (Hrs' : Forall2 (fun w g =>
      set_Wager_State (final_state ResultVoid) w = g.2.1.2
      /\ exists refs sid,
        g.2.1.1 = settlement_record w ResultVoid refs (VMC_SettlementID c) sid (VMC_Version c) (VMC_Actor c) 1
        /\ 0 < Cents (Stake w)
        /\ Transaction_Validate (WS_Transaction g.2.1.1) = Ok ()) l rs).
  { eapply Forall2_good; [exact Hl| |exact Hrs].
    intros w [outcome [[ws w'] ev]] Hg Hone. apply void_one_Ok in Hone as (_ & refs & sid & eid & Hse).
    pose proof (good_wager_facts w Hg) as (_ & Hst & _).
    cbn in *. apply settleWager_Ok in Hse; [|done]. destruct Hse as (_ & _ & -> & Hws & Hv & _).
    split; [done|]. exists refs, sid. split_and!; [exact Hws|lia|exact Hv]. }
  assert (Hmap : (fun g : graded => g.2.1.2) <$> rs
                 = (fun w => set_Wager_State (final_state ResultVoid) w) <$> l).
  { symmetry. apply Forall2_map_eq. eapply Forall2_impl; [exact Hrs'|naive_solver]. }
  assert (Hsum : sumZ (fun g : graded => Cents (WS_Stake g.2.1.1)) rs
                 = sumZ (fun w => Cents (Stake w)) (List.filter is_accepted (VMC_Wagers c))).
  { rewrite <- (sumZ_perm _ _ _ (sort_by_perm Wager_ID _)). fold l. clear -Hrs'.
    induction Hrs' as [|w g l rs (_ & refs & sid & Heq & _) _ IH]; [reflexivity|].
    rewrite !sumZ_cons, IH, Heq. reflexivity. }
  rewrite Hmap. split; [reflexivity|]. split; [exact Hb|].
  split; [apply (graded_wagers_perm (fun _ => ResultVoid))|]. split.
  - apply Forall2_fmap_r. eapply Forall2_impl; [exact Hrs'|].
    intros w g (_ & refs & sid & Heq & Hst & Hv). unfold compose. cbv beta. rewrite Heq in Hv |- *.
    split; [reflexivity|]. split; [reflexivity|]. split; [reflexivity|]. split; [exact Hv|].
    exists (SAR_EscrowAccountID refs), (SAR_UserFundingAccountID refs).
    cbn [settlement_record WS_Transaction Tx_Postings]. unfold settlement_postings, nonzero_posting.
    cbn [returned_cents]. rewrite Z.sub_diag. cbn.
    destruct (Z.eqb_spec (Cents (Stake w)) 0); [lia|done].
  - eexists. split; [reflexivity|]. cbn. by rewrite Hsum.
Qed.

Definition ex_void : VoidMarketCommand :=
  mkVoidMarketCommand (ex_market MarketOpen) ex_wagers
    {[ex_uuid "1" := ex_refs; ex_uuid "2" := ex_refs]}
    {[ex_uuid "1" := "ws-1"; ex_uuid "2" := "ws-2"]}
    {[ex_uuid "1" := ex_uuid "5"; ex_uuid "2" := ex_uuid "6"]}
    "settlement-1" 1 "admin" "rain" ex_time (ex_uuid "7").

Lemma VoidMarket_refunds_everyone_witness :
  exists r, VoidMarket ex_void = Ok r
    /\ Market_State (SMR_Market r) = MarketVoided
    /\ SMR_Wagers r ≡ₚ graded_wager (fun _ => ResultVoid) <$> ex_wagers.
Proof.
  destruct (VoidMarket ex_void) as [r|e] eqn:E; [|vm_compute in E; discriminate E].
  exists r. split; [reflexivity|].
  destruct (VoidMarket_refunds_everyone ex_void r ex_wagers_good E) as (H1 & _ & H2 & _).
  split; [exact H1|exact H2].
Defined.
