(* ===== verification/Corrections.v ===== *)
(** * internal/betting: adjust.go, reducewager.go and voidwager.go

    Corrections outside the normal flow of a wager: recording a settle-up and
    reversing it, cutting an accepted stake, voiding a single wager. *)
From S2P Require Import Prelude GoStrings GoTime Ledger Events Betting Placement Settlement.

(** ** adjust.go *)
Inductive AdjustmentDirection :=
  | AdjustmentPaymentReceived | AdjustmentPayoutSent | AdjustmentOther (text : string).
#[export] Instance AdjustmentDirection_eq_dec : EqDecision AdjustmentDirection.
Proof. solve_decision. Defined.

Definition AdjustmentDirection_Validate (d : AdjustmentDirection) : result unit :=
  match d with
  | AdjustmentOther _ => Err (invalidf "settlement direction %q is not supported")
  | _ => Ok ()
  end.

Record AdjustmentAccountRefs := mkAdjustmentAccountRefs {
  ADR_UserFundingAccountID : string;
  ADR_HouseClearingAccountID : string
}.

Definition AdjustmentAccountRefs_validate (r : AdjustmentAccountRefs) : result unit :=
  fail_if (is_blank (ADR_UserFundingAccountID r) || is_blank (ADR_HouseClearingAccountID r))
    (invalidf "a settlement needs both the member and house clearing accounts");;
  fail_if (bool_decide (ADR_UserFundingAccountID r = ADR_HouseClearingAccountID r))
    (invalidf "a settlement cannot post a member account against itself").

Record AdjustmentCommand := mkAdjustmentCommand {
  AC_AdjustmentID : string;
  AC_UserID : ID;
  Direction : AdjustmentDirection;
  AC_Amount : Money;
  AC_Reason : string;
  AC_Actor : ID;
  AC_Refs : AdjustmentAccountRefs;
  AC_OccurredAt : Time
}.

Definition AdjustmentSourceType : string := "settlement".
Definition AdjustmentIdempotencyKey (adjustmentID : string) : string :=
  ("settlement:" ++ adjustmentID)%string.
Definition ReversalIdempotencyKey (adjustmentID : string) : string :=
  ("settlement:" ++ adjustmentID ++ ":reversal")%string.

Definition RecordAdjustment (command : AdjustmentCommand) : result Transaction :=
  fail_if (negb (validID (AC_AdjustmentID command))) (invalidf "a settlement requires an adjustment ID");;
  fail_if (negb (validID (AC_UserID command))) (invalidf "a settlement requires the member it belongs to");;
  fail_if (negb (validID (AC_Actor command))) ErrUnauthorized;;
  AdjustmentDirection_Validate (Direction command);;
  Money_Validate (AC_Amount command);;
  fail_if (Cents (AC_Amount command) <=? 0) (invalidf "a settlement amount must be greater than zero");;
  let reason := TrimSpace (AC_Reason command) in
  fail_if (bool_decide (reason = ""%string)) ErrReasonRequired;;
  AdjustmentAccountRefs_validate (AC_Refs command);;
  fail_if (IsZero (AC_OccurredAt command)) (invalidf "a settlement requires an occurrence time");;
  memberAmount ← (if bool_decide (Direction command = AdjustmentPayoutSent)
                  then Negate (AC_Amount command) else Ok (AC_Amount command));
  houseAmount ← Negate memberAmount;
  let transaction := mkTransaction TransactionAdminAdjustment (Money_Currency (AC_Amount command))
      (AdjustmentIdempotencyKey (AC_AdjustmentID command)) (AC_Actor command)
      AdjustmentSourceType (AC_AdjustmentID command) reason ""
      [mkPosting (ADR_UserFundingAccountID (AC_Refs command)) memberAmount;
       mkPosting (ADR_HouseClearingAccountID (AC_Refs command)) houseAmount] in
  Transaction_Validate transaction;;
  Ok transaction.

(** [for _, posting := range original.Postings { ... }] *)
Fixpoint negate_postings (postings : list Posting) : result (list Posting) :=
  match postings with
  | [] => Ok []
  | posting :: rest =>
      negated ← Negate (Amount posting);
      tail ← negate_postings rest;
      Ok (mkPosting (AccountID posting) negated :: tail)
  end.

Definition ReverseAdjustment (original : Transaction) (originalTransactionID : string)
    (actor : ID) (reason : string) : result Transaction :=
  fail_if (negb (bool_decide (Tx_Type original = TransactionAdminAdjustment)))
    (invalidf "only a recorded settlement can be reversed here");;
  fail_if (negb (validID originalTransactionID)) (invalidf "a reversal requires the original transaction");;
  fail_if (negb (validID actor)) ErrUnauthorized;;
  let reason := TrimSpace reason in
  fail_if (bool_decide (reason = ""%string)) ErrReasonRequired;;
  postings ← negate_postings (Tx_Postings original);
  let reversal := mkTransaction TransactionReversal (Tx_Currency original)
      (ReversalIdempotencyKey (Tx_SourceID original)) actor AdjustmentSourceType
      (Tx_SourceID original) reason originalTransactionID postings in
  Transaction_Validate reversal;;
  Ok reversal.

(** ** voidwager.go *)
Record VoidWagerAccountRefs := mkVoidWagerAccountRefs {
  VWR_UserFundingAccountID : string;
  VWR_EscrowAccountID : string
}.

Definition VoidWagerAccountRefs_validate (r : VoidWagerAccountRefs) : result unit :=
  fail_if (is_blank (VWR_UserFundingAccountID r) || is_blank (VWR_EscrowAccountID r))
    (invalidf "voiding a wager needs the member's funding and escrow accounts");;
  fail_if (bool_decide (VWR_UserFundingAccountID r = VWR_EscrowAccountID r))
    (invalidf "funding and escrow accounts must be distinct").

Definition VoidIdempotencyKey (wagerID : ID) : string := ("wager:" ++ wagerID ++ ":void")%string.

Definition VoidWager (wager : Wager) (actor : ID) (reason : string) (refs : VoidWagerAccountRefs)
    (occurredAt : Time) : result (Wager * Transaction) :=
  Wager_Validate wager;;
  fail_if (negb (WagerState_CanTransitionTo (Wager_State wager) WagerVoided))
    (transitionErr "void wager" (WagerState_text (Wager_State wager)));;
  fail_if (negb (validID actor)) ErrUnauthorized;;
  let reason := TrimSpace reason in
  fail_if (bool_decide (reason = ""%string)) ErrReasonRequired;;
  VoidWagerAccountRefs_validate refs;;
  fail_if (IsZero occurredAt) (invalidf "voiding a wager requires an occurrence time");;
  negatedStake ← Negate (Stake wager);
  let transaction := mkTransaction TransactionWagerRefund (Money_Currency (Stake wager))
      (VoidIdempotencyKey (Wager_ID wager)) actor "wager" (Wager_ID wager) reason ""
      [mkPosting (VWR_EscrowAccountID refs) negatedStake;
       mkPosting (VWR_UserFundingAccountID refs) (Stake wager)] in
  wrap_err "build wager void transaction: %w" (Transaction_Validate transaction);;
  Ok (set_Wager_State WagerVoided wager, transaction).

(** ** reducewager.go *)
Definition ReduceIdempotencyKey (wagerID : ID) (newStakeCents : Z) : string :=
  ("wager:" ++ wagerID ++ ":reduce:" ++ sprint_d newStakeCents)%string.

(** [fmt.Sprintf("%02d", n)] for a single argument. *)
Definition sprint_02d (n : Z) : string :=
  if (0 <=? n) && (n <? 10) then ("0" ++ sprint_d n)%string else sprint_d n.

Definition stakeText (amount : Money) : string :=
  let symbol := if bool_decide (Money_Currency amount = CAD) then "CA$"%string
                else (Money_Currency amount ++ " ")%string in
  (symbol ++ sprint_d (quot64 (Cents amount) 100) ++ "." ++ sprint_02d (rem64 (Cents amount) 100))%string.

(** [wager.Stake = newStake; wager.PotentialProfit = profit] *)
Definition set_Stake (newStake profit : Money) (w : Wager) : Wager :=
  mkWager (Wager_ID w) (Wager_UserID w) (Wager_MarketID w) (Wager_SelectionID w) (Wager_Funding w)
    newStake (AcceptedOdds w) (AcceptedTerms w) profit (Wager_State w) (IdempotencyKey w)
    (PlacedBy w) (PlacedAt w).

Definition ReduceWager (wager : Wager) (newStake : Money) (actor : ID) (reason : string)
    (refs : VoidWagerAccountRefs) (occurredAt : Time) : result (Wager * Money * Transaction) :=
  Wager_Validate wager;;
  fail_if (negb (bool_decide (Wager_State wager = WagerAccepted)))
    (transitionErr "reduce wager" (WagerState_text (Wager_State wager)));;
  fail_if (negb (validID actor)) ErrUnauthorized;;
  let reason := TrimSpace reason in
  fail_if (bool_decide (reason = ""%string)) ErrReasonRequired;;
  VoidWagerAccountRefs_validate refs;;
  fail_if (IsZero occurredAt) (invalidf "reducing a wager requires an occurrence time");;
  Money_Validate newStake;;
  fail_if (negb (bool_decide (Money_Currency newStake = Money_Currency (Stake wager))))
    (invalidf "a reduced stake must stay in %s");;
  fail_if (Cents newStake <=? 0)
    (invalidf "a reduced stake must be greater than zero; void the wager to remove it entirely");;
  fail_if (Cents (Stake wager) <=? Cents newStake)
    (invalidf "a wager can only be reduced: %s is not less than the current stake %s");;
  refund ← NewMoney (wrap64 (Cents (Stake wager) - Cents newStake)) (Money_Currency (Stake wager));
  negatedRefund ← Negate refund;
  profit ← Profit (AcceptedOdds wager) newStake;
  let transaction := mkTransaction TransactionWagerRefund (Money_Currency (Stake wager))
      (ReduceIdempotencyKey (Wager_ID wager) (Cents newStake)) actor "wager" (Wager_ID wager)
      ("Stake reduced from " ++ stakeText (Stake wager) ++ " to " ++ stakeText newStake
       ++ " — " ++ reason)%string ""
      [mkPosting (VWR_EscrowAccountID refs) negatedRefund;
       mkPosting (VWR_UserFundingAccountID refs) refund] in
  wrap_err "build wager reduction transaction: %w" (Transaction_Validate transaction);;
  Ok (set_Stake newStake profit wager, refund, transaction).


(** ** Refunds out of escrow *)

(** What both refunding operations need beside the wager. *)
Record refund_inputs (actor : ID) (reason : string) (refs : VoidWagerAccountRefs) (at_ : Time) : Prop := {
  ri_actor : validID actor = true;
  ri_reason : is_blank reason = false;
  ri_accounts : is_blank (VWR_UserFundingAccountID refs) = false
                /\ is_blank (VWR_EscrowAccountID refs) = false
                /\ TrimSpace (VWR_EscrowAccountID refs) <> TrimSpace (VWR_UserFundingAccountID refs);
  ri_time : IsZero at_ = false
}.

Definition refund_postings (refs : VoidWagerAccountRefs) (cents : Z) (c : Currency) : list Posting :=
  [mkPosting (VWR_EscrowAccountID refs) (mkMoney (- cents) c);
   mkPosting (VWR_UserFundingAccountID refs) (mkMoney cents c)].

Lemma refund_postings_net refs cents c a :
  net a (refund_postings refs cents c)
  = (if bool_decide (VWR_EscrowAccountID refs = a) then - cents else 0)
    + (if bool_decide (VWR_UserFundingAccountID refs = a) then cents else 0).
Proof. unfold refund_postings. rewrite !net_cons, net_nil. cbn. lia. Qed.

Lemma refund_postings_Ok refs cents c u :
  0 < cents <= MaxInt64 -> ValidatePostings c (refund_postings refs cents c) = Ok u ->
  is_blank (VWR_UserFundingAccountID refs) = false
  /\ is_blank (VWR_EscrowAccountID refs) = false
  /\ TrimSpace (VWR_EscrowAccountID refs) <> TrimSpace (VWR_UserFundingAccountID refs).
Proof.
  intros Hc H. unfold refund_postings in H. apply ValidatePostings_Ok in H as (_ & _ & Hf & Hnd & _).
  - rewrite !Forall_cons in Hf. destruct Hf as ((Hb1 & _) & (Hb2 & _) & _).
    rewrite !fmap_cons, !NoDup_cons in Hnd. cbn in *. split_and!; [done..|]. set_solver.
  - rewrite !Forall_cons, Forall_nil. unfold int64, MinInt64, MaxInt64, posting_cents in *; cbn. lia.
Qed.

Lemma Transaction_Validate_postings t u :
  Transaction_Validate t = Ok u -> ValidatePostings (Tx_Currency t) (Tx_Postings t) = Ok ().
Proof.
  unfold Transaction_Validate. intros H. go_inv. by destruct u.
Qed.

(** A refund transaction built from usable inputs is valid. *)
Lemma refund_transaction_ok key actor sourceID reason text refs at_ cents c :
  refund_inputs actor reason refs at_ -> is_blank key = false -> is_blank sourceID = false ->
  valid_currency c = true -> 0 < cents <= MaxInt64 ->
  Transaction_Validate (mkTransaction TransactionWagerRefund c key actor "wager" sourceID text ""
    (refund_postings refs cents c)) = Ok ().
Proof.
  intros [Ha _ (Hb1 & Hb2 & Hne) _] Hk Hs Hc Hcents.
  apply Transaction_Validate_intro; try done; [by apply validID_alt|].
  exact (proj1 (ValidatePostings_transfer c _ _ cents Hc Hb2 Hb1 Hne Hcents)).
Qed.

Lemma VoidWagerAccountRefs_validate_ok actor reason refs at_ :
  refund_inputs actor reason refs at_ -> VoidWagerAccountRefs_validate refs = Ok ().
Proof.
  intros [_ _ (Hb1 & Hb2 & Hne) _]. unfold VoidWagerAccountRefs_validate. rewrite Hb1, Hb2. cbn.
  rewrite bool_decide_false by congruence. done.
Qed.

Lemma accepted_to_voided s : WagerState_CanTransitionTo s WagerVoided = true <-> s = WagerAccepted.
Proof. by destruct s. Qed.

Lemma wager_key_not_blank rest : is_blank ("wager:" ++ rest)%string = false.
Proof. by apply not_blank_plain. Qed.
#[export] Hint Resolve wager_key_not_blank : cabot.

Lemma VoidWager_spec w actor reason refs at_ w' t :
  good_wager w ->
  VoidWager w actor reason refs at_ = Ok (w', t) <->
    Wager_State w = WagerAccepted /\ refund_inputs actor reason refs at_
    /\ w' = set_Wager_State WagerVoided w
    /\ t = mkTransaction TransactionWagerRefund (Money_Currency (Stake w))
             (VoidIdempotencyKey (Wager_ID w)) actor "wager" (Wager_ID w) (TrimSpace reason) ""
             (refund_postings refs (Cents (Stake w)) (Money_Currency (Stake w))).
Proof.
  intros Hg. pose proof (good_wager_facts w Hg) as (Hc & Hst & _ & _ & Hid).
  pose proof (Negate_pos (Stake w) ltac:(lia) Hc) as Hneg.
  assert (Hpost : [mkPosting (VWR_EscrowAccountID refs) (mkMoney (- Cents (Stake w)) (Money_Currency (Stake w)));
                   mkPosting (VWR_UserFundingAccountID refs) (Stake w)]
                  = refund_postings refs (Cents (Stake w)) (Money_Currency (Stake w))).
  { unfold refund_postings. by destruct (Stake w). }
  split.
  - unfold VoidWager. cbv zeta. intros H. go_inv. rewrite Hneg in *.
    match goal with E : Ok _ = Ok ?v |- _ => injection E as <- end.
    match goal with E : Transaction_Validate _ = Ok _ |- _ => apply Transaction_Validate_postings in E;
      cbn [Tx_Currency Tx_Postings] in E; rename E into Hp end.
    bool_prop. rewrite Hpost in *. apply refund_postings_Ok in Hp; [|done].
    match goal with E : WagerState_CanTransitionTo _ _ = true |- _ => apply accepted_to_voided in E end.
    split; [done|]. split; [|done].
    split; try done. apply bool_decide_eq_false. done.
  - intros (Hs & Hin & -> & ->). pose proof Hin as [Ha Hr _ Ht]. unfold VoidWager. cbv zeta.
    go_step; [apply Hg|]. go_step; [by rewrite Hs|]. go_step; [by rewrite Ha|].
    go_step; [exact Hr|]. go_step; [by apply (VoidWagerAccountRefs_validate_ok actor reason refs at_)|].
    go_step; [done|]. go_step; [exact Hneg|].
    rewrite Hpost. go_step; [|reflexivity].
    apply wrap_err_Ok, (refund_transaction_ok _ _ _ reason _ _ at_);
      [done|apply wager_key_not_blank|done..].
Qed.

(** [VoidWager] succeeds if and only if the wager is accepted, the actor
    and a reason are given, the two accounts are usable and different and the
    time is set; it then voids the wager and posts one valid transaction that
    returns the whole stake from escrow to the member and touches no other
    account.  A voided wager cannot be voided again. *)
Theorem VoidWager_refunds_the_stake w actor reason refs at_ w' t :
  good_wager w ->
  (VoidWager w actor reason refs at_ = Ok (w', t) <->
    Wager_State w = WagerAccepted /\ refund_inputs actor reason refs at_
    /\ w' = set_Wager_State WagerVoided w
    /\ t = mkTransaction TransactionWagerRefund (Money_Currency (Stake w))
             (VoidIdempotencyKey (Wager_ID w)) actor "wager" (Wager_ID w) (TrimSpace reason) ""
             (refund_postings refs (Cents (Stake w)) (Money_Currency (Stake w))))
  /\ (VoidWager w actor reason refs at_ = Ok (w', t) ->
      Transaction_Validate t = Ok ()
      /\ net (VWR_EscrowAccountID refs) (Tx_Postings t) = - Cents (Stake w)
      /\ net (VWR_UserFundingAccountID refs) (Tx_Postings t) = Cents (Stake w)
      /\ (forall a, a <> VWR_EscrowAccountID refs -> a <> VWR_UserFundingAccountID refs ->
            net a (Tx_Postings t) = 0)
      /\ forall actor2 reason2 refs2 at2,
           VoidWager w' actor2 reason2 refs2 at2 = Err (transitionErr "void wager" "voided")).
Proof.
  intros Hg. pose proof (good_wager_facts w Hg) as (Hc & Hst & _ & _ & Hid).
  split; [by apply VoidWager_spec|]. intros H. apply VoidWager_spec in H as (Hs & Hin & -> & ->); [|done].
  pose proof Hin as [_ _ (_ & _ & Hne) _].
  assert (VWR_EscrowAccountID refs <> VWR_UserFundingAccountID refs) by congruence.
  cbn [Tx_Postings]. setoid_rewrite refund_postings_net.
  split; [apply (refund_transaction_ok _ _ _ reason _ _ at_);
           [done|apply wager_key_not_blank|done..]|].
  split_and!; intros; repeat case_bool_decide; try (congruence || lia).
  unfold VoidWager. rewrite (proj2 (good_wager_set_State WagerVoided w eq_refl Hg)). done.
Qed.

Definition ex_uuid (last : string) : string := ("00000000-0000-4000-8000-00000000000" ++ last)%string.
Definition ex_at : Time := mkTime 63900000000000000000 true.
(** $3,000 at -180, the wager of the comment on [ReduceWager]. *)
Definition ex_bet : Wager :=
  mkWager (ex_uuid "1") "alice" "m1" "s1" FundingUserCash (mkMoney 300000 "CAD") (-180) "Alice to win"
    (mkMoney 166667 "CAD") WagerAccepted "key-1" "" ex_at.
Definition ex_void_refs : VoidWagerAccountRefs := mkVoidWagerAccountRefs "cash:alice" "escrow".

Lemma ex_bet_good : good_wager ex_bet.
Proof. split; [|by vm_compute]. vm_compute. repeat split; intros H; discriminate H. Qed.

Lemma VoidWager_refunds_the_stake_witness :
  exists w' t, VoidWager ex_bet "admin" "taken in error" ex_void_refs ex_at = Ok (w', t)
    /\ net "cash:alice" (Tx_Postings t) = 300000.
Proof.
  destruct (VoidWager ex_bet "admin" "taken in error" ex_void_refs ex_at) as [[w' t]|e] eqn:E;
    [|vm_compute in E; discriminate E].
  exists w', t. split; [reflexivity|].
  destruct (proj2 (VoidWager_refunds_the_stake ex_bet "admin" "taken in error" ex_void_refs ex_at w' t ex_bet_good) E)
    as (_ & _ & Hn & _). exact Hn.
Defined.

Lemma good_wager_set_Stake cents profit w :
  good_wager w -> 0 < cents <= MaxInt64 -> 0 <= profit <= MaxInt64 ->
  good_wager (set_Stake (mkMoney cents (Money_Currency (Stake w)))
                (mkMoney profit (Money_Currency (Stake w))) w).
Proof.
  intros Hg Hc Hp. pose proof (good_wager_facts w Hg) as (Hcur & _). destruct Hg as [(_ & _ & Ho) Hv]. split.
  - unfold wager_ints, int64, MinInt64. cbn. lia.
  - revert Hv. unfold Wager_Validate, Money_Validate. destruct w; cbn -[TrimSpace]. intros Hv. cbn in Hcur.
    go_inv. rewrite valid_currency_Ok by done.
    repeat match goal with E : ?x = Ok ?v |- context [?x] => rewrite E end.
    repeat match goal with E : ?x = false |- context [?x] => rewrite E end.
    assert ((cents <=? 0) = false) as -> by (apply Z.leb_gt; lia).
    assert ((profit <? 0) = false) as -> by (apply Z.ltb_ge; lia).
    done.
Qed.

Definition reduction_text (w : Wager) (newStake : Money) (reason : string) : string :=
  ("Stake reduced from " ++ stakeText (Stake w) ++ " to " ++ stakeText newStake
   ++ " — " ++ TrimSpace reason)%string.

(** What a reduction to [newStake] produces: the wager at its accepted price
    and new stake, the refund, and the transaction. *)
Definition reduction (w : Wager) (newStake : Money) (actor : ID) (reason : string)
    (refs : VoidWagerAccountRefs) : Wager * Money * Transaction :=
  let c := Money_Currency (Stake w) in
  let refund := Cents (Stake w) - Cents newStake in
  (set_Stake newStake (mkMoney (profit_spec (AcceptedOdds w) (Cents newStake)) c) w,
   mkMoney refund c,
   mkTransaction TransactionWagerRefund c (ReduceIdempotencyKey (Wager_ID w) (Cents newStake)) actor
     "wager" (Wager_ID w) (reduction_text w newStake reason) "" (refund_postings refs refund c)).

Record reducible (w : Wager) (newStake : Money) : Prop := {
  rd_accepted : Wager_State w = WagerAccepted;
  rd_currency : Money_Currency newStake = Money_Currency (Stake w);
  rd_down : 0 < Cents newStake < Cents (Stake w);
  rd_fits : Cents newStake <= MaxInt64 / fst (odds_ratio (AcceptedOdds w))
}.

Lemma ReduceWager_spec w ns actor reason refs at_ r :
  good_wager w -> int64 (Cents ns) ->
  ReduceWager w ns actor reason refs at_ = Ok r <->
    reducible w ns /\ refund_inputs actor reason refs at_ /\ r = reduction w ns actor reason refs.
Proof.
  intros Hg Hns. pose proof (good_wager_facts w Hg) as (Hc & Hst & Ho & _ & Hid).
  assert (Hr : -2147483648 <= AcceptedOdds w <= 2147483647) by apply Hg.
  assert (Hwrap : 0 < Cents ns < Cents (Stake w) ->
            wrap64 (Cents (Stake w) - Cents ns) = Cents (Stake w) - Cents ns).
  { intros. apply wrap64_id. unfold int64, MinInt64, MaxInt64 in *. lia. }
  split.
  - unfold ReduceWager. cbv zeta. intros H. go_inv. bool_prop.
    match goal with E : NewMoney _ _ = Ok _ |- _ => unfold NewMoney in E end. go_inv.
    rewrite Hwrap in * by lia.
    match goal with E : Negate _ = Ok _ |- _ => rewrite Negate_pos in E by (cbn; lia || done) end. go_inv.
    match goal with E : Profit _ _ = Ok _ |- _ => apply Profit_iff in E as (_ & _ & Hs & ->); [|done..] end.
    match goal with E : Transaction_Validate _ = Ok _ |- _ => apply Transaction_Validate_postings in E;
      cbn [Tx_Currency Tx_Postings Cents Money_Currency] in E; apply refund_postings_Ok in E; [|lia] end.
    match goal with E : Money_Currency ns = _ |- _ => pose proof E as Hcur end.
    unfold reduction, refund_postings. rewrite Hcur. split; [|split; [|done]].
    + split; try done; lia.
    + split; try done. by apply bool_decide_eq_false.
  - intros ([Hacc Hcur Hdown Hfit] & Hin & ->). pose proof Hin as [Ha Hre _ Ht].
    unfold ReduceWager. cbv zeta.
    go_step; [apply Hg|]. go_step; [by rewrite Hacc|]. go_step; [by rewrite Ha|]. go_step; [exact Hre|].
    go_step; [by apply (VoidWagerAccountRefs_validate_ok actor reason refs at_)|]. go_step; [done|].
    go_step; [apply valid_currency_Ok; by rewrite Hcur|]. go_step; [by rewrite Hcur, bool_decide_true|].
    go_step; [apply Z.leb_gt; lia|]. go_step; [apply Z.leb_gt; lia|]. rewrite Hwrap by lia.
    go_step; [unfold NewMoney; rewrite valid_currency_Ok by done; reflexivity|].
    go_step; [apply Negate_pos; [cbn; lia|done]|].
    go_step; [apply Profit_iff; [done..|]; rewrite Hcur; split_and!; [done|done|lia|lia|reflexivity]|].
    go_step; [|reflexivity]. apply wrap_err_Ok, (refund_transaction_ok _ _ _ reason _ _ at_);
      [done|apply wager_key_not_blank|done|done|cbn [Cents]; lia].
Qed.

(** [ReduceWager] succeeds if and only if the wager is accepted and the
    new stake is positive, strictly smaller and in the same currency.  It
    never touches the price: only the stake and the profit change, the profit
    being the accepted odds' profit on the new stake and no larger than on the
    old one; the difference, and only it, goes from escrow to the member in a
    valid transaction; and the result is again a well-formed accepted wager. *)
Theorem ReduceWager_keeps_the_price w ns actor reason refs at_ :
  good_wager w -> int64 (Cents ns) ->
  ((exists r, ReduceWager w ns actor reason refs at_ = Ok r) <->
     reducible w ns /\ refund_inputs actor reason refs at_)
  /\ forall w' refund t,
       ReduceWager w ns actor reason refs at_ = Ok (w', refund, t) ->
       good_wager w' /\ Wager_State w' = WagerAccepted
       /\ w' = set_Stake ns (PotentialProfit w') w /\ AcceptedOdds w' = AcceptedOdds w
       /\ Cents (PotentialProfit w') = profit_spec (AcceptedOdds w) (Cents ns)
       /\ Cents (PotentialProfit w') <= profit_spec (AcceptedOdds w) (Cents (Stake w))
       /\ Cents refund = Cents (Stake w) - Cents (Stake w')
       /\ Transaction_Validate t = Ok ()
       /\ net (VWR_EscrowAccountID refs) (Tx_Postings t) = - Cents refund
       /\ net (VWR_UserFundingAccountID refs) (Tx_Postings t) = Cents refund.
Proof.
  intros Hg Hns. pose proof (good_wager_facts w Hg) as (Hc & Hst & Ho & _ & Hid). split.
  { split.
    - intros [r H]. apply ReduceWager_spec in H; naive_solver.
    - intros [H1 H2]. eexists. by apply ReduceWager_spec. }
  intros w' refund t H. apply ReduceWager_spec in H as ([Hacc Hcur Hdown Hfit] & Hin & H); [|done..].
  injection H as -> -> ->. pose proof Hin as [_ _ (_ & _ & Hne) _].
  assert (VWR_EscrowAccountID refs <> VWR_UserFundingAccountID refs) by congruence.
  pose proof (profit_spec_int64 (AcceptedOdds w) (Cents ns) Ho ltac:(lia)).
  cbn [Cents Tx_Postings]. split.
  { destruct ns as [cents c]. cbn [Cents Money_Currency] in *. subst c.
    apply good_wager_set_Stake; [done|lia..]. }
  split; [exact Hacc|]. split; [reflexivity|]. split; [reflexivity|]. split; [reflexivity|].
  split; [cbn [PotentialProfit set_Stake Cents]; apply profit_spec_mono; [done|lia]|].
  split; [reflexivity|]. split.
  { apply (refund_transaction_ok _ _ _ reason _ _ at_); [done|apply wager_key_not_blank|done|done|lia]. }
  rewrite !refund_postings_net. split; repeat case_bool_decide; congruence || lia.
Qed.

(** The comment's figures: at -180, $2,000 wins $1,111.11. *)
Lemma ReduceWager_keeps_the_price_witness :
  exists w' refund t,
    ReduceWager ex_bet (mkMoney 200000 "CAD") "admin" "too big" ex_void_refs ex_at = Ok (w', refund, t)
    /\ Cents (PotentialProfit w') = 111111 /\ Cents refund = 100000.
Proof.
  destruct (ReduceWager ex_bet (mkMoney 200000 "CAD") "admin" "too big" ex_void_refs ex_at)
    as [[[w' refund] t]|e] eqn:E; [|vm_compute in E; discriminate E].
  exists w', refund, t. split; [reflexivity|].
  assert (Hi : int64 (Cents (mkMoney 200000 "CAD"))) by (unfold int64, MinInt64, MaxInt64; cbn; lia).
  destruct (proj2 (ReduceWager_keeps_the_price ex_bet (mkMoney 200000 "CAD") "admin" "too big" ex_void_refs ex_at
    ex_bet_good Hi) w' refund t E) as (_ & _ & Hw & _ & Hp & _ & Hr & _).
  rewrite Hp, Hr, Hw. split; reflexivity.
Defined.

(** ** Settle-ups *)
Definition member_delta (c : AdjustmentCommand) : Z :=
  if bool_decide (Direction c = AdjustmentPayoutSent) then - Cents (AC_Amount c) else Cents (AC_Amount c).

Lemma RecordAdjustment_Ok c t :
  int64 (Cents (AC_Amount c)) -> RecordAdjustment c = Ok t ->
  let cur := Money_Currency (AC_Amount c) in
  0 < Cents (AC_Amount c) <= MaxInt64 /\ valid_currency cur = true
  /\ validID (AC_AdjustmentID c) = true
  /\ (Direction c = AdjustmentPaymentReceived \/ Direction c = AdjustmentPayoutSent)
  /\ is_blank (AC_Reason c) = false
  /\ ADR_UserFundingAccountID (AC_Refs c) <> ADR_HouseClearingAccountID (AC_Refs c)
  /\ Transaction_Validate t = Ok ()
  /\ t = mkTransaction TransactionAdminAdjustment cur (AdjustmentIdempotencyKey (AC_AdjustmentID c))
           (AC_Actor c) AdjustmentSourceType (AC_AdjustmentID c) (TrimSpace (AC_Reason c)) ""
           [mkPosting (ADR_UserFundingAccountID (AC_Refs c)) (mkMoney (member_delta c) cur);
            mkPosting (ADR_HouseClearingAccountID (AC_Refs c)) (mkMoney (- member_delta c) cur)].
Proof.
  intros Hi. unfold RecordAdjustment, AdjustmentAccountRefs_validate, member_delta. cbv zeta. intros H. go_inv.
  match goal with E : Money_Validate _ = Ok _ |- _ => apply Money_Validate_Ok in E; rename E into Hc end.
  bool_prop. unfold int64, MinInt64 in Hi.
  match goal with E : (if _ then _ else _) = Ok ?v |- _ =>
    assert (v = mkMoney (if bool_decide (Direction c = AdjustmentPayoutSent) then - Cents (AC_Amount c)
                         else Cents (AC_Amount c)) (Money_Currency (AC_Amount c))) as ->;
      [case_bool_decide; [rewrite Negate_pos in E by (lia || done)|]; injection E as <-; [done|];
       by destruct (AC_Amount c)|clear E] end.
  match goal with E : Negate _ = Ok ?v |- _ => apply Negate_Ok in E as (-> & _ & _);
    [|cbn [Cents]; unfold int64, MinInt64, MaxInt64 in *; case_bool_decide; lia] end.
  match goal with E : Transaction_Validate _ = Ok ?u |- _ => destruct u; rename E into Htx end.
  match goal with E : AdjustmentDirection_Validate _ = Ok _ |- _ => rename E into Hd end.
  cbn [Cents Money_Currency] in *.
  split; [lia|]. split; [done|]. split; [done|].
  split; [destruct (Direction c); naive_solver|]. split; [by apply bool_decide_eq_false|].
  split; [done|]. split; [exact Htx|reflexivity].
Qed.

Definition negate_posting (p : Posting) : Posting :=
  mkPosting (AccountID p) (mkMoney (- Cents (Amount p)) (Money_Currency (Amount p))).

Lemma negate_postings_Ok ps :
  Forall (fun p => MinInt64 < posting_cents p <= MaxInt64 /\ valid_currency (Money_Currency (Amount p)) = true) ps ->
  negate_postings ps = Ok (negate_posting <$> ps).
Proof.
  induction 1 as [|p ps [Hp Hc] _ IH]; [done|]. cbn [negate_postings].
  go_step; [|go_step; [exact IH|reflexivity]].
  unfold Negate, Money_Validate. rewrite valid_currency_Ok by done. unfold posting_cents in Hp.
  cbn. rewrite (proj2 (Z.eqb_neq _ _)) by lia. cbn.
  rewrite wrap64_id by (unfold int64, MinInt64, MaxInt64 in *; lia). done.
Qed.

Lemma net_negate a ps : net a (negate_posting <$> ps) = - net a ps.
Proof.
  induction ps as [|p ps IH]; [done|]. rewrite fmap_cons, !net_cons, IH. cbn. case_bool_decide; lia.
Qed.

(** Negating a valid two-posting transfer keeps it valid. *)
Lemma opposite_postings u h c d :
  valid_currency c = true -> - MaxInt64 <= d <= MaxInt64 /\ d <> 0 ->
  ValidatePostings c [mkPosting u (mkMoney d c); mkPosting h (mkMoney (- d) c)] = Ok () ->
  ValidatePostings c (negate_posting <$> [mkPosting u (mkMoney d c); mkPosting h (mkMoney (- d) c)]) = Ok ().
Proof.
  intros Hc Hd H. apply ValidatePostings_Ok in H as (_ & _ & Hf & Hnd & _).
  2:{ rewrite !Forall_cons, Forall_nil. unfold int64, MinInt64, MaxInt64, posting_cents in *; cbn. lia. }
  rewrite !Forall_cons in Hf. destruct Hf as ((Hb1 & _) & (Hb2 & _) & _).
  rewrite !fmap_cons, !NoDup_cons in Hnd. unfold posting_account in Hnd. cbn in Hb1, Hb2, Hnd.
  rewrite !fmap_cons, fmap_nil. unfold negate_posting; cbn [AccountID Amount Cents Money_Currency].
  destruct (Z_le_gt_dec d 0) as [Hneg|Hpos].
  - assert (H : TrimSpace h <> TrimSpace u) by set_solver.
    replace (- - d) with (- (- d)) by lia.
    exact (proj2 (ValidatePostings_transfer c h u (- d) Hc Hb2 Hb1 H ltac:(lia))).
  - assert (H : TrimSpace u <> TrimSpace h) by set_solver. rewrite Z.opp_involutive.
    exact (proj1 (ValidatePostings_transfer c u h d Hc Hb1 Hb2 H ltac:(lia))).
Qed.

(** A recorded settle-up credits the member what they paid in or debits
    what they were paid out, against house clearing, in a valid transaction;
    and it can always be undone: given the original transaction's ID, an
    actor and a reason, [ReverseAdjustment] succeeds with a valid transaction
    that references the original, and posting both, in whatever ledger, leaves
    every account's balance where it started. *)
Theorem adjustment_and_reversal_cancel c t tid actor reason :
  int64 (Cents (AC_Amount c)) -> RecordAdjustment c = Ok t ->
  is_blank tid = false -> is_blank actor = false -> is_blank reason = false ->
  net (ADR_UserFundingAccountID (AC_Refs c)) (Tx_Postings t) = member_delta c
  /\ net (ADR_HouseClearingAccountID (AC_Refs c)) (Tx_Postings t) = - member_delta c
  /\ exists r,
       ReverseAdjustment t tid actor reason = Ok r
       /\ Transaction_Validate r = Ok () /\ Tx_ReversalOf r = tid
       /\ forall (balances : gmap string Z) a,
            default 0 (post_all (Tx_Postings r) (post_all (Tx_Postings t) balances) !! a)
            = default 0 (balances !! a).
Proof.
  intros Hi H Ht Ha Hr. apply RecordAdjustment_Ok in H as (Hc & Hcur & Hid & _ & _ & Hne & Htx & Heq); [|done].
  set (cur := Money_Currency (AC_Amount c)) in *.
  assert (Hd : - MaxInt64 <= member_delta c <= MaxInt64 /\ member_delta c <> 0).
  { unfold member_delta. case_bool_decide; lia. }
  pose proof (Transaction_Validate_postings t () Htx) as Hv.
  assert (Hneg : negate_postings (Tx_Postings t) = Ok (negate_posting <$> Tx_Postings t)).
  { apply negate_postings_Ok. rewrite Heq. cbn [Tx_Postings]. rewrite !Forall_cons, Forall_nil.
    unfold posting_cents, MinInt64, MaxInt64 in *. cbn. split_and!; done || lia. }
  assert (Hrv : Transaction_Validate (mkTransaction TransactionReversal (Tx_Currency t)
      (ReversalIdempotencyKey (Tx_SourceID t)) actor AdjustmentSourceType (Tx_SourceID t)
      (TrimSpace reason) tid (negate_posting <$> Tx_Postings t)) = Ok ()).
  { apply Transaction_Validate_intro; try done.
    - by rewrite Heq.
    - by apply not_blank_plain.
    - rewrite Heq. cbn. by apply validID_alt.
    - intros _. cbn. by rewrite is_blank_TrimSpace.
    - rewrite Heq in Hv |- *. by apply opposite_postings. }
  split; [|split].
  - rewrite Heq. cbn [Tx_Postings]. rewrite !net_cons, net_nil. cbn.
    repeat case_bool_decide; congruence || lia.
  - rewrite Heq. cbn [Tx_Postings]. rewrite !net_cons, net_nil. cbn.
    repeat case_bool_decide; congruence || lia.
  - eexists. split; [|split; [exact Hrv|split; [reflexivity|]]].
    + unfold ReverseAdjustment. cbv zeta. go_step; [by rewrite Heq|].
      go_step; [by apply negb_false_iff, validID_alt|]. go_step; [by apply negb_false_iff, validID_alt|].
      go_step; [done|]. go_step; [exact Hneg|]. go_step; [exact Hrv|reflexivity].
    + intros balances a. cbn [Tx_Postings]. rewrite !post_all_lookup, net_negate. lia.
Qed.

Definition ex_adjustment : AdjustmentCommand :=
  mkAdjustmentCommand (ex_uuid "4") "alice" AdjustmentPayoutSent (mkMoney 12345 "CAD") " e-transfer "
    "admin" (mkAdjustmentAccountRefs "cash:alice" "house") ex_at.

Lemma adjustment_and_reversal_cancel_witness :
  exists t r, RecordAdjustment ex_adjustment = Ok t
    /\ ReverseAdjustment t "ledger-1" "admin" "typo" = Ok r
    /\ net "cash:alice" (Tx_Postings t) = -12345
    /\ forall (balances : gmap string Z) a,
         default 0 (post_all (Tx_Postings r) (post_all (Tx_Postings t) balances) !! a)
         = default 0 (balances !! a).
Proof.
  destruct (RecordAdjustment ex_adjustment) as [t|e] eqn:E; [|vm_compute in E; discriminate E].
  assert (Hi : int64 (Cents (AC_Amount ex_adjustment))) by (unfold int64, MinInt64, MaxInt64; cbn; lia).
  destruct (adjustment_and_reversal_cancel ex_adjustment t "ledger-1" "admin" "typo" Hi E
    eq_refl eq_refl eq_refl) as (Hn & _ & r & Hr & _ & _ & Hb).
  exists t, r. split; [reflexivity|]. split; [exact Hr|]. split; [exact Hn|exact Hb].
Defined.

(** * The idempotency keys of wager money movements

    Every movement of one wager's money posts under a key built from the wager
    ID and the movement; the ledger stores one transaction per key.  Distinct
    movements never share a key, whatever text the IDs hold, so a replay is
    recognised and nothing else is. *)
Module LedgerKeys.
Inductive movement :=
  | Acceptance
  | Grading (version : Z)
  | SingleVoid
  | Reduction (newStakeCents : Z).

(** The keys as the operations build them. *)
Definition movement_key (wagerID : ID) (m : movement) : string :=
  match m with
  | Acceptance => acceptance_key wagerID
  | Grading version => settlement_key wagerID version
  | SingleVoid => VoidIdempotencyKey wagerID
  | Reduction cents => ReduceIdempotencyKey wagerID cents
  end.

(** ** Decimal text holds no colon and is injective *)
Definition colon : ascii := ":".
Definition no_colon (s : string) : Prop := colon ∉ bytes s.

Lemma bytes_app s t : bytes (s ++ t)%string = bytes s ++ bytes t.
Proof. induction s as [|a s IH]; [done|]. change (a :: bytes (s ++ t) = a :: bytes s ++ bytes t). by rewrite IH. Qed.

(** Decimal text is made of digits and minus signs. *)
Definition decimal_char (c : ascii) : bool := is_digit c || byte_is 45 c.
Definition decimal (s : string) : Prop := forall c, c ∈ bytes s -> decimal_char c = true.

Lemma decimal_String a s : decimal_char a = true -> decimal s -> decimal (String a s).
Proof. intros Ha Hs c. cbn. intros [->|Hin]%elem_of_cons; auto. Qed.

Lemma decimal_nil : decimal "".
Proof. intros c Hc. inversion Hc. Qed.

Lemma pretty_N_go_decimal n s : decimal s -> decimal (pretty_N_go n s).
Proof.
  revert s. induction (N.lt_wf_0 n) as [n _ IH]; intros s Hs.
  destruct (decide (0 < n)%N) as [Hpos|Hz].
  - rewrite pretty_N_go_step by done. apply IH; [by apply N.div_lt|].
    apply decimal_String; [|done]. unfold pretty_N_char. by repeat case_match.
  - replace n with 0%N by lia. by rewrite pretty_N_go_0.
Qed.

Lemma pretty_N_decimal (n : N) : decimal (pretty n).
Proof.
  unfold pretty, pretty_N. case_decide.
  - apply decimal_String; [done|apply decimal_nil].
  - apply pretty_N_go_decimal, decimal_nil.
Qed.

Lemma sprint_d_decimal n : decimal (sprint_d n).
Proof.
  unfold sprint_d, pretty, pretty_Z. destruct n as [|p|p]; [apply decimal_String; [done|apply decimal_nil]|apply pretty_N_decimal|].
  apply decimal_String; [done|apply pretty_N_decimal].
Qed.

Lemma decimal_no_colon s : decimal s -> no_colon s.
Proof. intros H Hin. by specialize (H _ Hin). Qed.

Lemma sprint_d_inj a b : sprint_d a = sprint_d b -> a = b.
Proof. apply (inj pretty). Qed.

(** Cutting at the last colon. *)
Lemma last_colon_inj (l1 l2 t1 t2 : list ascii) :
  colon ∉ t1 -> colon ∉ t2 -> l1 ++ colon :: t1 = l2 ++ colon :: t2 -> l1 = l2 /\ t1 = t2.
Proof.
  intros H1 H2. revert l2. induction l1 as [|a l1 IH]; intros [|b l2]; cbn; intros Heq.
  - by injection Heq.
  - injection Heq as <- ->. exfalso. apply H1. apply elem_of_app. right. set_solver.
  - injection Heq as -> <-. exfalso. apply H2. apply elem_of_app. right. set_solver.
  - injection Heq as <- Heq. destruct (IH _ Heq). by subst.
Qed.

(** The text after the last colon, and what precedes it. *)
Definition movement_tail (m : movement) : string :=
  match m with
  | Acceptance => "acceptance"
  | Grading version => ("v" ++ sprint_d version)%string
  | SingleVoid => "void"
  | Reduction cents => sprint_d cents
  end.
Definition movement_infix (m : movement) : string :=
  match m with
  | Acceptance | SingleVoid => ""
  | Grading _ => ":settlement"
  | Reduction _ => ":reduce"
  end.

Lemma movement_key_bytes id m :
  bytes (movement_key id m)
  = (bytes "wager:" ++ bytes id ++ bytes (movement_infix m)) ++ colon :: bytes (movement_tail m).
Proof.
  destruct m; cbn [movement_key movement_infix movement_tail];
    unfold acceptance_key, settlement_key, VoidIdempotencyKey, ReduceIdempotencyKey;
    rewrite ?bytes_app, ?app_nil_r, <- ?(assoc_L (++)); done.
Qed.

Lemma movement_tail_no_colon m : no_colon (movement_tail m).
Proof.
  destruct m; cbn [movement_tail]; unfold no_colon; rewrite ?bytes_app.
  - apply (bool_decide_unpack _). by vm_compute.
  - cbn. intros [He|Hin]%elem_of_cons; [done|]. by apply (decimal_no_colon _ (sprint_d_decimal version)).
  - apply (bool_decide_unpack _). by vm_compute.
  - apply decimal_no_colon, sprint_d_decimal.
Qed.

Lemma bytes_inj s t : bytes s = bytes t -> s = t.
Proof. intros H. rewrite <- (of_bytes_bytes s), <- (of_bytes_bytes t). by rewrite H. Qed.

(** The tail and the infix tell the movements apart: a version starts with
    [v], the two fixed words with a letter, and a stake is decimal. *)
Lemma movement_tail_inj m1 m2 : movement_tail m1 = movement_tail m2 -> m1 = m2.
Proof.
  assert (Hd : forall n a s, sprint_d n = String a s -> decimal_char a = true).
  { intros n a s Hn. apply (sprint_d_decimal n). rewrite Hn. cbn. set_solver. }
  destruct m1, m2; cbn [movement_tail String.append]; intros H; try done;
    try (injection H as H); try (f_equal; by apply sprint_d_inj);
    first [by specialize (Hd _ _ _ H) | symmetry in H; by specialize (Hd _ _ _ H)].
Qed.

(** Idempotency keys are collision free.  Two movements of wager money
    (acceptance, a grading under a settlement version, a single void, a
    reduction to a stake) post under the same key if and only if they are the
    same movement of the same wager, for arbitrary ID texts. *)
Theorem movement_key_injective id1 id2 m1 m2 :
  movement_key id1 m1 = movement_key id2 m2 <-> id1 = id2 /\ m1 = m2.
Proof.
  split; [|by intros [-> ->]]. intros H.
  assert (Hb : bytes (movement_key id1 m1) = bytes (movement_key id2 m2)) by by rewrite H.
  rewrite !movement_key_bytes in Hb.
  apply last_colon_inj in Hb as [Hl Ht]; [|apply movement_tail_no_colon..].
  apply bytes_inj, movement_tail_inj in Ht as ->. split; [|done].
  apply bytes_inj. apply (inj (bytes "wager:" ++.)) in Hl. by apply (inj (.++ bytes (movement_infix m2))) in Hl.
Qed.
End LedgerKeys.
