(* ===== verification/Book.v ===== *)
(** * The book as a whole: a set of wagers, the ledger balances and every
      operation that moves a wager

    The storage layer runs each operation of internal/betting on a stored
    wager, writes the new wager back and posts the operation's transaction in
    the same database transaction.  A book is that state for one currency,
    with its one escrow account; its step relation applies one operation. *)
From S2P Require Import Prelude GoStrings GoTime Ledger Events Betting Placement Settlement Corrections.

Record book := mkBook { wagers : gmap string Wager; balances : gmap string Z }.
Definition empty_book : book := mkBook ∅ ∅.

(** The operations on an existing wager, with the postings they produce. *)
Inductive wager_op (escrow : string) (w : Wager) : Wager -> list Posting -> Prop :=
  | op_accept actor at_ refs eid r :
      AAR_EscrowAccountID refs = escrow ->
      AcceptWager w actor at_ refs eid = Ok r ->
      wager_op escrow w (AWR_Wager r) (Tx_Postings (AWR_Transaction r))
  | op_reject actor reason w' :
      RejectWager w actor reason = Ok w' -> wager_op escrow w w' []
  | op_cancel actor w' :
      CancelWager w actor = Ok w' -> wager_op escrow w w' []
  | op_reduce newStake actor reason refs at_ w' refund t :
      VWR_EscrowAccountID refs = escrow -> int64 (Cents newStake) ->
      ReduceWager w newStake actor reason refs at_ = Ok (w', refund, t) ->
      wager_op escrow w w' (Tx_Postings t)
  | op_void actor reason refs at_ w' t :
      VWR_EscrowAccountID refs = escrow ->
      VoidWager w actor reason refs at_ = Ok (w', t) ->
      wager_op escrow w w' (Tx_Postings t)
  | op_grade res refs msid wsid version actor at_ eid divisor ws w' ev :
      SAR_EscrowAccountID refs = escrow ->
      settleWager w res refs msid wsid version actor at_ eid divisor = Ok (ws, w', ev) ->
      wager_op escrow w w' (Tx_Postings (WS_Transaction ws)).

Inductive book_step (escrow : string) (currency : Currency) (b : book) : book -> Prop :=
  | step_place c w :
      command_ints c -> Money_Currency (PWC_Stake c) = currency ->
      PlaceWager c = Ok w -> wagers b !! Wager_ID w = None ->
      book_step escrow currency b (mkBook (<[Wager_ID w := w]> (wagers b)) (balances b))
  | step_wager w w' ps :
      wagers b !! Wager_ID w = Some w -> wager_op escrow w w' ps ->
      book_step escrow currency b
        (mkBook (<[Wager_ID w' := w']> (wagers b)) (post_all ps (balances b))).

Definition reachable (escrow : string) (currency : Currency) : book -> Prop :=
  rtc (book_step escrow currency) empty_book.

(** ** What one operation does to its wager *)

(** What escrow holds for a wager. *)
Definition held (w : Wager) : Z := if is_accepted w then Cents (Stake w) else 0.

(** The terms a member was accepted at. *)
Definition terms (w : Wager) :=
  (Wager_ID w, Wager_UserID w, Wager_MarketID w, Wager_SelectionID w, Wager_Funding w,
   AcceptedOdds w, AcceptedTerms w, Money_Currency (Stake w), IdempotencyKey w, PlacedAt w).

Definition state_step (s s' : WagerState) : Prop := WagerState_CanTransitionTo s s' = true.

Record evolves (w w' : Wager) : Prop := {
  ev_terms : terms w' = terms w;
  ev_stake : 0 < Cents (Stake w') <= Cents (Stake w);
  ev_state : rtc state_step (Wager_State w) (Wager_State w');
  ev_final : WagerState_CanTransitionTo (Wager_State w) WagerAccepted = false ->
             Wager_State w <> WagerAccepted -> w' = w
}.

(** A wager as placement leaves it: well formed, its profit computed without
    overflow. *)
Definition sound (w : Wager) : Prop :=
  good_wager w /\ Cents (Stake w) <= MaxInt64 / fst (odds_ratio (AcceptedOdds w)).

Lemma evolves_refl w : 0 < Cents (Stake w) -> evolves w w.
Proof. split; [done|lia|done|done]. Qed.

Lemma evolves_trans w1 w2 w3 : evolves w1 w2 -> evolves w2 w3 -> evolves w1 w3.
Proof.
  intros [T1 S1 R1 F1] [T2 S2 R2 F2]. split; [congruence|lia|by etrans|].
  intros Ha Hb. specialize (F1 Ha Hb). subst w2. by apply F2.
Qed.

Lemma state_change_evolves s w :
  0 < Cents (Stake w) -> WagerState_CanTransitionTo (Wager_State w) s = true ->
  evolves w (set_Wager_State s w).
Proof.
  intros Hs Ht. split; [done|cbn; lia|by apply rtc_once|]. intros Ha Hna.
  exfalso. destruct (Wager_State w); try done.
Qed.

(** The first posting's account receives exactly that posting when the
    postings are valid. *)
Lemma net_head_posting c p ps :
  Forall (fun q => int64 (posting_cents q)) (p :: ps) -> ValidatePostings c (p :: ps) = Ok () ->
  net (AccountID p) (p :: ps) = Cents (Amount p).
Proof.
  intros Hi H. apply ValidatePostings_Ok in H as (_ & _ & _ & Hnd & _); [|done].
  rewrite fmap_cons, NoDup_cons in Hnd. destruct Hnd as [Hn _].
  rewrite net_cons, bool_decide_true by done.
  enough (net (AccountID p) ps = 0) by lia. clear Hi. induction ps as [|q ps IH]; [done|].
  rewrite net_cons, bool_decide_false.
  - rewrite IH; [done|]. rewrite fmap_cons in Hn. set_solver.
  - intros Heq. apply Hn. rewrite fmap_cons. unfold posting_account. rewrite Heq. set_solver.
Qed.

Record op_effect (escrow : string) (w w' : Wager) (ps : list Posting) : Prop := {
  oe_sound : sound w';
  oe_evolves : evolves w w';
  oe_escrow : net escrow ps = held w' - held w;
  oe_balanced : sumZ posting_cents ps = 0
}.

Lemma held_not_accepted w : Wager_State w <> WagerAccepted -> held w = 0.
Proof. intros H. unfold held, is_accepted. by rewrite bool_decide_false. Qed.
Lemma held_accepted w : Wager_State w = WagerAccepted -> held w = Cents (Stake w).
Proof. intros H. unfold held, is_accepted. by rewrite bool_decide_true. Qed.

(** Leaving the accepted state or entering it. *)
Lemma state_change_effect escrow s w ps :
  sound w -> WagerState_CanTransitionTo (Wager_State w) s = true -> WagerState_Validate s = Ok () ->
  net escrow ps = held (set_Wager_State s w) - held w -> sumZ posting_cents ps = 0 ->
  op_effect escrow w (set_Wager_State s w) ps.
Proof.
  intros [Hg Hf] Ht Hv Hn Hs. pose proof (good_wager_facts w Hg) as (_ & Hst & _). split; try done.
  - split; [by apply good_wager_set_State|done].
  - apply state_change_evolves; [lia|done].
Qed.

Lemma RejectWager_Ok w actor reason w' :
  RejectWager w actor reason = Ok w' ->
  w' = set_Wager_State WagerRejected w /\ Wager_State w = WagerPending.
Proof.
  unfold RejectWager. cbv zeta. intros H. go_inv. bool_prop. split; [done|].
  by destruct (Wager_State w).
Qed.

Lemma CancelWager_Ok w actor w' :
  CancelWager w actor = Ok w' ->
  w' = set_Wager_State WagerRejected w /\ Wager_State w = WagerPending /\ actor = Wager_UserID w.
Proof.
  unfold CancelWager. intros H. go_inv. bool_prop. split; [done|].
  by destruct (Wager_State w).
Qed.

Lemma accept_effect escrow w actor at_ refs eid r :
  sound w -> AAR_EscrowAccountID refs = escrow -> AcceptWager w actor at_ refs eid = Ok r ->
  op_effect escrow w (AWR_Wager r) (Tx_Postings (AWR_Transaction r)).
Proof.
  intros Hs <- H. apply AcceptWager_spec in H as [Hacc ->]; [|apply Hs]. cbn [AWR_Wager AWR_Transaction].
  destruct Hacc as [Hp _ (_ & _ & Hne) _ _ _].
  assert (AAR_UserFundingAccountID refs <> AAR_EscrowAccountID refs) by congruence.
  apply state_change_effect; [done|by rewrite Hp|done| |].
  - rewrite acceptance_postings_net, held_accepted, held_not_accepted by (done || by rewrite Hp).
    rewrite bool_decide_false, bool_decide_true by done. cbn. lia.
  - unfold acceptance_transaction. cbn [Tx_Postings]. rewrite !sumZ_cons, sumZ_nil. unfold posting_cents. cbn. lia.
Qed.

Lemma refund_postings_sum refs cents c : sumZ posting_cents (refund_postings refs cents c) = 0.
Proof. unfold refund_postings. rewrite !sumZ_cons, sumZ_nil. unfold posting_cents. cbn. lia. Qed.

Lemma refund_postings_escrow refs actor reason at_ cents c :
  refund_inputs actor reason refs at_ ->
  net (VWR_EscrowAccountID refs) (refund_postings refs cents c) = - cents.
Proof.
  intros [_ _ (_ & _ & Hne) _].
  assert (VWR_UserFundingAccountID refs <> VWR_EscrowAccountID refs) by congruence.
  rewrite refund_postings_net, bool_decide_true, bool_decide_false by done. lia.
Qed.

Lemma void_effect escrow w actor reason refs at_ w' t :
  sound w -> VWR_EscrowAccountID refs = escrow -> VoidWager w actor reason refs at_ = Ok (w', t) ->
  op_effect escrow w w' (Tx_Postings t).
Proof.
  intros Hs <- H. apply VoidWager_spec in H as (Hacc & Hin & -> & ->); [|apply Hs]. cbn [Tx_Postings].
  apply state_change_effect; [done|by rewrite Hacc|done| |apply refund_postings_sum].
  rewrite (refund_postings_escrow _ actor reason at_) by done.
  rewrite held_not_accepted, held_accepted by done. lia.
Qed.

Lemma reduce_effect escrow w ns actor reason refs at_ w' refund t :
  sound w -> VWR_EscrowAccountID refs = escrow -> int64 (Cents ns) ->
  ReduceWager w ns actor reason refs at_ = Ok (w', refund, t) ->
  op_effect escrow w w' (Tx_Postings t).
Proof.
  intros [Hg Hfit] <- Hi H. apply ReduceWager_spec in H as ([Hacc Hcur Hdown Hf] & Hin & H); [|done..].
  pose proof (good_wager_facts w Hg) as (_ & Hst & Ho & _).
  injection H as -> -> ->. cbn [Tx_Postings].
  pose proof (profit_spec_int64 (AcceptedOdds w) (Cents ns) Ho ltac:(lia)).
  split.
  - split; [|cbn; lia]. destruct ns as [cents c]. cbn [Cents Money_Currency] in *. subst c.
    apply good_wager_set_Stake; [done|lia..].
  - split; [unfold terms; cbn; by rewrite Hcur|cbn; lia|done|congruence].
  - rewrite (refund_postings_escrow _ actor reason at_) by done.
    rewrite !held_accepted by done. cbn. lia.
  - apply refund_postings_sum.
Qed.

Lemma settlement_postings_int64 w res refs d :
  good_wager w -> 1 <= d -> int64 (returned_cents w res d) ->
  Forall (fun p => int64 (posting_cents p)) (settlement_postings w res refs d).
Proof.
  intros Hg Hd Hr. pose proof (good_wager_facts w Hg) as (_ & Hst & _).
  pose proof (returned_cents_bounds w res d Hg Hd). unfold settlement_postings.
  apply Forall_cons; split.
  - unfold posting_cents, int64, MinInt64, MaxInt64 in *. cbn. lia.
  - apply Forall_app; split; apply nonzero_posting_int64; [|done].
    unfold int64, MinInt64, MaxInt64 in *. lia.
Qed.

Lemma grade_effect escrow w res refs msid wsid version actor at_ eid d ws w' ev :
  sound w -> SAR_EscrowAccountID refs = escrow ->
  settleWager w res refs msid wsid version actor at_ eid d = Ok (ws, w', ev) ->
  op_effect escrow w w' (Tx_Postings (WS_Transaction ws)).
Proof.
  intros Hs <- H. apply settleWager_Ok in H as (Hacc & Hres & -> & -> & Hv & Hi & _); [|apply Hs].
  assert (Hd := effective_divisor_pos res d). set (d' := effective_divisor res d) in *.
  apply Transaction_Validate_postings in Hv. cbn [WS_Transaction settlement_record Tx_Currency Tx_Postings] in *.
  pose proof (settlement_postings_int64 w res refs d' (proj1 Hs) Hd Hi) as Hps.
  apply state_change_effect; [done| |apply final_state_valid| |].
  - rewrite Hacc. unfold final_state. by case_bool_decide.
  - unfold settlement_postings in *.
    pose proof (net_head_posting _ _ _ Hps Hv) as Hn. cbn [AccountID Amount Cents] in Hn. rewrite Hn.
    rewrite held_not_accepted, held_accepted by (done || (cbn; unfold final_state; by case_bool_decide)). lia.
  - apply ValidatePostings_Ok in Hv as (_ & _ & _ & _ & _ & Hsum); done.
Qed.

Lemma wager_op_effect escrow w w' ps : sound w -> wager_op escrow w w' ps -> op_effect escrow w w' ps.
Proof.
  intros Hs Hop. destruct Hop.
  - by eapply accept_effect.
  - apply RejectWager_Ok in H as [-> Hp].
    apply state_change_effect; [done|by rewrite Hp|done| |done].
    rewrite net_nil, !held_not_accepted; [done|by rewrite Hp|done].
  - apply CancelWager_Ok in H as (-> & Hp & _).
    apply state_change_effect; [done|by rewrite Hp|done| |done].
    rewrite net_nil, !held_not_accepted; [done|by rewrite Hp|done].
  - by eapply reduce_effect.
  - by eapply void_effect.
  - by eapply grade_effect.
Qed.

(** ** The invariant of a book *)
Record book_ok (escrow : string) (currency : Currency) (b : book) : Prop := {
  bk_wagers : forall id w, wagers b !! id = Some w ->
                sound w /\ Wager_ID w = id /\ Money_Currency (Stake w) = currency;
  bk_escrow : default 0 (balances b !! escrow) = total (held <$> wagers b);
  bk_total : total (balances b) = 0
}.

Lemma snapshot_sound c : command_ints c -> eligible c -> sound (snapshot c).
Proof.
  intros Hi He. pose proof (snapshot_validates _ c He) as Hv. destruct Hi as (Hi & Ho & _).
  pose proof (el_stake _ _ He) as Hst. pose proof (el_selection _ _ He) as Hsel.
  apply Selection_Validate_facts in Hsel as (_ & Hodds & _).
  assert (Hvo : valid_odds (OfferedAmericanOdds (PWC_Selection c))) by (split; [lia|done]).
  pose proof (profit_spec_int64 _ _ Hvo Hst).
  split; [split; [|done]|exact (proj2 Hst)]. unfold wager_ints. cbn. unfold offered_profit.
  split; [exact Hi|]. unfold int64, MinInt64, MaxInt64 in *. lia.
Qed.

Lemma empty_book_ok escrow currency : book_ok escrow currency empty_book.
Proof. split; [intros id w H; discriminate H|done|done]. Qed.

Lemma total_held_insert (id : ID) w (m : gmap string Wager) :
  total (held <$> <[id := w]> m) = total (held <$> m) - default 0 (held <$> m !! id) + held w.
Proof. by rewrite fmap_insert, total_insert, lookup_fmap. Qed.

Lemma book_step_ok escrow currency b b' :
  book_ok escrow currency b -> book_step escrow currency b b' -> book_ok escrow currency b'.
Proof.
  intros [Hw He Ht] Hstep. destruct Hstep as [c w Hi Hcur Hp Hnew|w w' ps Hl Hop].
  - apply PlaceWager_spec in Hp as [Hel ->]; [|done].
    split; [|cbn [wagers balances]; rewrite total_held_insert, Hnew, (held_not_accepted (snapshot c)) by done; rewrite He; cbn; lia|done].
    intros id w. cbn [wagers]. rewrite lookup_insert_Some. intros [[<- <-]|[_ H]]; [|by apply Hw].
    split; [by apply snapshot_sound|]. done.
  - destruct (Hw _ _ Hl) as (Hs & _ & Hcur).
    destruct (wager_op_effect escrow w w' ps Hs Hop) as [Hs' Hev Hn Hsum].
    assert (Hterms : Wager_ID w' = Wager_ID w /\ Money_Currency (Stake w') = Money_Currency (Stake w)).
    { pose proof (ev_terms _ _ Hev) as Ht'. unfold terms in Ht'. by simplify_eq. }
    destruct Hterms as [Hid Hcur']. split; cbn [wagers balances].
    + intros id x. rewrite lookup_insert_Some. intros [[<- <-]|[_ H]]; [|by apply Hw].
      split_and!; [done|done|congruence].
    + rewrite post_all_lookup, He, Hn, total_held_insert, Hid, Hl. cbn. lia.
    + rewrite total_post_all. lia.
Qed.

Lemma reachable_ok escrow currency b : reachable escrow currency b -> book_ok escrow currency b.
Proof.
  intros H. unfold reachable in H.
  assert (forall x, rtc (book_step escrow currency) x b -> book_ok escrow currency x -> book_ok escrow currency b) as Hgen.
  { clear H. intros x. induction 1 as [|x y z Hxy _ IH]; [done|]. intros Hx.
    apply IH. by eapply book_step_ok. }
  apply (Hgen empty_book); [done|apply empty_book_ok].
Qed.

(** A wager's potential profit stays its odds' profit on its stake. *)
Definition priced (w : Wager) : Prop := Cents (PotentialProfit w) = profit_spec (AcceptedOdds w) (Cents (Stake w)).
Lemma wager_op_priced escrow w w' ps : sound w -> wager_op escrow w w' ps -> priced w -> priced w'.
Proof.
  intros [Hg Hf] Hop Hp. destruct Hop.
  - match goal with Hx : AcceptWager _ _ _ _ _ = Ok _ |- _ => by apply AcceptWager_spec in Hx as [_ ->] end.
  - match goal with Hx : RejectWager _ _ _ = Ok _ |- _ => by apply RejectWager_Ok in Hx as [-> _] end.
  - match goal with Hx : CancelWager _ _ = Ok _ |- _ => by apply CancelWager_Ok in Hx as [-> _] end.
  - match goal with Hx : ReduceWager _ _ _ _ _ _ = Ok _ |- _ => apply ReduceWager_spec in Hx as (_ & _ & Hx); [|done..]; by injection Hx as -> _ _ end.
  - match goal with Hx : VoidWager _ _ _ _ _ = Ok _ |- _ => apply VoidWager_spec in Hx as (_ & _ & -> & _); done end.
  - match goal with Hx : settleWager _ _ _ _ _ _ _ _ _ _ = Ok _ |- _ => apply settleWager_Ok in Hx as (_ & _ & -> & _); done end.
Qed.
Lemma reachable_priced escrow currency b id w : reachable escrow currency b -> wagers b !! id = Some w -> priced w.
Proof.
  intros H. unfold reachable in H. assert (Hgen : forall x, rtc (book_step escrow currency) x b -> book_ok escrow currency x ->
    (forall i v, wagers x !! i = Some v -> priced v) -> forall i v, wagers b !! i = Some v -> priced v).
  { clear H. intros x. induction 1 as [|x y z Hxy _ IH]; [done|]. intros Hok Hx. apply IH; [by eapply book_step_ok|].
    destruct Hxy as [c v Hi Hcur Hp Hnew|v v' ps Hl Hop]; intros i u; cbn [wagers]; rewrite lookup_insert_Some.
    - intros [[_ <-]|[_ Hu]]; [|by eapply Hx]. by apply PlaceWager_spec in Hp as [_ ->].
    - intros [[_ <-]|[_ Hu]]; [|by eapply Hx]. eapply wager_op_priced; [|exact Hop|by eapply Hx]. by destruct (bk_wagers _ _ _ Hok _ _ Hl). }
  by apply (Hgen empty_book); [|apply empty_book_ok|].
Qed.

(** Escrow is always worth exactly the open bets.  Whatever wagers are
    placed, accepted, rejected, cancelled, reduced, voided and graded, in
    whatever order, with whatever accounts beside the one escrow account, the
    escrow balance equals the sum of the stakes of the accepted wagers, and
    the book's balances sum to zero. *)
Theorem escrow_equals_accepted_stakes escrow currency b :
  reachable escrow currency b ->
  default 0 (balances b !! escrow) = total (held <$> wagers b) /\ total (balances b) = 0.
Proof. intros H. by destruct (reachable_ok _ _ _ H). Qed.

(** C32. Nothing the book accepted can get stuck.  In every reachable book
    each accepted wager can be graded with every supported result, dead heat
    or not, as soon as the wager ID is a UUID, the accounts are usable and
    distinct and the identifiers, actor and time are supplied; the grade pays
    out of escrow exactly the stake held for it. *)
Theorem accepted_wagers_can_be_graded escrow currency b w res refs msid wsid version actor at_ eid d :
  reachable escrow currency b -> wagers b !! Wager_ID w = Some w -> Wager_State w = WagerAccepted ->
  validUUID (Wager_ID w) = true -> SettlementResult_Validate res = Ok () ->
  settlement_accounts refs -> SAR_EscrowAccountID refs = escrow ->
  is_blank msid = false -> 0 < version -> is_blank actor = false -> IsZero at_ = false ->
  validUUID eid = true ->
  exists ws w' ev,
    settleWager w res refs msid wsid version actor at_ eid d = Ok (ws, w', ev)
    /\ net escrow (Tx_Postings (WS_Transaction ws)) = - Cents (Stake w)
    /\ book_step escrow currency b
         (mkBook (<[Wager_ID w' := w']> (wagers b)) (post_all (Tx_Postings (WS_Transaction ws)) (balances b))).
Proof.
  intros Hb Hl Hacc Hu Hres Ha He Hm Hv Hac Ht Heid.
  destruct (bk_wagers _ _ _ (reachable_ok _ _ _ Hb) _ _ Hl) as ([Hg Hfit] & _ & _).
  assert (Hgr : gradable w refs msid version actor at_ eid) by done.
  assert (Hk : known_result res = true) by (unfold known_result; by rewrite Hres).
  destruct (settleWager_succeeds w res refs msid wsid version actor at_ eid d Hgr Hk) as (ev & H & _).
  eexists _, _, ev. split; [exact H|].
  pose proof (grade_effect escrow w res refs msid wsid version actor at_ eid d _ _ _ (conj Hg Hfit) He H) as Heff.
  split.
  - rewrite (oe_escrow _ _ _ _ Heff), held_not_accepted, held_accepted; [lia|done|].
    cbn. unfold final_state. by case_bool_decide.
  - eapply step_wager; [done|]. by eapply op_grade.
Qed.

Lemma book_run_evolves escrow currency b b' (id : ID) w :
  book_ok escrow currency b -> rtc (book_step escrow currency) b b' -> wagers b !! id = Some w ->
  exists w', wagers b' !! id = Some w' /\ evolves w w'.
Proof.
  intros Hok Hrun Hl.
  revert w Hl Hok. induction Hrun as [b|b b1 b2 Hstep _ IH]; intros w Hl Hok.
  - destruct (bk_wagers _ _ _ Hok _ _ Hl) as ([Hg _] & _).
    exists w. split; [done|]. apply evolves_refl. pose proof (good_wager_facts w Hg). lia.
  - assert (Hok1 : book_ok escrow currency b1) by by eapply book_step_ok.
    assert (H1 : exists w1, wagers b1 !! id = Some w1 /\ evolves w w1).
    { destruct (bk_wagers _ _ _ Hok _ _ Hl) as (Hs & _).
      assert (Hst : 0 < Cents (Stake w)) by (destruct (good_wager_facts w (proj1 Hs)); lia).
      destruct Hstep as [c x Hi Hcur Hp Hnew|x x' ps Hx Hop]; cbn [wagers].
      - exists w. rewrite lookup_insert_ne by congruence. split; [done|by apply evolves_refl].
      - destruct (bk_wagers _ _ _ Hok _ _ Hx) as (Hsx & _).
        destruct (wager_op_effect escrow x x' ps Hsx Hop) as [_ Hev _ _].
        assert (Hid : Wager_ID x' = Wager_ID x).
        { pose proof (ev_terms _ _ Hev) as Ht'. unfold terms in Ht'. by simplify_eq. }
        destruct (decide (id = Wager_ID x')) as [->|Hne].
        + exists x'. rewrite lookup_insert_eq. split; [done|].
          rewrite Hid in Hl. rewrite Hl in Hx. by injection Hx as ->.
        + exists w. rewrite lookup_insert_ne by done. split; [done|by apply evolves_refl]. }
    destruct H1 as (w1 & Hl1 & Hev1). destruct (IH w1 Hl1 Hok1) as (w2 & Hl2 & Hev2).
    exists w2. split; [done|]. by eapply evolves_trans.
Qed.

(** What a member agreed to never changes.  Along every run of the book a
    wager's owner, selection, accepted odds and terms, funding, currency and
    placement time are constant, its stake never grows and never reaches
    zero, its state only moves along the declared transitions, and once it is
    rejected, settled or voided it never changes again. *)
Theorem wager_terms_are_immutable escrow currency b b' (id : ID) w :
  reachable escrow currency b -> rtc (book_step escrow currency) b b' -> wagers b !! id = Some w ->
  exists w', wagers b' !! id = Some w' /\ evolves w w'.
Proof. intros Hb. by apply book_run_evolves, reachable_ok. Qed.

(** ** A concrete book: one wager placed and accepted *)
Definition ex_accepted : AcceptWagerResult :=
  mkAcceptWagerResult (set_Wager_State WagerAccepted ex_pending)
    (acceptance_transaction ex_pending "admin" ex_acceptance_refs)
    (acceptance_event ex_pending ex_now (Placement.ex_uuid "3")).
Definition ex_placed_book : book := mkBook (<[Wager_ID ex_pending := ex_pending]> ∅) ∅.
Definition ex_book : book :=
  mkBook (<[Wager_ID (AWR_Wager ex_accepted) := AWR_Wager ex_accepted]> (wagers ex_placed_book))
    (post_all (Tx_Postings (AWR_Transaction ex_accepted)) ∅).

Lemma ex_place_ints : command_ints ex_place.
Proof.
  split; [unfold int64, MinInt64, MaxInt64; cbn; lia|]. split; [cbn; lia|].
  rewrite !Forall_cons, Forall_nil. unfold MaxInt64. cbn. split_and!; done || lia.
Qed.

Lemma ex_placed_reachable : reachable "escrow" "CAD" ex_placed_book.
Proof.
  apply rtc_once. apply (step_place "escrow" "CAD" empty_book ex_place ex_pending ex_place_ints);
    [reflexivity|vm_compute; reflexivity|reflexivity].
Qed.

Lemma ex_accept_step : book_step "escrow" "CAD" ex_placed_book ex_book.
Proof.
  apply (step_wager "escrow" "CAD" ex_placed_book ex_pending); [vm_compute; reflexivity|].
  apply (op_accept "escrow" ex_pending "admin" ex_now ex_acceptance_refs (Placement.ex_uuid "3") ex_accepted);
    [reflexivity|vm_compute; reflexivity].
Qed.

Lemma ex_reachable : reachable "escrow" "CAD" ex_book.
Proof. eapply rtc_r; [apply ex_placed_reachable|apply ex_accept_step]. Qed.

Lemma escrow_equals_accepted_stakes_witness :
  default 0 (balances ex_book !! "escrow"%string) = 2500 /\ total (balances ex_book) = 0.
Proof.
  destruct (escrow_equals_accepted_stakes "escrow" "CAD" ex_book ex_reachable) as [H1 H2].
  split; [|exact H2]. etransitivity; [exact H1|]. vm_compute. reflexivity.
Defined.

Lemma accepted_wagers_can_be_graded_witness :
  exists ws w' ev,
    settleWager (AWR_Wager ex_accepted) ResultWin (mkSettlementAccountRefs "cash:alice" "escrow" "house")
      "settlement-1" "ws-1" 1 "admin" ex_now (Placement.ex_uuid "5") 1 = Ok (ws, w', ev)
    /\ net "escrow" (Tx_Postings (WS_Transaction ws)) = - 2500.
Proof.
  assert (Ha : settlement_accounts (mkSettlementAccountRefs "cash:alice" "escrow" "house")).
  { split; [rewrite !Forall_cons, Forall_nil; split_and!; by vm_compute|].
    apply (bool_decide_unpack _). by vm_compute. }
  destruct (accepted_wagers_can_be_graded "escrow" "CAD" ex_book (AWR_Wager ex_accepted) ResultWin
    (mkSettlementAccountRefs "cash:alice" "escrow" "house") "settlement-1" "ws-1" 1 "admin" ex_now
    (Placement.ex_uuid "5") 1 ex_reachable eq_refl eq_refl eq_refl eq_refl Ha eq_refl eq_refl
    eq_refl eq_refl eq_refl eq_refl) as (ws & w' & ev & H & Hn & _).
  exists ws, w', ev. split; [exact H|exact Hn].
Defined.

Lemma wager_terms_are_immutable_witness :
  exists w', wagers ex_book !! (Placement.ex_uuid "1") = Some w' /\ evolves ex_pending w'.
Proof.
  apply (wager_terms_are_immutable "escrow" "CAD" ex_placed_book ex_book (Placement.ex_uuid "1") ex_pending
    ex_placed_reachable); [apply rtc_once, ex_accept_step|vm_compute; reflexivity].
Defined.
