(* ===== verification/Float64.v ===== *)
(** * Go's float64 arithmetic

    IEEE 754 binary64 with round-to-nearest-even, computed by the Standard
    Library's [SpecFloat].  Go evaluates each of the modelled expressions
    operation by operation: none has the shape [x*y + z] that may be fused. *)
From Stdlib Require Import SpecFloat.
From S2P Require Import Prelude.

Definition float := spec_float.
Definition prec64 : Z := 53.
Definition emax64 : Z := 1024.

(** [float64(z)] for an integer, and the value of an integer constant. *)
Definition of_Z (z : Z) : float := binary_normalize prec64 emax64 z 0 false.
Definition fadd : float -> float -> float := SFadd prec64 emax64.
Definition fsub : float -> float -> float := SFsub prec64 emax64.
Definition fmul : float -> float -> float := SFmul prec64 emax64.
Definition fdiv : float -> float -> float := SFdiv prec64 emax64.
Definition fopp : float -> float := SFopp.

Declare Scope float_scope.
Delimit Scope float_scope with float.
Bind Scope float_scope with float.
Infix "+" := fadd : float_scope.
Infix "-" := fsub : float_scope.
Infix "*" := fmul : float_scope.
Infix "/" := fdiv : float_scope.
Notation "- x" := (fopp x) : float_scope.
Infix "<?" := SFltb : float_scope.
Infix "<=?" := SFleb : float_scope.

(** [math.Round]: the nearest integer, half away from zero; [None] when the
    argument is infinite or not a number. *)
Definition round_half_away (m : positive) (e : Z) : Z :=
  if 0 <=? e then Z.shiftl (Zpos m) e
  else (2 * Zpos m + 2 ^ (- e)) / (2 * 2 ^ (- e)).
Definition Round (f : float) : option Z :=
  match f with
  | S754_finite s m e => Some (if s then (- round_half_away m e)%Z else round_half_away m e)
  | S754_zero _ => Some 0
  | _ => None
  end.

(** [int64(math.Round(f))].  Go leaves the result of converting a value that
    does not fit to the implementation, which [undef] stands for. *)
Definition round_to_int64 (undef : float -> Z) (f : float) : Z :=
  match Round f with
  | Some z => if bool_decide (int64 z) then z else wrap64 (undef f)
  | None => wrap64 (undef f)
  end.

Lemma round_to_int64_range undef f : int64 (round_to_int64 undef f).
Proof.
  unfold round_to_int64. destruct (Round f) as [z|]; [|apply wrap64_int64].
  case_bool_decide; [done|apply wrap64_int64].
Qed.

(** Comparisons the pricing code relies on; they hold of every float. *)
Lemma SFltb_irrefl (f : float) : SFltb f f = false.
Proof.
  unfold SFltb, SFcompare. destruct f as [[]|[]| |[] m e]; try done; cbn;
    rewrite Z.compare_refl, Pos.compare_cont_refl; done.
Qed.

(** [math.Round(2.5) = 3] and [math.Round(-2.5) = -3]. *)
Example Round_half : Round (fdiv (of_Z 5) (of_Z 2)) = Some 3 /\ Round (fdiv (of_Z (-5)) (of_Z 2)) = Some (-3).
Proof. by vm_compute. Qed.
