(* ===== verification/Pricing.v ===== *)
(** * internal/pricing/pricing.go: exposure-based line movement

    [math.Exp] and the conversion to int64 of a value that does not fit are
    parameters: their bits are left to the platform. *)
From Stdlib Require Import SpecFloat.
From S2P Require Import Prelude GoStrings Ledger Float64.

Definition MaxOdds : Z := 10000.
Definition maxTiltExponent : float := of_Z 40.
(** The constant 0.8, rounded once. *)
Definition arbitrageSafetyFraction : float := fdiv (of_Z 4) (of_Z 5).
Definition maxRoundingSteps : nat := 32.

Definition ErrTooFewSelections := Sentinel "pricing.ErrTooFewSelections".
Definition ErrLiquidityNotPositive := Sentinel "pricing.ErrLiquidityNotPositive".

Record SelectionInput := mkSelectionInput { OpeningOdds : AmericanOdds; StakeCents : Z }.
Record SelectionResult := mkSelectionResult { SR_Odds : AmericanOdds }.

Definition ImpliedProbability (odds : AmericanOdds) : float :=
  let value := of_Z odds in
  if 0 <? odds then (of_Z 100 / (value + of_Z 100))%float
  else (- value / (- value + of_Z 100))%float.

(** [value--] on an int32 above [-MaxOdds] does not wrap. *)
Definition shortenOnePoint (odds : AmericanOdds) : result AmericanOdds :=
  if 100 <? odds then NewAmericanOdds (odds - 1)
  else if odds =? 100 then NewAmericanOdds (-100)
  else if - MaxOdds <? odds then NewAmericanOdds (odds - 1)
  else Ok odds.

Definition driftFloors (priors : list float) (overround : float) : list float :=
  let fraction := ((overround - of_Z 1) / overround * arbitrageSafetyFraction)%float in
  let fraction := if (fraction <? of_Z 0)%float then of_Z 0 else fraction in
  (fun prior => prior * (of_Z 1 - fraction))%float <$> priors.

(** One index of the three parallel slices of [applyDriftFloors]. *)
Record cell := mkCell { cell_probability : float; cell_floor : float; cell_clamped : bool }.

(** The first inner loop: [fixed], [free] and [newlyClamped] accumulate. *)
Fixpoint drift_scan (cells : list cell) (fixed free : float) (newlyClamped : bool)
    : list cell * float * float * bool :=
  match cells with
  | [] => ([], fixed, free, newlyClamped)
  | c :: rest =>
      let '(c', fixed', free', newly') :=
        if cell_clamped c then (c, (fixed + cell_floor c)%float, free, newlyClamped)
        else if (cell_probability c <? cell_floor c)%float
        then (mkCell (cell_floor c) (cell_floor c) true, (fixed + cell_floor c)%float, free, true)
        else (c, fixed, (free + cell_probability c)%float, newlyClamped) in
      let '(rest', fixed'', free'', newly'') := drift_scan rest fixed' free' newly' in
      (c' :: rest', fixed'', free'', newly'')
  end.

(** The second inner loop. *)
Definition drift_rescale (scale : float) (cells : list cell) : list cell :=
  (fun c => if cell_clamped c then c
            else mkCell (cell_probability c * scale)%float (cell_floor c) false) <$> cells.

(** [for pass := 0; pass <= len(probabilities); pass++].  The flag tells an
    early return from leaving the loop through its bound. *)
Fixpoint drift_passes (passes : nat) (overround : float) (cells : list cell) : list cell * bool :=
  match passes with
  | O => (cells, false)
  | S passes =>
      let '(cells, fixed, free, newlyClamped) := drift_scan cells (of_Z 0) (of_Z 0) false in
      if negb newlyClamped || (free <=? of_Z 0)%float then (cells, true)
      else drift_passes passes overround
             (drift_rescale ((overround - fixed) / free)%float cells)
  end.

Definition drift_cells (probabilities floors : list float) : list cell :=
  zip_with (fun p f => mkCell p f false) probabilities floors.

Definition applyDriftFloors (probabilities floors : list float) (overround : float) : list float :=
  cell_probability
    <$> (drift_passes (S (length probabilities)) overround (drift_cells probabilities floors)).1.

(** The loop that walks a rounded price back to its floor. *)
Fixpoint walk_to_floor (steps : nat) (floor : float) (odds : AmericanOdds) : AmericanOdds :=
  match steps with
  | O => odds
  | S steps =>
      if (ImpliedProbability odds <? floor)%float then
        match shortenOnePoint odds with
        | Ok shorter => if shorter =? odds then odds else walk_to_floor steps floor shorter
        | Err _ => odds
        end
      else odds
  end.

Section pricing.
Variable Exp : float -> float.
Variable int64_undef : float -> Z.

Definition minProb : float := (of_Z 100 / (of_Z MaxOdds + of_Z 100))%float.
Definition maxProb : float := (of_Z MaxOdds / (of_Z MaxOdds + of_Z 100))%float.

Definition AmericanFromProbability (probability : float) : result AmericanOdds :=
  let probability := if (probability <? minProb)%float then minProb else probability in
  let probability := if (maxProb <? probability)%float then maxProb else probability in
  let value :=
    if (probability <=? of_Z 1 / of_Z 2)%float then
      let value := round_to_int64 int64_undef (of_Z 100 * (of_Z 1 - probability) / probability)%float in
      if value <? 100 then 100 else value
    else
      let value := wrap64 (- round_to_int64 int64_undef (of_Z 100 * probability / (of_Z 1 - probability))%float) in
      if -100 <? value then -100 else value in
  let value := if MaxOdds <? value then MaxOdds else value in
  let value := if value <? - MaxOdds then - MaxOdds else value in
  NewAmericanOdds value.

(** The first loop of [Reprice]: priors and their running sum. *)
Fixpoint priors_loop (selections : list SelectionInput) (overround : float)
    : result (list float * float) :=
  match selections with
  | [] => Ok ([], overround)
  | selection :: rest =>
      Odds_Validate (OpeningOdds selection);;
      fail_if (StakeCents selection <? 0) (Errorf "pricing: stake must not be negative");;
      let prior := ImpliedProbability (OpeningOdds selection) in
      '(priors, overround) ← priors_loop rest (overround + prior)%float;
      Ok (prior :: priors, overround)
  end.

Definition tilt (liquidity : float) (selection : SelectionInput) (prior : float) : float :=
  let exponent := (of_Z (StakeCents selection) / liquidity)%float in
  let exponent := if (maxTiltExponent <? exponent)%float then maxTiltExponent else exponent in
  (prior * Exp exponent)%float.

(** The last loop of [Reprice]. *)
Fixpoint price_loop (probabilities floors : list float) : result (list SelectionResult) :=
  match probabilities, floors with
  | probability :: probabilities, floor :: floors =>
      odds ← AmericanFromProbability probability;
      results ← price_loop probabilities floors;
      Ok (mkSelectionResult (walk_to_floor maxRoundingSteps floor odds) :: results)
  | _, _ => Ok []
  end.

Definition Reprice (selections : list SelectionInput) (liquidityCents : Z)
    : result (list SelectionResult) :=
  fail_if (Z.of_nat (length selections) <? 2) ErrTooFewSelections;;
  fail_if (liquidityCents <=? 0) ErrLiquidityNotPositive;;
  '(priors, overround) ← priors_loop selections (of_Z 0);
  let liquidity := of_Z liquidityCents in
  let weights := zip_with (tilt liquidity) selections priors in
  let weightSum := foldl fadd (of_Z 0) weights in
  let probabilities := (fun w => w * (overround / weightSum))%float <$> weights in
  let floors := driftFloors priors overround in
  price_loop (applyDriftFloors probabilities floors overround) floors.
End pricing.

(** ** Lemmas *)

(** The American prices the engine may post. *)
Definition posted_odds (o : AmericanOdds) : Prop := -10000 <= o <= -100 \/ 100 <= o <= 10000.

Lemma NewAmericanOdds_ok o : posted_odds o -> NewAmericanOdds o = Ok o.
Proof.
  intros H. unfold NewAmericanOdds, posted_odds in *.
  by rewrite (proj2 (Odds_Validate_Ok o ()) ltac:(lia)).
Qed.

Lemma clamp_underdog v :
  let value := if v <? 100 then 100 else v in
  let value := if MaxOdds <? value then MaxOdds else value in
  posted_odds (if value <? - MaxOdds then - MaxOdds else value).
Proof.
  unfold MaxOdds, posted_odds. cbv zeta. change (- (10000)) with (-10000).
  set (value := if v <? 100 then 100 else v). assert (100 <= value) by (subst value; destruct (Z.ltb_spec v 100); lia).
  destruct (Z.ltb_spec 10000 value); [right; vm_compute; split; discriminate|].
  destruct (Z.ltb_spec value (-10000)); lia.
Qed.

Lemma clamp_favourite v :
  let value := if -100 <? v then -100 else v in
  let value := if MaxOdds <? value then MaxOdds else value in
  posted_odds (if value <? - MaxOdds then - MaxOdds else value).
Proof.
  unfold MaxOdds, posted_odds. cbv zeta. change (- (10000)) with (-10000).
  set (value := if -100 <? v then -100 else v). assert (value <= -100) by (subst value; destruct (Z.ltb_spec (-100) v); lia).
  destruct (Z.ltb_spec 10000 value); [right; vm_compute; split; discriminate|].
  destruct (Z.ltb_spec value (-10000)); lia.
Qed.

Lemma AmericanFromProbability_posted undef p :
  exists o, AmericanFromProbability undef p = Ok o /\ posted_odds o.
Proof.
  unfold AmericanFromProbability. cbv zeta.
  match goal with |- context [NewAmericanOdds ?v] => assert (Hv : posted_odds v) end.
  { match goal with |- context [if (_ <=? _)%float then _ else _] => destruct (_ <=? _)%float end;
      [apply clamp_underdog|apply clamp_favourite]. }
  eexists. split; [by apply NewAmericanOdds_ok|done].
Qed.

Lemma shortenOnePoint_posted o : posted_odds o -> exists o', shortenOnePoint o = Ok o' /\ posted_odds o'.
Proof.
  intros Ho. unfold shortenOnePoint, MaxOdds. change (- (10000)) with (-10000). unfold posted_odds in Ho.
  destruct (Z.ltb_spec 100 o); [|destruct (Z.eqb_spec o 100); [|destruct (Z.ltb_spec (-10000) o)]];
    eexists; (split; [first [reflexivity | apply NewAmericanOdds_ok]|]); unfold posted_odds; lia.
Qed.

Lemma walk_to_floor_posted steps floor o : posted_odds o -> posted_odds (walk_to_floor steps floor o).
Proof.
  revert o. induction steps as [|steps IH]; intros o Ho; cbn; [done|].
  destruct (_ <? _)%float; [|done].
  destruct (shortenOnePoint_posted o Ho) as (o' & -> & Ho'). destruct (o' =? o); [done|]. by apply IH.
Qed.

Lemma price_loop_ok undef ps fs :
  exists rs, price_loop undef ps fs = Ok rs /\ length rs = (length ps `min` length fs)%nat
    /\ Forall (fun r => posted_odds (SR_Odds r)) rs.
Proof.
  revert fs. induction ps as [|p ps IH]; intros [|f fs]; try (exists []; done). cbn [price_loop].
  destruct (AmericanFromProbability_posted undef p) as (o & -> & Ho).
  destruct (IH fs) as (rs & Hrs & Hlen & Hall). cbn [mbind result_bind]. rewrite Hrs. cbn [mbind result_bind].
  eexists. split; [reflexivity|]. cbn [length Nat.min]. rewrite Hlen. split; [done|].
  apply Forall_cons; split; [|done]. cbn [SR_Odds]. by apply walk_to_floor_posted.
Qed.

(** Which inputs [Reprice] prices. *)
Definition priceable (s : SelectionInput) : Prop :=
  (OpeningOdds s <= -100 \/ 100 <= OpeningOdds s) /\ 0 <= StakeCents s.

Lemma priors_loop_Ok sels o r :
  priors_loop sels o = Ok r -> Forall priceable sels /\ length r.1 = length sels.
Proof.
  revert o r. induction sels as [|s sels IH]; intros o r H; cbn [priors_loop] in H.
  - injection H as <-. done.
  - go_inv. destruct v1 as [ps o']. go_inv. apply Odds_Validate_Ok in Hok. bool_prop.
    destruct (IH _ _ Hok1) as [Hf Hl]. cbn in *. split; [|lia]. constructor; [done|done].
Qed.

(** The first selection that cannot be priced, and the error it is refused with. *)
Definition unpriceable (s : SelectionInput) (e : error) : Prop :=
  (-100 < OpeningOdds s < 100 /\ e = ErrInvalidAmericanOdds)
  \/ ((OpeningOdds s <= -100 \/ 100 <= OpeningOdds s) /\ StakeCents s < 0 /\ e = Errorf "pricing: stake must not be negative").
Lemma priors_loop_Err sels o e :
  priors_loop sels o = Err e ->
  exists good s rest, sels = good ++ s :: rest /\ Forall priceable good /\ unpriceable s e.
Proof.
  revert o. induction sels as [|s sels IH]; intros o H; cbn [priors_loop] in H; [done|].
  destruct (Odds_Validate (OpeningOdds s)) as [[]|e1] eqn:Eo; cbn [mbind result_bind] in H.
  2:{ injection H as ->. exists [], s, sels. split_and!; [done..|left]. unfold Odds_Validate, fail_if in Eo.
      destruct (_ && _) eqn:Eb; [|done]. injection Eo as <-. bool_prop. split; [lia|done]. }
  apply Odds_Validate_Ok in Eo.
  destruct (Z.ltb_spec (StakeCents s) 0) as [Hs|Hs]; cbn [fail_if mbind result_bind] in H.
  { injection H as <-. exists [], s, sels. split_and!; [done..|right]. done. }
  destruct (priors_loop sels _) as [[ps o']|e1] eqn:Ep; [done|]. injection H as ->.
  destruct (IH _ Ep) as (good & s' & rest & -> & Hg & He). exists (s :: good), s', rest. split_and!; [done| |done].
  by constructor.
Qed.

Lemma length_zip_with_same {A B C} (f : A -> B -> C) l k :
  length l = length k -> length (zip_with f l k) = length l.
Proof. intros H. rewrite length_zip_with. lia. Qed.

(** *** The drift floors *)
Definition count_unclamped (cells : list cell) : nat :=
  length (List.filter (fun c => negb (cell_clamped c)) cells).

(** No cell is below its floor. *)
Definition above_floor (c : cell) : Prop := (cell_probability c <? cell_floor c)%float = false.
Definition clamped_at_floor (c : cell) : Prop := cell_clamped c = true -> cell_probability c = cell_floor c.

Lemma drift_scan_spec cells fixed free newly :
  Forall clamped_at_floor cells ->
  let '(cells', _, _, newly') := drift_scan cells fixed free newly in
  Forall clamped_at_floor cells' /\ Forall above_floor cells'
  /\ cell_floor <$> cells' = cell_floor <$> cells
  /\ (count_unclamped cells' <= count_unclamped cells)%nat
  /\ (newly = true -> newly' = true)
  /\ (newly = false -> newly' = true -> count_unclamped cells' < count_unclamped cells)%nat.
Proof.
  intros H. revert fixed free newly. induction H as [|c cells Hc _ IH]; intros fixed free newly; cbn [drift_scan].
  { split_and!; [constructor|constructor|done|done|done|congruence]. }
  destruct (cell_clamped c) eqn:Ec;
    [|destruct (cell_probability c <? cell_floor c)%float eqn:Ef].
  - specialize (IH (fixed + cell_floor c)%float free newly).
    destruct (drift_scan cells _ _ _) as [[[cells' ?] ?] newly']. destruct IH as (H1 & H2 & H3 & H4 & H5 & H6).
    unfold count_unclamped in *. rewrite !fmap_cons. cbn. rewrite Ec, H3. cbn.
    split_and!; try done; constructor; try done. unfold above_floor. rewrite (Hc Ec). apply SFltb_irrefl.
  - specialize (IH (fixed + cell_floor c)%float free true).
    destruct (drift_scan cells _ _ _) as [[[cells' ?] ?] newly']. destruct IH as (H1 & H2 & H3 & H4 & H5 & H6).
    unfold count_unclamped in *. rewrite !fmap_cons. cbn. rewrite Ec, H3. cbn.
    split_and!; try done; try lia; try (by auto); constructor; try done. unfold above_floor. apply SFltb_irrefl.
  - specialize (IH fixed (free + cell_probability c)%float newly).
    destruct (drift_scan cells _ _ _) as [[[cells' ?] ?] newly']. destruct IH as (H1 & H2 & H3 & H4 & H5 & H6).
    unfold count_unclamped in *. rewrite !fmap_cons. cbn. rewrite Ec, H3. cbn.
    split_and!; try done; try lia; try (constructor; done). intros Hn Hn'. specialize (H6 Hn Hn'). lia.
Qed.

Lemma drift_rescale_spec scale cells :
  Forall clamped_at_floor cells ->
  Forall clamped_at_floor (drift_rescale scale cells)
  /\ cell_floor <$> drift_rescale scale cells = cell_floor <$> cells
  /\ count_unclamped (drift_rescale scale cells) = count_unclamped cells.
Proof.
  unfold drift_rescale, count_unclamped. induction 1 as [|c cells Hc _ (IH1 & IH2 & IH3)]; [done|].
  rewrite !fmap_cons. cbn. destruct (cell_clamped c) eqn:Ec; cbn; rewrite ?Ec; cbn; rewrite IH2.
  - split_and!; try done. by constructor.
  - split_and!; try done; [|congruence]. by constructor.
Qed.

Lemma drift_passes_spec passes overround cells :
  Forall clamped_at_floor cells -> (count_unclamped cells < passes)%nat ->
  let '(cells', returned) := drift_passes passes overround cells in
  returned = true /\ Forall above_floor cells' /\ cell_floor <$> cells' = cell_floor <$> cells.
Proof.
  revert cells. induction passes as [|passes IH]; intros cells Hc Hn; [lia|]. cbn [drift_passes].
  pose proof (drift_scan_spec cells (of_Z 0) (of_Z 0) false Hc) as Hs.
  destruct (drift_scan _ _ _ _) as [[[cells' fixed] free] newly]. destruct Hs as (H1 & H2 & H3 & _ & _ & H6).
  destruct newly; cbn [negb orb]; [|done]. destruct (free <=? of_Z 0)%float; [done|].
  specialize (H6 eq_refl eq_refl).
  destruct (drift_rescale_spec ((overround - fixed) / free)%float cells' H1) as (R1 & R2 & R3).
  specialize (IH _ R1). rewrite R3 in IH. specialize (IH ltac:(lia)).
  destruct (drift_passes passes _ _) as [out ret]. destruct IH as (-> & H & Hf).
  split_and!; [done|done|]. by rewrite Hf, R2.
Qed.

Lemma cell_floors_drift_cells ps fs : length ps = length fs -> cell_floor <$> drift_cells ps fs = fs.
Proof.
  unfold drift_cells. revert fs. induction ps as [|p ps IH]; intros [|f fs]; cbn; try done.
  intros [= H]. f_equal. by apply IH.
Qed.

Lemma drift_cells_start ps fs :
  Forall clamped_at_floor (drift_cells ps fs) /\ (count_unclamped (drift_cells ps fs) <= length ps)%nat.
Proof.
  unfold drift_cells, count_unclamped. revert fs. induction ps as [|p ps IH]; intros [|f fs]; cbn; try (split; [constructor|lia]).
  destruct (IH fs) as [H1 H2]. split; [by constructor|lia].
Qed.

Lemma Forall2_cells (R : float -> float -> Prop) cells fs :
  cell_floor <$> cells = fs -> Forall (fun c => R (cell_probability c) (cell_floor c)) cells ->
  Forall2 R (cell_probability <$> cells) fs.
Proof. intros <- H. induction H as [|c cells Hc _ IH]; [constructor|]. rewrite !fmap_cons. by constructor. Qed.

(** A scan that finds nothing below its floor changes nothing. *)
Lemma drift_scan_quiet ps fs fixed free :
  Forall2 (fun p f => (p <? f)%float = false) ps fs ->
  let '(cells', _, _, newly) := drift_scan (drift_cells ps fs) fixed free false in
  cells' = drift_cells ps fs /\ newly = false.
Proof.
  intros H. revert fixed free. induction H as [|p f ps fs Hp _ IH]; intros fixed free; [done|].
  unfold drift_cells in *. cbn. rewrite Hp. specialize (IH fixed (free + p)%float).
  destruct (drift_scan _ _ _ _) as [[[? ?] ?] ?]. by destruct IH as [-> ->].
Qed.

Lemma cell_probabilities_drift_cells ps fs :
  length ps = length fs -> cell_probability <$> drift_cells ps fs = ps.
Proof.
  unfold drift_cells. revert fs. induction ps as [|p ps IH]; intros [|f fs]; cbn; try done.
  intros [= H]. f_equal. by apply IH.
Qed.

(** C33. [Reprice] is total and its lines are always postable: with at least
    two selections, positive liquidity, valid opening lines and no negative
    stake it returns one line per selection, each a valid American price of
    magnitude at most [MaxOdds], whatever the exponential and the platform's
    float-to-int conversion produce; otherwise it prices nothing and reports,
    in this order, too few selections, liquidity that is not positive, or what
    is wrong with the first selection that cannot be priced: the error of its
    opening line, or, that line being valid, its negative stake. *)
Theorem Reprice_total Exp undef selections liquidity :
  match Reprice Exp undef selections liquidity with
  | Ok lines =>
      (2 <= length selections)%nat /\ 0 < liquidity /\ Forall priceable selections
      /\ length lines = length selections /\ Forall (fun l => posted_odds (SR_Odds l)) lines
  | Err e =>
      ((length selections < 2)%nat /\ e = ErrTooFewSelections)
      \/ ((2 <= length selections)%nat /\ liquidity <= 0 /\ e = ErrLiquidityNotPositive)
      \/ ((2 <= length selections)%nat /\ 0 < liquidity
          /\ exists good s rest, selections = good ++ s :: rest /\ Forall priceable good /\ unpriceable s e)
  end.
Proof.
  unfold Reprice. destruct (Z.ltb_spec (Z.of_nat (length selections)) 2) as [H2|H2]; cbn [fail_if mbind result_bind].
  { left. split; [lia|done]. }
  destruct (Z.leb_spec liquidity 0) as [Hl|Hl]; cbn [fail_if mbind result_bind].
  { right; left. split_and!; [lia|done|done]. }
  destruct (priors_loop selections (of_Z 0)) as [[priors overround]|e] eqn:Ep; cbn [mbind result_bind].
  2:{ right; right. split_and!; [lia|done|]. by eapply priors_loop_Err. }
  destruct (priors_loop_Ok _ _ _ Ep) as [Hf Hlen]. cbn [fst] in Hlen. cbv zeta.
  set (ps := fmap _ _). set (fs := driftFloors priors overround).
  assert (Hps : length ps = length selections).
  { unfold ps. rewrite length_fmap. apply length_zip_with_same. lia. }
  assert (Hfs : length fs = length selections) by (unfold fs, driftFloors; by rewrite length_fmap).
  destruct (drift_cells_start ps fs) as [Hc Hn].
  pose proof (drift_passes_spec (S (length ps)) overround (drift_cells ps fs) Hc ltac:(lia)) as Hd.
  destruct (price_loop_ok undef (applyDriftFloors ps fs overround) fs) as (rs & Hrs & Hrl & Hra).
  rewrite Hrs. split_and!; [lia|done|done| |done].
  rewrite Hrl. unfold applyDriftFloors. rewrite length_fmap.
  destruct (drift_passes _ _ _) as [out ret]. destruct Hd as (_ & _ & Hd). cbn [fst].
  assert (length out = length fs) as ->; [|lia].
  rewrite <- (length_fmap cell_floor), Hd, (cell_floors_drift_cells ps fs) by lia. done.
Qed.

(** C38. The drift floors hold.  For every vector of probabilities and floors
    of one length, [applyDriftFloors] terminates by its own exit and not by its
    pass bound, leaves no probability below its floor, and changes nothing
    when no probability was below its floor to begin with. *)
Theorem applyDriftFloors_respects_floors probabilities floors overround :
  length probabilities = length floors ->
  (drift_passes (S (length probabilities)) overround (drift_cells probabilities floors)).2 = true
  /\ Forall2 (fun p f => (p <? f)%float = false) (applyDriftFloors probabilities floors overround) floors
  /\ (Forall2 (fun p f => (p <? f)%float = false) probabilities floors ->
      applyDriftFloors probabilities floors overround = probabilities).
Proof.
  intros Hlen. destruct (drift_cells_start probabilities floors) as [Hc Hn].
  pose proof (drift_passes_spec (S (length probabilities)) overround _ Hc ltac:(lia)) as Hd.
  unfold applyDriftFloors. split; [|split].
  - destruct (drift_passes _ _ _). apply Hd.
  - destruct (drift_passes _ _ _) as [out ret]. destruct Hd as (_ & Ha & Hf). cbn [fst].
    apply Forall2_cells; [|exact Ha]. rewrite Hf. by apply cell_floors_drift_cells.
  - intros Hq. cbn [drift_passes].
    pose proof (drift_scan_quiet probabilities floors (of_Z 0) (of_Z 0) Hq) as Hs.
    destruct (drift_scan _ _ _ _) as [[[cells' ?] ?] newly]. destruct Hs as [-> ->]. cbn.
    by apply cell_probabilities_drift_cells.
Qed.

(** Two sides at 55% opening floors; all the money on the first. *)
Lemma applyDriftFloors_respects_floors_witness :
  let out := applyDriftFloors [fdiv (of_Z 9) (of_Z 10); fdiv (of_Z 1) (of_Z 5)]
               [fdiv (of_Z 1) (of_Z 2); fdiv (of_Z 51) (of_Z 100)] (fdiv (of_Z 11) (of_Z 10)) in
  Forall2 (fun p f => (p <? f)%float = false) out [fdiv (of_Z 1) (of_Z 2); fdiv (of_Z 51) (of_Z 100)]
  /\ nth 1 out (of_Z 0) = fdiv (of_Z 51) (of_Z 100).
Proof.
  cbv zeta. split; [|vm_compute; reflexivity].
  exact (proj1 (proj2 (applyDriftFloors_respects_floors
    [fdiv (of_Z 9) (of_Z 10); fdiv (of_Z 1) (of_Z 5)]
    [fdiv (of_Z 1) (of_Z 2); fdiv (of_Z 51) (of_Z 100)] (fdiv (of_Z 11) (of_Z 10)) eq_refl))).
Defined.

(** *** The round trip between prices and probabilities *)
Definition survives (undef : float -> Z) (o : AmericanOdds) : bool :=
  match AmericanFromProbability undef (ImpliedProbability o) with
  | Ok o' => o' =? o
  | Err _ => false
  end.
Fixpoint all_survive (undef : float -> Z) (start : Z) (n : nat) : bool :=
  match n with
  | O => true
  | S n => survives undef start && survives undef (- start - 1) && all_survive undef (start + 1) n
  end.

Lemma all_survive_spec undef start n o :
  all_survive undef start n = true ->
  start <= o < start + Z.of_nat n \/ start <= - o - 1 < start + Z.of_nat n -> survives undef o = true.
Proof.
  revert start. induction n as [|n IH]; intros start H Ho; [lia|]. cbn [all_survive] in H.
  apply andb_true_iff in H as [[H1 H2]%andb_true_iff H3].
  destruct (Z.eq_dec o start) as [->|]; [done|].
  destruct (Z.eq_dec o (- start - 1)) as [->|]; [done|].
  apply (IH _ H3). lia.
Qed.

Lemma survive_1000 undef : all_survive undef 100 901 = true.
Proof. vm_compute. reflexivity. Qed.

(** Converting a price to its implied probability and back returns the
    same price, for every American price from -1001 to +1000 except -100: even
    money has two spellings and comes back as +100. *)
Theorem ImpliedProbability_roundtrip undef o :
  -1001 <= o <= -100 \/ 100 <= o <= 1000 ->
  AmericanFromProbability undef (ImpliedProbability o) = Ok (if o =? -100 then 100 else o).
Proof.
  intros Ho. destruct (Z.eqb_spec o (-100)) as [->|Hne]; [vm_compute; reflexivity|].
  assert (H : survives undef o = true) by (apply (all_survive_spec undef 100 901); [apply survive_1000|lia]).
  unfold survives in H. destruct (AmericanFromProbability _ _) as [o'|]; [|done].
  by apply Z.eqb_eq in H as ->.
Qed.

Lemma ImpliedProbability_roundtrip_witness :
  AmericanFromProbability (fun _ => 0) (ImpliedProbability (-110)) = Ok (-110).
Proof. apply (ImpliedProbability_roundtrip (fun _ => 0) (-110)). lia. Defined.

(** With no stake anywhere an opening line of -100 comes back as +100 and one
    beyond [MaxOdds] comes back at [MaxOdds]; the other lines are unchanged. *)
Remark Reprice_no_stake_even_money :
  Reprice (fun _ => of_Z 1) (fun _ => 0)
    [mkSelectionInput (-100) 0; mkSelectionInput (-120) 0; mkSelectionInput 20000 0] 100000
  = Ok [mkSelectionResult 100; mkSelectionResult (-120); mkSelectionResult 10000].
Proof. vm_compute. reflexivity. Qed.
