(* ===== verification/Parlay.v ===== *)
(** * internal/betting: parlay.go and parlayprice.go *)
From Stdlib Require Import SpecFloat.
From S2P Require Import Prelude GoStrings GoTime Ledger Betting Placement Float64 Pricing.

(** ** parlayprice.go *)
Definition MinParlayLegs : Z := 2.
Definition MaxParlayLegs : Z := 8.
Definition MinParlayOdds : AmericanOdds := 100.

(** The leg loop of [ParlayOddsFor]. *)
Fixpoint legs_probability (legs : list AmericanOdds) (probability : float) : result float :=
  match legs with
  | [] => Ok probability
  | leg :: rest =>
      Odds_Validate leg;;
      legs_probability rest (probability * ImpliedProbability leg)%float
  end.

(** [for range legs[1:] { probability *= 1 + float64(juice)/10_000 }] *)
Definition apply_juice (legs : list AmericanOdds) (juiceBasisPoints : Z) (probability : float) : float :=
  foldl (fun p _ => p * (of_Z 1 + of_Z juiceBasisPoints / of_Z 10000))%float probability (drop 1 legs).

Record ParlayLeg := mkParlayLeg {
  PL_MarketID : ID;
  PL_SelectionID : ID;
  PL_AcceptedOdds : AmericanOdds;
  PL_AcceptedTerms : string;
  PL_MarketTitle : string;
  PL_Result : SettlementResult
}.

Record Parlay := mkParlay {
  Parlay_ID : ID;
  Parlay_UserID : ID;
  Parlay_Funding : FundingAccountType;
  Parlay_Stake : Money;
  Parlay_AcceptedOdds : AmericanOdds;
  Parlay_PotentialProfit : Money;
  Legs : list ParlayLeg;
  Parlay_State : WagerState;
  Parlay_IdempotencyKey : string;
  Parlay_PlacedBy : ID;
  Parlay_PlacedAt : Time
}.

Record PlaceParlayCommand := mkPlaceParlayCommand {
  PPC_ParlayID : ID;
  PPC_UserID : ID;
  PPC_Markets : list Market;
  PPC_Selections : list Selection;
  PPC_Restrictions : list Restriction;
  JuiceBasisPoints : Z;
  PPC_MaxPayoutCents : Z;
  PPC_PlacedBy : ID;
  PPC_Funding : FundingAccountType;
  PPC_Stake : Money;
  PPC_IdempotencyKey : string;
  PPC_Now : Time
}.

Record ParlayOutcome := mkParlayOutcome {
  PO_Result : SettlementResult;
  PO_Odds : AmericanOdds;
  PO_Stake : Money;
  PO_Profit : Money;
  Returns : Money
}.

(** The empty [SettlementResult] of a leg whose market has not settled. *)
Definition no_result : SettlementResult := ResultOther "".

(** One iteration of the leg loop of [PlaceParlay]: its guards in order. *)
Definition check_leg (command : PlaceParlayCommand) (now : Time) (seenMarkets : gset string)
    (market : Market) (selection : Selection) : result unit :=
  Market_Validate market;;
  Selection_Validate selection;;
  fail_if (negb (bool_decide (Selection_MarketID selection = Market_ID market))) ErrSelectionMismatch;;
  fail_if (negb (bool_decide (Market_Type market = MarketMatch))) ErrParlayMarketNotEligible;;
  fail_if (bool_decide (Market_ID market ∈ seenMarkets)) ErrParlayDuplicateMarket;;
  fail_if (negb (bool_decide (Market_State market = MarketOpen))) ErrMarketNotOpen;;
  fail_if (negb (IsZero (OpensAt market)) && Before now (OpensAt market)) ErrMarketNotOpen;;
  fail_if (negb (Before now (ClosesAt market))) ErrMarketNotOpen;;
  fail_if (negb (Active selection)) ErrSelectionInactive;;
  fail_if (existsb (fun r => Restricts r (PPC_UserID command) (Selection_ID selection))
             (PPC_Restrictions command)) ErrUserRestricted;;
  fail_if (negb (bool_decide (Money_Currency (PPC_Stake command) = Market_Currency market)))
    ErrCurrencyMismatch.

Definition snapshot_leg (market : Market) (selection : Selection) : ParlayLeg :=
  mkParlayLeg (Market_ID market) (Selection_ID selection) (OfferedAmericanOdds selection)
    (DisplayTerms selection) (Title market) no_result.

(** [for i, market := range command.Markets]; the two slices have the same
    length by the guard before the loop. *)
Fixpoint place_legs (command : PlaceParlayCommand) (now : Time) (seenMarkets : gset string)
    (pairs : list (Market * Selection)) : result (list ParlayLeg) :=
  match pairs with
  | [] => Ok []
  | (market, selection) :: rest =>
      check_leg command now seenMarkets market selection;;
      legs ← place_legs command now ({[Market_ID market]} ∪ seenMarkets) rest;
      Ok (snapshot_leg market selection :: legs)
  end.

(** The switch over the leg results of [GradeParlay]: the prices still
    standing, or [None] as soon as a lost leg is reached. *)
Fixpoint surviving_legs (legs : list ParlayLeg) : result (option (list AmericanOdds)) :=
  match legs with
  | [] => Ok (Some [])
  | leg :: rest =>
      match PL_Result leg with
      | ResultWin =>
          surviving ← surviving_legs rest;
          Ok (match surviving with Some s => Some (PL_AcceptedOdds leg :: s) | None => None end)
      | ResultLoss => Ok None
      | ResultPush | ResultVoid => surviving_legs rest
      | ResultOther _ => Err (invalidf "parlay leg %s has no result yet")
      end
  end.

Section parlay.
(** The platform's conversion of an unrepresentable float to int64. *)
Variable int64_undef : float -> Z.

Definition ParlayOddsFor (legs : list AmericanOdds) (juiceBasisPoints : Z) : result AmericanOdds :=
  fail_if (Z.of_nat (length legs) <? MinParlayLegs) ErrParlayTooFewLegs;;
  fail_if (MaxParlayLegs <? Z.of_nat (length legs)) ErrParlayTooManyLegs;;
  fail_if (juiceBasisPoints <? 0) (invalidf "parlay juice cannot be negative");;
  probability ← legs_probability legs (of_Z 1);
  let probability := apply_juice legs juiceBasisPoints probability in
  fail_if ((probability <=? of_Z 0)%float || (of_Z 1 <=? probability)%float) ErrParlayTooShort;;
  odds ← AmericanFromProbability int64_undef probability;
  fail_if (odds <? MinParlayOdds) ErrParlayTooShort;;
  Ok odds.

Definition survivingPrice (surviving : list AmericanOdds) (juiceBasisPoints : Z) : result AmericanOdds :=
  match surviving with
  | [odds] => Ok odds
  | _ => ParlayOddsFor surviving juiceBasisPoints
  end.

(** ** parlay.go *)
Definition PlaceParlay (command : PlaceParlayCommand) : result Parlay :=
  let stake := PPC_Stake command in
  fail_if (negb (validID (PPC_ParlayID command)) || negb (validID (PPC_UserID command)))
    (invalidf "a parlay needs a parlay ID and user ID");;
  fail_if (negb (bool_decide (length (PPC_Markets command) = length (PPC_Selections command))))
    (invalidf "every parlay leg needs both its market and its selection");;
  fail_if (Z.of_nat (length (PPC_Markets command)) <? MinParlayLegs) ErrParlayTooFewLegs;;
  fail_if (MaxParlayLegs <? Z.of_nat (length (PPC_Markets command))) ErrParlayTooManyLegs;;
  fail_if (IsZero (PPC_Now command)) (invalidf "placing a parlay requires the current time");;
  FundingAccountType_Validate (PPC_Funding command);;
  Money_Validate stake;;
  fail_if (Cents stake <=? 0) (invalidf "stake must be greater than zero");;
  fail_if (is_blank (PPC_IdempotencyKey command)) (invalidf "placing a parlay requires an idempotency key");;
  let now := UTC (PPC_Now command) in
  legs ← place_legs command now ∅ (zip (PPC_Markets command) (PPC_Selections command));
  price ← ParlayOddsFor (PL_AcceptedOdds <$> legs) (JuiceBasisPoints command);
  profit ← Profit price stake;
  fail_if (Cents profit <=? 0) (invalidf "stake is too small to win at least one cent at these odds");;
  fail_if ((0 <? PPC_MaxPayoutCents command) && (PPC_MaxPayoutCents command <? Cents profit))
    ErrPayoutAboveLimit;;
  Ok (mkParlay (PPC_ParlayID command) (PPC_UserID command) (PPC_Funding command) stake price profit
        legs WagerPending (TrimSpace (PPC_IdempotencyKey command)) (PPC_PlacedBy command) now).

Definition GradeParlay (parlay : Parlay) (juiceBasisPoints : Z) : result ParlayOutcome :=
  let stake := Parlay_Stake parlay in
  let none := mkMoney 0 (Money_Currency stake) in
  fail_if (bool_decide (Legs parlay = [])) (invalidf "a parlay has no legs to grade");;
  surviving ← surviving_legs (Legs parlay);
  match surviving with
  | None => Ok (mkParlayOutcome ResultLoss (Parlay_AcceptedOdds parlay) stake none none)
  | Some [] => Ok (mkParlayOutcome ResultPush (Parlay_AcceptedOdds parlay) stake none stake)
  | Some surviving =>
      price ← survivingPrice surviving juiceBasisPoints;
      profit ← Profit price stake;
      returns ← Money_Add stake profit;
      Ok (mkParlayOutcome ResultWin price stake profit returns)
  end.
End parlay.

(** ** Lemmas *)
Definition resolved (leg : ParlayLeg) : bool :=
  match PL_Result leg with ResultOther _ => false | _ => true end.
Definition leg_lost (leg : ParlayLeg) : bool := bool_decide (PL_Result leg = ResultLoss).
Definition leg_won (leg : ParlayLeg) : bool := bool_decide (PL_Result leg = ResultWin).
Definition won_odds (legs : list ParlayLeg) : list AmericanOdds :=
  PL_AcceptedOdds <$> List.filter leg_won legs.

Lemma surviving_legs_spec legs :
  forallb resolved legs = true ->
  surviving_legs legs = Ok (if existsb leg_lost legs then None else Some (won_odds legs)).
Proof.
  unfold won_odds. induction legs as [|[m s o t ti r] legs IH]; [done|]. cbn.
  intros [Hr Hl]%andb_true_iff. specialize (IH Hl). unfold resolved, leg_lost, leg_won in *. cbn in *.
  destruct r; cbn in *; try done; rewrite IH; cbn; by destruct (existsb _ legs).
Qed.

Lemma ParlayOddsFor_Ok undef legs juice o :
  ParlayOddsFor undef legs juice = Ok o ->
  (2 <= length legs <= 8)%nat /\ 100 <= o <= 10000 /\ 0 <= juice.
Proof.
  unfold ParlayOddsFor, MinParlayLegs, MaxParlayLegs, MinParlayOdds. intros H. go_inv. bool_prop.
  match goal with E : AmericanFromProbability _ ?p = Ok _ |- _ =>
    destruct (AmericanFromProbability_posted undef p) as (o' & Ho' & Hp) end.
  assert (o' = o) as -> by congruence. unfold posted_odds in Hp. lia.
Qed.

Lemma legs_probability_Ok legs p q :
  legs_probability legs p = Ok q -> Forall (fun o => o <= -100 \/ 100 <= o) legs.
Proof.
  revert p. induction legs as [|o legs IH]; intros p H; [constructor|]. cbn [legs_probability] in H. go_inv.
  apply Odds_Validate_Ok in Hok. constructor; eauto.
Qed.

(** What each leg of a placed parlay satisfies. *)
Record eligible_leg (c : PlaceParlayCommand) (m : Market) (s : Selection) : Prop := {
  lg_market : Market_Validate m = Ok ();
  lg_selection : Selection_Validate s = Ok ();
  lg_match : Selection_MarketID s = Market_ID m;
  lg_type : Market_Type m = MarketMatch;
  lg_open : Market_State m = MarketOpen;
  lg_window : in_window m (PPC_Now c);
  lg_active : Active s = true;
  lg_unrestricted : unrestricted (PPC_Restrictions c) (PPC_UserID c) (Selection_ID s);
  lg_currency : Market_Currency m = Money_Currency (PPC_Stake c)
}.

Lemma check_leg_Ok c seen m s u :
  check_leg c (UTC (PPC_Now c)) seen m s = Ok u <->
  eligible_leg c m s /\ Market_ID m ∉ seen.
Proof.
  split.
  - unfold check_leg. intros H. go_inv. repeat match goal with u : unit |- _ => destruct u end.
    match goal with E : existsb _ _ = false |- _ => apply restricts_unrestricted in E end.
    bool_prop. assert (in_window m (PPC_Now c)) by (apply window_guards; rewrite negb_false_iff; done).
    done.
  - intros [[] Hn]. destruct (proj2 (window_guards _ _) lg_window0) as [Hw1 Hw2]. destruct u.
    unfold check_leg. go_step; [exact lg_market0|]. go_step; [exact lg_selection0|].
    go_step; [by rewrite bool_decide_true|]. go_step; [by rewrite bool_decide_true|].
    go_step; [by rewrite bool_decide_false|]. go_step; [by rewrite bool_decide_true|].
    go_step; [exact Hw1|]. go_step; [exact Hw2|]. go_step; [by rewrite lg_active0|].
    go_step; [by apply restricts_unrestricted|]. by rewrite bool_decide_true.
Qed.

Lemma place_legs_Ok c seen pairs legs :
  place_legs c (UTC (PPC_Now c)) seen pairs = Ok legs <->
  legs = (fun p => snapshot_leg p.1 p.2) <$> pairs
  /\ Forall (fun p => eligible_leg c p.1 p.2) pairs
  /\ NoDup ((fun p => Market_ID p.1) <$> pairs)
  /\ Forall (fun p => Market_ID p.1 ∉ seen) pairs.
Proof.
  revert seen legs. induction pairs as [|[m s] pairs IH]; intros seen legs; cbn [place_legs].
  - cbn. split; [intros [= <-]; split_and!; constructor|intros (-> & _); done].
  - rewrite !fmap_cons, !Forall_cons, NoDup_cons. cbn [fst snd]. split.
    + intros H. go_inv. apply check_leg_Ok in Hok as [He Hn]. apply IH in Hok0 as (-> & Hf & Hnd & Hs).
      split_and!; try done.
      * intros Hin. apply list_elem_of_fmap in Hin as (p & Heq & Hp). rewrite Forall_forall in Hs.
        specialize (Hs p Hp). set_solver.
      * eapply Forall_impl; [exact Hs|]. intros p Hp. cbn in *. set_solver.
    + intros (-> & [He Hf] & [Hn Hnd] & [Hns Hs]). go_step; [by apply (check_leg_Ok _ _ _ _ ())|].
      go_step; [|reflexivity]. apply IH. split_and!; try done.
      apply Forall_forall. intros p Hp Hin. apply elem_of_union in Hin as [Hin|Hin].
      * apply elem_of_singleton in Hin. apply Hn, list_elem_of_fmap. eauto.
      * rewrite Forall_forall in Hs. by apply (Hs p).
Qed.

Definition parlay_pairs (c : PlaceParlayCommand) : list (Market * Selection) :=
  zip (PPC_Markets c) (PPC_Selections c).
Definition parlay_legs (c : PlaceParlayCommand) : list ParlayLeg :=
  (fun p => snapshot_leg p.1 p.2) <$> parlay_pairs c.

Record parlay_eligible (undef : float -> Z) (c : PlaceParlayCommand) (price : AmericanOdds) : Prop := {
  pe_ids : validID (PPC_ParlayID c) = true /\ validID (PPC_UserID c) = true;
  pe_pairs : length (PPC_Markets c) = length (PPC_Selections c);
  pe_count : (2 <= length (PPC_Markets c) <= 8)%nat;
  pe_now : IsZero (PPC_Now c) = false;
  pe_funding : FundingAccountType_Validate (PPC_Funding c) = Ok ();
  pe_currency : valid_currency (Money_Currency (PPC_Stake c)) = true;
  pe_key : is_blank (PPC_IdempotencyKey c) = false;
  pe_legs : Forall (fun p => eligible_leg c p.1 p.2) (parlay_pairs c);
  pe_distinct : NoDup ((fun p => Market_ID p.1) <$> parlay_pairs c);
  pe_price : ParlayOddsFor undef (PL_AcceptedOdds <$> parlay_legs c) (JuiceBasisPoints c) = Ok price;
  pe_stake : 0 < Cents (PPC_Stake c) <= MaxInt64 / fst (odds_ratio price);
  pe_profit : 0 < profit_spec price (Cents (PPC_Stake c));
  pe_payout : PPC_MaxPayoutCents c <= 0 \/ profit_spec price (Cents (PPC_Stake c)) <= PPC_MaxPayoutCents c
}.

Definition parlay_snapshot (c : PlaceParlayCommand) (price : AmericanOdds) : Parlay :=
  mkParlay (PPC_ParlayID c) (PPC_UserID c) (PPC_Funding c) (PPC_Stake c) price
    (mkMoney (profit_spec price (Cents (PPC_Stake c))) (Money_Currency (PPC_Stake c)))
    (parlay_legs c) WagerPending (TrimSpace (PPC_IdempotencyKey c)) (PPC_PlacedBy c) (UTC (PPC_Now c)).

Lemma PlaceParlay_spec undef c p :
  int64 (Cents (PPC_Stake c)) ->
  PlaceParlay undef c = Ok p <->
  exists price, parlay_eligible undef c price /\ 100 <= price <= 10000 /\ p = parlay_snapshot c price.
Proof.
  intros Hi. split.
  - unfold PlaceParlay, MinParlayLegs, MaxParlayLegs. cbv zeta. intros H. go_inv.
    repeat match goal with u : unit |- _ => destruct u end.
    match goal with E : place_legs _ _ _ _ = Ok _ |- _ => apply place_legs_Ok in E as (-> & Hl & Hnd & _) end.
    match goal with E : ParlayOddsFor _ _ _ = Ok ?o |- _ => rename E into Hprice; rename o into price end.
    pose proof (ParlayOddsFor_Ok _ _ _ _ Hprice) as (_ & Ho & _).
    match goal with E : Profit _ _ = Ok _ |- _ => apply Profit_iff in E as (_ & Hc & Hst & ->); [|lia|done] end.
    match goal with E : _ && _ = false |- _ => rewrite andb_false_iff, !Z.ltb_ge in E end.
    bool_prop. cbn [Cents] in *. exists price. split; [|done]. constructor; try done; lia.
  - intros (price & [] & Ho & ->). unfold PlaceParlay, MinParlayLegs, MaxParlayLegs. cbv zeta.
    destruct pe_ids0 as [Hid1 Hid2].
    go_step; [by rewrite Hid1, Hid2|]. go_step; [by rewrite bool_decide_true|].
    go_step; [apply Z.ltb_ge; lia|]. go_step; [apply Z.ltb_ge; lia|]. go_step; [done|].
    go_step; [exact pe_funding0|]. go_step; [by apply valid_currency_Ok|]. go_step; [apply Z.leb_gt; lia|].
    go_step; [done|].
    go_step; [apply place_legs_Ok; split_and!; [reflexivity|done|done|apply Forall_forall; set_solver]|].
    go_step; [exact pe_price0|].
    go_step; [apply Profit_iff; [lia|done|]; split_and!; [unfold valid_odds; lia|done|lia|lia|reflexivity]|].
    cbn [Cents]. go_step; [apply Z.leb_gt; lia|].
    go_step; [rewrite andb_false_iff, !Z.ltb_ge; lia|]. reflexivity.
Qed.


(** ** A placed parlay, once its legs have results *)
Definition set_PL_Result (l : ParlayLeg) (r : SettlementResult) : ParlayLeg :=
  mkParlayLeg (PL_MarketID l) (PL_SelectionID l) (PL_AcceptedOdds l) (PL_AcceptedTerms l) (PL_MarketTitle l) r.
Definition with_results (results : list SettlementResult) (p : Parlay) : Parlay :=
  mkParlay (Parlay_ID p) (Parlay_UserID p) (Parlay_Funding p) (Parlay_Stake p) (Parlay_AcceptedOdds p)
    (Parlay_PotentialProfit p) (zip_with set_PL_Result (Legs p) results)
    WagerAccepted (Parlay_IdempotencyKey p) (Parlay_PlacedBy p) (Parlay_PlacedAt p).

Definition final_result (r : SettlementResult) : bool := match r with ResultOther _ => false | _ => true end.
Definition is_win (r : SettlementResult) : bool := bool_decide (r = ResultWin).
Definition is_loss (r : SettlementResult) : bool := bool_decide (r = ResultLoss).

Section with_results.
Implicit Types (legs : list ParlayLeg) (results : list SettlementResult).

Lemma resolved_results legs results :
  forallb final_result results = true -> forallb resolved (zip_with set_PL_Result legs results) = true.
Proof.
  revert results. induction legs as [|l legs IH]; intros [|r results]; cbn; [done..|].
  intros [Hr H]%andb_true_iff. rewrite (IH _ H), andb_true_r. by destruct r.
Qed.
Lemma lost_results legs results :
  length legs = length results -> existsb leg_lost (zip_with set_PL_Result legs results) = existsb is_loss results.
Proof. revert results. induction legs as [|l legs IH]; intros [|r results]; cbn; [done..|]. intros [= Hl]. by rewrite IH. Qed.
Lemma won_all legs results :
  length legs = length results -> forallb is_win results = true ->
  won_odds (zip_with set_PL_Result legs results) = PL_AcceptedOdds <$> legs.
Proof.
  unfold won_odds, leg_won. revert results. induction legs as [|l legs IH]; intros [|r results]; cbn; [done..|].
  intros [= Hl] [Hr H]%andb_true_iff. unfold is_win in Hr. rewrite Hr. rewrite fmap_cons, IH; done.
Qed.
Lemma won_incl (P : AmericanOdds -> Prop) legs results :
  Forall P (PL_AcceptedOdds <$> legs) -> Forall P (won_odds (zip_with set_PL_Result legs results)).
Proof.
  unfold won_odds. rewrite !Forall_fmap. revert results.
  induction legs as [|l legs IH]; intros [|r results] H; cbn; try constructor. apply Forall_cons in H as [Hl H].
  destruct (leg_won _); [constructor; [done|]|]; by apply IH.
Qed.
Lemma won_length legs results : (length (won_odds (zip_with set_PL_Result legs results)) <= length legs)%nat.
Proof.
  unfold won_odds. rewrite length_fmap. revert results.
  induction legs as [|l legs IH]; intros [|r results]; cbn; [lia..|]. specialize (IH results). destruct (leg_won _); cbn; lia.
Qed.
Lemma won_nil legs results :
  length legs = length results -> existsb is_win results = negb (bool_decide (won_odds (zip_with set_PL_Result legs results) = [])).
Proof.
  unfold won_odds, leg_won. revert results. induction legs as [|l legs IH]; intros [|r results]; cbn; [done..|].
  intros [= Hl]. unfold is_win at 1. destruct (bool_decide (r = ResultWin)); cbn; [done|]. by rewrite IH.
Qed.
End with_results.

(** What refuses a price to two to eight valid legs. *)
Lemma ParlayOddsFor_Err undef (legs : list AmericanOdds) juice e :
  (2 <= length legs <= 8)%nat -> 0 <= juice -> Forall (fun o : AmericanOdds => o <= -100 \/ 100 <= o) legs ->
  ParlayOddsFor undef legs juice = Err e -> e = ErrParlayTooShort.
Proof.
  intros Hn Hj Hv. unfold ParlayOddsFor, MinParlayLegs, MaxParlayLegs.
  rewrite (proj2 (Z.ltb_ge (Z.of_nat (length legs)) 2)), (proj2 (Z.ltb_ge 8 _)), (proj2 (Z.ltb_ge juice 0)) by lia.
  cbn [fail_if mbind result_bind].
  assert (Hp : forall p, exists q, legs_probability legs p = Ok q).
  { clear -Hv. induction Hv as [|o legs Ho _ IH]; intros p; cbn [legs_probability]; [by eexists|].
    rewrite (proj2 (Odds_Validate_Ok _ ()) Ho). cbn [mbind result_bind]. apply IH. }
  destruct (Hp (of_Z 1)) as [q ->]. cbn [mbind result_bind]. destruct (_ || _); cbn [fail_if mbind result_bind]; [by intros [= <-]|].
  destruct (AmericanFromProbability_posted undef (apply_juice legs juice q)) as (o & -> & _). cbn [mbind result_bind].
  destruct (o <? _); cbn [fail_if mbind result_bind]; [by intros [= <-]|done].
Qed.

Lemma survivingPrice_many undef legs juice : (2 <= length legs)%nat -> survivingPrice undef legs juice = ParlayOddsFor undef legs juice.
Proof. destruct legs as [|? [|? ?]]; cbn; done || lia. Qed.
Lemma survivingPrice_valid undef legs juice o :
  Forall valid_odds legs -> survivingPrice undef legs juice = Ok o -> valid_odds o.
Proof.
  intros Hv Hs. destruct (decide (2 <= length legs)%nat) as [Hn|Hn].
  - rewrite survivingPrice_many in Hs by done. apply ParlayOddsFor_Ok in Hs. unfold valid_odds. lia.
  - destruct legs as [|o' [|? ?]]; [|by injection Hs as <-; apply Forall_cons in Hv as [? _]|cbn in Hn; lia].
    by apply ParlayOddsFor_Ok in Hs as [[? _] _].
Qed.

(** A price at which the stake, its profit and their sum are int64 values. *)
Definition payable (price : AmericanOdds) (stake : Z) : Prop :=
  stake <= MaxInt64 / fst (odds_ratio price) /\ stake + profit_spec price stake <= MaxInt64.

Lemma winnings_eq price stake :
  valid_odds price -> valid_currency (Money_Currency stake) = true -> 0 < Cents stake <= MaxInt64 ->
  let profit := mkMoney (profit_spec price (Cents stake)) (Money_Currency stake) in
  match (p ← Profit price stake; r ← Money_Add stake p; Ok (p, r)) with
  | Ok (p, r) => p = profit /\ r = mkMoney (Cents stake + Cents profit) (Money_Currency stake)
  | Err e => e = ErrAmountOverflow /\ ~ payable price (Cents stake)
  end.
Proof.
  intros Ho Hc Hs profit. rewrite Profit_eq by done. unfold payable.
  destruct (Z.ltb_spec (MaxInt64 / fst (odds_ratio price)) (Cents stake)) as [Hl|Hl]; cbn [mbind result_bind].
  { split; [done|]. lia. }
  pose proof (profit_spec_int64 price (Cents stake) Ho ltac:(lia)) as Hp.
  rewrite Money_Add_spec; [|unfold int64, MinInt64; cbn; lia..|done|done]. cbn [Cents].
  case_decide as Hi; cbn [mbind result_bind]; [done|]. split; [done|]. unfold int64, MinInt64 in Hi. lia.
Qed.

(** The potential profit of a placed parlay can be paid. *)
Lemma placed_payable price stake : 100 <= price <= 10000 -> 0 < stake <= MaxInt64 / fst (odds_ratio price) -> payable price stake.
Proof.
  intros Ho Hs. split; [lia|]. unfold odds_ratio, profit_spec in *. unfold odds_ratio. rewrite (proj2 (Z.ltb_lt 0 price)) in * by lia.
  cbn [fst] in Hs. cbv beta iota. pose proof (Z.mul_div_le MaxInt64 price ltac:(lia)).
  assert (stake * price <= MaxInt64) by nia.
  assert (stake * 100 <= stake * price) by (apply Z.mul_le_mono_nonneg_l; lia).
  assert (100 * ((2 * (stake * price) + 100) / (2 * 100)) <= stake * price + 50).
  { pose proof (Z.mul_div_le (2 * (stake * price) + 100) (2 * 100) ltac:(lia)). lia. }
  destruct Hs as [Hs _]. generalize dependent ((2 * (stake * price) + 100) / (2 * 100)). generalize dependent (stake * price).
  unfold MaxInt64. lia.
Qed.

(** The legs of a placed parlay. *)
Lemma length_parlay_legs c : length (PPC_Markets c) = length (PPC_Selections c) -> length (parlay_legs c) = length (PPC_Markets c).
Proof. intros Hl. unfold parlay_legs, parlay_pairs. rewrite length_fmap, length_zip_with. lia. Qed.
Lemma placed_odds c :
  Forall (fun p => eligible_leg c p.1 p.2) (parlay_pairs c) ->
  Forall (fun s => -2147483648 <= OfferedAmericanOdds s <= 2147483647) (PPC_Selections c) ->
  Forall valid_odds (PL_AcceptedOdds <$> parlay_legs c).
Proof.
  unfold parlay_legs. intros Hl Hs. rewrite !Forall_fmap. apply Forall_forall. intros [m s] Hin. cbn.
  rewrite Forall_forall in Hl. rewrite Forall_forall in Hs.
  destruct (Selection_Validate_facts _ _ (lg_selection _ _ _ (Hl _ Hin))) as (_ & Ho & _).
  split; [|done]. by eapply Hs, elem_of_zip_r.
Qed.

(** C40. A parlay the book wrote grades as it was sold.  Give the legs of a
    parlay that [PlaceParlay] returned, for an int64 stake and int32 prices, any
    final results, and grade it with the juice it was placed with.  One lost leg
    loses it and returns nothing; if no leg won and none lost the stake comes
    back; if every leg won it pays, at the accepted price, exactly the potential
    profit it was sold with, and returns stake and profit; and if some legs
    dropped out it pays the price of the legs that won, one leg at its own price
    and several at the book's parlay price.  Only in the last case can grading
    fail: when two or more survivors combine to a price the book does not write,
    which is [ErrParlayTooShort], or when what is to be paid overflows int64. *)
Theorem placed_parlays_grade_as_sold undef c p results :
  int64 (Cents (PPC_Stake c)) -> Forall (fun s => -2147483648 <= OfferedAmericanOdds s <= 2147483647) (PPC_Selections c) ->
  PlaceParlay undef c = Ok p ->
  length results = length (Legs p) -> forallb final_result results = true ->
  let stake := Parlay_Stake p in
  let won := won_odds (Legs (with_results results p)) in
  let paid price o := PO_Result o = ResultWin /\ PO_Odds o = price
    /\ PO_Profit o = mkMoney (profit_spec price (Cents stake)) (Money_Currency stake)
    /\ Returns o = mkMoney (Cents stake + Cents (PO_Profit o)) (Money_Currency stake) in
  match GradeParlay undef (with_results results p) (JuiceBasisPoints c) with
  | Ok o =>
      PO_Stake o = stake /\
      if existsb is_loss results then PO_Result o = ResultLoss /\ Cents (Returns o) = 0 /\ Cents (PO_Profit o) = 0
      else if negb (existsb is_win results) then PO_Result o = ResultPush /\ Returns o = stake /\ Cents (PO_Profit o) = 0
      else if forallb is_win results then paid (Parlay_AcceptedOdds p) o /\ PO_Profit o = Parlay_PotentialProfit p
      else exists price, survivingPrice undef won (JuiceBasisPoints c) = Ok price /\ paid price o
  | Err e =>
      existsb is_loss results = false /\ existsb is_win results = true /\ forallb is_win results = false
      /\ (((2 <= length won)%nat /\ ParlayOddsFor undef won (JuiceBasisPoints c) = Err e /\ e = ErrParlayTooShort)
          \/ (e = ErrAmountOverflow
              /\ exists price, survivingPrice undef won (JuiceBasisPoints c) = Ok price /\ ~ payable price (Cents stake)))
  end.
Proof.
  intros Hi Ho32 Hplace Hlen Hfinal stake won paid.
  apply PlaceParlay_spec in Hplace as (price & Hel & Hprice & ->); [|done].
  set (p := parlay_snapshot c price) in *. destruct Hel as [_ Hpairs Hcount _ _ Hcur _ Hlegs _ Hodds Hst _ _].
  assert (Hstake : 0 < Cents stake <= MaxInt64) by (unfold stake, int64 in *; cbn; lia).
  assert (Hvalid : Forall valid_odds won) by by eapply won_incl, placed_odds.
  assert (Hlegs_n : length (Legs p) = length (PPC_Markets c)) by by apply length_parlay_legs.
  assert (Hn : (length won <= 8)%nat) by (pose proof (won_length (Legs p) results : (length won <= _)%nat); lia).
  unfold GradeParlay. change (Legs (with_results results p)) with (zip_with set_PL_Result (Legs p) results).
  rewrite bool_decide_false by (rewrite <- length_zero_iff_nil, length_zip_with; lia).
  cbn [fail_if mbind result_bind]. rewrite surviving_legs_spec by by apply resolved_results.
  rewrite lost_results by done. cbn [mbind result_bind].
  rewrite (won_nil (Legs p)) by done.
  change (won_odds (zip_with set_PL_Result (Legs p) results)) with won.
  destruct (existsb is_loss results); [done|].
  assert (Hall : forallb is_win results = true -> survivingPrice undef won (JuiceBasisPoints c) = Ok price).
  { intros Hw. unfold won. change (Legs (with_results results p)) with (zip_with set_PL_Result (Legs p) results).
    rewrite won_all by done. rewrite survivingPrice_many; [done|].
    rewrite length_fmap. lia. }
  clearbody won. destruct won as [|o rest]; [rewrite bool_decide_true by done; cbn; by split_and!|].
  rewrite bool_decide_false by done. cbn [negb].
  assert (Hj : 0 <= JuiceBasisPoints c) by (apply ParlayOddsFor_Ok in Hodds; lia).
  destruct (survivingPrice undef (o :: rest) (JuiceBasisPoints c)) as [price'|e] eqn:Es; cbn [mbind result_bind].
  2:{ split_and!; [done|done|by destruct (forallb is_win results); [discriminate Hall|]|left].
      destruct rest as [|o' rest]; [done|]. cbn in Hn. split_and!; [cbn; lia|exact Es|].
      eapply ParlayOddsFor_Err; [|exact Hj| |exact Es]; [cbn; lia|]. eapply Forall_impl; [exact Hvalid|]. by intros x [_ ?]. }
  assert (Hv : valid_odds price') by by eapply survivingPrice_valid.
  pose proof (winnings_eq price' stake Hv Hcur Hstake) as Hw. change (Parlay_Stake (with_results results p)) with stake.
  destruct (Profit price' stake) as [profit|e]; cbn [mbind result_bind] in *.
  2:{ destruct Hw as [-> Hw]. split_and!; [done|done| |right; split; [done|by exists price']].
      destruct (forallb is_win results); [|done]. injection (Hall eq_refl) as ->. by destruct Hw; apply placed_payable. }
  destruct (Money_Add stake profit) as [returns|e]; cbn [mbind result_bind] in *.
  2:{ destruct Hw as [-> Hw]. split_and!; [done|done| |right; split; [done|by exists price']].
      destruct (forallb is_win results); [|done]. injection (Hall eq_refl) as ->. by destruct Hw; apply placed_payable. }
  destruct Hw as [-> ->]. split; [done|]. destruct (forallb is_win results).
  - injection (Hall eq_refl) as ->. done.
  - exists price'. done.
Qed.

(** ** Concrete parlays *)
Definition pl_uuid (last : string) : string := ("00000000-0000-4000-8000-00000000000" ++ last)%string.
Definition pl_now : Time := mkTime 63900000000000000000 true.
Definition pl_market (n : string) : Market :=
  mkMarket (pl_uuid n) MarketMatch ("match-" ++ n)%string ("Match " ++ n)%string MarketOpen "CAD" zeroTime
    (TimeAdd pl_now Hour).
Definition pl_selection (n : string) (o : AmericanOdds) : Selection :=
  mkSelection ("s" ++ n)%string (pl_uuid n) "side-one" ("Side one of match " ++ n)%string o "" true.
(** Two -300 favourites and a +200 underdog at the default juice. *)
Definition pl_command : PlaceParlayCommand :=
  mkPlaceParlayCommand (pl_uuid "0") "alice" [pl_market "1"; pl_market "2"; pl_market "3"]
    [pl_selection "1" (-300); pl_selection "2" (-300); pl_selection "3" 200]
    [] 350 0 "" FundingUserCash (mkMoney 1000 "CAD") "key-1" pl_now.


(** With every leg won it pays what it was sold for; with one leg won and the
    others dropped, that leg's own price. *)
Lemma placed_parlays_grade_as_sold_witness :
  exists p, PlaceParlay (fun _ => 0) pl_command = Ok p
    /\ (exists o, GradeParlay (fun _ => 0) (with_results [ResultWin; ResultWin; ResultWin] p) 350 = Ok o
         /\ PO_Odds o = Parlay_AcceptedOdds p /\ PO_Profit o = Parlay_PotentialProfit p)
    /\ (exists o, GradeParlay (fun _ => 0) (with_results [ResultWin; ResultPush; ResultVoid] p) 350 = Ok o
         /\ PO_Odds o = -300 /\ Cents (PO_Profit o) = 333).
Proof.
  destruct (PlaceParlay (fun _ => 0) pl_command) as [p|e] eqn:E; [|vm_compute in E; discriminate E].
  exists p. split; [reflexivity|].
  assert (Hi : int64 (Cents (PPC_Stake pl_command))) by (unfold int64, MinInt64, MaxInt64; cbn; lia).
  assert (Ho : Forall (fun s => -2147483648 <= OfferedAmericanOdds s <= 2147483647) (PPC_Selections pl_command))
    by (repeat constructor; cbn; lia).
  assert (Hl : length (Legs p) = 3%nat) by (vm_compute in E; injection E as <-; reflexivity).
  split.
  - pose proof (placed_parlays_grade_as_sold (fun _ => 0) pl_command p [ResultWin; ResultWin; ResultWin] Hi Ho E (eq_sym Hl) eq_refl) as H.
    change (JuiceBasisPoints pl_command) with 350 in H. destruct (GradeParlay _ _ 350) as [o|e]; [|destruct H as (_ & _ & H & _); vm_compute in H; discriminate H].
    destruct H as [_ [(_ & H1 & _) H2]]. exists o. exact (conj eq_refl (conj H1 H2)).
  - pose proof (placed_parlays_grade_as_sold (fun _ => 0) pl_command p [ResultWin; ResultPush; ResultVoid] Hi Ho E (eq_sym Hl) eq_refl) as H.
    change (JuiceBasisPoints pl_command) with 350 in H.
    assert (Hw : won_odds (Legs (with_results [ResultWin; ResultPush; ResultVoid] p)) = [-300]) by (vm_compute in E; injection E as <-; reflexivity).
    assert (Hs : Parlay_Stake p = mkMoney 1000 "CAD") by (vm_compute in E; injection E as <-; reflexivity).
    rewrite Hw, Hs in H. destruct (GradeParlay _ _ 350) as [o|e].
    + destruct H as [_ (price & [= <-] & _ & H1 & H2 & _)]. exists o. rewrite H2. split; [reflexivity|]. split; [exact H1|reflexivity].
    + exfalso. destruct H as (_ & _ & _ & [[H _]|(_ & price & [= <-] & H)]); [cbn in H; lia|].
      apply H. split; vm_compute; discriminate.
Defined.

(** A parlay the book wrote can become one it cannot grade: when the underdog's
    match pushes and both favourites win, the survivors combine to shorter
    than even money and the winner is not paid. *)
Example pushed_leg_can_strand_a_parlay :
  exists p, PlaceParlay (fun _ => 0) pl_command = Ok p
    /\ GradeParlay (fun _ => 0) (with_results [ResultWin; ResultWin; ResultPush] p) 350
       = Err ErrParlayTooShort.
Proof.
  destruct (PlaceParlay (fun _ => 0) pl_command) as [p|e] eqn:E; [|vm_compute in E; discriminate E].
  exists p. split; [reflexivity|]. vm_compute in E. injection E as <-. vm_compute. reflexivity.
Qed.
