(* ===== verification/Competition.v ===== *)
(** * internal/competition: types.go, errors.go and events.go

    Events, teams, match formats, results and the facts a match emits. *)
From S2P Require Import Prelude GoStrings GoTime.

(** ** errors.go *)
Definition ErrInvalid := Sentinel "competition.ErrInvalid".
Definition ErrInvalidTransition := Sentinel "competition.ErrInvalidTransition".
Definition ErrUnauthorized := Sentinel "competition.ErrUnauthorized".
Definition ErrOwnSubmission := Sentinel "competition.ErrOwnSubmission".
Definition ErrNotOpposingSide := Sentinel "competition.ErrNotOpposingSide".
Definition ErrReasonRequired := Sentinel "competition.ErrReasonRequired".
Definition ErrNotFound := Sentinel "competition.ErrNotFound".
Definition ErrAlreadyExists := Sentinel "competition.ErrAlreadyExists".
Definition ErrIdempotencyConflict := Sentinel "competition.ErrIdempotencyConflict".
Definition ErrResultUnchanged := Sentinel "competition.ErrResultUnchanged".

Definition invalidf (format : string) : error := Wrapf format ErrInvalid.

(** ** types.go *)
Definition ID := string.
Definition validID (id : ID) : bool := negb (is_blank id).

Inductive Role := RoleMember | RoleAdmin | RoleOwner | RoleOther (text : string).
#[export] Instance Role_eq_dec : EqDecision Role.
Proof. solve_decision. Defined.

Definition Role_valid (r : Role) : bool := match r with RoleOther _ => false | _ => true end.
Definition privileged (r : Role) : bool := match r with RoleAdmin | RoleOwner => true | _ => false end.

Record Actor := mkActor { Actor_UserID : ID; Actor_PlayerID : ID; Actor_Role : Role }.

Definition Actor_validate (a : Actor) : result unit :=
  fail_if (negb (validID (Actor_UserID a)) || negb (Role_valid (Actor_Role a)))
    (invalidf "actor must have a user ID and valid role").

Record Player := mkPlayer { Player_ID : ID; LinkedUser : ID; DisplayName : string }.

Definition NewPlayer (id : ID) (displayName : string) (linkedUser : ID) : result Player :=
  let displayName := TrimSpace displayName in
  fail_if (negb (validID id) || bool_decide (displayName = ""%string))
    (invalidf "player must have an ID and display name");;
  Ok (mkPlayer id linkedUser displayName).

Inductive EventState := EventScheduled | EventActive | EventCompleted | EventStateOther (text : string).
#[export] Instance EventState_eq_dec : EqDecision EventState.
Proof. solve_decision. Defined.
Definition EventState_text (s : EventState) : string :=
  match s with
  | EventScheduled => "scheduled" | EventActive => "active" | EventCompleted => "completed"
  | EventStateOther text => text
  end.

Record CompetitionEvent := mkCompetitionEvent {
  CE_ID : ID; Name : string; Venue : string; StartsAt : Time; EndsAt : Time; CE_State : EventState
}.

Definition NewCompetitionEvent (id : ID) (name venue : string) (startsAt endsAt : Time)
    : result CompetitionEvent :=
  let name := TrimSpace name in
  let venue := TrimSpace venue in
  fail_if (negb (validID id) || bool_decide (name = ""%string) || bool_decide (venue = ""%string)
           || IsZero startsAt || IsZero endsAt || Before endsAt startsAt)
    (invalidf "event requires an ID, name, venue, and valid date range");;
  Ok (mkCompetitionEvent id name venue (UTC startsAt) (UTC endsAt) EventScheduled).

Definition Transition (e : CompetitionEvent) (to : EventState) : result CompetitionEvent :=
  let allowed := (bool_decide (CE_State e = EventScheduled) && bool_decide (to = EventActive))
                 || (bool_decide (CE_State e = EventActive) && bool_decide (to = EventCompleted)) in
  fail_if (negb allowed)
    (TransitionError ("transition event to " ++ EventState_text to) (EventState_text (CE_State e)) ErrInvalidTransition);;
  Ok (mkCompetitionEvent (CE_ID e) (Name e) (Venue e) (StartsAt e) (EndsAt e) to).

Record Team := mkTeam {
  Team_ID : ID; Team_EventID : ID; Team_Name : string; Members : list ID; CaptainIDs : list ID
}.

(** The two loops of [NewTeam], with the set built so far. *)
Fixpoint team_members (members : list ID) (memberSet : gset string) : result (gset string) :=
  match members with
  | [] => Ok memberSet
  | member :: rest =>
      fail_if (negb (validID member)) (invalidf "team member ID cannot be empty");;
      fail_if (bool_decide (member ∈ memberSet)) (invalidf "player %q appears more than once on team");;
      team_members rest ({[member]} ∪ memberSet)
  end.
Fixpoint team_captains (memberSet : gset string) (captains : list ID) (captainSet : gset string)
    : result (gset string) :=
  match captains with
  | [] => Ok captainSet
  | captain :: rest =>
      fail_if (negb (bool_decide (captain ∈ memberSet))) (invalidf "captain %q is not a team member");;
      fail_if (bool_decide (captain ∈ captainSet)) (invalidf "captain %q appears more than once");;
      team_captains memberSet rest ({[captain]} ∪ captainSet)
  end.

Definition NewTeam (id eventID : ID) (name : string) (members captains : list ID) : result Team :=
  let name := TrimSpace name in
  fail_if (negb (validID id) || negb (validID eventID) || bool_decide (name = ""%string)
           || bool_decide (members = []))
    (invalidf "team requires IDs, a name, and at least one member");;
  memberSet ← team_members members ∅;
  fail_if (bool_decide (captains = [])) (invalidf "team requires at least one captain");;
  team_captains memberSet captains ∅;;
  Ok (mkTeam id eventID name members captains).

Definition contains (l : list ID) (x : ID) : bool := existsb (fun y => bool_decide (y = x)) l.
Definition hasMember (t : Team) (playerID : ID) : bool := contains (Members t) playerID.
Definition hasCaptain (t : Team) (playerID : ID) : bool := contains (CaptainIDs t) playerID.

Inductive MatchFormat :=
  | FormatSingles | FormatFourball | FormatFoursomes | FormatScramble | FormatOther
  | FormatUnknown (text : string).

Record ParticipantRule := mkParticipantRule { MinPerSide : Z; MaxPerSide : Z }.

Definition ParticipantRuleFor (format : MatchFormat) : result ParticipantRule :=
  match format with
  | FormatSingles => Ok (mkParticipantRule 1 1)
  | FormatFourball | FormatFoursomes | FormatScramble => Ok (mkParticipantRule 2 2)
  | FormatOther => Ok (mkParticipantRule 1 0)
  | FormatUnknown _ => Err (invalidf "match format %q is not supported")
  end.

Definition ValidateParticipantCounts (format : MatchFormat) (sideOneCount sideTwoCount : Z) : result unit :=
  rule ← ParticipantRuleFor format;
  if (sideOneCount <? MinPerSide rule) || (sideTwoCount <? MinPerSide rule) then
    Err (if MaxPerSide rule =? MinPerSide rule
         then invalidf "%s matches require exactly %d %s per side; create missing players first"
         else invalidf "%s matches require at least %d %s per side; create missing players first")
  else
    fail_if ((0 <? MaxPerSide rule)
             && ((MaxPerSide rule <? sideOneCount) || (MaxPerSide rule <? sideTwoCount)))
      (invalidf "%s matches require exactly %d %s per side").

Record MatchSide := mkMatchSide { Side_ID : ID; TeamID : ID; Participants : list ID }.
Record MatchSpec := mkMatchSpec {
  Spec_ID : ID; Spec_EventID : ID; Format : MatchFormat;
  SideOne : MatchSide; SideTwo : MatchSide; Scheduled : Time
}.

Inductive ResultOutcome := OutcomeSideWin | OutcomeTie | OutcomeOther (text : string).
#[export] Instance ResultOutcome_eq_dec : EqDecision ResultOutcome.
Proof. solve_decision. Defined.
Definition ResultOutcome_text (o : ResultOutcome) : string :=
  match o with OutcomeSideWin => "side_win" | OutcomeTie => "tie" | OutcomeOther text => text end.

Record Result := mkResult { Outcome : ResultOutcome; WinningSideID : ID; Score : string }.
#[export] Instance Result_eq_dec : EqDecision Result.
Proof. solve_decision. Defined.

Definition normalized (r : Result) : Result := mkResult (Outcome r) (WinningSideID r) (TrimSpace (Score r)).

Definition Result_validate (r : Result) (sideOne sideTwo : ID) : result unit :=
  let r := normalized r in
  match Outcome r with
  | OutcomeSideWin =>
      fail_if (negb (bool_decide (WinningSideID r = sideOne)) && negb (bool_decide (WinningSideID r = sideTwo)))
        (invalidf "winning side must belong to the match")
  | OutcomeTie =>
      fail_if (validID (WinningSideID r)) (invalidf "a tied result cannot have a winning side")
  | OutcomeOther _ => Err (invalidf "result outcome %q is not supported")
  end.

Definition Result_equal (r other : Result) : bool := bool_decide (normalized r = normalized other).

(** ** events.go *)
Definition EventMatchResultSubmitted : string := "MatchResultSubmitted.v1".
Definition EventMatchResultDisputed : string := "MatchResultDisputed.v1".
Definition EventMatchResultVerified : string := "MatchResultVerified.v1".
Definition EventMatchResultCorrected : string := "MatchResultCorrected.v1".

Record DomainEvent := mkDomainEvent {
  DE_Type : string;
  DE_MatchID : ID;
  CompetitionEventID : ID;
  DE_SubmissionID : ID;
  DE_VerificationID : ID;
  PreviousVerificationID : ID;
  DE_ActorUserID : ID;
  DE_Result : Result;
  DE_Reason : string;
  DE_OccurredAt : Time
}.

(** ** Lemmas *)
Lemma contains_spec l x : contains l x = true <-> x ∈ l.
Proof.
  unfold contains. induction l as [|y l IH]; cbn; [set_solver|].
  rewrite orb_true_iff, IH, bool_decide_eq_true, elem_of_cons. naive_solver.
Qed.

Lemma normalized_idem r : normalized (normalized r) = normalized r.
Proof. unfold normalized. cbn [Outcome WinningSideID Score]. by rewrite TrimSpace_idem. Qed.

Lemma Result_equal_spec r other : Result_equal r other = true <-> normalized r = normalized other.
Proof. apply bool_decide_eq_true. Qed.

Lemma team_members_Ok members set s :
  team_members members set = Ok s <->
  s = list_to_set members ∪ set /\ Forall (fun m => validID m = true) members
  /\ NoDup members /\ (forall m, m ∈ members -> m ∉ set).
Proof.
  revert set. induction members as [|m members IH]; intros set; cbn [team_members].
  - cbn. split; [intros [= <-]; split_and!; [set_solver|constructor|constructor|set_solver]|].
    intros (-> & _). f_equal. set_solver.
  - rewrite Forall_cons, NoDup_cons. split.
    + intros H. go_inv. bool_prop. apply IH in H as (-> & Hv & Hnd & Hs). cbn.
      split_and!; try done; [set_solver|intros Hin; specialize (Hs m Hin); set_solver|].
      intros x [->|Hx]%elem_of_cons; [done|]. specialize (Hs x Hx). set_solver.
    + intros (-> & [Hm Hv] & [Hn Hnd] & Hs). go_step; [by rewrite Hm|].
      go_step; [apply bool_decide_eq_false, Hs; set_solver|].
      apply IH. cbn. split_and!; try done; [set_solver|].
      intros x Hx. specialize (Hs x ltac:(set_solver)). set_solver.
Qed.

Lemma team_captains_Ok ms captains set s :
  team_captains ms captains set = Ok s <->
  s = list_to_set captains ∪ set /\ Forall (fun c => c ∈ ms) captains
  /\ NoDup captains /\ (forall c, c ∈ captains -> c ∉ set).
Proof.
  revert set. induction captains as [|m captains IH]; intros set; cbn [team_captains].
  - cbn. split; [intros [= <-]; split_and!; [set_solver|constructor|constructor|set_solver]|].
    intros (-> & _). f_equal. set_solver.
  - rewrite Forall_cons, NoDup_cons. split.
    + intros H. go_inv. bool_prop. apply IH in H as (-> & Hv & Hnd & Hs). cbn.
      split_and!; try done; [set_solver|intros Hin; specialize (Hs m Hin); set_solver|].
      intros x [->|Hx]%elem_of_cons; [done|]. specialize (Hs x Hx). set_solver.
    + intros (-> & [Hm Hv] & [Hn Hnd] & Hs). go_step; [by rewrite bool_decide_true|].
      go_step; [apply bool_decide_eq_false, Hs; set_solver|].
      apply IH. cbn. split_and!; try done; [set_solver|].
      intros x Hx. specialize (Hs x ltac:(set_solver)). set_solver.
Qed.

(** A team is created exactly from usable data: IDs, a name that is not
    blank, a non-empty list of distinct named members, and a non-empty list of
    distinct captains who are all members; the stored name is trimmed and the
    rosters are kept in order. *)
Theorem NewTeam_iff id eventID name members captains t :
  NewTeam id eventID name members captains = Ok t <->
  validID id = true /\ validID eventID = true /\ is_blank name = false
  /\ members <> [] /\ Forall (fun m => validID m = true) members /\ NoDup members
  /\ captains <> [] /\ Forall (fun c => c ∈ members) captains /\ NoDup captains
  /\ t = mkTeam id eventID (TrimSpace name) members captains.
Proof.
  unfold NewTeam. cbv zeta. split.
  - intros H. go_inv.
    match goal with E : team_members _ _ = Ok _ |- _ => apply team_members_Ok in E as (-> & Hv & Hnd & _) end.
    match goal with E : team_captains _ _ _ = Ok _ |- _ => apply team_captains_Ok in E as (-> & Hc & Hcd & _) end.
    bool_prop. split_and!; try done; [by apply bool_decide_eq_false|].
    eapply Forall_impl; [exact Hc|]. intros x Hx. cbn in Hx. set_solver.
  - intros (H1 & H2 & H3 & H4 & H5 & H6 & H7 & H8 & H9 & ->). unfold is_blank in H3.
    go_step; [by rewrite H1, H2, H3, bool_decide_false|].
    go_step; [apply team_members_Ok; split_and!; [reflexivity|done|done|set_solver]|].
    go_step; [by rewrite bool_decide_false|].
    go_step; [apply team_captains_Ok; split_and!; [reflexivity| |done|set_solver]|reflexivity].
    eapply Forall_impl; [exact H8|]. intros x Hx. cbn in Hx. set_solver.
Qed.
