(* ===== verification/Match.v ===== *)
(** * internal/competition/match.go: the match aggregate

    Every method runs under the aggregate's mutex, so a match is a sequence of
    commands; a method mutates the aggregate only after its last guard, so a
    command is a function from a match to a new match with its events, or an
    error that leaves the match as it was. *)
From S2P Require Import Prelude GoStrings GoTime Competition.

Inductive MatchState := MatchAwaitingResult | MatchAwaitingConfirmation | MatchDisputed | MatchVerified.
#[export] Instance MatchState_eq_dec : EqDecision MatchState.
Proof. solve_decision. Defined.
Definition MatchState_text (s : MatchState) : string :=
  match s with
  | MatchAwaitingResult => "awaiting_result" | MatchAwaitingConfirmation => "awaiting_confirmation"
  | MatchDisputed => "disputed" | MatchVerified => "verified"
  end.

Inductive SubmissionState := SubmissionPending | SubmissionConfirmed | SubmissionDisputed | SubmissionSuperseded.
#[export] Instance SubmissionState_eq_dec : EqDecision SubmissionState.
Proof. solve_decision. Defined.

Inductive ConfirmationDecision := DecisionConfirmed | DecisionDisputed.
Inductive VerificationMethod := VerificationOpponent | VerificationAdmin | VerificationCorrection.

Record ResultSubmission := mkSubmission {
  Sub_ID : ID;
  SubmitterUser : ID;
  SubmitterPlayer : ID;
  SubmitterSide : ID;
  Sub_Result : Result;
  Sub_State : SubmissionState;
  SubmittedAt : Time
}.

Record ResultConfirmation := mkConfirmation {
  Conf_ID : ID;
  Conf_SubmissionID : ID;
  Conf_ActorUserID : ID;
  ActorSideID : ID;
  Decision : ConfirmationDecision;
  Conf_Reason : string;
  DecidedAt : Time
}.

Record VerifiedResult := mkVerified {
  Ver_ID : ID;
  Version : Z;
  Ver_Result : Result;
  Method : VerificationMethod;
  Ver_ActorUserID : ID;
  Ver_Reason : string;
  Ver_SubmissionID : ID;
  SupersedesID : ID;
  VerifiedAt : Time
}.

(** The mutex is the sequencing of commands; [commandRecord] is its
    fingerprint. *)
Record Match := mkMatch {
  spec : MatchSpec;
  teams : Team * Team;
  state : MatchState;
  submissions : list ResultSubmission;
  confirmations : list ResultConfirmation;
  verifiedResults : list VerifiedResult;
  commands : gmap string string
}.

(** ** NewMatch *)

(** The inner loop over one side's participants, with the set seen so far. *)
Fixpoint check_participants (team : Team) (participants : list ID) (seen : gset string)
    : result (gset string) :=
  match participants with
  | [] => Ok seen
  | participant :: rest =>
      fail_if (negb (hasMember team participant)) (invalidf "participant %q is not on team %q");;
      fail_if (bool_decide (participant ∈ seen)) (invalidf "participant %q appears on both sides");;
      check_participants team rest ({[participant]} ∪ seen)
  end.

Definition NewMatch (s : MatchSpec) (sideOneTeam sideTwoTeam : Team) : result Match :=
  fail_if (negb (validID (Spec_ID s)) || negb (validID (Spec_EventID s)) || IsZero (Scheduled s))
    (invalidf "match requires IDs and a scheduled time");;
  ParticipantRuleFor (Format s);;
  fail_if (negb (bool_decide (Team_ID sideOneTeam = TeamID (SideOne s)))
           || negb (bool_decide (Team_ID sideTwoTeam = TeamID (SideTwo s)))
           || bool_decide (Team_ID sideOneTeam = Team_ID sideTwoTeam))
    (invalidf "match sides must reference two distinct supplied teams");;
  fail_if (negb (bool_decide (Team_EventID sideOneTeam = Spec_EventID s))
           || negb (bool_decide (Team_EventID sideTwoTeam = Spec_EventID s)))
    (invalidf "match teams must belong to the match event");;
  fail_if (negb (validID (Side_ID (SideOne s))) || negb (validID (Side_ID (SideTwo s)))
           || bool_decide (Side_ID (SideOne s) = Side_ID (SideTwo s)))
    (invalidf "match requires two distinct side IDs");;
  ValidateParticipantCounts (Format s) (Z.of_nat (length (Participants (SideOne s))))
    (Z.of_nat (length (Participants (SideTwo s))));;
  seen ← check_participants sideOneTeam (Participants (SideOne s)) ∅;
  check_participants sideTwoTeam (Participants (SideTwo s)) seen;;
  let s := mkMatchSpec (Spec_ID s) (Spec_EventID s) (Format s) (SideOne s) (SideTwo s) (UTC (Scheduled s)) in
  Ok (mkMatch s (sideOneTeam, sideTwoTeam) MatchAwaitingResult [] [] [] ∅).

(** ** Commands *)
Record SubmitResultCommand := mkSubmit {
  SR_CommandID : ID; SR_SubmissionID : ID; SR_Actor : Actor; SR_Result : Result; SR_OccurredAt : Time
}.
Record ConfirmResultCommand := mkConfirm {
  CR_CommandID : ID; CR_ConfirmationID : ID; CR_VerificationID : ID; CR_SubmissionID : ID;
  CR_Actor : Actor; CR_OccurredAt : Time
}.
Record DisputeResultCommand := mkDispute {
  DR_CommandID : ID; DR_ConfirmationID : ID; DR_SubmissionID : ID; DR_Actor : Actor;
  DR_Reason : string; DR_OccurredAt : Time
}.
Record AdminOverrideCommand := mkOverride {
  AO_CommandID : ID; AO_VerificationID : ID; AO_Actor : Actor; AO_Result : Result;
  AO_Reason : string; AO_OccurredAt : Time
}.
Record CorrectResultCommand := mkCorrect {
  CC_CommandID : ID; CC_VerificationID : ID; CC_Actor : Actor; CC_Result : Result;
  CC_Reason : string; CC_OccurredAt : Time
}.

(** ** Helpers *)

(** [fmt.Sprintf("a\x00%s\x00%s...", ...)] *)
Definition NUL : ascii := ascii_of_nat 0.
Fixpoint join_NUL (fields : list string) : string :=
  match fields with
  | [] => ""
  | [f] => f
  | f :: rest => (f ++ String NUL (join_NUL rest))%string
  end.

Definition checkCommand (m : Match) (id : ID) (fingerprint : string) : result bool :=
  fail_if (negb (validID id)) (invalidf "command ID is required");;
  match commands m !! id with
  | None => Ok false
  | Some previous =>
      fail_if (negb (bool_decide (previous = fingerprint))) ErrIdempotencyConflict;;
      Ok true
  end.

Definition validateCommand (actor : Actor) (occurredAt : Time) (ids : list ID) : result unit :=
  Actor_validate actor;;
  fail_if (IsZero occurredAt) (invalidf "command occurrence time is required");;
  fail_if (existsb (fun id => negb (validID id)) ids) (invalidf "command record IDs cannot be empty").

Definition transition (operation : string) (s : MatchState) : error :=
  TransitionError operation (MatchState_text s) ErrInvalidTransition.

Definition isSubmitter (actor : Actor) (submission : ResultSubmission) : bool :=
  bool_decide (Actor_UserID actor = SubmitterUser submission)
  || (validID (Actor_PlayerID actor) && bool_decide (Actor_PlayerID actor = SubmitterPlayer submission)).

Definition plays_for (side : MatchSide) (team : Team) (actor : Actor) : bool :=
  contains (Participants side) (Actor_PlayerID actor) || hasCaptain team (Actor_PlayerID actor).
Definition actingSide (m : Match) (actor : Actor) : ID * bool :=
  if plays_for (SideOne (spec m)) (teams m).1 actor then (Side_ID (SideOne (spec m)), true)
  else if plays_for (SideTwo (spec m)) (teams m).2 actor then (Side_ID (SideTwo (spec m)), true)
  else (""%string, false).

(** The first element that satisfies a test, with its index: a pointer into
    the slice. *)
Fixpoint find_first {A} (p : A -> bool) (l : list A) : option (nat * A) :=
  match l with
  | [] => None
  | x :: l => if p x then Some (0%nat, x) else prod_map S id <$> find_first p l
  end.
Definition submissionByID (m : Match) (id : ID) : option (nat * ResultSubmission) :=
  find_first (fun s => bool_decide (Sub_ID s = id)) (submissions m).
Definition pendingSubmission (m : Match) : option (nat * ResultSubmission) :=
  find_first (fun s => bool_decide (Sub_State s = SubmissionPending)) (submissions m).
Definition confirmationByID (m : Match) (id : ID) : option (nat * ResultConfirmation) :=
  find_first (fun s => bool_decide (Conf_ID s = id)) (confirmations m).
Definition verificationByID (m : Match) (id : ID) : option (nat * VerifiedResult) :=
  find_first (fun s => bool_decide (Ver_ID s = id)) (verifiedResults m).

Definition is_some {A} (o : option A) : bool := match o with Some _ => true | None => false end.

(** [pointer.State = s] *)
Definition set_Sub_State (s : SubmissionState) (x : ResultSubmission) : ResultSubmission :=
  mkSubmission (Sub_ID x) (SubmitterUser x) (SubmitterPlayer x) (SubmitterSide x) (Sub_Result x) s (SubmittedAt x).

(** The aggregate after a command: new state, lists and the recorded
    fingerprint ([recordCommand]). *)
Definition advance (m : Match) (st : MatchState) (subs : list ResultSubmission)
    (confs : list ResultConfirmation) (vers : list VerifiedResult) (id : ID) (fingerprint : string) : Match :=
  mkMatch (spec m) (teams m) st subs confs vers (<[id := fingerprint]> (commands m)).

(** ** SubmitResult *)
Definition submit_fingerprint (c : SubmitResultCommand) : string :=
  join_NUL ["submit"%string; SR_SubmissionID c; Actor_UserID (SR_Actor c);
            ResultOutcome_text (Outcome (SR_Result c)); WinningSideID (SR_Result c);
            TrimSpace (Score (SR_Result c))].

Definition SubmitResult (m : Match) (command : SubmitResultCommand) : result (Match * list DomainEvent) :=
  let fingerprint := submit_fingerprint command in
  let actor := SR_Actor command in
  replay ← checkCommand m (SR_CommandID command) fingerprint;
  if (replay : bool) then Ok (m, []) else
  fail_if (negb (bool_decide (state m = MatchAwaitingResult))
           && negb (bool_decide (state m = MatchAwaitingConfirmation))) (transition "submit result" (state m));;
  validateCommand actor (SR_OccurredAt command) [SR_SubmissionID command];;
  Result_validate (SR_Result command) (Side_ID (SideOne (spec m))) (Side_ID (SideTwo (spec m)));;
  let '(sideID, eligible) := actingSide m actor in
  fail_if (negb eligible && negb (privileged (Actor_Role actor))) ErrUnauthorized;;
  fail_if (is_some (submissionByID m (SR_SubmissionID command))) ErrAlreadyExists;;
  let res := normalized (SR_Result command) in
  let at_ := UTC (SR_OccurredAt command) in
  let submission st := mkSubmission (SR_SubmissionID command) (Actor_UserID actor) (Actor_PlayerID actor)
      sideID res st at_ in
  let submitted := mkDomainEvent EventMatchResultSubmitted (Spec_ID (spec m)) (Spec_EventID (spec m))
      (SR_SubmissionID command) "" "" (Actor_UserID actor) res "" at_ in
  if bool_decide (state m = MatchAwaitingConfirmation) then
    match pendingSubmission m with
    | None => Err (transition "submit result" (state m))
    | Some (i, pending) =>
        fail_if (isSubmitter actor pending) ErrOwnSubmission;;
        fail_if (negb eligible || negb (validID (SubmitterSide pending))
                 || bool_decide (sideID = SubmitterSide pending)) ErrNotOpposingSide;;
        fail_if (Result_equal (Sub_Result pending) res) ErrAlreadyExists;;
        Ok (advance m MatchDisputed
              (alter (set_Sub_State SubmissionDisputed) i (submissions m) ++ [submission SubmissionDisputed])
              (confirmations m) (verifiedResults m) (SR_CommandID command) fingerprint,
            [submitted;
             mkDomainEvent EventMatchResultDisputed (Spec_ID (spec m)) (Spec_EventID (spec m))
               (SR_SubmissionID command) "" "" (Actor_UserID actor) res "conflicting result submissions" at_])
    end
  else
    Ok (advance m MatchAwaitingConfirmation (submissions m ++ [submission SubmissionPending])
          (confirmations m) (verifiedResults m) (SR_CommandID command) fingerprint,
        [submitted]).

(** ** ConfirmResult and DisputeResult *)
Definition confirm_fingerprint (c : ConfirmResultCommand) : string :=
  join_NUL ["confirm"%string; CR_ConfirmationID c; CR_VerificationID c; CR_SubmissionID c;
            Actor_UserID (CR_Actor c)].

Definition ConfirmResult (m : Match) (command : ConfirmResultCommand) : result (Match * list DomainEvent) :=
  let fingerprint := confirm_fingerprint command in
  let actor := CR_Actor command in
  replay ← checkCommand m (CR_CommandID command) fingerprint;
  if (replay : bool) then Ok (m, []) else
  fail_if (negb (bool_decide (state m = MatchAwaitingConfirmation))) (transition "confirm result" (state m));;
  validateCommand actor (CR_OccurredAt command)
    [CR_ConfirmationID command; CR_VerificationID command; CR_SubmissionID command];;
  match submissionByID m (CR_SubmissionID command) with
  | None => Err ErrNotFound
  | Some (i, submission) =>
      fail_if (isSubmitter actor submission) ErrOwnSubmission;;
      let '(actorSide, eligible) := actingSide m actor in
      fail_if (negb eligible) ErrUnauthorized;;
      fail_if (negb (validID (SubmitterSide submission)) || bool_decide (actorSide = SubmitterSide submission))
        ErrNotOpposingSide;;
      fail_if (is_some (confirmationByID m (CR_ConfirmationID command))
               || is_some (verificationByID m (CR_VerificationID command))) ErrAlreadyExists;;
      let at_ := UTC (CR_OccurredAt command) in
      Ok (advance m MatchVerified (alter (set_Sub_State SubmissionConfirmed) i (submissions m))
            (confirmations m ++ [mkConfirmation (CR_ConfirmationID command) (Sub_ID submission)
               (Actor_UserID actor) actorSide DecisionConfirmed "" at_])
            (verifiedResults m ++ [mkVerified (CR_VerificationID command) 1 (Sub_Result submission)
               VerificationOpponent (Actor_UserID actor) "" (Sub_ID submission) "" at_])
            (CR_CommandID command) fingerprint,
          [mkDomainEvent EventMatchResultVerified (Spec_ID (spec m)) (Spec_EventID (spec m))
             (Sub_ID submission) (CR_VerificationID command) "" (Actor_UserID actor)
             (Sub_Result submission) "" at_])
  end.

Definition dispute_fingerprint (c : DisputeResultCommand) : string :=
  join_NUL ["dispute"%string; DR_ConfirmationID c; DR_SubmissionID c; Actor_UserID (DR_Actor c);
            TrimSpace (DR_Reason c)].

Definition DisputeResult (m : Match) (command : DisputeResultCommand) : result (Match * list DomainEvent) :=
  let reason := TrimSpace (DR_Reason command) in
  let fingerprint := dispute_fingerprint command in
  let actor := DR_Actor command in
  replay ← checkCommand m (DR_CommandID command) fingerprint;
  if (replay : bool) then Ok (m, []) else
  fail_if (negb (bool_decide (state m = MatchAwaitingConfirmation))) (transition "dispute result" (state m));;
  validateCommand actor (DR_OccurredAt command) [DR_ConfirmationID command; DR_SubmissionID command];;
  fail_if (bool_decide (reason = ""%string)) ErrReasonRequired;;
  match submissionByID m (DR_SubmissionID command) with
  | None => Err ErrNotFound
  | Some (i, submission) =>
      fail_if (isSubmitter actor submission) ErrOwnSubmission;;
      let '(actorSide, eligible) := actingSide m actor in
      fail_if (negb eligible) ErrUnauthorized;;
      fail_if (negb (validID (SubmitterSide submission)) || bool_decide (actorSide = SubmitterSide submission))
        ErrNotOpposingSide;;
      fail_if (is_some (confirmationByID m (DR_ConfirmationID command))) ErrAlreadyExists;;
      let at_ := UTC (DR_OccurredAt command) in
      Ok (advance m MatchDisputed (alter (set_Sub_State SubmissionDisputed) i (submissions m))
            (confirmations m ++ [mkConfirmation (DR_ConfirmationID command) (Sub_ID submission)
               (Actor_UserID actor) actorSide DecisionDisputed reason at_])
            (verifiedResults m) (DR_CommandID command) fingerprint,
          [mkDomainEvent EventMatchResultDisputed (Spec_ID (spec m)) (Spec_EventID (spec m))
             (Sub_ID submission) "" "" (Actor_UserID actor) (Sub_Result submission) reason at_])
  end.

(** ** AdminOverride and CorrectResult *)
Definition admin_fingerprint (kind : string) (verificationID : ID) (actor : Actor) (r : Result)
    (reason : string) : string :=
  join_NUL [kind; verificationID; Actor_UserID actor; ResultOutcome_text (Outcome r); WinningSideID r;
            TrimSpace (Score r); TrimSpace reason].

Definition AdminOverride (m : Match) (command : AdminOverrideCommand) : result (Match * list DomainEvent) :=
  let reason := TrimSpace (AO_Reason command) in
  let actor := AO_Actor command in
  let fingerprint := admin_fingerprint "override" (AO_VerificationID command) actor (AO_Result command)
      (AO_Reason command) in
  replay ← checkCommand m (AO_CommandID command) fingerprint;
  if (replay : bool) then Ok (m, []) else
  fail_if (negb (bool_decide (state m = MatchAwaitingResult))
           && negb (bool_decide (state m = MatchAwaitingConfirmation))
           && negb (bool_decide (state m = MatchDisputed))) (transition "override result" (state m));;
  validateCommand actor (AO_OccurredAt command) [AO_VerificationID command];;
  fail_if (negb (privileged (Actor_Role actor))) ErrUnauthorized;;
  fail_if (bool_decide (reason = ""%string)) ErrReasonRequired;;
  Result_validate (AO_Result command) (Side_ID (SideOne (spec m))) (Side_ID (SideTwo (spec m)));;
  fail_if (is_some (verificationByID m (AO_VerificationID command))) ErrAlreadyExists;;
  let supersede s := if bool_decide (Sub_State s = SubmissionPending)
                     then set_Sub_State SubmissionSuperseded s else s in
  let at_ := UTC (AO_OccurredAt command) in
  let res := normalized (AO_Result command) in
  Ok (advance m MatchVerified (supersede <$> submissions m) (confirmations m)
        (verifiedResults m ++ [mkVerified (AO_VerificationID command) 1 res VerificationAdmin
           (Actor_UserID actor) reason "" "" at_])
        (AO_CommandID command) fingerprint,
      [mkDomainEvent EventMatchResultVerified (Spec_ID (spec m)) (Spec_EventID (spec m))
         "" (AO_VerificationID command) "" (Actor_UserID actor) res reason at_]).

(** Indexing an empty slice panics; [panic_index] marks that outcome. *)
Definition panic_index : error := Sentinel "runtime.panicIndex".

Definition CorrectResult (m : Match) (command : CorrectResultCommand) : result (Match * list DomainEvent) :=
  let reason := TrimSpace (CC_Reason command) in
  let actor := CC_Actor command in
  let fingerprint := admin_fingerprint "correct" (CC_VerificationID command) actor (CC_Result command)
      (CC_Reason command) in
  replay ← checkCommand m (CC_CommandID command) fingerprint;
  if (replay : bool) then Ok (m, []) else
  fail_if (negb (bool_decide (state m = MatchVerified))) (transition "correct result" (state m));;
  validateCommand actor (CC_OccurredAt command) [CC_VerificationID command];;
  fail_if (negb (privileged (Actor_Role actor))) ErrUnauthorized;;
  fail_if (bool_decide (reason = ""%string)) ErrReasonRequired;;
  Result_validate (CC_Result command) (Side_ID (SideOne (spec m))) (Side_ID (SideTwo (spec m)));;
  fail_if (is_some (verificationByID m (CC_VerificationID command))) ErrAlreadyExists;;
  match last (verifiedResults m) with
  | None => Err panic_index
  | Some previous =>
      let res := normalized (CC_Result command) in
      fail_if (Result_equal (Ver_Result previous) res) ErrResultUnchanged;;
      let at_ := UTC (CC_OccurredAt command) in
      Ok (advance m (state m) (submissions m) (confirmations m)
            (verifiedResults m ++ [mkVerified (CC_VerificationID command) (Version previous + 1) res
               VerificationCorrection (Actor_UserID actor) reason "" (Ver_ID previous) at_])
            (CC_CommandID command) fingerprint,
          [mkDomainEvent EventMatchResultCorrected (Spec_ID (spec m)) (Spec_EventID (spec m))
             "" (CC_VerificationID command) (Ver_ID previous) (Actor_UserID actor) res reason at_])
  end.

(** ** Snapshot: the aggregate without its teams and command records *)
Record MatchSnapshot := mkSnapshot {
  Snap_Spec : MatchSpec;
  Snap_State : MatchState;
  Snap_Submissions : list ResultSubmission;
  Snap_Confirmations : list ResultConfirmation;
  Snap_VerifiedResults : list VerifiedResult
}.
Definition Snapshot (m : Match) : MatchSnapshot :=
  mkSnapshot (spec m) (state m) (submissions m) (confirmations m) (verifiedResults m).

(** ** Runs of a match *)
Inductive match_step (m : Match) : Match -> list DomainEvent -> Prop :=
  | ms_submit c m' ev : SubmitResult m c = Ok (m', ev) -> match_step m m' ev
  | ms_confirm c m' ev : ConfirmResult m c = Ok (m', ev) -> match_step m m' ev
  | ms_dispute c m' ev : DisputeResult m c = Ok (m', ev) -> match_step m m' ev
  | ms_override c m' ev : AdminOverride m c = Ok (m', ev) -> match_step m m' ev
  | ms_correct c m' ev : CorrectResult m c = Ok (m', ev) -> match_step m m' ev.

Inductive reachable_match : Match -> Prop :=
  | rm_new s t1 t2 m : NewMatch s t1 t2 = Ok m -> reachable_match m
  | rm_step m m' ev : reachable_match m -> match_step m m' ev -> reachable_match m'.

(** ** Lemmas on the helpers *)
Lemma find_first_Some {A} (p : A -> bool) l i x :
  find_first p l = Some (i, x) -> l !! i = Some x /\ p x = true.
Proof.
  revert i. induction l as [|y l IH]; intros i H; cbn in H; [done|]. destruct (p y) eqn:E.
  - injection H as <- <-. done.
  - destruct (find_first p l) as [[j z]|]; [|done]. cbn in H. injection H as <- <-. by apply IH.
Qed.

Lemma find_first_None {A} (p : A -> bool) l : is_some (find_first p l) = false -> Forall (fun x => p x = false) l.
Proof.
  induction l as [|y l IH]; intros H; [constructor|]. cbn in H. destruct (p y) eqn:E; [done|].
  constructor; [done|]. apply IH. by destruct (find_first p l) as [[? ?]|].
Qed.

Lemma fresh_key {A} (key : A -> ID) l x :
  is_some (find_first (fun y => bool_decide (key y = x)) l) = false -> x ∉ key <$> l.
Proof.
  intros H. apply find_first_None in H. rewrite Forall_forall in H.
  intros Hin. apply list_elem_of_fmap in Hin as (y & -> & Hy). specialize (H y Hy). by bool_prop.
Qed.

Lemma NoDup_snoc {A} (l : list A) x : NoDup l -> x ∉ l -> NoDup (l ++ [x]).
Proof.
  intros Hl Hx. apply NoDup_app. split_and!; [done| |apply NoDup_singleton].
  intros y Hy Hin. apply list_elem_of_singleton in Hin. by subst.
Qed.

Lemma actingSide_eligible m actor side :
  actingSide m actor = (side, true) ->
  side = Side_ID (SideOne (spec m)) \/ side = Side_ID (SideTwo (spec m)).
Proof. unfold actingSide. repeat case_match; intros [= <-]; auto. Qed.

Lemma checkCommand_false m id fp : checkCommand m id fp = Ok false -> commands m !! id = None /\ validID id = true.
Proof.
  unfold checkCommand. intros H. go_inv. bool_prop. destruct (commands m !! id) as [p|]; [|done].
  by go_inv.
Qed.

Lemma checkCommand_recorded m id fp :
  validID id = true -> commands m !! id = Some fp -> checkCommand m id fp = Ok true.
Proof. intros Hv Hl. unfold checkCommand. rewrite Hv, Hl. cbn. by rewrite bool_decide_true. Qed.

(** The submissions of a match whose result awaits confirmation. *)
Definition one_pending (m : Match) (s : ResultSubmission) : Prop :=
  submissions m = [s] /\ Sub_State s = SubmissionPending.

Definition result_ok (m : Match) (r : Result) : Prop :=
  Result_validate r (Side_ID (SideOne (spec m))) (Side_ID (SideTwo (spec m))) = Ok ().

(** A decision was taken by somebody else, on the other side. *)
Definition decided_by_opponent (subs : list ResultSubmission) (c : ResultConfirmation) : Prop :=
  exists s, s ∈ subs /\ Sub_ID s = Conf_SubmissionID c
    /\ Conf_ActorUserID c <> SubmitterUser s /\ ActorSideID c <> SubmitterSide s
    /\ validID (SubmitterSide s) = true.

(** An opponent-verified result is the submitted one, confirmed by somebody
    else on the other side. *)
Definition verified_by_opponent (subs : list ResultSubmission) (confs : list ResultConfirmation)
    (v : VerifiedResult) : Prop :=
  exists s c, s ∈ subs /\ c ∈ confs /\ Sub_ID s = Ver_SubmissionID v /\ Sub_State s = SubmissionConfirmed
    /\ Ver_Result v = Sub_Result s /\ Conf_SubmissionID c = Sub_ID s /\ Decision c = DecisionConfirmed
    /\ Conf_ActorUserID c = Ver_ActorUserID v
    /\ Ver_ActorUserID v <> SubmitterUser s /\ ActorSideID c <> SubmitterSide s.

(** The audit chain: versions count from 1 and every later version corrects,
    and differs from, the one it supersedes. *)
Definition audit_chain (vs : list VerifiedResult) : Prop :=
  forall i v, vs !! i = Some v ->
    Version v = Z.of_nat i + 1
    /\ match i with
       | O => SupersedesID v = ""%string /\ Method v <> VerificationCorrection
       | S j => Method v = VerificationCorrection
                /\ exists p, vs !! j = Some p /\ SupersedesID v = Ver_ID p
                   /\ Result_equal (Ver_Result p) (Ver_Result v) = false
       end.

Record match_inv (m : Match) : Prop := {
  mi_sides : Side_ID (SideOne (spec m)) <> Side_ID (SideTwo (spec m));
  mi_start : state m = MatchAwaitingResult -> submissions m = [];
  mi_pending : state m = MatchAwaitingConfirmation -> exists s, one_pending m s;
  mi_no_pending : state m <> MatchAwaitingConfirmation ->
    Forall (fun s => Sub_State s <> SubmissionPending) (submissions m);
  mi_unverified : state m <> MatchVerified -> verifiedResults m = [];
  mi_verified : state m = MatchVerified -> verifiedResults m <> [];
  mi_chain : audit_chain (verifiedResults m);
  mi_submission_ids : NoDup (Sub_ID <$> submissions m);
  mi_confirmation_ids : NoDup (Conf_ID <$> confirmations m);
  mi_verification_ids : NoDup (Ver_ID <$> verifiedResults m);
  mi_submitted : Forall (fun s => result_ok m (Sub_Result s)) (submissions m);
  mi_results : Forall (fun v => result_ok m (Ver_Result v)) (verifiedResults m);
  mi_decisions : Forall (decided_by_opponent (submissions m)) (confirmations m);
  mi_opponent : Forall (fun v => Method v = VerificationOpponent ->
                  verified_by_opponent (submissions m) (confirmations m) v) (verifiedResults m)
}.

Lemma audit_chain_nil : audit_chain [].
Proof. intros i v H. done. Qed.

Lemma audit_chain_one v :
  Version v = 1 -> SupersedesID v = ""%string -> Method v <> VerificationCorrection -> audit_chain [v].
Proof. intros H1 H2 H3 [|i] v' H; cbn in H; [injection H as <-|done]. split; [lia|done]. Qed.

Lemma audit_chain_snoc vs p v :
  audit_chain vs -> last vs = Some p -> Version v = Version p + 1 -> Method v = VerificationCorrection ->
  SupersedesID v = Ver_ID p -> Result_equal (Ver_Result p) (Ver_Result v) = false ->
  audit_chain (vs ++ [v]).
Proof.
  intros Hc Hl Hv Hm Hs Hne i x Hx.
  rewrite last_lookup in Hl. destruct vs as [|y vs]; [done|]. cbn [length pred] in Hl.
  apply lookup_app_Some in Hx as [Hx|[Hge Hx]].
  - destruct (Hc i x Hx) as [H1 H2]. split; [done|]. destruct i as [|j]; [done|].
    destruct H2 as (Hmm & q & Hq & Hrest). split; [done|]. exists q. split; [|done].
    by apply lookup_app_l_Some.
  - apply list_lookup_singleton_Some in Hx as [Hi <-]. cbn [length] in *.
    assert (i = S (length vs)) as -> by lia.
    destruct (Hc (length vs) p Hl) as [Hvp _]. split; [lia|]. split; [done|].
    exists p. split; [by apply lookup_app_l_Some|done].
Qed.
