(* ===== verification/MatchProps.v ===== *)
(** * Properties of the match aggregate (internal/competition/match.go) *)
From S2P Require Import Prelude GoStrings GoTime Competition Match.

(** ** What each command does *)

(** A command that was recorded before changes nothing. *)
Definition replayed (m m' : Match) (ev : list DomainEvent) (id : ID) (fp : string) : Prop :=
  commands m !! id = Some fp /\ m' = m /\ ev = [].

Lemma checkCommand_Ok m id fp b :
  checkCommand m id fp = Ok b ->
  (b = true /\ commands m !! id = Some fp) \/ (b = false /\ commands m !! id = None /\ validID id = true).
Proof.
  unfold checkCommand. intros H. go_inv. bool_prop. destruct (commands m !! id) as [p|]; go_inv.
  - bool_prop. subst. by left.
  - by right.
Qed.

Lemma Result_validate_normalized r a b :
  Result_validate r a b = Ok () -> Result_validate (normalized r) a b = Ok ().
Proof. unfold Result_validate. by rewrite normalized_idem. Qed.

Lemma one_pending_find m s (p : ResultSubmission -> bool) i x :
  submissions m = [s] -> find_first p (submissions m) = Some (i, x) -> i = 0%nat /\ x = s.
Proof. intros -> H. apply find_first_Some in H as [H _]. destruct i as [|i]; [by injection H|done]. Qed.

Lemma SubmitResult_Ok m c m' ev :
  match_inv m -> SubmitResult m c = Ok (m', ev) ->
  replayed m m' ev (SR_CommandID c) (submit_fingerprint c)
  \/ commands m !! SR_CommandID c = None /\ result_ok m (SR_Result c)
     /\ SR_SubmissionID c ∉ Sub_ID <$> submissions m
     /\ exists side eligible,
        actingSide m (SR_Actor c) = (side, eligible)
        /\ (let sub st := mkSubmission (SR_SubmissionID c) (Actor_UserID (SR_Actor c))
             (Actor_PlayerID (SR_Actor c)) side (normalized (SR_Result c)) st (UTC (SR_OccurredAt c)) in
           (state m = MatchAwaitingResult /\ (eligible = true \/ privileged (Actor_Role (SR_Actor c)) = true)
            /\ m' = advance m MatchAwaitingConfirmation [sub SubmissionPending] (confirmations m)
                      (verifiedResults m) (SR_CommandID c) (submit_fingerprint c))
           \/ (exists s, state m = MatchAwaitingConfirmation /\ one_pending m s /\ eligible = true
               /\ isSubmitter (SR_Actor c) s = false /\ side <> SubmitterSide s
               /\ Result_equal (Sub_Result s) (SR_Result c) = false
               /\ m' = advance m MatchDisputed [set_Sub_State SubmissionDisputed s; sub SubmissionDisputed]
                         (confirmations m) (verifiedResults m) (SR_CommandID c) (submit_fingerprint c))).
Proof.
  intros Hinv. unfold SubmitResult. cbv zeta. intros H. go_inv.
  match goal with E : checkCommand _ _ _ = Ok ?b |- _ =>
    apply checkCommand_Ok in E as [[-> Hc]|(-> & Hc & Hid)] end.
  { go_inv. by left. }
  right. go_inv. repeat match goal with u : unit |- _ => destruct u end.
  destruct (actingSide m (SR_Actor c)) as [side eligible] eqn:Hside. go_inv.
  assert (Hfresh : SR_SubmissionID c ∉ Sub_ID <$> submissions m) by by apply fresh_key.
  match goal with E : Result_validate _ _ _ = Ok () |- _ => rename E into Hval end.
  split; [done|]. split; [exact Hval|]. split; [exact Hfresh|]. exists side, eligible. split; [done|]. cbv zeta.
  case_bool_decide as Hst.
  - destruct (mi_pending m Hinv Hst) as [s [Hs Hpend]].
    destruct (pendingSubmission m) as [[i x]|] eqn:Hp; [|done].
    destruct (one_pending_find m s _ i x Hs Hp) as [-> ->]. go_inv. bool_prop.
    right. exists s. rewrite Hs. unfold Result_equal in *. bool_prop.
    match goal with E : normalized _ <> normalized (normalized _) |- _ => rewrite normalized_idem in E end.
    split_and!; try done. by apply bool_decide_eq_false.
  - left. go_inv.
    assert (Ha : state m = MatchAwaitingResult).
    { match goal with E : negb (bool_decide _) && _ = false |- _ => apply andb_false_iff in E as [E|E] end; by bool_prop. }
    split; [done|]. split.
    + match goal with E : negb eligible && _ = false |- _ => apply andb_false_iff in E as [E|E] end;
        bool_prop; auto.
    + by rewrite (mi_start m Hinv Ha).
Qed.

Lemma ConfirmResult_Ok m c m' ev :
  match_inv m -> ConfirmResult m c = Ok (m', ev) ->
  replayed m m' ev (CR_CommandID c) (confirm_fingerprint c)
  \/ commands m !! CR_CommandID c = None
     /\ CR_ConfirmationID c ∉ Conf_ID <$> confirmations m
     /\ exists s side, state m = MatchAwaitingConfirmation /\ one_pending m s
        /\ Sub_ID s = CR_SubmissionID c
        /\ actingSide m (CR_Actor c) = (side, true) /\ isSubmitter (CR_Actor c) s = false
        /\ validID (SubmitterSide s) = true /\ side <> SubmitterSide s
        /\ m' = advance m MatchVerified [set_Sub_State SubmissionConfirmed s]
             (confirmations m ++ [mkConfirmation (CR_ConfirmationID c) (Sub_ID s) (Actor_UserID (CR_Actor c))
                side DecisionConfirmed "" (UTC (CR_OccurredAt c))])
             [mkVerified (CR_VerificationID c) 1 (Sub_Result s) VerificationOpponent
                (Actor_UserID (CR_Actor c)) "" (Sub_ID s) "" (UTC (CR_OccurredAt c))]
             (CR_CommandID c) (confirm_fingerprint c).
Proof.
  intros Hinv. unfold ConfirmResult. cbv zeta. intros H. go_inv.
  match goal with E : checkCommand _ _ _ = Ok ?b |- _ =>
    apply checkCommand_Ok in E as [[-> Hc]|(-> & Hc & Hid)] end.
  { go_inv. by left. }
  right. go_inv. bool_prop.
  match goal with E : state m = MatchAwaitingConfirmation |- _ => rename E into Hst end.
  destruct (mi_pending m Hinv Hst) as [s [Hs Hpend]].
  assert (Hvers : verifiedResults m = []) by (apply (mi_unverified m Hinv); congruence).
  destruct (submissionByID m _) as [[i x]|] eqn:Hf; [|done].
  pose proof (find_first_Some _ _ _ _ Hf) as [_ Hidx]. bool_prop.
  destruct (one_pending_find m s _ i x Hs Hf) as [-> ->]. go_inv.
  destruct (actingSide m (CR_Actor c)) as [side eligible] eqn:Hside. go_inv. bool_prop. subst eligible.
  split; [done|]. split; [by apply fresh_key|]. exists s, side. rewrite Hs, Hvers. done.
Qed.

Lemma DisputeResult_Ok m c m' ev :
  match_inv m -> DisputeResult m c = Ok (m', ev) ->
  replayed m m' ev (DR_CommandID c) (dispute_fingerprint c)
  \/ commands m !! DR_CommandID c = None
     /\ DR_ConfirmationID c ∉ Conf_ID <$> confirmations m
     /\ exists s side, state m = MatchAwaitingConfirmation /\ one_pending m s
        /\ Sub_ID s = DR_SubmissionID c
        /\ actingSide m (DR_Actor c) = (side, true) /\ isSubmitter (DR_Actor c) s = false
        /\ validID (SubmitterSide s) = true /\ side <> SubmitterSide s
        /\ m' = advance m MatchDisputed [set_Sub_State SubmissionDisputed s]
             (confirmations m ++ [mkConfirmation (DR_ConfirmationID c) (Sub_ID s) (Actor_UserID (DR_Actor c))
                side DecisionDisputed (TrimSpace (DR_Reason c)) (UTC (DR_OccurredAt c))])
             (verifiedResults m) (DR_CommandID c) (dispute_fingerprint c).
Proof.
  intros Hinv. unfold DisputeResult. cbv zeta. intros H. go_inv.
  match goal with E : checkCommand _ _ _ = Ok ?b |- _ =>
    apply checkCommand_Ok in E as [[-> Hc]|(-> & Hc & Hid)] end.
  { go_inv. by left. }
  right. go_inv. bool_prop.
  match goal with E : state m = MatchAwaitingConfirmation |- _ => rename E into Hst end.
  destruct (mi_pending m Hinv Hst) as [s [Hs Hpend]].
  destruct (submissionByID m _) as [[i x]|] eqn:Hf; [|done].
  pose proof (find_first_Some _ _ _ _ Hf) as [_ Hidx]. bool_prop.
  destruct (one_pending_find m s _ i x Hs Hf) as [-> ->]. go_inv.
  destruct (actingSide m (DR_Actor c)) as [side eligible] eqn:Hside. go_inv. bool_prop. subst eligible.
  split; [done|]. split; [by apply fresh_key|]. exists s, side. rewrite Hs. done.
Qed.

Definition supersede (s : ResultSubmission) : ResultSubmission :=
  if bool_decide (Sub_State s = SubmissionPending) then set_Sub_State SubmissionSuperseded s else s.

Lemma AdminOverride_Ok m c m' ev :
  match_inv m -> AdminOverride m c = Ok (m', ev) ->
  let fp := admin_fingerprint "override" (AO_VerificationID c) (AO_Actor c) (AO_Result c) (AO_Reason c) in
  replayed m m' ev (AO_CommandID c) fp
  \/ (commands m !! AO_CommandID c = None /\ result_ok m (AO_Result c)
      /\ state m <> MatchVerified
      /\ privileged (Actor_Role (AO_Actor c)) = true /\ is_blank (AO_Reason c) = false
      /\ m' = advance m MatchVerified (supersede <$> submissions m) (confirmations m)
           [mkVerified (AO_VerificationID c) 1 (normalized (AO_Result c)) VerificationAdmin
              (Actor_UserID (AO_Actor c)) (TrimSpace (AO_Reason c)) "" "" (UTC (AO_OccurredAt c))]
           (AO_CommandID c) fp).
Proof.
  intros Hinv. unfold AdminOverride. cbv zeta. intros H. go_inv.
  match goal with E : checkCommand _ _ _ = Ok ?b |- _ =>
    apply checkCommand_Ok in E as [[-> Hc]|(-> & Hc & Hid)] end.
  { go_inv. by left. }
  right. go_inv. repeat match goal with u : unit |- _ => destruct u end.
  assert (Hst : state m <> MatchVerified) by (intros Heq; rewrite Heq in *; done).
  assert (Hvers : verifiedResults m = []) by by apply (mi_unverified m Hinv).
  bool_prop. rewrite Hvers. split_and!; try done. by apply bool_decide_eq_false.
Qed.

Lemma CorrectResult_Ok m c m' ev :
  match_inv m -> CorrectResult m c = Ok (m', ev) ->
  let fp := admin_fingerprint "correct" (CC_VerificationID c) (CC_Actor c) (CC_Result c) (CC_Reason c) in
  replayed m m' ev (CC_CommandID c) fp
  \/ (commands m !! CC_CommandID c = None /\ result_ok m (CC_Result c)
      /\ CC_VerificationID c ∉ Ver_ID <$> verifiedResults m
      /\ privileged (Actor_Role (CC_Actor c)) = true /\ is_blank (CC_Reason c) = false
      /\ exists previous, state m = MatchVerified /\ last (verifiedResults m) = Some previous
         /\ Result_equal (Ver_Result previous) (normalized (CC_Result c)) = false
         /\ m' = advance m MatchVerified (submissions m) (confirmations m)
              (verifiedResults m ++ [mkVerified (CC_VerificationID c) (Version previous + 1)
                 (normalized (CC_Result c)) VerificationCorrection (Actor_UserID (CC_Actor c))
                 (TrimSpace (CC_Reason c)) "" (Ver_ID previous) (UTC (CC_OccurredAt c))])
              (CC_CommandID c) fp).
Proof.
  intros Hinv. unfold CorrectResult. cbv zeta. intros H. go_inv.
  match goal with E : checkCommand _ _ _ = Ok ?b |- _ =>
    apply checkCommand_Ok in E as [[-> Hc]|(-> & Hc & Hid)] end.
  { go_inv. by left. }
  right. go_inv. repeat match goal with u : unit |- _ => destruct u end.
  destruct (last (verifiedResults m)) as [p|] eqn:Hl; [|done]. go_inv. bool_prop.
  match goal with E : state m = MatchVerified |- _ => rename E into Hst end.
  split; [done|]. split; [done|]. split; [by apply fresh_key|]. split; [done|].
  split; [by apply bool_decide_eq_false|]. exists p. by rewrite Hst.
Qed.

(** ** The invariant *)
Lemma check_participants_sub team ps seen s :
  check_participants team ps seen = Ok s -> seen ⊆ s /\ list_to_set ps ⊆ s.
Proof.
  revert seen. induction ps as [|p ps IH]; intros seen H; cbn in H; [injection H as <-; set_solver|].
  go_inv. destruct (IH _ H) as [H1 H2]. cbn. set_solver.
Qed.

Lemma NewMatch_inv s t1 t2 m : NewMatch s t1 t2 = Ok m -> match_inv m.
Proof.
  unfold NewMatch. cbv zeta. intros H. go_inv. bool_prop.
  split; cbn; try done; try (by constructor).
Qed.

(** Recording a submission's decision leaves who submitted what alone. *)
Lemma decided_by_opponent_state st s c :
  decided_by_opponent [s] c -> decided_by_opponent [set_Sub_State st s] c.
Proof.
  intros (x & Hx & Hrest). apply list_elem_of_singleton in Hx as ->.
  exists (set_Sub_State st s). split; [set_solver|exact Hrest].
Qed.

Lemma decided_by_opponent_app subs subs' c : decided_by_opponent subs c -> decided_by_opponent (subs ++ subs') c.
Proof. intros (x & Hx & Hrest). exists x. split; [set_solver|exact Hrest]. Qed.

Lemma decided_by_opponent_supersede subs c :
  decided_by_opponent subs c -> decided_by_opponent (supersede <$> subs) c.
Proof.
  intros (x & Hx & Hrest). exists (supersede x). split; [by apply list_elem_of_fmap_2|].
  unfold supersede. case_bool_decide; exact Hrest.
Qed.

Lemma isSubmitter_user actor s : isSubmitter actor s = false -> Actor_UserID actor <> SubmitterUser s.
Proof. unfold isSubmitter. intros H. by bool_prop. Qed.

Lemma submit_inv m c m' ev : match_inv m -> SubmitResult m c = Ok (m', ev) -> match_inv m'.
Proof.
  intros Hinv H. destruct (SubmitResult_Ok m c m' ev Hinv H)
    as [(_ & -> & _)|(_ & Hr & Hfresh & side & eligible & Hside & Hcase)]; [done|].
  apply Result_validate_normalized in Hr.
  cbv zeta in Hcase. destruct Hcase as [(Hst & _ & ->)|(s & Hst & [Hs Hp] & _ & _ & Hne & _ & ->)].
  - assert (Hsubs := mi_start m Hinv Hst).
    assert (Hdec := mi_decisions m Hinv). rewrite Hsubs in Hdec.
    assert (Hconf : confirmations m = []).
    { destruct (confirmations m) as [|c0 l]; [done|]. rewrite Forall_cons in Hdec.
      destruct Hdec as [(x & Hx & _) _]. set_solver. }
    assert (Hvers : verifiedResults m = []) by (apply (mi_unverified m Hinv); congruence).
    split; cbn; rewrite ?Hconf, ?Hvers; try done; try (by constructor).
    + apply Hinv.
    + by eexists.
    + apply NoDup_singleton.
  - assert (Hvers : verifiedResults m = []) by (apply (mi_unverified m Hinv); congruence).
    rewrite Hs in Hfresh. cbn in Hfresh.
    pose proof (mi_submitted m Hinv) as Hsub. rewrite Hs, Forall_singleton in Hsub.
    split; cbn; rewrite ?Hvers; try done; try (by constructor).
    + apply Hinv.
    + intros _. rewrite !Forall_cons, Forall_nil. done.
    + rewrite !NoDup_cons. split_and!; [set_solver|set_solver|constructor].
    + apply Hinv.
    + rewrite !Forall_cons, Forall_nil. done.
    + eapply Forall_impl; [apply (mi_decisions m Hinv)|]. rewrite Hs. intros x Hx.
      apply (decided_by_opponent_app [_] [_]). by apply decided_by_opponent_state.
Qed.

(** The confirmation a decision adds was made by an opponent of [s]. *)
Lemma decision_inv m st s c :
  match_inv m -> one_pending m s ->
  Conf_ID c ∉ Conf_ID <$> confirmations m -> Conf_SubmissionID c = Sub_ID s ->
  Conf_ActorUserID c <> SubmitterUser s -> ActorSideID c <> SubmitterSide s ->
  validID (SubmitterSide s) = true ->
  NoDup (Conf_ID <$> (confirmations m ++ [c]))
  /\ Forall (decided_by_opponent [set_Sub_State st s]) (confirmations m ++ [c]).
Proof.
  intros Hinv [Hs _] Hid Hsub Hu Hsd Hv. split.
  - rewrite fmap_app. by apply NoDup_snoc; [apply Hinv|].
  - apply Forall_app. split.
    + eapply Forall_impl; [apply (mi_decisions m Hinv)|]. rewrite Hs. intros x Hx.
      by apply decided_by_opponent_state.
    + rewrite Forall_singleton. exists (set_Sub_State st s). split; [set_solver|done].
Qed.

Lemma confirm_inv m c m' ev : match_inv m -> ConfirmResult m c = Ok (m', ev) -> match_inv m'.
Proof.
  intros Hinv H. destruct (ConfirmResult_Ok m c m' ev Hinv H)
    as [(_ & -> & _)|(_ & Hfresh & s & side & Hst & Hp & Hid & _ & Hsm & Hv & Hne & ->)]; [done|].
  pose proof Hp as [Hs Hpend]. pose proof (isSubmitter_user _ _ Hsm) as Hu.
  pose proof (mi_submitted m Hinv) as Hsub. rewrite Hs, Forall_singleton in Hsub.
  set (conf := mkConfirmation _ _ _ _ _ _ _).
  destruct (decision_inv m SubmissionConfirmed s conf Hinv Hp Hfresh eq_refl Hu Hne Hv) as [Hc1 Hc2].
  split; cbn; try done.
  - apply Hinv.
  - intros _. by rewrite Forall_singleton.
  - by apply audit_chain_one.
  - apply NoDup_singleton.
  - apply NoDup_singleton.
  - by rewrite Forall_singleton.
  - by rewrite Forall_singleton.
  - rewrite Forall_singleton. intros _. exists (set_Sub_State SubmissionConfirmed s), conf.
    split; [set_solver|]. split; [set_solver|]. done.
Qed.

Lemma dispute_inv m c m' ev : match_inv m -> DisputeResult m c = Ok (m', ev) -> match_inv m'.
Proof.
  intros Hinv H. destruct (DisputeResult_Ok m c m' ev Hinv H)
    as [(_ & -> & _)|(_ & Hfresh & s & side & Hst & Hp & Hid & _ & Hsm & Hv & Hne & ->)]; [done|].
  pose proof Hp as [Hs Hpend]. pose proof (isSubmitter_user _ _ Hsm) as Hu.
  pose proof (mi_submitted m Hinv) as Hsub. rewrite Hs, Forall_singleton in Hsub.
  assert (Hvers : verifiedResults m = []) by (apply (mi_unverified m Hinv); congruence).
  set (conf := mkConfirmation _ _ _ _ _ _ _).
  destruct (decision_inv m SubmissionDisputed s conf Hinv Hp Hfresh eq_refl Hu Hne Hv) as [Hc1 Hc2].
  split; cbn; rewrite ?Hvers; try done; try (by constructor).
  - apply Hinv.
  - apply NoDup_singleton.
Qed.

Lemma supersede_id (subs : list ResultSubmission) : Sub_ID <$> (supersede <$> subs) = Sub_ID <$> subs.
Proof.
  induction subs as [|s subs IH]; [done|]. rewrite !fmap_cons, IH. unfold supersede. by case_bool_decide.
Qed.

Lemma override_inv m c m' ev : match_inv m -> AdminOverride m c = Ok (m', ev) -> match_inv m'.
Proof.
  intros Hinv H. destruct (AdminOverride_Ok m c m' ev Hinv H)
    as [(_ & -> & _)|(_ & Hr & Hst & _ & _ & ->)]; [done|].
  apply Result_validate_normalized in Hr. split; cbn; try done.
  - apply Hinv.
  - intros _. apply Forall_fmap, Forall_true. intros s. unfold supersede. cbn. by case_bool_decide.
  - by apply audit_chain_one.
  - rewrite supersede_id. apply Hinv.
  - apply Hinv.
  - apply NoDup_singleton.
  - apply Forall_fmap. eapply Forall_impl; [apply (mi_submitted m Hinv)|]. intros s Hs.
    unfold supersede. cbn. by case_bool_decide.
  - by rewrite Forall_singleton.
  - eapply Forall_impl; [apply (mi_decisions m Hinv)|]. intros x. apply decided_by_opponent_supersede.
  - by rewrite Forall_singleton.
Qed.

Lemma correct_inv m c m' ev : match_inv m -> CorrectResult m c = Ok (m', ev) -> match_inv m'.
Proof.
  intros Hinv H. destruct (CorrectResult_Ok m c m' ev Hinv H)
    as [(_ & -> & _)|(_ & Hr & Hfresh & _ & _ & p & Hst & Hl & Hne & ->)]; [done|].
  apply Result_validate_normalized in Hr. split; cbn; try done; try apply Hinv.
  - intros _. apply (mi_no_pending m Hinv). congruence.
  - intros _ Hnil. by apply app_eq_nil in Hnil as [_ Hnil].
  - by eapply audit_chain_snoc; [apply Hinv|..].
  - rewrite fmap_app. by apply NoDup_snoc; [apply Hinv|].
  - apply Forall_app. split; [apply Hinv|]. by rewrite Forall_singleton.
  - apply Forall_app. split; [apply Hinv|]. by rewrite Forall_singleton.
Qed.

Lemma match_step_inv m m' ev : match_inv m -> match_step m m' ev -> match_inv m'.
Proof.
  intros Hinv [c m1 ev1 H|c m1 ev1 H|c m1 ev1 H|c m1 ev1 H|c m1 ev1 H];
    [eapply submit_inv|eapply confirm_inv|eapply dispute_inv|eapply override_inv|eapply correct_inv]; eauto.
Qed.

Lemma reachable_match_inv m : reachable_match m -> match_inv m.
Proof.
  induction 1 as [s t1 t2 m H|m m' ev _ IH Hs]; [by eapply NewMatch_inv|by eapply match_step_inv].
Qed.

(** ** Commands as data *)
Inductive match_command :=
  | Submit (c : SubmitResultCommand) | Confirm (c : ConfirmResultCommand)
  | Dispute (c : DisputeResultCommand) | Override (c : AdminOverrideCommand)
  | Correct (c : CorrectResultCommand).

Definition run_command (m : Match) (cmd : match_command) : result (Match * list DomainEvent) :=
  match cmd with
  | Submit c => SubmitResult m c | Confirm c => ConfirmResult m c | Dispute c => DisputeResult m c
  | Override c => AdminOverride m c | Correct c => CorrectResult m c
  end.
Definition command_id (cmd : match_command) : ID :=
  match cmd with
  | Submit c => SR_CommandID c | Confirm c => CR_CommandID c | Dispute c => DR_CommandID c
  | Override c => AO_CommandID c | Correct c => CC_CommandID c
  end.
Definition command_fingerprint (cmd : match_command) : string :=
  match cmd with
  | Submit c => submit_fingerprint c | Confirm c => confirm_fingerprint c
  | Dispute c => dispute_fingerprint c
  | Override c => admin_fingerprint "override" (AO_VerificationID c) (AO_Actor c) (AO_Result c) (AO_Reason c)
  | Correct c => admin_fingerprint "correct" (CC_VerificationID c) (CC_Actor c) (CC_Result c) (CC_Reason c)
  end.

Lemma run_command_step m cmd m' ev : run_command m cmd = Ok (m', ev) -> match_step m m' ev.
Proof. destruct cmd; intros H; [eapply ms_submit|eapply ms_confirm|eapply ms_dispute|eapply ms_override|eapply ms_correct]; exact H. Qed.

(** What was submitted, apart from the state of the submission. *)
Definition submitted_facts (s : ResultSubmission) :=
  (Sub_ID s, SubmitterUser s, SubmitterPlayer s, SubmitterSide s, Sub_Result s, SubmittedAt s).

(** The states a match moves through. *)
Definition match_can_move (s s' : MatchState) : bool :=
  match s, s' with
  | MatchAwaitingResult, (MatchAwaitingConfirmation | MatchVerified) => true
  | MatchAwaitingConfirmation, (MatchDisputed | MatchVerified) => true
  | MatchDisputed, MatchVerified => true
  | MatchVerified, MatchVerified => true
  | _, _ => false
  end.

(** What a command that was not a replay does to the history. *)
Record extends (m m' : Match) (cmd : match_command) : Prop := {
  xt_new : commands m !! command_id cmd = None;
  xt_commands : commands m' = <[command_id cmd := command_fingerprint cmd]> (commands m);
  xt_spec : spec m' = spec m /\ teams m' = teams m;
  xt_state : match_can_move (state m) (state m') = true;
  xt_submissions : (submitted_facts <$> submissions m) `prefix_of` (submitted_facts <$> submissions m');
  xt_confirmations : confirmations m `prefix_of` confirmations m';
  xt_verified : verifiedResults m `prefix_of` verifiedResults m'
}.

Lemma facts_set_State st s : submitted_facts (set_Sub_State st s) = submitted_facts s.
Proof. done. Qed.

Lemma facts_supersede (subs : list ResultSubmission) :
  submitted_facts <$> (supersede <$> subs) = submitted_facts <$> subs.
Proof.
  induction subs as [|s subs IH]; [done|]. rewrite !fmap_cons, IH. unfold supersede. by case_bool_decide.
Qed.

Lemma run_command_cases m cmd m' ev :
  match_inv m -> run_command m cmd = Ok (m', ev) ->
  replayed m m' ev (command_id cmd) (command_fingerprint cmd) \/ extends m m' cmd.
Proof.
  intros Hinv H. destruct cmd as [c|c|c|c|c]; cbn [run_command command_id command_fingerprint] in *.
  - destruct (SubmitResult_Ok m c m' ev Hinv H) as [Hr|(Hn & _ & _ & side & el & _ & Hcase)]; [by left|right].
    cbv zeta in Hcase. destruct Hcase as [(Hst & _ & ->)|(s & Hst & [Hs _] & _ & _ & _ & _ & ->)].
    + split; cbn [command_id command_fingerprint advance commands spec teams state submissions confirmations verifiedResults];
        try done; [by rewrite Hst|]. rewrite (mi_start m Hinv Hst). apply prefix_nil.
    + split; cbn [command_id command_fingerprint advance commands spec teams state submissions confirmations verifiedResults];
        try done; [by rewrite Hst|]. rewrite Hs, !fmap_cons, facts_set_State. by eexists.
  - destruct (ConfirmResult_Ok m c m' ev Hinv H) as [Hr|(Hn & _ & s & side & Hst & [Hs _] & _ & _ & _ & _ & _ & ->)];
      [by left|right].
    assert (Hvers : verifiedResults m = []) by (apply (mi_unverified m Hinv); congruence).
    split; cbn [command_id command_fingerprint advance commands spec teams state submissions confirmations verifiedResults];
      try done; [by rewrite Hst|by rewrite Hs|by eexists|rewrite Hvers; apply prefix_nil].
  - destruct (DisputeResult_Ok m c m' ev Hinv H) as [Hr|(Hn & _ & s & side & Hst & [Hs _] & _ & _ & _ & _ & _ & ->)];
      [by left|right].
    split; cbn [command_id command_fingerprint advance commands spec teams state submissions confirmations verifiedResults];
      try done; [by rewrite Hst|by rewrite Hs|by eexists].
  - destruct (AdminOverride_Ok m c m' ev Hinv H) as [Hr|(Hn & _ & Hst & _ & _ & ->)]; [by left|right].
    assert (Hvers : verifiedResults m = []) by by apply (mi_unverified m Hinv).
    split; cbn [command_id command_fingerprint advance commands spec teams state submissions confirmations verifiedResults];
      try done; [by destruct (state m)|by rewrite facts_supersede|rewrite Hvers; apply prefix_nil].
  - destruct (CorrectResult_Ok m c m' ev Hinv H) as [Hr|(Hn & _ & _ & _ & _ & p & Hst & Hl & _ & ->)]; [by left|right].
    split; cbn [command_id command_fingerprint advance commands spec teams state submissions confirmations verifiedResults];
      try done; [by rewrite Hst|by eexists].
Qed.

Definition runs : Match -> Match -> Prop := rtc (fun m m' => exists cmd ev, run_command m cmd = Ok (m', ev)).

Lemma runs_inv m m' : match_inv m -> runs m m' -> match_inv m' /\ commands m ⊆ commands m'.
Proof.
  intros Hinv H. revert Hinv. induction H as [m|m m1 m2 (cmd & ev & Hs) _ IH]; intros Hinv; [done|].
  assert (Hinv1 : match_inv m1) by (eapply match_step_inv; [done|by eapply run_command_step]).
  destruct (IH Hinv1) as [H2 Hsub]. split; [done|]. etrans; [|exact Hsub].
  destruct (run_command_cases m cmd m1 ev Hinv Hs) as [(_ & -> & _)|[Hn -> _ _ _ _ _]]; [done|].
  by apply insert_subseteq.
Qed.

Lemma replay_command m cmd :
  validID (command_id cmd) = true -> commands m !! command_id cmd = Some (command_fingerprint cmd) ->
  run_command m cmd = Ok (m, []).
Proof.
  intros Hv Hl. destruct cmd as [c|c|c|c|c]; cbn [run_command command_id command_fingerprint] in *;
    [unfold SubmitResult|unfold ConfirmResult|unfold DisputeResult|unfold AdminOverride|unfold CorrectResult];
    cbv zeta; rewrite (checkCommand_recorded _ _ _ Hv Hl); done.
Qed.

Lemma conflicting_command m cmd fp :
  validID (command_id cmd) = true -> commands m !! command_id cmd = Some fp ->
  fp <> command_fingerprint cmd -> run_command m cmd = Err ErrIdempotencyConflict.
Proof.
  intros Hv Hl Hne.
  assert (Hc : checkCommand m (command_id cmd) (command_fingerprint cmd) = Err ErrIdempotencyConflict).
  { unfold checkCommand. rewrite Hv, Hl. cbn. by rewrite bool_decide_false. }
  destruct cmd as [c|c|c|c|c]; cbn [run_command command_id command_fingerprint] in *;
    [unfold SubmitResult|unfold ConfirmResult|unfold DisputeResult|unfold AdminOverride|unfold CorrectResult];
    cbv zeta; by rewrite Hc.
Qed.

Lemma run_command_valid_id m cmd r : run_command m cmd = Ok r -> validID (command_id cmd) = true.
Proof.
  destruct cmd as [c|c|c|c|c]; cbn [run_command command_id];
    [unfold SubmitResult|unfold ConfirmResult|unfold DisputeResult|unfold AdminOverride|unfold CorrectResult];
    cbv zeta; intros H; apply bind_Ok in H as (b & H & _); unfold checkCommand in H; go_inv; by bool_prop.
Qed.

(** ** A concrete match *)
Definition ex_team (n : string) (members captains : list ID) : Team :=
  mkTeam ("team-" ++ n)%string "cup" ("Team " ++ n)%string members captains.
Definition ex_spec : MatchSpec :=
  mkMatchSpec "match-1" "cup" FormatSingles (mkMatchSide "side-1" "team-1" ["p1"])
    (mkMatchSide "side-2" "team-2" ["p2"]) (mkTime 63900000000000000000 true).
Definition ex_start : Match :=
  mkMatch ex_spec (ex_team "1" ["p1"; "c1"] ["c1"], ex_team "2" ["p2"] ["p2"]) MatchAwaitingResult [] [] [] ∅.
Definition ex_alice : Actor := mkActor "alice" "p1" RoleMember.
Definition ex_bob : Actor := mkActor "bob" "p2" RoleMember.
Definition ex_admin : Actor := mkActor "root" "" RoleAdmin.
Definition ex_now : Time := mkTime 63900000000000000001 true.
Definition ex_win : Result := mkResult OutcomeSideWin "side-1" " 2 & 1 ".
Definition ex_submit : SubmitResultCommand := mkSubmit "cmd-1" "sub-1" ex_alice ex_win ex_now.
Definition ex_confirm : ConfirmResultCommand := mkConfirm "cmd-2" "conf-1" "ver-1" "sub-1" ex_bob ex_now.
Definition ex_correct : CorrectResultCommand :=
  mkCorrect "cmd-3" "ver-2" ex_admin (mkResult OutcomeTie "" "A/S") "misread card" ex_now.

Definition after (m : Match) (cmd : match_command) : Match :=
  match run_command m cmd with Ok (m', _) => m' | Err _ => m end.
Definition ex_submitted : Match := after ex_start (Submit ex_submit).
Definition ex_confirmed : Match := after ex_submitted (Confirm ex_confirm).
Definition ex_corrected : Match := after ex_confirmed (Correct ex_correct).

Lemma ex_start_reachable : reachable_match ex_start.
Proof.
  apply (rm_new ex_spec (ex_team "1" ["p1"; "c1"] ["c1"]) (ex_team "2" ["p2"] ["p2"])).
  vm_compute. reflexivity.
Qed.

Lemma after_reachable m cmd : reachable_match m -> reachable_match (after m cmd).
Proof.
  intros H. unfold after. destruct (run_command m cmd) as [[m' ev]|e] eqn:E; [|done].
  eapply rm_step; [done|by eapply run_command_step].
Qed.

Lemma ex_corrected_reachable : reachable_match ex_corrected.
Proof. do 3 apply after_reachable. apply ex_start_reachable. Qed.

(** ** Theorems *)

(** C35. Every reachable match is coherent.  Awaiting a result there is no
    submission; awaiting confirmation there is exactly one and it is pending;
    otherwise none is pending.  A result is verified exactly in the verified
    state; the verified results are versions 1, 2, ... in order, each after
    the first correcting, naming and differing from its predecessor; record
    IDs are unique; and every submitted or verified result is a legal result
    of this match. *)
Theorem reachable_match_coherent m :
  reachable_match m ->
  (state m = MatchAwaitingResult -> submissions m = [])
  /\ (state m = MatchAwaitingConfirmation -> exists s, one_pending m s)
  /\ (state m <> MatchAwaitingConfirmation -> Forall (fun s => Sub_State s <> SubmissionPending) (submissions m))
  /\ (state m = MatchVerified <-> verifiedResults m <> [])
  /\ audit_chain (verifiedResults m)
  /\ NoDup (Sub_ID <$> submissions m) /\ NoDup (Conf_ID <$> confirmations m)
  /\ NoDup (Ver_ID <$> verifiedResults m)
  /\ Forall (fun s => result_ok m (Sub_Result s)) (submissions m)
  /\ Forall (fun v => result_ok m (Ver_Result v)) (verifiedResults m).
Proof.
  intros H. pose proof (reachable_match_inv m H) as Hi.
  split_and!; try apply Hi.
  split; [apply (mi_verified m Hi)|]. intros Hne. destruct (decide (state m = MatchVerified)); [done|].
  exfalso. by apply Hne, (mi_unverified m Hi).
Qed.

Lemma reachable_match_coherent_witness :
  (state ex_corrected = MatchVerified <-> verifiedResults ex_corrected <> [])
  /\ audit_chain (verifiedResults ex_corrected) /\ length (verifiedResults ex_corrected) = 2%nat.
Proof.
  destruct (reachable_match_coherent ex_corrected ex_corrected_reachable) as (_ & _ & _ & H1 & H2 & _).
  split; [exact H1|]. split; [exact H2|]. vm_compute. reflexivity.
Defined.

(** Nobody verifies their own result.  In every reachable match each
    confirmation or dispute was made by a user other than the submitter on
    the other side than the submitter's, and every result verified by an
    opponent is the submitted result, confirmed that way. *)
Theorem results_are_confirmed_by_opponents m :
  reachable_match m ->
  Forall (decided_by_opponent (submissions m)) (confirmations m)
  /\ Forall (fun v => Method v = VerificationOpponent ->
       verified_by_opponent (submissions m) (confirmations m) v) (verifiedResults m).
Proof. intros H. pose proof (reachable_match_inv m H) as []. done. Qed.

Lemma results_are_confirmed_by_opponents_witness :
  Forall (decided_by_opponent (submissions ex_corrected)) (confirmations ex_corrected)
  /\ length (confirmations ex_corrected) = 1%nat.
Proof.
  split; [exact (proj1 (results_are_confirmed_by_opponents ex_corrected ex_corrected_reachable))|].
  vm_compute. reflexivity.
Defined.

(** The history of a match is append-only.  Every accepted command either
    is a replay that changes nothing, or records its own fingerprint under a
    fresh command ID, moves the state along the declared graph, keeps the
    specification and teams, and extends the submissions (up to their state),
    the confirmations and the verified results at the end. *)
Theorem match_history_is_append_only m cmd m' ev :
  reachable_match m -> run_command m cmd = Ok (m', ev) ->
  (m' = m /\ ev = [] /\ commands m !! command_id cmd = Some (command_fingerprint cmd)) \/ extends m m' cmd.
Proof.
  intros Hr H. destruct (run_command_cases m cmd m' ev (reachable_match_inv m Hr) H) as [(? & ? & ?)|He]; auto.
Qed.

Lemma match_history_is_append_only_witness :
  verifiedResults ex_confirmed `prefix_of` verifiedResults ex_corrected.
Proof.
  assert (Hr : reachable_match ex_confirmed) by (do 2 apply after_reachable; apply ex_start_reachable).
  destruct (run_command ex_confirmed (Correct ex_correct)) as [[m' ev]|e] eqn:E; [|vm_compute in E; discriminate E].
  assert (Hm : m' = ex_corrected) by (unfold ex_corrected, after; rewrite E; reflexivity).
  destruct (match_history_is_append_only ex_confirmed (Correct ex_correct) m' ev Hr E) as [(H & _)|H].
  - rewrite <- Hm, H. reflexivity.
  - rewrite <- Hm. exact (xt_verified _ _ _ H).
Defined.

(** Commands are idempotent for ever.  Once a command was accepted, then
    in every later state of the match running it again changes nothing and
    emits nothing, and running any other command under its ID is refused as
    an idempotency conflict. *)
Theorem accepted_commands_replay m cmd m' ev m'' :
  reachable_match m -> run_command m cmd = Ok (m', ev) -> runs m' m'' ->
  run_command m'' cmd = Ok (m'', [])
  /\ forall cmd', command_id cmd' = command_id cmd -> command_fingerprint cmd' <> command_fingerprint cmd ->
       run_command m'' cmd' = Err ErrIdempotencyConflict.
Proof.
  intros Hr H Hruns. pose proof (reachable_match_inv m Hr) as Hinv.
  pose proof (run_command_valid_id m cmd _ H) as Hv.
  assert (Hl : commands m' !! command_id cmd = Some (command_fingerprint cmd)).
  { destruct (run_command_cases m cmd m' ev Hinv H) as [(Hc & -> & _)|[_ -> _ _ _ _ _]]; [done|].
    apply lookup_insert_eq. }
  assert (Hinv' : match_inv m') by (eapply match_step_inv; [done|by eapply run_command_step]).
  destruct (runs_inv m' m'' Hinv' Hruns) as [_ Hsub].
  assert (Hl' : commands m'' !! command_id cmd = Some (command_fingerprint cmd)) by by eapply lookup_weaken.
  split; [by apply replay_command|]. intros cmd' Hid Hne.
  apply (conflicting_command _ _ (command_fingerprint cmd)); [by rewrite Hid|by rewrite Hid|congruence].
Qed.

Lemma accepted_commands_replay_witness :
  run_command ex_corrected (Submit ex_submit) = Ok (ex_corrected, []).
Proof.
  destruct (run_command ex_start (Submit ex_submit)) as [[m' ev]|e] eqn:E; [|vm_compute in E; discriminate E].
  assert (Hm : m' = ex_submitted) by (unfold ex_submitted, after; rewrite E; reflexivity).
  refine (proj1 (accepted_commands_replay ex_start (Submit ex_submit) m' ev ex_corrected ex_start_reachable E _)).
  rewrite Hm. eapply rtc_l; [exists (Confirm ex_confirm); eexists; vm_compute; reflexivity|].
  eapply rtc_l; [exists (Correct ex_correct); eexists; vm_compute; reflexivity|]. apply rtc_refl.
Defined.

(** An administrator can always resolve a match.  In every reachable
    match a privileged actor with a reason, a legal result and fresh IDs can
    override an unverified match, and can correct a verified one to any
    different result; in particular indexing the last verified result never
    panics. *)
Theorem administrators_can_always_resolve m id vid actor r reason at_ :
  reachable_match m -> validID id = true -> commands m !! id = None ->
  validID vid = true -> vid ∉ Ver_ID <$> verifiedResults m ->
  validID (Actor_UserID actor) = true -> privileged (Actor_Role actor) = true ->
  is_blank reason = false -> IsZero at_ = false -> result_ok m r ->
  (state m <> MatchVerified ->
     exists m' ev, AdminOverride m (mkOverride id vid actor r reason at_) = Ok (m', ev)
       /\ state m' = MatchVerified)
  /\ (state m = MatchVerified ->
     match CorrectResult m (mkCorrect id vid actor r reason at_) with
     | Ok (m', _) => exists v, last (verifiedResults m') = Some v /\ Ver_Result v = normalized r
     | Err e => e = ErrResultUnchanged
                /\ exists p, last (verifiedResults m) = Some p /\ Result_equal (Ver_Result p) r = true
     end).
Proof.
  intros Hr Hid Hc Hvid Hfresh Hu Hp Hre Ht Hok. pose proof (reachable_match_inv m Hr) as Hinv.
  assert (Hcheck : forall fp, checkCommand m id fp = Ok false).
  { intros fp. unfold checkCommand. by rewrite Hid, Hc. }
  assert (Hval : validateCommand actor at_ [vid] = Ok ()).
  { unfold validateCommand, Actor_validate. rewrite Hu, Ht. cbn. rewrite Hvid.
    by destruct (Actor_Role actor). }
  assert (Hnone : is_some (verificationByID m vid) = false).
  { unfold verificationByID. destruct (find_first _ _) as [[i v]|] eqn:E; [|done].
    apply find_first_Some in E as [Hl He]. bool_prop. exfalso. apply Hfresh, list_elem_of_fmap.
    exists v. split; [done|]. by eapply list_elem_of_lookup_2. }
  split; intros Hst.
  - unfold AdminOverride. cbv zeta. cbn [AO_CommandID AO_VerificationID AO_Actor AO_Result AO_Reason AO_OccurredAt].
    rewrite Hcheck. cbn [mbind result_bind]. rewrite Hval, Hp. unfold result_ok in Hok. rewrite Hok, Hnone.
    unfold is_blank in Hre. rewrite Hre.
    assert (negb (bool_decide (state m = MatchAwaitingResult))
            && negb (bool_decide (state m = MatchAwaitingConfirmation))
            && negb (bool_decide (state m = MatchDisputed)) = false) as -> by by destruct (state m).
    eexists _, _. split; reflexivity.
  - unfold CorrectResult. cbv zeta. cbn [CC_CommandID CC_VerificationID CC_Actor CC_Result CC_Reason CC_OccurredAt].
    rewrite Hcheck. cbn [mbind result_bind]. rewrite Hval, Hp, Hst. unfold result_ok in Hok. rewrite Hok, Hnone.
    unfold is_blank in Hre. rewrite Hre. cbn [negb fail_if mbind result_bind bool_decide].
    rewrite bool_decide_true by done. cbn [negb fail_if mbind result_bind].
    destruct (last (verifiedResults m)) as [p|] eqn:Hl.
    2:{ apply last_None in Hl. by destruct (mi_verified m Hinv Hst). }
    destruct (Result_equal (Ver_Result p) (normalized r)) eqn:Heq; cbn [fail_if mbind result_bind].
    + split; [done|]. exists p. split; [done|]. unfold Result_equal in *. by rewrite normalized_idem in Heq.
    + eexists. cbn [verifiedResults advance]. rewrite last_snoc. done.
Qed.

Lemma administrators_can_always_resolve_witness :
  exists m' ev, AdminOverride ex_submitted (mkOverride "cmd-9" "ver-9" ex_admin ex_win "stalled" ex_now) = Ok (m', ev)
    /\ state m' = MatchVerified.
Proof.
  assert (Hr : reachable_match ex_submitted) by (apply after_reachable, ex_start_reachable).
  assert (Hf : "ver-9"%string ∉ Ver_ID <$> verifiedResults ex_submitted) by (apply (bool_decide_unpack _); by vm_compute).
  apply (proj1 (administrators_can_always_resolve ex_submitted "cmd-9" "ver-9" ex_admin ex_win "stalled" ex_now
    Hr eq_refl eq_refl eq_refl Hf eq_refl eq_refl eq_refl eq_refl eq_refl)).
  vm_compute. discriminate.
Defined.
