(* ===== verification/Dispatcher.v ===== *)
(** * internal/events/dispatcher.go: driving consumers from the outbox

    The store is an interface: a state, the operations of [OutboxStore] on it
    and the two facts the dispatcher relies on, which events a consumer has a
    receipt for and which lifecycle state an outbox row is in.  Consumers act
    on a world of their own.  Logging and the polling timer of [Run] are not
    modelled; [tick] is one iteration. *)
From S2P Require Import Prelude GoStrings GoTime Events.

Record ClaimedEvent := mkClaimedEvent {
  CE_Envelope : Envelope;
  OutboxID : string;
  AttemptCount : Z;
  MaxAttempts : Z
}.

(** [OutboxStore], with the views its laws are stated in. *)
Class OutboxStore (S : Type) := {
  ClaimBatch : string -> Z -> S -> S * result (list ClaimedEvent);
  MarkCompleted : string -> S -> S * result unit;
  MarkRetry : string -> Time -> string -> S -> S * result unit;
  MarkFailed : string -> string -> S -> S * result unit;
  ReleaseStale : Z -> S -> S * result Z;
  HasReceipt : string -> string -> S -> S * result bool;
  RecordReceipt : string -> string -> S -> S * result unit;
  receipts : S -> gset (string * string);
  outbox_state : S -> string -> option OutboxState
}.

(** What every implementation promises the dispatcher: reading a receipt
    reports what is recorded and records nothing, recording one adds exactly
    it, receipts are never lost and marking a row touches no receipt; a mark
    that succeeds moved a processing row, and only that row; a failed call
    leaves receipts and rows alone. *)
Class OutboxLaws (S : Type) `{OutboxStore S} := {
  HasReceipt_spec c id s s' r :
    HasReceipt c id s = (s', r) ->
    receipts s' = receipts s /\ outbox_state s' = outbox_state s
    /\ forall b, r = Ok b -> b = bool_decide ((c, id) ∈ receipts s);
  RecordReceipt_spec c id s s' r :
    RecordReceipt c id s = (s', r) ->
    outbox_state s' = outbox_state s
    /\ receipts s' = match r with Ok _ => {[(c, id)]} ∪ receipts s | Err _ => receipts s end;
  MarkCompleted_spec id s s' r :
    MarkCompleted id s = (s', r) ->
    receipts s' = receipts s
    /\ match r with
       | Ok _ => outbox_state s id = Some OutboxProcessing
                 /\ (forall k, outbox_state s' k = if bool_decide (k = id) then Some OutboxCompleted else outbox_state s k)
       | Err _ => outbox_state s' = outbox_state s
       end;
  MarkRetry_spec id at_ msg s s' r :
    MarkRetry id at_ msg s = (s', r) ->
    receipts s' = receipts s
    /\ match r with
       | Ok _ => outbox_state s id = Some OutboxProcessing
                 /\ (forall k, outbox_state s' k = if bool_decide (k = id) then Some OutboxPending else outbox_state s k)
       | Err _ => outbox_state s' = outbox_state s
       end;
  MarkFailed_spec id msg s s' r :
    MarkFailed id msg s = (s', r) ->
    receipts s' = receipts s
    /\ match r with
       | Ok _ => outbox_state s id = Some OutboxProcessing
                 /\ (forall k, outbox_state s' k = if bool_decide (k = id) then Some OutboxFailed else outbox_state s k)
       | Err _ => outbox_state s' = outbox_state s
       end
}.

(** A consumer that acts on a world [W]. *)
Record Consumer (W : Type) := mkConsumer {
  Name : string;
  Handles : EventType -> bool;
  Handle : Envelope -> W -> W * option error
}.
Arguments Name {W}.
Arguments Handles {W}.
Arguments Handle {W}.
Arguments mkConsumer {W}.

(** [HasStore] is [cfg.Store != nil]; a nil consumer is [None]. *)
Record DispatcherConfig (W : Type) := mkDispatcherConfig {
  HasStore : bool;
  Consumers : list (option (Consumer W));
  PollInterval : Z;
  BatchSize : Z;
  LockLease : Z;
  WorkerID : string;
  BackoffBase : Z;
  BackoffCap : Z
}.
Arguments HasStore {W}.
Arguments Consumers {W}.
Arguments PollInterval {W}.
Arguments BatchSize {W}.
Arguments LockLease {W}.
Arguments WorkerID {W}.
Arguments BackoffBase {W}.
Arguments BackoffCap {W}.

Record Dispatcher (W : Type) := mkDispatcher {
  consumers : list (Consumer W);
  pollInterval : Z;
  batchSize : Z;
  lockLease : Z;
  workerID : string;
  backoffBase : Z;
  backoffCap : Z
}.
Arguments mkDispatcher {W}.
Arguments consumers {W}.
Arguments pollInterval {W}.
Arguments batchSize {W}.
Arguments lockLease {W}.
Arguments workerID {W}.
Arguments backoffBase {W}.
Arguments backoffCap {W}.

(** The loop of [NewDispatcher] over the configured consumers. *)
Fixpoint check_consumers {W} (cs : list (option (Consumer W))) (seen : gset string)
    : result (list (Consumer W)) :=
  match cs with
  | [] => Ok []
  | None :: _ => Err (Errorf "dispatcher: consumer must not be nil")
  | Some consumer :: rest =>
      let name := Name consumer in
      fail_if ((len (TrimSpace name) =? 0) || (120 <? len name))
        (Errorf "dispatcher: consumer name %q must be 1-120 characters");;
      fail_if (bool_decide (name ∈ seen)) (Errorf "dispatcher: duplicate consumer name %q");;
      checked ← check_consumers rest ({[name]} ∪ seen);
      Ok (consumer :: checked)
  end.

Definition NewDispatcher {W} (cfg : DispatcherConfig W) : result (Dispatcher W) :=
  fail_if (negb (HasStore cfg)) (Errorf "dispatcher: outbox store is required");;
  fail_if (Z.of_nat (length (Consumers cfg)) =? 0) (Errorf "dispatcher: at least one consumer is required");;
  checked ← check_consumers (Consumers cfg) ∅;
  fail_if (is_blank (WorkerID cfg)) (Errorf "dispatcher: worker id is required");;
  fail_if (PollInterval cfg <=? 0) (Errorf "dispatcher: poll interval must be positive");;
  fail_if (BatchSize cfg <=? 0) (Errorf "dispatcher: batch size must be positive");;
  fail_if (LockLease cfg <=? 0) (Errorf "dispatcher: lock lease must be positive");;
  fail_if (BackoffBase cfg <=? 0) (Errorf "dispatcher: backoff base must be positive");;
  fail_if (BackoffCap cfg <? BackoffBase cfg)
    (Errorf "dispatcher: backoff cap must be greater than or equal to backoff base");;
  Ok (mkDispatcher checked (PollInterval cfg) (BatchSize cfg) (LockLease cfg) (WorkerID cfg)
        (BackoffBase cfg) (BackoffCap cfg)).

(** [maxShift], and the delay before jitter. *)
Definition maxShift : Z := 62.
Definition base_delay (base cap attempt : Z) : Z :=
  let attempt := if attempt <? 1 then 1 else attempt in
  let shift := attempt - 1 in
  let shift := if maxShift <? shift then maxShift else shift in
  let delay := wrap64 (base * wrap64 (Z.shiftl 1 shift)) in
  if (delay <=? 0) || (cap <? delay) then cap else delay.

Definition backoffDelay {W} (d : Dispatcher W) (randInt63n : Z -> Z) (attempt : Z) : Z :=
  let delay := base_delay (backoffBase d) (backoffCap d) attempt in
  let half := quot64 delay 2 in
  let jitter := if 0 <? half then randInt63n (wrap64 (half + 1)) else 0 in
  wrap64 (half + jitter).

Section dispatch.
Context {S : Type} `{OutboxStore S} {W : Type}.
(** [error.Error], the rendering of an error. *)
Variable Error : error -> string.

(** The consumer loop of [processEvent]; the second component is the
    failure it broke with, if any. *)
Fixpoint run_consumers (cs : list (Consumer W)) (event : ClaimedEvent) (s : S) (w : W)
    : S * W * option error :=
  match cs with
  | [] => (s, w, None)
  | consumer :: rest =>
      if negb (Handles consumer (Env_Type (CE_Envelope event))) then run_consumers rest event s w
      else
        let '(s, done) := HasReceipt (Name consumer) (OutboxID event) s in
        match done with
        | Err err => (s, w, Some err)
        | Ok true => run_consumers rest event s w
        | Ok false =>
            let '(w, failed) := Handle consumer (CE_Envelope event) w in
            match failed with
            | Some err => (s, w, Some err)
            | None =>
                let '(s, recorded) := RecordReceipt (Name consumer) (OutboxID event) s in
                match recorded with
                | Err err => (s, w, Some err)
                | Ok _ => run_consumers rest event s w
                end
            end
        end
  end.

Definition handleFailure (d : Dispatcher W) (now : Time) (randInt63n : Z -> Z)
    (event : ClaimedEvent) (cause : error) (s : S) : S :=
  if MaxAttempts event <=? AttemptCount event then
    (MarkFailed (OutboxID event) (Error cause) s).1
  else
    let availableAt := TimeAdd (UTC now) (backoffDelay d randInt63n (AttemptCount event)) in
    (MarkRetry (OutboxID event) availableAt (Error cause) s).1.

Definition processEvent (d : Dispatcher W) (now : Time) (randInt63n : Z -> Z)
    (event : ClaimedEvent) (s : S) (w : W) : S * W :=
  let '(s, w, failure) := run_consumers (consumers d) event s w in
  match failure with
  | Some cause => (handleFailure d now randInt63n event cause s, w)
  | None => ((MarkCompleted (OutboxID event) s).1, w)
  end.

(** What the environment supplies while one event is processed: whether the
    context was cancelled before it, the clock and the random source. *)
Record surroundings := mkSurroundings { cancelled : bool; clock : Time; random : Z -> Z }.

Fixpoint process_claimed (d : Dispatcher W) (env : nat -> surroundings)
    (claimed : list ClaimedEvent) (s : S) (w : W) : S * W :=
  match claimed with
  | [] => (s, w)
  | event :: rest =>
      if cancelled (env 0%nat) then (s, w)
      else
        let '(s, w) := processEvent d (clock (env 0%nat)) (random (env 0%nat)) event s w in
        process_claimed d (fun i => env (Datatypes.S i)) rest s w
  end.

Definition tick (d : Dispatcher W) (env : nat -> surroundings) (s : S) (w : W) : S * W :=
  let '(s, _) := ReleaseStale (lockLease d) s in
  let '(s, claimed) := ClaimBatch (workerID d) (batchSize d) s in
  match claimed with
  | Err _ => (s, w)
  | Ok claimed => process_claimed d env claimed s w
  end.
End dispatch.

(** ** Lemmas *)
Definition interested {W} (event : ClaimedEvent) (c : Consumer W) : Prop :=
  Handles c (Env_Type (CE_Envelope event)) = true.

Section dispatch_lemmas.
Context {S : Type} `{OutboxLaws S} {W : Type}.
Variable Error : error -> string.

Definition receipted (s : S) (event : ClaimedEvent) (c : Consumer W) : Prop :=
  (Name c, OutboxID event) ∈ receipts s.

Lemma run_consumers_spec (cs : list (Consumer W)) event s w s' w' failure :
  run_consumers cs event s w = (s', w', failure) ->
  receipts s ⊆ receipts s' /\ outbox_state s' = outbox_state s
  /\ (failure = None -> forall c, c ∈ cs -> interested event c -> receipted s' event c)
  /\ ((forall c, c ∈ cs -> interested event c -> receipted s event c) -> w' = w).
Proof.
  revert s w. induction cs as [|c cs IH]; intros s w Hrun; cbn [run_consumers] in Hrun.
  { injection Hrun as <- <- <-. split_and!; [done|done|set_solver|done]. }
  destruct (Handles c _) eqn:Hh; cbn [negb] in Hrun.
  2:{ destruct (IH _ _ Hrun) as (H1 & H2 & H3 & H4). split_and!; [done|done| |].
      - intros Hf x [->|Hx]%elem_of_cons Hi; [unfold interested in Hi; congruence|by apply H3].
      - intros Hall. apply H4. intros x Hx. apply Hall. set_solver. }
  destruct (HasReceipt _ _ s) as [s1 done] eqn:Ehr.
  destruct (HasReceipt_spec _ _ _ _ _ Ehr) as (R1 & O1 & Hb).
  destruct done as [[]|err].
  - specialize (Hb true eq_refl). symmetry in Hb. apply bool_decide_eq_true in Hb.
    destruct (IH _ _ Hrun) as (H1 & H2 & H3 & H4). rewrite R1 in H1. split_and!; [done|congruence| |].
    + intros Hf x [->|Hx]%elem_of_cons Hi; [|by apply H3]. unfold receipted. set_solver.
    + intros Hall. apply H4. intros x Hx Hi. unfold receipted. rewrite R1. apply Hall; [set_solver|done].
  - specialize (Hb false eq_refl). symmetry in Hb. apply bool_decide_eq_false in Hb.
    assert (Hno : (forall x, x ∈ c :: cs -> interested event x -> receipted s event x) -> False).
    { intros Hall. apply Hb. apply (Hall c); [set_solver|done]. }
    destruct (Handle c _ w) as [w1 failed]. destruct failed as [err|].
    { injection Hrun as <- <- <-. rewrite R1, O1. split_and!; [done|done|done|naive_solver]. }
    destruct (RecordReceipt _ _ s1) as [s2 recorded] eqn:Err_.
    destruct (RecordReceipt_spec _ _ _ _ _ Err_) as (O2 & R2).
    destruct recorded as [u|err].
    + destruct (IH _ _ Hrun) as (H1 & H2 & H3 & H4). rewrite R2, R1 in H1.
      split_and!; [set_solver|congruence| |naive_solver].
      intros Hf x [->|Hx]%elem_of_cons Hi; [|by apply H3]. unfold receipted. set_solver.
    + injection Hrun as <- <- <-. rewrite R2, R1, O2, O1. split_and!; [done|done|done|naive_solver].
  - injection Hrun as <- <- <-. rewrite R1, O1. split_and!; done.
Qed.
End dispatch_lemmas.

Lemma base_delay_bounds base cap attempt : 0 < base <= cap -> 0 < base_delay base cap attempt <= cap.
Proof.
  intros Hb. unfold base_delay. cbv zeta.
  match goal with |- context [wrap64 (base * ?x)] => generalize (wrap64 (base * x)); intros z end.
  destruct (Z.leb_spec z 0), (Z.ltb_spec cap z); cbn; lia.
Qed.

(** ** Theorems *)

(** Retry delays are bounded, jittered exponential back-off.  For any
    validated configuration, attempt number and uniform source, the delay
    lies between half of the unjittered delay and the whole of it, which is
    positive and at most the cap; and as long as base * 2^(attempt-1) fits in
    an int64 the unjittered delay is exactly its minimum with the cap. *)
Theorem backoffDelay_bounded {W} (d : Dispatcher W) rnd attempt :
  0 < backoffBase d <= backoffCap d -> backoffCap d <= MaxInt64 ->
  (forall n, 0 < n -> 0 <= rnd n < n) ->
  let delay := base_delay (backoffBase d) (backoffCap d) attempt in
  delay / 2 <= backoffDelay d rnd attempt <= delay
  /\ 0 < delay <= backoffCap d
  /\ (let k := Z.min 62 (Z.max 0 (attempt - 1)) in
      backoffBase d * 2 ^ k <= MaxInt64 -> delay = Z.min (backoffCap d) (backoffBase d * 2 ^ k)).
Proof.
  intros Hb Hc Hr delay. pose proof (base_delay_bounds _ (backoffCap d) attempt Hb) as Hd. fold delay in Hd.
  split; [|split; [exact Hd|]].
  - unfold backoffDelay. fold delay.
    assert (Hq : quot64 delay 2 = delay / 2).
    { unfold quot64. rewrite Z.quot_div_nonneg by lia. apply wrap64_id.
      unfold int64, MinInt64, MaxInt64 in *. pose proof (Z.div_le_upper_bound delay 2 delay). pose proof (Z.div_pos delay 2). lia. }
    rewrite Hq. pose proof (Z.div_mod delay 2). pose proof (Z.mod_pos_bound delay 2).
    destruct (Z.ltb_spec 0 (delay / 2)) as [Hpos|Hz].
    + rewrite (wrap64_id (delay / 2 + 1)) by (unfold int64, MinInt64, MaxInt64 in *; lia).
      specialize (Hr (delay / 2 + 1) ltac:(lia)).
      rewrite wrap64_id by (unfold int64, MinInt64, MaxInt64 in *; lia). lia.
    + rewrite wrap64_id by (unfold int64, MinInt64, MaxInt64 in *; lia). lia.
  - cbv zeta. intros Hfit. unfold delay, base_delay, maxShift. cbv zeta.
    set (shift := if 62 <? _ then _ else _).
    assert (Hs : shift = Z.min 62 (Z.max 0 (attempt - 1))).
    { unfold shift. destruct (Z.ltb_spec attempt 1).
      - destruct (Z.ltb_spec 62 (1 - 1)); lia.
      - destruct (Z.ltb_spec 62 (attempt - 1)); lia. }
    rewrite <- Hs in *. assert (0 <= shift <= 62) by lia.
    rewrite Z.shiftl_1_l.
    assert (Hp : 1 <= 2 ^ shift <= 2 ^ 62).
    { split; [pose proof (Z.pow_pos_nonneg 2 shift); lia|apply Z.pow_le_mono_r; lia]. }
    change (2 ^ 62) with 4611686018427387904 in Hp.
    rewrite (wrap64_id (2 ^ shift)) by (unfold int64, MinInt64, MaxInt64 in *; lia).
    rewrite wrap64_id by (unfold int64, MinInt64, MaxInt64 in *; nia).
    destruct (Z.leb_spec (backoffBase d * 2 ^ shift) 0); [nia|].
    destruct (Z.ltb_spec (backoffCap d) (backoffBase d * 2 ^ shift)); cbn; lia.
Qed.

Definition ex_dispatcher : Dispatcher unit :=
  mkDispatcher [] Second 10 Minute "worker-1" Second (5 * Minute).

Lemma backoffDelay_bounded_witness :
  2 * Second <= backoffDelay ex_dispatcher (fun n => n - 1) 3 <= 4 * Second.
Proof.
  assert (Hb : 0 < backoffBase ex_dispatcher <= backoffCap ex_dispatcher) by (cbv; split; congruence).
  assert (Hc : backoffCap ex_dispatcher <= MaxInt64) by (cbv; congruence).
  assert (Hr : forall n, 0 < n -> 0 <= (fun n => n - 1) n < n) by (intros n Hn; cbv beta; lia).
  destruct (backoffDelay_bounded ex_dispatcher (fun n => n - 1) 3 Hb Hc Hr) as (H & _ & _).
  change (base_delay (backoffBase ex_dispatcher) (backoffCap ex_dispatcher) 3) with (4 * Second) in H.
  exact H.
Defined.

(** The guard on the shift does not rule out overflow: a base that is not a
    power of two can wrap to a tiny positive delay.  Here the 25th attempt of
    a base and cap of about eighteen minutes waits at most 17 milliseconds. *)
Remark backoff_delay_can_wrap :
  base_delay (2 ^ 40 + 1) (2 ^ 40 + 1) 25 = 2 ^ 24.
Proof. vm_compute. reflexivity. Qed.

(** C34. Processing one claimed event is sound against every store that keeps
    the interface's laws.  Receipts are never lost and no other row changes
    state; the event's row stays put or moves along the outbox lifecycle; if
    it is completed then every consumer interested in it holds a receipt; it
    fails for good only when its attempts are used up and goes back to pending
    only before that; and if every interested consumer already had its receipt
    none of them is called again. *)
Theorem processEvent_sound {S} `{OutboxLaws S} {W} Error (d : Dispatcher W) now rnd event s w s' w' :
  processEvent Error d now rnd event s w = (s', w') ->
  outbox_state s (OutboxID event) = Some OutboxProcessing ->
  receipts s ⊆ receipts s'
  /\ (forall k, k <> OutboxID event -> outbox_state s' k = outbox_state s k)
  /\ (exists st, outbox_state s' (OutboxID event) = Some st
        /\ (st = OutboxProcessing \/ OutboxState_CanTransitionTo OutboxProcessing st = true)
        /\ (st = OutboxCompleted -> forall c, c ∈ consumers d -> interested event c -> receipted s' event c)
        /\ (st = OutboxFailed -> MaxAttempts event <= AttemptCount event)
        /\ (st = OutboxPending -> AttemptCount event < MaxAttempts event))
  /\ ((forall c, c ∈ consumers d -> interested event c -> receipted s event c) -> w' = w).
Proof.
  unfold processEvent. intros Hp Hst.
  destruct (run_consumers (consumers d) event s w) as [[s1 w1] failure] eqn:Erun.
  destruct (run_consumers_spec _ _ _ _ _ _ _ Erun) as (R1 & O1 & C1 & W1).
  rewrite <- O1 in Hst. destruct failure as [cause|]; injection Hp as <- <-.
  - unfold handleFailure. destruct (Z.leb_spec (MaxAttempts event) (AttemptCount event)).
    + destruct (MarkFailed _ _ s1) as [s2 r] eqn:Em. destruct (MarkFailed_spec _ _ _ _ _ Em) as (R2 & O2).
      cbn [fst]. rewrite R2. destruct r as [u|e]; [destruct O2 as [_ O2]|rewrite O2].
      * split_and!; [done|intros k Hk; by rewrite O2, bool_decide_false, O1 by done| |done].
        exists OutboxFailed. rewrite O2, bool_decide_true by done. split_and!; try done. by right.
      * split_and!; [done|by rewrite O1| |done]. exists OutboxProcessing. split_and!; try done. by left.
    + destruct (MarkRetry _ _ _ s1) as [s2 r] eqn:Em. destruct (MarkRetry_spec _ _ _ _ _ _ Em) as (R2 & O2).
      cbn [fst]. rewrite R2. destruct r as [u|e]; [destruct O2 as [_ O2]|rewrite O2].
      * split_and!; [done|intros k Hk; by rewrite O2, bool_decide_false, O1 by done| |done].
        exists OutboxPending. rewrite O2, bool_decide_true by done. split_and!; try done. by right.
      * split_and!; [done|by rewrite O1| |done]. exists OutboxProcessing. split_and!; try done. by left.
  - destruct (MarkCompleted _ s1) as [s2 r] eqn:Em. destruct (MarkCompleted_spec _ _ _ _ Em) as (R2 & O2).
    cbn [fst]. unfold receipted. rewrite R2. destruct r as [u|e]; [destruct O2 as [_ O2]|rewrite O2].
    + split_and!; [done|intros k Hk; by rewrite O2, bool_decide_false, O1 by done| |done].
      exists OutboxCompleted. rewrite O2, bool_decide_true by done. split_and!; try done; [by right|].
      intros _. by apply C1.
    + split_and!; [done|by rewrite O1| |done]. exists OutboxProcessing. split_and!; try done. by left.
Qed.
