(* ===== verification/OutboxPG.v ===== *)
(** * internal/eventspg/store.go: the outbox in PostgreSQL

    The two tables are maps keyed by their primary keys and each statement is
    its documented effect on them: one atomic statement per call, with the
    table constraints of the schema that can make it fail.  [faults] lists the
    outcomes of the coming statements: [Some e] makes the statement fail with
    [e] and no effect, which is what a broken connection or an aborted
    statement does.  The order of the rows an UPDATE returns is unspecified;
    the model returns them in the order they were selected. *)
From S2P Require Import Prelude GoStrings GoTime Events Dispatcher.

Definition maxLastErrorLength : Z := 2000.

Definition truncateError (msg : string) : string :=
  let msg := TrimSpace msg in
  if len msg <=? maxLastErrorLength then msg
  else
    let runes := runes_of (bytes msg) in
    if Z.of_nat (length runes) <=? maxLastErrorLength then msg
    else of_bytes (concat (take (Z.to_nat maxLastErrorLength) runes)).

Record row := mkRow {
  envelope : Envelope;
  available_at : Time;
  row_state : OutboxState;
  attempt_count : Z;
  max_attempts : Z;
  locked_at : option Time;
  locked_by : option string;
  completed_at : option Time;
  failed_at : option Time;
  last_error : option string
}.

#[export] Instance row_eq_dec : EqDecision row.
Proof. solve_decision. Defined.

(** The pool ([HasPool] is [s.Pool != nil]), the clock, the rows that other
    transactions hold locked, and the coming statement outcomes. *)
Record Store := mkStore {
  HasPool : bool;
  rows : gmap string row;
  receipt_rows : gset (string * string);
  now : Time;
  row_locks : gset string;
  faults : list (option error)
}.

Definition with_rows (m : gmap string row) (s : Store) : Store :=
  mkStore (HasPool s) m (receipt_rows s) (now s) (row_locks s) (faults s).
Definition with_receipts (m : gset (string * string)) (s : Store) : Store :=
  mkStore (HasPool s) (rows s) m (now s) (row_locks s) (faults s).

(** Run one statement: the guard on the pool, the next outcome, the wrapping
    of a driver error, and otherwise the statement's own effect. *)
Definition statement {A} (wrap : string) (s : Store) (effect : Store -> Store * result A)
    : Store * result A :=
  if negb (HasPool s) then (s, Err (Errorf "eventspg: pool is required"))
  else
    let s' := mkStore (HasPool s) (rows s) (receipt_rows s) (now s) (row_locks s) (tail (faults s)) in
    match head (faults s) with
    | Some (Some err) => (s', Err (Wrapf wrap err))
    | _ => effect s'
    end.

(** [UPDATE ... WHERE id = $1 AND state = 'processing'] and its row count. *)
Definition update_processing (id : string) (f : row -> row) (missing : string) (s : Store)
    : Store * result unit :=
  match rows s !! id with
  | Some r =>
      if bool_decide (row_state r = OutboxProcessing)
      then (with_rows (<[id := f r]> (rows s)) s, Ok ())
      else (s, Err (Errorf missing))
  | None => (s, Err (Errorf missing))
  end.

Definition Store_MarkCompleted (outboxID : string) (s : Store) : Store * result unit :=
  statement "mark outbox event completed: %w" s (fun s =>
    update_processing outboxID
      (fun r => mkRow (envelope r) (available_at r) OutboxCompleted (attempt_count r) (max_attempts r)
         None None (Some (now s)) None None)
      "mark outbox event %s completed: not in processing state" s).

Definition Store_MarkRetry (outboxID : string) (availableAt : Time) (lastError : string) (s : Store)
    : Store * result unit :=
  statement "mark outbox event retry: %w" s (fun s =>
    update_processing outboxID
      (fun r => mkRow (envelope r) availableAt OutboxPending (attempt_count r) (max_attempts r)
         None None None None (Some (truncateError lastError)))
      "mark outbox event %s for retry: not in processing state" s).

Definition Store_MarkFailed (outboxID lastError : string) (s : Store) : Store * result unit :=
  let truncated := truncateError lastError in
  let truncated := if is_blank truncated then "unknown error"%string else truncated in
  statement "mark outbox event failed: %w" s (fun s =>
    update_processing outboxID
      (fun r => mkRow (envelope r) (available_at r) OutboxFailed (attempt_count r) (max_attempts r)
         None None None (Some (now s)) (Some truncated))
      "mark outbox event %s failed: not in processing state" s).

Definition before (t : option Time) (cutoff : Time) : bool :=
  match t with Some t => Before t cutoff | None => false end.

Definition stale (cutoff : Time) (r : row) : bool :=
  bool_decide (row_state r = OutboxProcessing) && before (locked_at r) cutoff.

Definition Store_ReleaseStale (olderThan : Z) (s : Store) : Store * result Z :=
  if negb (HasPool s) then (s, Err (Errorf "eventspg: pool is required"))
  else if olderThan <=? 0 then (s, Err (Errorf "eventspg: lease duration must be positive"))
  else
    let cutoff := TimeAdd (UTC (now s)) (- olderThan) in
    statement "release stale outbox locks: %w" s (fun s =>
      (with_rows ((fun r => if stale cutoff r
                            then mkRow (envelope r) (available_at r) OutboxPending (attempt_count r)
                                   (max_attempts r) None None (completed_at r) (failed_at r) (last_error r)
                            else r) <$> rows s) s,
       Ok (Z.of_nat (size (filter (fun kr => stale cutoff kr.2 = true) (rows s)))))).

(** [ORDER BY available_at, occurred_at, id] *)
Definition claim_le (a b : string * row) : Prop :=
  nanos (available_at a.2) < nanos (available_at b.2)
  \/ (nanos (available_at a.2) = nanos (available_at b.2)
      /\ (nanos (OccurredAt (envelope a.2)) < nanos (OccurredAt (envelope b.2))
          \/ (nanos (OccurredAt (envelope a.2)) = nanos (OccurredAt (envelope b.2)) /\ String.le a.1 b.1))).
#[export] Instance claim_le_dec a b : Decision (claim_le a b).
Proof. unfold claim_le. apply _. Defined.

Definition due (s : Store) (kr : string * row) : Prop :=
  row_state kr.2 = OutboxPending /\ nanos (available_at kr.2) <= nanos (now s) /\ kr.1 ∉ row_locks s.
#[export] Instance due_dec s kr : Decision (due s kr).
Proof. unfold due. apply _. Defined.

(** The rows the sub-select picks. *)
Definition selected (limit : Z) (s : Store) : list (string * row) :=
  take (Z.to_nat limit) (merge_sort claim_le (map_to_list (filter (due s) (rows s)))).

Definition claim (workerID : string) (at_ : Time) (r : row) : row :=
  mkRow (envelope r) (available_at r) OutboxProcessing (attempt_count r + 1) (max_attempts r)
    (Some at_) (Some workerID) (completed_at r) (failed_at r) (last_error r).

Definition claimed_event (kr : string * row) : ClaimedEvent :=
  let e := envelope kr.2 in
  mkClaimedEvent (mkEnvelope kr.1 (AggregateType e) (AggregateID e) (AggregateVersion e) (Env_Type e)
                    (Payload e) (UTC (OccurredAt e)) (CorrelationID e) (CausationID e))
    kr.1 (attempt_count kr.2) (max_attempts kr.2).

Definition Store_ClaimBatch (workerID : string) (limit : Z) (s : Store)
    : Store * result (list ClaimedEvent) :=
  if negb (HasPool s) then (s, Err (Errorf "eventspg: pool is required"))
  else if is_blank workerID then (s, Err (Errorf "eventspg: worker id is required"))
  else if limit <=? 0 then (s, Err (Errorf "eventspg: limit must be positive"))
  else
    statement "claim outbox batch: %w" s (fun s =>
      let claimed := prod_map id (claim workerID (now s)) <$> selected limit s in
      (with_rows (list_to_map claimed ∪ rows s) s, Ok (claimed_event <$> claimed))).

Definition Store_HasReceipt (consumer eventID : string) (s : Store) : Store * result bool :=
  statement "check event receipt: %w" s (fun s =>
    (s, Ok (bool_decide ((consumer, eventID) ∈ receipt_rows s)))).

(** The receipt references its outbox row; marshalling the empty result map
    cannot fail. *)
Definition Store_RecordReceipt (consumer eventID : string) (s : Store) : Store * result unit :=
  statement "record event receipt: %w" s (fun s =>
    match rows s !! eventID with
    | None => (s, Err (Wrapf "record event receipt: %w" (Errorf "violates foreign key constraint")))
    | Some _ => (with_receipts ({[(consumer, eventID)]} ∪ receipt_rows s) s, Ok ())
    end).

(** [Publish]: the insert, its conflict target and the constraints an envelope
    that validates can still violate. *)
Definition same_fact (e e' : Envelope) : bool :=
  bool_decide (AggregateType e = AggregateType e') && bool_decide (AggregateID e = AggregateID e')
  && bool_decide (AggregateVersion e = AggregateVersion e') && bool_decide (Env_Type e = Env_Type e').

Definition Publish (e : Envelope) (maxAttempts : Z) (s : Store) : Store * result unit :=
  if negb (HasPool s) then (s, Err (Errorf "eventspg: exec is required"))
  else
    match Envelope_Validate e with
    | Err err => (s, Err err)
    | Ok _ =>
        if (maxAttempts <? 1) || (100 <? maxAttempts)
        then (s, Err (Errorf "eventspg: max attempts must be between 1 and 100, got %d"))
        else
          statement "publish outbox event: %w" s (fun s =>
            if nanos (now s) + 5 * Minute <? nanos (OccurredAt e)
            then (s, Err (Wrapf "publish outbox event: %w" (Errorf "violates check constraint")))
            else if bool_decide (map_Exists (fun _ r => same_fact (envelope r) e = true) (rows s))
            then (s, Ok ())
            else if bool_decide (is_Some (rows s !! Env_ID e))
            then (s, Err (Wrapf "publish outbox event: %w" (Errorf "violates unique constraint")))
            else (with_rows (<[Env_ID e := mkRow e (now s) OutboxPending 0 maxAttempts None None None None None]>
                               (rows s)) s, Ok ()))
    end.

(** ** The store implements the dispatcher's interface *)
#[export] Instance pg_OutboxStore : OutboxStore Store := {
  ClaimBatch := Store_ClaimBatch;
  MarkCompleted := Store_MarkCompleted;
  MarkRetry := Store_MarkRetry;
  MarkFailed := Store_MarkFailed;
  ReleaseStale := Store_ReleaseStale;
  HasReceipt := Store_HasReceipt;
  RecordReceipt := Store_RecordReceipt;
  receipts := receipt_rows;
  outbox_state s k := row_state <$> rows s !! k
}.

(** ** Lemmas *)

(** What every statement-shaped operation does: it fails and changes nothing
    but the queue of outcomes, or its effect ran on the store. *)
Lemma statement_cases {A} wrap s (effect : Store -> Store * result A) s' r :
  statement wrap s effect = (s', r) ->
  (rows s' = rows s /\ receipt_rows s' = receipt_rows s /\ (exists e, r = Err e))
  \/ (exists s0, rows s0 = rows s /\ receipt_rows s0 = receipt_rows s /\ now s0 = now s
        /\ row_locks s0 = row_locks s /\ effect s0 = (s', r)).
Proof.
  unfold statement. destruct (HasPool s); cbn [negb].
  - destruct (head (faults s)) as [[e|]|]; intros H.
    + injection H as <- <-. left. eauto.
    + right. eexists. split_and!; [..|exact H]; done.
    + right. eexists. split_and!; [..|exact H]; done.
  - injection 1 as <- <-. left. eauto.
Qed.

Lemma update_processing_spec id f missing s s' r :
  update_processing id f missing s = (s', r) ->
  receipt_rows s' = receipt_rows s
  /\ ((exists e, r = Err e /\ rows s' = rows s)
      \/ (exists x, r = Ok () /\ rows s !! id = Some x /\ row_state x = OutboxProcessing
            /\ rows s' = <[id := f x]> (rows s))).
Proof.
  unfold update_processing. destruct (rows s !! id) as [x|] eqn:E.
  - destruct (bool_decide_reflect (row_state x = OutboxProcessing)); injection 1 as <- <-; eauto 10.
  - injection 1 as <- <-. eauto.
Qed.

(** The marks, in one shape. *)
Lemma mark_spec wrap id (f : Store -> row -> row) missing s s' r :
  statement wrap s (fun s => update_processing id (f s) missing s) = (s', r) ->
  receipt_rows s' = receipt_rows s
  /\ ((exists e, r = Err e /\ rows s' = rows s)
      \/ (exists s0 x, now s0 = now s /\ r = Ok () /\ rows s !! id = Some x
            /\ row_state x = OutboxProcessing /\ rows s' = <[id := f s0 x]> (rows s))).
Proof.
  intros [(H1 & H2 & e & ->)|(s0 & H1 & H2 & H3 & _ & H4)]%statement_cases; [naive_solver|].
  apply update_processing_spec in H4 as (H4 & H5). split; [congruence|].
  destruct H5 as [(e & -> & H5)|(x & -> & H5 & H6 & H7)]; [left; exists e; split; congruence|].
  right. exists s0, x. rewrite <- H1. done.
Qed.

Lemma outbox_state_insert (m : gmap string row) id x k :
  row_state <$> <[id := x]> m !! k
  = if bool_decide (k = id) then Some (row_state x) else row_state <$> m !! k.
Proof.
  destruct (bool_decide_reflect (k = id)) as [->|Hk].
  - by rewrite lookup_insert_eq.
  - by rewrite lookup_insert_ne.
Qed.

(** The marks satisfy the dispatcher's law for the state they move to. *)
Lemma mark_law wrap id (f : Store -> row -> row) missing st s s' r :
  (forall s0 x, row_state (f s0 x) = st) ->
  statement wrap s (fun s => update_processing id (f s) missing s) = (s', r) ->
  receipts s' = receipts s
  /\ match r with
     | Ok _ => outbox_state s id = Some OutboxProcessing
               /\ (forall k, outbox_state s' k = if bool_decide (k = id) then Some st else outbox_state s k)
     | Err _ => outbox_state s' = outbox_state s
     end.
Proof.
  intros Hf (H1 & H2)%mark_spec. split; [done|].
  destruct H2 as [(e & -> & H2)|(s0 & x & _ & -> & H3 & H4 & H5)]; cbn.
  - by rewrite H2.
  - rewrite H3. cbn. rewrite H4, H5. split; [done|]. intros k. by rewrite outbox_state_insert, Hf.
Qed.

#[export] Instance pg_OutboxLaws : OutboxLaws Store.
Proof.
  split.
  - intros c id s s' r [(H1 & H2 & e & ->)|(s0 & H1 & H2 & _ & _ & H3)]%statement_cases; cbn.
    + rewrite H1, H2. split_and!; naive_solver.
    + injection H3 as <- <-. rewrite H1, H2. split_and!; naive_solver.
  - intros c id s s' r [(H1 & H2 & e & ->)|(s0 & H1 & H2 & _ & _ & H3)]%statement_cases; cbn.
    + rewrite H1, H2. done.
    + destruct (rows s0 !! id); injection H3 as <- <-; cbn; rewrite H1, H2; done.
  - intros id s s' r. by apply mark_law.
  - intros id at_ msg s s' r. by apply (mark_law _ _ (fun s r => _)).
  - intros id msg s s' r. unfold MarkFailed, pg_OutboxStore, Store_MarkFailed. cbv zeta. by apply mark_law.
Qed.

(** ** Claiming *)
#[export] Instance claim_le_trans : Transitive claim_le.
Proof.
  intros x y z. unfold claim_le.
  intros [?|(? & [?|(? & ?)])] [?|(? & [?|(? & ?)])]; try (left; lia); right; (split; [lia|]); try (left; lia).
  right. split; [lia|]. by etrans.
Qed.
#[export] Instance claim_le_total : Total claim_le.
Proof.
  intros x y. unfold claim_le.
  destruct (Z.lt_trichotomy (nanos (available_at x.2)) (nanos (available_at y.2))) as [?|[?|?]]; [by left; left| |by right; left].
  destruct (Z.lt_trichotomy (nanos (OccurredAt (envelope x.2))) (nanos (OccurredAt (envelope y.2)))) as [?|[?|?]];
    [left; right; by auto| |right; right; by auto].
  destruct (total String.le x.1 y.1); [left|right]; right; split; auto.
Qed.

Lemma sorted_app {A} (R : relation A) l1 l2 x y :
  StronglySorted R (l1 ++ l2) -> x ∈ l1 -> y ∈ l2 -> R x y.
Proof.
  induction l1 as [|a l1 IH]; cbn; [set_solver|]. intros H Hx Hy.
  apply StronglySorted_inv in H as [H Ha]. apply elem_of_cons in Hx as [->|Hx]; [|auto].
  rewrite Forall_forall in Ha. apply Ha. set_solver.
Qed.

Section selected.
Variables (limit : Z) (s : Store).
Let candidates := merge_sort claim_le (map_to_list (filter (due s) (rows s))).

Lemma elem_of_candidates id r : (id, r) ∈ candidates <-> rows s !! id = Some r /\ due s (id, r).
Proof.
  unfold candidates. rewrite merge_sort_Permutation, elem_of_map_to_list.
  rewrite map_lookup_filter_Some. done.
Qed.

Lemma NoDup_selected : NoDup (fst <$> selected limit s).
Proof.
  unfold selected. rewrite fmap_take. eapply sublist_NoDup; [|apply sublist_take].
  rewrite merge_sort_Permutation. apply NoDup_fst_map_to_list.
Qed.

Lemma elem_of_selected id r :
  (id, r) ∈ selected limit s -> rows s !! id = Some r /\ due s (id, r).
Proof.
  intros H. apply elem_of_candidates. eapply elem_of_subseteq; [|exact H].
  apply subseteq_take.
Qed.

(** The rows left out come after the ones picked, and there are some only
    when the batch is full. *)
Lemma selected_first kr id r :
  kr ∈ selected limit s -> rows s !! id = Some r -> due s (id, r) -> (id, r) ∉ selected limit s ->
  claim_le kr (id, r).
Proof.
  intros Hk Hr Hd Hn. assert (Hin : (id, r) ∈ candidates) by by apply elem_of_candidates.
  rewrite <- (take_drop (Z.to_nat limit) candidates) in Hin. apply elem_of_app in Hin as [Hin|Hin]; [done|].
  eapply (sorted_app claim_le); [|exact Hk|exact Hin]. unfold selected. rewrite take_drop.
  apply (StronglySorted_merge_sort _).
Qed.

Lemma selected_full id r :
  rows s !! id = Some r -> due s (id, r) -> (id, r) ∉ selected limit s ->
  length (selected limit s) = Z.to_nat limit.
Proof.
  intros Hr Hd Hn. assert (Hin : (id, r) ∈ candidates) by by apply elem_of_candidates.
  unfold selected. rewrite length_take. fold candidates.
  destruct (Nat.le_ge_cases (Z.to_nat limit) (length candidates)) as [Hl|Hl]; [lia|].
  exfalso. apply Hn. unfold selected. fold candidates. by rewrite take_ge.
Qed.
End selected.

Lemma claimed_rows workerID limit s :
  let claimed := prod_map id (claim workerID (now s)) <$> selected limit s in
  forall k, (list_to_map claimed ∪ rows s) !! k
    = match rows s !! k with
      | Some r => Some (if bool_decide ((k, r) ∈ selected limit s) then claim workerID (now s) r else r)
      | None => None
      end.
Proof.
  intros claimed k. assert (Hnd : NoDup claimed.*1).
  { unfold claimed. rewrite <- list_fmap_compose. rewrite (list_fmap_ext _ fst); [apply NoDup_selected|].
    intros i [x y] _. done. }
  destruct (rows s !! k) as [r|] eqn:Hr.
  - destruct (bool_decide_reflect ((k, r) ∈ selected limit s)) as [Hin|Hn].
    + apply lookup_union_Some_l. apply elem_of_list_to_map_1; [done|]. apply list_elem_of_fmap. by exists (k, r).
    + rewrite lookup_union_r; [done|]. apply not_elem_of_list_to_map_1. intros Hk. apply Hn.
      unfold claimed in Hk. apply list_elem_of_fmap in Hk as ([k' x] & -> & Hk).
      apply list_elem_of_fmap in Hk as ([k'' y] & [= -> ->] & Hk). cbn in *.
      pose proof (elem_of_selected _ _ _ _ Hk) as [Hy _]. congruence.
  - rewrite lookup_union_r; [done|]. apply not_elem_of_list_to_map_1. intros Hk.
    unfold claimed in Hk. apply list_elem_of_fmap in Hk as ([k' x] & -> & Hk).
    apply list_elem_of_fmap in Hk as ([k'' y] & [= -> ->] & Hk). cbn in *.
    pose proof (elem_of_selected _ _ _ _ Hk) as [Hy _]. congruence.
Qed.

Lemma ClaimBatch_cases workerID limit s s' r :
  Store_ClaimBatch workerID limit s = (s', r) ->
  receipt_rows s' = receipt_rows s
  /\ ((rows s' = rows s /\ exists e, r = Err e)
      \/ 0 < limit /\ exists s0, rows s0 = rows s /\ now s0 = now s /\ row_locks s0 = row_locks s
          /\ r = Ok (claimed_event <$> (prod_map id (claim workerID (now s0)) <$> selected limit s0))
          /\ rows s' = list_to_map (prod_map id (claim workerID (now s0)) <$> selected limit s0) ∪ rows s0).
Proof.
  unfold Store_ClaimBatch. destruct (negb _); [intros [= <- <-]; eauto|].
  destruct (is_blank _); [intros [= <- <-]; eauto|].
  destruct (Z.leb_spec limit 0); [intros [= <- <-]; eauto|].
  intros [(H1 & H2 & H3)|(s0 & H1 & H2 & H3 & H4 & H5)]%statement_cases; [eauto|].
  injection H5 as <- <-. split; [done|]. right. split; [lia|]. exists s0. done.
Qed.

(** Claiming leases a batch of due events and nothing else.  On success at
    most [limit] distinct events come back; each was a pending row that is
    due and that no other transaction holds, is now processing, locked by
    this worker, with one more attempt, and is reported with that attempt
    count; every other row and every receipt is untouched; and no due row is
    left behind unless the batch is full of rows that come before it in
    (available_at, occurred_at, id) order. *)
Theorem ClaimBatch_leases_due_events workerID limit s s' batch :
  Store_ClaimBatch workerID limit s = (s', Ok batch) ->
  Z.of_nat (length batch) <= limit
  /\ NoDup (OutboxID <$> batch)
  /\ (forall event, event ∈ batch -> exists r,
        rows s !! OutboxID event = Some r /\ row_state r = OutboxPending
        /\ nanos (available_at r) <= nanos (now s) /\ OutboxID event ∉ row_locks s
        /\ rows s' !! OutboxID event
           = Some (mkRow (envelope r) (available_at r) OutboxProcessing (attempt_count r + 1)
                     (max_attempts r) (Some (now s)) (Some workerID)
                     (completed_at r) (failed_at r) (last_error r))
        /\ event = claimed_event (OutboxID event, claim workerID (now s) r))
  /\ (forall k, k ∉ OutboxID <$> batch -> rows s' !! k = rows s !! k)
  /\ receipt_rows s' = receipt_rows s
  /\ (forall k r, rows s !! k = Some r -> row_state r = OutboxPending ->
        nanos (available_at r) <= nanos (now s) -> k ∉ row_locks s -> k ∉ OutboxID <$> batch ->
        Z.of_nat (length batch) = limit
        /\ forall event r', event ∈ batch -> rows s !! OutboxID event = Some r' ->
           claim_le (OutboxID event, r') (k, r)).
Proof.
  intros H. apply ClaimBatch_cases in H as (Hrec & [(_ & ? & ?)|(Hl & s0 & H1 & H2 & H3 & Hb & Hrows)]); [done|].
  injection Hb as ->. rewrite H2 in *. rewrite <- H1. assert (Hdue : forall kr, due s kr <-> due s0 kr).
  { intros kr. unfold due. by rewrite H2, H3. }
  assert (Hids : OutboxID <$> (claimed_event <$> (prod_map id (claim workerID (now s)) <$> selected limit s0))
                 = fst <$> selected limit s0).
  { rewrite <- !list_fmap_compose. apply list_fmap_ext. intros i [x y] _. done. }
  assert (Hlen : length (claimed_event <$> (prod_map id (claim workerID (now s)) <$> selected limit s0))
                 = length (selected limit s0)) by by rewrite !length_fmap.
  assert (Hlook : forall k, rows s' !! k = _) by (intros k; rewrite Hrows, <- H2; apply claimed_rows).
  rewrite Hids, Hlen. clear Hids Hlen.
  assert (Hev : forall event, event ∈ claimed_event <$> (prod_map id (claim workerID (now s)) <$> selected limit s0) ->
     exists r, (OutboxID event, r) ∈ selected limit s0 /\ event = claimed_event (OutboxID event, claim workerID (now s) r)).
  { intros event (kr & -> & Hin)%list_elem_of_fmap.
    apply list_elem_of_fmap in Hin as ([k r] & -> & Hin). exists r. done. }
  split_and!.
  - unfold selected. rewrite length_take. lia.
  - apply NoDup_selected.
  - intros event Hin. apply Hev in Hin as (r & Hin & He). exists r.
    pose proof (elem_of_selected _ _ _ _ Hin) as [Hr Hd]. apply Hdue in Hd as (? & ? & ?).
    split_and!; [done..| |done].
    rewrite Hlook, Hr, bool_decide_true by done. by rewrite H2.
  - intros k Hk. rewrite Hlook. destruct (rows s0 !! k) as [r|] eqn:Hr; [|done].
    rewrite bool_decide_false; [done|]. intros Hin. apply Hk. apply list_elem_of_fmap. by exists (k, r).
  - done.
  - intros k r Hr Hp Ha Hu Hk. assert (Hd : due s0 (k, r)) by (apply Hdue; done). assert (Hn : (k, r) ∉ selected limit s0).
    { intros Hin. apply Hk. apply list_elem_of_fmap. by exists (k, r). }
    split; [rewrite (selected_full _ _ _ _ Hr Hd Hn); lia|].
    intros event r' Hin Hr'. apply Hev in Hin as (r0 & Hin & _).
    pose proof (elem_of_selected _ _ _ _ Hin) as [Hr0 _]. replace r' with r0 by congruence.
    by apply (selected_first limit s0).
Qed.

(** ** Histories of the outbox

    One operation is a call of the store, or something the environment does
    between two calls: time passes, other transactions take and release row
    locks, and the coming statements succeed or fail. *)
Inductive operation :=
  | OpPublish (e : Envelope) (maxAttempts : Z)
  | OpClaimBatch (workerID : string) (limit : Z)
  | OpMarkCompleted (outboxID : string)
  | OpMarkRetry (outboxID : string) (availableAt : Time) (lastError : string)
  | OpMarkFailed (outboxID lastError : string)
  | OpReleaseStale (olderThan : Z)
  | OpHasReceipt (consumer eventID : string)
  | OpRecordReceipt (consumer eventID : string)
  | OpEnvironment (t : Time) (locks : gset string) (outcomes : list (option error)).

Definition run (s : Store) (op : operation) : Store :=
  match op with
  | OpPublish e n => (Publish e n s).1
  | OpClaimBatch w l => (Store_ClaimBatch w l s).1
  | OpMarkCompleted id => (Store_MarkCompleted id s).1
  | OpMarkRetry id t msg => (Store_MarkRetry id t msg s).1
  | OpMarkFailed id msg => (Store_MarkFailed id msg s).1
  | OpReleaseStale d => (Store_ReleaseStale d s).1
  | OpHasReceipt c id => (Store_HasReceipt c id s).1
  | OpRecordReceipt c id => (Store_RecordReceipt c id s).1
  | OpEnvironment t locks outcomes =>
      mkStore (HasPool s) (rows s) (receipt_rows s) t locks outcomes
  end.
Definition run_all (s : Store) (ops : list operation) : Store := foldl run s ops.

Definition moves (a b : OutboxState) : Prop := OutboxState_CanTransitionTo a b = true.
Definition terminal (r : row) : Prop := row_state r = OutboxCompleted \/ row_state r = OutboxFailed.

(** How one row may have changed. *)
Record evolved (r r' : row) : Prop := mkEvolved {
  evolved_envelope : envelope r' = envelope r;
  evolved_max : max_attempts r' = max_attempts r;
  evolved_attempts : attempt_count r <= attempt_count r';
  evolved_state : rtc moves (row_state r) (row_state r');
  evolved_terminal : terminal r -> r' = r
}.

(** The CHECK constraints of the table. *)
Definition row_ok (r : row) : Prop :=
  0 <= attempt_count r /\ 1 <= max_attempts r <= 100
  /\ match row_state r with
     | OutboxPending => completed_at r = None /\ failed_at r = None
     | OutboxProcessing => is_Some (locked_at r) /\ is_Some (locked_by r)
     | OutboxCompleted => is_Some (completed_at r) /\ failed_at r = None
     | OutboxFailed => is_Some (failed_at r) /\ exists m, last_error r = Some m /\ is_blank m = false
     | OutboxOther _ => False
     end.

(** Every row satisfies the table's constraints and publishes a valid
    envelope under its own id, no fact is published twice, and receipts
    reference rows.  A processing row also still has the pending row's empty
    timestamps, so that releasing it satisfies the constraints again. *)
Record outbox_inv (s : Store) : Prop := {
  inv_row k r : rows s !! k = Some r ->
    row_ok r /\ Env_ID (envelope r) = k /\ (exists u, Envelope_Validate (envelope r) = Ok u);
  inv_release k r : rows s !! k = Some r -> row_state r = OutboxProcessing ->
    completed_at r = None /\ failed_at r = None;
  inv_fact k1 k2 r1 r2 : rows s !! k1 = Some r1 -> rows s !! k2 = Some r2 ->
    same_fact (envelope r1) (envelope r2) = true -> k1 = k2;
  inv_receipt c k : (c, k) ∈ receipt_rows s -> is_Some (rows s !! k)
}.

Lemma evolved_refl r : evolved r r.
Proof. split; try done; lia. Qed.
Lemma evolved_trans r1 r2 r3 : evolved r1 r2 -> evolved r2 r3 -> evolved r1 r3.
Proof.
  intros H1 H2. split.
  - by rewrite (evolved_envelope _ _ H2), (evolved_envelope _ _ H1).
  - by rewrite (evolved_max _ _ H2), (evolved_max _ _ H1).
  - etrans; [apply (evolved_attempts _ _ H1)|apply (evolved_attempts _ _ H2)].
  - etrans; [apply (evolved_state _ _ H1)|apply (evolved_state _ _ H2)].
  - intros Ht. pose proof (evolved_terminal _ _ H1 Ht) as ->. by apply H2.
Qed.

(** The effects on the rows: nothing, every row rewritten in place, or one
    row inserted under a fresh id for a fresh fact. *)
Inductive effect (s s' : Store) : Prop :=
  | effect_update (f : string -> row -> row) :
      receipt_rows s ⊆ receipt_rows s' ->
      (forall c k, (c, k) ∈ receipt_rows s' -> (c, k) ∈ receipt_rows s \/ is_Some (rows s !! k)) ->
      rows s' = map_imap (fun k r => Some (f k r)) (rows s) ->
      (forall k r, rows s !! k = Some r ->
         f k r = r
         \/ (row_state r = OutboxPending /\ exists w t, f k r = claim w t r)
         \/ row_state r = OutboxProcessing /\ envelope (f k r) = envelope r
            /\ max_attempts (f k r) = max_attempts r /\ attempt_count (f k r) = attempt_count r
            /\ match row_state (f k r) with
               | OutboxPending | OutboxCompleted | OutboxFailed => True | _ => False end
            /\ (completed_at r = None -> failed_at r = None -> row_ok r -> row_ok (f k r))) ->
      effect s s'
  | effect_insert e n t :
      receipt_rows s' = receipt_rows s ->
      rows s !! Env_ID e = None -> (exists u, Envelope_Validate e = Ok u) -> 1 <= n <= 100 ->
      (forall k r, rows s !! k = Some r -> same_fact (envelope r) e = false) ->
      rows s' = <[Env_ID e := mkRow e t OutboxPending 0 n None None None None None]> (rows s) ->
      effect s s'.

Lemma imap_id (m : gmap string row) : map_imap (fun _ r => Some r) m = m.
Proof. apply map_eq. intros k. rewrite map_lookup_imap. by destruct (m !! k). Qed.

Lemma effect_nothing s s' :
  receipt_rows s' = receipt_rows s -> rows s' = rows s -> effect s s'.
Proof.
  intros H1 H2. apply (effect_update _ _ (fun _ r => r)); rewrite ?H1, ?H2; auto.
  by rewrite imap_id.
Qed.

(** A mark: one processing row is rewritten. *)
Lemma effect_mark s s' id x r :
  receipt_rows s' = receipt_rows s -> rows s !! id = Some x -> row_state x = OutboxProcessing ->
  rows s' = <[id := r]> (rows s) ->
  envelope r = envelope x -> max_attempts r = max_attempts x -> attempt_count r = attempt_count x ->
  match row_state r with OutboxPending | OutboxCompleted | OutboxFailed => True | _ => False end ->
  (completed_at x = None -> failed_at x = None -> row_ok x -> row_ok r) ->
  effect s s'.
Proof.
  intros H1 H2 H3 H4 H5 H6 H7 H8 H9.
  apply (effect_update _ _ (fun k y => if bool_decide (k = id) then r else y)); rewrite ?H1; auto.
  - rewrite H4. apply map_eq. intros k. rewrite map_lookup_imap.
    destruct (bool_decide_reflect (k = id)) as [->|Hk].
    + by rewrite lookup_insert_eq, H2.
    + rewrite lookup_insert_ne by done. by destruct (rows s !! k).
  - intros k y Hy. cbv beta. destruct (bool_decide_reflect (k = id)) as [->|Hk]; [|by left].
    replace y with x by congruence. right. right. done.
Qed.

Lemma run_mark wrap id (f : Store -> row -> row) missing s :
  (forall s0 x, row_state x = OutboxProcessing ->
     envelope (f s0 x) = envelope x /\ max_attempts (f s0 x) = max_attempts x
     /\ attempt_count (f s0 x) = attempt_count x
     /\ match row_state (f s0 x) with OutboxPending | OutboxCompleted | OutboxFailed => True | _ => False end
     /\ (completed_at x = None -> failed_at x = None -> row_ok x -> row_ok (f s0 x))) ->
  effect s (statement (A := unit) wrap s (fun s => update_processing id (f s) missing s)).1.
Proof.
  intros Hf. destruct (statement _ _ _) as [s' r] eqn:E. apply mark_spec in E as (H1 & H2). cbn [fst].
  destruct H2 as [(e & _ & H2)|(s0 & x & _ & _ & H3 & H4 & H5)]; [by apply effect_nothing|].
  destruct (Hf s0 x H4) as (A1 & A2 & A3 & A4 & A5). by apply (effect_mark s s' id x (f s0 x)).
Qed.

Lemma Publish_effect s e n : effect s (Publish e n s).1.
Proof.
  unfold Publish. destruct (negb (HasPool s)); [by apply effect_nothing|].
  destruct (Envelope_Validate e) as [u|err] eqn:Ev; [|by apply effect_nothing].
  destruct ((n <? 1) || (100 <? n)) eqn:En; [by apply effect_nothing|]. bool_prop.
  destruct (statement _ _ _) as [s' r] eqn:E. cbn [fst].
  apply statement_cases in E as [(H1 & H2 & _)|(s0 & H1 & H2 & _ & _ & E)]; [by apply effect_nothing|].
  destruct (_ <? _); [injection E as <- <-; by apply effect_nothing|].
  rewrite H1 in E. case_bool_decide as Hex; [injection E as <- <-; by apply effect_nothing|].
  case_bool_decide as Hid; [injection E as <- <-; by apply effect_nothing|]. injection E as <- <-.
  apply (effect_insert _ _ e n (now s0)); cbn; rewrite ?H1, ?H2; eauto.
  - by apply eq_None_not_Some.
  - intros k r Hr. apply not_true_iff_false. intros Hs. apply Hex. by exists k, r.
Qed.

Lemma ClaimBatch_effect s w l : effect s (Store_ClaimBatch w l s).1.
Proof.
  destruct (Store_ClaimBatch w l s) as [s' r] eqn:E. cbn [fst].
  apply ClaimBatch_cases in E as (H1 & [(H2 & _)|(_ & s0 & H2 & H3 & H4 & _ & H5)]); [by apply effect_nothing|].
  apply (effect_update _ _ (fun k r => if bool_decide ((k, r) ∈ selected l s0) then claim w (now s0) r else r));
    rewrite ?H1; auto.
  - rewrite H5. apply map_eq. intros k. rewrite (claimed_rows w l s0 k), map_lookup_imap, H2. by destruct (rows s !! k).
  - intros k r0 Hr. cbv beta. case_bool_decide as Hin; [|by left]. right. left.
    apply elem_of_selected in Hin as (_ & Hst & _). cbn in Hst. eauto.
Qed.

Lemma ReleaseStale_effect s d : effect s (Store_ReleaseStale d s).1.
Proof.
  unfold Store_ReleaseStale. destruct (negb _); [by apply effect_nothing|].
  destruct (d <=? 0); [by apply effect_nothing|]. set (cutoff := TimeAdd _ _).
  destruct (statement _ _ _) as [s' r] eqn:E. cbn [fst].
  apply statement_cases in E as [(H1 & H2 & _)|(s0 & H1 & H2 & _ & _ & E)]; [by apply effect_nothing|].
  injection E as <- <-.
  apply (effect_update _ _ (fun _ r => if stale cutoff r
           then mkRow (envelope r) (available_at r) OutboxPending (attempt_count r)
                  (max_attempts r) None None (completed_at r) (failed_at r) (last_error r) else r));
    cbn; rewrite ?H1, ?H2; auto.
  - apply map_eq. intros k. rewrite lookup_fmap, map_lookup_imap. by destruct (rows s !! k).
  - intros k r0 Hr. destruct (stale cutoff r0) eqn:Es; [|by left]. unfold stale in Es. bool_prop.
    right. right. split_and!; try done. unfold row_ok. cbn. naive_solver.
Qed.

Lemma RecordReceipt_effect s c id : effect s (Store_RecordReceipt c id s).1.
Proof.
  destruct (Store_RecordReceipt c id s) as [s' r] eqn:E. cbn [fst].
  apply statement_cases in E as [(H1 & H2 & _)|(s0 & H1 & H2 & _ & _ & E)]; [by apply effect_nothing|].
  destruct (rows s0 !! id) eqn:Eid; injection E as <- <-; [|by apply effect_nothing].
  apply (effect_update _ _ (fun _ r => r)); cbn; rewrite ?H1, ?H2; auto.
  - set_solver.
  - intros c' k. rewrite elem_of_union, elem_of_singleton. intros [[= -> ->]|]; [|by left].
    right. rewrite <- H1, Eid. eauto.
  - by rewrite imap_id.
Qed.

Lemma run_effect s op : effect s (run s op).
Proof.
  destruct op as [e n|w l|id|id t msg|id msg|d|c id|c id|t locks outcomes]; cbn [run].
  - apply Publish_effect.
  - apply ClaimBatch_effect.
  - apply run_mark. intros s0 x Hx. cbn. split_and!; try done. unfold row_ok. cbn. naive_solver.
  - apply (run_mark _ _ (fun _ r => _)). intros s0 x Hx. cbn. split_and!; try done. unfold row_ok. cbn. naive_solver.
  - apply run_mark. intros s0 x Hx. cbn. split_and!; try done. unfold row_ok. cbn.
    intros _ _ (? & ? & _). split_and!; try lia; [done|]. eexists. split; [done|].
    destruct (is_blank (truncateError msg)) eqn:Eb; [vm_compute; reflexivity|done].
  - apply ReleaseStale_effect.
  - destruct (Store_HasReceipt c id s) as [s' r] eqn:E. cbn [fst].
    apply statement_cases in E as [(H1 & H2 & _)|(s0 & H1 & H2 & _ & _ & E)]; [by apply effect_nothing|].
    injection E as <- <-. by apply effect_nothing.
  - apply RecordReceipt_effect.
  - by apply effect_nothing.
Qed.

Lemma claim_evolved w t r : row_state r = OutboxPending -> evolved r (claim w t r).
Proof.
  intros Hst. split; try done; cbn; [lia| |].
  - rewrite Hst. by apply rtc_once.
  - unfold terminal. rewrite Hst. naive_solver.
Qed.

Lemma effect_evolved s s' k r :
  effect s s' -> rows s !! k = Some r -> exists r', rows s' !! k = Some r' /\ evolved r r'.
Proof.
  intros [f _ _ Hrows Hf|e n t _ Hfresh _ _ _ Hrows] Hr; rewrite Hrows.
  - exists (f k r). rewrite map_lookup_imap, Hr. split; [done|].
    destruct (Hf k r Hr) as [->|[(Hp & w & t & ->)|(Hp & H1 & H2 & H3 & H4 & _)]].
    + apply evolved_refl.
    + by apply claim_evolved.
    + split; [done|done|lia| |unfold terminal; rewrite Hp; naive_solver].
      rewrite Hp. apply rtc_once. unfold moves. by destruct (row_state (f k r)).
  - assert (Env_ID e <> k) by congruence. exists r. rewrite lookup_insert_ne by done. split; [done|apply evolved_refl].
Qed.

Lemma evolves s ops k r :
  rows s !! k = Some r -> exists r', rows (run_all s ops) !! k = Some r' /\ evolved r r'.
Proof.
  revert s r. induction ops as [|op ops IH]; intros s r Hr; cbn.
  - exists r. split; [done|apply evolved_refl].
  - destruct (effect_evolved _ _ _ _ (run_effect s op) Hr) as (r1 & H1 & E1).
    destruct (IH _ _ H1) as (r2 & H2 & E2). exists r2. split; [done|]. by eapply evolved_trans.
Qed.

Lemma update_inv s s' (f : string -> row -> row) :
  rows s' = map_imap (fun k r => Some (f k r)) (rows s) ->
  (forall c k, (c, k) ∈ receipt_rows s' -> (c, k) ∈ receipt_rows s \/ is_Some (rows s !! k)) ->
  (forall k r, rows s !! k = Some r -> envelope (f k r) = envelope r /\ row_ok (f k r)
     /\ (row_state (f k r) = OutboxProcessing -> completed_at (f k r) = None /\ failed_at (f k r) = None)) ->
  outbox_inv s -> outbox_inv s'.
Proof.
  intros Hrows Hrec Hf [H1 H2 H3 H4].
  assert (Hlook : forall k r', rows s' !! k = Some r' -> exists r, rows s !! k = Some r /\ r' = f k r).
  { intros k r'. rewrite Hrows, map_lookup_imap. destruct (rows s !! k); cbn; naive_solver. }
  split.
  - intros k r' (r & Hr & ->)%Hlook. destruct (Hf k r Hr) as (-> & Ho & _). destruct (H1 k r Hr) as (_ & ? & ?). done.
  - intros k r' (r & Hr & ->)%Hlook. by destruct (Hf k r Hr) as (_ & _ & ?).
  - intros k1 k2 r1' r2' (r1 & Hr1 & ->)%Hlook (r2 & Hr2 & ->)%Hlook.
    rewrite (proj1 (Hf k1 r1 Hr1)), (proj1 (Hf k2 r2 Hr2)). eauto.
  - intros c k Hin. assert (is_Some (rows s !! k)) as [r Hr] by (destruct (Hrec c k Hin); eauto).
    rewrite Hrows, map_lookup_imap, Hr. eauto.
Qed.

Lemma insert_inv s s' e n t :
  receipt_rows s' = receipt_rows s ->
  rows s !! Env_ID e = None -> (exists u, Envelope_Validate e = Ok u) -> 1 <= n <= 100 ->
  (forall k r, rows s !! k = Some r -> same_fact (envelope r) e = false) ->
  rows s' = <[Env_ID e := mkRow e t OutboxPending 0 n None None None None None]> (rows s) ->
  outbox_inv s -> outbox_inv s'.
Proof.
  intros Hrec Hfresh Hv Hn Hfact Hrows [H1 H2 H3 H4].
  assert (Hsym : forall a b, same_fact a b = same_fact b a).
  { intros a b. unfold same_fact. repeat f_equal; apply bool_decide_ext; done. }
  split; rewrite Hrows.
  - intros k r [(<- & <-)|(? & Hr)]%lookup_insert_Some; [|eauto]. unfold row_ok. cbn. split_and!; try done; lia.
  - intros k r [(<- & <-)|(? & Hr)]%lookup_insert_Some; [done|eauto].
  - intros k1 k2 r1 r2 [(<- & <-)|(? & Hr1)]%lookup_insert_Some [(<- & <-)|(? & Hr2)]%lookup_insert_Some; cbn;
      [done| | |eauto]; intros Hs.
    + rewrite Hsym, (Hfact _ _ Hr2) in Hs. done.
    + rewrite (Hfact _ _ Hr1) in Hs. done.
  - intros c k. rewrite Hrec. intros Hin. destruct (H4 _ _ Hin) as [r Hr].
    apply lookup_insert_is_Some'. right. eauto.
Qed.

Lemma effect_inv s s' : effect s s' -> outbox_inv s -> outbox_inv s'.
Proof.
  intros [f _ Hrec Hrows Hf|e n t ? ? ? ? ? ?] Hinv; [|by eapply insert_inv].
  apply (update_inv s s' f); [done|done| |done]. intros k r Hr.
  destruct (inv_row _ Hinv k r Hr) as (Hok & _ & _).
  destruct (Hf k r Hr) as [->|[(Hp & w & t & ->)|(Hp & He & _ & _ & Hst & Hnew)]].
  - split_and!; [done|done|]. by apply (inv_release _ Hinv k).
  - destruct Hok as (? & ? & Hc). rewrite Hp in Hc. destruct Hc. unfold row_ok. cbn. split_and!; try done; try lia; eauto.
  - destruct (inv_release _ Hinv k r Hr Hp). split_and!; [done|by apply Hnew|]. destruct (row_state (f k r)); done.
Qed.

Lemma empty_outbox_inv s : rows s = ∅ -> receipt_rows s = ∅ -> outbox_inv s.
Proof.
  intros H1 H2. split; rewrite ?H1, ?H2.
  - intros k r. by rewrite lookup_empty.
  - intros k r. by rewrite lookup_empty.
  - intros k1 k2 r1 r2. by rewrite lookup_empty.
  - set_solver.
Qed.

(** C36. The life of an outbox row.  Over any history of store calls, with any
    statement failing and any other transactions holding locks, a row is
    never lost, keeps its envelope and attempt limit, never forgets an
    attempt, moves only along the lifecycle of [state.go], and is frozen once
    completed or failed. *)
Theorem outbox_rows_follow_the_lifecycle s ops k r :
  rows s !! k = Some r ->
  exists r', rows (run_all s ops) !! k = Some r'
    /\ envelope r' = envelope r /\ max_attempts r' = max_attempts r
    /\ attempt_count r <= attempt_count r'
    /\ rtc moves (row_state r) (row_state r')
    /\ (terminal r -> r' = r).
Proof.
  intros Hr. destruct (evolves s ops k r Hr) as (r' & H & []). exists r'. done.
Qed.

(** What the table holds.  Starting from an empty outbox, after any
    history every row satisfies the CHECK constraints on its state, counters and
    timestamps (so no claim, mark or release is refused by one of them), carries a valid
    envelope under its own id, no fact (aggregate, version, event type) has
    two rows however often it is published, and every receipt references a
    row. *)
Theorem outbox_constraints_hold s ops :
  rows s = ∅ -> receipt_rows s = ∅ -> outbox_inv (run_all s ops).
Proof.
  intros H1 H2. pose proof (empty_outbox_inv s H1 H2) as Hinv. clear H1 H2. unfold run_all. revert s Hinv.
  induction ops as [|op ops IH]; intros s Hinv; cbn; [done|].
  apply IH. eapply effect_inv; [apply run_effect|done].
Qed.

(** ** A worked outbox *)
Definition ex_envelope : Envelope :=
  mkEnvelope "11111111-1111-4111-8111-111111111111" "match" "22222222-2222-4222-8222-222222222222" 1
    MatchResultVerified (RawBytes true "{}") (mkTime 1000 true) "" "".
Definition ex_id : string := Env_ID ex_envelope.
Definition ex_store : Store := mkStore true ∅ ∅ (mkTime 2000 true) ∅ [].
Definition ex_history : list operation :=
  [OpPublish ex_envelope 3; OpPublish ex_envelope 3; OpClaimBatch "worker-1" 10].

Lemma ClaimBatch_leases_due_events_witness :
  exists event, (Store_ClaimBatch "worker-1" 10 (run ex_store (OpPublish ex_envelope 3))).2 = Ok [event]
    /\ 1 <= 10 /\ AttemptCount event = 1.
Proof.
  eexists. split; [vm_compute; reflexivity|]. split; [|reflexivity].
  destruct (ClaimBatch_leases_due_events "worker-1" 10 (run ex_store (OpPublish ex_envelope 3))
    (Store_ClaimBatch "worker-1" 10 (run ex_store (OpPublish ex_envelope 3))).1
    [mkClaimedEvent ex_envelope ex_id 1 3]) as [H _]; [vm_compute; reflexivity|].
  exact H.
Defined.

Definition ex_row : row := mkRow ex_envelope (mkTime 2000 true) OutboxPending 0 3 None None None None None.

Lemma outbox_rows_follow_the_lifecycle_witness :
  exists r', rows (run_all (run ex_store (OpPublish ex_envelope 3))
                     [OpClaimBatch "worker-1" 10; OpMarkCompleted ex_id]) !! ex_id = Some r'
    /\ rtc moves OutboxPending (row_state r').
Proof.
  destruct (outbox_rows_follow_the_lifecycle (run ex_store (OpPublish ex_envelope 3))
              [OpClaimBatch "worker-1" 10; OpMarkCompleted ex_id] ex_id ex_row) as (r' & H & _ & _ & _ & Hm & _);
    [vm_compute; reflexivity|].
  exists r'. split; [exact H|exact Hm].
Defined.

Lemma outbox_constraints_hold_witness :
  rows (run_all ex_store ex_history) !! ex_id <> None /\ outbox_inv (run_all ex_store ex_history).
Proof.
  split; [vm_compute; discriminate|]. apply (outbox_constraints_hold ex_store ex_history); reflexivity.
Defined.

(** A consumer that counts the events it handles. *)
Definition ex_consumer : Consumer Z := mkConsumer "stats" (fun _ => true) (fun _ n => (n + 1, None)).
Definition ex_Dispatcher : Dispatcher Z :=
  mkDispatcher [ex_consumer] Second 10 Minute "worker-1" Second Minute.
Definition ex_claimed : ClaimedEvent := mkClaimedEvent ex_envelope ex_id 1 3.
Definition ex_Error (_ : error) : string := "failed".

Lemma processEvent_sound_witness :
  (exists s' w', processEvent ex_Error ex_Dispatcher (now ex_store) (fun _ => 0) ex_claimed
                   (run_all ex_store ex_history) 0 = (s', w')
     /\ w' = 1 /\ outbox_state s' ex_id = Some OutboxCompleted
     /\ receipts (run_all ex_store ex_history) ⊆ receipts s').
Proof.
  do 2 eexists. split; [reflexivity|]. split; [vm_compute; reflexivity|].
  split; [vm_compute; reflexivity|].
  refine (proj1 (processEvent_sound ex_Error ex_Dispatcher (now ex_store) (fun _ => 0) ex_claimed
                   (run_all ex_store ex_history) 0 _ _ _ _)).
  - reflexivity.
  - vm_compute. reflexivity.
Defined.
