(* ===== verification/Identity.v ===== *)
(** * internal/identity: members, roles and permissions

    [types.go], [authorization.go] and [errors.go].  Two parts of the standard
    library are parameters: the Unicode tables behind [strings.ToLower] on
    non-ASCII text, and [net/mail.ParseAddress], which yields the display name
    and the address of the text it accepts. *)
From S2P Require Import Prelude GoStrings GoTime.

Definition ErrInvalidIdentity := Sentinel "identity.ErrInvalidIdentity".
Definition ErrInvalidPrincipal := Sentinel "identity.ErrInvalidPrincipal".
Definition ErrInvalidSession := Sentinel "identity.ErrInvalidSession".
Definition ErrInvalidSecret := Sentinel "identity.ErrInvalidSecret".
Definition ErrSignInNotAllowed := Sentinel "identity.ErrSignInNotAllowed".
Definition ErrUnauthenticated := Sentinel "identity.ErrUnauthenticated".
Definition ErrUnauthorized := Sentinel "identity.ErrUnauthorized".
Definition ErrSessionExpired := Sentinel "identity.ErrSessionExpired".
Definition ErrSessionRevoked := Sentinel "identity.ErrSessionRevoked".
Definition ErrInvalidCSRF := Sentinel "identity.ErrInvalidCSRF".
Definition ErrSecretGeneration := Sentinel "identity.ErrSecretGeneration".
Definition ErrRepositoryContract := Sentinel "identity.ErrRepositoryContract".

Definition ID := string.
Definition ID_Valid (id : ID) : bool :=
  (len id =? 36)
  && byte_at_is 8 "-" id && byte_at_is 13 "-" id
  && byte_at_is 18 "-" id && byte_at_is 23 "-" id
  && hex_decodes (remove_dashes id).

(** ** [^[a-z][a-z0-9_-]{1,31}$] *)
Definition Provider := string.
Definition provider_char (a : ascii) : bool :=
  is_lower a || is_digit a || byte_is 95 a || byte_is 45 a.
Definition providerPattern (s : string) : bool :=
  match bytes s with
  | [] => false
  | a :: rest =>
      is_lower a && forallb provider_char rest
      && (1 <=? Z.of_nat (length rest)) && (Z.of_nat (length rest) <=? 31)
  end.

(** ** Data *)
Record VerifiedIdentity := mkVerifiedIdentity {
  VI_Provider : Provider; VI_Subject : string; VI_Email : string;
  VI_EmailVerified : bool; VI_DisplayName : string
}.
Record IdentityKey := mkIdentityKey { IK_Provider : Provider; IK_Subject : string }.
Definition Key (i : VerifiedIdentity) : IdentityKey := mkIdentityKey (VI_Provider i) (VI_Subject i).

Record AuthIdentity := mkAuthIdentity {
  AI_ID : ID; AI_UserID : ID; AI_Provider : Provider; AI_Subject : string; AI_Email : string;
  AI_EmailVerified : bool; AI_CreatedAt : Time; AI_LastAuthenticatedAt : Time
}.

Inductive UserStatus :=
  | UserInvited | UserActive | UserSuspended | UserDisabled | UserStatusOther (text : string).
#[export] Instance UserStatus_eq_dec : EqDecision UserStatus.
Proof. solve_decision. Defined.
Definition UserStatus_Validate (s : UserStatus) : result unit :=
  match s with
  | UserStatusOther _ => Err (Wrapf "%w: unknown user status %q" ErrInvalidPrincipal)
  | _ => Ok ()
  end.

Inductive Role := RoleMember | RoleAdmin | RoleOwner | RoleOther (text : string).
#[export] Instance Role_eq_dec : EqDecision Role.
Proof. solve_decision. Defined.
Definition Role_Validate (r : Role) : result unit :=
  match r with
  | RoleOther _ => Err (Wrapf "%w: unknown role %q" ErrInvalidPrincipal)
  | _ => Ok ()
  end.

Record User := mkUser {
  User_ID : ID; User_DisplayName : string; User_Email : string; User_Status : UserStatus
}.
Record Membership := mkMembership {
  Mem_ID : ID; Mem_UserID : ID; Mem_Role : Role; GrantedAt : Time; Mem_RevokedAt : Time
}.
Record Principal := mkPrincipal { Principal_User : User; Principal_Membership : Membership }.

Definition Membership_Validate (m : Membership) : result unit :=
  fail_if (negb (ID_Valid (Mem_ID m)) || negb (ID_Valid (Mem_UserID m)) || IsZero (GrantedAt m))
    (Wrapf "%w: membership IDs and grant time are required" ErrInvalidPrincipal);;
  Role_Validate (Mem_Role m);;
  fail_if (negb (IsZero (Mem_RevokedAt m)) && Before (Mem_RevokedAt m) (GrantedAt m))
    (Wrapf "%w: membership revocation precedes its grant" ErrInvalidPrincipal).

Definition Active (m : Membership) : bool := IsZero (Mem_RevokedAt m).

(** ** Permissions *)
Inductive Permission :=
  | PermissionUseMemberArea | PermissionSubmitResult | PermissionConfirmResult | PermissionPlaceWager
  | PermissionManageResults | PermissionManageMarkets | PermissionSettleManualMarket
  | PermissionManageMedia | PermissionIssueInvitation | PermissionManageMembers
  | PermissionMakeFinancialCorrection | PermissionManageRoles
  | PermissionOther (text : string).
#[export] Instance Permission_eq_dec : EqDecision Permission.
Proof. solve_decision. Defined.

Definition isMemberPermission (permission : Permission) : bool :=
  match permission with
  | PermissionUseMemberArea | PermissionSubmitResult | PermissionConfirmResult | PermissionPlaceWager => true
  | _ => false
  end.
Definition isAdminPermission (permission : Permission) : bool :=
  match permission with
  | PermissionManageResults | PermissionManageMarkets | PermissionSettleManualMarket
  | PermissionManageMedia | PermissionIssueInvitation | PermissionManageMembers => true
  | _ => false
  end.

Section identity.
Variable unicode_lower : string -> string.
Variable ParseAddress : string -> option (string * string).

Definition ParseProvider (value : string) : result Provider :=
  let value := ToLower unicode_lower (TrimSpace value) in
  fail_if (negb (providerPattern value)) (Wrapf "%w: provider must match %s" ErrInvalidIdentity);;
  Ok value.

Definition Provider_Validate (p : Provider) : result unit :=
  match ParseProvider p with
  | Ok parsed => fail_if (negb (bool_decide (parsed = p)))
                   (Wrapf "%w: provider is not normalized" ErrInvalidIdentity)
  | Err _ => Err (Wrapf "%w: provider is not normalized" ErrInvalidIdentity)
  end.

Definition NormalizeEmail (value : string) : result string :=
  let value := ToLower unicode_lower (TrimSpace value) in
  fail_if (bool_decide (value = ""%string) || (320 <? RuneCountInString value))
    (Wrapf "%w: email is required and limited to 320 characters" ErrInvalidIdentity);;
  match ParseAddress value with
  | None => Err (Wrapf "%w: email is malformed" ErrInvalidIdentity)
  | Some (name, address) =>
      fail_if (negb (bool_decide (name = ""%string)) || negb (bool_decide (address = value)))
        (Wrapf "%w: email is malformed" ErrInvalidIdentity);;
      Ok value
  end.

(** [email, err := NormalizeEmail(e); err != nil || email != e] *)
Definition not_normalized (email : string) : bool :=
  match NormalizeEmail email with
  | Ok normalized => negb (bool_decide (normalized = email))
  | Err _ => true
  end.

Definition IdentityKey_Validate (k : IdentityKey) : result unit :=
  Provider_Validate (IK_Provider k);;
  fail_if (is_blank (IK_Subject k) || (255 <? RuneCountInString (IK_Subject k)))
    (Wrapf "%w: subject is required and limited to 255 characters" ErrInvalidIdentity).

Definition AuthIdentity_Validate (i : AuthIdentity) : result unit :=
  fail_if (negb (ID_Valid (AI_ID i)) || negb (ID_Valid (AI_UserID i)) || IsZero (AI_CreatedAt i))
    (Wrapf "%w: auth identity IDs and creation time are required" ErrInvalidIdentity);;
  IdentityKey_Validate (mkIdentityKey (AI_Provider i) (AI_Subject i));;
  fail_if (negb (bool_decide (AI_Email i = ""%string)) && not_normalized (AI_Email i))
    (Wrapf "%w: auth identity email is not normalized" ErrInvalidIdentity);;
  fail_if (AI_EmailVerified i && bool_decide (AI_Email i = ""%string))
    (Wrapf "%w: verified auth identity requires an email" ErrInvalidIdentity);;
  fail_if (negb (IsZero (AI_LastAuthenticatedAt i)) && Before (AI_LastAuthenticatedAt i) (AI_CreatedAt i))
    (Wrapf "%w: last authentication precedes creation" ErrInvalidIdentity).

Definition VerifiedIdentity_Validate (i : VerifiedIdentity) : result unit :=
  IdentityKey_Validate (Key i);;
  fail_if (not_normalized (VI_Email i) || negb (VI_EmailVerified i))
    (Wrapf "%w: a normalized, verified email is required" ErrInvalidIdentity);;
  let name := TrimSpace (VI_DisplayName i) in
  fail_if (bool_decide (name = ""%string) || (120 <? RuneCountInString name)
           || negb (bool_decide (name = VI_DisplayName i)))
    (Wrapf "%w: display name must be normalized and limited to 120 characters" ErrInvalidIdentity).

Definition User_Validate (u : User) : result unit :=
  fail_if (negb (ID_Valid (User_ID u))) (Wrapf "%w: user ID must be a UUID" ErrInvalidPrincipal);;
  let name := TrimSpace (User_DisplayName u) in
  fail_if (bool_decide (name = ""%string) || negb (bool_decide (name = User_DisplayName u))
           || (120 <? RuneCountInString name))
    (Wrapf "%w: display name must be normalized and limited to 120 characters" ErrInvalidPrincipal);;
  fail_if (negb (bool_decide (User_Email u = ""%string)) && not_normalized (User_Email u))
    (Wrapf "%w: user email is not normalized" ErrInvalidPrincipal);;
  UserStatus_Validate (User_Status u).

Definition Principal_Validate (p : Principal) : result unit :=
  User_Validate (Principal_User p);;
  Membership_Validate (Principal_Membership p);;
  fail_if (negb (bool_decide (Mem_UserID (Principal_Membership p) = User_ID (Principal_User p))))
    (Wrapf "%w: membership belongs to another user" ErrInvalidPrincipal);;
  fail_if (negb (bool_decide (User_Status (Principal_User p) = UserActive))
           || negb (Active (Principal_Membership p))) ErrSignInNotAllowed.

Definition Authorize (principal : Principal) (permission : Permission) : result unit :=
  match Principal_Validate principal with
  | Err err =>
      if bool_decide (err = ErrSignInNotAllowed) then Err ErrUnauthenticated
      else Err (Wrapf "%w: %v" ErrUnauthenticated)
  | Ok _ =>
      let allowed :=
        match Mem_Role (Principal_Membership principal) with
        | RoleMember => isMemberPermission permission
        | RoleAdmin => isMemberPermission permission || isAdminPermission permission
        | RoleOwner =>
            isMemberPermission permission || isAdminPermission permission
            || bool_decide (permission = PermissionMakeFinancialCorrection)
            || bool_decide (permission = PermissionManageRoles)
        | RoleOther _ => false
        end in
      fail_if (negb allowed) (Wrapf "%w: role %q lacks permission %q" ErrUnauthorized)
  end.

(** ** Specification *)

(** A principal that may act: a well-formed active account with an unrevoked
    membership of its own in a known role. *)
Definition email_ok (email : string) : Prop :=
  email = ""%string
  \/ (ToLower unicode_lower (TrimSpace email) = email /\ RuneCountInString email <= 320
      /\ ParseAddress email = Some (""%string, email)).

Record signed_in (p : Principal) : Prop := mkSignedIn {
  si_user : ID_Valid (User_ID (Principal_User p)) = true;
  si_name : TrimSpace (User_DisplayName (Principal_User p)) = User_DisplayName (Principal_User p)
            /\ User_DisplayName (Principal_User p) <> ""%string
            /\ RuneCountInString (User_DisplayName (Principal_User p)) <= 120;
  si_email : email_ok (User_Email (Principal_User p));
  si_active : User_Status (Principal_User p) = UserActive;
  si_membership : ID_Valid (Mem_ID (Principal_Membership p)) = true;
  si_owner : Mem_UserID (Principal_Membership p) = User_ID (Principal_User p);
  si_role : forall text, Mem_Role (Principal_Membership p) <> RoleOther text;
  si_granted : IsZero (GrantedAt (Principal_Membership p)) = false;
  si_unrevoked : IsZero (Mem_RevokedAt (Principal_Membership p)) = true
}.

Lemma not_normalized_spec email :
  (negb (bool_decide (email = ""%string)) && not_normalized email) = false <-> email_ok email.
Proof.
  unfold email_ok. rewrite andb_false_iff, negb_false_iff, bool_decide_eq_true.
  destruct (decide (email = ""%string)) as [->|Hne]; [by split; left|].
  assert (Hor : forall P : Prop, (email = ""%string \/ P) <-> P) by naive_solver. rewrite !Hor. clear Hor.
  unfold not_normalized, NormalizeEmail. set (v := ToLower _ _).
  destruct (bool_decide_reflect (v = ""%string)) as [Hv|Hv]; cbn [orb].
  { split; [done|]. intros (He & _). congruence. }
  destruct (Z.ltb_spec 320 (RuneCountInString v)) as [Hl|Hl].
  { split; [done|]. intros (He & Hr & _). rewrite He in Hl. lia. }
  cbn. destruct (ParseAddress v) as [[name address]|] eqn:Hp.
  2:{ split; [done|]. intros (He & _ & Hs). rewrite He in Hp. congruence. }
  destruct (bool_decide_reflect (name = ""%string)) as [->|Hn]; cbn.
  2:{ split; [done|]. intros (He & _ & Hs). rewrite He in Hp. congruence. }
  destruct (bool_decide_reflect (address = v)) as [->|Ha]; cbn.
  2:{ split; [done|]. intros (He & _ & Hs). rewrite He in Hp, Ha. congruence. }
  rewrite negb_false_iff, bool_decide_eq_true. split.
  - intros He. rewrite He in *. done.
  - naive_solver.
Qed.

Lemma Principal_Validate_iff p : Principal_Validate p = Ok () <-> signed_in p.
Proof.
  unfold Principal_Validate, User_Validate, Membership_Validate, Active. split.
  - intros H. go_inv. bool_prop.
    match goal with E : _ && not_normalized _ = false |- _ => apply not_normalized_spec in E end.
    bool_prop. unfold Role_Validate, UserStatus_Validate in *.
    match goal with E : TrimSpace _ = User_DisplayName _ |- _ => rewrite E in * end.
    split; try done. intros t Ht. by rewrite Ht in *.
  - intros [Hu (N1 & N2 & N3) He Ha Hm Ho Hr Hg Hv].
    rewrite Hu, N1, (proj2 (not_normalized_spec _) He), Ha, Hm, Ho, Hu, Hg, Hv.
    rewrite (bool_decide_false (_ = ""%string)), !bool_decide_true by done.
    rewrite (proj2 (Z.ltb_ge _ _)) by done. cbn.
    destruct (Mem_Role (Principal_Membership p)); cbn; [done..|by edestruct Hr].
Qed.

(** Permissions are ranked: a member's, an administrator's and the owner's
    own; a role holds the permissions up to its rank. *)
Definition required_rank (permission : Permission) : option nat :=
  match permission with
  | PermissionUseMemberArea | PermissionSubmitResult | PermissionConfirmResult
  | PermissionPlaceWager => Some 1%nat
  | PermissionManageResults | PermissionManageMarkets | PermissionSettleManualMarket
  | PermissionManageMedia | PermissionIssueInvitation | PermissionManageMembers => Some 2%nat
  | PermissionMakeFinancialCorrection | PermissionManageRoles => Some 3%nat
  | PermissionOther _ => None
  end.
Definition role_rank (r : Role) : nat :=
  match r with RoleMember => 1 | RoleAdmin => 2 | RoleOwner => 3 | RoleOther _ => 0 end.
Definition permitted (r : Role) (permission : Permission) : Prop :=
  exists n, required_rank permission = Some n /\ (n <= role_rank r)%nat.

(** Authorization is exactly "signed in and senior enough".  [Authorize]
    succeeds if and only if the principal is a well-formed active account with
    its own unrevoked membership in a known role whose rank (member, admin,
    owner) reaches the permission's; it reports [ErrUnauthenticated] exactly
    when the principal may not act at all and [ErrUnauthorized] exactly when it
    may but its role is too junior; and unknown permissions are never granted. *)
Theorem Authorize_iff_permitted p permission :
  match Authorize p permission with
  | Ok _ => signed_in p /\ permitted (Mem_Role (Principal_Membership p)) permission
  | Err e =>
      (errors_is "identity.ErrUnauthenticated" e = true /\ ~ signed_in p)
      \/ (errors_is "identity.ErrUnauthorized" e = true /\ signed_in p
          /\ ~ permitted (Mem_Role (Principal_Membership p)) permission)
  end.
Proof.
  unfold Authorize. pose proof (Principal_Validate_iff p) as Hv.
  destruct (Principal_Validate p) as [[]|err].
  - assert (Hs : signed_in p) by by apply Hv. unfold permitted. pose proof (si_role _ Hs) as Hr.
    destruct (Mem_Role (Principal_Membership p)) as [| | |text]; [| | |by edestruct Hr];
      destruct permission; cbn;
      first [ split; [done|]; eexists; split; [reflexivity|lia]
            | right; split; [done|split; [done|]]; intros (n & [= <-] & Hn); lia
            | right; split; [done|split; [done|]]; by intros (n & ? & _) ].
  - assert (Hn : ~ signed_in p) by (intros Hs; by apply Hv in Hs).
    case_bool_decide; left; done.
Qed.
End identity.
