(* ===== verification/Base64.v ===== *)
(** * [encoding/base64.RawURLEncoding]

    The URL-safe alphabet without padding.  As in Go's decoder, line breaks in
    the input are skipped, and the unused low bits of a final partial group
    are not checked; an "=" is an ordinary invalid character. *)
From S2P Require Import Prelude GoStrings.

(** The alphabet A-Z a-z 0-9 - _ as a function of the sextet. *)
Definition sextet_char (n : Z) : ascii :=
  ascii_of_N (Z.to_N
    (if n <? 26 then n + 65 else if n <? 52 then n + 71 else if n <? 62 then n - 4
     else if n =? 62 then 45 else 95)).
Definition char_sextet (a : ascii) : option Z :=
  if is_upper a then Some (byte_val a - 65)
  else if is_lower a then Some (byte_val a - 71)
  else if is_digit a then Some (byte_val a + 4)
  else if byte_is 45 a then Some 62
  else if byte_is 95 a then Some 63
  else None.

Definition byte_of (n : Z) : ascii := ascii_of_N (Z.to_N n).

Fixpoint EncodeToString_bytes (l : list ascii) : list ascii :=
  match l with
  | [] => []
  | [a] =>
      let n := byte_val a in
      [sextet_char (n / 4); sextet_char (n mod 4 * 16)]
  | [a; b] =>
      let n := byte_val a * 256 + byte_val b in
      [sextet_char (n / 1024); sextet_char (n / 16 mod 64); sextet_char (n mod 16 * 4)]
  | a :: b :: c :: rest =>
      let n := byte_val a * 65536 + byte_val b * 256 + byte_val c in
      sextet_char (n / 262144) :: sextet_char (n / 4096 mod 64)
      :: sextet_char (n / 64 mod 64) :: sextet_char (n mod 64) :: EncodeToString_bytes rest
  end.
Definition EncodeToString (l : list ascii) : string := of_bytes (EncodeToString_bytes l).

Fixpoint decode_sextets (l : list Z) : option (list ascii) :=
  match l with
  | [] => Some []
  | [_] => None
  | [s1; s2] => Some [byte_of ((s1 * 64 + s2) / 16)]
  | [s1; s2; s3] =>
      let n := (s1 * 64 + s2) * 64 + s3 in
      Some [byte_of (n / 1024); byte_of (n / 4 mod 256)]
  | s1 :: s2 :: s3 :: s4 :: rest =>
      let n := ((s1 * 64 + s2) * 64 + s3) * 64 + s4 in
      (fun tail => byte_of (n / 65536) :: byte_of (n / 256 mod 256) :: byte_of (n mod 256) :: tail)
      <$> decode_sextets rest
  end.
Definition is_line_break (a : ascii) : bool := byte_is 10 a || byte_is 13 a.
Definition DecodeString (s : string) : option (list ascii) :=
  mapM char_sextet (List.filter (fun a => negb (is_line_break a)) (bytes s)) ≫= decode_sextets.

(** ** Round trip *)
Lemma char_sextet_char n : 0 <= n < 64 -> char_sextet (sextet_char n) = Some n.
Proof.
  intros Hn. assert (Hall : forallb (fun k => bool_decide (char_sextet (sextet_char k) = Some k)) (seqZ 0 64) = true)
    by (vm_compute; reflexivity).
  rewrite forallb_forall in Hall. specialize (Hall n). rewrite bool_decide_eq_true in Hall. apply Hall.
  apply list_elem_of_In, elem_of_seqZ. lia.
Qed.

Lemma sextet_char_plain n : 0 <= n < 64 -> is_line_break (sextet_char n) = false.
Proof.
  intros Hn. assert (Hall : forallb (fun k => negb (is_line_break (sextet_char k))) (seqZ 0 64) = true)
    by (vm_compute; reflexivity).
  rewrite forallb_forall in Hall. specialize (Hall n). rewrite negb_true_iff in Hall. apply Hall.
  apply list_elem_of_In, elem_of_seqZ. lia.
Qed.

Lemma byte_val_range a : 0 <= byte_val a < 256.
Proof. unfold byte_val. pose proof (N_ascii_bounded a). lia. Qed.
Lemma byte_of_val a : byte_of (byte_val a) = a.
Proof. unfold byte_of, byte_val. by rewrite N2Z.id, ascii_N_embedding. Qed.

(** The sextets of an encoding. *)
Fixpoint sextets (l : list ascii) : list Z :=
  match l with
  | [] => []
  | [a] => [byte_val a / 4; byte_val a mod 4 * 16]
  | [a; b] =>
      let n := byte_val a * 256 + byte_val b in [n / 1024; n / 16 mod 64; n mod 16 * 4]
  | a :: b :: c :: rest =>
      let n := byte_val a * 65536 + byte_val b * 256 + byte_val c in
      n / 262144 :: n / 4096 mod 64 :: n / 64 mod 64 :: n mod 64 :: sextets rest
  end.

Lemma triple_ind (P : list ascii -> Prop) :
  P [] -> (forall a, P [a]) -> (forall a b, P [a; b]) ->
  (forall a b c l, P l -> P (a :: b :: c :: l)) -> forall l, P l.
Proof.
  intros H0 H1 H2 H3 l. induction l as [l IH] using length_ind.
  destruct l as [|a [|b [|c l]]]; [done|done|done|]. apply H3, IH. cbn. lia.
Qed.

Lemma EncodeToString_sextets l : EncodeToString_bytes l = map sextet_char (sextets l).
Proof. induction l as [|a|a b|a b c l IH] using triple_ind; cbn; [done..|]. by rewrite IH. Qed.

Lemma sextets_range l : Forall (fun n => 0 <= n < 64) (sextets l).
Proof.
  induction l as [|a|a b|a b c l IH] using triple_ind; cbn; repeat constructor; try done;
    pose proof (byte_val_range a); try pose proof (byte_val_range b); try pose proof (byte_val_range c);
    first [apply Z.mod_pos_bound; lia
          | apply Z.div_pos; lia | apply Z.div_lt_upper_bound; lia
          | Z.to_euclidean_division_equations; lia].
Qed.

Lemma decode_sextets_sextets l : decode_sextets (sextets l) = Some l.
Proof.
  induction l as [|a|a b|a b c l IH] using triple_ind; cbn.
  - done.
  - pose proof (byte_val_range a). f_equal. f_equal. rewrite <- (byte_of_val a). f_equal. rewrite byte_of_val.
    Z.to_euclidean_division_equations; lia.
  - pose proof (byte_val_range a). pose proof (byte_val_range b).
    rewrite <- (byte_of_val a), <- (byte_of_val b). repeat f_equal; rewrite !byte_of_val;
    Z.to_euclidean_division_equations; lia.
  - rewrite IH. cbn. pose proof (byte_val_range a). pose proof (byte_val_range b). pose proof (byte_val_range c).
    rewrite <- (byte_of_val a), <- (byte_of_val b), <- (byte_of_val c). repeat f_equal; rewrite !byte_of_val;
    Z.to_euclidean_division_equations; lia.
Qed.

(** Decoding inverts encoding, for every byte sequence. *)
Lemma DecodeString_EncodeToString l : DecodeString (EncodeToString l) = Some l.
Proof.
  unfold DecodeString, EncodeToString. rewrite bytes_of_bytes, EncodeToString_sextets.
  pose proof (sextets_range l) as Hr.
  assert (Hf : List.filter (fun a => negb (is_line_break a)) (map sextet_char (sextets l)) = map sextet_char (sextets l)).
  { clear -Hr. induction Hr as [|n ns Hn _ IH]; cbn; [done|]. by rewrite sextet_char_plain, IH. }
  assert (Hm : mapM char_sextet (map sextet_char (sextets l)) = Some (sextets l)).
  { clear -Hr. induction Hr as [|n ns Hn _ IH]; cbn; [done|]. by rewrite char_sextet_char, IH. }
  rewrite Hf, Hm. cbn. apply decode_sextets_sextets.
Qed.

Lemma EncodeToString_inj l l' : EncodeToString l = EncodeToString l' -> l = l'.
Proof. intros H. apply (f_equal DecodeString) in H. rewrite !DecodeString_EncodeToString in H. congruence. Qed.
