(* ===== verification/Session.v ===== *)
(** * internal/identity: secrets and the session service

    [secrets.go] and [session.go].  SHA-256 is a parameter [sha256] from byte
    sequences to digests; a [Digest] is its 32 bytes as a list.  The
    cryptographic random source is the list of what the coming reads of 32
    bytes yield, and the clock is an argument.  The store is the interface
    [Store] of [session.go]: the service's theorems hold for whatever an
    implementation returns, because the service re-checks it. *)
From S2P Require Import Prelude GoStrings GoTime Identity Base64.

Definition secretBytes : Z := 32.
Definition NUL : ascii := ascii_of_nat 0.
Definition sessionTokenHashContext : list ascii := bytes "cabot-cup/session-token/v1" ++ [NUL].
Definition csrfSecretHashContext : list ascii := bytes "cabot-cup/csrf-secret/v1" ++ [NUL].

Definition Secret := string.
Definition Digest := list ascii.
Definition zeroDigest : Digest := repeat NUL 32.
(** [subtle.ConstantTimeCompare(d[:], other[:]) == 1] *)
Definition Digest_Equal (d other : Digest) : bool := bool_decide (d = other).
Definition Digest_IsZero (d : Digest) : bool := Digest_Equal d zeroDigest.

(** [generateSecret]: [None] is a nil reader, [Some] the outcome of
    [io.ReadFull] on the next 32 bytes. *)
Definition generateSecret (random : option (result (list ascii))) : result Secret :=
  match random with
  | None => Err ErrSecretGeneration
  | Some (Err _) => Err (Wrapf "%w: %v" ErrSecretGeneration)
  | Some (Ok buffer) => Ok (EncodeToString buffer)
  end.

Definition ParseSecret (value : string) : result Secret :=
  match DecodeString value with
  | None => Err ErrInvalidSecret
  | Some decoded =>
      fail_if (negb (Z.of_nat (length decoded) =? secretBytes)
               || negb (bool_decide (EncodeToString decoded = value))) ErrInvalidSecret;;
      Ok value
  end.

(** ** Sessions *)
Definition minimumSessionLifetime : Z := 5 * Minute.
Definition maximumSessionLifetime : Z := 30 * 24 * Hour.

Record Session := mkSession {
  Session_ID : ID; Session_UserID : ID; TokenHash : Digest; CSRFSecretHash : Digest;
  CreatedAt : Time; LastSeenAt : Time; ExpiresAt : Time;
  RevokedAt : Time; RevokeReason : string; RotatedFrom : ID
}.

Definition Session_Validate (s : Session) : result unit :=
  fail_if (negb (ID_Valid (Session_ID s)) || negb (ID_Valid (Session_UserID s))
           || Digest_IsZero (TokenHash s) || Digest_IsZero (CSRFSecretHash s)
           || Digest_Equal (TokenHash s) (CSRFSecretHash s))
    (Wrapf "%w: valid IDs and distinct secret hashes are required" ErrInvalidSession);;
  fail_if (IsZero (CreatedAt s) || Before (LastSeenAt s) (CreatedAt s)
           || After (LastSeenAt s) (ExpiresAt s) || negb (After (ExpiresAt s) (CreatedAt s)))
    (Wrapf "%w: timestamps are inconsistent" ErrInvalidSession);;
  fail_if (negb (Bool.eqb (IsZero (RevokedAt s)) (is_blank (RevokeReason s))))
    (Wrapf "%w: revocation time and reason must be set together" ErrInvalidSession);;
  fail_if (negb (IsZero (RevokedAt s)) && Before (RevokedAt s) (CreatedAt s))
    (Wrapf "%w: revocation precedes creation" ErrInvalidSession);;
  fail_if (negb (bool_decide (RotatedFrom s = ""%string)) && negb (ID_Valid (RotatedFrom s)))
    (Wrapf "%w: rotated-from ID must be a UUID" ErrInvalidSession).

Definition ActiveAt (s : Session) (now : Time) : result unit :=
  Session_Validate s;;
  fail_if (IsZero now) (Wrapf "%w: current time is required" ErrInvalidSession);;
  fail_if (negb (IsZero (RevokedAt s))) ErrSessionRevoked;;
  fail_if (negb (Before now (ExpiresAt s))) ErrSessionExpired.

Record SessionDraft := mkSessionDraft {
  SD_TokenHash : Digest; SD_CSRFSecretHash : Digest;
  SD_CreatedAt : Time; SD_LastSeenAt : Time; SD_ExpiresAt : Time
}.

Definition SessionDraft_validate (d : SessionDraft) : result unit :=
  fail_if (Digest_IsZero (SD_TokenHash d) || Digest_IsZero (SD_CSRFSecretHash d)
           || Digest_Equal (SD_TokenHash d) (SD_CSRFSecretHash d))
    (Wrapf "%w: distinct token and CSRF hashes are required" ErrInvalidSession);;
  fail_if (IsZero (SD_CreatedAt d) || negb (TimeEqual (SD_LastSeenAt d) (SD_CreatedAt d))
           || negb (After (SD_ExpiresAt d) (SD_CreatedAt d)))
    (Wrapf "%w: draft timestamps are inconsistent" ErrInvalidSession).

(** [Store], on a state [S]. *)
Class SessionStore (S : Type) := {
  CreateSessionForIdentity :
    VerifiedIdentity -> SessionDraft -> S -> S * result (Session * Principal);
  CreateSessionForInvitedIdentity :
    VerifiedIdentity -> SessionDraft -> string -> S -> S * result (Session * Principal);
  UseSession : Digest -> Time -> S -> S * result (Session * Principal);
  RotateSession : Digest -> SessionDraft -> Time -> string -> S -> S * result (Session * Principal);
  RevokeSession : Digest -> Time -> string -> S -> S * result unit
}.

Record IssuedSession := mkIssuedSession {
  IS_Session : Session; IS_Principal : Principal; Token : Secret; CSRFSecret : Secret
}.
Record AuthenticatedSession := mkAuthenticatedSession {
  AS_Session : Session; AS_Principal : Principal
}.

Definition Service_valid_lifetime (lifetime : Z) : bool :=
  negb ((lifetime <? minimumSessionLifetime) || (maximumSessionLifetime <? lifetime)).

(** [NewService]: the only field the caller chooses besides the store. *)
Definition NewService (hasStore : bool) (lifetime : Z) : result Z :=
  fail_if (negb hasStore) (Wrapf "%w: session store is required" ErrInvalidSession);;
  fail_if (negb (Service_valid_lifetime lifetime))
    (Wrapf "%w: lifetime must be between %s and %s" ErrInvalidSession);;
  Ok lifetime.

Section service.
Context {S : Type} `{SessionStore S}.
Variable unicode_lower : string -> string.
Variable ParseAddress : string -> option (string * string).
Variable sha256 : list ascii -> Digest.

Definition hashSecret (context : list ascii) (secret : Secret) : Digest :=
  sha256 (context ++ bytes secret).
Definition HashSessionToken (secret : Secret) : Digest := hashSecret sessionTokenHashContext secret.
Definition HashCSRFSecret (secret : Secret) : Digest := hashSecret csrfSecretHashContext secret.

Definition verifySecret (expected : Digest) (presented : string) (hash : Secret -> Digest) : bool :=
  match ParseSecret presented with
  | Err _ => false
  | Ok secret => Digest_Equal expected (hash secret)
  end.
Definition VerifySessionToken (expected : Digest) (presented : string) : bool :=
  verifySecret expected presented HashSessionToken.
Definition VerifyCSRFSecret (expected : Digest) (presented : string) : bool :=
  verifySecret expected presented HashCSRFSecret.

Definition ValidateCSRF (session : Session) (presented : string) : result unit :=
  fail_if (negb (VerifyCSRFSecret (CSRFSecretHash session) presented)) ErrInvalidCSRF.

(** [newDraft] draws two secrets: [reads] yields the outcome of each read. *)
Definition newDraft (lifetime : Z) (now : Time) (reads : nat -> result (list ascii))
    : result (Secret * Secret * SessionDraft) :=
  token ← generateSecret (Some (reads 0%nat));
  csrf ← generateSecret (Some (reads 1%nat));
  fail_if (bool_decide (token = csrf)) ErrSecretGeneration;;
  let now := Truncate (UTC now) Microsecond in
  let draft := mkSessionDraft (HashSessionToken token) (HashCSRFSecret csrf) now now (TimeAdd now lifetime) in
  SessionDraft_validate draft;;
  Ok (token, csrf, draft).

Definition validateStoredSession (session : Session) (principal : Principal) (draft : SessionDraft)
    : result unit :=
  or_err (Wrapf "%w: %v" ErrRepositoryContract) (ActiveAt session (SD_CreatedAt draft));;
  or_err (Wrapf "%w: %v" ErrRepositoryContract) (Principal_Validate unicode_lower ParseAddress principal);;
  fail_if (negb (bool_decide (Session_UserID session = User_ID (Principal_User principal)))
           || negb (Digest_Equal (TokenHash session) (SD_TokenHash draft))
           || negb (Digest_Equal (CSRFSecretHash session) (SD_CSRFSecretHash draft))
           || negb (TimeEqual (CreatedAt session) (SD_CreatedAt draft))
           || negb (TimeEqual (LastSeenAt session) (SD_LastSeenAt draft))
           || negb (TimeEqual (ExpiresAt session) (SD_ExpiresAt draft))) ErrRepositoryContract.

Definition validateActiveSession (session : Session) (principal : Principal) (now : Time) : result unit :=
  match ActiveAt session now with
  | Err err =>
      if errors_is "identity.ErrSessionExpired" err || errors_is "identity.ErrSessionRevoked" err
      then Err err
      else Err (Wrapf "%w: %v" ErrRepositoryContract)
  | Ok _ =>
      match Principal_Validate unicode_lower ParseAddress principal with
      | Err err =>
          if errors_is "identity.ErrSignInNotAllowed" err then Err ErrUnauthenticated
          else Err (Wrapf "%w: %v" ErrRepositoryContract)
      | Ok _ =>
          fail_if (negb (bool_decide (Session_UserID session = User_ID (Principal_User principal))))
            ErrRepositoryContract
      end
  end.

(** The checks [CompleteSignIn] and its invited variant end with. *)
Definition issue_sign_in (token csrf : Secret) (draft : SessionDraft)
    (stored : result (Session * Principal)) : result IssuedSession :=
  '(session, principal) ← stored;
  validateStoredSession session principal draft;;
  fail_if (negb (bool_decide (RotatedFrom session = ""%string))) ErrRepositoryContract;;
  Ok (mkIssuedSession session principal token csrf).

Definition CompleteSignIn (lifetime : Z) (now : Time) (reads : nat -> result (list ascii))
    (who : VerifiedIdentity) (s : S) : S * result IssuedSession :=
  match VerifiedIdentity_Validate unicode_lower ParseAddress who with
  | Err err => (s, Err err)
  | Ok _ =>
      match newDraft lifetime now reads with
      | Err err => (s, Err err)
      | Ok (token, csrf, draft) =>
          let '(s, stored) := CreateSessionForIdentity who draft s in
          (s, issue_sign_in token csrf draft stored)
      end
  end.

Definition CompleteSignInWithInvitation (lifetime : Z) (now : Time) (reads : nat -> result (list ascii))
    (who : VerifiedIdentity) (inviteToken : string) (s : S) : S * result IssuedSession :=
  match VerifiedIdentity_Validate unicode_lower ParseAddress who with
  | Err err => (s, Err err)
  | Ok _ =>
      match newDraft lifetime now reads with
      | Err err => (s, Err err)
      | Ok (token, csrf, draft) =>
          let '(s, stored) := CreateSessionForInvitedIdentity who draft inviteToken s in
          (s, issue_sign_in token csrf draft stored)
      end
  end.

Definition Resume (now : Time) (rawToken : string) (s : S) : S * result AuthenticatedSession :=
  match ParseSecret rawToken with
  | Err _ => (s, Err ErrUnauthenticated)
  | Ok token =>
      let now := Truncate (UTC now) Microsecond in
      let '(s, used) := UseSession (HashSessionToken token) now s in
      (s, '(session, principal) ← used;
          fail_if (negb (Digest_Equal (TokenHash session) (HashSessionToken token))) ErrRepositoryContract;;
          validateActiveSession session principal now;;
          Ok (mkAuthenticatedSession session principal))
  end.

Definition Rotate (lifetime : Z) (now : Time) (reads : nat -> result (list ascii))
    (rawToken reason : string) (s : S) : S * result IssuedSession :=
  match ParseSecret rawToken with
  | Err _ => (s, Err ErrUnauthenticated)
  | Ok current =>
      let reason := TrimSpace reason in
      if bool_decide (reason = ""%string)
      then (s, Err (Wrapf "%w: rotation reason is required" ErrInvalidSession))
      else
        match newDraft lifetime now reads with
        | Err err => (s, Err err)
        | Ok (token, csrf, draft) =>
            let '(s, stored) := RotateSession (HashSessionToken current) draft (SD_CreatedAt draft) reason s in
            (s, '(session, principal) ← stored;
                validateStoredSession session principal draft;;
                fail_if (negb (ID_Valid (RotatedFrom session))) ErrRepositoryContract;;
                Ok (mkIssuedSession session principal token csrf))
        end
  end.

Definition Revoke (now : Time) (rawToken reason : string) (s : S) : S * result unit :=
  match ParseSecret rawToken with
  | Err _ => (s, Err ErrUnauthenticated)
  | Ok token =>
      let reason := TrimSpace reason in
      if bool_decide (reason = ""%string)
      then (s, Err (Wrapf "%w: revocation reason is required" ErrInvalidSession))
      else RevokeSession (HashSessionToken token) (Truncate (UTC now) Microsecond) reason s
  end.
End service.

(** ** Lemmas *)
Lemma ParseSecret_encoded b : Z.of_nat (length b) = secretBytes -> ParseSecret (EncodeToString b) = Ok (EncodeToString b).
Proof.
  intros Hb. unfold ParseSecret. rewrite DecodeString_EncodeToString, Hb, Z.eqb_refl.
  by rewrite bool_decide_true.
Qed.

Lemma ParseSecret_spec v t :
  ParseSecret v = Ok t <-> t = v /\ exists b, Z.of_nat (length b) = secretBytes /\ v = EncodeToString b.
Proof.
  split.
  - unfold ParseSecret. destruct (DecodeString v) as [b|]; [|done]. intros H. go_inv. bool_prop. eauto.
  - intros (-> & b & Hb & ->). by apply ParseSecret_encoded.
Qed.

Lemma ActiveAt_Ok s now u :
  ActiveAt s now = Ok u ->
  Session_Validate s = Ok () /\ IsZero (RevokedAt s) = true /\ nanos now < nanos (ExpiresAt s).
Proof.
  unfold ActiveAt. intros H. go_inv. bool_prop. unfold Before in *. bool_prop.
  match goal with v : unit |- _ => destruct v end. done.
Qed.

Section service_lemmas.
Context {S : Type} `{SessionStore S}.
Variable unicode_lower : string -> string.
Variable ParseAddress : string -> option (string * string).
Variable sha256 : list ascii -> Digest.

Definition full_reads (reads : nat -> result (list ascii)) : Prop :=
  forall i b, reads i = Ok b -> Z.of_nat (length b) = secretBytes.

Lemma newDraft_Ok lifetime now reads token csrf draft :
  full_reads reads -> newDraft sha256 lifetime now reads = Ok (token, csrf, draft) ->
  let n := Truncate (UTC now) Microsecond in
  ParseSecret token = Ok token /\ ParseSecret csrf = Ok csrf /\ token <> csrf
  /\ draft = mkSessionDraft (HashSessionToken sha256 token) (HashCSRFSecret sha256 csrf) n n (TimeAdd n lifetime).
Proof.
  intros Hreads. unfold newDraft. intros Hd. go_inv. bool_prop.
  assert (Hgen : forall i t, generateSecret (Some (reads i)) = Ok t -> ParseSecret t = Ok t).
  { intros i t. unfold generateSecret. destruct (reads i) as [b|] eqn:Hi; [|done].
    injection 1 as <-. by apply ParseSecret_encoded, (Hreads i). }
  split_and!; eauto.
Qed.

(** What [validateStoredSession] establishes about the store's answer. *)
Lemma validateStoredSession_Ok session principal draft u :
  validateStoredSession unicode_lower ParseAddress session principal draft = Ok u ->
  ActiveAt session (SD_CreatedAt draft) = Ok () /\ signed_in unicode_lower ParseAddress principal
  /\ Session_UserID session = User_ID (Principal_User principal)
  /\ TokenHash session = SD_TokenHash draft /\ CSRFSecretHash session = SD_CSRFSecretHash draft
  /\ nanos (CreatedAt session) = nanos (SD_CreatedAt draft)
  /\ nanos (LastSeenAt session) = nanos (SD_LastSeenAt draft)
  /\ nanos (ExpiresAt session) = nanos (SD_ExpiresAt draft).
Proof.
  unfold validateStoredSession, TimeEqual, Digest_Equal. intros Hv. go_inv. bool_prop.
  repeat match goal with v : unit |- _ => destruct v end.
  split_and!; try done. by apply Principal_Validate_iff.
Qed.
End service_lemmas.

(** The three operations that issue a session. *)
Inductive issue_call :=
  | SignIn (who : VerifiedIdentity)
  | InvitedSignIn (who : VerifiedIdentity) (inviteToken : string)
  | Rotation (rawToken reason : string).

Definition issue {S} `{SessionStore S} unicode_lower ParseAddress sha256 (lifetime : Z) (now : Time)
    (reads : nat -> result (list ascii)) (call : issue_call) (s : S) : S * result IssuedSession :=
  match call with
  | SignIn who => CompleteSignIn unicode_lower ParseAddress sha256 lifetime now reads who s
  | InvitedSignIn who inviteToken =>
      CompleteSignInWithInvitation unicode_lower ParseAddress sha256 lifetime now reads who inviteToken s
  | Rotation rawToken reason =>
      Rotate unicode_lower ParseAddress sha256 lifetime now reads rawToken reason s
  end.

(** Every issuing operation ends the same way: a draft, a stored answer that
    passed the checks, and the check on [RotatedFrom]. *)
Lemma issue_Ok {S} `{SessionStore S} unicode_lower ParseAddress sha256 lifetime now reads call (s : S) s' issued :
  issue unicode_lower ParseAddress sha256 lifetime now reads call s = (s', Ok issued) ->
  exists draft,
    newDraft sha256 lifetime now reads = Ok (Token issued, CSRFSecret issued, draft)
    /\ validateStoredSession unicode_lower ParseAddress (IS_Session issued) (IS_Principal issued) draft = Ok ()
    /\ match call with
       | Rotation _ _ => ID_Valid (RotatedFrom (IS_Session issued)) = true
       | _ => RotatedFrom (IS_Session issued) = ""%string
       end.
Proof.
  destruct call as [who|who inviteToken|rawToken reason]; cbn [issue];
    unfold CompleteSignIn, CompleteSignInWithInvitation, Rotate, issue_sign_in.
  1, 2: destruct (VerifiedIdentity_Validate _ _ who); [|done].
  3: destruct (ParseSecret rawToken); [|done]; cbv zeta; case_bool_decide; [done|].
  all: destruct (newDraft _ _ _ _) as [[[token csrf] draft]|]; [|done].
  1: destruct (CreateSessionForIdentity _ _ s) as [s1 stored].
  2: destruct (CreateSessionForInvitedIdentity _ _ _ s) as [s1 stored].
  3: destruct (RotateSession _ _ _ _ s) as [s1 stored].
  all: intros [= <- Hr]; go_inv;
    match goal with q : (Session * Principal)%type |- _ => destruct q as [session principal] end;
    go_inv; bool_prop; repeat match goal with v : unit |- _ => destruct v end; eauto.
Qed.

(** ** Theorems *)

(** A bearer secret has exactly one spelling.  [ParseSecret] accepts a text
    if and only if it is the unpadded URL-safe base64 encoding of some 32
    bytes, and returns it unchanged, so every generated secret is accepted and
    no two texts (padding, line breaks, stray low bits) stand for one secret. *)
Theorem ParseSecret_iff_canonical value t :
  ParseSecret value = Ok t
  <-> t = value /\ exists b, length b = 32%nat /\ generateSecret (Some (Ok b)) = Ok value.
Proof.
  rewrite ParseSecret_spec. unfold secretBytes, generateSecret.
  split; intros (-> & b & Hb & Hv); (split; [done|]); exists b; (split; [lia|]); [by rewrite Hv|congruence].
Qed.

(** An issued session is bound to what the client is given, whatever the
    store answers.  If signing in, signing in by invitation or rotating
    succeeds then the session carries the hashes of the returned token and
    CSRF secret, which are different, so that presenting them verifies; it
    belongs to the returned principal, who may act; it is active now, expires
    exactly one lifetime later, is not revoked; and it records a session it
    replaces exactly when it comes from a rotation. *)
Theorem issued_sessions_are_bound {S} `{SessionStore S} unicode_lower ParseAddress sha256
    lifetime now reads call (s : S) s' issued :
  full_reads reads ->
  issue unicode_lower ParseAddress sha256 lifetime now reads call s = (s', Ok issued) ->
  let session := IS_Session issued in
  let principal := IS_Principal issued in
  VerifySessionToken sha256 (TokenHash session) (Token issued) = true
  /\ ValidateCSRF sha256 session (CSRFSecret issued) = Ok ()
  /\ Token issued <> CSRFSecret issued
  /\ signed_in unicode_lower ParseAddress principal
  /\ Session_UserID session = User_ID (Principal_User principal)
  /\ ActiveAt session (Truncate (UTC now) Microsecond) = Ok ()
  /\ nanos (ExpiresAt session) = nanos (CreatedAt session) + lifetime
  /\ IsZero (RevokedAt session) = true
  /\ match call with
     | Rotation _ _ => ID_Valid (RotatedFrom session) = true
     | _ => RotatedFrom session = ""%string
     end.
Proof.
  intros Hreads Hi. cbv zeta.
  destruct (issue_Ok _ _ _ _ _ _ _ _ _ _ Hi) as (draft & Hd & Hv & Hr).
  destruct (newDraft_Ok _ _ _ _ _ _ _ Hreads Hd) as (Ht & Hc & Hne & ->).
  apply validateStoredSession_Ok in Hv as (Ha & Hs & Hu & H1 & H2 & H3 & H4 & H5).
  cbn in Ha, H1, H2, H3, H4, H5.
  destruct (ActiveAt_Ok _ _ _ Ha) as (_ & Hrev & _).
  split_and!; try done.
  - unfold VerifySessionToken, verifySecret, Digest_Equal. by rewrite Ht, H1, bool_decide_true.
  - unfold ValidateCSRF, VerifyCSRFSecret, verifySecret, Digest_Equal. by rewrite Hc, H2, bool_decide_true.
  - by rewrite H5, H3.
Qed.

(** Resuming trusts nobody.  A success means the presented text is a
    well-formed secret whose hash the session carries, the session is
    consistent, unexpired and unrevoked at the current microsecond, and it
    belongs to a principal who may act, all as the store reported in that one
    call; a malformed secret is refused as unauthenticated without consulting
    the store; and any other outcome changes the store by that call only. *)
Theorem Resume_sound {S} `{SessionStore S} unicode_lower ParseAddress sha256 now rawToken (s : S) :
  let n := Truncate (UTC now) Microsecond in
  let used := UseSession (HashSessionToken sha256 rawToken) n s in
  match Resume unicode_lower ParseAddress sha256 now rawToken s with
  | (s', Ok a) =>
      used = (s', Ok (AS_Session a, AS_Principal a))
      /\ VerifySessionToken sha256 (TokenHash (AS_Session a)) rawToken = true
      /\ Session_Validate (AS_Session a) = Ok ()
      /\ IsZero (RevokedAt (AS_Session a)) = true /\ nanos n < nanos (ExpiresAt (AS_Session a))
      /\ signed_in unicode_lower ParseAddress (AS_Principal a)
      /\ Session_UserID (AS_Session a) = User_ID (Principal_User (AS_Principal a))
  | (s', Err e) =>
      if is_Ok (ParseSecret rawToken) then s' = used.1 else s' = s /\ e = ErrUnauthenticated
  end.
Proof.
  cbv zeta. unfold Resume. destruct (ParseSecret rawToken) as [token|] eqn:Hp; [|done].
  pose proof Hp as Hp'. apply ParseSecret_spec in Hp' as (-> & _).
  destruct (UseSession _ _ s) as [s1 [[session principal]|err]] eqn:Hu; [|done]. cbn.
  destruct (Digest_Equal _ _) eqn:Heq; cbn; [|done].
  unfold validateActiveSession. destruct (ActiveAt session _) as [u|err] eqn:Ha; cbn.
  2:{ by destruct (_ || _). }
  destruct (Principal_Validate _ _ principal) as [[]|err] eqn:Hv; cbn.
  2:{ by destruct (errors_is _ _). }
  destruct (bool_decide_reflect (Session_UserID session = User_ID (Principal_User principal))); cbn; [|done].
  apply ActiveAt_Ok in Ha as (H1 & H2 & H3). split_and!; try done.
  - unfold VerifySessionToken, verifySecret. by rewrite Hp.
  - by apply Principal_Validate_iff.
Qed.

(** ** A worked sign-in *)
Definition ex_id (c : ascii) : ID :=
  of_bytes (repeat c 8 ++ ["-"%char] ++ repeat c 4 ++ ["-"%char] ++ repeat c 4 ++ ["-"%char]
            ++ repeat c 4 ++ ["-"%char] ++ repeat c 12).
Definition ex_now : Time := mkTime 63900000000000000000 true.
Definition ex_principal : Principal :=
  mkPrincipal (mkUser (ex_id "a") "Alice" "" UserActive)
              (mkMembership (ex_id "b") (ex_id "a") RoleMember ex_now zeroTime).
Definition ex_identity : VerifiedIdentity :=
  mkVerifiedIdentity "google" "subject-1" "alice@example.com" true "Alice".

(** A store that answers every request with the drafted session. *)
Definition ex_stored (rotatedFrom : ID) (d : SessionDraft) : Session * Principal :=
  (mkSession (ex_id "c") (ex_id "a") (SD_TokenHash d) (SD_CSRFSecretHash d) (SD_CreatedAt d)
     (SD_LastSeenAt d) (SD_ExpiresAt d) zeroTime "" rotatedFrom, ex_principal).
Definition ex_session_store : SessionStore nat := {|
  CreateSessionForIdentity _ d n := (S n, Ok (ex_stored "" d));
  CreateSessionForInvitedIdentity _ d _ n := (S n, Ok (ex_stored "" d));
  UseSession _ _ n := (n, Err ErrUnauthenticated);
  RotateSession _ d _ _ n := (S n, Ok (ex_stored (ex_id "d") d));
  RevokeSession _ _ _ n := (n, Ok ())
|}.
Definition ex_ParseAddress (value : string) : option (string * string) := Some (""%string, value).
(** A stand-in for SHA-256: the first 32 bytes, padded. *)
Definition ex_digest (l : list ascii) : Digest := take 32 (l ++ repeat NUL 32).
Definition ex_reads (i : nat) : result (list ascii) := Ok (repeat (ascii_of_nat (i + 1)) 32).

Lemma issued_sessions_are_bound_witness :
  exists issued,
    issue (H := ex_session_store) (fun s => s) ex_ParseAddress ex_digest Hour ex_now ex_reads (SignIn ex_identity) 0%nat
    = (1%nat, Ok issued)
    /\ VerifySessionToken ex_digest (TokenHash (IS_Session issued)) (Token issued) = true.
Proof.
  eexists. split; [vm_compute; reflexivity|].
  refine (proj1 (issued_sessions_are_bound (H := ex_session_store) (fun s => s) ex_ParseAddress ex_digest
            Hour ex_now ex_reads (SignIn ex_identity) 0%nat 1%nat _ _ _)).
  - intros i b Hb. injection Hb as <-. reflexivity.
  - vm_compute. reflexivity.
Defined.
