(* ===== verification/LegacyBook.v ===== *)
(** * internal/migration/legacybook/reconcile.go: reconciling the archive

    Amount parsing and the reconciliation report.  An [Issue]'s message is
    kept as the error it renders.  [sort.Slice] is not stable; the model sorts
    stably, which is one of its possible results and the only one when IDs
    are distinct (duplicates are reported as blocking issues). *)
From S2P Require Import Prelude GoStrings GoTime Decimal.

Definition SourceSystem : string := "legacy-cabot-book".
Definition SourceCurrency : string := "CAD".

(** ** [ParseCents] *)
(** An optional sign, as [ParseCents] and [strconv.ParseInt] read it. *)
Definition signed_text (l : list ascii) : bool * list ascii :=
  match l with
  | [] => (false, [])
  | a :: rest => if byte_is 45 a then (true, rest) else if byte_is 43 a then (false, rest) else (false, l)
  end.
Definition all_zero (l : list ascii) : bool := forallb (byte_is 48) l.

Definition not_decimal : error := Errorf "amount %q is not a base-10 decimal".

Definition ParseCents (value : string) : result Z :=
  let raw := TrimSpace value in
  fail_if (bool_decide (raw = ""%string)) (Errorf "amount is empty");;
  let '(negative, raw) := signed_text (bytes raw) in
  let sign := if negative then -1 else 1 in
  let parts := split_on 46 raw in
  let part0 := default [] (head parts) in
  fail_if ((2 <? Z.of_nat (length parts)) || bool_decide (part0 = [])) not_decimal;;
  match ParseInt 64 (of_bytes part0) with
  | None => Err not_decimal
  | Some whole =>
      fail_if (whole <? 0) not_decimal;;
      let fraction := default [] (parts !! 1%nat) in
      fail_if (negb (forallb is_digit fraction)) not_decimal;;
      fail_if ((2 <? Z.of_nat (length fraction)) && negb (all_zero (drop 2 fraction)))
        (Errorf "amount %q contains fractional cents");;
      let fraction := if Z.of_nat (length fraction) <? 2
                      then fraction ++ repeat "0"%char (2 - length fraction) else fraction in
      let fraction := if 2 <? Z.of_nat (length fraction) then take 2 fraction else fraction in
      let frac := default 0 (ParseInt 64 (of_bytes fraction)) in
      fail_if (quot64 (MaxInt64 - frac) 100 <? whole) (Errorf "amount %q exceeds int64 cents");;
      Ok (wrap64 (sign * wrap64 (wrap64 (whole * 100) + frac)))
  end.

Section lower.
Variable unicode_lower : string -> string.
Definition lower_trim (s : string) : string := ToLower unicode_lower (TrimSpace s).

Definition MapRole (role : string) : result string :=
  let r := lower_trim role in
  if bool_decide (r = "user"%string) || bool_decide (r = "member"%string) then Ok "member"%string
  else if bool_decide (r = "admin"%string) then Ok "admin"%string
  else if bool_decide (r = "root"%string) || bool_decide (r = "owner"%string) then Ok "owner"%string
  else Err (Errorf "unsupported legacy role %q").

Definition mapWagerResult (value : string) : result string :=
  let r := lower_trim value in
  if bool_decide (r = "win"%string) then Ok "win"%string
  else if bool_decide (r = "lose"%string) || bool_decide (r = "loss"%string) then Ok "loss"%string
  else if bool_decide (r = "tie"%string) || bool_decide (r = "push"%string) then Ok "push"%string
  else Err (Errorf "unsupported wager result %q").

Definition parseAmericanOdds (value : string) : result Z :=
  match ParseInt 32 (TrimSpace value) with
  | None => Err (Errorf "odds %q are not valid integral American odds")
  | Some odds =>
      fail_if ((-100 <? odds) && (odds <? 100)) (Errorf "odds %q are not valid integral American odds");;
      Ok odds
  end.
End lower.

(** ** Data *)
Record LegacyUser := mkLegacyUser {
  LU_ID : Z; LU_DisplayName : string; LU_Email : string; LU_Role : string;
  LU_Balance : string; LU_FreePlayBalance : string
}.
Record LegacyTransaction := mkLegacyTransaction {
  LT_ID : Z; LT_UserID : Z; LT_Amount : string; LT_Type : string;
  LT_Description : string; LT_OccurredAt : Time
}.
Record LegacyWager := mkLegacyWager {
  LW_ID : Z; LW_UserID : Z; LW_Amount : string; LW_Description : string; LW_Odds : string;
  LW_PlacedAt : Time; LW_Result : string; LW_Approved : bool
}.

(** [Source]: what its three queries return. *)
Record Source := mkSource {
  Users : result (list LegacyUser);
  Transactions : result (list LegacyTransaction);
  Wagers : result (list LegacyWager)
}.

Inductive Severity := SeverityWarning | SeverityBlocking.
Record Issue := mkIssue {
  Issue_Severity : Severity; Code : string; SourceTable : string; SourceID : Z;
  Issue_LegacyUserID : Z; Message : error
}.

Record UserReconciliation := mkUR {
  UR_LegacyUserID : Z; UR_DisplayName : string; UR_Email : string; LegacyRole : string;
  TargetRole : string; ClosingCashCents : Z; ClosingFreePlayCents : Z;
  TransactionNetCents : Z; DifferenceCents : Z; UR_TransactionCount : Z; UR_Promotable : bool
}.
Record TransactionRecord := mkTR {
  SourceTransactionID : Z; TR_LegacyUserID : Z; TR_Currency : string; AmountCents : Z;
  TR_Type : string; TR_Description : string; TR_OccurredAt : Time
}.
Record WagerRecord := mkWR {
  SourceWagerID : Z; WR_LegacyUserID : Z; WR_Currency : string; WR_StakeCents : Z;
  WR_AcceptedTerms : string; WR_AcceptedAmericanOdds : Z; WR_PlacedAt : Time;
  WR_Result : string; WR_Approved : bool
}.

Record Report := mkReport {
  Version : Z; Report_SourceSystem : string;
  UserCount : Z; TransactionCount : Z; WagerCount : Z;
  ClosingCashTotalCents : Z; ClosingFreePlayTotalCents : Z;
  TransactionNetTotalCents : Z; DifferenceTotalCents : Z;
  Report_Users : list UserReconciliation;
  Report_Transactions : list TransactionRecord;
  Report_Wagers : list WagerRecord;
  Issues : list Issue
}.

Definition blocking (i : Issue) : bool :=
  match Issue_Severity i with SeverityBlocking => true | SeverityWarning => false end.
Definition Promotable (r : Report) : bool := negb (existsb blocking (Issues r)).

(** Field updates. *)
Definition set_Users (us : list UserReconciliation) (r : Report) : Report :=
  mkReport (Version r) (Report_SourceSystem r) (UserCount r) (TransactionCount r) (WagerCount r)
    (ClosingCashTotalCents r) (ClosingFreePlayTotalCents r) (TransactionNetTotalCents r)
    (DifferenceTotalCents r) us (Report_Transactions r) (Report_Wagers r) (Issues r).
Definition add_Transaction (t : TransactionRecord) (r : Report) : Report :=
  mkReport (Version r) (Report_SourceSystem r) (UserCount r) (TransactionCount r) (WagerCount r)
    (ClosingCashTotalCents r) (ClosingFreePlayTotalCents r) (TransactionNetTotalCents r)
    (DifferenceTotalCents r) (Report_Users r) (Report_Transactions r ++ [t]) (Report_Wagers r) (Issues r).
Definition add_Wager (w : WagerRecord) (r : Report) : Report :=
  mkReport (Version r) (Report_SourceSystem r) (UserCount r) (TransactionCount r) (WagerCount r)
    (ClosingCashTotalCents r) (ClosingFreePlayTotalCents r) (TransactionNetTotalCents r)
    (DifferenceTotalCents r) (Report_Users r) (Report_Transactions r) (Report_Wagers r ++ [w]) (Issues r).
Definition set_Issues (is_ : list Issue) (r : Report) : Report :=
  mkReport (Version r) (Report_SourceSystem r) (UserCount r) (TransactionCount r) (WagerCount r)
    (ClosingCashTotalCents r) (ClosingFreePlayTotalCents r) (TransactionNetTotalCents r)
    (DifferenceTotalCents r) (Report_Users r) (Report_Transactions r) (Report_Wagers r) is_.
Definition add_Issue (i : Issue) (r : Report) : Report := set_Issues (Issues r ++ [i]) r.

Definition not_promotable (u : UserReconciliation) : UserReconciliation :=
  mkUR (UR_LegacyUserID u) (UR_DisplayName u) (UR_Email u) (LegacyRole u) (TargetRole u)
    (ClosingCashCents u) (ClosingFreePlayCents u) (TransactionNetCents u) (DifferenceCents u)
    (UR_TransactionCount u) false.
Definition post_amount (amount : Z) (u : UserReconciliation) : UserReconciliation :=
  mkUR (UR_LegacyUserID u) (UR_DisplayName u) (UR_Email u) (LegacyRole u) (TargetRole u)
    (ClosingCashCents u) (ClosingFreePlayCents u) (wrap64 (TransactionNetCents u + amount))
    (DifferenceCents u) (UR_TransactionCount u + 1) (UR_Promotable u).
Definition set_Difference (d : Z) (u : UserReconciliation) : UserReconciliation :=
  mkUR (UR_LegacyUserID u) (UR_DisplayName u) (UR_Email u) (LegacyRole u) (TargetRole u)
    (ClosingCashCents u) (ClosingFreePlayCents u) (TransactionNetCents u) d
    (UR_TransactionCount u) (UR_Promotable u).

Definition addUserIssue (report : Report) (user : UserReconciliation) (code table : string)
    (sourceID : Z) (message : error) : Report * UserReconciliation :=
  (add_Issue (mkIssue SeverityBlocking code table sourceID (UR_LegacyUserID user) message) report,
   not_promotable user).

(** ** The four loops of [Reconcile]

    [entry] is a variable of the first loop, appended to the report at the end
    of the body; the later loops hold a pointer [&report.Users[entryIndex]],
    so their updates go to that position of the slice. *)
Definition report_issue (report : Report) (i : nat) (code table : string) (sourceID : Z) (message : error)
    : Report :=
  match Report_Users report !! i with
  | None => report
  | Some entry =>
      let '(report, entry) := addUserIssue report entry code table sourceID message in
      set_Users (<[i := entry]> (Report_Users report)) report
  end.

(** [if cond { addUserIssue(...) }] on the local entry *)
Definition issue_if (cond : bool) (code : string) (sourceID : Z) (message : error)
    (re : Report * UserReconciliation) : Report * UserReconciliation :=
  if cond then addUserIssue re.1 re.2 code "Users" sourceID message else re.
(** [entry.Field, err = parse(...)] and its error branch; [parse] yields the
    zero value with its error. *)
Definition assign {A} (zero : A) (parsed : result A) (set : A -> UserReconciliation -> UserReconciliation)
    (code : string) (sourceID : Z) (re : Report * UserReconciliation) : Report * UserReconciliation :=
  match parsed with
  | Ok a => (re.1, set a re.2)
  | Err err => addUserIssue re.1 (set zero re.2) code "Users" sourceID err
  end.

Definition set_TargetRole (r : string) (u : UserReconciliation) : UserReconciliation :=
  mkUR (UR_LegacyUserID u) (UR_DisplayName u) (UR_Email u) (LegacyRole u) r
    (ClosingCashCents u) (ClosingFreePlayCents u) (TransactionNetCents u) (DifferenceCents u)
    (UR_TransactionCount u) (UR_Promotable u).
Definition set_ClosingCash (c : Z) (u : UserReconciliation) : UserReconciliation :=
  mkUR (UR_LegacyUserID u) (UR_DisplayName u) (UR_Email u) (LegacyRole u) (TargetRole u)
    c (ClosingFreePlayCents u) (TransactionNetCents u) (DifferenceCents u)
    (UR_TransactionCount u) (UR_Promotable u).
Definition set_ClosingFreePlay (c : Z) (u : UserReconciliation) : UserReconciliation :=
  mkUR (UR_LegacyUserID u) (UR_DisplayName u) (UR_Email u) (LegacyRole u) (TargetRole u)
    (ClosingCashCents u) c (TransactionNetCents u) (DifferenceCents u)
    (UR_TransactionCount u) (UR_Promotable u).

Section reconcile.
Variable unicode_lower : string -> string.

Definition new_entry (user : LegacyUser) : UserReconciliation :=
  mkUR (LU_ID user) (TrimSpace (LU_DisplayName user)) (lower_trim unicode_lower (LU_Email user))
    (lower_trim unicode_lower (LU_Role user)) "" 0 0 0 0 0 true.

Definition reconcile_user (st : Report * gmap Z nat) (user : LegacyUser) : Report * gmap Z nat :=
  let '(report, byID) := st in
  let id := LU_ID user in
  let re := (report, new_entry user) in
  let re := issue_if (id <=? 0) "invalid_user_id" id (Errorf "legacy user ID must be positive") re in
  let re := issue_if (bool_decide (UR_DisplayName (new_entry user) = ""%string)) "missing_display_name" id
              (Errorf "display name is required") re in
  let re := assign "" (MapRole unicode_lower (LegacyRole (new_entry user))) set_TargetRole "unsupported_role" id re in
  let re := assign 0 (ParseCents (LU_Balance user)) set_ClosingCash "invalid_cash_amount" id re in
  let re := assign 0 (ParseCents (LU_FreePlayBalance user)) set_ClosingFreePlay "invalid_free_play_amount" id re in
  let re := issue_if (bool_decide (is_Some (byID !! id))) "duplicate_user_id" id
              (Errorf "legacy user ID is duplicated") re in
  (set_Users (Report_Users re.1 ++ [re.2]) re.1, <[id := length (Report_Users re.1)]> byID).

Definition sign_mismatch (typeName : string) (amount : Z) : bool :=
  (bool_decide (typeName = "credit"%string) && (amount <=? 0))
  || (bool_decide (typeName = "debit"%string) && (0 <=? amount))
  || (negb (bool_decide (typeName = "credit"%string)) && negb (bool_decide (typeName = "debit"%string))).
Definition net_overflows (net amount : Z) : bool :=
  ((0 <? amount) && (MaxInt64 - amount <? net)) || ((amount <? 0) && (net <? -MaxInt64 - 1 - amount)).

(** Blocking issues of a row of [table] owned by no known user. *)
Definition orphan (code table : string) (sourceID userID : Z) (message : error) (report : Report) : Report :=
  add_Issue (mkIssue SeverityBlocking code table sourceID userID message) report.

Definition reconcile_transaction (byID : gmap Z nat) (st : Report * gset Z) (transaction : LegacyTransaction)
    : Report * gset Z :=
  let '(report, seen) := st in
  let id := LT_ID transaction in
  match byID !! LT_UserID transaction with
  | None => (orphan "orphan_transaction" "Transactions" id (LT_UserID transaction)
               (Errorf "transaction references an unknown user") report, seen)
  | Some i =>
      let fail code message report := report_issue report i code "Transactions" id message in
      if bool_decide (id ∈ seen)
      then (fail "duplicate_transaction_id" (Errorf "legacy transaction ID is duplicated") report, seen)
      else
        let seen := {[id]} ∪ seen in
        match ParseCents (LT_Amount transaction) with
        | Err parseErr => (fail "invalid_transaction_amount" parseErr report, seen)
        | Ok amount =>
            let typeName := lower_trim unicode_lower (LT_Type transaction) in
            if sign_mismatch typeName amount
            then (fail "transaction_sign_mismatch" (Errorf "type %q is inconsistent with signed amount") report, seen)
            else
              let net := default 0 (TransactionNetCents <$> Report_Users report !! i) in
              if net_overflows net amount
              then (fail "transaction_total_overflow" (Errorf "transaction total exceeds int64 cents") report, seen)
              else
                let report := set_Users (alter (post_amount amount) i (Report_Users report)) report in
                if id <=? 0
                then (fail "invalid_transaction_id" (Errorf "legacy transaction ID must be positive") report, seen)
                else if IsZero (LT_OccurredAt transaction)
                then (fail "invalid_transaction_time" (Errorf "transaction timestamp is required") report, seen)
                else (add_Transaction (mkTR id (LT_UserID transaction) SourceCurrency amount typeName
                        (LT_Description transaction) (UTC (LT_OccurredAt transaction))) report, seen)
        end
  end.

Definition reconcile_wager (byID : gmap Z nat) (st : Report * gset Z) (wager : LegacyWager)
    : Report * gset Z :=
  let '(report, seen) := st in
  let id := LW_ID wager in
  match byID !! LW_UserID wager with
  | None => (orphan "orphan_wager" "UserBets" id (LW_UserID wager)
               (Errorf "wager references an unknown user") report, seen)
  | Some i =>
      let fail code message := report_issue report i code "UserBets" id message in
      if bool_decide (id ∈ seen)
      then (fail "duplicate_wager_id" (Errorf "legacy wager ID is duplicated"), seen)
      else
        let seen := {[id]} ∪ seen in
        match ParseCents (LW_Amount wager) with
        | Err parseErr => (fail "invalid_wager_stake" parseErr, seen)
        | Ok stake =>
            if stake <=? 0
            then (fail "invalid_wager_stake" (Errorf "wager stake must be positive whole cents"), seen)
            else
              match parseAmericanOdds (LW_Odds wager) with
              | Err parseErr => (fail "invalid_wager_odds" parseErr, seen)
              | Ok odds =>
                  match mapWagerResult unicode_lower (LW_Result wager) with
                  | Err parseErr => (fail "invalid_wager_result" parseErr, seen)
                  | Ok outcome =>
                      let terms := TrimSpace (LW_Description wager) in
                      if (id <=? 0) || bool_decide (terms = ""%string) || IsZero (LW_PlacedAt wager)
                      then (fail "invalid_wager_record"
                              (Errorf "wager ID, accepted terms, and placement timestamp are required"), seen)
                      else (add_Wager (mkWR id (LW_UserID wager) SourceCurrency stake terms odds
                              (UTC (LW_PlacedAt wager)) outcome (LW_Approved wager)) report, seen)
                  end
              end
        end
  end.

(** The totals loop visits every entry once. *)
Definition total_user (report : Report) (i : nat) : Report :=
  match Report_Users report !! i with
  | None => report
  | Some entry =>
      let difference := wrap64 (ClosingCashCents entry - TransactionNetCents entry) in
      let report := mkReport (Version report) (Report_SourceSystem report)
        (UserCount report) (TransactionCount report) (WagerCount report)
        (wrap64 (ClosingCashTotalCents report + ClosingCashCents entry))
        (wrap64 (ClosingFreePlayTotalCents report + ClosingFreePlayCents entry))
        (wrap64 (TransactionNetTotalCents report + TransactionNetCents entry))
        (DifferenceTotalCents report)
        (<[i := set_Difference difference entry]> (Report_Users report))
        (Report_Transactions report) (Report_Wagers report) (Issues report) in
      if negb (difference =? 0)
      then add_Issue (mkIssue SeverityWarning "closing_balance_difference" "Users" (UR_LegacyUserID entry)
             (UR_LegacyUserID entry)
             (Errorf "closing cash balance differs from transaction net by %d cents")) report
      else report
  end.

(** [sort.SliceStable] by an order: insertion from the right keeps the order
    of equal elements. *)
Fixpoint insert_sorted {A} (le : A -> A -> bool) (x : A) (l : list A) : list A :=
  match l with
  | [] => [x]
  | y :: rest => if le x y then x :: l else y :: insert_sorted le x rest
  end.
Definition stable_sort {A} (le : A -> A -> bool) (l : list A) : list A := foldr (insert_sorted le) [] l.

Definition issue_le (a b : Issue) : bool :=
  if negb (Issue_LegacyUserID a =? Issue_LegacyUserID b)
  then Issue_LegacyUserID a <=? Issue_LegacyUserID b
  else if negb (bool_decide (SourceTable a = SourceTable b))
  then bool_decide (String.le (SourceTable a) (SourceTable b))
  else SourceID a <=? SourceID b.
Definition by_id {A} (id : A -> Z) (a b : A) : bool := id a <=? id b.

Definition Reconcile (source : option Source) : result Report :=
  match source with
  | None => Err (Errorf "legacy book source is required")
  | Some source =>
      users ← wrap_err "load legacy users: %w" (Users source);
      transactions ← wrap_err "load legacy transactions: %w" (Transactions source);
      wagers ← wrap_err "load legacy wagers: %w" (Wagers source);
      let users := stable_sort (by_id LU_ID) users in
      let transactions := stable_sort (by_id LT_ID) transactions in
      let wagers := stable_sort (by_id LW_ID) wagers in
      let report := mkReport 1 SourceSystem (Z.of_nat (length users)) (Z.of_nat (length transactions))
                      (Z.of_nat (length wagers)) 0 0 0 0 [] [] [] [] in
      let '(report, byID) := foldl reconcile_user (report, ∅) users in
      let '(report, _) := foldl (reconcile_transaction byID) (report, ∅) transactions in
      let '(report, _) := foldl (reconcile_wager byID) (report, ∅) wagers in
      let report := foldl total_user report (seq 0 (length (Report_Users report))) in
      let report := mkReport (Version report) (Report_SourceSystem report)
        (UserCount report) (TransactionCount report) (WagerCount report)
        (ClosingCashTotalCents report) (ClosingFreePlayTotalCents report) (TransactionNetTotalCents report)
        (wrap64 (ClosingCashTotalCents report - TransactionNetTotalCents report))
        (Report_Users report) (Report_Transactions report) (Report_Wagers report) (Issues report) in
      Ok (set_Issues (stable_sort issue_le (Issues report)) report)
  end.
End reconcile.

(** ** Amounts *)
Lemma all_zero_val l : forallb is_digit l = true -> all_zero l = (digits_val l =? 0).
Proof.
  induction l as [|a l IH]; [done|]. cbn [forallb]. rewrite andb_true_iff. intros [Ha Hl].
  rewrite digits_val_cons. pose proof (digits_val_range l Hl) as Hr. cbn [all_zero forallb]. fold (all_zero l).
  rewrite (IH Hl). pose proof (is_digit_val a Ha) as Hd. unfold byte_is, digit_val in *.
  pose proof (Z.pow_pos_nonneg 10 (Z.of_nat (length l))).
  destruct (Z.eqb_spec (byte_val a) 48) as [E|E]; cbn.
  - f_equal. rewrite E. lia.
  - symmetry. apply Z.eqb_neq. nia.
Qed.

Lemma signed_no_dot l : forallb is_digit (signed_text l).2 = true -> no_dot l = true.
Proof.
  destruct l as [|a l]; [done|]. cbn.
  assert (Hs : forall z, z <> 46 -> byte_is z a = true -> byte_is 46 a = false).
  { unfold byte_is. intros z Hz H. bool_prop. apply Z.eqb_neq. lia. }
  destruct (byte_is 45 a) eqn:E1; cbn; [intros H; rewrite (Hs 45) by done; by apply digits_no_dot|].
  destruct (byte_is 43 a) eqn:E2; cbn; [intros H; rewrite (Hs 43) by done; by apply digits_no_dot|].
  apply (digits_no_dot (a :: l)).
Qed.

Lemma ParseInt_signed bits l :
  ParseInt bits (of_bytes l)
  = let '(neg, ds) := signed_text l in
    if bool_decide (ds = []) || negb (forallb is_digit ds) then None
    else if neg then (if digits_val ds <=? 2 ^ (bits - 1) then Some (- digits_val ds) else None)
         else (if digits_val ds <? 2 ^ (bits - 1) then Some (digits_val ds) else None).
Proof. unfold ParseInt. rewrite bytes_of_bytes. destruct l as [|a l]; [done|]. cbn. by destruct (byte_is 45 a), (byte_is 43 a). Qed.

(** The two fraction digits [ParseCents] reads, and what they are worth. *)
Definition cents_of_fraction (fraction : list ascii) : Z :=
  let fraction := if Z.of_nat (length fraction) <? 2
                  then fraction ++ repeat "0"%char (2 - length fraction) else fraction in
  let fraction := if 2 <? Z.of_nat (length fraction) then take 2 fraction else fraction in
  default 0 (ParseInt 64 (of_bytes fraction)).

Lemma two_digits a b : is_digit a = true -> is_digit b = true ->
  ParseInt 64 (of_bytes [a; b]) = Some (digit_val a * 10 + digit_val b).
Proof.
  intros Ha Hb. rewrite ParseInt_signed. cbn [signed_text].
  assert (Hs : forall z, z < 48 -> byte_is z a = false).
  { intros z Hz. unfold is_digit, between, byte_is in *. bool_prop. apply Z.eqb_neq. lia. }
  rewrite !Hs by lia. cbn [forallb]. rewrite Ha, Hb. cbn.
  apply is_digit_val in Ha, Hb. destruct (Z.ltb_spec (digit_val a * 10 + digit_val b) (2 ^ 63)) as [H|H].
  - rewrite (proj2 (Z.ltb_lt _ _)) by exact H. done.
  - change (2 ^ 63) with 9223372036854775808 in H. lia.
Qed.

Lemma cents_of_fraction_1 a : is_digit a = true -> cents_of_fraction [a] = digit_val a * 10.
Proof.
  intros Ha. unfold cents_of_fraction. change (2 <? Z.of_nat _) with false. cbv zeta iota.
  change (Z.of_nat (length [a]) <? 2) with true. cbn [length Nat.sub repeat app].
  change (2 <? Z.of_nat 2) with false. cbv iota. rewrite (two_digits a "0") by done. change (digit_val a * 10 + 0 = digit_val a * 10). lia.
Qed.
Lemma cents_of_fraction_2 a b f :
  is_digit a = true -> is_digit b = true -> cents_of_fraction (a :: b :: f) = digit_val a * 10 + digit_val b.
Proof.
  intros Ha Hb. unfold cents_of_fraction. cbv zeta.
  rewrite (proj2 (Z.ltb_ge (Z.of_nat (length (a :: b :: f))) 2)) by (cbn [length]; lia).
  assert (Ht : (if 2 <? Z.of_nat (length (a :: b :: f)) then take 2 (a :: b :: f) else a :: b :: f) = [a; b]).
  { destruct f; [done|]. by rewrite (proj2 (Z.ltb_lt _ _)) by (cbn [length]; lia). }
  by rewrite Ht, two_digits.
Qed.

(** [ParseCents] accepts a fraction exactly when it is a whole number of
    hundredths, and then reads that number. *)
Lemma fraction_exact f :
  forallb is_digit f = true ->
  let p := 10 ^ Z.of_nat (length f) in
  0 <= cents_of_fraction f < 100
  /\ ((2 <? Z.of_nat (length f)) && negb (all_zero (drop 2 f)) = false ->
      cents_of_fraction f * p = 100 * digits_val f)
  /\ (forall k, k * p = 100 * digits_val f ->
      (2 <? Z.of_nat (length f)) && negb (all_zero (drop 2 f)) = false /\ k = cents_of_fraction f).
Proof.
  intros Hf p. assert (Hp : 0 < p) by (apply Z.pow_pos_nonneg; lia).
  enough (H : 0 <= cents_of_fraction f < 100
    /\ exists z, 0 <= z < p /\ 100 * digits_val f = cents_of_fraction f * p + z
       /\ ((2 <? Z.of_nat (length f)) && negb (all_zero (drop 2 f)) = negb (z =? 0))).
  { destruct H as (Hc & z & Hz & He & Hb). rewrite Hb, negb_false_iff, Z.eqb_eq. split; [done|]. split; [intros ->; lia|].
    intros k Hk. assert (k = cents_of_fraction f /\ z = 0) as [-> ->]; [|done].
    assert (Hm : (k - cents_of_fraction f) * p = z) by lia. clear -Hm Hz Hp.
    destruct (Z.lt_trichotomy k (cents_of_fraction f)) as [|[->|]]; [nia|lia|nia]. }
  destruct f as [|a [|b f]].
  - change (cents_of_fraction []) with 0. split; [lia|]. exists 0. subst p. split_and!; done.
  - cbn in Hf. rewrite andb_true_r in Hf. rewrite cents_of_fraction_1 by done.
    pose proof (is_digit_val a Hf). split; [lia|]. exists 0. subst p. rewrite digits_val_cons. unfold digits_val. cbn.
    split_and!; lia || done.
  - cbn in Hf. apply andb_true_iff in Hf as [Ha Hf]. apply andb_true_iff in Hf as [Hb Hf].
    rewrite cents_of_fraction_2 by done. cbn [drop].
    pose proof (is_digit_val a Ha). pose proof (is_digit_val b Hb). split; [lia|].
    pose proof (digits_val_range f Hf) as Hr. exists (100 * digits_val f).
    assert (Hpe : p = 100 * 10 ^ Z.of_nat (length f)).
    { subst p. cbn [length]. rewrite !Nat2Z.inj_succ, !Z.pow_succ_r by lia. lia. }
    split; [lia|]. split.
    + rewrite !digits_val_cons. cbn [length]. rewrite Hpe, Nat2Z.inj_succ, Z.pow_succ_r by lia. ring.
    + change (drop 0 f) with f. rewrite (all_zero_val f Hf). destruct f as [|c f]; [done|].
      rewrite (proj2 (Z.ltb_lt 2 _)) by (cbn [length]; lia). cbn [andb].
      f_equal. destruct (Z.eqb_spec (digits_val (c :: f)) 0), (Z.eqb_spec (100 * digits_val (c :: f)) 0); lia.
Qed.

(** A text that denotes exactly [c] cents: a sign, a whole part (which may
    carry a sign of its own, "-" only before zero) and a fraction of any
    length whose value is a whole number of cents. *)
Definition denotes_cents (text : list ascii) (c : Z) : Prop :=
  exists raw w0 w f negative inner,
    signed_text text = (negative, raw)
    /\ (raw = w0 /\ f = [] \/ raw = w0 ++ dot :: f)
    /\ signed_text w0 = (inner, w)
    /\ w <> [] /\ forallb is_digit w = true /\ forallb is_digit f = true
    /\ (inner = true -> digits_val w = 0)
    /\ let p := 10 ^ Z.of_nat (length f) in
       c * p = (if negative : bool then -100 else 100) * (digits_val w * p + digits_val f)
    /\ - MaxInt64 <= c <= MaxInt64.

(** The whole part and the final bound, once the fraction is read. *)
Lemma whole_spec w0 inner w frac :
  signed_text w0 = (inner, w) -> 0 <= frac < 100 ->
  forall whole, ParseInt 64 (of_bytes w0) = Some whole /\ (whole <? 0) = false
    /\ (quot64 (MaxInt64 - frac) 100 <? whole) = false
  <-> w <> [] /\ forallb is_digit w = true /\ (inner = true -> digits_val w = 0)
      /\ whole = digits_val w /\ 100 * whole + frac <= MaxInt64.
Proof.
  intros Hs Hfr whole. rewrite ParseInt_signed, Hs.
  assert (Hq : quot64 (MaxInt64 - frac) 100 = (MaxInt64 - frac) / 100).
  { unfold quot64. rewrite Z.quot_div_nonneg by (unfold MaxInt64; lia). apply wrap64_id.
    unfold int64, MinInt64, MaxInt64. Z.to_euclidean_division_equations; lia. }
  rewrite Hq. assert (Hd : forall v, ((MaxInt64 - frac) / 100 <? v) = false <-> 100 * v + frac <= MaxInt64).
  { intros v. rewrite Z.ltb_ge. Z.to_euclidean_division_equations; lia. }
  rewrite Hd. clear Hq Hd.
  change (2 ^ (64 - 1)) with (MaxInt64 + 1).
  destruct (bool_decide_reflect (w = [])) as [->|Hw]; cbn [orb]; [naive_solver|].
  destruct (forallb is_digit w) eqn:Hdig; cbn [negb]; [|naive_solver].
  pose proof (digits_val_range w Hdig) as Hr. generalize dependent (digits_val w). intros v Hr.
  split.
  - intros (Hv & Hneg & Hb). apply Z.ltb_ge in Hneg.
    destruct inner.
    + destruct (v <=? _); [|done]. injection Hv as <-. split_and!; try done; try (intros _); lia.
    + destruct (v <? _); [|done]. injection Hv as <-. done.
  - intros (_ & _ & Hi & -> & Hb). split_and!; [|apply Z.ltb_ge; lia|done]. destruct inner.
    + rewrite Hi by done. done.
    + rewrite (proj2 (Z.ltb_lt _ _)) by lia. done.
Qed.

(** The text after its sign. *)
Definition parse_unsigned (sign : Z) (raw : list ascii) : result Z :=
  let parts := split_on 46 raw in
  let part0 := default [] (head parts) in
  fail_if ((2 <? Z.of_nat (length parts)) || bool_decide (part0 = [])) not_decimal;;
  match ParseInt 64 (of_bytes part0) with
  | None => Err not_decimal
  | Some whole =>
      fail_if (whole <? 0) not_decimal;;
      let fraction := default [] (parts !! 1%nat) in
      fail_if (negb (forallb is_digit fraction)) not_decimal;;
      fail_if ((2 <? Z.of_nat (length fraction)) && negb (all_zero (drop 2 fraction)))
        (Errorf "amount %q contains fractional cents");;
      fail_if (quot64 (MaxInt64 - cents_of_fraction fraction) 100 <? whole) (Errorf "amount %q exceeds int64 cents");;
      Ok (wrap64 (sign * wrap64 (wrap64 (whole * 100) + cents_of_fraction fraction)))
  end.

Lemma ParseCents_unsigned value :
  ParseCents value
  = (fail_if (bool_decide (TrimSpace value = ""%string)) (Errorf "amount is empty");;
     let '(negative, raw) := signed_text (bytes (TrimSpace value)) in
     parse_unsigned (if negative : bool then -1 else 1) raw).
Proof. reflexivity. Qed.

(** The arithmetic of the last line never wraps. *)
Lemma cents_no_wrap sign whole frac :
  sign = 1 \/ sign = -1 -> 0 <= whole -> 0 <= frac < 100 -> 100 * whole + frac <= MaxInt64 ->
  wrap64 (sign * wrap64 (wrap64 (whole * 100) + frac)) = sign * (100 * whole + frac).
Proof.
  intros Hs Hw Hf Hb. rewrite (wrap64_id (whole * 100)) by (unfold int64, MinInt64, MaxInt64 in *; lia).
  rewrite (wrap64_id (whole * 100 + frac)) by (unfold int64, MinInt64, MaxInt64 in *; lia).
  rewrite wrap64_id by (unfold int64, MinInt64, MaxInt64 in *; lia). lia.
Qed.

Lemma split_parts w0 f raw :
  no_dot w0 = true -> no_dot f = true -> raw = w0 /\ f = [] \/ raw = w0 ++ dot :: f ->
  (2 <? Z.of_nat (length (split_on 46 raw))) = false
  /\ head (split_on 46 raw) = Some w0 /\ default [] (split_on 46 raw !! 1%nat) = f.
Proof.
  intros Hw Hf [[-> ->]| ->].
  - by rewrite split_on_none.
  - by rewrite split_on_dot, split_on_none.
Qed.

Lemma split_parts_inv raw :
  (2 <? Z.of_nat (length (split_on 46 raw))) = false ->
  exists w0, head (split_on 46 raw) = Some w0
    /\ let f := default [] (split_on 46 raw !! 1%nat) in raw = w0 /\ f = [] \/ raw = w0 ++ dot :: f.
Proof.
  intros Hl. destruct (split_on 46 raw) as [|p ps] eqn:Hs.
  { destruct raw as [|a raw]; [done|]. cbn in Hs. destruct (byte_is 46 a); [done|]. by destruct (split_on 46 raw). }
  exists p. split; [done|]. destruct (split_on_inv _ _ _ Hs) as (_ & [[-> ->]|(q & -> & ->)]); [by left|].
  right. cbn. f_equal. f_equal. destruct (split_on 46 q) as [|p2 ps2] eqn:Hq.
  { destruct q as [|a q]; [done|]. cbn in Hq. destruct (byte_is 46 a); [done|]. by destruct (split_on 46 q). }
  destruct (split_on_inv _ _ _ Hq) as (_ & [[-> ->]|(q2 & -> & ->)]); [done|].
  exfalso. apply Z.ltb_ge in Hl. cbn [length] in Hl. destruct (split_on 46 q2) eqn:Hq2; [|cbn [length] in Hl; lia].
  destruct q2 as [|a q2]; [done|]. cbn in Hq2. destruct (byte_is 46 a); [done|]. by destruct (split_on 46 q2).
Qed.

Lemma parse_unsigned_iff sign raw c :
  sign = 1 \/ sign = -1 ->
  parse_unsigned sign raw = Ok c
  <-> exists w0 w f inner,
        (raw = w0 /\ f = [] \/ raw = w0 ++ dot :: f)
        /\ signed_text w0 = (inner, w)
        /\ w <> [] /\ forallb is_digit w = true /\ forallb is_digit f = true
        /\ (inner = true -> digits_val w = 0)
        /\ let p := 10 ^ Z.of_nat (length f) in
           c * p = sign * (100 * (digits_val w * p + digits_val f))
        /\ - MaxInt64 <= c <= MaxInt64.
Proof.
  intros Hsign. unfold parse_unsigned. cbv zeta. split.
  - intros H. apply bind_Ok in H as (u & H1 & H). apply fail_if_Ok, orb_false_iff in H1 as [H1 H2].
    cbv beta in H. destruct (split_parts_inv _ H1) as (w0 & Hh & Hraw). rewrite Hh in *. cbn [default] in *. change (id w0) with w0 in H, H2.
    revert H Hraw. generalize (default [] (split_on 46 raw !! 1%nat)). intros f H Hraw.
    destruct (ParseInt 64 (of_bytes w0)) as [whole|] eqn:Hp; [|done]. go_inv. bool_prop.
    destruct (signed_text w0) as [inner w] eqn:Hs.
    destruct (fraction_exact f Hok0) as (Hfr & Hex & _). specialize (Hex Hok1).
    destruct (proj1 (whole_spec w0 inner w _ Hs Hfr whole)) as (W1 & W2 & W3 & -> & W5).
    { rewrite Z.ltb_ge, Z.ltb_ge. auto. }
    exists w0, w, f, inner. pose proof (digits_val_range w W2).
    rewrite cents_no_wrap by (done || lia). split_and!; try done; destruct Hsign; subst; lia.
  - intros (w0 & w & f & inner & Hraw & Hs & W1 & W2 & Hf & W3 & Hc & Hb).
    destruct (split_parts w0 f raw) as (L1 & L2 & L3); [apply signed_no_dot; by rewrite Hs|by apply digits_no_dot|done|].
    rewrite L1, L2, L3. cbn [default]. change (id w0) with w0. assert (w0 <> []) by (intros ->; cbn in Hs; congruence).
    rewrite bool_decide_false by done. cbn [orb fail_if].
    destruct (fraction_exact f Hf) as (Hfr & _ & Hex). pose proof (digits_val_range w W2).
    destruct (Hex (sign * c - 100 * digits_val w)) as [Hz Hk]; [destruct Hsign; subst; lia|].
    destruct (proj2 (whole_spec w0 inner w _ Hs Hfr (digits_val w))) as (P1 & P2 & P3).
    { split_and!; try done. destruct Hsign; subst; lia. }
    rewrite P1. rewrite P2, Hf, Hz, P3. cbn. rewrite cents_no_wrap by (done || destruct Hsign; subst; lia).
    f_equal. destruct Hsign; subst; lia.
Qed.

(** Amounts are read exactly or not at all.  [ParseCents] returns [c] if
    and only if the trimmed text is a decimal, of any number of fraction
    digits, that denotes exactly [c] cents and [c] is within plus or minus the
    largest int64: nothing is ever rounded, truncated or wrapped. *)
Theorem ParseCents_iff_exact value c :
  ParseCents value = Ok c <-> denotes_cents (bytes (TrimSpace value)) c.
Proof.
  rewrite ParseCents_unsigned. unfold denotes_cents.
  destruct (signed_text (bytes (TrimSpace value))) as [negative raw] eqn:Hs.
  destruct (bool_decide_reflect (TrimSpace value = ""%string)) as [He|He]; cbn [fail_if].
  - rewrite He in Hs. cbn in Hs. injection Hs as <- <-. split; [done|].
    intros (raw & w0 & w & f & negative & inner & [= <- <-] & [[<- _]|Hr] & Hw & Hn & _).
    + cbn in Hw. congruence.
    + by destruct w0.
  - change (Ok () ≫= ?k) with (k ()). cbn beta iota. rewrite parse_unsigned_iff by (destruct negative; auto).
    split.
    + intros (w0 & w & f & inner & H). exists raw, w0, w, f, negative, inner. cbv zeta in *.
      destruct H as (? & ? & ? & ? & ? & ? & Hc & ?). split_and!; try done; destruct negative; lia.
    + intros (raw' & w0 & w & f & negative' & inner & [= <- <-] & H). exists w0, w, f, inner. cbv zeta in *.
      destruct H as (? & ? & ? & ? & ? & ? & Hc & ?). split_and!; try done; destruct negative; lia.
Qed.

(** The whole part may carry a second sign: a double minus before zero loses
    its sign. *)
Remark ParseCents_double_sign :
  ParseCents "--0.50" = Ok (-50) /\ ParseCents "-+5" = Ok (-500) /\ ParseCents "+-0.5" = Ok 50.
Proof. vm_compute. done. Qed.

#[local] Arguments reconcile_user : simpl never.
#[local] Arguments reconcile_transaction : simpl never.
#[local] Arguments reconcile_wager : simpl never.

(** ** The reconciliation invariant

    Until the totals loop every issue is blocking, so the report is promotable
    exactly when the first three loops recorded no issue; every lemma below
    is about such clean runs. *)
Lemma insert_sorted_perm {A} (le : A -> A -> bool) x l : insert_sorted le x l ≡ₚ x :: l.
Proof.
  induction l as [|y l IH]; [done|]. cbn. destruct (le x y); [done|].
  rewrite IH. apply Permutation_swap.
Qed.
Lemma stable_sort_perm {A} (le : A -> A -> bool) l : stable_sort le l ≡ₚ l.
Proof. induction l as [|x l IH]; [done|]. cbn. by rewrite insert_sorted_perm, IH. Qed.

Definition user_amounts (id : Z) (ts : list TransactionRecord) : list TransactionRecord :=
  List.filter (fun t => TR_LegacyUserID t =? id) ts.

(** Positions are found by ID. *)
Definition indexed (byID : gmap Z nat) (us : list UserReconciliation) : Prop :=
  forall id i, byID !! id = Some i -> exists u, us !! i = Some u /\ UR_LegacyUserID u = id.

(** An entry's net is what its recorded transactions add up to. *)
Definition reconciled (ts : list TransactionRecord) (u : UserReconciliation) : Prop :=
  UR_Promotable u = true
  /\ TransactionNetCents u = sumZ AmountCents (user_amounts (UR_LegacyUserID u) ts)
  /\ UR_TransactionCount u = Z.of_nat (length (user_amounts (UR_LegacyUserID u) ts))
  /\ int64 (TransactionNetCents u).

Lemma add_Issue_not_clean i r : Issues (add_Issue i r) <> [].
Proof. cbn. by destruct (Issues r). Qed.
Lemma report_issue_not_clean r i u code table id msg :
  Report_Users r !! i = Some u -> Issues (report_issue r i code table id msg) <> [].
Proof. unfold report_issue. intros ->. cbn. by destruct (Issues r). Qed.
Lemma report_issue_users r i code table id msg :
  UR_LegacyUserID <$> Report_Users (report_issue r i code table id msg) = UR_LegacyUserID <$> Report_Users r.
Proof.
  unfold report_issue. destruct (Report_Users r !! i) as [u|] eqn:Hu; [|done]. cbn.
  rewrite list_fmap_insert. cbn. apply list_insert_id. by rewrite list_lookup_fmap, Hu.
Qed.

(** *** The loop over users *)
Lemma issue_if_clean cond code id msg re :
  Issues (issue_if cond code id msg re).1 = [] -> cond = false /\ issue_if cond code id msg re = re.
Proof. unfold issue_if. destruct cond; [|done]. intros H. by destruct (add_Issue_not_clean _ _ H). Qed.
Lemma assign_clean {A} (zero : A) parsed set code id re :
  Issues (assign zero parsed set code id re).1 = [] ->
  exists a, parsed = Ok a /\ assign zero parsed set code id re = (re.1, set a re.2).
Proof. unfold assign. destruct parsed as [a|e]; [eauto|]. intros H. by destruct (add_Issue_not_clean _ _ H). Qed.

Section reconcile_lemmas.
Variable unicode_lower : string -> string.

(** The entry of a user whose row is in order. *)
Definition entry_of (user : LegacyUser) (u : UserReconciliation) : Prop :=
  UR_LegacyUserID u = LU_ID user /\ 0 < LU_ID user /\ UR_DisplayName u = TrimSpace (LU_DisplayName user)
  /\ UR_DisplayName u <> ""%string
  /\ MapRole unicode_lower (lower_trim unicode_lower (LU_Role user)) = Ok (TargetRole u)
  /\ ParseCents (LU_Balance user) = Ok (ClosingCashCents u)
  /\ ParseCents (LU_FreePlayBalance user) = Ok (ClosingFreePlayCents u)
  /\ TransactionNetCents u = 0 /\ UR_TransactionCount u = 0 /\ UR_Promotable u = true.

Lemma reconcile_user_clean report byID user report' byID' :
  reconcile_user unicode_lower (report, byID) user = (report', byID') -> Issues report' = [] ->
  exists u, report' = set_Users (Report_Users report ++ [u]) report /\ Issues report = []
    /\ byID' = <[LU_ID user := length (Report_Users report)]> byID /\ byID !! LU_ID user = None
    /\ entry_of user u.
Proof.
  unfold reconcile_user. cbv zeta.
  set (re1 := issue_if _ _ _ _ (report, _)). set (re2 := issue_if _ _ _ _ re1).
  set (re3 := assign _ _ _ _ _ re2). set (re4 := assign _ _ _ _ _ re3). set (re5 := assign _ _ _ _ _ re4).
  set (re6 := issue_if _ _ _ _ re5). intros [= <- <-] Hc. change (Issues re6.1 = []) in Hc.
  destruct (issue_if_clean _ _ _ _ _ Hc) as [D6 E6]. fold re6 in E6. rewrite E6 in Hc |- *.
  destruct (assign_clean _ _ _ _ _ _ Hc) as (fp & D5 & E5). fold re5 in E5. rewrite E5 in Hc |- *. cbn [fst snd] in Hc.
  destruct (assign_clean _ _ _ _ _ _ Hc) as (cash & D4 & E4). fold re4 in E4. rewrite E4 in Hc |- *. cbn [fst snd] in Hc.
  destruct (assign_clean _ _ _ _ _ _ Hc) as (role & D3 & E3). fold re3 in E3. rewrite E3 in Hc |- *. cbn [fst snd] in Hc.
  destruct (issue_if_clean _ _ _ _ _ Hc) as [D2 E2]. fold re2 in E2. rewrite E2 in Hc |- *.
  destruct (issue_if_clean _ _ _ _ _ Hc) as [D1 E1]. fold re1 in E1. rewrite E1 in Hc |- *. cbn [fst snd] in *.
  bool_prop. eexists. split; [reflexivity|]. split_and!; [done|done|by apply eq_None_not_Some|].
  unfold entry_of. cbn. split_and!; (done || lia).
Qed.

(** What the users loop leaves when it records no issue. *)
Record users_inv (users : list LegacyUser) (report : Report) (byID : gmap Z nat) : Prop := mkUsersInv {
  ui_entries : Forall2 entry_of users (Report_Users report);
  ui_indexed : indexed byID (Report_Users report);
  ui_all : forall u, u ∈ Report_Users report -> is_Some (byID !! UR_LegacyUserID u);
  ui_distinct : NoDup (UR_LegacyUserID <$> Report_Users report);
  ui_records : Report_Transactions report = [] /\ Report_Wagers report = []
}.

Lemma users_loop_clean users report byID done_ report' byID' :
  foldl (reconcile_user unicode_lower) (report, byID) users = (report', byID') -> Issues report' = [] ->
  (Issues report = [] -> users_inv done_ report byID) ->
  users_inv (done_ ++ users) report' byID' /\ Issues report = []
  /\ TransactionCount report' = TransactionCount report /\ WagerCount report' = WagerCount report
  /\ UserCount report' = UserCount report.
Proof.
  revert report byID done_. induction users as [|user users IH]; intros report byID done_; cbn.
  { intros [= <- <-] Hc Hinv. rewrite app_nil_r. auto. }
  destruct (reconcile_user unicode_lower (report, byID) user) as [report1 byID1] eqn:Hs. intros Hf Hc Hinv.
  assert (Hstep : Issues report1 = [] -> users_inv (done_ ++ [user]) report1 byID1).
  { intros Hc1. destruct (reconcile_user_clean _ _ _ _ _ Hs Hc1) as (u & -> & Hc0 & -> & Hnew & He).
    destruct (Hinv Hc0) as [I1 I2 I3 I4 I5]. split; cbn.
    - by apply Forall2_app; [|constructor].
    - intros id i. rewrite lookup_insert_Some. intros [(<- & <-)|(Hne & Hi)].
      + exists u. rewrite lookup_app_r, Nat.sub_diag by done. split; [done|apply He].
      + destruct (I2 _ _ Hi) as (x & Hx & Hid). exists x. split; [by apply lookup_app_l_Some|done].
    - intros x [Hx|Hx%list_elem_of_singleton]%elem_of_app.
      + rewrite lookup_insert_is_Some'. right. by apply I3.
      + subst x. destruct He as (-> & _). rewrite lookup_insert_eq. eauto.
    - rewrite fmap_app. apply NoDup_app. split_and!; [done| |apply NoDup_singleton].
      intros id Hid Hin. apply list_elem_of_singleton in Hin. subst id.
      apply list_elem_of_fmap in Hid as (x & Hx & Hin). destruct He as (He & _).
      destruct (I3 x Hin) as [k Hk]. rewrite <- Hx, He, Hnew in Hk. done.
    - done. }
  destruct (IH _ _ _ Hf Hc Hstep) as (J1 & J2 & J3 & J4 & J5). rewrite <- app_assoc in J1. cbn in J1.
  destruct (reconcile_user_clean _ _ _ _ _ Hs J2) as (u & -> & Hc0 & _). cbn in *. auto.
Qed.

(** *** The loop over transactions *)
Definition record_of (t : LegacyTransaction) (r : TransactionRecord) : Prop :=
  SourceTransactionID r = LT_ID t /\ TR_LegacyUserID r = LT_UserID t /\ 0 < LT_ID t
  /\ ParseCents (LT_Amount t) = Ok (AmountCents r)
  /\ ((TR_Type r = "credit"%string /\ 0 < AmountCents r) \/ (TR_Type r = "debit"%string /\ AmountCents r < 0))
  /\ TR_Type r = lower_trim unicode_lower (LT_Type t)
  /\ TR_OccurredAt r = UTC (LT_OccurredAt t) /\ IsZero (LT_OccurredAt t) = false.

Lemma sign_mismatch_false typeName amount :
  sign_mismatch typeName amount = false ->
  (typeName = "credit"%string /\ 0 < amount) \/ (typeName = "debit"%string /\ amount < 0).
Proof.
  unfold sign_mismatch. destruct (bool_decide_reflect (typeName = "credit"%string)) as [->|H1].
  - cbn. rewrite orb_false_r. destruct (bool_decide _); cbn; rewrite ?orb_false_iff; intros H; bool_prop; left; split; (done || lia).
  - destruct (bool_decide_reflect (typeName = "debit"%string)) as [->|H2]; cbn; [|done].
    rewrite orb_false_r. intros H. bool_prop. right. split; [done|lia].
Qed.

Lemma reconcile_transaction_clean byID report seen t report' seen' :
  indexed byID (Report_Users report) ->
  reconcile_transaction unicode_lower byID (report, seen) t = (report', seen') -> Issues report' = [] ->
  exists i u r,
    byID !! LT_UserID t = Some i /\ Report_Users report !! i = Some u /\ UR_LegacyUserID u = LT_UserID t
    /\ Issues report = [] /\ (LT_ID t ∉ seen) /\ seen' = ({[LT_ID t]} ∪ seen) /\ record_of t r
    /\ net_overflows (TransactionNetCents u) (AmountCents r) = false
    /\ report' = add_Transaction r (set_Users (alter (post_amount (AmountCents r)) i (Report_Users report)) report).
Proof.
  intros Hidx. unfold reconcile_transaction.
  destruct (byID !! LT_UserID t) as [i|] eqn:Hi.
  2:{ intros [= <- _] Hc. by destruct (add_Issue_not_clean _ _ Hc). }
  destruct (Hidx _ _ Hi) as (u & Hu & Hid).
  assert (Hbad : forall r code id msg u', Report_Users r !! i = Some u' -> Issues (report_issue r i code "Transactions" id msg) <> [])
    by (intros *; apply report_issue_not_clean).
  destruct (bool_decide_reflect (LT_ID t ∈ seen)) as [Hs|Hs].
  { intros [= <- _] Hc. by destruct (Hbad _ _ _ _ _ Hu Hc). }
  cbv zeta. destruct (ParseCents (LT_Amount t)) as [amount|e] eqn:Hp.
  2:{ intros [= <- _] Hc. by destruct (Hbad _ _ _ _ _ Hu Hc). }
  destruct (sign_mismatch _ amount) eqn:Hsign.
  { intros [= <- _] Hc. by destruct (Hbad _ _ _ _ _ Hu Hc). }
  rewrite Hu. cbn [fmap option_fmap option_map default]. unfold id.
  destruct (net_overflows _ amount) eqn:Hov.
  { intros [= <- _] Hc. by destruct (Hbad _ _ _ _ _ Hu Hc). }
  assert (Hu' : alter (post_amount amount) i (Report_Users report) !! i = Some (post_amount amount u))
    by by rewrite list_lookup_alter_eq, Hu.
  destruct (Z.leb_spec (LT_ID t) 0).
  { intros [= <- _] Hc. exfalso. revert Hc. apply Hbad with (post_amount amount u). exact Hu'. }
  destruct (IsZero (LT_OccurredAt t)) eqn:Hz.
  { intros [= <- _] Hc. exfalso. revert Hc. apply Hbad with (post_amount amount u). exact Hu'. }
  intros [= <- <-] Hc. exists i, u, (mkTR (LT_ID t) (LT_UserID t) SourceCurrency amount
    (lower_trim unicode_lower (LT_Type t)) (LT_Description t) (UTC (LT_OccurredAt t))).
  repeat (split; [first [assumption|reflexivity|idtac]|]); [|assumption|reflexivity].
  apply sign_mismatch_false in Hsign. by repeat split.
Qed.

(** What the first loop fixed about an entry stays. *)
Definition kept (u u' : UserReconciliation) : Prop :=
  UR_LegacyUserID u' = UR_LegacyUserID u /\ UR_DisplayName u' = UR_DisplayName u
  /\ TargetRole u' = TargetRole u /\ ClosingCashCents u' = ClosingCashCents u
  /\ ClosingFreePlayCents u' = ClosingFreePlayCents u.

Lemma Forall2_refl_kept us : Forall2 kept us us.
Proof. induction us; by constructor. Qed.

Lemma kept_ids us us' : Forall2 kept us us' -> UR_LegacyUserID <$> us' = UR_LegacyUserID <$> us.
Proof. induction 1 as [|u u' us us' (H & _) _ IH]; [done|]. by rewrite !fmap_cons, H, IH. Qed.

Record transactions_inv (us0 : list UserReconciliation) (done_ : list LegacyTransaction)
    (report : Report) (seen : gset Z) : Prop := mkTransactionsInv {
  ti_distinct : NoDup (UR_LegacyUserID <$> us0);
  ti_kept : Forall2 kept us0 (Report_Users report);
  ti_reconciled : Forall (reconciled (Report_Transactions report)) (Report_Users report);
  ti_records : Forall2 record_of done_ (Report_Transactions report);
  ti_owned : Forall (fun r => TR_LegacyUserID r ∈ UR_LegacyUserID <$> us0) (Report_Transactions report);
  ti_seen : seen = list_to_set (LT_ID <$> done_) /\ NoDup (LT_ID <$> done_);
  ti_wagers : Report_Wagers report = []
}.

(** Posting one record to its owner's entry reconciles every entry again. *)
Lemma post_reconciled us ts i u r :
  NoDup (UR_LegacyUserID <$> us) -> us !! i = Some u -> UR_LegacyUserID u = TR_LegacyUserID r ->
  net_overflows (TransactionNetCents u) (AmountCents r) = false ->
  int64 (AmountCents r) ->
  Forall (reconciled ts) us -> Forall (reconciled (ts ++ [r])) (alter (post_amount (AmountCents r)) i us).
Proof.
  intros Hnd Hu Hid Hov Ha Hall. apply Forall_lookup. intros j x Hx.
  rewrite Forall_lookup in Hall. unfold reconciled, user_amounts. rewrite List.filter_app. cbn [List.filter].
  destruct (decide (i = j)) as [->|Hne].
  - rewrite list_lookup_alter_eq, Hu in Hx. injection Hx as <-. cbn.
    destruct (Hall _ _ Hu) as (P & N & C & I). unfold user_amounts in *.
    rewrite Hid, Z.eqb_refl, length_app, sumZ_app, sumZ_cons, sumZ_nil. rewrite <- Hid, <- N. cbn [length].
    assert (Hs : int64 (TransactionNetCents u + AmountCents r)).
    { unfold net_overflows in Hov. unfold int64, MinInt64 in *. apply orb_false_iff in Hov as [O1 O2].
      rewrite andb_false_iff in O1, O2. rewrite !Z.ltb_ge in O1, O2. unfold MaxInt64 in *. lia. }
    rewrite wrap64_id by done. split_and!; [done|lia|lia|done].
  - rewrite list_lookup_alter_ne in Hx by done. destruct (Hall _ _ Hx) as (P & N & C & I).
    assert (UR_LegacyUserID x <> TR_LegacyUserID r).
    { intros He. apply Hne. apply (NoDup_lookup _ _ _ (TR_LegacyUserID r) Hnd); rewrite list_lookup_fmap.
      - by rewrite Hu, <- Hid.
      - by rewrite Hx, <- He. }
    rewrite (proj2 (Z.eqb_neq _ _)) by congruence. rewrite app_nil_r. done.
Qed.

Lemma alter_kept us0 us i amount :
  Forall2 kept us0 us -> Forall2 kept us0 (alter (post_amount amount) i us).
Proof.
  intros H. revert i. induction H as [|u u' us0 us Hk H IH]; intros i; [constructor|].
  destruct i as [|i]; cbn; constructor; try done.
Qed.

Lemma ParseCents_int64 v c : ParseCents v = Ok c -> int64 c.
Proof.
  intros H. rewrite ParseCents_unsigned in H. go_inv.
  destruct (signed_text _) as [negative raw]. apply parse_unsigned_iff in H; [|destruct negative; auto].
  destruct H as (w0 & w & f & inner & _ & _ & _ & _ & _ & _ & _ & Hb). unfold int64, MinInt64, MaxInt64 in *. lia.
Qed.

Lemma indexed_ids byID us us' :
  UR_LegacyUserID <$> us' = UR_LegacyUserID <$> us -> indexed byID us -> indexed byID us'.
Proof.
  intros He Hi id i Hb. destruct (Hi _ _ Hb) as (u & Hu & Hid).
  assert (Hl : (UR_LegacyUserID <$> us') !! i = Some id) by by rewrite He, list_lookup_fmap, Hu, <- Hid.
  rewrite list_lookup_fmap in Hl. destruct (us' !! i) as [u'|]; [|done]. exists u'. split; [done|]. cbn in Hl. congruence.
Qed.

Lemma alter_ids amount (i : nat) (us : list UserReconciliation) :
  UR_LegacyUserID <$> alter (post_amount amount) i us = UR_LegacyUserID <$> us.
Proof. revert i. induction us as [|u us IH]; intros [|i]; cbn; [done..|]. f_equal. apply IH. Qed.

Lemma reconcile_transaction_ids byID st t :
  UR_LegacyUserID <$> Report_Users (reconcile_transaction unicode_lower byID st t).1
  = UR_LegacyUserID <$> Report_Users st.1.
Proof.
  destruct st as [report seen]. unfold reconcile_transaction. cbv zeta.
  repeat case_match; cbn [fst]; rewrite ?report_issue_users; cbn; rewrite ?alter_ids; done.
Qed.

Lemma transactions_inv_step us0 byID done_ report seen t report' seen' :
  indexed byID (Report_Users report) ->
  reconcile_transaction unicode_lower byID (report, seen) t = (report', seen') -> Issues report' = [] ->
  transactions_inv us0 done_ report seen -> transactions_inv us0 (done_ ++ [t]) report' seen'.
Proof.
  intros Hidx Hs Hc [Hnd K R F O [Se Sn] W].
  destruct (reconcile_transaction_clean _ _ _ _ _ _ Hidx Hs Hc) as (i & u & r & Hi & Hu & Hid & _ & Hnew & -> & Hr & Hov & ->).
  assert (Hown : UR_LegacyUserID u = TR_LegacyUserID r) by (destruct Hr as (_ & -> & _); done).
  split; cbn.
  - done.
  - by apply alter_kept.
  - apply (post_reconciled _ _ i u); try done; [by rewrite (kept_ids us0)|].
    destruct Hr as (_ & _ & _ & Hp & _). by apply ParseCents_int64 in Hp.
  - by apply Forall2_app; [|constructor].
  - apply Forall_app. split; [done|]. constructor; [|constructor].
    rewrite <- (kept_ids us0 (Report_Users report)) by done. apply list_elem_of_fmap. exists u.
    split; [done|]. by apply list_elem_of_lookup_2 with i.
  - subst seen. rewrite fmap_app, list_to_set_app_L. cbn. split; [set_solver|].
    apply NoDup_app. split_and!; [done| |apply NoDup_singleton].
    intros x Hx ->%list_elem_of_singleton. apply Hnew. by apply elem_of_list_to_set.
  - done.
Qed.

Lemma transactions_loop_clean us0 byID ts done_ report seen report' seen' :
  indexed byID (Report_Users report) ->
  foldl (reconcile_transaction unicode_lower byID) (report, seen) ts = (report', seen') ->
  Issues report' = [] ->
  (Issues report = [] -> transactions_inv us0 done_ report seen) ->
  transactions_inv us0 (done_ ++ ts) report' seen' /\ Issues report = [].
Proof.
  revert report seen done_. induction ts as [|t ts IH]; intros report seen done_ Hidx; cbn.
  { intros [= <- <-] Hc Hinv. rewrite app_nil_r. auto. }
  destruct (reconcile_transaction unicode_lower byID (report, seen) t) as [report1 seen1] eqn:Hs.
  intros Hf Hc Hinv. assert (Hidx1 : indexed byID (Report_Users report1)).
  { eapply indexed_ids; [|exact Hidx]. pose proof (reconcile_transaction_ids byID (report, seen) t) as H. by rewrite Hs in H. }
  destruct (IH report1 seen1 (done_ ++ [t]) Hidx1 Hf Hc) as (J1 & J2).
  { intros Hc1. destruct (reconcile_transaction_clean _ _ _ _ _ _ Hidx Hs Hc1) as (i & u & r & _ & _ & _ & Hc0 & _).
    eapply transactions_inv_step; [exact Hidx|exact Hs|exact Hc1|by apply Hinv]. }
  rewrite <- app_assoc in J1. split; [done|].
  by destruct (reconcile_transaction_clean _ _ _ _ _ _ Hidx Hs J2) as (i & u & r & _ & _ & _ & Hc0 & _).
Qed.

(** *** The loop over wagers *)
Definition wager_record_of (w : LegacyWager) (r : WagerRecord) : Prop :=
  SourceWagerID r = LW_ID w /\ WR_LegacyUserID r = LW_UserID w /\ 0 < LW_ID w
  /\ ParseCents (LW_Amount w) = Ok (WR_StakeCents r) /\ 0 < WR_StakeCents r
  /\ parseAmericanOdds (LW_Odds w) = Ok (WR_AcceptedAmericanOdds r)
  /\ mapWagerResult unicode_lower (LW_Result w) = Ok (WR_Result r)
  /\ WR_AcceptedTerms r = TrimSpace (LW_Description w) /\ WR_Approved r = LW_Approved w.

Lemma reconcile_wager_clean byID report seen w report' seen' :
  indexed byID (Report_Users report) ->
  reconcile_wager unicode_lower byID (report, seen) w = (report', seen') -> Issues report' = [] ->
  exists r, Issues report = [] /\ (LW_ID w ∉ seen) /\ seen' = ({[LW_ID w]} ∪ seen)
    /\ wager_record_of w r /\ report' = add_Wager r report.
Proof.
  intros Hidx. unfold reconcile_wager.
  destruct (byID !! LW_UserID w) as [i|] eqn:Hi.
  2:{ intros [= <- _] Hc. by destruct (add_Issue_not_clean _ _ Hc). }
  destruct (Hidx _ _ Hi) as (u & Hu & _).
  assert (Hbad : forall code id msg, Issues (report_issue report i code "UserBets" id msg) <> [])
    by (intros *; by apply report_issue_not_clean with u).
  cbv zeta.
  repeat (case_match; [try (intros [= <- _] Hc; by destruct (Hbad _ _ _ Hc))|
                       try (intros [= <- _] Hc; by destruct (Hbad _ _ _ Hc))]).
  intros [= <- <-] Hc.
  match goal with |- context [add_Wager ?r _] => exists r end. bool_prop.
  split_and!; [exact Hc|assumption|reflexivity| |reflexivity].
  unfold wager_record_of. cbn. split_and!; (done || lia).
Qed.

Record wagers_inv (report0 : Report) (done_ : list LegacyWager) (report : Report) (seen : gset Z)
    : Prop := mkWagersInv {
  wi_same : exists rs, report = mkReport (Version report0) (Report_SourceSystem report0)
      (UserCount report0) (TransactionCount report0) (WagerCount report0)
      (ClosingCashTotalCents report0) (ClosingFreePlayTotalCents report0)
      (TransactionNetTotalCents report0) (DifferenceTotalCents report0)
      (Report_Users report0) (Report_Transactions report0) rs (Issues report0)
      /\ Forall2 wager_record_of done_ rs;
  wi_seen : seen = list_to_set (LW_ID <$> done_) /\ NoDup (LW_ID <$> done_)
}.

Lemma reconcile_wager_ids byID st w :
  UR_LegacyUserID <$> Report_Users (reconcile_wager unicode_lower byID st w).1
  = UR_LegacyUserID <$> Report_Users st.1.
Proof.
  destruct st as [report seen]. unfold reconcile_wager. cbv zeta.
  repeat case_match; cbn [fst]; rewrite ?report_issue_users; done.
Qed.

Lemma wagers_loop_clean report0 byID ws done_ report seen report' seen' :
  indexed byID (Report_Users report) ->
  foldl (reconcile_wager unicode_lower byID) (report, seen) ws = (report', seen') ->
  Issues report' = [] ->
  (Issues report = [] -> wagers_inv report0 done_ report seen) ->
  wagers_inv report0 (done_ ++ ws) report' seen' /\ Issues report = [].
Proof.
  revert report seen done_. induction ws as [|w ws IH]; intros report seen done_ Hidx; cbn.
  { intros [= <- <-] Hc Hinv. rewrite app_nil_r. auto. }
  destruct (reconcile_wager unicode_lower byID (report, seen) w) as [report1 seen1] eqn:Hs.
  intros Hf Hc Hinv. assert (Hidx1 : indexed byID (Report_Users report1)).
  { eapply indexed_ids; [|exact Hidx]. pose proof (reconcile_wager_ids byID (report, seen) w) as H. by rewrite Hs in H. }
  destruct (IH report1 seen1 (done_ ++ [w]) Hidx1 Hf Hc) as (J1 & J2).
  { intros Hc1. destruct (reconcile_wager_clean _ _ _ _ _ _ Hidx Hs Hc1) as (r & Hc0 & Hnew & -> & Hr & ->).
    destruct (Hinv Hc0) as [(rs & -> & Hrs) [-> Hn]]. split; cbn.
    - exists (rs ++ [r]). split; [done|]. by apply Forall2_app; [|constructor].
    - rewrite fmap_app, list_to_set_app_L. cbn. split; [set_solver|].
      apply NoDup_app. split_and!; [done| |apply NoDup_singleton].
      intros x Hx ->%list_elem_of_singleton. apply Hnew. by apply elem_of_list_to_set. }
  rewrite <- app_assoc in J1. split; [done|].
  by destruct (reconcile_wager_clean _ _ _ _ _ _ Hidx Hs J2) as (r & Hc0 & _).
Qed.
End reconcile_lemmas.

(** What the totals loop, and what the first three loops do not touch. *)
Definition header (r : Report) : Z * string * Z * Z * Z :=
  (Version r, Report_SourceSystem r, UserCount r, TransactionCount r, WagerCount r).
Definition fixed (r : Report) : Z * string * Z * Z * Z * (Z * Z * Z * Z) :=
  (header r, (ClosingCashTotalCents r, ClosingFreePlayTotalCents r, TransactionNetTotalCents r, DifferenceTotalCents r)).

(** *** The totals loop *)
Definition with_difference (u : UserReconciliation) : UserReconciliation :=
  set_Difference (wrap64 (ClosingCashCents u - TransactionNetCents u)) u.

Lemma totals_loop suffix pre report :
  Report_Users report = pre ++ suffix ->
  let report' := foldl total_user report (seq (length pre) (length suffix)) in
  Report_Users report' = pre ++ (with_difference <$> suffix)
  /\ Report_Transactions report' = Report_Transactions report
  /\ Report_Wagers report' = Report_Wagers report
  /\ existsb blocking (Issues report') = existsb blocking (Issues report)
  /\ (int64 (TransactionNetTotalCents report) ->
      TransactionNetTotalCents report'
      = wrap64 (TransactionNetTotalCents report + sumZ TransactionNetCents suffix))
  /\ (int64 (ClosingCashTotalCents report) ->
      ClosingCashTotalCents report'
      = wrap64 (ClosingCashTotalCents report + sumZ ClosingCashCents suffix))
  /\ (int64 (ClosingFreePlayTotalCents report) ->
      ClosingFreePlayTotalCents report'
      = wrap64 (ClosingFreePlayTotalCents report + sumZ ClosingFreePlayCents suffix))
  /\ header report' = header report.
Proof.
  revert pre report. induction suffix as [|u suffix IH]; intros pre report Hus; cbn.
  { rewrite !sumZ_nil, !Z.add_0_r. split_and!; try done; intros; by rewrite wrap64_id. }
  assert (Hu : Report_Users report !! length pre = Some u) by (rewrite Hus; by apply list_lookup_middle).
  set (report1 := total_user report (length pre)).
  assert (H1 : Report_Users report1 = (pre ++ [with_difference u]) ++ suffix
    /\ Report_Transactions report1 = Report_Transactions report /\ Report_Wagers report1 = Report_Wagers report
    /\ existsb blocking (Issues report1) = existsb blocking (Issues report)
    /\ TransactionNetTotalCents report1 = wrap64 (TransactionNetTotalCents report + TransactionNetCents u)
    /\ ClosingCashTotalCents report1 = wrap64 (ClosingCashTotalCents report + ClosingCashCents u)
    /\ ClosingFreePlayTotalCents report1 = wrap64 (ClosingFreePlayTotalCents report + ClosingFreePlayCents u)
    /\ header report1 = header report).
  { unfold report1, total_user. rewrite Hu, Hus. rewrite <- app_assoc.
    destruct (negb _); cbn; rewrite ?existsb_app, ?orb_false_r, insert_app_r_alt, Nat.sub_diag by done; done. }
  destruct H1 as (U1 & T1 & W1 & I1 & N1 & C1 & F1 & H1).
  specialize (IH (pre ++ [with_difference u]) report1 U1). rewrite length_app, Nat.add_1_r in IH. cbv zeta in IH.
  destruct IH as (U2 & T2 & W2 & I2 & N2 & C2 & F2 & H2).
  rewrite U2, T2, W2, I2, N2, C2, F2, H2 by (rewrite ?N1, ?C1, ?F1; apply wrap64_int64).
  rewrite <- app_assoc, T1, W1, I1, N1, C1, F1, H1, !wrap64_add, !sumZ_cons, !Z.add_assoc. done.
Qed.

(** Every record belongs to exactly one entry, so the entries' nets add up to
    all the records. *)
Lemma sum_of_one_owner ids id a :
  NoDup ids -> id ∈ ids -> sumZ (fun i : Z => if id =? i then a else 0) ids = a.
Proof.
  induction ids as [|x ids IH]; [set_solver|]. rewrite NoDup_cons. intros [Hx Hnd] Hin. rewrite sumZ_cons.
  destruct (Z.eqb_spec id x) as [->|Hne].
  - enough (sumZ (fun i : Z => if x =? i then a else 0) ids = 0) by lia. clear IH Hnd Hin.
    induction ids as [|y ids IH]; [done|]. rewrite sumZ_cons, IH by set_solver.
    destruct (Z.eqb_spec x y) as [->|]; [set_solver|lia].
  - rewrite IH; [lia|done|set_solver].
Qed.

Lemma amounts_partition ids ts :
  NoDup ids -> Forall (fun r => TR_LegacyUserID r ∈ ids) ts ->
  sumZ (fun id => sumZ AmountCents (user_amounts id ts)) ids = sumZ AmountCents ts.
Proof.
  intros Hnd. induction 1 as [|r ts Hr _ IH].
  - clear. induction ids as [|i ids IH]; [done|]. by rewrite sumZ_cons, IH.
  - rewrite sumZ_cons, <- IH, <- (sum_of_one_owner ids (TR_LegacyUserID r) (AmountCents r)) by done.
    rewrite <- sumZ_plus. apply sumZ_ext. intros i _. unfold user_amounts. cbn [List.filter].
    destruct (TR_LegacyUserID r =? i); rewrite ?sumZ_cons; lia.
Qed.

(** The report's entry for a user, once the totals are in. *)
Definition entry_for (unicode_lower : string -> string) (user : LegacyUser) (u : UserReconciliation) : Prop :=
  UR_LegacyUserID u = LU_ID user /\ 0 < LU_ID user
  /\ MapRole unicode_lower (lower_trim unicode_lower (LU_Role user)) = Ok (TargetRole u)
  /\ ParseCents (LU_Balance user) = Ok (ClosingCashCents u)
  /\ ParseCents (LU_FreePlayBalance user) = Ok (ClosingFreePlayCents u)
  /\ DifferenceCents u = wrap64 (ClosingCashCents u - TransactionNetCents u).

Lemma entries_final unicode_lower users us0 us :
  Forall2 (entry_of unicode_lower) users us0 -> Forall2 kept us0 us ->
  Forall2 (entry_for unicode_lower) users (with_difference <$> us).
Proof.
  intros H. revert us. induction H as [|user u0 users us0 He _ IH]; intros us Hk; inversion Hk as [|? u ? us' Hu Hus]; subst.
  - constructor.
  - constructor; [|by apply IH]. destruct He as (E1 & E2 & _ & _ & E3 & E4 & E5 & _), Hu as (K1 & _ & K2 & K3 & K4).
    unfold entry_for. cbn. rewrite K1, K2, K3, K4. done.
Qed.

Lemma ids_of_entries unicode_lower users us :
  Forall2 (entry_for unicode_lower) users us -> UR_LegacyUserID <$> us = LU_ID <$> users.
Proof. induction 1 as [|user u users us (H & _) _ IH]; [done|]. by rewrite !fmap_cons, H, IH. Qed.

Lemma existsb_blocking_perm l l' : l ≡ₚ l' -> existsb blocking l = existsb blocking l'.
Proof. induction 1 as [| | |? ? ? _ -> _ ->]; cbn; [done|congruence|by rewrite !orb_assoc, (orb_comm (blocking y))|done]. Qed.

(** The first three loops record blocking issues only. *)
Definition all_blocking (is_ : list Issue) : Prop := Forall (fun i => blocking i = true) is_.
Lemma add_blocking code table id uid msg r :
  all_blocking (Issues r) -> all_blocking (Issues (add_Issue (mkIssue SeverityBlocking code table id uid msg) r)).
Proof. intros H. cbn. apply Forall_app. split; [done|]. by constructor. Qed.
Lemma report_issue_blocking r i code table id msg :
  all_blocking (Issues r) -> all_blocking (Issues (report_issue r i code table id msg)).
Proof. intros H. unfold report_issue. destruct (_ !! i); [|done]. by apply add_blocking. Qed.
Lemma issue_if_blocking cond code id msg re :
  all_blocking (Issues re.1) -> all_blocking (Issues (issue_if cond code id msg re).1).
Proof. intros H. unfold issue_if. destruct cond; [|done]. by apply add_blocking. Qed.
Lemma assign_blocking {A} (zero : A) parsed set code id re :
  all_blocking (Issues re.1) -> all_blocking (Issues (assign zero parsed set code id re).1).
Proof. intros H. unfold assign. destruct parsed; [done|]. by apply add_blocking. Qed.

Section blocking_loops.
Variable unicode_lower : string -> string.
Lemma reconcile_user_blocking st u :
  all_blocking (Issues st.1) -> all_blocking (Issues (reconcile_user unicode_lower st u).1).
Proof.
  destruct st as [report byID]. intros H. unfold reconcile_user. cbv zeta. cbn [fst set_Users Issues].
  repeat first [apply issue_if_blocking | apply assign_blocking]. exact H.
Qed.
Lemma reconcile_transaction_blocking byID st t :
  all_blocking (Issues st.1) -> all_blocking (Issues (reconcile_transaction unicode_lower byID st t).1).
Proof.
  destruct st as [report seen]. intros H. unfold reconcile_transaction, orphan. cbv zeta.
  repeat case_match; cbn [fst]; try (by apply add_blocking); try (apply report_issue_blocking; exact H). exact H.
Qed.
Lemma reconcile_wager_blocking byID st w :
  all_blocking (Issues st.1) -> all_blocking (Issues (reconcile_wager unicode_lower byID st w).1).
Proof.
  destruct st as [report seen]. intros H. unfold reconcile_wager, orphan. cbv zeta.
  repeat case_match; cbn [fst]; try (by apply add_blocking); try (apply report_issue_blocking; exact H). exact H.
Qed.
Lemma foldl_blocking {A S} (f : Report * S -> A -> Report * S) l st :
  (forall st a, all_blocking (Issues st.1) -> all_blocking (Issues (f st a).1)) ->
  all_blocking (Issues st.1) -> all_blocking (Issues (foldl f st l).1).
Proof. intros Hf. revert st. induction l as [|a l IH]; intros st H; [done|]. cbn. by apply IH, Hf. Qed.
End blocking_loops.

Lemma no_blocking_nil is_ : all_blocking is_ -> existsb blocking is_ = false -> is_ = [].
Proof. destruct 1 as [|i is_ Hi _]; [done|]. cbn. by rewrite Hi. Qed.

(** Facts the loops keep whether or not they record issues. *)
Lemma foldl_keeps {A S B} (g : Report -> B) (f : Report * S -> A -> Report * S) l st :
  (forall st a, g (f st a).1 = g st.1) -> g (foldl f st l).1 = g st.1.
Proof. intros Hf. revert st. induction l as [|a l IH]; intros st; [done|]. cbn. by rewrite IH, Hf. Qed.

Section keeps.
Variable unicode_lower : string -> string.

Definition same_slice (report : Report) (id : Z) (re : Report * UserReconciliation) : Prop :=
  Report_Users re.1 = Report_Users report /\ UR_LegacyUserID re.2 = id
  /\ fixed re.1 = fixed report.
Lemma issue_if_same report id cond code sid msg re :
  same_slice report id re -> same_slice report id (issue_if cond code sid msg re).
Proof. unfold issue_if. by destruct cond. Qed.
Lemma assign_same {A} report id (zero : A) parsed set code sid re :
  (forall a u, UR_LegacyUserID (set a u) = UR_LegacyUserID u) ->
  same_slice report id re -> same_slice report id (assign zero parsed set code sid re).
Proof. intros Hs (H1 & H2 & H3). unfold assign. destruct parsed; split_and!; cbn; rewrite ?Hs; done. Qed.

Lemma reconcile_user_shape report byID user :
  exists u rep, reconcile_user unicode_lower (report, byID) user
    = (set_Users (Report_Users report ++ [u]) rep, <[LU_ID user := length (Report_Users report)]> byID)
    /\ UR_LegacyUserID u = LU_ID user /\ fixed rep = fixed report.
Proof.
  unfold reconcile_user. cbv zeta.
  match goal with |- context [set_Users (_ ++ [?re.2])] => assert (H : same_slice report (LU_ID user) re) end.
  { repeat first [apply issue_if_same | apply assign_same; [done|]]. done. }
  destruct H as (H1 & H2 & H3). rewrite H1. eauto.
Qed.

Lemma users_loop_indexed users report byID report' byID' :
  foldl (reconcile_user unicode_lower) (report, byID) users = (report', byID') ->
  indexed byID (Report_Users report) ->
  indexed byID' (Report_Users report') /\ fixed report' = fixed report.
Proof.
  revert report byID. induction users as [|user users IH]; intros report byID; cbn; [by intros [= <- <-]|].
  destruct (reconcile_user_shape report byID user) as (u & rep & -> & Hu & Ht). intros Hf Hx.
  destruct (IH _ _ Hf) as [H1 H2]; [|split; [done|by rewrite H2, <- Ht]].
  intros id i. cbn. rewrite lookup_insert_Some. intros [(<- & <-)|(_ & Hi)].
  - exists u. by rewrite lookup_app_r, Nat.sub_diag by done.
  - destruct (Hx _ _ Hi) as (x & Hx' & Hid). exists x. split; [by apply lookup_app_l_Some|done].
Qed.

Lemma report_issue_total r i code table id msg :
  fixed (report_issue r i code table id msg) = fixed r.
Proof. unfold report_issue. by destruct (_ !! i). Qed.
Lemma reconcile_transaction_total byID st t :
  fixed (reconcile_transaction unicode_lower byID st t).1 = fixed st.1.
Proof.
  destruct st as [report seen]. unfold reconcile_transaction. cbv zeta.
  repeat case_match; cbn [fst]; rewrite ?report_issue_total; done.
Qed.
End keeps.

(** The three loops, when no issue was recorded. *)
Lemma stages_clean unicode_lower report0 us ts ws r1 byID r2 seen2 r3 seen3 :
  Report_Users report0 = [] -> Report_Transactions report0 = [] -> Report_Wagers report0 = [] ->
  foldl (reconcile_user unicode_lower) (report0, ∅) us = (r1, byID) ->
  foldl (reconcile_transaction unicode_lower byID) (r1, ∅) ts = (r2, seen2) ->
  foldl (reconcile_wager unicode_lower byID) (r2, ∅) ws = (r3, seen3) ->
  Issues r3 = [] ->
  exists us0, Forall2 (entry_of unicode_lower) us us0 /\ Forall2 kept us0 (Report_Users r3)
    /\ Forall2 (record_of unicode_lower) ts (Report_Transactions r3)
    /\ Forall2 (wager_record_of unicode_lower) ws (Report_Wagers r3)
    /\ NoDup (UR_LegacyUserID <$> us0) /\ NoDup (LT_ID <$> ts) /\ NoDup (LW_ID <$> ws)
    /\ Forall (reconciled (Report_Transactions r3)) (Report_Users r3)
    /\ Forall (fun r => TR_LegacyUserID r ∈ UR_LegacyUserID <$> us0) (Report_Transactions r3)
    /\ fixed r3 = fixed report0
    /\ UR_LegacyUserID <$> Report_Users r3 = UR_LegacyUserID <$> us0.
Proof.
  intros U0 T0 W0 E1 E2 E3 Hc.
  destruct (users_loop_indexed unicode_lower us report0 ∅ r1 byID E1) as [Hx1 Ht1].
  { rewrite U0. by intros id i. }
  assert (Hi1 : Issues r1 = [] -> users_inv unicode_lower us r1 byID).
  { intros Hc1. refine (proj1 (users_loop_clean unicode_lower us report0 ∅ [] r1 byID E1 Hc1 _)).
    intros _. split; rewrite ?U0; [constructor|by intros id i|set_solver|constructor|done]. }
  assert (Hx2 : indexed byID (Report_Users r2) /\ fixed r2 = fixed r1).
  { change r2 with (r2, seen2).1. rewrite <- E2. split.
    - eapply indexed_ids; [|exact Hx1]. exact (foldl_keeps (fun r => UR_LegacyUserID <$> Report_Users r) _ ts (r1, ∅)
        (reconcile_transaction_ids unicode_lower byID)).
    - exact (foldl_keeps fixed _ ts (r1, ∅) (reconcile_transaction_total unicode_lower byID)). }
  destruct Hx2 as [Hx2 Hx2'].
  assert (Hi2 : Issues r2 = [] -> transactions_inv unicode_lower (Report_Users r1) ts r2 seen2 /\ Issues r1 = []).
  { intros Hc2. apply (transactions_loop_clean unicode_lower (Report_Users r1) byID ts [] r1 ∅ r2 seen2 Hx1 E2 Hc2).
    intros Hc1. destruct (Hi1 Hc1) as [I1 _ _ I4 [I5 I6]]. split; rewrite ?I5; try done.
    - apply Forall2_refl_kept.
    - apply Forall_lookup. intros i u Hu. destruct (Forall2_lookup_r _ _ _ _ _ I1 Hu) as (user & _ & He).
      destruct He as (_ & _ & _ & _ & _ & _ & _ & H1 & H2 & H3). unfold reconciled. cbn.
      rewrite H1, H2, H3. split_and!; done.
    - split; [done|constructor]. }
  destruct (wagers_loop_clean unicode_lower r2 byID ws [] r2 ∅ r3 seen3 Hx2 E3 Hc) as [[(rs & -> & Hrs) [_ Hnw]] Hc2].
  { intros Hc2. split; [|split; [done|constructor]]. exists (Report_Wagers r2).
    split; [by destruct r2|]. rewrite (ti_wagers _ _ _ _ _ (proj1 (Hi2 Hc2))). constructor. }
  destruct (Hi2 Hc2) as [[D K R F O [_ Sn] W] Hc1]. destruct (Hi1 Hc1) as [I1 _ _ I4 _].
  exists (Report_Users r1). cbn [Report_Users Report_Transactions Report_Wagers].
  split_and!; try done; [by transitivity (fixed r2); [|by rewrite Hx2', Ht1]|by apply kept_ids].
Qed.

Lemma nets_reconciled ts us :
  Forall (reconciled ts) us ->
  forall u, u ∈ us -> TransactionNetCents u = sumZ AmountCents (user_amounts (UR_LegacyUserID u) ts).
Proof. rewrite Forall_forall. intros H u Hu. by destruct (H u Hu) as (_ & -> & _). Qed.

(** [Reconcile] as its four loops, when what it returns has no blocking
    issue. *)
Definition empty_report (us ts ws : nat) : Report :=
  mkReport 1 SourceSystem (Z.of_nat us) (Z.of_nat ts) (Z.of_nat ws) 0 0 0 0 [] [] [] [].
Record clean_run (unicode_lower : string -> string) (us : list LegacyUser) (ts : list LegacyTransaction)
    (ws : list LegacyWager) (report r1 r2 r3 : Report) (byID : gmap Z nat) (seen2 seen3 : gset Z) : Prop := mkCleanRun {
  cr_users : foldl (reconcile_user unicode_lower) (empty_report (length us) (length ts) (length ws), ∅) us = (r1, byID);
  cr_transactions : foldl (reconcile_transaction unicode_lower byID) (r1, ∅) ts = (r2, seen2);
  cr_wagers : foldl (reconcile_wager unicode_lower byID) (r2, ∅) ws = (r3, seen3);
  cr_clean : Issues r3 = [];
  cr_report : Report_Users report = with_difference <$> Report_Users r3
    /\ Report_Transactions report = Report_Transactions r3 /\ Report_Wagers report = Report_Wagers r3
    /\ header report = header r3;
  cr_totals : int64 (TransactionNetTotalCents r3) -> int64 (ClosingCashTotalCents r3) -> int64 (ClosingFreePlayTotalCents r3) ->
    TransactionNetTotalCents report = wrap64 (TransactionNetTotalCents r3 + sumZ TransactionNetCents (Report_Users r3))
    /\ ClosingCashTotalCents report = wrap64 (ClosingCashTotalCents r3 + sumZ ClosingCashCents (Report_Users r3))
    /\ ClosingFreePlayTotalCents report
       = wrap64 (ClosingFreePlayTotalCents r3 + sumZ ClosingFreePlayCents (Report_Users r3));
  cr_difference : DifferenceTotalCents report = wrap64 (ClosingCashTotalCents report - TransactionNetTotalCents report)
}.

Lemma promotable_run unicode_lower source report :
  Reconcile unicode_lower (Some source) = Ok report -> Promotable report = true ->
  exists us ts ws r1 r2 r3 byID seen2 seen3,
    (exists us0, Users source = Ok us0 /\ us ≡ₚ us0)
    /\ (exists ts0, Transactions source = Ok ts0 /\ ts ≡ₚ ts0)
    /\ (exists ws0, Wagers source = Ok ws0 /\ ws ≡ₚ ws0)
    /\ clean_run unicode_lower us ts ws report r1 r2 r3 byID seen2 seen3.
Proof.
  unfold Reconcile. intros H Hp.
  destruct (Users source) as [us0|] eqn:Hus; [|done]. destruct (Transactions source) as [ts0|] eqn:Hts; [|done].
  destruct (Wagers source) as [ws0|] eqn:Hws; [|done]. cbn [wrap_err] in H.
  set (us := stable_sort (by_id LU_ID) us0). set (ts := stable_sort (by_id LT_ID) ts0).
  set (ws := stable_sort (by_id LW_ID) ws0).
  unfold mbind, result_bind in H. cbv beta zeta in H. fold us ts ws in H.
  set (report0 := mkReport 1 SourceSystem _ _ _ _ _ _ _ _ _ _ _) in H.
  destruct (foldl (reconcile_user unicode_lower) (report0, ∅) us) as [r1 byID] eqn:E1.
  destruct (foldl (reconcile_transaction unicode_lower byID) (r1, ∅) ts) as [r2 seen2] eqn:E2.
  destruct (foldl (reconcile_wager unicode_lower byID) (r2, ∅) ws) as [r3 seen3] eqn:E3.
  injection H as <-.
  pose proof (totals_loop (Report_Users r3) [] r3 eq_refl) as Ht. cbv zeta in Ht.
  change (length []) with 0%nat in Ht. destruct Ht as (Tu & Tt & Tw & Ti & Tn & Tc & Tf & Th).
  unfold Promotable in Hp. cbn [Issues set_Issues] in Hp. rewrite (existsb_blocking_perm _ _ (stable_sort_perm _ _)), Ti in Hp.
  exists us, ts, ws, r1, r2, r3, byID, seen2, seen3.
  split_and!; try (eexists; split; [done|apply stable_sort_perm]).
  split; [done..| | | |]; cbn [Report_Users Report_Transactions Report_Wagers set_Issues TransactionNetTotalCents
    ClosingCashTotalCents ClosingFreePlayTotalCents DifferenceTotalCents header Version Report_SourceSystem UserCount
    TransactionCount WagerCount].
  - apply no_blocking_nil; [|by apply negb_true_iff]. change r3 with (r3, seen3).1. rewrite <- E3.
    apply foldl_blocking; [intros; by apply reconcile_wager_blocking|]. change (all_blocking (Issues (r2, seen2).1)). rewrite <- E2.
    apply foldl_blocking; [intros; by apply reconcile_transaction_blocking|]. change (all_blocking (Issues (r1, byID).1)). rewrite <- E1.
    apply foldl_blocking; [intros; by apply reconcile_user_blocking|]. constructor.
  - split_and!; [done..|exact Th].
  - intros Hn Hc Hf. exact (conj (Tn Hn) (conj (Tc Hc) (Tf Hf))).
  - done.
Qed.

(** C37. A promotable report accounts for the whole archive.  If [Reconcile]
    reports no blocking issue then every user, transaction and wager row of
    the source is in the report exactly once, with its exact amount, valid
    role, type, odds and result; IDs are unique; each user's net is the exact
    sum of that user's recorded transactions, with no overflow, and their
    count.  The difference shown is closing balance minus net, and the total
    net the sum of all recorded transactions, in 64-bit arithmetic: exactly so
    whenever the exact value fits 64 bits, and wrapped around otherwise. *)
Theorem promotable_report_accounts_for_everything unicode_lower source report :
  Reconcile unicode_lower (Some source) = Ok report -> Promotable report = true ->
  exists us ts ws,
    ((exists us0, Users source = Ok us0 /\ us ≡ₚ us0)
     /\ (exists ts0, Transactions source = Ok ts0 /\ ts ≡ₚ ts0)
     /\ (exists ws0, Wagers source = Ok ws0 /\ ws ≡ₚ ws0))
    /\ Forall2 (entry_for unicode_lower) us (Report_Users report)
    /\ Forall2 (record_of unicode_lower) ts (Report_Transactions report)
    /\ Forall2 (wager_record_of unicode_lower) ws (Report_Wagers report)
    /\ NoDup (LU_ID <$> us) /\ NoDup (LT_ID <$> ts) /\ NoDup (LW_ID <$> ws)
    /\ Forall (reconciled (Report_Transactions report)) (Report_Users report)
    /\ Forall (fun u => let difference := ClosingCashCents u - TransactionNetCents u in
         DifferenceCents u = wrap64 difference /\ (int64 difference -> DifferenceCents u = difference)) (Report_Users report)
    /\ (let total := sumZ AmountCents (Report_Transactions report) in
        TransactionNetTotalCents report = wrap64 total /\ (int64 total -> TransactionNetTotalCents report = total)).
Proof.
  intros H Hp. destruct (promotable_run _ _ _ H Hp) as (us & ts & ws & r1 & r2 & r3 & byID & seen2 & seen3 & Hu & Ht & Hw & R).
  destruct R as [E1 E2 E3 Hc (Tu & Tt & Tw & _) Hn _].
  destruct (stages_clean unicode_lower (empty_report _ _ _) us ts ws r1 byID r2 seen2 r3 seen3 eq_refl eq_refl eq_refl E1 E2 E3 Hc)
    as (us1 & S1 & S2 & S3 & S4 & S5 & S6 & S7 & S8 & S9 & S10 & S11).
  injection S10 as _ _ _ _ _ S12 S13 S10 _. destruct Hn as (Tn & _); [by rewrite ?S10, ?S12, ?S13..|].
  exists us, ts, ws. rewrite Tu, Tt, Tw, Tn.
  pose proof (entries_final _ _ _ _ S1 S2) as He.
  split_and!; try done.
  - rewrite <- (ids_of_entries _ _ _ He), <- list_fmap_compose.
    change (NoDup (UR_LegacyUserID <$> Report_Users r3)). by rewrite S11.
  - rewrite Forall_fmap. exact S8.
  - rewrite Forall_fmap. apply Forall_forall. intros u _. split; [done|]. cbn. apply wrap64_id.
  - cbv zeta. assert (Hsum : sumZ AmountCents (Report_Transactions r3) = sumZ TransactionNetCents (Report_Users r3))
      by by rewrite <- (amounts_partition _ _ S5 S9), <- S11, sumZ_map, (sumZ_ext _ _ _ (nets_reconciled _ _ S8)).
    rewrite S10, Z.add_0_l, Hsum. split; [done|apply wrap64_id].
Qed.

(** ** A worked archive *)
Definition ex_when : Time := mkTime 63900000000000000000 true.
Definition ex_source : Source :=
  mkSource
    (Ok [mkLegacyUser 2 "Bob" "bob@example.com" "User" "-5.00" "0";
         mkLegacyUser 1 " Alice " "Alice@Example.com" "root" "12.50" "1.5"])
    (Ok [mkLegacyTransaction 11 1 "20.00" "credit" "deposit" ex_when;
         mkLegacyTransaction 10 1 "-7.500" "Debit" "wager" ex_when;
         mkLegacyTransaction 12 2 "-5" "debit" "wager" ex_when])
    (Ok [mkLegacyWager 7 1 "7.50" "Alice to win" "-110" ex_when "win" true]).
Definition ex_report : Report :=
  match Reconcile (fun s => s) (Some ex_source) with Ok r => r | Err _ => mkReport 0 "" 0 0 0 0 0 0 0 [] [] [] [] end.

Lemma promotable_report_accounts_for_everything_witness :
  Promotable ex_report = true /\ TransactionNetTotalCents ex_report = 750
  /\ Forall (reconciled (Report_Transactions ex_report)) (Report_Users ex_report).
Proof.
  assert (Hr : Reconcile (fun s => s) (Some ex_source) = Ok ex_report) by (vm_compute; reflexivity).
  assert (Hp : Promotable ex_report = true) by (vm_compute; reflexivity).
  split; [exact Hp|]. split; [vm_compute; reflexivity|].
  destruct (promotable_report_accounts_for_everything (fun s => s) ex_source ex_report Hr Hp)
    as (us & ts & ws & _ & _ & _ & _ & _ & _ & _ & H & Hd & Ht).
  exact H.
Defined.
