(* ===== verification/SQL.v ===== *)
(** * PostgreSQL as the stores use it

    What the [*pg] packages share: the environment a store runs in, the text of
    identifiers, the session monad their statements run in, transactions with
    commit and rollback, and how a successful run splits into its statements.
    The tables are a parameter [D].

    A statement may fail at any point ([statement_fault]): a lost connection,
    a serialization failure and every constraint not written out in a store's
    file are such failures, so what is proved of an operation holds whichever
    of its statements fails.  A COMMIT that reports an error may have been
    refused, or may have taken effect with its reply lost ([commit_strike]). *)
From S2P Require Import Prelude GoStrings GoTime Float64.

(** ** The environment

    PostgreSQL's reading of a text as a uuid and its text form, the identifiers
    it generates, the random bytes the program draws, the outcome of the n-th
    statement and, where that is a COMMIT struck by a fault, when it was struck,
    the clock, the order in which Go ranges over the keys of a map, and the two
    platform functions of the pricing arithmetic. *)

(** A fault during a COMMIT strikes before the server has carried it out, after
    that but before the reply has arrived, or too late to matter. *)
Inductive strike := BeforeCommit | BeforeReply | AfterReply.

Class environment := mkEnvironment {
  uuid_cast : string -> option string;
  gen_uuid : nat -> string;
  random_bytes : nat -> option (list Z);
  statement_fault : nat -> option error;
  commit_strike : nat -> strike;
  clock : nat -> Time;
  map_order : list string -> list string;
  float_exp : float -> float;
  float_to_int64 : float -> Z
}.

(** The same world with every reply to a COMMIT arriving. *)
Definition every_reply (E : environment) : environment :=
  mkEnvironment uuid_cast gen_uuid random_bytes statement_fault
    (fun n => match commit_strike n with BeforeReply => AfterReply | how => how end)
    clock map_order float_exp float_to_int64.

(** ** Identifiers *)

(** [^[0-9a-fA-F]{8}-[0-9a-fA-F]{4}-...-[0-9a-fA-F]{12}$] *)
Definition uuid_char (i : nat) (a : ascii) : bool :=
  if bool_decide (i ∈ [8; 13; 18; 23]%nat) then byte_is 45 a else is_hex a.
Definition isUUID (value : string) : bool :=
  (len value =? 36) && forallb id (imap uuid_char (bytes value)).

(** [fmt.Sprintf("%x", bytes)] *)
Definition hex_digit (n : Z) : ascii := ascii_of_nat (Z.to_nat (if n <? 10 then 48 + n else 87 + n)).
Definition hex_byte (b : Z) : list ascii := [hex_digit (b / 16); hex_digit (b mod 16)].
Definition hex (l : list Z) : list ascii := l ≫= hex_byte.

(** The body of [betting.NewEventID] on the bytes read. *)
Definition event_id (buf : list Z) : string :=
  let buf := alter (fun b => Z.lor (Z.land b 15) 64) 6%nat buf in
  let buf := alter (fun b => Z.lor (Z.land b 63) 128) 8%nat buf in
  let slice (from to_ : nat) := hex (take (to_ - from) (drop from buf)) in
  of_bytes (slice 0 4 ++ "-"%char :: slice 4 6 ++ "-"%char :: slice 6 8 ++ "-"%char ::
            slice 8 10 ++ "-"%char :: slice 10 16)%nat.

(** What PostgreSQL documents of uuid values: their text form is the
    lower-case 8-4-4-4-12 form and reads back as itself.  [rand.Read] fills
    its buffer, a range over a map visits every key once, and the clock is past
    the zero time. *)
Class environment_ok (E : environment) : Prop := {
  cast_canonical s c : uuid_cast s = Some c -> uuid_cast c = Some c /\ isUUID c = true;
  random_full n buf : random_bytes n = Some buf -> length buf = 16%nat /\ Forall (fun b => 0 <= b < 256) buf;
  map_order_perm l : map_order l ≡ₚ l;
  clock_past_zero n : Microsecond <= nanos (clock n)
}.

(** A [timestamptz] keeps microseconds. *)
Definition timestamptz (t : Time) : Time := mkTime (nanos t - nanos t mod Microsecond) true.
Lemma timestamptz_Truncate t : nanos (timestamptz (Truncate t Microsecond)) = nanos (Truncate t Microsecond).
Proof.
  unfold Truncate, timestamptz. cbn [Z.leb]. change (Microsecond <=? 0) with false. cbn [nanos].
  rewrite Zminus_mod, Z.mod_mod, Z.sub_diag, Z.mod_0_l, Z.sub_0_r; done.
Qed.
Lemma timestamptz_le t : nanos (timestamptz t) <= nanos t.
Proof. unfold timestamptz. cbn [nanos]. pose proof (Z.mod_pos_bound (nanos t) Microsecond eq_refl). lia. Qed.

(** ** The audit trail *)

(** The values in a [jsonb_build_object]. *)
Inductive audit_value :=
  | AString (s : string)
  | AInt (n : Z)
  | ABool (b : bool)
  | ATime (t : Time)
  | ANull.
(** [before_data] and [after_data] as their fields. *)
Record AuditRow := mkAuditRow {
  au_actor : string;
  au_action : string;
  au_target_type : string;
  au_target_id : string;
  au_reason : string;
  before_data : list (string * audit_value);
  after_data : list (string * audit_value)
}.

(** ** The session monad *)

(** The working copy of the database and the number of statements issued and
    values drawn so far. *)
Record session (D : Type) := mkSession { db : D; tick : nat }.
Arguments mkSession {D}.
Arguments db {D}.
Arguments tick {D}.

Definition go (D A : Type) : Type := session D -> session D * result A.

#[export] Instance go_ret {D} : MRet (go D) := fun A a s => (s, Ok a).
#[export] Instance go_bind {D} : MBind (go D) := fun A B k m s =>
  match m s with
  | (s', Ok a) => k a s'
  | (s', Err e) => (s', Err e)
  end.
Definition lift {D A} (r : result A) : go D A := fun s => (s, r).
Definition failing {D A} (e : error) : go D A := lift (Err e).

Section session.
Context {E : environment} {D : Type}.

(** One statement: its fault, or its effect on the tables; either error is
    wrapped as the caller wraps it.  [f] also gets the statement's number, from
    which the database draws new identifiers and its clock. *)
Definition statement {A} (wrap : string) (f : nat -> D -> result (D * A)) : go D A := fun s =>
  let s1 := mkSession (db s) (S (tick s)) in
  match statement_fault (tick s) with
  | Some e => (s1, Err (Wrapf wrap e))
  | None =>
      match f (tick s) (db s) with
      | Ok (d, a) => (mkSession d (S (tick s)), Ok a)
      | Err e => (s1, Err (Wrapf wrap e))
      end
  end.

Definition query {A} (wrap : string) (f : D -> result A) : go D A :=
  statement wrap (fun _ d => a ← f d; Ok (d, a)).
Definition exec (wrap : string) (f : D -> result D) : go D unit :=
  statement wrap (fun _ d => d' ← f d; Ok (d', ())).

(** [time.Now()] *)
Definition now : go D Time := fun s => (mkSession (db s) (S (tick s)), Ok (clock (tick s))).

(** [now()] inside a transaction is when it began: read before any statement
    of the body. *)
Definition tx_now : go D Time := fun s => (s, Ok (timestamptz (clock (tick s)))).

(** [if err != nil { return fmt.Errorf(format, err) }] after a call. *)
Definition wrapped {A} (format : string) (m : go D A) : go D A := fun s => let '(s', r) := m s in (s', wrap_err format r).

(** The error of a call handled instead of returned. *)
Definition attempt {A} (m : go D A) : go D (result A) := fun s => let '(s', r) := m s in (s', Ok r).

(** A version 4 UUID drawn by the program, as [betting.NewEventID] does. *)
Definition new_uuid (wrap : string) : go D string := fun s =>
  (mkSession (db s) (S (tick s)),
   match random_bytes (tick s) with
   | None => Err (Wrapf wrap (Errorf "rand"))
   | Some buf => Ok (event_id buf)
   end).
End session.

Section values.
Context {E : environment}.

(** [$1::uuid], and [nullif($1, '')::uuid] with NULL as the empty text. *)
Definition cast (s : string) : result string :=
  match uuid_cast s with
  | Some c => Ok c
  | None => Err (Errorf "invalid input syntax for type uuid")
  end.
Definition cast_opt (s : string) : result string :=
  if bool_decide (s = ""%string) then Ok ""%string else cast s.

(** [for range] over the keys of a map. *)
Definition range_keys {V} (m : gmap string V) : list string := map_order ((map_to_list m).*1).


Definition no_rows := Errorf "no rows in result set".

(** [row.Scan] of one row, or [pgx.ErrNoRows] wrapped as any other error. *)
Definition must_find {A} (r : option A) : result A :=
  match r with Some a => Ok a | None => Err no_rows end.

(** A number that does not fit the scanned integer is a scan error. *)
Definition scan_int64 (z : Z) : result Z :=
  fail_if (negb (bool_decide (int64 z))) (Errorf "cannot scan numeric into int64");; Ok z.
Definition scan_int32 (z : Z) : result Z :=
  fail_if ((z <? -2147483648) || (2147483647 <? z)) (Errorf "cannot scan into int32");; Ok z.

End values.

(** ** Rows of a table *)
(** The first row of a table that satisfies a condition. *)
Definition find_row {A} (p : A -> bool) (m : gmap string A) : option (string * A) :=
  head (List.filter (fun kr => p kr.2) (map_to_list m)).

Section find_row.
Context {A : Type}.
Implicit Types (p : A -> bool) (m : gmap string A).

Lemma find_row_Some p m k x : find_row p m = Some (k, x) -> m !! k = Some x /\ p x = true.
Proof.
  unfold find_row. intros H. apply head_Some_elem_of in H. apply filter_bool_elem in H as [Hin Hp].
  apply elem_of_map_to_list in Hin. done.
Qed.
Lemma find_row_None p m k x : find_row p m = None -> m !! k = Some x -> p x = false.
Proof.
  unfold find_row. intros H Hk. apply head_None in H. destruct (p x) eqn:Ep; [|done]. exfalso.
  apply (not_elem_of_nil (k, x)). rewrite <- H. apply filter_bool_elem. by rewrite elem_of_map_to_list.
Qed.
Lemma find_row_is_Some p m k x : m !! k = Some x -> p x = true -> is_Some (find_row p m).
Proof.
  intros Hk Hp. destruct (find_row p m) as [r|] eqn:E; [eauto|]. by rewrite (find_row_None _ _ _ _ E Hk) in Hp.
Qed.
Lemma find_row_unique p m k x :
  m !! k = Some x -> p x = true -> (forall k' x', m !! k' = Some x' -> p x' = true -> k' = k) -> find_row p m = Some (k, x).
Proof.
  intros Hk Hp Hu. destruct (find_row_is_Some p m k x Hk Hp) as [[k' x'] E].
  apply find_row_Some in E as E'. destruct E' as [Hk' Hp'].
  pose proof (Hu _ _ Hk' Hp') as ->. congruence.
Qed.
End find_row.

(** ** Transactions *)

(** How a transaction body returns: [tx.Commit] with the wrapping of its
    error, or without a commit, which the deferred rollback then undoes. *)
Inductive finish (A : Type) := Commit (wrap : string) (a : A) | Rollback (a : A).
Arguments Commit {A}.
Arguments Rollback {A}.

Section transactions.
Context {E : environment} {D : Type}.

(** A transaction of a store: begin, whose error the store wraps as [begun];
    the body; and [tx.Commit], which checks the deferred [constraints], or the
    deferred [tx.Rollback].  When the reply to the COMMIT is lost the caller
    gets an error although the transaction may stand. *)
Definition transaction {A} (pool : bool) (no_pool : error) (begun : error -> error) (constraints : D -> bool)
    (body : go D (finish A)) : go D A := fun s =>
  let rolled_back (s' : session D) := mkSession (db s) (tick s') in
  if negb pool then (s, Err no_pool)
  else
    match statement_fault (tick s) with
    | Some e => (mkSession (db s) (S (tick s)), Err (begun e))
    | None =>
        match body (mkSession (db s) (S (tick s))) with
        | (s', Err e) => (rolled_back s', Err e)
        | (s', Ok (Rollback a)) => (rolled_back s', Ok a)
        | (s', Ok (Commit wrap a)) =>
            let s'' := mkSession (db s') (S (tick s')) in
            match statement_fault (tick s'), commit_strike (tick s') with
            | Some e, BeforeCommit => (rolled_back s'', Err (Wrapf wrap e))
            | Some e, BeforeReply => (if constraints (db s') then s'' else rolled_back s'', Err (Wrapf wrap e))
            | _, _ => if constraints (db s') then (s'', Ok a)
                      else (rolled_back s'', Err (Wrapf wrap (Errorf "deferred constraint")))
            end
        end
    end.
End transactions.

(** ** Running a session forwards *)
Section runs.
Context {E : environment} {D : Type}.

Lemma bind_run {A B} (m : go D A) (k : A -> go D B) s s' b :
  (m ≫= k) s = (s', Ok b) -> exists a s1, m s = (s1, Ok a) /\ k a s1 = (s', Ok b).
Proof.
  unfold mbind, go_bind. destruct (m s) as [s1 [a|e]]; [eauto|]. intros [=].
Qed.

Lemma ret_run {A} (a b : A) s s' : (mret a : go D A) s = (s', Ok b) -> s' = s /\ b = a.
Proof. by intros [= <- <-]. Qed.

Lemma lift_run {A} (r : result A) s s' a : lift (D := D) r s = (s', Ok a) -> s' = s /\ r = Ok a.
Proof. by intros [= <- <-]. Qed.

Lemma failing_run {A} e s s' (a : A) : failing (D := D) e s = (s', Ok a) -> False.
Proof. intros [=]. Qed.

Lemma statement_run {A} wrap (f : nat -> D -> result (D * A)) s s' a :
  statement wrap f s = (s', Ok a) -> exists n, f n (db s) = Ok (db s', a).
Proof.
  unfold statement. destruct (statement_fault (tick s)); [intros [=]|].
  destruct (f (tick s) (db s)) as [[d x]|] eqn:Ef; [|intros [=]].
  intros [= <- <-]. eauto.
Qed.

Lemma query_run {A} wrap (f : D -> result A) s s' a :
  query wrap f s = (s', Ok a) -> db s' = db s /\ f (db s) = Ok a.
Proof. intros (n & H)%statement_run. go_inv. by simplify_eq. Qed.

Lemma exec_run wrap f s s' u : exec (D := D) wrap f s = (s', Ok u) -> f (db s) = Ok (db s').
Proof. intros (n & H)%statement_run. go_inv. by simplify_eq. Qed.

Lemma now_run s s' t : now (D := D) s = (s', Ok t) -> db s' = db s /\ t = clock (tick s).
Proof. by intros [= <- <-]. Qed.

Lemma tx_now_run s s' t : tx_now (D := D) s = (s', Ok t) -> s' = s.
Proof. by intros [= <- _]. Qed.

Lemma attempt_run {A} (m : go D A) s s' r : attempt m s = (s', Ok r) -> m s = (s', r).
Proof. unfold attempt. destruct (m s) as [s1 r1]. by intros [= <- <-]. Qed.

Lemma new_uuid_run wrap s s' i : new_uuid (D := D) wrap s = (s', Ok i) -> db s' = db s.
Proof. unfold new_uuid. by intros [= <- _]. Qed.

(** The reply to the COMMIT that was the n-th statement was lost. *)
Definition reply_lost (n : nat) (e : error) : Prop := statement_fault n = Some e /\ commit_strike n = BeforeReply.

(** The three ends of a transaction.  What was committed is reported, unless
    the reply is lost. *)
Lemma transaction_cases {A} pool no_pool begun constraints (body : go D (finish A)) s s' r :
  transaction pool no_pool begun constraints body s = (s', r) ->
  ((exists e, r = Err e) /\ db s' = db s)
  \/ (exists s0 s1 a, db s0 = db s /\ body s0 = (s1, Ok (Rollback a)) /\ db s' = db s /\ r = Ok a)
  \/ exists s0 s1 wrap a, db s0 = db s /\ body s0 = (s1, Ok (Commit wrap a)) /\ db s' = db s1
       /\ (r = Ok a \/ exists e, r = Err (Wrapf wrap e) /\ reply_lost (tick s1) e) /\ constraints (db s1) = true.
Proof.
  unfold transaction, reply_lost. destruct pool; cbn [negb]; [|intros [= <- <-]; left; eauto].
  destruct (statement_fault (tick s)); [intros [= <- <-]; left; eauto|].
  destruct (body _) as [s1 [[wrap a|a]|e]] eqn:Eb; cbv zeta.
  - destruct (statement_fault (tick s1)) as [e|] eqn:Ef; [destruct (commit_strike (tick s1)) eqn:Es|];
      [intros [= <- <-]; left; eauto|destruct (constraints (db s1)) eqn:Ed; intros [= <- <-]; [right; right|left; eauto]..];
      eexists _, s1, wrap, a; (split_and!; [|exact Eb|done| |done]); eauto.
  - intros [= <- <-]. right. left. eexists _, s1, a. split_and!; [|exact Eb|done..]. done.
  - intros [= <- <-]. left. eauto.
Qed.

(** A transaction leaves the database as it was, or as its body left it. *)
Lemma transaction_run {A} pool no_pool begun constraints (body : go D (finish A)) s s' r :
  transaction pool no_pool begun constraints body s = (s', r) ->
  db s' = db s
  \/ exists s0 s1 wrap a, db s0 = db s /\ body s0 = (s1, Ok (Commit wrap a)) /\ db s' = db s1
       /\ (r = Ok a \/ exists e, r = Err (Wrapf wrap e) /\ reply_lost (tick s1) e) /\ constraints (db s1) = true.
Proof. intros [[_ H]|[(s0 & s1 & a & _ & _ & H & _)|H]]%transaction_cases; [by left..|by right]. Qed.

Lemma transaction_Ok {A} pool no_pool begun constraints (body : go D (finish A)) s s' a :
  transaction pool no_pool begun constraints body s = (s', Ok a) ->
  (exists s0 s1, db s0 = db s /\ db s' = db s /\ body s0 = (s1, Ok (Rollback a)))
  \/ exists s0 s1 wrap, db s0 = db s /\ body s0 = (s1, Ok (Commit wrap a)) /\ db s' = db s1.
Proof.
  intros [[[e [=]] _]|[(s0 & s1 & b & H0 & Hb & H & [= ->])|(s0 & s1 & wrap & b & H0 & Hb & H & [[= ->]|(e & [=] & _)] & _)]]%transaction_cases;
    [left|right]; eauto 10.
Qed.

(** What an operation leaves that reported an error: the database as it was; or,
    the reply to its COMMIT being lost, everything that the operation [m'],
    which gets that reply, does. *)
Definition all_or_nothing {A B} (m : go D A) (m' : go D B) : Prop :=
  forall s s' e, m s = (s', Err e) ->
    db s' = db s \/ exists n e0 a, tick s' = S n /\ reply_lost n e0 /\ m' s = (s', Ok a).

Lemma transaction_all_or_nothing {A} pool no_pool begun constraints (body : go D (finish A)) :
  all_or_nothing (transaction pool no_pool begun constraints body)
                 (transaction (E := every_reply E) pool no_pool begun constraints body).
Proof.
  intros s s' e. unfold transaction, reply_lost. destruct pool; cbn [negb]; [|intros [= <- _]; by left].
  cbn [every_reply statement_fault commit_strike].
  destruct (statement_fault (tick s)); [intros [= <- _]; by left|].
  destruct (body _) as [s1 [[wrap a|a]|e1]]; cbv zeta; [|done|intros [= <- _]; by left].
  destruct (statement_fault (tick s1)) as [e0|] eqn:Ef; [destruct (commit_strike (tick s1)) eqn:Es|]; [intros [= <- _]; by left|..];
    (destruct (constraints (db s1)); [|intros [= <- _]; by left]); [|done..]. intros [= <- _]. right. by exists (tick s1), e0, a.
Qed.

(** What a call leaves that failed. *)
Lemma query_db {A} wrap (f : D -> result A) s s' r : query wrap f s = (s', r) -> db s' = db s.
Proof.
  unfold query, statement. destruct (statement_fault (tick s)); [by intros [= <- _]|].
  destruct (f (db s)); by intros [= <- _].
Qed.
Lemma statement_refused {A} wrap (f : nat -> D -> result (D * A)) s s' e :
  statement wrap f s = (s', Err e) -> db s' = db s.
Proof.
  unfold statement. destruct (statement_fault (tick s)); [by intros [= <- _]|].
  destruct (f (tick s) (db s)) as [[d a]|]; [done|by intros [= <- _]].
Qed.
Lemma bind_refused {A B} (m : go D A) (k : A -> go D B) s s' e :
  (m ≫= k) s = (s', Err e) ->
  m s = (s', Err e) \/ exists a s1, m s = (s1, Ok a) /\ k a s1 = (s', Err e).
Proof. unfold mbind, go_bind. destruct (m s) as [s1 [a|e1]]; [eauto|]. intros [= -> ->]. by left. Qed.

(** Statements that do not fail. *)
Lemma statement_quiet {A} wrap (f : nat -> D -> result (D * A)) d a s :
  statement_fault (tick s) = None -> f (tick s) (db s) = Ok (d, a) -> statement wrap f s = (mkSession d (S (tick s)), Ok a).
Proof. intros Hq Hf. unfold statement. by rewrite Hq, Hf. Qed.
Lemma query_quiet {A} wrap (f : D -> result A) a s :
  statement_fault (tick s) = None -> f (db s) = Ok a -> query wrap f s = (mkSession (db s) (S (tick s)), Ok a).
Proof. intros Hq Hf. apply statement_quiet; [done|]. by rewrite Hf. Qed.
Lemma exec_quiet wrap (f : D -> result D) d s :
  statement_fault (tick s) = None -> f (db s) = Ok d -> exec wrap f s = (mkSession d (S (tick s)), Ok ()).
Proof. intros Hq Hf. apply statement_quiet; [done|]. by rewrite Hf. Qed.
Lemma bind_quiet {A B} (m : go D A) (k : A -> go D B) s s1 a : m s = (s1, Ok a) -> (m ≫= k) s = k a s1.
Proof. intros Hm. unfold mbind, go_bind. by rewrite Hm. Qed.
Lemma transaction_quiet {A} no_pool begun constraints (body : go D (finish A)) s s1 wrap a :
  statement_fault (tick s) = None -> statement_fault (tick s1) = None ->
  body (mkSession (db s) (S (tick s))) = (s1, Ok (Commit wrap a)) -> constraints (db s1) = true ->
  transaction true no_pool begun constraints body s = (mkSession (db s1) (S (tick s1)), Ok a).
Proof. intros Hq Hq1 Hb Hc. unfold transaction. cbn [negb]. by rewrite Hq, Hb, Hq1, Hc. Qed.

Lemma cast_Ok s c : cast s = Ok c <-> uuid_cast s = Some c.
Proof. unfold cast. destruct (uuid_cast s); split; intros [=]; by subst. Qed.

End runs.

(** What a store adds to the splitting below. *)
Ltac run_inv_hook := fail.

(** Split a successful run of a handler into the runs of its statements. *)
Ltac run_inv_step :=
  match goal with
  | H : (_ ≫= _) ?s = (_, Ok _) |- _ =>
      apply bind_run in H; let a := fresh "a" in let s1 := fresh "s" in let H1 := fresh "Hrun" in
      destruct H as (a & s1 & H1 & H); cbv beta iota zeta in H1, H
  | H : mret _ _ = (_, Ok _) |- _ => apply ret_run in H; destruct H as [-> ?]
  | H : lift _ _ = (_, Ok _) |- _ => apply lift_run in H; destruct H as [-> ?]
  | H : failing _ _ = (_, Ok _) |- _ => by apply failing_run in H
  | H : query _ _ _ = (_, Ok _) |- _ => apply query_run in H; destruct H
  | H : exec _ _ _ = (_, Ok _) |- _ => apply exec_run in H
  | H : now _ = (_, Ok _) |- _ => apply now_run in H; destruct H
  | H : new_uuid _ _ = (_, Ok _) |- _ => apply new_uuid_run in H
  | _ => run_inv_hook
  | H : (if ?b then _ else _) _ = (_, Ok _) |- _ => let E := fresh "Hc" in destruct b eqn:E
  | H : (match ?x with _ => _ end) _ = (_, Ok _) |- _ =>
      tryif is_var x then destruct x else (let E := fresh "Hm" in destruct x eqn:E)
  end.
Ltac run_inv := repeat run_inv_step.

Lemma scan_int32_Ok z u : scan_int32 z = Ok u -> -2147483648 <= z <= 2147483647.
Proof. unfold scan_int32. intros H. go_inv. apply orb_false_iff in Hok as [? ?]. bool_prop. lia. Qed.
Lemma scan_int64_Ok z u : scan_int64 z = Ok u -> u = z /\ int64 z.
Proof. unfold scan_int64. intros H. go_inv. by bool_prop. Qed.

