(* ===== verification/Keeping.v ===== *)
(** * Operations that keep a relation between database states

    [keeps R m] says whatever [m] returns, the database before and after are
    related by [R]; [stepping R m] says it of successful runs, which is what a
    transaction's body owes.  For a preorder [R] both compose along the monad,
    and the tactic [keeps] takes an operation apart into its statements. *)
From S2P Require Import Prelude GoStrings GoTime Events Dispatcher OutboxPG Float64 SQL.

Section keeping.
Context {E : environment} {D : Type} (R : relation D) `{!PreOrder R}.
#[local] Abbreviation go := (SQL.go D).

Definition keeps {A} (m : go A) : Prop := forall s s' r, m s = (s', r) -> R (db s) (db s').
Definition stepping {A} (m : go A) : Prop := forall s s' a, m s = (s', Ok a) -> R (db s) (db s').
(** From a given state of the tables. *)
Definition keeps_at (d0 : D) {A} (m : go A) : Prop := forall s s' r, db s = d0 -> m s = (s', r) -> R d0 (db s').

Lemma keeps_stepping {A} (m : go A) : keeps m -> stepping m.
Proof. intros Hm s s' a. apply Hm. Qed.
Lemma keeps_bind {A B} (m : go A) (k : A -> go B) : keeps m -> (forall a, keeps (k a)) -> keeps (m ≫= k).
Proof.
  intros Hm Hk s s' r. unfold mbind, go_bind. destruct (m s) as [s1 [a|e]] eqn:Em; apply Hm in Em.
  - intros H%Hk. by etrans.
  - by intros [= <- _].
Qed.
Lemma stepping_then {A B} (m : go A) (k : A -> go B) : stepping m -> (forall a, stepping (k a)) -> stepping (m ≫= k).
Proof. intros Hm Hk s s' b (a & s1 & H1%Hm & H2%Hk)%bind_run. by etrans. Qed.
Lemma keeps_lift {A} (r : result A) : keeps (lift r).
Proof. by intros s s' x [= <- _]. Qed.
Lemma keeps_ret {A} (a : A) : keeps (mret a).
Proof. by intros s s' x [= <- _]. Qed.
Lemma keeps_failing {A} e : keeps (failing (A := A) e).
Proof. apply keeps_lift. Qed.
Lemma keeps_statement {A} wrap (f : nat -> D -> result (D * A)) :
  (forall n d d' a, f n d = Ok (d', a) -> R d d') -> keeps (statement wrap f).
Proof.
  intros Hf s s' r. unfold statement. destruct (statement_fault (tick s)); [by intros [= <- _]|].
  destruct (f (tick s) (db s)) as [[d a]|e] eqn:Ef; [|by intros [= <- _]]. intros [= <- _]. by eapply Hf.
Qed.
Lemma keeps_query {A} wrap (f : D -> result A) : keeps (query wrap f).
Proof. apply keeps_statement. intros n d d' a H. go_inv. by simplify_eq. Qed.
Lemma keeps_exec wrap (f : D -> result D) : (forall d d', f d = Ok d' -> R d d') -> keeps (exec wrap f).
Proof. intros Hf. apply keeps_statement. intros n d d' a H. go_inv. simplify_eq. by apply Hf. Qed.
Lemma keeps_exec_fun wrap (f : D -> D) : (forall d, R d (f d)) -> keeps (exec wrap (fun d => Ok (f d))).
Proof. intros Hf. apply keeps_exec. by intros d d' [= <-]. Qed.
Lemma keeps_attempt {A} (m : go A) : keeps m -> keeps (attempt m).
Proof. intros Hm s s' r. unfold attempt. destruct (m s) as [s1 r1] eqn:Em. intros [= <- _]. by eapply Hm. Qed.
Lemma keeps_wrapped {A} w (m : go A) : keeps m -> keeps (wrapped w m).
Proof. intros Hm s s' r. unfold wrapped. destruct (m s) as [s1 r1] eqn:Em. intros [= <- _]. by eapply Hm. Qed.
Lemma keeps_now : keeps SQL.now.
Proof. by intros s s' r [= <- _]. Qed.
Lemma keeps_tx_now : keeps tx_now.
Proof. by intros s s' r [= <- _]. Qed.
Lemma keeps_new_uuid w : keeps (new_uuid w).
Proof. by intros s s' r [= <- _]. Qed.
Lemma keeps_transaction {A} pool e0 begun c (body : go (finish A)) : stepping body -> keeps (transaction pool e0 begun c body).
Proof.
  intros Hb s s' r [->|(s0 & s1 & wrap & a & Hs0 & Hrun & -> & _)]%transaction_run; [done|]. rewrite <- Hs0. by eapply Hb.
Qed.
Lemma keeps_fst {A} (m : go A) s : keeps m -> R (db s) (db (m s).1).
Proof. intros Hm. destruct (m s) as [s' r] eqn:Em. by eapply Hm. Qed.

Lemma keeps_at_keeps d0 {A} (m : go A) : keeps m -> keeps_at d0 m.
Proof. intros Hm s s' r <-. apply Hm. Qed.
Lemma keeps_at_statement_bind d0 {A B} wrap (f : nat -> D -> result (D * A)) (k : A -> go B) :
  (forall n d' a, f n d0 = Ok (d', a) -> R d0 d') -> (forall a, keeps (k a)) -> keeps_at d0 (statement wrap f ≫= k).
Proof.
  intros Hf Hk s s' r <-. unfold mbind, go_bind, statement. destruct (statement_fault (tick s)); [by intros [= <- _]|].
  destruct (f (tick s) (db s)) as [[d a]|e] eqn:Ef; [|by intros [= <- _]].
  intros H%Hk. cbn in H. etrans; [by eapply Hf|done].
Qed.

(** Running an operation from a given state: what it reads there is known to
    what follows. *)
Lemma keeps_from {A} (m : go A) : (forall d0, keeps_at d0 m) -> keeps m.
Proof. intros Hm s s' r. by apply Hm. Qed.
Definition reads {A} (m : go A) (P : D -> A -> Prop) : Prop :=
  forall s s' r, m s = (s', r) -> db s' = db s /\ forall a, r = Ok a -> P (db s) a.
Lemma reads_query {A} wrap (f : D -> result A) : reads (query wrap f) (fun d a => f d = Ok a).
Proof.
  intros s s' r H. split; [by eapply query_db|]. intros a ->. by apply query_run in H as [_ ?].
Qed.
Lemma reads_bind {A B} (m : go A) (k : A -> go B) P Q :
  reads m P -> (forall d a, P d a -> reads (k a) (fun d' b => d' = d -> Q d b)) -> reads (m ≫= k) Q.
Proof.
  intros Hm Hk s s' r. unfold mbind, go_bind. destruct (m s) as [s1 [a|e]] eqn:Em; apply Hm in Em as [E1 HP].
  - intros H. destruct (Hk _ _ (HP a eq_refl) _ _ _ H) as [E2 HQ]. split; [congruence|]. intros b Hb. by apply (HQ b).
  - intros [= <- <-]. by split.
Qed.
Lemma keeps_at_reads_bind d0 {A B} (m : go A) (k : A -> go B) P :
  reads m P -> (forall a, P d0 a -> keeps_at d0 (k a)) -> keeps_at d0 (m ≫= k).
Proof.
  intros Hm Hk s s' r <-. unfold mbind, go_bind. destruct (m s) as [s1 [a|e]] eqn:Em; apply Hm in Em as [E1 HP].
  - intros H. by eapply (Hk a); [apply HP| |exact H].
  - intros [= <- _]. by rewrite E1.
Qed.
Lemma keeps_at_query_bind d0 {A B} wrap (f : D -> result A) (k : A -> go B) :
  (forall a, f d0 = Ok a -> keeps_at d0 (k a)) -> keeps_at d0 (query wrap f ≫= k).
Proof. exact (keeps_at_reads_bind d0 _ k _ (reads_query wrap f)). Qed.
(** One statement that changes the tables, and what follows it. *)
Lemma keeps_at_exec_bind d0 {B} wrap (f : D -> result D) (k : unit -> go B) :
  (forall d', f d0 = Ok d' -> R d0 d' /\ keeps_at d' (k ())) -> keeps_at d0 (exec wrap f ≫= k).
Proof.
  intros Hf s s' r <-. unfold mbind, go_bind, exec, statement. destruct (statement_fault (tick s)); [by intros [= <- _]|].
  destruct (f (db s)) as [d'|e] eqn:Ef; [|by intros [= <- _]]. cbn. destruct (Hf d' eq_refl) as [HR Hk].
  intros H. etrans; [exact HR|]. by eapply Hk; [|exact H].
Qed.
End keeping.

Create HintDb keeps.
#[export] Hint Resolve keeps_lift keeps_ret keeps_failing keeps_query keeps_now keeps_tx_now keeps_new_uuid keeps_attempt keeps_wrapped
  keeps_at_keeps : keeps.

Ltac keeps_step :=
  match goal with
  | |- keeps _ (@mbind _ _ _ _ _ _) => refine (keeps_bind _ _ _ _ _); [|intros]
  | |- stepping _ (@mbind _ _ _ _ _ _) => refine (stepping_then _ _ _ _ _); [|intros]
  | |- _ (if ?b then _ else _) => destruct b
  | |- _ (let '_ := ?x in _) => destruct x
  | |- _ (match ?x with _ => _ end) => destruct x
  | |- _ => solve [auto with keeps typeclass_instances]
  | |- stepping _ _ => apply keeps_stepping
  end.
Ltac keeps := repeat keeps_step.
Ltac keeps_at_step :=
  match goal with
  | |- keeps_at _ _ (@mbind _ _ _ _ _ (query _ _)) => refine (keeps_at_query_bind _ _ _ _ _ _); intros
  | |- keeps_at _ _ (if ?b then _ else _) => let E := fresh "Hc" in destruct b eqn:E
  | |- keeps_at _ _ (let '_ := ?x in _) => destruct x
  | |- keeps_at _ _ (match ?x with _ => _ end) => let E := fresh "Hm" in destruct x eqn:E
  | |- keeps_at _ _ (failing _) => apply keeps_at_keeps; solve [auto with keeps]
  | |- keeps_at _ _ (mret _) => apply keeps_at_keeps; solve [auto with keeps]
  end.
Ltac keeps_at := repeat keeps_at_step.

(** * Publishing to the outbox inside a store's transaction

    [eventspg.Publish] of [OutboxPG] run on the open transaction of a session
    whose tables include the outbox. *)

(** A database with an outbox among its tables. *)
Class HasOutbox (D : Type) := {
  outbox_rows : D -> gmap string row;
  set_outbox_rows : gmap string row -> D -> D
}.

Definition publish_event {E : environment} {D} `{HasOutbox D} (maxAttempts : Z) (e : Envelope) : SQL.go D unit := fun s =>
  let '(o, r) := Publish e maxAttempts
      (OutboxPG.mkStore true (outbox_rows (db s)) ∅ (clock (tick s)) ∅ [statement_fault (tick s)]) in
  (SQL.mkSession (set_outbox_rows (rows o) (db s)) (S (tick s)), r).

(** A publication that succeeds adds a pending row for the envelope, unless
    the same fact is already there. *)
Lemma publish_event_run {E : environment} {D} `{HasOutbox D} n e s s' u :
  publish_event (D := D) n e s = (s', Ok u) ->
  Envelope_Validate e = Ok () /\
  ((db s' = set_outbox_rows (outbox_rows (db s)) (db s)
    /\ exists i r, outbox_rows (db s) !! i = Some r /\ same_fact (envelope r) e = true)
   \/ outbox_rows (db s) !! Env_ID e = None
      /\ exists r, envelope r = e /\ row_state r = OutboxPending
           /\ db s' = set_outbox_rows (<[Env_ID e := r]> (outbox_rows (db s))) (db s)).
Proof.
  unfold publish_event, Publish. cbn [OutboxPG.HasPool negb]. destruct (Envelope_Validate e) as [[]|]; [|done].
  destruct (_ || _); [done|]. unfold OutboxPG.statement. cbn [OutboxPG.HasPool negb head OutboxPG.faults].
  destruct (statement_fault (tick s)); [done|]. cbn. destruct (_ <? _); [done|].
  case_bool_decide as Hd; [intros [= <- _]; split; [done|left; split; [done|exact Hd]]|].
  case_bool_decide as Hn; [done|]. intros [= <- _]. split; [done|right]. apply eq_None_not_Some in Hn. split; [done|].
  eexists. split_and!; [| |reflexivity]; reflexivity.
Qed.

(** One that fails changes nothing. *)
Lemma publish_event_refused {E : environment} {D} `{HasOutbox D} n e s s' err :
  publish_event (D := D) n e s = (s', Err err) -> db s' = set_outbox_rows (outbox_rows (db s)) (db s).
Proof.
  unfold publish_event, Publish. cbn [OutboxPG.HasPool negb]. destruct (Envelope_Validate e) as [|]; [|by intros [= <- _]].
  destruct (_ || _); [by intros [= <- _]|]. unfold OutboxPG.statement. cbn [OutboxPG.HasPool negb head OutboxPG.faults].
  destruct (statement_fault (tick s)); [by intros [= <- _]|]. cbn. destruct (_ <? _); [by intros [= <- _]|].
  case_bool_decide; [done|]. case_bool_decide; [by intros [= <- _]|done].
Qed.
