(* ===== verification/Sample.v ===== *)
(** * A sample environment

    One that satisfies what is assumed of PostgreSQL and the platform, for the
    theorems on the stores to be instantiated at. *)
From S2P Require Import Prelude GoStrings GoTime Float64 SQL.

Definition sample_bytes (first : Z) (n : nat) : list Z :=
  [first; Z.of_nat n / 65536 mod 256; Z.of_nat n / 256 mod 256; Z.of_nat n mod 256] ++ replicate 12 0.

#[export] Instance sample : environment := {|
  uuid_cast s := if isUUID s then Some s else None;
  gen_uuid n := event_id (sample_bytes 1 n);
  random_bytes n := Some (sample_bytes 2 n);
  statement_fault _ := None;
  commit_strike _ := AfterReply;
  clock n := mkTime ((63900000000 + Z.of_nat n) * Second) true;
  map_order l := l;
  float_exp f := f;
  float_to_int64 _ := 0
|}.

#[export] Instance sample_ok : environment_ok sample.
Proof.
  split.
  - intros s c. cbn. destruct (isUUID s) eqn:Es; [|done]. intros [= <-]. by rewrite Es.
  - intros n buf [= <-]. split; [done|]. unfold sample_bytes. apply Forall_app. split.
    + repeat constructor; try apply Z.mod_pos_bound; lia.
    + apply Forall_replicate. lia.
  - intros l. done.
  - intros n. change (Microsecond <= (63900000000 + Z.of_nat n) * Second).
    unfold Second, Millisecond, Microsecond, Nanosecond. lia.
Qed.

(** Identifiers to write examples with. *)
Definition sid (last : string) : string := ("00000000-0000-4000-8000-00000000000" ++ last)%string.
Definition alice : string := sid "a".
Definition admin : string := sid "b".

(** A run by its outcome. *)
Lemma run_of {D A} (m : go D A) s r : (m s).2 = r -> m s = ((m s).1, r).
Proof. intros <-. apply surjective_pairing. Qed.

(** ** What holds of them *)
Definition pairwise {A} (R : A -> A -> bool) (m : gmap string A) : bool :=
  bool_decide (map_Forall (fun i x => map_Forall (fun j y => i = j \/ R x y = false) m) m).
Lemma pairwise_spec {A} (R : A -> A -> bool) m i j x y :
  pairwise R m = true -> m !! i = Some x -> m !! j = Some y -> R x y = true -> i = j.
Proof.
  unfold pairwise. intros H Hi Hj Hr. bool_prop. destruct (H i x Hi j y Hj) as [?|Hf]; [done|]. by rewrite Hr in Hf.
Qed.
