(* ===== verification/BettingDB.v ===== *)
(** * internal/bettingpg/store.go: the database of the betting store

    The tables the store reads and writes, its transactions with the deferred
    ledger constraints, and the queries and inserts every operation of the
    store shares, over the sessions of [SQL]. *)
From S2P Require Import Prelude GoStrings GoTime Ledger Events Betting Placement Settlement Float64 Parlay Dispatcher OutboxPG SQL Keeping.

(** ** Tables *)
Record UserRow := mkUserRow {
  display_name : string;
  user_email : string;
  user_status : string;
  credit_limit_cents : Z;
  wager_auto_approve_max_cents : option Z
}.
Record MarketRow := mkMarketRow {
  mr_market : Market;
  created_by : string;
  dynamic_pricing : bool;
  pricing_liquidity_cents : option Z;
  market_max_stake_cents : option Z;
  market_created_at : Time
}.
Record SelectionRow := mkSelectionRow {
  sr_selection : Selection;
  opening_american_odds : Z;
  selection_max_stake_cents : option Z;
  total_stake_cap_cents : option Z
}.
Record WagerRow := mkWagerRow {
  wr_wager : Wager;
  accepted_at : option Time;
  accepted_by : option string;
  acceptance_ledger_transaction_id : option string;
  rejected_by : option string;
  rejection_reason : option string
}.
(** One ledger transaction with its postings; an empty text is NULL. *)
Record LedgerRow := mkLedgerRow {
  lt_id : string;
  lt_transaction : Transaction;
  expected_posting_count : Z;
  lt_occurred_at : Time
}.
Record MarketSettlementRow := mkMarketSettlementRow {
  ms_id : string;
  ms_market_id : string;
  ms_version : Z;
  settlement_type : string;
  verified_result_id : string;
  settled_by : string;
  ms_reason : string;
  ms_idempotency_key : string;
  supersedes_settlement_id : string
}.
Record OutcomeRow := mkOutcomeRow {
  oc_settlement_id : string;
  oc_market_id : string;
  oc_selection_id : string;
  oc_outcome : SettlementResult;
  oc_dead_heat_divisor : Z
}.
Record WagerSettlementRow := mkWagerSettlementRow {
  wsr_settlement : WagerSettlement;
  wsr_ledger_transaction_id : string
}.
(** A parlay with its legs in [leg_index] order; a leg's NULL result is
    [no_result]. *)
Record ParlayDBRow := mkParlayDBRow {
  pr_parlay : Parlay;
  pr_accepted_by : option string;
  pr_acceptance_transaction_id : option string;
  pr_rejected_by : option string;
  pr_rejection_reason : option string
}.
Record ParlaySettlementRow := mkParlaySettlementRow {
  ps_parlay_id : string;
  ps_outcome : ParlayOutcome;
  ps_ledger_transaction_id : string
}.
Record PriceChangeRow := mkPriceChangeRow {
  pc_market_id : string;
  pc_selection_id : string;
  pc_trigger_wager_id : string;
  old_american_odds : Z;
  new_american_odds : Z;
  exposure_cents : Z;
  pc_actor_user_id : string;
  pc_reason : string
}.
Record RestrictionDBRow := mkRestrictionDBRow {
  restriction_reason : string;
  restricted_by : string;
  restricted_at : Time
}.
(** Accounts are keyed by their two partial unique indexes: owner (NULL for a
    system account), type and currency. *)
Abbreviation account_key := (option string * string * string)%type (only parsing).
(** Restrictions likewise: market, user, and the selection, NULL for a ban
    from the whole market. *)
Abbreviation restriction_key := (string * string * option string)%type (only parsing).

Record DB := mkDB {
  users : gmap string UserRow;
  markets : gmap string MarketRow;
  selections : gmap string SelectionRow;
  restrictions : gmap restriction_key RestrictionDBRow;
  wager_rows : gmap string WagerRow;
  accounts : gmap account_key string;
  ledger : list LedgerRow;
  market_settlements : list MarketSettlementRow;
  outcomes : list OutcomeRow;
  wager_settlements : list WagerSettlementRow;
  parlays : gmap string ParlayDBRow;
  parlay_settlements : list ParlaySettlementRow;
  price_changes : list PriceChangeRow;
  audit : list AuditRow;
  outbox : gmap string OutboxPG.row
}.

Definition with_markets x d := mkDB (users d) x (selections d) (restrictions d) (wager_rows d) (accounts d)
  (ledger d) (market_settlements d) (outcomes d) (wager_settlements d) (parlays d) (parlay_settlements d)
  (price_changes d) (audit d) (outbox d).
Definition with_selections x d := mkDB (users d) (markets d) x (restrictions d) (wager_rows d) (accounts d)
  (ledger d) (market_settlements d) (outcomes d) (wager_settlements d) (parlays d) (parlay_settlements d)
  (price_changes d) (audit d) (outbox d).
Definition with_restrictions x d := mkDB (users d) (markets d) (selections d) x (wager_rows d) (accounts d)
  (ledger d) (market_settlements d) (outcomes d) (wager_settlements d) (parlays d) (parlay_settlements d)
  (price_changes d) (audit d) (outbox d).
Definition with_wager_rows x d := mkDB (users d) (markets d) (selections d) (restrictions d) x (accounts d)
  (ledger d) (market_settlements d) (outcomes d) (wager_settlements d) (parlays d) (parlay_settlements d)
  (price_changes d) (audit d) (outbox d).
Definition with_accounts x d := mkDB (users d) (markets d) (selections d) (restrictions d) (wager_rows d) x
  (ledger d) (market_settlements d) (outcomes d) (wager_settlements d) (parlays d) (parlay_settlements d)
  (price_changes d) (audit d) (outbox d).
Definition with_ledger x d := mkDB (users d) (markets d) (selections d) (restrictions d) (wager_rows d) (accounts d)
  x (market_settlements d) (outcomes d) (wager_settlements d) (parlays d) (parlay_settlements d)
  (price_changes d) (audit d) (outbox d).
Definition with_market_settlements x d := mkDB (users d) (markets d) (selections d) (restrictions d) (wager_rows d)
  (accounts d) (ledger d) x (outcomes d) (wager_settlements d) (parlays d) (parlay_settlements d)
  (price_changes d) (audit d) (outbox d).
Definition with_outcomes x d := mkDB (users d) (markets d) (selections d) (restrictions d) (wager_rows d)
  (accounts d) (ledger d) (market_settlements d) x (wager_settlements d) (parlays d) (parlay_settlements d)
  (price_changes d) (audit d) (outbox d).
Definition with_wager_settlements x d := mkDB (users d) (markets d) (selections d) (restrictions d) (wager_rows d)
  (accounts d) (ledger d) (market_settlements d) (outcomes d) x (parlays d) (parlay_settlements d)
  (price_changes d) (audit d) (outbox d).
Definition with_parlays x d := mkDB (users d) (markets d) (selections d) (restrictions d) (wager_rows d)
  (accounts d) (ledger d) (market_settlements d) (outcomes d) (wager_settlements d) x (parlay_settlements d)
  (price_changes d) (audit d) (outbox d).
Definition with_parlay_settlements x d := mkDB (users d) (markets d) (selections d) (restrictions d) (wager_rows d)
  (accounts d) (ledger d) (market_settlements d) (outcomes d) (wager_settlements d) (parlays d) x
  (price_changes d) (audit d) (outbox d).
Definition with_price_changes x d := mkDB (users d) (markets d) (selections d) (restrictions d) (wager_rows d)
  (accounts d) (ledger d) (market_settlements d) (outcomes d) (wager_settlements d) (parlays d)
  (parlay_settlements d) x (audit d) (outbox d).
Definition with_audit x d := mkDB (users d) (markets d) (selections d) (restrictions d) (wager_rows d)
  (accounts d) (ledger d) (market_settlements d) (outcomes d) (wager_settlements d) (parlays d)
  (parlay_settlements d) (price_changes d) x (outbox d).
Definition with_outbox x d := mkDB (users d) (markets d) (selections d) (restrictions d) (wager_rows d)
  (accounts d) (ledger d) (market_settlements d) (outcomes d) (wager_settlements d) (parlays d)
  (parlay_settlements d) (price_changes d) (audit d) x.
#[export] Instance DB_outbox : HasOutbox DB := {| outbox_rows := outbox; set_outbox_rows := with_outbox |}.

(** ** The session *)
Abbreviation session := (SQL.session DB).
Abbreviation go := (SQL.go DB).

(** [betting.NewEventID()] *)
Definition NewEventID `{environment} : go ID := new_uuid "generate event id: %w".

(** ** Transactions *)

(** The deferred constraint triggers on the ledger: every transaction has the
    postings it announced, they sum to zero and stay in its currency, and a
    reversal is its original's account-by-account inverse. *)
Definition account_in (d : DB) (currency account : string) : bool :=
  bool_decide (map_Exists (fun (k : account_key) id => k.2 = currency /\ id = account) (accounts d)).
Definition find_transaction (id : string) (d : DB) : option LedgerRow :=
  list_find (fun r => lt_id r = id) (ledger d) ≫= fun p => Some p.2.
Definition inverse_of (ps qs : list Posting) : bool :=
  forallb (fun a => net a (ps ++ qs) =? 0) (AccountID <$> (ps ++ qs))
  && bool_decide (length ps = length qs).
Definition ledger_row_ok (d : DB) (r : LedgerRow) : bool :=
  let t := lt_transaction r in
  (Z.of_nat (length (Tx_Postings t)) =? expected_posting_count r)
  && (sumZ posting_cents (Tx_Postings t) =? 0)
  && forallb (fun p => account_in d (Tx_Currency t) (AccountID p)) (Tx_Postings t)
  && (if bool_decide (Tx_Type t = TransactionReversal) then
        match find_transaction (Tx_ReversalOf t) d with
        | Some o => bool_decide (Tx_Currency (lt_transaction o) = Tx_Currency t)
                    && inverse_of (Tx_Postings t) (Tx_Postings (lt_transaction o))
        | None => false
        end
      else true).
Definition deferred_constraints (d : DB) : bool := forallb (ledger_row_ok d) (ledger d).

(** The store: whether it has a pool, and its payout ceiling. *)
Record Store := mkStore { HasDB : bool; Store_MaxPayoutCents : Z }.

Definition DefaultMaxPayoutCents : Z := 500000.
Definition maxPayout (s : Store) : Z :=
  if 0 <? Store_MaxPayoutCents s then Store_MaxPayoutCents s else DefaultMaxPayoutCents.

Section transactions.
Context {E : environment}.

(** [s.begin], the body, and [tx.Commit] or the deferred [tx.Rollback]. *)
Definition in_tx {A} (st : Store) (body : go (finish A)) : go A :=
  transaction (HasDB st) (Errorf "bettingpg: PostgreSQL pool is required") id deferred_constraints body.
End transactions.

(** ** Errors of the store *)
Definition ErrNotFound := Sentinel "betting.ErrNotFound".
Definition ErrInsufficientFunds := Sentinel "bettingpg.ErrInsufficientFunds".
Definition ErrMarketNotSettleable := Sentinel "bettingpg.ErrMarketNotSettleable".
Definition ErrMarketDecided := Sentinel "bettingpg.ErrMarketDecided".
Definition ErrMarketNotOpenable := Sentinel "bettingpg.ErrMarketNotOpenable".
Definition ErrMatchMarketExists := Sentinel "bettingpg.ErrMatchMarketExists".
Definition ErrIdempotencyConflict := Sentinel "bettingpg.ErrIdempotencyConflict".


Definition maxOutboxAttempts : Z := 20.

(** The state column's text read back into the enumeration. *)
Definition parse_FundingAccountType_text (f : FundingAccountType) : string :=
  match f with FundingUserCash => "user_cash" | FundingUserFreePlay => "user_free_play" | FundingOther t => t end.

(** ** Loading rows *)
Section queries.
Context {E : environment}.

Definition scanMarket (row : option MarketRow) (marketID : string) : result Market :=
  match row with
  | None => Err (Wrapf "%w: market %s" ErrNotFound)
  | Some r =>
      let m := mr_market r in
      Ok (mkMarket marketID (Market_Type m) (MatchID m) (Title m) (Market_State m) (Market_Currency m)
            (timestamptz (OpensAt m)) (timestamptz (ClosesAt m)))
  end.

Definition select_market (marketID : string) : go (option MarketRow) :=
  query "load market %s: %w" (fun d => c ← cast marketID; Ok (markets d !! c)).

Definition loadMarket (marketID : string) : go Market :=
  row ← select_market marketID;
  lift (scanMarket row marketID).

(** [... FOR UPDATE]: transactions run one after another here, so the row lock
    shows in no result. *)
Definition loadMarketForUpdate (marketID : string) : go Market :=
  row ← select_market marketID;
  lift (scanMarket row marketID).

Definition marketStateForWager (marketID : string) : go MarketState :=
  query "load market %s state: %w" (fun d =>
    c ← cast marketID;
    row ← must_find (markets d !! c);
    Ok (Market_State (mr_market row))).

(** [WHERE market_id = $1 AND id = $2] *)
Definition selection_of (marketID selectionID : string) (d : DB) : option SelectionRow :=
  r ← selections d !! selectionID;
  if bool_decide (Selection_MarketID (sr_selection r) = marketID) then Some r else None.

Definition loadSelection (marketID selectionID : string) : go Selection :=
  row ← query "load selection %s: %w" (fun d =>
          m ← cast marketID;
          c ← cast selectionID;
          match selection_of m c d with
          | None => Ok None
          | Some r => scan_int32 (OfferedAmericanOdds (sr_selection r));; Ok (Some r)
          end);
  lift (match row with
        | None => Err (Wrapf "%w: selection %s" ErrNotFound)
        | Some r =>
            let x := sr_selection r in
            Ok (mkSelection selectionID marketID (Key x) (DisplayTerms x) (OfferedAmericanOdds x)
                  (SemanticResultKey x) (Active x))
        end).

(** The selections of a market, [ORDER BY id]. *)
Definition selections_of (marketID : string) (d : DB) : list Selection :=
  sort_by Selection_ID
    (List.filter (fun x => bool_decide (Selection_MarketID x = marketID))
       (sr_selection <$> (map_to_list (selections d)).*2)).

Definition set_Selection_MarketID (m : ID) (x : Selection) : Selection :=
  mkSelection (Selection_ID x) m (Key x) (DisplayTerms x) (OfferedAmericanOdds x) (SemanticResultKey x) (Active x).

Definition loadSelections (marketID : string) : go (list Selection * gmap string string) :=
  query "load selections for market %s: %w" (fun d =>
    c ← cast marketID;
    let found := selections_of c d in
    Ok (set_Selection_MarketID marketID <$> found,
        list_to_map ((fun x => (Selection_ID x, SemanticResultKey x)) <$> found))).

Definition restrictions_of (marketID : string) (d : DB) : list Restriction :=
  (fun kr : restriction_key * RestrictionDBRow =>
     mkRestriction kr.1.1.2 (default ""%string kr.1.2) (restriction_reason kr.2))
  <$> List.filter (fun kr : restriction_key * RestrictionDBRow => bool_decide (kr.1.1.1 = marketID))
        (map_to_list (restrictions d)).

Definition loadRestrictions (marketID : string) : go (list Restriction) :=
  query "load market restrictions for %s: %w" (fun d =>
    c ← cast marketID;
    Ok (restrictions_of c d)).

(** [wagerColumns] does not name [placed_by]. *)
Definition wagerRow (r : WagerRow) : Wager :=
  let w := wr_wager r in
  mkWager (Wager_ID w) (Wager_UserID w) (Wager_MarketID w) (Wager_SelectionID w) (Wager_Funding w)
    (Stake w) (AcceptedOdds w) (AcceptedTerms w) (PotentialProfit w) (Wager_State w) (IdempotencyKey w)
    ""%string (UTC (PlacedAt w)).

Definition loadWagerForUpdate (wagerID : string) : go Wager :=
  row ← query "load wager %s: %w" (fun d => c ← cast wagerID; Ok (wager_rows d !! c));
  lift (match row with
        | None => Err (Wrapf "%w: wager %s" ErrNotFound)
        | Some r => Ok (wagerRow r)
        end).

(** The wagers on a market, [ORDER BY id]. *)
Definition wagers_of (marketID : string) (d : DB) : list Wager :=
  sort_by Wager_ID
    (List.filter (fun w => bool_decide (Wager_MarketID w = marketID))
       (wagerRow <$> (map_to_list (wager_rows d)).*2)).

Definition loadWagersForMarketForUpdate (marketID : string) : go (list Wager) :=
  query "load wagers for market %s: %w" (fun d => c ← cast marketID; Ok (wagers_of c d)).

(** ** Ledger accounts, transactions and balances *)

(** The account types the schema lets a member own. *)
Definition member_account (type_ : string) : bool :=
  bool_decide (type_ = "user_cash"%string) || bool_decide (type_ = "user_free_play"%string).

(** The upsert on an account's unique index, returning the id of the row that
    was there or of the new one. *)
Definition upsert_account (k : account_key) (id : string) (d : DB) : result (DB * string) :=
  match accounts d !! k with
  | Some existing => Ok (d, existing)
  | None =>
      fail_if (bool_decide (map_Exists (fun _ other => other = id) (accounts d)))
        (Errorf "violates unique constraint");;
      Ok (with_accounts (<[k := id]> (accounts d)) d, id)
  end.

Definition ensureUserAccount (userID : string) (accountType : FundingAccountType) (currency : Currency) : go string :=
  statement "ensure user ledger account: %w" (fun n d =>
    owner ← cast userID;
    fail_if (bool_decide (users d !! owner = None)) (Errorf "violates foreign key constraint");;
    fail_if (negb (member_account (parse_FundingAccountType_text accountType))) (Errorf "violates check constraint");;
    upsert_account (Some owner, parse_FundingAccountType_text accountType, currency) (gen_uuid n) d).

Definition ensureSystemAccount (accountType : string) (currency : Currency) : go string :=
  statement "ensure system ledger account: %w" (fun n d =>
    upsert_account (None, accountType, currency) (gen_uuid n) d).

(** A header row: no postings yet. *)
Definition ledger_header (t : Transaction) (sourceID actor reversalOf : string) : Transaction :=
  mkTransaction (Tx_Type t) (Tx_Currency t) (Tx_IdempotencyKey t) actor (Tx_SourceType t) sourceID
    (Tx_Reason t) reversalOf [].

Definition insert_ledger_header (txn : Transaction) (actorUUID : string) (id : string) (at_ : Time) (d : DB)
    : result (DB * string) :=
  sourceID ← cast_opt (Tx_SourceID txn);
  actor ← cast_opt actorUUID;
  reversalOf ← cast_opt (Tx_ReversalOf txn);
  fail_if (existsb (fun r => bool_decide (lt_id r = id)
             || (bool_decide (Tx_Currency (lt_transaction r) = Tx_Currency txn)
                 && bool_decide (Tx_IdempotencyKey (lt_transaction r) = Tx_IdempotencyKey txn))
             || (negb (bool_decide (reversalOf = ""%string))
                 && bool_decide (Tx_ReversalOf (lt_transaction r) = reversalOf))) (ledger d))
    (Errorf "violates unique constraint");;
  fail_if (negb (bool_decide (reversalOf = ""%string)) && bool_decide (find_transaction reversalOf d = None))
    (Errorf "violates foreign key constraint");;
  Ok (with_ledger (ledger d ++ [mkLedgerRow id (ledger_header txn sourceID actor reversalOf)
                                  (Z.of_nat (ExpectedPostingCount txn)) (timestamptz at_)]) d, id).

Definition add_posting (p : Posting) (t : Transaction) : Transaction :=
  mkTransaction (Tx_Type t) (Tx_Currency t) (Tx_IdempotencyKey t) (Tx_Actor t) (Tx_SourceType t) (Tx_SourceID t)
    (Tx_Reason t) (Tx_ReversalOf t) (Tx_Postings t ++ [p]).

(** [INSERT INTO ledger_postings]: the account exists and is posted once. *)
Definition insert_posting (id : string) (p : Posting) (d : DB) : result DB :=
  fail_if (negb (bool_decide (map_Exists (fun _ account => account = AccountID p) (accounts d))))
    (Errorf "violates foreign key constraint");;
  fail_if (existsb (fun r => bool_decide (lt_id r = id)
             && bool_decide (AccountID p ∈ AccountID <$> Tx_Postings (lt_transaction r))) (ledger d))
    (Errorf "violates unique constraint");;
  Ok (with_ledger ((fun r => if bool_decide (lt_id r = id)
                             then mkLedgerRow (lt_id r) (add_posting p (lt_transaction r)) (expected_posting_count r) (lt_occurred_at r)
                             else r) <$> ledger d) d).

Fixpoint insert_postings (id : string) (postings : list Posting) : go unit :=
  match postings with
  | [] => mret ()
  | posting :: rest =>
      exec "insert ledger posting for transaction %s: %w" (insert_posting id posting);;
      insert_postings id rest
  end.

Definition insertLedgerTransaction (txn : Transaction) : go string :=
  let actorUUID := if isUUID (Tx_Actor txn) then Tx_Actor txn else ""%string in
  id ← statement "insert ledger transaction %s: %w" (fun n => insert_ledger_header txn actorUUID (gen_uuid n) (clock n));
  insert_postings id (Tx_Postings txn);;
  mret id.

(** [coalesce(sum(amount_cents), 0)] over an account's postings. *)
Definition all_postings (d : DB) : list Posting := ledger d ≫= fun r => Tx_Postings (lt_transaction r).
Definition balance_of (account : string) (d : DB) : Z := net account (all_postings d).

Definition accountBalance (accountID : string) : go Z :=
  query "read account %s balance: %w" (fun d => scan_int64 (balance_of accountID d)).

Definition lockAccount (accountID : string) : go unit :=
  query "lock account %s: %w" (fun d =>
    fail_if (negb (bool_decide (map_Exists (fun _ account => account = accountID) (accounts d)))) no_rows).

(** [eventspg.Publish] on the open transaction. *)
Definition publish (e : Envelope) : go unit := publish_event maxOutboxAttempts e.

(** [INSERT INTO audit_entries] *)
Definition insert_audit (wrap actor action target_type target reason : string)
    (before after : list (string * audit_value)) : go unit :=
  exec wrap (fun d =>
    a ← cast actor;
    t ← cast target;
    Ok (with_audit (audit d ++ [mkAuditRow a action target_type t reason before after]) d)).
End queries.

(** ** Running a session forwards *)
Section runs.
Context {E : environment}.

Lemma NewEventID_run s s' i : NewEventID s = (s', Ok i) -> db s' = db s.
Proof. apply new_uuid_run. Qed.

(** A transaction leaves the database as it was, or as its body left it. *)
Lemma in_tx_run {A} st (body : go (finish A)) s s' r :
  in_tx st body s = (s', r) ->
  db s' = db s
  \/ exists s0 s1 wrap a, db s0 = db s /\ body s0 = (s1, Ok (Commit wrap a)) /\ db s' = db s1
       /\ (r = Ok a \/ exists e, r = Err (Wrapf wrap e) /\ reply_lost (tick s1) e) /\ deferred_constraints (db s1) = true.
Proof. apply transaction_run. Qed.

Lemma in_tx_Ok {A} st (body : go (finish A)) s s' a :
  in_tx st body s = (s', Ok a) ->
  (exists s0 s1, db s0 = db s /\ db s' = db s /\ body s0 = (s1, Ok (Rollback a)))
  \/ exists s0 s1 wrap, db s0 = db s /\ body s0 = (s1, Ok (Commit wrap a)) /\ db s' = db s1.
Proof. apply transaction_Ok. Qed.
End runs.

#[global] Ltac run_inv_hook ::=
  match goal with
  | H : NewEventID _ = (_, Ok _) |- _ => apply NewEventID_run in H
  end.

Lemma isUUID_not_blank s : isUUID s = true -> is_blank s = false.
Proof.
  unfold isUUID. intros H. bool_prop. destruct s as [|a s]; [done|]. apply not_blank_plain.
  match goal with Hx : forallb _ _ = true |- _ => cbn in Hx end.
  match goal with Hx : _ && _ = true |- _ => apply andb_true_iff in Hx as [Ha _] end.
  unfold uuid_char in Ha. rewrite bool_decide_false in Ha by set_solver. by apply is_hex_plain.
Qed.

(** ** What the shared statements do *)
Section statements.
Context {E : environment}.

Lemma upsert_account_Ok k id d d' x :
  upsert_account k id d = Ok (d', x) ->
  accounts d' !! k = Some x
  /\ ((d' = d) \/ (d' = with_accounts (<[k := x]> (accounts d)) d /\ accounts d !! k = None
                   /\ forall k' y, accounts d !! k' = Some y -> y <> x)).
Proof.
  unfold upsert_account. destruct (accounts d !! k) as [e|] eqn:Ek; intros H; go_inv.
  - simplify_eq. auto.
  - simplify_eq. bool_prop. cbn. rewrite lookup_insert_eq. split; [done|]. right. split_and!; [done..|].
    intros k' y Hy ->. apply Hok. by exists k', x.
Qed.

Lemma loadWagerForUpdate_run id s s' w :
  loadWagerForUpdate id s = (s', Ok w) ->
  db s' = db s /\ exists c r, uuid_cast id = Some c /\ wager_rows (db s) !! c = Some r /\ w = wagerRow r.
Proof.
  unfold loadWagerForUpdate. intros H. run_inv. go_inv. apply cast_Ok in Hok. subst.
  destruct (wager_rows _ !! v) as [r|] eqn:Er; simplify_eq. naive_solver.
Qed.

(** Posting into the row just inserted. *)
Lemma insert_posting_last id p l row d d' :
  ledger d = l ++ [row] -> lt_id row = id -> Forall (fun r => lt_id r <> id) l ->
  insert_posting id p d = Ok d' ->
  d' = with_ledger (l ++ [mkLedgerRow id (add_posting p (lt_transaction row)) (expected_posting_count row) (lt_occurred_at row)]) d.
Proof.
  intros Hl Hid Hf H. unfold insert_posting in H. go_inv. f_equal. rewrite Hl, fmap_app. f_equal.
  - rewrite <- (list_fmap_id l) at 2. apply list_fmap_ext. intros i x Hx.
    rewrite bool_decide_false; [done|]. rewrite Forall_forall in Hf. eapply Hf, list_elem_of_lookup_2, Hx.
  - cbn. rewrite bool_decide_true by done. by subst.
Qed.

Fixpoint add_postings (ps : list Posting) (t : Transaction) : Transaction :=
  match ps with [] => t | p :: ps => add_postings ps (add_posting p t) end.

Lemma add_postings_eq ps t :
  add_postings ps t = mkTransaction (Tx_Type t) (Tx_Currency t) (Tx_IdempotencyKey t) (Tx_Actor t) (Tx_SourceType t)
    (Tx_SourceID t) (Tx_Reason t) (Tx_ReversalOf t) (Tx_Postings t ++ ps).
Proof.
  revert t. induction ps as [|p ps IH]; intros t; cbn; [destruct t; cbn; by rewrite app_nil_r|].
  rewrite IH. cbn. by rewrite <- app_assoc.
Qed.

Lemma insert_postings_run id ps s s' u l row :
  ledger (db s) = l ++ [row] -> lt_id row = id -> Forall (fun r => lt_id r <> id) l ->
  insert_postings id ps s = (s', Ok u) ->
  db s' = with_ledger (l ++ [mkLedgerRow id (add_postings ps (lt_transaction row)) (expected_posting_count row) (lt_occurred_at row)]) (db s).
Proof.
  revert s row. induction ps as [|p ps IH]; intros s row Hl Hid Hf H; cbn [insert_postings add_postings] in *.
  - run_inv. rewrite <- Hid. replace (mkLedgerRow _ _ _ _) with row by (by destruct row). rewrite <- Hl.
    by destruct (db s).
  - run_inv. eapply insert_posting_last in Hrun; [|done..].
    eapply IH in H; [|rewrite Hrun; reflexivity|done|done]. rewrite H, Hrun. done.
Qed.

(** The ledger gains exactly the given transaction. *)
Definition ledger_of (t : Transaction) (r : LedgerRow) : Prop :=
  Tx_Type (lt_transaction r) = Tx_Type t /\ Tx_Currency (lt_transaction r) = Tx_Currency t
  /\ Tx_IdempotencyKey (lt_transaction r) = Tx_IdempotencyKey t
  /\ Tx_SourceType (lt_transaction r) = Tx_SourceType t
  /\ Tx_Postings (lt_transaction r) = Tx_Postings t.

Lemma insertLedgerTransaction_run t s s' id :
  insertLedgerTransaction t s = (s', Ok id) ->
  exists r, db s' = with_ledger (ledger (db s) ++ [r]) (db s) /\ ledger_of t r /\ lt_id r = id
    /\ Forall (fun o => lt_id o <> id
                 /\ (Tx_Currency (lt_transaction o) = Tx_Currency t ->
                     Tx_IdempotencyKey (lt_transaction o) <> Tx_IdempotencyKey t)) (ledger (db s)).
Proof.
  unfold insertLedgerTransaction. intros H. run_inv. subst.
  apply statement_run in Hrun as (n & Hrun). unfold insert_ledger_header in Hrun. go_inv. simplify_eq.
  assert (Hf : Forall (fun o => lt_id o <> gen_uuid n
                 /\ (Tx_Currency (lt_transaction o) = Tx_Currency t ->
                     Tx_IdempotencyKey (lt_transaction o) <> Tx_IdempotencyKey t)) (ledger (db s))).
  { rewrite Forall_forall. intros o Ho.
    match goal with Hx : existsb _ (ledger (db s)) = false |- _ =>
      apply not_true_iff_false in Hx; rewrite existsb_exists in Hx; rename Hx into Hno end.
    split.
    - intros Heq. apply Hno. exists o. rewrite <- list_elem_of_In. split; [done|].
      by rewrite (bool_decide_true _ Heq).
    - intros Hc Hk. apply Hno. exists o. rewrite <- list_elem_of_In. split; [done|].
      rewrite (bool_decide_true _ Hc), (bool_decide_true _ Hk). apply orb_true_iff; left. apply orb_true_r. }
  match goal with Hx : with_ledger _ _ = db s0 |- _ => rename Hx into Hs0 end.
  eapply insert_postings_run in Hrun0; [|rewrite <- Hs0; reflexivity|done|by eapply Forall_impl; [exact Hf|naive_solver]].
  eexists. rewrite Hrun0, <- Hs0. split; [reflexivity|]. cbn [lt_id lt_transaction]. rewrite add_postings_eq.
  split; [done|]. split; [done|exact Hf].
Qed.
End statements.
