(* ===== verification/EventIDs.v ===== *)
(** * internal/betting/events.go: the identifiers the store draws

    [betting.NewEventID] sets the version and variant bits of sixteen random
    bytes and formats them; what it returns is a UUID the envelope of
    internal/events accepts. *)
From S2P Require Import Prelude GoStrings GoTime Ledger Events Betting Placement Settlement Float64 Parlay Dispatcher OutboxPG SQL BettingDB.

(** A property of every integer below a bound, by evaluation. *)
Lemma below_ind (P : Z -> bool) (m : nat) n :
  forallb P (Z.of_nat <$> seq 0 m) = true -> 0 <= n < Z.of_nat m -> P n = true.
Proof.
  intros H Hn. rewrite forallb_forall in H. apply H, list_elem_of_In, list_elem_of_fmap. exists (Z.to_nat n).
  split; [lia|]. apply elem_of_seq. lia.
Qed.

(** The two characters of a byte. *)
Lemma hex_byte_hex b : 0 <= b < 256 -> exists x y, hex_byte b = [x; y] /\ is_hex x = true /\ is_hex y = true.
Proof.
  intros Hb. exists (hex_digit (b / 16)), (hex_digit (b mod 16)). split; [done|]. apply andb_true_iff.
  apply (below_ind (fun b => is_hex (hex_digit (b / 16)) && is_hex (hex_digit (b mod 16))) 256); [by vm_compute|lia].
Qed.
Lemma version_byte b : 0 <= b < 256 ->
  exists y, hex_byte (Z.lor (Z.land b 15) 64) = ["4"%char; y] /\ is_hex y = true.
Proof.
  intros Hb. exists (hex_digit (Z.lor (Z.land b 15) 64 mod 16)).
  pose proof (below_ind (fun b => bool_decide (hex_digit (Z.lor (Z.land b 15) 64 / 16) = "4"%char)
    && is_hex (hex_digit (Z.lor (Z.land b 15) 64 mod 16))) 256 b ltac:(by vm_compute) ltac:(lia)) as H.
  cbv beta in H. bool_prop. unfold hex_byte. split; [congruence|done].
Qed.
Lemma variant_byte b : 0 <= b < 256 ->
  exists x y, hex_byte (Z.lor (Z.land b 63) 128) = [x; y] /\ x ∈ ["8"; "9"; "a"; "b"]%char /\ is_hex x = true /\ is_hex y = true.
Proof.
  intros Hb. exists (hex_digit (Z.lor (Z.land b 63) 128 / 16)), (hex_digit (Z.lor (Z.land b 63) 128 mod 16)).
  pose proof (below_ind (fun b => bool_decide (hex_digit (Z.lor (Z.land b 63) 128 / 16) ∈ ["8"; "9"; "a"; "b"]%char)
    && (is_hex (hex_digit (Z.lor (Z.land b 63) 128 / 16)) && is_hex (hex_digit (Z.lor (Z.land b 63) 128 mod 16)))) 256 b
    ltac:(by vm_compute) ltac:(lia)) as H.
  cbv beta in H. bool_prop. done.
Qed.

(** A version 4, variant 1 UUID in its 8-4-4-4-12 text form. *)
Definition uuid_v4 (s : string) : bool :=
  isUUID s && byte_at_is 14 "4" s && match byte_at 19 s with Some a => bool_decide (a ∈ ["8"; "9"; "a"; "b"]%char) | None => false end.

Lemma event_id_layout b0 b1 b2 b3 b4 b5 b6 b7 b8 b9 b10 b11 b12 b13 b14 b15 :
  event_id [b0; b1; b2; b3; b4; b5; b6; b7; b8; b9; b10; b11; b12; b13; b14; b15]
  = of_bytes (hex_byte b0 ++ hex_byte b1 ++ hex_byte b2 ++ hex_byte b3 ++ "-"%char :: hex_byte b4 ++ hex_byte b5
      ++ "-"%char :: hex_byte (Z.lor (Z.land b6 15) 64) ++ hex_byte b7
      ++ "-"%char :: hex_byte (Z.lor (Z.land b8 63) 128) ++ hex_byte b9
      ++ "-"%char :: hex_byte b10 ++ hex_byte b11 ++ hex_byte b12 ++ hex_byte b13 ++ hex_byte b14 ++ hex_byte b15).
Proof. reflexivity. Qed.

Lemma is_hex_dash a : is_hex a = true -> byte_is 45 a = false.
Proof.
  intros H. destruct (byte_is 45 a) eqn:E; [|done]. unfold byte_is in E. unfold is_hex, is_digit, between in H. bool_prop.
  exfalso. lia.
Qed.

Lemma filter_hex a l :
  is_hex a = true -> List.filter (fun a => negb (byte_is 45 a)) (a :: l) = a :: List.filter (fun a => negb (byte_is 45 a)) l.
Proof. intros H. cbn [List.filter]. by rewrite is_hex_dash. Qed.
Lemma filter_dash l :
  List.filter (fun a => negb (byte_is 45 a)) ("-"%char :: l) = List.filter (fun a => negb (byte_is 45 a)) l.
Proof. done. Qed.

Lemma hex_decodes_dashed l :
  hex_decodes (remove_dashes (of_bytes l))
  = Z.even (Z.of_nat (length (List.filter (fun a => negb (byte_is 45 a)) l)))
    && forallb is_hex (List.filter (fun a => negb (byte_is 45 a)) l).
Proof.
  unfold hex_decodes, remove_dashes, all_bytes. rewrite !bytes_of_bytes. do 2 f_equal. unfold len.
  f_equal. generalize (List.filter (fun a => negb (byte_is 45 a)) l). intros k. induction k as [|a k IH]; [done|]. cbn. by f_equal.
Qed.

Lemma event_id_v4 buf :
  length buf = 16%nat -> Forall (fun b => 0 <= b < 256) buf ->
  uuid_v4 (event_id buf) = true /\ validUUID (event_id buf) = true.
Proof.
  intros Hl Hf. do 16 (destruct buf as [|? buf]; [done|]). destruct buf; [|done].
  repeat match goal with H : Forall _ (_ :: _) |- _ => apply Forall_cons in H as [? H] end.
  rewrite event_id_layout.
  destruct (version_byte z5) as (y5 & -> & Hy5); [done|]. destruct (variant_byte z7) as (x7 & y7 & -> & Hx7 & Hx7' & Hy7); [done|].
  repeat match goal with Hz : 0 <= ?z < 256 |- context [hex_byte ?z] =>
    let x := fresh "x" in let y := fresh "y" in let Hx := fresh "Hx" in let Hy := fresh "Hy" in
    destruct (hex_byte_hex z Hz) as (x & y & -> & Hx & Hy); clear Hz end.
  clear Hf Hl. cbn [app]. split.
  - unfold uuid_v4. apply andb_true_iff. split; [apply andb_true_iff; split; [|done]|by apply bool_decide_eq_true].
    unfold isUUID. rewrite bytes_of_bytes. apply andb_true_iff. split; [done|].
    cbn. repeat (apply andb_true_iff; split; [first [assumption|reflexivity]|]). done.
  - unfold validUUID. rewrite hex_decodes_dashed. apply andb_true_iff. split; [done|].
    repeat first [rewrite filter_hex by assumption | rewrite filter_dash | rewrite (filter_hex "4") by done].
    change (List.filter _ []) with (@nil ascii).
    apply andb_true_iff. split; [done|]. cbn [forallb].
    repeat (apply andb_true_iff; split; [first [assumption|reflexivity]|]). done.
Qed.

(** Event identifiers are UUIDs.  Whatever bytes the platform draws, the
    identifier [NewEventID] returns is a version 4, variant 1 UUID in its
    8-4-4-4-12 lower-case text form, which the event envelope's own validation
    accepts; drawing one leaves the database alone, and fails only when the
    platform has no bytes. *)
Theorem new_ids_are_version_4 `{E : environment, !environment_ok E} s :
  (NewEventID s).1 = mkSession (db s) (S (tick s))
  /\ match (NewEventID s).2 with
     | Ok i => uuid_v4 i = true /\ validUUID i = true
     | Err _ => random_bytes (tick s) = None
     end.
Proof.
  unfold NewEventID, new_uuid. cbv zeta. destruct (random_bytes (tick s)) as [buf|] eqn:Eb; [|by rewrite ?Eb].
  cbn [fst snd]. split; [done|]. apply event_id_v4; by eapply random_full.
Qed.
