(* ===== verification/StoreSteps.v ===== *)
(** * The steps of the betting store

    Every committed operation of the store moves the database by a sequence of
    four kinds of steps: one that leaves the wagers and parlays alone, a
    placement, a change of one wager with its ledger transaction, and a change
    of one parlay with its own.  Here are those steps, the simulation of them
    by the book of [Book], and the rules by which an operation's statements
    are quiet. *)
From S2P Require Import Prelude GoStrings GoTime Ledger Events Betting Placement Settlement Corrections Book Float64 Parlay Dispatcher OutboxPG SQL Keeping BettingDB.

(** ** What the ledger holds for whom *)

(** The transactions of wagers: acceptance, refunds and market settlement. *)
Definition bet_type (t : TransactionType) : bool :=
  match t with
  | TransactionWagerAcceptance | TransactionWagerWin | TransactionWagerLoss | TransactionWagerRefund => true
  | _ => false
  end.
Definition wager_source (t : Transaction) : bool :=
  bet_type (Tx_Type t)
  && (bool_decide (Tx_SourceType t = "wager"%string) || bool_decide (Tx_SourceType t = "market_settlement"%string)).
Definition parlay_source (t : Transaction) : bool := bet_type (Tx_Type t) && bool_decide (Tx_SourceType t = "parlay"%string).

Definition book_row (cur : Currency) (r : LedgerRow) : bool :=
  wager_source (lt_transaction r) && bool_decide (Tx_Currency (lt_transaction r) = cur).
Definition parlay_row (cur : Currency) (r : LedgerRow) : bool :=
  parlay_source (lt_transaction r) && bool_decide (Tx_Currency (lt_transaction r) = cur).

Definition row_postings (r : LedgerRow) : list Posting := Tx_Postings (lt_transaction r).

(** The balances of the wager transactions of one currency. *)
Definition post_row (b : gmap string Z) (r : LedgerRow) : gmap string Z := post_all (row_postings r) b.
Definition book_balances (cur : Currency) (d : DB) : gmap string Z :=
  foldl post_row ∅ (List.filter (book_row cur) (ledger d)).

(** The wagers of one currency, as the store loads them. *)
Definition in_currency (cur : Currency) (r : WagerRow) : Prop := Money_Currency (Stake (wr_wager r)) = cur.
#[export] Instance in_currency_dec cur r : Decision (in_currency cur r).
Proof. unfold in_currency. apply _. Defined.
Definition book_wagers (cur : Currency) (d : DB) : gmap string Wager :=
  wagerRow <$> filter (fun kr => in_currency cur kr.2) (wager_rows d).

(** ** Accounts *)
(** The accounts of the book itself that its operations open. *)
Definition house_account (type_ : string) : Prop := type_ = "wager_escrow"%string \/ type_ = "house_clearing"%string.
Definition escrow_key (cur : Currency) : option string * string * string := (None, "wager_escrow"%string, cur).

Definition accounts_inj (d : DB) : Prop :=
  forall k k' id, accounts d !! k = Some id -> accounts d !! k' = Some id -> k = k'.

Record accounts_grow (d d' : DB) : Prop := {
  ag_subset : accounts d ⊆ accounts d';
  ag_inj : accounts_inj d -> accounts_inj d';
  ag_house : forall type_ cur id, accounts d' !! (None, type_, cur) = Some id ->
               accounts d !! (None, type_, cur) = Some id \/ house_account type_;
  ag_owned : forall owner type_ cur id, accounts d' !! (Some owner, type_, cur) = Some id ->
               accounts d !! (Some owner, type_, cur) = Some id \/ is_Some (users d !! owner) /\ member_account type_ = true;
  ag_users : users d' = users d
}.

(** [escrow] is the escrow account of a currency, once there is one. *)
Definition compat (escrow : string) (cur : Currency) (d : DB) : Prop :=
  forall id, accounts d !! escrow_key cur = Some id -> id = escrow.

#[export] Instance accounts_grow_refl : Reflexive accounts_grow.
Proof. split; [done..| | |done]; by left. Qed.
#[export] Instance accounts_grow_trans : Transitive accounts_grow.
Proof.
  intros d1 d2 d3 [S1 I1 K1 O1 U1] [S2 I2 K2 O2 U2]. split; [by etrans|auto| | |congruence].
  - intros t c i [H|H]%K2; [by apply K1|by right].
  - intros o t c i [H|H]%O2; [by apply O1|rewrite U1 in H; by right].
Qed.
Lemma accounts_grow_same d d' : accounts d' = accounts d -> users d' = users d -> accounts_grow d d'.
Proof. intros H Hu. split; unfold accounts_inj; rewrite ?H; auto. Qed.
#[export] Hint Extern 0 (accounts_grow _ _) => apply accounts_grow_same; reflexivity : core.

Lemma compat_mono escrow cur d d' : accounts_grow d d' -> compat escrow cur d' -> compat escrow cur d.
Proof. intros [Hs _] H id Hid. apply H. by eapply lookup_weaken. Qed.

(** ** Steps *)
Definition parlay_held (p : Parlay) : Z :=
  if bool_decide (Parlay_State p = WagerAccepted) then Cents (Parlay_Stake p) else 0.

(** Rows that are nobody's bet, the settle-ups and their reversals: they post
    to accounts other than an escrow account. *)
Definition off_escrow (d : DB) (p : Posting) : Prop :=
  exists k : option string * string * string,
    accounts d !! k = Some (AccountID p) /\ k.1.2 <> "wager_escrow"%string.
Definition plain_row (d : DB) (r : LedgerRow) : Prop :=
  wager_source (lt_transaction r) = false /\ parlay_source (lt_transaction r) = false
  /\ Forall (off_escrow d) (row_postings r).

Record quiet (d d' : DB) : Prop := {
  qu_wagers : wager_rows d' = wager_rows d;
  qu_parlays : parlays d' = parlays d;
  qu_ledger : exists l, ledger d' = ledger d ++ l /\ Forall (plain_row d') l;
  qu_accounts : accounts_grow d d'
}.

Record places (c : PlaceWagerCommand) (d d' : DB) : Prop := {
  pl_ints : command_ints c;
  pl_row : exists id r, PlaceWager c = Ok (wagerRow r) /\ Wager_ID (wr_wager r) = id
             /\ wager_rows d !! id = None /\ wager_rows d' = <[id := r]> (wager_rows d);
  pl_parlays : parlays d' = parlays d;
  pl_ledger : ledger d' = ledger d;
  pl_accounts : accounts_grow d d'
}.

Record changes_wager (id : string) (r r' : WagerRow) (ps : list Posting) (d d' : DB) : Prop := {
  cw_old : wager_rows d !! id = Some r;
  cw_new : wager_rows d' = <[id := r']> (wager_rows d);
  cw_terms : Wager_ID (wr_wager r') = Wager_ID (wr_wager r)
             /\ Money_Currency (Stake (wr_wager r')) = Money_Currency (Stake (wr_wager r));
  cw_op : forall escrow, compat escrow (Money_Currency (Stake (wr_wager r))) d' ->
            wager_op escrow (wagerRow r) (wagerRow r') ps;
  cw_ledger : exists l, ledger d' = ledger d ++ l
                /\ Forall (fun x => book_row (Money_Currency (Stake (wr_wager r))) x = true) l
                /\ (l ≫= row_postings) = ps /\ (length l <= 1)%nat;
  cw_parlays : parlays d' = parlays d;
  cw_accounts : accounts_grow d d'
}.

Record changes_parlay (id : string) (p' : ParlayDBRow) (d d' : DB) : Prop := {
  cp_new : parlays d' = <[id := p']> (parlays d);
  cp_old : match parlays d !! id with
           | Some p => Parlay_Stake (pr_parlay p') = Parlay_Stake (pr_parlay p)
           | None => parlay_held (pr_parlay p') = 0
           end;
  cp_ledger : exists l, ledger d' = ledger d ++ l
                /\ Forall (fun x => parlay_row (Money_Currency (Parlay_Stake (pr_parlay p'))) x = true) l
                /\ forall escrow, compat escrow (Money_Currency (Parlay_Stake (pr_parlay p'))) d' ->
                     net escrow (l ≫= row_postings)
                     = parlay_held (pr_parlay p') - default 0 ((fun p => parlay_held (pr_parlay p)) <$> parlays d !! id);
  cp_wagers : wager_rows d' = wager_rows d;
  cp_accounts : accounts_grow d d'
}.

Inductive store_step (d d' : DB) : Prop :=
  | step_quiet : quiet d d' -> store_step d d'
  | step_places c : places c d d' -> store_step d d'
  | step_changes_wager id r r' ps : changes_wager id r r' ps d d' -> store_step d d'
  | step_changes_parlay id p' : changes_parlay id p' d d' -> store_step d d'.

Definition store_steps : DB -> DB -> Prop := rtc store_step.

Lemma store_step_accounts d d' : store_step d d' -> accounts_grow d d'.
Proof. by intros [[] | ? [] | ? ? ? ? [] | ? ? []]. Qed.

Lemma store_steps_accounts d d' : store_steps d d' -> accounts_grow d d'.
Proof. induction 1 as [|x y z Hxy _ IH]; [done|]. etrans; [by apply store_step_accounts|done]. Qed.

(** ** The simulation *)

(** The book of one currency that a database holds. *)
Record holds_book (cur : Currency) (d : DB) (b : book) : Prop := {
  hb_wagers : wagers b = book_wagers cur d;
  hb_balances : balances b = book_balances cur d;
  hb_keys : forall id r, wager_rows d !! id = Some r -> Wager_ID (wr_wager r) = id
}.

Lemma book_row_wager cur r : book_row cur r = true -> wager_source (lt_transaction r) = true.
Proof. unfold book_row. intros H. by bool_prop. Qed.

Lemma filter_none {A} (p : A -> bool) l : Forall (fun x => p x = false) l -> List.filter p l = [].
Proof. induction 1 as [|x l Hx _ IH]; [done|]. cbn. by rewrite Hx. Qed.
Lemma filter_all {A} (p : A -> bool) l : Forall (fun x => p x = true) l -> List.filter p l = l.
Proof. induction 1 as [|x l Hx _ IH]; [done|]. cbn. by rewrite Hx, IH. Qed.

Lemma book_balances_other cur d d' l :
  ledger d' = ledger d ++ l -> Forall (fun r => book_row cur r = false) l ->
  book_balances cur d' = book_balances cur d.
Proof.
  intros Hl Hf. unfold book_balances. by rewrite Hl, List.filter_app, (filter_none _ l), app_nil_r.
Qed.

Lemma post_all_nil b : post_all [] b = b.
Proof. done. Qed.
Lemma post_all_app ps qs b : post_all (ps ++ qs) b = post_all ps (post_all qs b).
Proof. unfold post_all. by rewrite foldr_app. Qed.

Lemma book_balances_row cur d d' l ps :
  ledger d' = ledger d ++ l -> Forall (fun r => book_row cur r = true) l ->
  (l ≫= row_postings) = ps -> (length l <= 1)%nat ->
  book_balances cur d' = post_all ps (book_balances cur d).
Proof.
  intros Hl Hf Hps Hn. unfold book_balances. rewrite Hl, List.filter_app, (filter_all _ l), foldl_app by done.
  destruct l as [|r [|]]; cbn in *; [|rewrite app_nil_r in Hps|lia]; by subst.
Qed.

Lemma book_wagers_insert cur d d' id r :
  wager_rows d' = <[id := r]> (wager_rows d) ->
  book_wagers cur d' = if bool_decide (in_currency cur r) then <[id := wagerRow r]> (book_wagers cur d)
                       else delete id (book_wagers cur d).
Proof.
  intros H. unfold book_wagers. rewrite H. case_bool_decide as Hc.
  - by rewrite map_filter_insert_True, fmap_insert.
  - by rewrite map_filter_insert_False, map_filter_delete, fmap_delete.
Qed.

Lemma holds_book_keys_insert d d' id r :
  wager_rows d' = <[id := r]> (wager_rows d) -> Wager_ID (wr_wager r) = id ->
  (forall i x, wager_rows d !! i = Some x -> Wager_ID (wr_wager x) = i) ->
  forall i x, wager_rows d' !! i = Some x -> Wager_ID (wr_wager x) = i.
Proof. intros -> Hid H i x. rewrite lookup_insert_Some. intros [[<- <-]|[_ ?]]; [done|auto]. Qed.

Lemma wagers_of_currency cur d id r :
  wager_rows d !! id = Some r -> in_currency cur r -> book_wagers cur d !! id = Some (wagerRow r).
Proof. intros Hr Hc. unfold book_wagers. rewrite lookup_fmap, (map_lookup_filter_Some_2 _ _ _ r); done. Qed.

Lemma book_wagers_other cur d id r :
  wager_rows d !! id = Some r -> ~ in_currency cur r -> book_wagers cur d !! id = None.
Proof.
  intros Hr Hc. unfold book_wagers. rewrite lookup_fmap.
  destruct (filter _ _ !! id) as [x|] eqn:E; [|done]. apply map_lookup_filter_Some in E as [Hx ?]. simplify_eq. done.
Qed.

(** The diagram: a step of the store is a step of the book, or none. *)
Lemma store_step_simulated escrow cur d d' b :
  compat escrow cur d' -> store_step d d' -> holds_book cur d b ->
  exists b', rtc (book_step escrow cur) b b' /\ holds_book cur d' b'.
Proof.
  intros Hc Hstep [Hw Hb Hk]. destruct Hstep as [Hq|c Hp|id r r' ps Hch|id p' Hp].
  - destruct Hq as [Hw' _ (l & Hl & Hf) _]. exists b. split; [done|]. split.
    + rewrite Hw. unfold book_wagers. by rewrite Hw'.
    + rewrite Hb. symmetry. eapply book_balances_other; [done|]. eapply Forall_impl; [exact Hf|].
      intros x (Hx & _). unfold book_row. by rewrite Hx.
    + by rewrite Hw'.
  - destruct Hp as [Hi (id & r & Hpl & Hid & Hnew & Hins) _ Hl _].
    pose proof (book_wagers_insert cur d d' id r Hins) as Hbw.
    assert (Hbal : book_balances cur d' = book_balances cur d) by (unfold book_balances; by rewrite Hl).
    assert (Hkeys := holds_book_keys_insert d d' id r Hins Hid Hk).
    assert (Hnone : book_wagers cur d !! id = None).
    { unfold book_wagers. rewrite lookup_fmap. destruct (filter _ _ !! id) as [x|] eqn:Ex; [|done].
      apply map_lookup_filter_Some in Ex as [Hx _]. congruence. }
    case_bool_decide as Hcur.
    + exists (mkBook (<[id := wagerRow r]> (wagers b)) (balances b)). split.
      * apply rtc_once. rewrite <- Hid. apply (step_place escrow cur b c (wagerRow r)); [done| |done|].
        { apply PlaceWager_spec in Hpl as [_ Heq]; [|done].
          apply (f_equal (fun w => Money_Currency (Stake w))) in Heq. cbn in Heq. by rewrite <- Heq. }
        by rewrite Hw; change (Wager_ID (wagerRow r)) with (Wager_ID (wr_wager r)); rewrite Hid.
      * split; cbn; [by rewrite Hw, Hbw|congruence|done].
    + exists b. split; [done|]. split; [|congruence|done]. rewrite Hw, Hbw. by rewrite delete_id.
  - destruct Hch as [Hold Hins [Hid Hcur] Hop (l & Hl & Hf & Hps & Hn) _ _].
    pose proof (book_wagers_insert cur d d' id r' Hins) as Hbw.
    assert (Hkeys : forall i x, wager_rows d' !! i = Some x -> Wager_ID (wr_wager x) = i).
    { eapply holds_book_keys_insert; [done| |done]. rewrite Hid. by apply Hk. }
    case_bool_decide as Hc'.
    + assert (Hcr : Money_Currency (Stake (wr_wager r)) = cur) by (unfold in_currency in Hc'; congruence).
      rewrite Hcr in *. exists (mkBook (<[id := wagerRow r']> (wagers b)) (post_all ps (balances b))). split.
      * apply rtc_once. assert (Hid' : id = Wager_ID (wagerRow r')).
        { symmetry. apply Hkeys. rewrite Hins. apply lookup_insert_eq. }
        rewrite Hid' at 1. apply (step_wager escrow cur b (wagerRow r)); [|by apply Hop].
        rewrite Hw. apply wagers_of_currency; [|done]. change (Wager_ID (wagerRow r)) with (Wager_ID (wr_wager r)).
        by rewrite <- Hid, (Hkeys id r') by (rewrite Hins; apply lookup_insert_eq).
      * split; cbn; [by rewrite Hw, Hbw| |done]. rewrite Hb. symmetry. by eapply book_balances_row.
    + assert (Hcr : Money_Currency (Stake (wr_wager r)) <> cur) by (unfold in_currency in Hc'; congruence).
      exists b. split; [done|]. split; [|rewrite Hb; symmetry; eapply book_balances_other; [done|]|done].
      * rewrite Hw, Hbw, delete_id; [done|]. eapply book_wagers_other; [exact Hold|done].
      * eapply Forall_impl; [exact Hf|]. unfold book_row. intros x Hx. bool_prop.
        rewrite (bool_decide_false (Tx_Currency _ = cur)) by congruence. apply andb_false_r.
  - destruct Hp as [_ _ (l & Hl & Hf & _) Hw' _]. exists b. split; [done|]. split.
    + rewrite Hw. unfold book_wagers. by rewrite Hw'.
    + rewrite Hb. symmetry. eapply book_balances_other; [done|]. eapply Forall_impl; [exact Hf|].
      intros x Hx. unfold parlay_row, parlay_source in Hx. bool_prop. unfold book_row, wager_source.
      match goal with Hp : Tx_SourceType _ = _ |- _ => rewrite Hp end. by rewrite andb_false_r.
    + by rewrite Hw'.
Qed.

Lemma store_steps_simulated escrow cur d d' b :
  compat escrow cur d' -> store_steps d d' -> holds_book cur d b ->
  exists b', rtc (book_step escrow cur) b b' /\ holds_book cur d' b'.
Proof.
  intros Hc Hs. revert b Hc. induction Hs as [d|x y z Hxy Hyz IH]; intros b Hc Hb; [by exists b|].
  destruct (store_step_simulated escrow cur x y b) as (b1 & H1 & H2); [|done..|].
  - eapply compat_mono; [|exact Hc]. by apply store_steps_accounts.
  - destruct (IH b1 Hc H2) as (b2 & H3 & H4). exists b2. split; [by etrans|done].
Qed.

(** ** Quiet runs *)
Record accounts_only (d d' : DB) : Prop := {
  ao_wagers : wager_rows d' = wager_rows d;
  ao_parlays : parlays d' = parlays d;
  ao_ledger : ledger d' = ledger d;
  ao_accounts : accounts_grow d d'
}.
#[export] Instance accounts_only_refl : Reflexive accounts_only.
Proof. by split. Qed.
#[export] Instance accounts_only_trans : Transitive accounts_only.
Proof. intros d1 d2 d3 [] []. split; [congruence..|by etrans]. Qed.

Lemma accounts_only_quiet d d' : accounts_only d d' -> quiet d d'.
Proof. intros []. split; [done..| |done]. exists []. by rewrite app_nil_r. Qed.

#[export] Instance quiet_refl : Reflexive quiet.
Proof. intros d. by apply accounts_only_quiet. Qed.

Lemma plain_row_mono d d' r : accounts d ⊆ accounts d' -> plain_row d r -> plain_row d' r.
Proof.
  intros Hs (H1 & H2 & H3). split_and!; [done..|]. eapply Forall_impl; [exact H3|].
  intros p (k & Hk & Hne). exists k. split; [|done]. by eapply lookup_weaken.
Qed.

#[export] Instance quiet_trans : Transitive quiet.
Proof.
  intros d1 d2 d3 [W1 P1 (l1 & L1 & F1) A1] [W2 P2 (l2 & L2 & F2) A2].
  split; [congruence..| |by etrans]. exists (l1 ++ l2). split; [by rewrite L2, L1, app_assoc|].
  apply Forall_app; split; [|done]. eapply Forall_impl; [exact F1|]. intros r. apply plain_row_mono, A2.
Qed.

Section quiet_runs.
Context {E : environment}.

(** A statement or handler whose successful runs only open accounts. *)
Definition still_run {A} (m : go A) : Prop := forall s s' a, m s = (s', Ok a) -> accounts_only (db s) (db s').

Lemma still_ret {A} (a : A) : still_run (mret a).
Proof. intros s s' b H. by run_inv. Qed.
Lemma still_lift {A} (r : result A) : still_run (lift r).
Proof. intros s s' b H. by run_inv. Qed.
Lemma still_failing {A} e : still_run (failing (A := A) e).
Proof. intros s s' b H. by run_inv. Qed.
Lemma still_bind {A B} (m : go A) (k : A -> go B) :
  still_run m -> (forall a, still_run (k a)) -> still_run (m ≫= k).
Proof. intros Hm Hk s s' b H. run_inv. etrans; [by eapply Hm|by eapply Hk]. Qed.
Lemma still_query {A} w (f : DB -> result A) : still_run (query w f).
Proof. intros s s' a H. apply query_run in H as [-> _]. done. Qed.
Lemma still_now : still_run now.
Proof. intros s s' a [-> _]%now_run. done. Qed.
Lemma still_NewEventID : still_run NewEventID.
Proof. intros s s' a H. by rewrite (NewEventID_run _ _ _ H). Qed.
Lemma still_statement {A} w (f : nat -> DB -> result (DB * A)) :
  (forall n d d' a, f n d = Ok (d', a) -> accounts_only d d') -> still_run (statement w f).
Proof. intros Hf s s' a (n & H)%statement_run. by eapply Hf. Qed.
Lemma still_exec w (f : DB -> result DB) :
  (forall d d', f d = Ok d' -> accounts_only d d') -> still_run (exec w f).
Proof. intros Hf s s' a H%exec_run. by apply Hf. Qed.

Lemma upsert_account_grows k id d d' x :
  match k.1.1 with None => house_account k.1.2 | Some owner => is_Some (users d !! owner) /\ member_account k.1.2 = true end -> upsert_account k id d = Ok (d', x) -> accounts_only d d'.
Proof.
  intros Hk (_ & [->|(-> & Hn & Hx)])%upsert_account_Ok; [done|]. split; [done..|]. split; cbn.
  - by apply insert_subseteq.
  - intros Hi k1 k2 y. cbn. rewrite !lookup_insert_Some.
    intros [[<- <-]|[_ H1]] [[<- E2]|[_ H2]]; [done|by destruct (Hx _ _ H2)|by destruct (Hx _ _ H1)|by eapply Hi].
  - intros t c i. rewrite lookup_insert_Some. intros [[-> _]|[_ H]]; [by right|by left].
  - intros o t c i. rewrite lookup_insert_Some. intros [[-> _]|[_ H]]; [by right|by left].
  - done.
Qed.

Lemma still_ensureUserAccount u f c : still_run (ensureUserAccount u f c).
Proof. apply still_statement. intros n d d' a H. go_inv. bool_prop. eapply upsert_account_grows, H. split; [|done]. by destruct (users d !! v). Qed.
Lemma still_ensureSystemAccount t c : house_account t -> still_run (ensureSystemAccount t c).
Proof. intros Ht. apply still_statement. intros n d d' a H. by eapply upsert_account_grows, H. Qed.
Lemma house_escrow : house_account "wager_escrow". Proof. by left. Qed.
Lemma house_clearing : house_account "house_clearing". Proof. by right. Qed.

Lemma still_publish e : still_run (publish e).
Proof. intros s s' a. unfold publish, publish_event. destruct (Publish _ _ _) as [o r]. intros [= <- _]. done. Qed.

Lemma still_insert_audit w actor action tt target reason before after :
  still_run (insert_audit w actor action tt target reason before after).
Proof. apply still_exec. intros d d' H. go_inv. done. Qed.

(** A run of a whole operation, whatever its result. *)
Definition still_op {A} (m : go A) : Prop := forall s s' r, m s = (s', r) -> quiet (db s) (db s').

Lemma still_in_tx {A} st (body : go (finish A)) : still_run body -> still_op (in_tx st body).
Proof.
  intros Hb s s' r [->|(s0 & s1 & w & a & H0 & H1 & -> & _)]%in_tx_run; [done|].
  apply Hb in H1. rewrite <- H0. by apply accounts_only_quiet.
Qed.
Lemma still_op_failing {A} e : still_op (failing (A := A) e).
Proof. by intros s s' r [= <- _]. Qed.
Lemma still_op_ret {A} (a : A) : still_op (mret a).
Proof. by intros s s' r [= <- _]. Qed.
Lemma still_op_lift {A} (r : result A) : still_op (lift r).
Proof. by intros s s' x [= <- _]. Qed.
Lemma still_op_bind {A B} (m : go A) (k : A -> go B) :
  still_op m -> (forall a, still_op (k a)) -> still_op (m ≫= k).
Proof.
  intros Hm Hk s s' r. unfold mbind, go_bind. destruct (m s) as [s1 [a|e]] eqn:Em.
  - intros H. etrans; [by eapply Hm|by eapply Hk].
  - intros [= <- _]. by eapply Hm.
Qed.
Lemma still_op_query {A} w (f : DB -> result A) : still_op (query w f).
Proof.
  intros s s' r. unfold query, statement. destruct (statement_fault _); [by intros [= <- _]|].
  destruct (f (db s)); cbn; by intros [= <- _].
Qed.

(** What the account statements return. *)
Lemma ensureUserAccount_run u f c s s' id :
  ensureUserAccount u f c s = (s', Ok id) ->
  accounts_only (db s) (db s') /\ exists owner, accounts (db s') !! (Some owner, parse_FundingAccountType_text f, c) = Some id.
Proof.
  intros H. split; [by eapply still_ensureUserAccount|]. apply statement_run in H as (n & H). go_inv.
  apply upsert_account_Ok in H as [H _]. eauto.
Qed.
Lemma ensureSystemAccount_run t c s s' id : house_account t ->
  ensureSystemAccount t c s = (s', Ok id) ->
  accounts_only (db s) (db s') /\ accounts (db s') !! (None, t, c) = Some id.
Proof.
  intros Ht H. split; [by eapply still_ensureSystemAccount|]. apply statement_run in H as (n & H).
  by apply upsert_account_Ok in H as [H _].
Qed.
End quiet_runs.

Create HintDb still.
#[export] Hint Resolve still_ret still_lift still_failing still_query still_now still_NewEventID
  still_ensureUserAccount still_ensureSystemAccount house_escrow house_clearing still_publish still_insert_audit
  still_op_failing still_op_ret still_op_lift still_op_query : still.

(** Walk through a handler whose statements are all quiet. *)
Ltac still_step :=
  match goal with
  | |- still_run (_ ≫= _) => apply still_bind; [|intros]
  | |- still_run (let '_ := ?x in _) => destruct x
  | |- still_run (if ?b then _ else _) => destruct b
  | |- still_run (match ?x with _ => _ end) => destruct x
  | |- still_run (exec _ _) => apply still_exec; intros; go_inv; simplify_eq; by split
  | |- still_op (_ ≫= _) => apply still_op_bind; [|intros]
  | |- still_op (if ?b then _ else _) => destruct b
  | |- still_op (let '_ := ?x in _) => destruct x
  | |- still_op (in_tx _ _) => apply still_in_tx
  | |- _ => solve [auto with still]
  end.
Ltac still := repeat still_step.

(** The run in [H] only opened accounts, if its statements do. *)
Ltac still_in H :=
  match type of H with
  | ?k _ = _ => let Hst := fresh "Hst" in assert (Hst : still_run k); [still|apply Hst in H; clear Hst]
  end.

(** Facts about the statements a handler ran. *)
Ltac store_facts_step :=
  match goal with
  | H : ensureUserAccount _ _ _ _ = (_, Ok _) |- _ => apply ensureUserAccount_run in H as [? (? & ?)]
  | H : ensureSystemAccount _ _ _ = (_, Ok _) |- _ => apply ensureSystemAccount_run in H as [? ?]; [|first [exact house_escrow|exact house_clearing]]
  | H : insertLedgerTransaction _ _ = (_, Ok _) |- _ => apply insertLedgerTransaction_run in H as (? & ? & ? & ? & _)
  | H : publish _ _ = (_, Ok _) |- _ => apply still_publish in H
  | H : insert_audit _ _ _ _ _ _ _ _ _ = (_, Ok _) |- _ => apply still_insert_audit in H
  | H : lockAccount _ _ = (_, Ok _) |- _ => unfold lockAccount in H
  | H : accountBalance _ _ = (_, Ok _) |- _ => unfold accountBalance in H
  | H : marketStateForWager _ _ = (_, Ok _) |- _ => unfold marketStateForWager in H
  | H : query _ _ _ = (_, Ok _) |- _ => apply query_run in H as [? _]
  end.
Ltac store_facts := repeat store_facts_step.

(** Chain the statements that only open accounts, from the last one back. *)
Ltac still_chain :=
  lazymatch goal with
  | |- accounts_only ?d ?d => reflexivity
  | H : accounts_only ?x ?y |- accounts_only _ ?y => transitivity x; [clear H; still_chain|exact H]
  | H : db ?s' = ?x |- accounts_only _ (db ?s') => rewrite H; clear H; still_chain
  end.

(** A run that left the database alone. *)
Ltac no_steps := match goal with |- store_steps ?x ?y => replace y with x by congruence end; apply rtc_refl.
