(* ===== verification/PricingStore.v ===== *)
(** * internal/bettingpg: reprice.go and setline.go

    The offered line of a market follows the accepted stake on it, and an
    admin moves a line by its opening odds. *)
From S2P Require Import Prelude GoStrings GoTime Ledger Events Betting Placement Float64 Pricing SQL BettingDB StoreSteps.

Definition ErrMarketNotPriceable := Sentinel "bettingpg.ErrMarketNotPriceable".

Record priceMove := mkPriceMove {
  DynamicPricing : bool;
  LiquidityCents : Z;
  TriggerWagerID : string;
  PM_ActorUserID : string;
  PM_Reason : string
}.

Section pricing_store.
Context {E : environment}.
Implicit Types (marketID selectionID : string) (d : DB).

(** ** reprice.go *)

(** [ORDER BY id FOR UPDATE], each row's two prices validated as it is
    scanned: its id, opening and offered odds. *)
Fixpoint scan_prices (rows : list SelectionRow) : result (list (string * Z * Z)) :=
  match rows with
  | [] => Ok []
  | r :: rest =>
      wrap_err "scan selection for pricing: %w" (scan_int32 (opening_american_odds r));;
      wrap_err "scan selection for pricing: %w" (scan_int32 (OfferedAmericanOdds (sr_selection r)));;
      opening ← wrap_err "selection %s opening odds: %w" (NewAmericanOdds (opening_american_odds r));
      offered ← wrap_err "selection %s offered odds: %w" (NewAmericanOdds (OfferedAmericanOdds (sr_selection r)));
      prices ← scan_prices rest;
      Ok ((Selection_ID (sr_selection r), opening, offered) :: prices)
  end.

Definition selection_rows_of marketID d : list SelectionRow :=
  sort_by (fun r => Selection_ID (sr_selection r))
    (List.filter (fun r => bool_decide (Selection_MarketID (sr_selection r) = marketID))
       (map_to_list (selections d)).*2).

Definition lockSelectionsForPricing marketID : go (list (string * Z * Z)) :=
  found ← query "lock selections for market %s: %w" (fun d =>
            c ← cast marketID; Ok (selection_rows_of c d));
  lift (scan_prices found).

(** [sum(stake_cents) ... GROUP BY selection_id] over the accepted wagers. *)
Definition add_stake (w : Wager) (m : gmap string Z) : gmap string Z :=
  partial_alter (fun o => Some (default 0 o + Cents (Stake w))) (Wager_SelectionID w) m.
Definition accepted_on marketID d : list Wager :=
  List.filter (fun w => bool_decide (Wager_MarketID w = marketID) && bool_decide (Wager_State w = WagerAccepted))
    (wr_wager <$> (map_to_list (wager_rows d)).*2).
Definition accepted_stakes marketID d : gmap string Z := foldr add_stake ∅ (accepted_on marketID d).

Definition acceptedStakeBySelection marketID : go (gmap string Z) :=
  query "sum accepted stake for market %s: %w" (fun d =>
    c ← cast marketID;
    let stakes := accepted_stakes c d in
    fail_if (bool_decide (map_Exists (fun _ v => ~ int64 v) stakes)) (Errorf "cannot scan numeric into int64");;
    Ok stakes).

Definition stake_on (stakes : gmap string Z) (id : string) : Z := default 0 (stakes !! id).

Definition price_id (p : string * Z * Z) : string := p.1.1.
Definition price_opening (p : string * Z * Z) : Z := p.1.2.
Definition pricing_input (stakes : gmap string Z) (p : string * Z * Z) : SelectionInput :=
  mkSelectionInput (price_opening p) (stake_on stakes (price_id p)).

(** The line each selection should show: the engine's, or the opening line of
    a fixed-price market. *)
Definition target_odds (move : priceMove) (prices : list (string * Z * Z)) (stakes : gmap string Z)
    : result (list Z) :=
  if DynamicPricing move && (2 <=? Z.of_nat (length prices)) && (0 <? LiquidityCents move) then
    repriced ← wrap_err "reprice market %s: %w"
      (Reprice float_exp float_to_int64 (pricing_input stakes <$> prices) (LiquidityCents move));
    Ok (SR_Odds <$> (repriced : list SelectionResult))
  else Ok (price_opening <$> prices).

Definition set_offered (odds : Z) (x : Selection) : Selection :=
  mkSelection (Selection_ID x) (Selection_MarketID x) (Key x) (DisplayTerms x) odds (SemanticResultKey x) (Active x).
Definition alter_selection (f : SelectionRow -> SelectionRow) (id : string) d : DB :=
  with_selections (alter f id (selections d)) d.
Definition offer (odds : Z) (r : SelectionRow) : SelectionRow :=
  mkSelectionRow (set_offered odds (sr_selection r)) (opening_american_odds r) (selection_max_stake_cents r)
    (total_stake_cap_cents r).

(** [for i, id := range selectionIDs]: the new line and its audit row, for
    each price that actually moves. *)
Fixpoint move_prices marketID (move : priceMove) (stakes : gmap string Z)
    (prices : list ((string * Z * Z) * Z)) (changed : bool) : go bool :=
  match prices with
  | [] => mret changed
  | ((id, _, offered), target) :: rest =>
      if bool_decide (target = offered) then move_prices marketID move stakes rest changed
      else
        exec "update selection %s line: %w" (fun d => Ok (alter_selection (offer target) id d));;
        exec "record price change for selection %s: %w" (fun d =>
          m ← cast marketID;
          trigger ← cast_opt (TriggerWagerID move);
          actor ← cast_opt (PM_ActorUserID move);
          Ok (with_price_changes
                (price_changes d ++ [mkPriceChangeRow m id trigger offered target (stake_on stakes id)
                                       actor (PM_Reason move)]) d));;
        move_prices marketID move stakes rest true
  end.

Definition repriceInTx marketID (move : priceMove) : go bool :=
  prices ← lockSelectionsForPricing marketID;
  if bool_decide (prices = []) then mret false
  else
    stakes ← acceptedStakeBySelection marketID;
    target ← lift (target_odds move prices stakes);
    move_prices marketID move stakes (zip prices target) false.

(** [SELECT dynamic_pricing, coalesce(pricing_liquidity_cents, 0), state ... FOR UPDATE] *)
Definition pricing_config marketID : go (bool * Z * MarketState) :=
  row ← query "load market pricing config %s: %w" (fun d => c ← cast marketID; Ok (markets d !! c));
  lift (match row with
        | None => Err (Wrapf "%w: market %s" ErrNotFound)
        | Some r => Ok (dynamic_pricing r, default 0 (pricing_liquidity_cents r), Market_State (mr_market r))
        end).

Definition RepriceMarketAfterWager (st : Store) marketID (triggerWagerID : string) : go bool :=
  if negb (isUUID marketID) then failing (Wrapf "%w: reprice requires a market ID" ErrInvalid)
  else in_tx st (
    '(dynamicPricing, liquidityCents, state) ← pricing_config marketID;
    if negb dynamicPricing || negb (bool_decide (state = MarketOpen)) then mret (Rollback false)
    else
      changed ← repriceInTx marketID (mkPriceMove dynamicPricing liquidityCents triggerWagerID "" "");
      mret (Commit "commit reprice for market %s: %w" changed)).

(** ** setline.go *)
Definition open_or_draft (s : MarketState) : bool :=
  bool_decide (s = MarketOpen) || bool_decide (s = MarketDraft).

Definition reopen_at (odds : Z) (r : SelectionRow) : SelectionRow :=
  mkSelectionRow (sr_selection r) odds (selection_max_stake_cents r) (total_stake_cap_cents r).

(** [UPDATE selections ... WHERE id = $1 AND market_id = $2] and whether it
    affected a row. *)
Definition update_selection (wrap marketID selectionID : string) (f : SelectionRow -> SelectionRow) : go bool :=
  statement wrap (fun _ d =>
    c ← cast selectionID;
    m ← cast marketID;
    match selection_of m c d with
    | Some _ => Ok (alter_selection f c d, true)
    | None => Ok (d, false)
    end).

Definition SetOpeningLine (st : Store) marketID selectionID (odds : AmericanOdds)
    (actorUserID reason : string) : go bool :=
  if negb (isUUID marketID) || negb (isUUID selectionID)
  then failing (Wrapf "%w: setting a line requires a market and selection" ErrInvalid)
  else if negb (isUUID actorUserID) then failing ErrUnauthorized
  else
    lift (Odds_Validate odds);;
    let reason := TrimSpace reason in
    if bool_decide (reason = ""%string) then failing ErrReasonRequired
    else in_tx st (
      '(dynamicPricing, liquidityCents, state) ← pricing_config marketID;
      if negb (open_or_draft state) then failing (Wrapf "%w: market %s is %s" ErrMarketNotPriceable)
      else
        affected ← update_selection "set opening line for selection %s: %w" marketID selectionID (reopen_at odds);
        if negb affected then failing (Wrapf "%w: selection %s" ErrNotFound)
        else
          changed ← repriceInTx marketID (mkPriceMove dynamicPricing liquidityCents "" actorUserID reason);
          mret (Commit "commit hand-set line for market %s: %w" changed)).
End pricing_store.

(** ** Repricing touches no wager and no money *)
Section pricing_lemmas.
Context {E : environment}.

Lemma still_move_prices marketID move stakes prices changed :
  still_run (move_prices marketID move stakes prices changed).
Proof. revert changed. induction prices as [|[[[id o] f] t] rest IH]; intros changed; cbn [move_prices]; still; apply IH. Qed.
#[local] Hint Resolve still_move_prices : still.

Lemma still_repriceInTx marketID move : still_run (repriceInTx marketID move).
Proof. unfold repriceInTx, lockSelectionsForPricing, acceptedStakeBySelection. still. Qed.
#[local] Hint Resolve still_repriceInTx : still.

Lemma still_pricing_config marketID : still_run (pricing_config marketID).
Proof. unfold pricing_config. still. Qed.
#[local] Hint Resolve still_pricing_config : still.

Lemma still_update_selection w marketID selectionID f : still_run (update_selection w marketID selectionID f).
Proof.
  apply still_statement. intros n d d' a H. go_inv. destruct (selection_of _ _ _); simplify_eq; by split.
Qed.
#[local] Hint Resolve still_update_selection : still.

Lemma still_RepriceMarketAfterWager st marketID trigger : still_op (RepriceMarketAfterWager st marketID trigger).
Proof. unfold RepriceMarketAfterWager. still. Qed.
Lemma still_SetOpeningLine st marketID selectionID odds actor reason :
  still_op (SetOpeningLine st marketID selectionID odds actor reason).
Proof. unfold SetOpeningLine. still. Qed.
End pricing_lemmas.
#[export] Hint Resolve still_repriceInTx still_pricing_config still_update_selection
  still_RepriceMarketAfterWager still_SetOpeningLine : still.
