(* ===== verification/WagerStore.v ===== *)
(** * internal/bettingpg: place.go, accept.go, voidwager.go and reducewager.go

    The store's operations on one wager: each loads the rows the pure command
    of internal/betting needs, runs it, and writes the wager, the ledger
    transaction and the outbox event in one database transaction. *)
From S2P Require Import Prelude GoStrings GoTime Ledger Events Betting Placement Settlement Corrections Book SQL BettingDB StoreSteps PricingStore.

Definition AutoApproveActor : string := "system:auto-approve".
Definition CancelWagerReason : string := "Cancelled by the member before acceptance".
Definition ErrWagerNotReducible := Sentinel "bettingpg.ErrWagerNotReducible".

Record PlaceWagerRequest := mkPlaceWagerRequest {
  PWR_WagerID : string;
  PWR_UserID : string;
  PWR_MarketID : string;
  PWR_SelectionID : string;
  PWR_Funding : FundingAccountType;
  PWR_StakeCents : Z;
  PWR_Currency : Currency;
  PWR_IdempotencyKey : string;
  PlacedByUserID : string
}.

Record stakeLimits := mkStakeLimits {
  MarketMax : Z;
  MarketExisting : Z;
  SelectionMax : Z;
  SelectionExisting : Z;
  TotalCap : Z;
  TotalExisting : Z
}.

(** [state IN ('pending', 'accepted')] *)
Definition is_open_wager (w : Wager) : bool :=
  bool_decide (Wager_State w = WagerPending) || bool_decide (Wager_State w = WagerAccepted).

(** [coalesce(sum(stake_cents), 0) FROM wagers WHERE p AND state IN (...)] *)
Definition open_stake (p : Wager -> bool) (d : DB) : Z :=
  sumZ (fun w => Cents (Stake w))
    (List.filter (fun w => p w && is_open_wager w) (wr_wager <$> (map_to_list (wager_rows d)).*2)).

Definition set_wr_wager (w : Wager) (r : WagerRow) : WagerRow :=
  mkWagerRow w (accepted_at r) (accepted_by r) (acceptance_ledger_transaction_id r) (rejected_by r)
    (rejection_reason r).

Section wager_store.
Context {E : environment}.
Implicit Types (st : Store) (d : DB).

(** ** place.go *)
Definition loadStakeLimits (marketID selectionID userID : string) : go stakeLimits :=
  '(marketMax, selectionMax, totalCap) ← query "load stake limits: %w" (fun d =>
    m ← cast marketID;
    c ← cast selectionID;
    market ← must_find (markets d !! m);
    selection ← must_find (selection_of m c d);
    Ok (market_max_stake_cents market, selection_max_stake_cents selection, total_stake_cap_cents selection));
  marketExisting ← match marketMax with
    | None => mret 0
    | Some _ => query "load member stake on market: %w" (fun d =>
        m ← cast marketID;
        u ← cast userID;
        scan_int64 (open_stake (fun w => bool_decide (Wager_MarketID w = m) && bool_decide (Wager_UserID w = u)) d))
    end;
  selectionExisting ← match selectionMax with
    | None => mret 0
    | Some _ => query "load member stake on selection: %w" (fun d =>
        c ← cast selectionID;
        u ← cast userID;
        scan_int64 (open_stake (fun w => bool_decide (Wager_SelectionID w = c) && bool_decide (Wager_UserID w = u)) d))
    end;
  totalExisting ← match totalCap with
    | None => mret 0
    | Some _ => query "load book stake on selection: %w" (fun d =>
        c ← cast selectionID;
        scan_int64 (open_stake (fun w => bool_decide (Wager_SelectionID w = c)) d))
    end;
  mret (mkStakeLimits (default 0 marketMax) marketExisting (default 0 selectionMax) selectionExisting
          (default 0 totalCap) totalExisting).

(** The wager as its row keeps it. *)
Definition stored_wager (w : Wager) (id user market selection placedBy : string) : Wager :=
  mkWager id user market selection (Wager_Funding w) (Stake w) (AcceptedOdds w) (AcceptedTerms w)
    (PotentialProfit w) (Wager_State w) (IdempotencyKey w) placedBy (timestamptz (PlacedAt w)).

Definition same_key (user key : string) (r : WagerRow) : bool :=
  bool_decide (Wager_UserID (wr_wager r) = user) && bool_decide (IdempotencyKey (wr_wager r) = key).

(** [INSERT INTO wagers ... ON CONFLICT (user_id, idempotency_key) DO NOTHING]
    with its primary key and its references to the member, to a selection of
    the market, to the market's currency and to the placing admin. *)
Definition insert_wager (w : Wager) (d : DB) : result DB :=
  id ← cast (Wager_ID w);
  user ← cast (Wager_UserID w);
  market ← cast (Wager_MarketID w);
  selection ← cast (Wager_SelectionID w);
  placedBy ← cast_opt (PlacedBy w);
  if bool_decide (map_Exists (fun _ r => same_key user (IdempotencyKey w) r = true) (wager_rows d)) then Ok d
  else
    fail_if (negb (bool_decide (wager_rows d !! id = None))) (Errorf "violates unique constraint");;
    fail_if (bool_decide (users d !! user = None)
             || bool_decide (selection_of market selection d = None)
             || negb (bool_decide ((fun r => Market_Currency (mr_market r)) <$> markets d !! market
                                   = Some (Money_Currency (Stake w))))
             || (negb (bool_decide (placedBy = ""%string)) && bool_decide (users d !! placedBy = None)))
      (Errorf "violates foreign key constraint");;
    Ok (with_wager_rows
          (<[id := mkWagerRow (stored_wager w id user market selection placedBy) None None None None None]>
             (wager_rows d)) d).

(** [WHERE user_id = $1 AND idempotency_key = $2] finds at most one row. *)
Definition loadWagerByUserIdempotencyKey (userID key : string) : go Wager :=
  row ← query "load placed wager: %w" (fun d =>
          u ← cast userID;
          Ok (head (List.filter (same_key u key) (map_to_list (wager_rows d)).*2)));
  lift (match row with
        | None => Err (Wrapf "%w: placed wager was not found after insert" ErrNotFound)
        | Some r => Ok (wagerRow r)
        end).

(** The stored row describes the requested wager. *)
Definition same_request (stored wager : Wager) : bool :=
  bool_decide (Wager_MarketID stored = Wager_MarketID wager)
  && bool_decide (Wager_SelectionID stored = Wager_SelectionID wager)
  && bool_decide (Stake stored = Stake wager)
  && bool_decide (AcceptedOdds stored = AcceptedOdds wager)
  && bool_decide (Wager_Funding stored = Wager_Funding wager).

Definition Store_PlaceWager st (req : PlaceWagerRequest) : go Wager :=
  in_tx st (
    market ← loadMarket (PWR_MarketID req);
    selection ← loadSelection (PWR_MarketID req) (PWR_SelectionID req);
    restricted ← loadRestrictions (PWR_MarketID req);
    limits ← loadStakeLimits (PWR_MarketID req) (PWR_SelectionID req) (PWR_UserID req);
    stake ← lift (wrap_err "build stake: %w" (NewMoney (PWR_StakeCents req) (PWR_Currency req)));
    instant ← now;
    wager ← lift (PlaceWager (mkPlaceWagerCommand (PWR_WagerID req) (PWR_UserID req) market selection restricted
                     (MarketMax limits) (MarketExisting limits) (SelectionMax limits) (SelectionExisting limits)
                     (TotalCap limits) (TotalExisting limits) (maxPayout st) (PlacedByUserID req)
                     (PWR_Funding req) stake (PWR_IdempotencyKey req) instant));
    exec "insert wager: %w" (insert_wager wager);;
    stored ← loadWagerByUserIdempotencyKey (Wager_UserID wager) (IdempotencyKey wager);
    if negb (same_request stored wager)
    then failing (Wrapf "%w: wager idempotency key %q" ErrIdempotencyConflict)
    else mret (Commit "commit place wager: %w" stored)).

(** ** accept.go *)
Definition AutoApproveLimitForUser st (userID : string) : go (Z * bool) :=
  if negb (HasDB st) then failing (Errorf "bettingpg: PostgreSQL pool is required")
  else if negb (isUUID userID) then failing (Wrapf "%w: auto-approve limit requires a user ID" ErrInvalid)
  else
    row ← query "load auto-approve limit: %w" (fun d => u ← cast userID; Ok (users d !! u));
    lift (match row with
          | None => Err (Wrapf "%w: user %s" ErrNotFound)
          | Some r => match wager_auto_approve_max_cents r with
                      | None => Ok (0, false)
                      | Some limit => Ok (limit, true)
                      end
          end).

(** The cents of the postings that satisfy [p], over the transactions that
    satisfy [q]. *)
Definition posted_where (q : Transaction -> bool) (d : DB) : list Z :=
  (ledger d ≫= fun r => if q (lt_transaction r) then posting_cents <$> Tx_Postings (lt_transaction r) else []).
Definition sum_where (p : Z -> bool) (cents : list Z) : Z := sumZ id (List.filter p cents).

Definition reducedCents (wager : Wager) : go Z :=
  query "total wager reductions: %w" (fun d =>
    scan_int64 (sum_where (Z.ltb 0)
      (posted_where (fun t => bool_decide (Tx_Currency t = Money_Currency (Stake wager))
                       && String.prefix ("wager:" ++ Wager_ID wager ++ ":reduce:") (Tx_IdempotencyKey t)) d))).

Definition verifyAcceptance (wager : Wager) : go unit :=
  '(count, userAmount, escrowAmount) ← query "verify wager acceptance transaction: %w" (fun d =>
    let cents := posted_where (fun t => bool_decide (Tx_Currency t = Money_Currency (Stake wager))
                   && bool_decide (Tx_IdempotencyKey t = acceptance_key (Wager_ID wager))) d in
    user ← scan_int64 (sum_where (fun z => z <? 0) cents);
    escrow ← scan_int64 (sum_where (Z.ltb 0) cents);
    Ok (Z.of_nat (length cents), user, escrow));
  refunded ← reducedCents wager;
  let held := wrap64 (Cents (Stake wager) + refunded) in
  lift (fail_if (negb (count =? 2) || negb (wrap64 (- userAmount) =? held) || negb (escrowAmount =? held))
    (Wrapf "%w: accepted wager %s acceptance transaction does not match its stake" ErrIdempotencyConflict)).

Definition creditLimitForUser (userID : string) : go Z :=
  query "load credit limit: %w" (fun d =>
    u ← cast userID;
    r ← must_find (users d !! u);
    Ok (credit_limit_cents r)).

(** [UPDATE wagers SET ... WHERE id = $1 AND cond] and whether it affected a
    row. *)
Definition update_wager (wrap wagerID : string) (cond : Wager -> bool) (f : WagerRow -> result WagerRow) : go bool :=
  statement wrap (fun _ d =>
    c ← cast wagerID;
    match wager_rows d !! c with
    | Some r => if cond (wr_wager r)
                then r' ← f r; Ok (with_wager_rows (<[c := r']> (wager_rows d)) d, true)
                else Ok (d, false)
    | None => Ok (d, false)
    end).

Definition in_state (s : WagerState) (w : Wager) : bool := bool_decide (Wager_State w = s).

(** The three final states [AcceptWager] and [ReduceWager] refuse. *)
Definition decided (s : MarketState) : bool :=
  bool_decide (s = MarketSettled) || bool_decide (s = MarketVoided) || bool_decide (s = MarketCancelled).

Definition accept_row (at_ : Time) (acceptedBy transactionID : string) (r : WagerRow) : result WagerRow :=
  by_ ← cast_opt acceptedBy;
  Ok (mkWagerRow (set_Wager_State WagerAccepted (wr_wager r)) (Some at_)
        (if bool_decide (by_ = ""%string) then None else Some by_) (Some transactionID) (rejected_by r)
        (rejection_reason r)).

Definition Store_AcceptWager st (wagerID actorUserID : string) : go Wager :=
  in_tx st (
    wager ← loadWagerForUpdate wagerID;
    if bool_decide (Wager_State wager = WagerAccepted) then
      verifyAcceptance wager;;
      mret (Commit "commit accept wager (idempotent): %w" wager)
    else
      marketState ← marketStateForWager (Wager_MarketID wager);
      if decided marketState then failing (Wrapf "%w: market is already %s" ErrMarketDecided)
      else
        userAccountID ← ensureUserAccount (Wager_UserID wager) (Wager_Funding wager) (Money_Currency (Stake wager));
        escrowAccountID ← ensureSystemAccount "wager_escrow" (Money_Currency (Stake wager));
        ensureSystemAccount "house_clearing" (Money_Currency (Stake wager));;
        lockAccount userAccountID;;
        balance ← accountBalance userAccountID;
        creditLimit ← creditLimitForUser (Wager_UserID wager);
        if wrap64 (balance + creditLimit) <? Cents (Stake wager) then failing ErrInsufficientFunds
        else
          eventID ← NewEventID;
          instant ← now;
          let acceptedAt := UTC instant in
          accepted ← lift (AcceptWager wager actorUserID acceptedAt
                             (mkAcceptanceAccountRefs userAccountID escrowAccountID) eventID);
          transactionID ← insertLedgerTransaction (AWR_Transaction accepted);
          let acceptedBy := if isUUID actorUserID then actorUserID else ""%string in
          affected ← update_wager "update wager to accepted: %w" wagerID (in_state WagerPending)
                       (accept_row acceptedAt acceptedBy transactionID);
          if negb affected then failing (Errorf "update wager %s to accepted: wager was not pending")
          else
            publish (AWR_Event accepted);;
            mret (Commit "commit accept wager: %w" (AWR_Wager accepted))).

Definition reject_row (actor reason : string) (r : WagerRow) : result WagerRow :=
  by_ ← cast actor;
  Ok (mkWagerRow (set_Wager_State WagerRejected (wr_wager r)) (accepted_at r) (accepted_by r)
        (acceptance_ledger_transaction_id r) (Some by_) (Some reason)).

Definition load_rejection_reason (wagerID : string) : go string :=
  query "load existing rejection: %w" (fun d =>
    c ← cast wagerID;
    r ← must_find (wager_rows d !! c);
    Ok (default ""%string (rejection_reason r))).

Definition Store_RejectWager st (wagerID actorUserID reason : string) : go Wager :=
  in_tx st (
    wager ← loadWagerForUpdate wagerID;
    if bool_decide (Wager_State wager = WagerRejected) then
      storedReason ← load_rejection_reason wagerID;
      if negb (bool_decide (TrimSpace storedReason = TrimSpace reason))
      then failing (Wrapf "%w: wager %s rejection reason does not match" ErrIdempotencyConflict)
      else mret (Commit "commit reject wager (idempotent): %w" wager)
    else
      rejected ← lift (RejectWager wager actorUserID reason);
      affected ← update_wager "update wager to rejected: %w" wagerID (in_state WagerPending)
                   (reject_row actorUserID (TrimSpace reason));
      if negb affected then failing (Errorf "update wager %s to rejected: wager was not pending")
      else mret (Commit "commit reject wager: %w" rejected)).

Definition Store_CancelWager st (wagerID userID : string) : go Wager :=
  if negb (isUUID userID) then failing (Wrapf "%w: cancelling a wager requires a user ID" ErrInvalid)
  else in_tx st (
    wager ← loadWagerForUpdate wagerID;
    if negb (bool_decide (Wager_UserID wager = userID)) then failing (Wrapf "%w: wager %s" ErrNotFound)
    else if bool_decide (Wager_State wager = WagerRejected) then
      storedReason ← load_rejection_reason wagerID;
      if negb (bool_decide (TrimSpace storedReason = CancelWagerReason))
      then failing (Wrapf "%w: wager %s was rejected by the book, not cancelled" ErrIdempotencyConflict)
      else mret (Commit "commit cancel wager (idempotent): %w" wager)
    else
      cancelled ← lift (CancelWager wager userID);
      affected ← update_wager "update wager to cancelled: %w" wagerID
                   (fun w => bool_decide (cast userID = Ok (Wager_UserID w)) && in_state WagerPending w)
                   (reject_row userID CancelWagerReason);
      if negb affected then failing (Wrapf "%w: wager %s is no longer pending" ErrInvalidTransition)
      else mret (Commit "commit cancel wager: %w" cancelled)).

(** ** voidwager.go *)
Definition transaction_exists (wrap : string) (currency : Currency) (key : string) : go bool :=
  query wrap (fun d => Ok (existsb (fun r => bool_decide (Tx_Currency (lt_transaction r) = currency)
                             && bool_decide (Tx_IdempotencyKey (lt_transaction r) = key)) (ledger d))).

(** Run a repricing whose failure must not undo what is committed. *)
Definition reprice_quietly st (marketID wagerID : string) : go unit := fun s =>
  ((RepriceMarketAfterWager st marketID wagerID s).1, Ok ()).

(** The transaction of [VoidWager], and whether it voided the wager now rather
    than finding it voided. *)
Definition void_wager_tx st (wagerID actorUserID reason : string) : go (Wager * bool) :=
  in_tx st (
    wager ← loadWagerForUpdate wagerID;
    alreadyRefunded ← (if bool_decide (Wager_State wager = WagerVoided)
                       then transaction_exists "check existing wager void: %w" (Money_Currency (Stake wager))
                              (VoidIdempotencyKey (Wager_ID wager))
                       else mret false);
    if (alreadyRefunded : bool) then mret (Commit "commit wager void (idempotent): %w" (wager, false))
    else
      userAccountID ← ensureUserAccount (Wager_UserID wager) (Wager_Funding wager) (Money_Currency (Stake wager));
      escrowAccountID ← ensureSystemAccount "wager_escrow" (Money_Currency (Stake wager));
      instant ← now;
      '(voided, transaction) ← lift (VoidWager wager actorUserID reason
                                      (mkVoidWagerAccountRefs userAccountID escrowAccountID) instant);
      insertLedgerTransaction transaction;;
      affected ← update_wager "update wager to voided: %w" wagerID (in_state WagerAccepted)
                   (fun r => Ok (set_wr_wager (set_Wager_State WagerVoided (wr_wager r)) r));
      if negb affected then failing (Wrapf "%w: wager %s is no longer accepted" ErrInvalidTransition)
      else mret (Commit "commit wager void: %w" (voided, true))).

Definition Store_VoidWager st (wagerID actorUserID reason : string) : go Wager :=
  if negb (isUUID wagerID) then failing (Wrapf "%w: wager %s" ErrNotFound)
  else if negb (isUUID actorUserID) then failing ErrUnauthorized
  else
    '(wager, fresh) ← void_wager_tx st wagerID actorUserID reason;
    (if (fresh : bool) then reprice_quietly st (Wager_MarketID wager) wagerID else mret ());;
    mret wager.

(** ** reducewager.go *)
Definition cents_field (key : string) (z : Z) : string * audit_value := (key, AInt z).

Definition reduce_wager_tx st (wagerID : string) (newStakeCents : Z) (actorUserID reason : string)
    : go (Wager * Money * bool) :=
  in_tx st (
    wager ← loadWagerForUpdate wagerID;
    let previousStake := Stake wager in
    let previousProfit := PotentialProfit wager in
    marketState ← marketStateForWager (Wager_MarketID wager);
    if decided marketState then failing (Wrapf "%w: market is %s" ErrWagerNotReducible)
    else
      newStake ← lift (or_err (Wrapf "%w: %s" ErrInvalid) (NewMoney newStakeCents (Money_Currency (Stake wager))));
      alreadyReduced ← transaction_exists "check existing wager reduction: %w" (Money_Currency (Stake wager))
                         (ReduceIdempotencyKey (Wager_ID wager) newStakeCents);
      if (alreadyReduced : bool)
      then mret (Commit "commit wager reduction (idempotent): %w" (wager, mkMoney 0 (Money_Currency (Stake wager)), false))
      else
        userAccountID ← ensureUserAccount (Wager_UserID wager) (Wager_Funding wager) (Money_Currency (Stake wager));
        escrowAccountID ← ensureSystemAccount "wager_escrow" (Money_Currency (Stake wager));
        instant ← now;
        '(reduced, refund, transaction) ← lift (ReduceWager wager newStake actorUserID reason
                                           (mkVoidWagerAccountRefs userAccountID escrowAccountID) instant);
        insertLedgerTransaction transaction;;
        affected ← update_wager "update reduced wager: %w" wagerID
                     (fun w => in_state WagerAccepted w && (Cents (Stake w) =? Cents previousStake))
                     (fun r => Ok (set_wr_wager
                        (set_Stake (mkMoney (Cents (Stake reduced)) (Money_Currency (Stake (wr_wager r))))
                           (mkMoney (Cents (PotentialProfit reduced)) (Money_Currency (Stake (wr_wager r))))
                           (wr_wager r)) r));
        if negb affected
        then failing (Wrapf "%w: wager %s is no longer accepted at that stake" ErrInvalidTransition)
        else
          insert_audit "record wager reduction: %w" actorUserID "wager.reduced" "wager" wagerID reason
            [cents_field "stake_cents" (Cents previousStake);
             cents_field "potential_profit_cents" (Cents previousProfit)]
            [cents_field "stake_cents" (Cents (Stake reduced));
             cents_field "potential_profit_cents" (Cents (PotentialProfit reduced))];;
          mret (Commit "commit wager reduction: %w" (reduced, refund, true))).

Definition Store_ReduceWager st (wagerID : string) (newStakeCents : Z) (actorUserID reason : string)
    : go (Wager * Money) :=
  if negb (isUUID wagerID) then failing (Wrapf "%w: wager %s" ErrNotFound)
  else if negb (isUUID actorUserID) then failing ErrUnauthorized
  else
    let reason := TrimSpace reason in
    if bool_decide (reason = ""%string) then failing ErrReasonRequired
    else
      '(wager, refund, fresh) ← reduce_wager_tx st wagerID newStakeCents actorUserID reason;
      (if (fresh : bool) then reprice_quietly st (Wager_MarketID wager) wagerID else mret ());;
      mret (wager, refund).
End wager_store.

(** ** Placement *)

(** The command that places the same bet under the identifiers and at the
    instant its row keeps, with no limit or restriction left to check. *)
Definition row_command (c : PlaceWagerCommand) (id user : string) : PlaceWagerCommand :=
  mkPlaceWagerCommand id user (PWC_Market c) (PWC_Selection c) [] 0 0 0 0 0 0 (MaxPayoutCents c) ""%string
    (PWC_Funding c) (PWC_Stake c) (PWC_IdempotencyKey c) (timestamptz (Now c)).

(** A timestamp the database returned. *)
Definition micros (t : Time) : Prop := nanos t mod Microsecond = 0.

Lemma timestamptz_micros t : micros (timestamptz t).
Proof.
  unfold micros, timestamptz, Microsecond, Nanosecond. cbn [nanos]. change (1000 * 1) with 1000.
  rewrite Zminus_mod_idemp_r, Z.sub_diag. done.
Qed.

Lemma micros_window m t :
  micros (OpensAt m) -> micros (ClosesAt m) -> in_window m t -> in_window m (timestamptz t).
Proof.
  unfold micros, in_window, timestamptz, Microsecond, Nanosecond. cbn [nanos]. change (1000 * 1) with 1000.
  intros Ho Hc [Hop Hcl]. pose proof (Z.mod_pos_bound (nanos t) 1000). split; [|lia].
  destruct Hop as [?|Hop]; [by left|right].
  pose proof (Z.div_mod (nanos t) 1000). pose proof (Z.div_mod (nanos (OpensAt m)) 1000).
  assert (nanos (OpensAt m) / 1000 <= nanos t / 1000) by (apply Z.div_le_mono; lia). lia.
Qed.

Lemma PlaceWager_row c w id user :
  int64 (Cents (PWC_Stake c)) -> -2147483648 <= OfferedAmericanOdds (PWC_Selection c) <= 2147483647 ->
  micros (OpensAt (PWC_Market c)) -> micros (ClosesAt (PWC_Market c)) -> Microsecond <= nanos (Now c) ->
  validID id = true -> validID user = true -> PlaceWager c = Ok w ->
  command_ints (row_command c id user)
  /\ PlaceWager (row_command c id user) = Ok (snapshot (row_command c id user))
  /\ w = mkWager (PWC_WagerID c) (PWC_UserID c) (Market_ID (PWC_Market c)) (Selection_ID (PWC_Selection c))
           (PWC_Funding c) (PWC_Stake c) (OfferedAmericanOdds (PWC_Selection c))
           (DisplayTerms (PWC_Selection c)) (mkMoney (offered_profit c) (Money_Currency (PWC_Stake c)))
           WagerPending (TrimSpace (PWC_IdempotencyKey c)) (PWC_PlacedBy c) (UTC (Now c)).
Proof.
  intros Hi Ho Hop Hcl Hnow Hid Huser H.
  set (relaxed := mkPlaceWagerCommand (PWC_WagerID c) (PWC_UserID c) (PWC_Market c) (PWC_Selection c) [] 0 0 0 0 0 0
        (MaxPayoutCents c) (PWC_PlacedBy c) (PWC_Funding c) (PWC_Stake c) (PWC_IdempotencyKey c) (Now c)).
  assert (Hr : PlaceWager relaxed = Ok w).
  { unfold PlaceWager in *. cbv zeta in *. go_inv. repeat match goal with u : unit |- _ => destruct u end.
    cbn [relaxed PWC_WagerID PWC_UserID PWC_Market PWC_Selection Restrictions MaxStakeCents ExistingStakeCents
         SelectionMaxStakeCents ExistingSelectionStakeCents TotalStakeCapCents ExistingTotalStakeCents MaxPayoutCents
         PWC_PlacedBy PWC_Funding PWC_Stake PWC_IdempotencyKey Now].
    do 9 (go_step; [eassumption|]). go_step; [done|]. do 4 (go_step; [eassumption|]). do 3 (go_step; [done|]).
    go_step; [eassumption|]. go_step; [eapply wrap_err_Ok; eassumption|]. do 2 (go_step; [eassumption|]).
    go_step; [eassumption|]. done. }
  assert (Hints : forall x y, command_ints (mkPlaceWagerCommand x y (PWC_Market c) (PWC_Selection c) [] 0 0 0 0 0 0
        (MaxPayoutCents c) (PWC_PlacedBy c) (PWC_Funding c) (PWC_Stake c) (PWC_IdempotencyKey c) (Now c))).
  { intros x y. split; [done|]. split; [done|]. rewrite !Forall_cons, Forall_nil. unfold MaxInt64. cbn. split_and!; done || lia. }
  apply PlaceWager_spec in Hr as [Hel ->]; [|apply Hints]. split; [apply (Hints id user)|]. split; [|done].
  apply PlaceWager_spec; [apply (Hints id user)|]. split; [|done].
  destruct Hel. constructor; try done; cbn.
  - unfold IsZero, timestamptz. cbn. apply Z.eqb_neq.
    unfold Microsecond, Nanosecond in *. change (1000 * 1) with 1000 in *.
    pose proof (Z.mod_pos_bound (nanos (Now c)) 1000). lia.
  - by apply micros_window.
  - intros r Hin. by apply elem_of_nil in Hin.
Qed.

Section wager_steps.
Context {E : environment} {HE : environment_ok E}.

Lemma cast_validID s c : cast s = Ok c -> validID c = true.
Proof.
  intros [_ H]%cast_Ok%cast_canonical. unfold validID. by rewrite isUUID_not_blank.
Qed.

Lemma loadMarket_run id s s' m :
  loadMarket id s = (s', Ok m) ->
  db s' = db s /\ Market_ID m = id /\ micros (OpensAt m) /\ micros (ClosesAt m)
  /\ exists c row, uuid_cast id = Some c /\ markets (db s) !! c = Some row
       /\ Market_State m = Market_State (mr_market row).
Proof.
  unfold loadMarket, select_market. intros H. run_inv. go_inv. apply cast_Ok in Hok. simplify_eq.
  unfold scanMarket in *. destruct (markets _ !! v) as [row|] eqn:Er; simplify_eq.
  cbn. split_and!; [done..|apply timestamptz_micros|apply timestamptz_micros|naive_solver].
Qed.

Lemma loadSelection_run m id s s' x :
  loadSelection m id s = (s', Ok x) ->
  db s' = db s /\ Selection_ID x = id /\ Selection_MarketID x = m
  /\ -2147483648 <= OfferedAmericanOdds x <= 2147483647.
Proof.
  unfold loadSelection. intros H. run_inv. go_inv. destruct (selection_of _ _ _) as [row|]; go_inv; simplify_eq.
  match goal with Hx : scan_int32 _ = _ |- _ => apply scan_int32_Ok in Hx end. done.
Qed.

Lemma still_loadMarket id : still_run (loadMarket id).
Proof. unfold loadMarket, select_market. still. Qed.
Lemma still_loadRestrictions id : still_run (loadRestrictions id).
Proof. unfold loadRestrictions. still. Qed.
Lemma still_loadStakeLimits m c u : still_run (loadStakeLimits m c u).
Proof. unfold loadStakeLimits. still. Qed.

(** Placing reads only: the database is the same up to the insert. *)
Lemma loadStakeLimits_db m c u s s' l : loadStakeLimits m c u s = (s', Ok l) -> db s' = db s.
Proof.
  unfold loadStakeLimits. intros H. run_inv; congruence.
Qed.
Lemma loadRestrictions_db m s s' l : loadRestrictions m s = (s', Ok l) -> db s' = db s.
Proof. unfold loadRestrictions. intros H. by run_inv. Qed.

Lemma loadWagerByUserIdempotencyKey_run u key s s' w :
  loadWagerByUserIdempotencyKey u key s = (s', Ok w) ->
  db s' = db s /\ exists c id row, uuid_cast u = Some c /\ wager_rows (db s) !! id = Some row
    /\ same_key c key row = true /\ w = wagerRow row.
Proof.
  unfold loadWagerByUserIdempotencyKey. intros H. run_inv. go_inv. apply cast_Ok in Hok.
  destruct (List.filter _ _) as [|row l] eqn:Ef; cbn in *; subst; simplify_eq.
  split; [done|]. exists v.
  assert (Hin : row ∈ List.filter (same_key v key) (map_to_list (wager_rows (db s))).*2) by (rewrite Ef; set_solver).
  apply filter_bool_elem in Hin as [Hin Hk]. apply list_elem_of_fmap in Hin as ([id r'] & -> & Hin).
  apply elem_of_map_to_list in Hin. eauto 10.
Qed.

Lemma insert_wager_Ok w d d' :
  insert_wager w d = Ok d' ->
  exists id user market selection placedBy,
    cast (Wager_ID w) = Ok id /\ cast (Wager_UserID w) = Ok user /\ cast (Wager_MarketID w) = Ok market
    /\ cast (Wager_SelectionID w) = Ok selection /\ cast_opt (PlacedBy w) = Ok placedBy
    /\ let r := mkWagerRow (stored_wager w id user market selection placedBy) None None None None None in
       (d' = d \/ (d' = with_wager_rows (<[id := r]> (wager_rows d)) d /\ wager_rows d !! id = None
                   /\ forall i x, wager_rows d !! i = Some x -> same_key user (IdempotencyKey w) x = false)).
Proof.
  unfold insert_wager. intros H. go_inv. exists v, v0, v1, v2, v3. split_and!; [done..|]. cbv zeta.
  destruct (bool_decide_reflect (map_Exists (fun _ r => same_key v0 (IdempotencyKey w) r = true) (wager_rows d))) as [Hx|Hx];
    go_inv; [by left|right]. simplify_eq. bool_prop. split_and!; [done..|].
  intros i x Hi. apply not_true_iff_false. intros Hs. apply Hx. by exists i, x.
Qed.

Lemma Store_PlaceWager_steps st req s s' r :
  int64 (PWR_StakeCents req) -> Store_PlaceWager st req s = (s', r) -> store_steps (db s) (db s').
Proof.
  intros Hi [->|(s0 & s1 & wrap & a & H0 & H & -> & _)]%in_tx_run; [apply rtc_refl|]. rewrite <- H0. clear H0.
  run_inv. simplify_eq. apply loadMarket_run in Hrun as (Hd1 & Hmid & Hop & Hcl & _).
  apply loadSelection_run in Hrun0 as (Hd2 & Hsid & Hsm & Ho). apply loadRestrictions_db in Hrun1.
  apply loadStakeLimits_db in Hrun2.
  match goal with Hn : wrap_err _ _ = Ok _ |- _ => apply wrap_err_Ok in Hn; unfold NewMoney in Hn; go_inv end.
  match goal with Hn : loadWagerByUserIdempotencyKey _ _ _ = _ |- _ =>
    apply loadWagerByUserIdempotencyKey_run in Hn as (-> & cu & i & row & Hcu & Hrow & Hkey & ->) end.
  match goal with Hn : insert_wager _ _ = _ |- _ =>
    apply insert_wager_Ok in Hn as (id & user & market & selection & placedBy & Hid & Huser & Hm & Hs & _ & Hins) end.
  destruct Hins as [->|(Hd & Hnew & Hfresh)]; [no_steps|].
  match goal with Hn : PlaceWager ?c = Ok ?w |- _ =>
    destruct (PlaceWager_row c w id user) as (Hints & Hpl & Hw);
      [done|cbn; lia|done|done|cbn|by eapply cast_validID|by eapply cast_validID|exact Hn|] end.
  { subst. apply clock_past_zero. }
  match type of Hpl with PlaceWager ?c = Ok _ => set (c' := c) in * end.
  assert (Hrow' : row = mkWagerRow (stored_wager a6 id user market selection placedBy) None None None None None).
  { apply cast_Ok in Huser. rewrite Hd in Hrow. cbn in Hrow. apply lookup_insert_Some in Hrow as [[_ <-]|[_ Hrow]]; [done|].
    apply Hfresh in Hrow. congruence. }
  subst row. match goal with Hx : negb _ = false |- _ => unfold same_request in Hx; cbn in Hx end.
  bool_prop. apply rtc_once, (step_places _ _ c').
  assert (Hdb : db s7 = db s0) by congruence.
  split; [done| |rewrite Hd; cbn; by rewrite Hdb..|].
  - exists id, (mkWagerRow (stored_wager a6 id user market selection placedBy) None None None None None).
    split_and!; [|done|by rewrite <- Hdb|by rewrite Hd, Hdb].
    rewrite Hpl. f_equal. rewrite Hw in *. cbn in *. subst market selection. done.
  - rewrite Hd, Hdb. done.
Qed.

(** ** A change of one wager *)
Lemma update_wager_run w id cond f s s' :
  update_wager w id cond f s = (s', Ok true) ->
  exists c r r', uuid_cast id = Some c /\ wager_rows (db s) !! c = Some r /\ cond (wr_wager r) = true
    /\ f r = Ok r' /\ db s' = with_wager_rows (<[c := r']> (wager_rows (db s))) (db s).
Proof.
  intros (n & H)%statement_run. go_inv. apply cast_Ok in Hok.
  destruct (wager_rows (db s) !! v) as [r|] eqn:Er; [|simplify_eq].
  destruct (cond (wr_wager r)) eqn:Ec; [|simplify_eq]. go_inv. simplify_eq. eauto 10.
Qed.

Lemma changes_wager_moved c r r' lrow d d1 d3 d4 :
  wager_rows d !! c = Some r -> accounts_only d d1 ->
  d3 = with_wager_rows (<[c := r']> (wager_rows d1)) (with_ledger (ledger d1 ++ [lrow]) d1) ->
  accounts_only d3 d4 ->
  Wager_ID (wr_wager r') = Wager_ID (wr_wager r) ->
  Money_Currency (Stake (wr_wager r')) = Money_Currency (Stake (wr_wager r)) ->
  book_row (Money_Currency (Stake (wr_wager r))) lrow = true ->
  (forall escrow, compat escrow (Money_Currency (Stake (wr_wager r))) d1 ->
     wager_op escrow (wagerRow r) (wagerRow r') (row_postings lrow)) ->
  changes_wager c r r' (row_postings lrow) d d4.
Proof.
  intros Hr [W1 P1 L1 A1] -> [W2 P2 L2 [A2 A2']] Hid Hcur Hb Hop. cbn in *.
  assert (Hg1 : accounts_grow d1 d4) by (by split).
  assert (Hg : accounts_grow d d4) by (etrans; [exact A1|done]).
  split; [done|by rewrite W2, W1|done| | |congruence|done].
  - intros escrow Hc. apply Hop. eapply compat_mono; [exact Hg1|exact Hc].
  - exists [lrow]. rewrite L2, L1. split_and!; [done|by apply Forall_singleton|cbn; apply app_nil_r|cbn; lia].
Qed.

Lemma changes_wager_unmoved c r r' d d4 :
  wager_rows d !! c = Some r -> d4 = with_wager_rows (<[c := r']> (wager_rows d)) d ->
  Wager_ID (wr_wager r') = Wager_ID (wr_wager r) ->
  Money_Currency (Stake (wr_wager r')) = Money_Currency (Stake (wr_wager r)) ->
  (forall escrow, wager_op escrow (wagerRow r) (wagerRow r') []) ->
  changes_wager c r r' [] d d4.
Proof.
  intros Hr -> Hid Hcur Hop. split; [done..| |done|done].
  exists []. rewrite app_nil_r. split_and!; [done|by apply Forall_nil|done|cbn; lia].
Qed.

(** The transaction is one of a wager's, in the wager's currency. *)
Lemma ledger_of_book_row t r cur :
  ledger_of t r -> wager_source t = true -> Tx_Currency t = cur ->
  book_row cur r = true /\ row_postings r = Tx_Postings t.
Proof.
  intros (Ht & Hc & _ & Hs & Hp) Hw <-. split; [|done]. unfold book_row, wager_source in *.
  rewrite Ht, Hs, Hc, Hw. by rewrite bool_decide_true.
Qed.

Lemma AcceptWager_shape w actor at_ refs eid r :
  AcceptWager w actor at_ refs eid = Ok r ->
  AWR_Wager r = set_Wager_State WagerAccepted w /\ wager_source (AWR_Transaction r) = true
  /\ Tx_Currency (AWR_Transaction r) = Money_Currency (Stake w).
Proof. unfold AcceptWager. cbv zeta. intros H. go_inv. done. Qed.
Lemma VoidWager_shape w actor reason refs at_ w' t :
  VoidWager w actor reason refs at_ = Ok (w', t) ->
  w' = set_Wager_State WagerVoided w /\ wager_source t = true /\ Tx_Currency t = Money_Currency (Stake w).
Proof. unfold VoidWager. cbv zeta. intros H. go_inv. simplify_eq. done. Qed.
Lemma Profit_currency o stake p : Profit o stake = Ok p -> Money_Currency p = Money_Currency stake.
Proof. unfold Profit. intros H. go_inv. destruct (odds_ratio o). go_inv. cbv zeta in *. case_match; go_inv; by simplify_eq. Qed.
Lemma ReduceWager_shape w ns actor reason refs at_ w' refund t :
  ReduceWager w ns actor reason refs at_ = Ok (w', refund, t) ->
  (exists profit, w' = set_Stake ns profit w /\ Money_Currency profit = Money_Currency ns)
  /\ Money_Currency ns = Money_Currency (Stake w)
  /\ wager_source t = true /\ Tx_Currency t = Money_Currency (Stake w).
Proof.
  unfold ReduceWager. cbv zeta. intros H. go_inv. bool_prop. simplify_eq. split_and!; try done.
  eexists. split; [done|]. match goal with Hp : Profit _ _ = Ok _ |- _ => apply Profit_currency in Hp end. done.
Qed.

Lemma escrow_in cur id escrow d d1 :
  accounts d !! escrow_key cur = Some id -> accounts_grow d d1 -> compat escrow cur d1 -> id = escrow.
Proof. intros Hi [Hs _] Hc. apply Hc. by eapply lookup_weaken. Qed.

(** The account statements as they come in the handlers: what the database
    looks like after the accounts are there. *)
Lemma still_marketStateForWager id : still_run (marketStateForWager id).
Proof. unfold marketStateForWager. still. Qed.

Lemma wagerRow_set_State s r : wagerRow (set_wr_wager (set_Wager_State s (wr_wager r)) r) = set_Wager_State s (wagerRow r).
Proof. done. Qed.

Lemma one_wager_step c r r' ps d d' : changes_wager c r r' ps d d' -> store_steps d d'.
Proof. intros H. by eapply rtc_once, step_changes_wager. Qed.

(** The end every paying operation has: the transaction, the wager's row, and
    then nothing that matters to the book. *)
Lemma moved_steps w id c row t x cond f s0 s1 s2 s3 s4 :
  uuid_cast id = Some c -> wager_rows (db s0) !! c = Some row -> accounts_only (db s0) (db s1) ->
  db s2 = with_ledger (ledger (db s1) ++ [x]) (db s1) -> ledger_of t x ->
  wager_source t = true -> Tx_Currency t = Money_Currency (Stake (wr_wager row)) ->
  update_wager w id cond f s2 = (s3, Ok true) -> accounts_only (db s3) (db s4) ->
  (forall r', f row = Ok r' -> cond (wr_wager row) = true ->
     Wager_ID (wr_wager r') = Wager_ID (wr_wager row)
     /\ Money_Currency (Stake (wr_wager r')) = Money_Currency (Stake (wr_wager row))
     /\ forall escrow, compat escrow (Money_Currency (Stake (wr_wager row))) (db s1) ->
          wager_op escrow (wagerRow row) (wagerRow r') (Tx_Postings t)) ->
  store_steps (db s0) (db s4).
Proof.
  intros Hcast Hrow Hs1 Hs2 Hx Hsrc Hcur Hu Hs4 Hf.
  apply update_wager_run in Hu as (c' & r & r' & Hc' & Hr & Hcond & Hfr & Hs3).
  rewrite Hcast in Hc'. injection Hc' as <-. rewrite Hs2 in Hr. cbn in Hr. rewrite (ao_wagers _ _ Hs1), Hrow in Hr.
  injection Hr as <-. destruct (Hf r' Hfr Hcond) as (Hid & Hcu & Hop).
  destruct (ledger_of_book_row t x _ Hx Hsrc Hcur) as [Hb Hp].
  eapply one_wager_step, (changes_wager_moved c row r' x (db s0) (db s1) (db s3)); try done.
  - rewrite Hs3, Hs2. done.
  - intros escrow He. rewrite Hp. by apply Hop.
Qed.

Lemma Store_AcceptWager_steps st id actor s s' r :
  Store_AcceptWager st id actor s = (s', r) -> store_steps (db s) (db s').
Proof.
  intros [->|(s0 & s1 & wrap & a & H0 & H & -> & _)]%in_tx_run; [apply rtc_refl|]. rewrite <- H0. clear H0 r.
  run_inv.
  - unfold verifyAcceptance, reducedCents in *. run_inv. simplify_eq.
    apply loadWagerForUpdate_run in Hrun as (Hd & _).
    no_steps.
  - apply loadWagerForUpdate_run in Hrun as (Hd & c & row & Hcast & Hrow & ->).
    unfold creditLimitForUser in *. store_facts. destruct a12; [|done].
    match goal with Hx : AcceptWager _ _ _ _ _ = Ok _ |- _ => pose proof Hx as Hacc; apply AcceptWager_shape in Hx as (Hw & Hsrc & Hcur) end.
    eapply moved_steps; [exact Hcast|exact Hrow| |eassumption|eassumption|exact Hsrc|exact Hcur|eassumption|eassumption|].
    { still_chain. }
    intros r' Hr' _. unfold accept_row in Hr'. go_inv. cbn. split_and!; [done..|]. intros escrow He.
    eapply (op_accept escrow) in Hacc; [rewrite Hw in Hacc; exact Hacc|]. cbn. eapply escrow_in; [eassumption| |exact He]. eapply ao_accounts. still_chain.
Qed.

(** Refusing a pending wager moves no money. *)
Lemma refused_steps w id c row cond actor reason s0 s1 s2 :
  uuid_cast id = Some c -> wager_rows (db s0) !! c = Some row -> db s1 = db s0 ->
  (forall escrow, wager_op escrow (wagerRow row) (set_Wager_State WagerRejected (wagerRow row)) []) ->
  update_wager w id cond (reject_row actor reason) s1 = (s2, Ok true) -> store_steps (db s0) (db s2).
Proof.
  intros Hcast Hrow Hs Hop Hu. apply update_wager_run in Hu as (c' & r & r' & Hc' & Hr & _ & Hf & Hd).
  rewrite Hcast in Hc'. injection Hc' as <-. rewrite Hs, Hrow in Hr. injection Hr as <-.
  unfold reject_row in Hf. go_inv. rewrite Hs in Hd.
  eapply one_wager_step, changes_wager_unmoved; [exact Hrow|exact Hd|done..].
Qed.

Lemma load_rejection_reason_db id s s' x : load_rejection_reason id s = (s', Ok x) -> db s' = db s.
Proof. unfold load_rejection_reason. intros H. by run_inv. Qed.

Lemma Store_RejectWager_steps st id actor reason s s' r :
  Store_RejectWager st id actor reason s = (s', r) -> store_steps (db s) (db s').
Proof.
  intros [->|(s0 & s1 & wrap & a & H0 & H & -> & _)]%in_tx_run; [apply rtc_refl|]. rewrite <- H0. clear H0 r.
  run_inv; apply loadWagerForUpdate_run in Hrun as (Hd & c & row & Hcast & Hrow & ->).
  - apply load_rejection_reason_db in Hrun0. no_steps.
  - match goal with Hx : negb ?b = false |- _ => destruct b; [|done] end.
    match goal with Hx : RejectWager _ _ _ = Ok _ |- _ =>
      pose proof Hx as Hr; apply RejectWager_Ok in Hx as [-> _] end.
    eapply refused_steps; [exact Hcast|exact Hrow|exact Hd| |eassumption]. intros escrow. by eapply op_reject.
Qed.

Lemma Store_CancelWager_steps st id user s s' r :
  Store_CancelWager st id user s = (s', r) -> store_steps (db s) (db s').
Proof.
  unfold Store_CancelWager. destruct (negb (isUUID user)); [by intros [= <- _]; apply rtc_refl|].
  intros [->|(s0 & s1 & wrap & a & H0 & H & -> & _)]%in_tx_run; [apply rtc_refl|]. rewrite <- H0. clear H0 r.
  run_inv; apply loadWagerForUpdate_run in Hrun as (Hd & c & row & Hcast & Hrow & ->).
  - apply load_rejection_reason_db in Hrun0. no_steps.
  - match goal with Hx : negb ?b = false |- _ => destruct b; [|done] end.
    match goal with Hx : CancelWager _ _ = Ok _ |- _ =>
      pose proof Hx as Hr; apply CancelWager_Ok in Hx as (-> & _) end.
    eapply refused_steps; [exact Hcast|exact Hrow|exact Hd| |eassumption]. intros escrow. by eapply op_cancel.
Qed.

Lemma void_wager_tx_steps st id actor reason s s' r :
  void_wager_tx st id actor reason s = (s', r) -> store_steps (db s) (db s').
Proof.
  intros [->|(s0 & s1 & wrap & a & H0 & H & -> & _)]%in_tx_run; [apply rtc_refl|]. rewrite <- H0. clear H0 r.
  run_inv; apply loadWagerForUpdate_run in Hrun as (Hd & c & row & Hcast & Hrow & ->);
    unfold transaction_exists in *; store_facts; try no_steps.
  all: match goal with Hx : negb ?b = false |- _ => destruct b; [|done] end.
  all: match goal with Hx : VoidWager _ _ _ _ _ = Ok _ |- _ =>
         pose proof Hx as Hv; apply VoidWager_shape in Hx as (Hw & Hsrc & Hcur) end.
  all: eapply moved_steps; [exact Hcast|exact Hrow| |eassumption|eassumption|exact Hsrc|exact Hcur|eassumption|reflexivity|]; [still_chain|].
  all: intros r' Hr' _; injection Hr' as <-; split_and!; [done..|]; intros escrow He; rewrite wagerRow_set_State.
  all: eapply (op_void escrow) in Hv; [rewrite Hw in Hv; exact Hv|]; cbn.
  all: eapply escrow_in; [eassumption| |exact He]; eapply ao_accounts; still_chain.
Qed.

Lemma reprice_quietly_steps st m id s s' r : reprice_quietly st m id s = (s', r) -> store_steps (db s) (db s').
Proof.
  unfold reprice_quietly. destruct (RepriceMarketAfterWager st m id s) as [s1 r1] eqn:Er. intros [= <- _].
  by eapply rtc_once, step_quiet, still_RepriceMarketAfterWager.
Qed.

(** Sequencing whole operations. *)
Lemma steps_bind {A B} (m : go A) (k : A -> go B) s s' r :
  (forall s s' a, m s = (s', a) -> store_steps (db s) (db s')) ->
  (forall a s s' b, k a s = (s', b) -> store_steps (db s) (db s')) ->
  (m ≫= k) s = (s', r) -> store_steps (db s) (db s').
Proof.
  intros Hm Hk. unfold mbind, go_bind. destruct (m s) as [s1 [a|e]] eqn:Em.
  - intros H. etrans; [by eapply Hm|by eapply Hk].
  - intros [= <- _]. by eapply Hm.
Qed.

Lemma after_commit_steps {A} st m id (fresh : bool) (a : A) s s' r :
  ((if fresh then reprice_quietly st m id else mret ());; mret a) s = (s', r) -> store_steps (db s) (db s').
Proof.
  apply steps_bind; [|by intros ? ? ? ? [= <- _]; apply rtc_refl]. intros t t' x. destruct fresh.
  - apply reprice_quietly_steps.
  - intros [= <- _]. apply rtc_refl.
Qed.

Lemma Store_VoidWager_steps st id actor reason s s' r :
  Store_VoidWager st id actor reason s = (s', r) -> store_steps (db s) (db s').
Proof.
  unfold Store_VoidWager. destruct (negb _); [by intros [= <- _]; apply rtc_refl|].
  destruct (negb _); [by intros [= <- _]; apply rtc_refl|].
  apply steps_bind; [apply void_wager_tx_steps|]. intros [w fresh] ? ? ?. apply after_commit_steps.
Qed.

Lemma reduce_wager_tx_steps st id cents actor reason s s' r :
  int64 cents -> reduce_wager_tx st id cents actor reason s = (s', r) -> store_steps (db s) (db s').
Proof.
  intros Hi [->|(s0 & s1 & wrap & a & H0 & H & -> & _)]%in_tx_run; [apply rtc_refl|]. rewrite <- H0. clear H0 r.
  run_inv; apply loadWagerForUpdate_run in Hrun as (Hd & c & row & Hcast & Hrow & ->);
    unfold transaction_exists in *; store_facts; try no_steps.
  match goal with Hx : negb ?b = false |- _ => destruct b; [|done] end.
  match goal with Hx : ReduceWager _ ?ns _ _ _ _ = Ok _ |- _ =>
    pose proof Hx as Hv; apply ReduceWager_shape in Hx as ((profit & Hw & Hpc) & Hnc & Hsrc & Hcur);
    assert (Hns : Cents ns = cents) end.
  { match goal with Hx : or_err _ _ = Ok _ |- _ => apply or_err_Ok in Hx; unfold NewMoney in Hx; go_inv; by simplify_eq end. }
  eapply moved_steps; [exact Hcast|exact Hrow| |eassumption|eassumption|exact Hsrc|exact Hcur|eassumption|still_chain|]; [still_chain|].
  intros r' Hr' Hcond. injection Hr' as <-. split_and!; [done..|]. intros escrow He.
  eapply (op_reduce escrow) in Hv; [|cbn; eapply escrow_in; [eassumption| |exact He]; eapply ao_accounts; still_chain|by rewrite Hns].
  match goal with Hx : wager_op _ _ ?w' _ |- wager_op _ _ ?w'' _ => replace w'' with w'; [exact Hx|] end.
  rewrite Hw. unfold wagerRow, set_wr_wager, set_Stake. cbn. change (Stake (wagerRow row)) with (Stake (wr_wager row)) in *.
  match goal with |- context [mkMoney (Cents ?n) _] => destruct n as [n cn] end. destruct profit. cbn in *. by subst.
Qed.

Lemma Store_ReduceWager_steps st id cents actor reason s s' r :
  int64 cents -> Store_ReduceWager st id cents actor reason s = (s', r) -> store_steps (db s) (db s').
Proof.
  intros Hi. unfold Store_ReduceWager. cbv zeta.
  do 3 (destruct (negb _) || destruct (bool_decide _); [by intros [= <- _]; apply rtc_refl|]).
  apply steps_bind; [intros ? ? ?; by apply reduce_wager_tx_steps|]. intros [[w refund] fresh] ? ? ?. apply after_commit_steps.
Qed.
End wager_steps.
