(* ===== verification/ParlayStore.v ===== *)
(** * internal/bettingpg: parlay.go and parlayload.go

    Placing, accepting, refusing and quoting a parlay, and its settlement
    inside the transaction that settles the market of one of its legs. *)
From S2P Require Import Prelude GoStrings GoTime Ledger Events Betting Placement Settlement Corrections Book Float64 Pricing Parlay SQL BettingDB StoreSteps PricingStore WagerStore.

Definition DefaultParlayJuiceBasisPoints : Z := 350.
Definition parlayJuice : Z := DefaultParlayJuiceBasisPoints.
(** [betting.ErrIdempotencyConflict], not the store's own. *)
Definition betting_ErrIdempotencyConflict := Sentinel "betting.ErrIdempotencyConflict".

Record ParlayLegRequest := mkParlayLegRequest { PLR_MarketID : string; PLR_SelectionID : string }.
Record PlaceParlayRequest := mkPlaceParlayRequest {
  PPR_ParlayID : string;
  PPR_UserID : string;
  PPR_Legs : list ParlayLegRequest;
  PPR_Funding : FundingAccountType;
  PPR_StakeCents : Z;
  PPR_Currency : Currency;
  PPR_IdempotencyKey : string;
  PPR_PlacedByUserID : string
}.
Record ParlayLegRow := mkParlayLegRow {
  LR_MarketID : string;
  LR_SelectionID : string;
  LR_MarketTitle : string;
  LR_AcceptedTerms : string;
  LR_AcceptedOdds : AmericanOdds;
  LR_Result : SettlementResult
}.
Record ParlayRow := mkParlayRow {
  PR_ID : string;
  PR_UserID : string;
  PR_MemberName : string;
  PR_Funding : FundingAccountType;
  PR_StakeCents : Z;
  PR_Currency : Currency;
  PR_AcceptedOdds : AmericanOdds;
  PR_PotentialProfit : Z;
  PR_State : WagerState;
  PR_PlacedAt : Time;
  PR_Legs : list ParlayLegRow
}.

Definition Resolved (l : ParlayLegRow) : bool := negb (bool_decide (LR_Result l = no_result)).

(** Field updates of a stored parlay. *)
Definition set_pr_parlay (p : Parlay) (r : ParlayDBRow) : ParlayDBRow :=
  mkParlayDBRow p (pr_accepted_by r) (pr_acceptance_transaction_id r) (pr_rejected_by r) (pr_rejection_reason r).
Definition set_Parlay_State (s : WagerState) (p : Parlay) : Parlay :=
  mkParlay (Parlay_ID p) (Parlay_UserID p) (Parlay_Funding p) (Parlay_Stake p) (Parlay_AcceptedOdds p)
    (Parlay_PotentialProfit p) (Legs p) s (Parlay_IdempotencyKey p) (Parlay_PlacedBy p) (Parlay_PlacedAt p).
Definition set_Legs (legs : list ParlayLeg) (p : Parlay) : Parlay :=
  mkParlay (Parlay_ID p) (Parlay_UserID p) (Parlay_Funding p) (Parlay_Stake p) (Parlay_AcceptedOdds p)
    (Parlay_PotentialProfit p) legs (Parlay_State p) (Parlay_IdempotencyKey p) (Parlay_PlacedBy p) (Parlay_PlacedAt p).
Definition set_Leg_Result (res : SettlementResult) (l : ParlayLeg) : ParlayLeg :=
  mkParlayLeg (PL_MarketID l) (PL_SelectionID l) (PL_AcceptedOdds l) (PL_AcceptedTerms l) (PL_MarketTitle l) res.

Section parlay_store.
Context {E : environment}.
Implicit Types (st : Store) (d : DB) (parlayID : string).

(** ** parlayload.go *)
Definition member_name (userID : string) d : string :=
  match users d !! userID with Some u => display_name u | None => ""%string end.

Definition leg_row d (l : ParlayLeg) : ParlayLegRow :=
  mkParlayLegRow (PL_MarketID l) (PL_SelectionID l)
    (match markets d !! PL_MarketID l with Some m => Title (mr_market m) | None => ""%string end)
    (PL_AcceptedTerms l) (PL_AcceptedOdds l) (PL_Result l).

(** The row of a parlay as [loadParlay] scans it, before its legs. *)
Definition parlay_head d (p : Parlay) : ParlayRow :=
  mkParlayRow (Parlay_ID p) (Parlay_UserID p) (member_name (Parlay_UserID p) d) (Parlay_Funding p)
    (Cents (Parlay_Stake p)) (Money_Currency (Parlay_Stake p)) (Parlay_AcceptedOdds p)
    (Cents (Parlay_PotentialProfit p)) (Parlay_State p) (Parlay_PlacedAt p) [].
Definition with_Legs (legs : list ParlayLegRow) (r : ParlayRow) : ParlayRow :=
  mkParlayRow (PR_ID r) (PR_UserID r) (PR_MemberName r) (PR_Funding r) (PR_StakeCents r) (PR_Currency r)
    (PR_AcceptedOdds r) (PR_PotentialProfit r) (PR_State r) (PR_PlacedAt r) legs.

Definition loadParlayForUpdate parlayID : go (WagerState * string * FundingAccountType * Z * Currency) :=
  row ← query "load parlay for update: %w" (fun d =>
          c ← cast parlayID;
          match parlays d !! c with
          | None => Ok None
          | Some r => scan_int64 (Cents (Parlay_Stake (pr_parlay r)));; Ok (Some r)
          end);
  lift (match row with
        | None => Err (Wrapf "%w: parlay %s" ErrNotFound)
        | Some r =>
            let p := pr_parlay r in
            Ok (Parlay_State p, Parlay_UserID p, Parlay_Funding p, Cents (Parlay_Stake p),
                Money_Currency (Parlay_Stake p))
        end).

(** The fields the query scans; the others keep their zero values. *)
Definition grading_view (p : Parlay) (legs : list ParlayLeg) : Parlay :=
  mkParlay (Parlay_ID p) (Parlay_UserID p) (Parlay_Funding p) (Parlay_Stake p) (Parlay_AcceptedOdds p)
    (Parlay_PotentialProfit p) legs (Parlay_State p) "" "" zeroTime.

Definition loadParlayForGrading parlayID : go Parlay :=
  row ← query "load parlay for grading: %w" (fun d =>
          match parlays d !! parlayID with
          | None => Ok None
          | Some r => scan_int64 (Cents (Parlay_Stake (pr_parlay r)));; Ok (Some (pr_parlay r))
          end);
  parlay ← lift (match row with
                 | None => Err (Wrapf "%w: parlay %s" ErrNotFound)
                 | Some p => Ok p
                 end);
  legs ← query "load parlay legs: %w" (fun d =>
           Ok (match parlays d !! parlayID with Some r => Legs (pr_parlay r) | None => [] end));
  mret (grading_view parlay legs).

Definition loadParlayLegs parlayID : go (list ParlayLegRow) :=
  query "load parlay legs: %w" (fun d =>
    c ← cast parlayID;
    Ok (match parlays d !! c with Some r => leg_row d <$> Legs (pr_parlay r) | None => [] end)).

Definition loadParlay parlayID : go ParlayRow :=
  row ← query "load parlay: %w" (fun d =>
          c ← cast parlayID;
          Ok ((fun r => parlay_head d (pr_parlay r)) <$> parlays d !! c));
  row ← lift (match row with
              | None => Err (Wrapf "%w: parlay %s" ErrNotFound)
              | Some r => Ok r
              end);
  legs ← loadParlayLegs parlayID;
  mret (with_Legs legs row).

Definition parlay_key (user key : string) (r : ParlayDBRow) : bool :=
  bool_decide (Parlay_UserID (pr_parlay r) = user) && bool_decide (Parlay_IdempotencyKey (pr_parlay r) = key).

Definition loadParlayByIdempotency (userID key : string) : go ParlayRow :=
  id ← query "load parlay by idempotency key: %w" (fun d =>
         u ← cast userID;
         r ← must_find (head (List.filter (parlay_key u key) (map_to_list (parlays d)).*2));
         Ok (Parlay_ID (pr_parlay r)));
  loadParlay id.

(** The legs compare position by position. *)
Fixpoint same_legs (existing : list ParlayLegRow) (placed : list ParlayLeg) : bool :=
  match existing, placed with
  | e :: existing, l :: placed => bool_decide (LR_SelectionID e = PL_SelectionID l) && same_legs existing placed
  | _, _ => true
  end.
Definition verifyParlayMatches (existing : ParlayRow) (placed : Parlay) : result unit :=
  fail_if (negb (PR_StakeCents existing =? Cents (Parlay_Stake placed))
           || negb (PR_AcceptedOdds existing =? Parlay_AcceptedOdds placed)
           || negb (bool_decide (length (PR_Legs existing) = length (Legs placed))))
    betting_ErrIdempotencyConflict;;
  fail_if (negb (same_legs (PR_Legs existing) (Legs placed))) betting_ErrIdempotencyConflict.

(** [ORDER BY p.placed_at DESC] *)
Definition placed_later (a b : ParlayRow) : Prop := nanos (PR_PlacedAt b) <= nanos (PR_PlacedAt a).
#[export] Instance placed_later_dec a b : Decision (placed_later a b).
Proof. unfold placed_later. apply _. Defined.

Definition parlayLegsFor parlayID : go (list ParlayLegRow) := loadParlayLegs parlayID.

Fixpoint attach_legs (rows : list ParlayRow) : go (list ParlayRow) :=
  match rows with
  | [] => mret []
  | row :: rest =>
      legs ← parlayLegsFor (PR_ID row);
      rest ← attach_legs rest;
      mret (with_Legs legs row :: rest)
  end.

Definition listParlays st (predicate : DB -> result (Parlay -> bool)) : go (list ParlayRow) :=
  if negb (HasDB st) then failing (Errorf "bettingpg: PostgreSQL pool is required")
  else
    found ← query "list parlays: %w" (fun d =>
              p ← predicate d;
              Ok (merge_sort placed_later
                    (parlay_head d <$> List.filter p (pr_parlay <$> (map_to_list (parlays d)).*2))));
    attach_legs found.

Definition ListParlaysForUser st (userID : string) : go (list ParlayRow) :=
  listParlays st (fun _ => u ← cast userID; Ok (fun p => bool_decide (Parlay_UserID p = u))).
Definition ListPendingParlays st : go (list ParlayRow) :=
  listParlays st (fun _ => Ok (fun p => bool_decide (Parlay_State p = WagerPending))).

(** ** parlay.go *)

(** [for _, leg := range req.Legs]: the markets, selections and restrictions. *)
Fixpoint load_legs (legs : list ParlayLegRequest) : go (list Market * list Selection * list Restriction) :=
  match legs with
  | [] => mret ([], [], [])
  | leg :: rest =>
      if negb (isUUID (PLR_MarketID leg)) || negb (isUUID (PLR_SelectionID leg))
      then failing (Wrapf "%w: every leg needs a market and selection" ErrInvalid)
      else
        market ← loadMarket (PLR_MarketID leg);
        selection ← loadSelection (PLR_MarketID leg) (PLR_SelectionID leg);
        legRestrictions ← loadRestrictions (PLR_MarketID leg);
        '(markets, selections, restrictions) ← load_legs rest;
        mret (market :: markets, selection :: selections, legRestrictions ++ restrictions)
  end.

(** The stored row of a parlay, its legs still to insert. *)
Definition stored_parlay (p : Parlay) (id user placedBy : string) : Parlay :=
  mkParlay id user (Parlay_Funding p) (Parlay_Stake p) (Parlay_AcceptedOdds p) (Parlay_PotentialProfit p) []
    (Parlay_State p) (Parlay_IdempotencyKey p) placedBy (timestamptz (Parlay_PlacedAt p)).

(** [INSERT INTO parlays ... ON CONFLICT (user_id, idempotency_key) DO NOTHING
    RETURNING true] *)
Definition insert_parlay (p : Parlay) d : result (DB * bool) :=
  id ← cast (Parlay_ID p);
  user ← cast (Parlay_UserID p);
  placedBy ← cast_opt (Parlay_PlacedBy p);
  if bool_decide (map_Exists (fun _ r => parlay_key user (Parlay_IdempotencyKey p) r = true) (parlays d))
  then Ok (d, false)
  else
    fail_if (negb (bool_decide (parlays d !! id = None))) (Errorf "violates unique constraint");;
    fail_if (bool_decide (users d !! user = None)
             || (negb (bool_decide (placedBy = ""%string)) && bool_decide (users d !! placedBy = None)))
      (Errorf "violates foreign key constraint");;
    Ok (with_parlays (<[id := mkParlayDBRow (stored_parlay p id user placedBy) None None None None]> (parlays d)) d,
        true).

(** [INSERT INTO parlay_legs]: a market may appear once in a parlay. *)
Definition insert_leg parlayID (leg : ParlayLeg) d : result DB :=
  id ← cast parlayID;
  market ← cast (PL_MarketID leg);
  selection ← cast (PL_SelectionID leg);
  fail_if (bool_decide (selection_of market selection d = None)) (Errorf "violates foreign key constraint");;
  match parlays d !! id with
  | None => Err (Errorf "violates foreign key constraint")
  | Some r =>
      fail_if (bool_decide (market ∈ PL_MarketID <$> Legs (pr_parlay r))) (Errorf "violates unique constraint");;
      let stored := mkParlayLeg market selection (PL_AcceptedOdds leg) (PL_AcceptedTerms leg) ""%string no_result in
      Ok (with_parlays (<[id := set_pr_parlay (set_Legs (Legs (pr_parlay r) ++ [stored]) (pr_parlay r)) r]>
                          (parlays d)) d)
  end.

Fixpoint insert_legs parlayID (legs : list ParlayLeg) : go unit :=
  match legs with
  | [] => mret ()
  | leg :: rest =>
      exec "insert parlay leg %d: %w" (insert_leg parlayID leg);;
      insert_legs parlayID rest
  end.

Definition Store_PlaceParlay st (req : PlaceParlayRequest) : go ParlayRow :=
  if negb (isUUID (PPR_ParlayID req)) || negb (isUUID (PPR_UserID req))
  then failing (Wrapf "%w: a parlay needs a parlay ID and user ID" ErrInvalid)
  else if bool_decide (PPR_Legs req = []) then failing ErrParlayTooFewLegs
  else in_tx st (
    '(markets, selections, restrictions) ← load_legs (PPR_Legs req);
    stake ← lift (wrap_err "build parlay stake: %w" (NewMoney (PPR_StakeCents req) (PPR_Currency req)));
    instant ← now;
    parlay ← lift (PlaceParlay float_to_int64
                     (mkPlaceParlayCommand (PPR_ParlayID req) (PPR_UserID req) markets selections restrictions
                        parlayJuice (maxPayout st) (PPR_PlacedByUserID req) (PPR_Funding req) stake
                        (PPR_IdempotencyKey req) instant));
    inserted ← statement "insert parlay: %w" (fun _ => insert_parlay parlay);
    if (inserted : bool) then
      insert_legs (Parlay_ID parlay) (Legs parlay);;
      row ← loadParlay (Parlay_ID parlay);
      mret (Commit "commit parlay: %w" row)
    else
      existing ← loadParlayByIdempotency (Parlay_UserID parlay) (Parlay_IdempotencyKey parlay);
      lift (verifyParlayMatches existing parlay);;
      mret (Commit "commit idempotent parlay: %w" existing)).

(** [UPDATE parlays SET ... WHERE id = $1] *)
Definition update_parlay (wrap parlayID : string) (f : ParlayDBRow -> result ParlayDBRow) : go unit :=
  exec wrap (fun d =>
    c ← cast parlayID;
    match parlays d !! c with
    | Some r => r' ← f r; Ok (with_parlays (<[c := r']> (parlays d)) d)
    | None => Ok d
    end).

(** [m.state IN ('settled', 'voided', 'cancelled', 'closed_no_action')] *)
Definition leg_decided d (l : ParlayLeg) : bool :=
  match markets d !! PL_MarketID l with
  | Some m => decided (Market_State (mr_market m)) || bool_decide (Market_State (mr_market m) = MarketNoAction)
  | None => false
  end.
Definition count_decided parlayID : go Z :=
  query "count decided legs: %w" (fun d =>
    c ← cast parlayID;
    Ok (match parlays d !! c with
        | Some r => Z.of_nat (length (List.filter (leg_decided d) (Legs (pr_parlay r))))
        | None => 0
        end)).

Definition accept_parlay_row (actor transactionID : string) (r : ParlayDBRow) : result ParlayDBRow :=
  by_ ← cast_opt actor;
  Ok (mkParlayDBRow (set_Parlay_State WagerAccepted (pr_parlay r))
        (if bool_decide (by_ = ""%string) then None else Some by_) (Some transactionID) (pr_rejected_by r)
        (pr_rejection_reason r)).

Definition Store_AcceptParlay st parlayID (actorUserID : string) : go ParlayRow :=
  if negb (isUUID parlayID) then failing (Wrapf "%w: parlay %s" ErrNotFound)
  else if negb (isUUID actorUserID) then failing (Wrapf "%w: a parlay must be accepted by a named admin" ErrUnauthorized)
  else in_tx st (
    '(state, userID, fundingType, stakeCents, currency) ← loadParlayForUpdate parlayID;
    if bool_decide (state = WagerAccepted) then
      row ← loadParlay parlayID;
      mret (Commit "commit idempotent parlay acceptance: %w" row)
    else if negb (bool_decide (state = WagerPending)) then failing (Wrapf "%w: parlay is %s" ErrInvalidTransition)
    else
      decidedLegs ← count_decided parlayID;
      if 0 <? decidedLegs then failing (Wrapf "%w: %d leg market(s) already decided" ErrMarketDecided)
      else
        stake ← lift (NewMoney stakeCents currency);
        userAccountID ← ensureUserAccount userID fundingType currency;
        escrowAccountID ← ensureSystemAccount "wager_escrow" currency;
        ensureSystemAccount "house_clearing" currency;;
        lockAccount userAccountID;;
        balance ← accountBalance userAccountID;
        creditLimit ← creditLimitForUser userID;
        if wrap64 (balance + creditLimit) <? Cents stake then failing ErrInsufficientFunds
        else
          now;;
          negatedStake ← lift (Negate stake);
          let transaction := mkTransaction TransactionWagerAcceptance (Money_Currency stake)
              ("parlay:" ++ parlayID ++ ":acceptance")%string actorUserID "parlay" parlayID "" ""
              [mkPosting userAccountID negatedStake; mkPosting escrowAccountID stake] in
          lift (wrap_err "build parlay acceptance transaction: %w" (Transaction_Validate transaction));;
          transactionID ← insertLedgerTransaction transaction;
          update_parlay "accept parlay: %w" parlayID (accept_parlay_row actorUserID transactionID);;
          row ← loadParlay parlayID;
          mret (Commit "commit parlay acceptance: %w" row)).

Definition reject_parlay_row (actor reason : string) (r : ParlayDBRow) : result ParlayDBRow :=
  by_ ← cast actor;
  Ok (mkParlayDBRow (set_Parlay_State WagerRejected (pr_parlay r)) (pr_accepted_by r)
        (pr_acceptance_transaction_id r) (Some by_) (Some reason)).

Definition Store_RejectParlay st parlayID (actorUserID reason : string) : go unit :=
  if negb (isUUID parlayID) then failing (Wrapf "%w: parlay %s" ErrNotFound)
  else if negb (isUUID actorUserID) then failing ErrUnauthorized
  else
    let reason := TrimSpace reason in
    if bool_decide (reason = ""%string) then failing ErrReasonRequired
    else in_tx st (
      '(state, _, _, _, _) ← loadParlayForUpdate parlayID;
      if negb (bool_decide (state = WagerPending)) then failing (Wrapf "%w: parlay is %s" ErrInvalidTransition)
      else
        update_parlay "reject parlay: %w" parlayID (reject_parlay_row actorUserID reason);;
        mret (Commit "commit parlay rejection: %w" ())).

Definition Store_CancelParlay st parlayID (userID : string) : go unit :=
  if negb (isUUID parlayID) then failing (Wrapf "%w: parlay %s" ErrNotFound)
  else if negb (isUUID userID) then failing ErrUnauthorized
  else in_tx st (
    '(state, owner, _, _, _) ← loadParlayForUpdate parlayID;
    if negb (bool_decide (owner = userID)) then failing ErrUnauthorized
    else if negb (bool_decide (state = WagerPending)) then failing (Wrapf "%w: parlay is %s" ErrInvalidTransition)
    else
      update_parlay "cancel parlay: %w" parlayID
        (reject_parlay_row userID "Withdrawn by the member before review");;
      mret (Commit "commit parlay cancellation: %w" ())).

Definition QuoteParlay st (req : PlaceParlayRequest) : go ParlayRow :=
  if Z.of_nat (length (PPR_Legs req)) <? MinParlayLegs then failing ErrParlayTooFewLegs
  else in_tx st (
    '(markets, selections, restrictions) ← load_legs (PPR_Legs req);
    stake ← lift (wrap_err "build parlay stake: %w" (NewMoney (PPR_StakeCents req) (PPR_Currency req)));
    quoteID ← NewEventID;
    instant ← now;
    parlay ← lift (PlaceParlay float_to_int64
                     (mkPlaceParlayCommand quoteID (PPR_UserID req) markets selections restrictions
                        parlayJuice (maxPayout st) "" (PPR_Funding req) stake ("quote:" ++ quoteID) instant));
    mret (Rollback (mkParlayRow "" (PPR_UserID req) "" (Parlay_Funding parlay) (Cents (Parlay_Stake parlay))
      (Money_Currency (Parlay_Stake parlay)) (Parlay_AcceptedOdds parlay) (Cents (Parlay_PotentialProfit parlay))
      WagerPending zeroTime
      ((fun l => mkParlayLegRow (PL_MarketID l) (PL_SelectionID l) (PL_MarketTitle l) (PL_AcceptedTerms l)
                   (PL_AcceptedOdds l) no_result) <$> Legs parlay)))).

(** ** Settlement inside the market's transaction *)

(** The postings and type of a settled parlay's transaction. *)
Definition parlay_postings (outcome : ParlayOutcome) (user escrow house : string)
    : result (TransactionType * list Posting) :=
  negatedStake ← Negate (PO_Stake outcome);
  match PO_Result outcome with
  | ResultWin =>
      negatedProfit ← Negate (PO_Profit outcome);
      Ok (TransactionWagerWin,
          [mkPosting escrow negatedStake; mkPosting house negatedProfit; mkPosting user (Returns outcome)])
  | ResultLoss => Ok (TransactionWagerLoss, [mkPosting escrow negatedStake; mkPosting house (PO_Stake outcome)])
  | _ => Ok (TransactionWagerRefund, [mkPosting escrow negatedStake; mkPosting user (PO_Stake outcome)])
  end.

(** A dead parlay grades on what is known. *)
Definition void_open_legs (legs : list ParlayLeg) : list ParlayLeg :=
  (fun l => if bool_decide (PL_Result l = no_result) then set_Leg_Result ResultVoid l else l) <$> legs.

Definition leg_open (l : ParlayLeg) : bool := bool_decide (PL_Result l = no_result).
Definition known_legs (p : Parlay) : Parlay :=
  if existsb leg_lost (Legs p) then set_Legs (void_open_legs (Legs p)) p else p.

Definition insert_parlay_settlement (row : ParlaySettlementRow) d : result DB :=
  if existsb (fun r => bool_decide (ps_parlay_id r = ps_parlay_id row)) (parlay_settlements d) then Ok d
  else Ok (with_parlay_settlements (parlay_settlements d ++ [row]) d).

Definition settle_parlay_row parlayID d : result DB :=
  Ok (with_parlays (alter (fun r => set_pr_parlay (set_Parlay_State WagerSettled (pr_parlay r)) r) parlayID
                      (parlays d)) d).

Definition settleParlayIfCompleteTx parlayID (juice : Z) : go unit :=
  parlay ← loadParlayForGrading parlayID;
  let open := existsb leg_open (Legs parlay) in
  let lost := existsb leg_lost (Legs parlay) in
  if open && negb lost then mret ()
  else
    let parlay := known_legs parlay in
    outcome ← lift (GradeParlay float_to_int64 parlay juice);
    let currency := Money_Currency (Parlay_Stake parlay) in
    userAccountID ← ensureUserAccount (Parlay_UserID parlay) (Parlay_Funding parlay) currency;
    escrowAccountID ← ensureSystemAccount "wager_escrow" currency;
    houseAccountID ← ensureSystemAccount "house_clearing" currency;
    '(transactionType, postings) ← lift (parlay_postings outcome userAccountID escrowAccountID houseAccountID);
    let transaction := mkTransaction transactionType currency ("parlay:" ++ parlayID ++ ":settlement")%string
        "system:parlay-settlement" "parlay" parlayID "" "" postings in
    lift (wrap_err "build parlay settlement transaction: %w" (Transaction_Validate transaction));;
    transactionID ← insertLedgerTransaction transaction;
    exec "insert parlay settlement: %w"
      (insert_parlay_settlement (mkParlaySettlementRow parlayID outcome transactionID));;
    exec "mark parlay settled: %w" (settle_parlay_row parlayID).

(** The open legs on a market of accepted parlays: parlay and selection. *)
Definition open_legs_on (marketID : string) d : list (string * string) :=
  map_to_list (parlays d) ≫= fun kr =>
    if bool_decide (Parlay_State (pr_parlay kr.2) = WagerAccepted) then
      (fun l => (kr.1, PL_SelectionID l))
        <$> List.filter (fun l => bool_decide (PL_MarketID l = marketID) && leg_open l) (Legs (pr_parlay kr.2))
    else [].

(** [UPDATE parlay_legs SET result = $3 WHERE parlay_id = $1 AND selection_id
    = $2 AND result IS NULL] *)
Definition resolve_leg parlayID (selectionID : string) (res : SettlementResult) d : result DB :=
  Ok (with_parlays
        (alter (fun r => set_pr_parlay (set_Legs
            ((fun l => if bool_decide (PL_SelectionID l = selectionID) && leg_open l then set_Leg_Result res l else l)
               <$> Legs (pr_parlay r)) (pr_parlay r)) r) parlayID (parlays d)) d).

Definition leg_result (outcome : gmap string SettlementResult) (voided : bool) (selectionID : string)
    : result SettlementResult :=
  if voided then Ok ResultVoid
  else match outcome !! selectionID with
       | None => Err (Wrapf "%w: parlay leg selection %s has no outcome" ErrIncompleteOutcome)
       | Some graded => Ok graded
       end.

Fixpoint resolve_legs (outcome : gmap string SettlementResult) (voided : bool) (legs : list (string * string)) : go unit :=
  match legs with
  | [] => mret ()
  | (parlayID, selectionID) :: rest =>
      res ← lift (leg_result outcome voided selectionID);
      exec "resolve parlay leg: %w" (resolve_leg parlayID selectionID res);;
      resolve_legs outcome voided rest
  end.

Fixpoint settle_parlays (parlayIDs : list string) (juice : Z) : go unit :=
  match parlayIDs with
  | [] => mret ()
  | parlayID :: rest => settleParlayIfCompleteTx parlayID juice;; settle_parlays rest juice
  end.

(** The parlays touched, a Go map ranged over in no particular order. *)
Definition affected_parlays (legs : list (string * string)) : list string :=
  range_keys (list_to_map ((fun l => (l.1, ())) <$> legs) : gmap string unit).

Definition resolveParlayLegsTx (marketID : string) (outcome : gmap string SettlementResult) (voided : bool)
    (juice : Z) : go unit :=
  legs ← query "load open parlay legs: %w" (fun d => c ← cast marketID; Ok (open_legs_on c d));
  resolve_legs outcome voided legs;;
  settle_parlays (affected_parlays legs) juice.
End parlay_store.

(** ** Postings to distinct accounts *)
Lemma validate_postings_distinct c ps seen sum r :
  validate_postings_loop c ps seen sum = Ok r ->
  NoDup (posting_account <$> ps) /\ Forall (fun p => posting_account p ∉ seen) ps.
Proof.
  revert seen sum. induction ps as [|p ps IH]; intros seen sum H; cbn in H; [split; constructor|].
  go_inv. bool_prop. apply IH in H as [Hnd Hseen]. split.
  - rewrite fmap_cons. constructor; [|done]. rewrite list_elem_of_fmap. intros (q & Hq1 & Hq2).
    rewrite Forall_forall in Hseen. specialize (Hseen q Hq2). fold (posting_account p) in Hseen. set_solver.
  - constructor; [done|]. eapply Forall_impl; [exact Hseen|]. set_solver.
Qed.

Lemma Transaction_Validate_distinct t u : Transaction_Validate t = Ok u -> NoDup (posting_account <$> Tx_Postings t).
Proof.
  intros H%Transaction_Validate_postings. unfold ValidatePostings in H. go_inv.
  match goal with Hl : validate_postings_loop _ _ _ _ = _ |- _ => by apply validate_postings_distinct in Hl as [? _] end.
Qed.

Lemma net_absent a ps : Forall (fun p => AccountID p <> a) ps -> net a ps = 0.
Proof.
  induction 1 as [|p ps Hp _ IH]; [done|]. rewrite net_cons, IH, bool_decide_false by done. done.
Qed.

Lemma net_distinct ps p : NoDup (posting_account <$> ps) -> p ∈ ps -> net (AccountID p) ps = Cents (Amount p).
Proof.
  induction ps as [|q ps IH]; [set_solver|]. rewrite fmap_cons, NoDup_cons. intros [Hq Hnd] Hin.
  rewrite net_cons. apply elem_of_cons in Hin as [->|Hin].
  - rewrite bool_decide_true, net_absent; [lia| |done]. rewrite Forall_forall. intros x Hx Heq. apply Hq.
    apply list_elem_of_fmap. exists x. unfold posting_account. by rewrite Heq.
  - rewrite bool_decide_false, IH; [done|done|done|]. intros Heq. apply Hq.
    apply list_elem_of_fmap. exists p. unfold posting_account. by rewrite Heq.
Qed.

(** ** The steps of the parlay operations *)
Section parlay_steps.
Context {E : environment}.

Lemma changes_parlay_unmoved id p p' d d' :
  parlays d !! id = Some p -> d' = with_parlays (<[id := p']> (parlays d)) d ->
  Parlay_Stake (pr_parlay p') = Parlay_Stake (pr_parlay p) ->
  parlay_held (pr_parlay p') = parlay_held (pr_parlay p) -> store_steps d d'.
Proof.
  intros Hp -> Hs Hh. apply rtc_once, (step_changes_parlay _ _ id p'). split; [done|by rewrite Hp| |done|done].
  exists []. split_and!; [by rewrite app_nil_r|done|]. intros escrow _. rewrite Hp. cbn. rewrite net_nil. lia.
Qed.

Lemma quiet_steps d d' : quiet d d' -> store_steps d d'.
Proof. intros H. by apply rtc_once, step_quiet. Qed.
Lemma accounts_only_steps d d' : accounts_only d d' -> store_steps d d'.
Proof. intros H. by apply quiet_steps, accounts_only_quiet. Qed.

(** A statement or a handler every successful run of which is a sequence of
    steps. *)
Definition stepping {A} (m : go A) : Prop := forall s s' a, m s = (s', Ok a) -> store_steps (db s) (db s').

Lemma stepping_still {A} (m : go A) : still_run m -> stepping m.
Proof. intros H s s' a Hr. by eapply accounts_only_steps, H. Qed.
Lemma stepping_bind {A B} (m : go A) (k : A -> go B) :
  stepping m -> (forall a, stepping (k a)) -> stepping (m ≫= k).
Proof. intros Hm Hk s s' b H. run_inv. etrans; [by eapply Hm|by eapply Hk]. Qed.
Lemma in_tx_steps {A} st (body : go (finish A)) s s' r :
  stepping body -> in_tx st body s = (s', r) -> store_steps (db s) (db s').
Proof.
  intros Hb [->|(s0 & s1 & w & a & H0 & H1 & -> & _)]%in_tx_run; [apply rtc_refl|]. rewrite <- H0. by eapply Hb.
Qed.

Lemma insert_leg_steps id l d d' : insert_leg id l d = Ok d' -> store_steps d d'.
Proof.
  unfold insert_leg. intros H. go_inv. destruct (parlays d !! v) as [r|] eqn:Er; go_inv.
  eapply changes_parlay_unmoved; [exact Er|done|done|done].
Qed.

Lemma stepping_insert_legs id legs : stepping (insert_legs id legs).
Proof.
  induction legs as [|l legs IH]; cbn [insert_legs]; [apply stepping_still, still_ret|].
  apply stepping_bind; [|done]. intros s s' a H%exec_run. by eapply insert_leg_steps.
Qed.

Lemma alter_as_insert {A} (f : A -> A) (m : gmap string A) i x : m !! i = Some x -> alter f i m = <[i := f x]> m.
Proof.
  intros Hx. apply map_eq. intros k. destruct (decide (k = i)) as [->|Hne].
  - by rewrite lookup_alter_eq, Hx, lookup_insert_eq.
  - by rewrite lookup_alter_ne, lookup_insert_ne.
Qed.

Lemma resolve_leg_steps id sel res d d' : resolve_leg id sel res d = Ok d' -> store_steps d d'.
Proof.
  unfold resolve_leg. intros [= <-]. destruct (parlays d !! id) as [r|] eqn:Er.
  - rewrite (alter_as_insert _ _ _ _ Er). by eapply changes_parlay_unmoved.
  - rewrite alter_id; [destruct d; apply rtc_refl|]. intros x Hx. congruence.
Qed.

Lemma stepping_resolve_legs outcome voided legs : stepping (resolve_legs outcome voided legs).
Proof.
  induction legs as [|[id sel] legs IH]; cbn [resolve_legs]; [apply stepping_still, still_ret|].
  apply stepping_bind; [apply stepping_still, still_lift|]. intros res. apply stepping_bind; [|done].
  intros s s' a H%exec_run. by eapply resolve_leg_steps.
Qed.

Lemma PlaceParlay_pending f c p : PlaceParlay f c = Ok p -> Parlay_State p = WagerPending.
Proof. unfold PlaceParlay. cbv zeta. intros H. go_inv. done. Qed.

Lemma insert_parlay_steps p d d' b :
  Parlay_State p = WagerPending -> insert_parlay p d = Ok (d', b) -> store_steps d d'.
Proof.
  intros Hp H. unfold insert_parlay in H. go_inv. case_match; go_inv; simplify_eq; [apply rtc_refl|].
  bool_prop. eapply rtc_once, step_changes_parlay. split; [done| | |done|done].
  - match goal with Hn : parlays d !! _ = None |- _ => rewrite Hn end. cbn. unfold parlay_held. cbn. by rewrite Hp.
  - exists []. split_and!; [by rewrite app_nil_r|done|]. intros escrow _.
    match goal with Hn : parlays d !! _ = None |- _ => rewrite Hn end. cbn. unfold parlay_held. cbn. by rewrite Hp.
Qed.

Lemma still_load_legs legs : still_run (load_legs legs).
Proof.
  induction legs as [|l legs IH]; cbn [load_legs]; still.
  - apply still_loadMarket.
  - unfold loadSelection. still.
  - apply still_loadRestrictions.
Qed.
Lemma still_loadParlay id : still_run (loadParlay id).
Proof. unfold loadParlay, loadParlayLegs. still. Qed.

Lemma Store_PlaceParlay_steps st req s s' r :
  Store_PlaceParlay st req s = (s', r) -> store_steps (db s) (db s').
Proof.
  unfold Store_PlaceParlay. destruct (negb _ || _); [by intros [= <- _]; apply rtc_refl|].
  case_bool_decide as Hlegs; [by intros [= <- _]; apply rtc_refl|]. apply in_tx_steps.
  apply stepping_bind; [apply stepping_still, still_load_legs|]. intros [[ms ss] rs].
  apply stepping_bind; [apply stepping_still, still_lift|]. intros stake.
  apply stepping_bind; [apply stepping_still, still_now|]. intros instant t t' a H. run_inv.
  - apply statement_run in Hrun0 as (n & Hi). match goal with Hp : PlaceParlay _ _ = Ok _ |- _ => apply PlaceParlay_pending in Hp end.
    etrans; [by eapply insert_parlay_steps|]. etrans; [by eapply stepping_insert_legs|].
    by eapply accounts_only_steps, still_loadParlay.
  - apply statement_run in Hrun0 as (n & Hi). match goal with Hp : PlaceParlay _ _ = Ok _ |- _ => apply PlaceParlay_pending in Hp end.
    etrans; [by eapply insert_parlay_steps|]. unfold loadParlayByIdempotency in *. run_inv.
    match goal with Hl : loadParlay _ _ = _ |- _ => apply still_loadParlay in Hl end.
    eapply accounts_only_steps. still_chain.
Qed.

(** *** One transaction out of a parlay's row *)

(** The parlay's own transaction and its new row, with what that does to
    escrow. *)
Lemma changes_parlay_moved id p p' x t d d1 d2 :
  parlays d !! id = Some p -> accounts_only d d1 ->
  parlays d2 = <[id := p']> (parlays d1) -> ledger d2 = ledger d1 ++ [x] ->
  wager_rows d2 = wager_rows d1 -> accounts d2 = accounts d1 -> users d2 = users d1 ->
  Parlay_Stake (pr_parlay p') = Parlay_Stake (pr_parlay p) ->
  ledger_of t x -> parlay_source t = true -> Tx_Currency t = Money_Currency (Parlay_Stake (pr_parlay p)) ->
  (forall escrow, compat escrow (Money_Currency (Parlay_Stake (pr_parlay p))) d1 ->
     net escrow (Tx_Postings t) = parlay_held (pr_parlay p') - parlay_held (pr_parlay p)) ->
  store_steps d d2.
Proof.
  intros Hp [W P L A] Hp2 Hl2 Hw2 Ha2 Hu2 Hst (Ht & Hc & _ & Hs & Hps) Hsrc Hcur Hnet.
  assert (Hg : accounts_grow d1 d2) by (by apply accounts_grow_same).
  eapply rtc_once, (step_changes_parlay _ _ id p').
  split; [by rewrite Hp2, P|by rewrite Hp| |by rewrite Hw2|by etrans].
  exists [x]. rewrite Hst, Hl2, L. split_and!; [done| |].
  - apply Forall_singleton. unfold parlay_row, parlay_source in *. rewrite Ht, Hs, Hc, Hsrc, Hcur. by rewrite bool_decide_true.
  - intros escrow He. rewrite Hp. cbn. rewrite app_nil_r. unfold row_postings. rewrite Hps. apply Hnet. by eapply compat_mono.
Qed.

Lemma loadParlayForUpdate_run id s s' state user funding cents cur :
  loadParlayForUpdate id s = (s', Ok (state, user, funding, cents, cur)) ->
  db s' = db s /\ exists c r, uuid_cast id = Some c /\ parlays (db s) !! c = Some r
    /\ state = Parlay_State (pr_parlay r) /\ Parlay_Stake (pr_parlay r) = mkMoney cents cur /\ int64 cents.
Proof.
  unfold loadParlayForUpdate. intros H. run_inv. go_inv. apply cast_Ok in Hok.
  destruct (parlays _ !! v) as [r|] eqn:Er; go_inv; simplify_eq.
  match goal with Hx : scan_int64 _ = _ |- _ => apply scan_int64_Ok in Hx as [-> Hx] end.
  split; [done|]. exists v, r. split_and!; try done. by destruct (Parlay_Stake (pr_parlay r)).
Qed.

Lemma update_parlay_run w id f s s' u c r :
  uuid_cast id = Some c -> parlays (db s) !! c = Some r -> update_parlay w id f s = (s', Ok u) ->
  exists r', f r = Ok r' /\ db s' = with_parlays (<[c := r']> (parlays (db s))) (db s).
Proof.
  intros Hc Hr H%exec_run. go_inv. apply cast_Ok in Hok. rewrite Hc in Hok. injection Hok as <-.
  rewrite Hr in H. go_inv. eauto.
Qed.

Lemma parlay_held_set_State st p :
  parlay_held (set_Parlay_State st p) = if bool_decide (st = WagerAccepted) then Cents (Parlay_Stake p) else 0.
Proof. done. Qed.
Lemma parlay_held_not st p : Parlay_State p = st -> st <> WagerAccepted -> parlay_held p = 0.
Proof. intros <- Hne. unfold parlay_held. by rewrite bool_decide_false. Qed.

Lemma Store_AcceptParlay_steps st id actor s s' r :
  Store_AcceptParlay st id actor s = (s', r) -> store_steps (db s) (db s').
Proof.
  unfold Store_AcceptParlay. destruct (negb _); [by intros [= <- _]; apply rtc_refl|].
  destruct (negb _); [by intros [= <- _]; apply rtc_refl|]. apply in_tx_steps. intros t t' a H. run_inv.
  - apply loadParlayForUpdate_run in Hrun as (Hd & _). eapply accounts_only_steps.
    apply still_loadParlay in Hrun0. still_chain.
  - apply loadParlayForUpdate_run in Hrun as (Hd & key & row & Hcast & Hrow & -> & Hstake & Hi).
    unfold count_decided, creditLimitForUser, NewMoney in *. store_facts. go_inv. bool_prop. simplify_eq.
    match goal with Hx : update_parlay _ _ _ ?a = _, Hl : db ?a = with_ledger (ledger (db ?b) ++ _) _ |- _ =>
      assert (Hs1 : accounts_only (db t) (db b)) by still_chain;
      eapply (update_parlay_run _ _ _ _ _ _ key row Hcast) in Hx as (row' & Hrow' & Hd');
        [|rewrite Hl; cbn; by rewrite (ao_parlays _ _ Hs1)] end.
    unfold accept_parlay_row in Hrow'. go_inv.
    match goal with Hx : loadParlay _ _ = _ |- _ => apply still_loadParlay in Hx as Hend end.
    etrans; [|by eapply accounts_only_steps, Hend]. rewrite Hd'.
    match goal with Hl : ledger_of ?t ?x, Hl' : db ?a = with_ledger (ledger (db ?b) ++ [?x]) _ |- _ =>
      eapply (changes_parlay_moved key row _ x t _ (db b)); [exact Hrow|exact Hs1|cbn; by rewrite Hl'|cbn; by rewrite Hl'|cbn; by rewrite Hl'|cbn; by rewrite Hl'|cbn; by rewrite Hl'|done|exact Hl
        |done|by rewrite Hstake|] end.
    intros escrow He. cbn [Tx_Postings pr_parlay].
    rewrite parlay_held_set_State, bool_decide_true, Hstake by done. rewrite (parlay_held_not WagerPending) by done.
    match goal with Hv : Transaction_Validate _ = Ok _ |- _ => apply Transaction_Validate_distinct in Hv; rename Hv into Hnd end.
    assert (Hesc : a3 = escrow).
    { rewrite Hstake in He. eapply (escrow_in c); [eassumption| |exact He]. eapply ao_accounts. clear Hs1. still_chain. }
    rewrite <- Hesc. pose proof (net_distinct _ (mkPosting a3 (mkMoney z c)) Hnd ltac:(cbn; set_solver)) as Hn.
    cbn in Hn |- *. lia.
Qed.

Lemma refuse_parlay_steps w id actor reason c r s s' u :
  uuid_cast id = Some c -> parlays (db s) !! c = Some r -> Parlay_State (pr_parlay r) = WagerPending ->
  update_parlay w id (reject_parlay_row actor reason) s = (s', Ok u) -> store_steps (db s) (db s').
Proof.
  intros Hc Hr Hp H. eapply update_parlay_run in H as (r' & Hr' & ->); [|done..].
  unfold reject_parlay_row in Hr'. go_inv. eapply changes_parlay_unmoved; [exact Hr|done|done|].
  cbn [pr_parlay]. by rewrite parlay_held_set_State, bool_decide_false, (parlay_held_not WagerPending).
Qed.

Lemma Store_RejectParlay_steps st id actor reason s s' r :
  Store_RejectParlay st id actor reason s = (s', r) -> store_steps (db s) (db s').
Proof.
  unfold Store_RejectParlay. do 2 (destruct (negb _); [by intros [= <- _]; apply rtc_refl|]). cbv zeta.
  case_bool_decide as Hreason; [by intros [= <- _]; apply rtc_refl|]. apply in_tx_steps. intros t t' a H. run_inv.
  apply loadParlayForUpdate_run in Hrun as (Hd & key & row & Hcast & Hrow & -> & _). bool_prop.
  rewrite <- Hd in Hrow |- *. by eapply refuse_parlay_steps.
Qed.

Lemma Store_CancelParlay_steps st id user s s' r :
  Store_CancelParlay st id user s = (s', r) -> store_steps (db s) (db s').
Proof.
  unfold Store_CancelParlay. do 2 (destruct (negb _); [by intros [= <- _]; apply rtc_refl|]).
  apply in_tx_steps. intros t t' a H. run_inv.
  apply loadParlayForUpdate_run in Hrun as (Hd & key & row & Hcast & Hrow & -> & _). bool_prop.
  rewrite <- Hd in Hrow |- *. by eapply refuse_parlay_steps.
Qed.

Lemma still_QuoteParlay st req : still_op (QuoteParlay st req).
Proof. unfold QuoteParlay. still. apply still_load_legs. Qed.

(** *** Settling a parlay *)
Lemma loadParlayForGrading_run id s s' p :
  loadParlayForGrading id s = (s', Ok p) ->
  db s' = db s /\ exists r, parlays (db s) !! id = Some r /\ p = grading_view (pr_parlay r) (Legs (pr_parlay r))
    /\ int64 (Cents (Parlay_Stake (pr_parlay r))).
Proof.
  unfold loadParlayForGrading. intros H. run_inv. destruct (parlays (db s) !! id) as [r|] eqn:Er; go_inv; simplify_eq.
  match goal with Hx : scan_int64 _ = _ |- _ => apply scan_int64_Ok in Hx as [-> Hx] end.
  split; [congruence|]. exists r. split_and!; [done| |done]. repeat match goal with Hx : db _ = db _ |- _ => rewrite Hx in * end.
  by rewrite Er.
Qed.

Lemma GradeParlay_stake f p juice o : GradeParlay f p juice = Ok o -> PO_Stake o = Parlay_Stake p.
Proof.
  unfold GradeParlay. cbv zeta. intros H. go_inv. repeat (case_match; go_inv; simplify_eq; try done).
Qed.

(** Whatever the outcome, the first posting releases the stake. *)
Lemma parlay_postings_head o user escrow house ty ps :
  int64 (Cents (PO_Stake o)) -> parlay_postings o user escrow house = Ok (ty, ps) ->
  bet_type ty = true /\ exists q rest, ps = q :: rest /\ AccountID q = escrow /\ Cents (Amount q) = - Cents (PO_Stake o).
Proof.
  intros Hi H. unfold parlay_postings in H. go_inv. apply Negate_Ok in Hok as (-> & _ & _); [|done].
  destruct (PO_Result o); go_inv; simplify_eq; (split; [done|]); eauto.
Qed.

Lemma known_legs_stake p : Parlay_Stake (known_legs p) = Parlay_Stake p.
Proof. unfold known_legs. by destruct (existsb _ _). Qed.

Lemma insert_parlay_settlement_keeps r d d' :
  insert_parlay_settlement r d = Ok d' ->
  parlays d' = parlays d /\ ledger d' = ledger d /\ wager_rows d' = wager_rows d /\ accounts d' = accounts d /\ users d' = users d.
Proof. unfold insert_parlay_settlement. intros H. go_inv. by destruct (existsb _ _); simplify_eq. Qed.

Lemma settleParlayIfCompleteTx_steps id juice s s' u r :
  parlays (db s) !! id = Some r -> Parlay_State (pr_parlay r) = WagerAccepted ->
  settleParlayIfCompleteTx id juice s = (s', Ok u) ->
  store_steps (db s) (db s') /\ forall i, i <> id -> parlays (db s') !! i = parlays (db s) !! i.
Proof.
  intros Hr Hacc H. unfold settleParlayIfCompleteTx in H. run_inv;
    apply loadParlayForGrading_run in Hrun as (Hd & r' & Hr' & -> & Hi); rewrite Hr in Hr'; injection Hr' as <-.
  - rewrite Hd. split; [apply rtc_refl|done].
  - store_facts.
    match goal with Hx : GradeParlay _ _ _ = Ok _ |- _ => apply GradeParlay_stake in Hx as Hst end.
    rewrite known_legs_stake in *. cbn [grading_view Parlay_Stake] in *.
    match goal with Hx : wrap_err _ _ = Ok _ |- _ => apply wrap_err_Ok, Transaction_Validate_distinct in Hx; cbn in Hx; rename Hx into Hnd end.
    match goal with Hx : parlay_postings _ _ _ _ = Ok _ |- _ =>
      apply parlay_postings_head in Hx as (Hbet & q & rest & -> & Hq & Hqc); [|by rewrite Hst] end.
    assert (Hs1 : accounts_only (db s) (db s4)) by still_chain.
    match goal with Hx : insert_parlay_settlement _ _ = Ok _ |- _ =>
      apply insert_parlay_settlement_keeps in Hx as (P6 & L6 & W6 & A6 & U6) end. match goal with Hx : settle_parlay_row _ _ = Ok _ |- _ =>
      unfold settle_parlay_row in Hx; injection Hx as Hx end.
    assert (Hp6 : parlays (db s6) = parlays (db s4)) by (rewrite P6; match goal with Hx : db s5 = _ |- _ => by rewrite Hx end).
    assert (Hr6 : parlays (db s6) !! id = Some r) by (rewrite Hp6, (ao_parlays _ _ Hs1); done).
    rewrite (alter_as_insert _ _ _ _ Hr6) in H. split.
    + match goal with Hl : ledger_of ?t ?x, Hl' : db s5 = _ |- _ =>
        eapply (changes_parlay_moved id r _ x t _ (db s4)); [exact Hr|exact Hs1|rewrite <- H; cbn; by rewrite Hp6
          |rewrite <- H; cbn; rewrite L6; by rewrite Hl'|rewrite <- H; cbn; rewrite W6; by rewrite Hl'
          |rewrite <- H; cbn; rewrite A6; by rewrite Hl'|rewrite <- H; cbn; rewrite U6; by rewrite Hl'|done|exact Hl|by unfold parlay_source; cbn; rewrite Hbet|done|] end.
      intros escrow He. cbn [Tx_Postings pr_parlay set_pr_parlay].
      rewrite parlay_held_set_State, bool_decide_false by done. unfold parlay_held. rewrite bool_decide_true by done.
      assert (Hesc : a2 = escrow).
      { eapply escrow_in; [eassumption| |exact He]. eapply ao_accounts. clear Hs1. still_chain. }
      rewrite <- Hesc, <- Hq, net_distinct by (done || set_solver). rewrite Hqc, Hst. lia.
    + intros i Hi'. rewrite <- H. cbn. rewrite lookup_insert_ne by done. by rewrite Hp6, (ao_parlays _ _ Hs1).
Qed.

Lemma settle_parlays_steps ids juice s s' u :
  NoDup ids ->
  (forall i, i ∈ ids -> exists r, parlays (db s) !! i = Some r /\ Parlay_State (pr_parlay r) = WagerAccepted) ->
  settle_parlays ids juice s = (s', Ok u) -> store_steps (db s) (db s').
Proof.
  revert s. induction ids as [|i ids IH]; intros s Hnd Hacc H; cbn [settle_parlays] in H; run_inv; [apply rtc_refl|].
  apply NoDup_cons in Hnd as [Hni Hnd]. destruct (Hacc i) as (r & Hr & Hst); [set_solver|].
  eapply settleParlayIfCompleteTx_steps in Hrun as [Hs Hkeep]; [|done..].
  etrans; [exact Hs|]. eapply IH; [done| |done]. intros j Hj. rewrite Hkeep by set_solver. apply Hacc. set_solver.
Qed.

(** Recording leg results keeps every parlay's state. *)
Lemma resolve_legs_states outcome voided legs s s' u :
  resolve_legs outcome voided legs s = (s', Ok u) ->
  forall i r, parlays (db s) !! i = Some r ->
    exists r', parlays (db s') !! i = Some r' /\ Parlay_State (pr_parlay r') = Parlay_State (pr_parlay r).
Proof.
  revert s. induction legs as [|[id sel] legs IH]; intros s H i r Hr; cbn [resolve_legs] in H; run_inv; [by exists r|].
  match goal with Hx : resolve_leg _ _ _ _ = Ok _ |- _ => unfold resolve_leg in Hx; injection Hx as Hx end.
  match goal with Hx : with_parlays _ (db ?a) = db ?b |- _ => assert (Hd : exists r1, parlays (db b) !! i = Some r1
    /\ Parlay_State (pr_parlay r1) = Parlay_State (pr_parlay r)); [rewrite <- Hx; cbn|] end.
  { repeat match goal with Hx : db _ = db _ |- _ => rewrite Hx in * end. destruct (decide (i = id)) as [->|Hne].
    - rewrite lookup_alter_eq, Hr. cbn. eauto.
    - rewrite lookup_alter_ne by done. eauto. }
  destruct Hd as (r1 & Hr1 & Hs1). eapply IH in H; [|exact Hr1]. destruct H as (r2 & ? & ?). exists r2. split; congruence.
Qed.

Lemma open_legs_accepted m d i sel :
  (i, sel) ∈ open_legs_on m d -> exists r, parlays d !! i = Some r /\ Parlay_State (pr_parlay r) = WagerAccepted.
Proof.
  unfold open_legs_on. intros ([k r] & Hin & Hkr)%list_elem_of_bind. apply elem_of_map_to_list in Hkr. cbn in *.
  case_bool_decide; [|set_solver]. apply list_elem_of_fmap in Hin as (l & [= -> _] & _). eauto.
Qed.

Lemma elem_of_affected {HE : environment_ok E} legs i :
  i ∈ affected_parlays legs -> exists sel, (i, sel) ∈ legs.
Proof.
  unfold affected_parlays, range_keys. rewrite map_order_perm. intros ([k []] & -> & Hin)%list_elem_of_fmap.
  apply elem_of_map_to_list in Hin. apply elem_of_list_to_map_2 in Hin.
  apply list_elem_of_fmap in Hin as ([k' sel] & [= ->] & Hin). eauto.
Qed.

Lemma NoDup_affected {HE : environment_ok E} legs : NoDup (affected_parlays legs).
Proof. unfold affected_parlays, range_keys. rewrite map_order_perm. apply NoDup_fst_map_to_list. Qed.

Lemma stepping_resolveParlayLegsTx {HE : environment_ok E} m outcome voided juice :
  stepping (resolveParlayLegsTx m outcome voided juice).
Proof.
  intros s s' u H. unfold resolveParlayLegsTx in H. run_inv. go_inv. simplify_eq.
  match goal with Hx : db ?a = db s |- _ => rename Hx into Hd end. rewrite <- Hd.
  etrans; [by eapply stepping_resolve_legs|]. eapply settle_parlays_steps; [apply NoDup_affected| |eassumption].
  intros i (sel & Hin)%elem_of_affected. apply open_legs_accepted in Hin as (r & Hr & Hs). rewrite <- Hd in Hr.
  eapply resolve_legs_states in Hr as (r' & Hr' & Hst); [|eassumption]. exists r'. split; congruence.
Qed.
End parlay_steps.
