(* ===== verification/MarketStore.v ===== *)
(** * internal/bettingpg: market.go, regrade.go, mapping.go, match_settlement.go and consumer.go

    Closing, settling, voiding and regrading a market, and the settlement of a
    match's markets from its verified result. *)
From S2P Require Import Prelude GoStrings GoTime Ledger Events Payloads Betting Placement Settlement SettlementProps Corrections Book Float64 Parlay Dispatcher OutboxPG SQL BettingDB StoreSteps PricingStore WagerStore ParlayStore.

Definition ErrNothingToRegrade := Sentinel "bettingpg.ErrNothingToRegrade".

Definition MarketCreatedType : EventType := "MarketCreated.v1".
Definition MarketOpenedType : EventType := "MarketOpened.v1".
Definition MarketClosedType : EventType := "MarketClosed.v1".

Record SettleMarketRequest := mkSettleMarketRequest {
  SMQ_MarketID : string;
  SMQ_Outcome : gmap string SettlementResult;
  SMQ_ActorUserID : string;
  SMQ_Reason : string;
  SMQ_VerifiedResultID : string;
  SMQ_DeadHeat : bool
}.
Record deadHeatSpec := mkDeadHeatSpec { declared : bool; divisor : Z }.
Record VoidMarketRequest := mkVoidMarketRequest {
  VMQ_MarketID : string;
  VMQ_ActorUserID : string;
  VMQ_Reason : string
}.
Record SettleReport := mkSettleReport {
  SR_MarketID : string;
  SR_SettlementID : string;
  SR_Version : Z;
  WinCount : Z;
  LossCount : Z;
  PushCount : Z;
  VoidCount : Z;
  TotalStakeCents : Z;
  TotalProfitCents : Z;
  TotalReturnedCents : Z
}.
Definition empty_report (marketID settlementID : string) (version : Z) : SettleReport :=
  mkSettleReport marketID settlementID version 0 0 0 0 0 0 0.

(** [switch result { case betting.ResultWin: report.WinCount++ ... }] and the
    int64 totals. *)
Definition count_result (res : SettlementResult) (stake profit returned : Z) (r : SettleReport) : SettleReport :=
  let one (x : SettlementResult) := if bool_decide (res = x) then 1 else 0 in
  mkSettleReport (SR_MarketID r) (SR_SettlementID r) (SR_Version r)
    (WinCount r + one ResultWin) (LossCount r + one ResultLoss) (PushCount r + one ResultPush)
    (VoidCount r + one ResultVoid) (wrap64 (TotalStakeCents r + stake)) (wrap64 (TotalProfitCents r + profit))
    (wrap64 (TotalReturnedCents r + returned)).
Definition report_settlement (s : WagerSettlement) : SettleReport -> SettleReport :=
  count_result (WS_Result s) (Cents (WS_Stake s)) (Cents (WS_Profit s)) (Cents (WS_Returned s)).

Definition set_mr_market (m : Market) (r : MarketRow) : MarketRow :=
  mkMarketRow m (created_by r) (dynamic_pricing r) (pricing_liquidity_cents r) (market_max_stake_cents r)
    (market_created_at r).

(** ** mapping.go *)
Definition sideSemanticKey (sideID : string) : string := ("side:" ++ sideID)%string.
Definition tieSemanticKey : string := "tie".

Definition recognized_key (key : string) : bool :=
  let key := TrimSpace key in
  negb (bool_decide (key = ""%string)) && (bool_decide (key = tieSemanticKey) || String.prefix "side:" key).

Definition buildMatchOutcome (selections : gmap string string) (outcome winningSideID : string)
    : option (gmap string SettlementResult) :=
  if bool_decide (size selections = 0%nat) then None
  else if bool_decide (map_Exists (fun _ key => recognized_key key = false) selections) then None
  else if bool_decide (outcome = "side_win"%string) then
    Some ((fun key => if bool_decide (key = sideSemanticKey winningSideID) then ResultWin else ResultLoss) <$> selections)
  else if bool_decide (outcome = "tie"%string) then
    let hasTieSelection := bool_decide (map_Exists (fun _ key => key = tieSemanticKey) selections) in
    Some ((fun key => if negb hasTieSelection then ResultPush
                      else if bool_decide (key = tieSemanticKey) then ResultWin else ResultLoss) <$> selections)
  else None.

Section market_store.
Context {E : environment}.
Implicit Types (st : Store) (d : DB) (marketID : string).

(** ** market.go *)

(** [UPDATE markets SET state = $to WHERE id = $1 AND state = $from] and
    whether a row was affected. *)
Definition move_market (wrap marketID : string) (from to_ : MarketState) : go bool :=
  statement wrap (fun _ d =>
    c ← cast marketID;
    match markets d !! c with
    | Some r => if bool_decide (Market_State (mr_market r) = from)
                then Ok (with_markets (<[c := set_mr_market (set_Market_State to_ (mr_market r)) r]> (markets d)) d, true)
                else Ok (d, false)
    | None => Ok (d, false)
    end).

(** An event on a market, published on the open transaction. *)
Definition publish_on_market (type_ : EventType) marketID (payload : list (string * JSONScalar)) : go unit :=
  eventID ← NewEventID;
  instant ← now;
  publish (mkEnvelope eventID "market" marketID 1 type_ (RawObject payload) (UTC instant) "" "").

Definition closeOpenMarketTx marketID : go unit :=
  affected ← move_market "close market %s: %w" marketID MarketOpen MarketClosed;
  if negb affected then failing (Errorf "close market %s: market was not open")
  else publish_on_market MarketClosedType marketID [("market_id"%string, JString marketID)].

Definition CloseMarket st marketID (actor : string) : go unit :=
  in_tx st (
    market ← loadMarketForUpdate marketID;
    if bool_decide (Market_State market = MarketClosed) then mret (Commit "%w" ())
    else if negb (MarketState_CanTransitionTo (Market_State market) MarketClosed)
    then failing (Wrapf "%w: market %s state %s cannot close" ErrMarketNotSettleable)
    else
      closeOpenMarketTx marketID;;
      mret (Commit "%w" ())).

Definition validateSettleableState (state : MarketState) (settlementType : string) (regrade : bool) : result unit :=
  if bool_decide (settlementType = "graded"%string) then
    if regrade && bool_decide (state = MarketSettled) then Ok ()
    else fail_if (negb (bool_decide (state = MarketClosed)) && negb (bool_decide (state = MarketSettlementPending)))
           (Wrapf "%w: state %s" ErrMarketNotSettleable)
  else match state with
       | MarketOpen | MarketClosed | MarketSettlementPending => Ok ()
       | _ => Err (Wrapf "%w: state %s" ErrMarketNotSettleable)
       end.

Definition settlements_of (market : string) d : list MarketSettlementRow :=
  List.filter (fun r => bool_decide (ms_market_id r = market)) (market_settlements d).
Definition max_version (l : list MarketSettlementRow) : Z := foldr (fun r m => Z.max (ms_version r) m) 0 l.

(** [ORDER BY version DESC LIMIT 1] *)
Definition latest (l : list MarketSettlementRow) : option MarketSettlementRow :=
  find (fun r => ms_version r =? max_version l) l.

Definition previousSettlementID marketID (version : Z) : go string :=
  query "load settlement superseded by version %d of market %s: %w" (fun d =>
    c ← cast marketID;
    r ← must_find (latest (List.filter (fun r => ms_version r <? version) (settlements_of c d)));
    Ok (ms_id r)).

Definition nextSettlementVersion marketID : go Z :=
  query "compute next settlement version for market %s: %w" (fun d =>
    c ← cast marketID;
    Ok (max_version (settlements_of c d) + 1)).

Definition insertMarketSettlement marketID (settlementID : string) (version : Z)
    (settlementType verifiedResultID actorUserID reason idempotencyKey supersedesID : string) : go (string * bool) :=
  let settledByUUID := if isUUID actorUserID then actorUserID else ""%string in
  let has_key market (r : MarketSettlementRow) :=
    bool_decide (ms_market_id r = market) && bool_decide (ms_idempotency_key r = idempotencyKey) in
  inserted ← statement "insert market settlement: %w" (fun _ d =>
    id ← cast settlementID;
    market ← cast marketID;
    verified ← cast_opt verifiedResultID;
    by_ ← cast_opt settledByUUID;
    supersedes ← cast_opt supersedesID;
    if existsb (has_key market) (market_settlements d) then Ok (d, None)
    else
      fail_if (existsb (fun r => bool_decide (ms_id r = id)
                 || (bool_decide (ms_market_id r = market) && (ms_version r =? version))) (market_settlements d))
        (Errorf "violates unique constraint");;
      fail_if (bool_decide (verified = ""%string) && (bool_decide (by_ = ""%string) || is_blank reason))
        (Errorf "violates check constraint");;
      Ok (with_market_settlements (market_settlements d
            ++ [mkMarketSettlementRow id market version settlementType verified by_ reason idempotencyKey supersedes]) d,
          Some id));
  match inserted with
  | Some id => mret (id, false)
  | None =>
      id ← query "load existing market settlement: %w" (fun d =>
             market ← cast marketID;
             r ← must_find (find (has_key market) (market_settlements d));
             Ok (ms_id r));
      mret (id, true)
  end.

Definition stored_outcomes (settlementID : string) d : gmap string SettlementResult :=
  list_to_map ((fun r => (oc_selection_id r, oc_outcome r))
    <$> List.filter (fun r => bool_decide (oc_settlement_id r = settlementID)) (outcomes d)).

Definition verifyOutcomeMatches (settlementID : string) (outcome : gmap string SettlementResult) : go unit :=
  stored ← query "load existing market settlement outcomes: %w" (fun d => c ← cast settlementID; Ok (stored_outcomes c d));
  lift (
    fail_if (negb (bool_decide (size stored = size outcome)))
      (Wrapf "%w: existing settlement covers %d selections, requested %d" ErrIdempotencyConflict);;
    fail_if (bool_decide (map_Exists (fun id res =>
               default ""%string (SettlementResult_text <$> stored !! id) <> SettlementResult_text res) outcome))
      (Wrapf "%w: selection %s outcome does not match existing settlement" ErrIdempotencyConflict)).

Definition loadExistingSettleReport (settlementID : string) marketID (version : Z) : go SettleReport :=
  query "load existing wager settlements: %w" (fun d =>
    c ← cast settlementID;
    Ok (foldl (fun r row => report_settlement (wsr_settlement row) r) (empty_report marketID settlementID version)
          (List.filter (fun row => bool_decide (WS_MarketSettlementID (wsr_settlement row) = c)) (wager_settlements d)))).

(** The account references and identifiers of every accepted wager, added to
    the three maps. *)
Fixpoint settlement_inputs (wagers : list Wager)
    (maps : gmap string SettlementAccountRefs * gmap string ID * gmap string ID)
    : go (gmap string SettlementAccountRefs * gmap string ID * gmap string ID) :=
  match wagers with
  | [] => mret maps
  | wager :: rest =>
      if negb (bool_decide (Wager_State wager = WagerAccepted)) then settlement_inputs rest maps
      else
        userAccountID ← ensureUserAccount (Wager_UserID wager) (Wager_Funding wager) (Money_Currency (Stake wager));
        escrowAccountID ← ensureSystemAccount "wager_escrow" (Money_Currency (Stake wager));
        houseAccountID ← ensureSystemAccount "house_clearing" (Money_Currency (Stake wager));
        wagerSettlementID ← NewEventID;
        wagerEventID ← NewEventID;
        let '(refs, settlementIDs, eventIDs) := maps in
        settlement_inputs rest
          (<[Wager_ID wager := mkSettlementAccountRefs userAccountID escrowAccountID houseAccountID]> refs,
           <[Wager_ID wager := wagerSettlementID]> settlementIDs, <[Wager_ID wager := wagerEventID]> eventIDs)
  end.

(** [for id, r := range outcome { INSERT INTO market_settlement_outcomes }] *)
Definition insert_outcome (settlementID marketID : string) (divisor : Z) (id : string) (res : SettlementResult) d
    : result DB :=
  settlement ← cast settlementID;
  market ← cast marketID;
  selection ← cast id;
  fail_if (bool_decide (selection_of market selection d = None)) (Errorf "violates foreign key constraint");;
  fail_if (existsb (fun r => bool_decide (oc_settlement_id r = settlement)
                      && bool_decide (oc_selection_id r = selection)) (outcomes d))
    (Errorf "violates unique constraint");;
  Ok (with_outcomes (outcomes d ++ [mkOutcomeRow settlement market selection res divisor]) d).

Fixpoint insert_outcomes (settlementID marketID : string) (outcome : gmap string SettlementResult) (divisor : Z)
    (ids : list string) : go unit :=
  match ids with
  | [] => mret ()
  | id :: rest =>
      match outcome !! id with
      | Some res =>
          let selectionDivisor := if bool_decide (res = ResultWin) then divisor else 1 in
          exec "insert market settlement outcome: %w" (insert_outcome settlementID marketID selectionDivisor id res)
      | None => mret ()
      end;;
      insert_outcomes settlementID marketID outcome divisor rest
  end.

Definition set_WS_ids (id settlementID : string) (s : WagerSettlement) : WagerSettlement :=
  mkWagerSettlement id (WS_WagerID s) settlementID (WS_Result s) (WS_Stake s) (WS_Profit s) (WS_Returned s)
    (WS_DeadHeatDivisor s) (WS_Transaction s).

Definition insert_wager_settlement (settlementID transactionID : string) (s : WagerSettlement) d : result DB :=
  id ← cast (WS_ID s);
  settlement ← cast settlementID;
  fail_if (existsb (fun r => bool_decide (WS_ID (wsr_settlement r) = id)
             || (bool_decide (WS_WagerID (wsr_settlement r) = WS_WagerID s)
                 && bool_decide (WS_MarketSettlementID (wsr_settlement r) = settlement))) (wager_settlements d))
    (Errorf "violates unique constraint");;
  Ok (with_wager_settlements (wager_settlements d ++ [mkWagerSettlementRow (set_WS_ids id settlement s) transactionID]) d).

Definition set_wager_state (wagerID : string) (state : WagerState) d : result DB :=
  Ok (with_wager_rows (alter (fun r => set_wr_wager (set_Wager_State state (wr_wager r)) r) wagerID (wager_rows d)) d).

(** The body of the loop over [result.Settlements], with the event at the same
    index, if there is one. *)
Definition record_settlement (insertedID : string) (settlement : WagerSettlement) (event : option Envelope) : go unit :=
  transactionID ← insertLedgerTransaction (WS_Transaction settlement);
  exec "insert wager settlement: %w" (insert_wager_settlement insertedID transactionID settlement);;
  let nextState := if bool_decide (WS_Result settlement = ResultVoid) then WagerVoided else WagerSettled in
  exec "update wager %s state: %w" (set_wager_state (WS_WagerID settlement) nextState);;
  match event with Some e => publish e | None => mret () end.

Fixpoint record_settlements (insertedID : string) (i : nat) (settlements : list WagerSettlement)
    (events : list Envelope) (report : SettleReport) : go SettleReport :=
  match settlements with
  | [] => mret report
  | settlement :: rest =>
      record_settlement insertedID settlement (events !! i);;
      record_settlements insertedID (S i) rest events (report_settlement settlement report)
  end.

Definition set_market_state marketID (state : MarketState) : go unit :=
  exec "update market %s state: %w" (fun d =>
    c ← cast marketID;
    Ok (with_markets (alter (fun r => set_mr_market (set_Market_State state (mr_market r)) r) c (markets d)) d)).

(** From the inserted settlement row on: grade or void, and record it. *)
Definition settle_market_tx (market : Market) (settlementType : string) (outcome : gmap string SettlementResult)
    (actorUserID reason : string) (regrade : bool) (deadHeat : deadHeatSpec) (settlementID insertedID : string)
    (version : Z) : go (finish SettleReport) :=
  let marketID := Market_ID market in
  let graded := bool_decide (settlementType = "graded"%string) in
  '(selections, _) ← loadSelections marketID;
  wagers ← loadWagersForMarketForUpdate marketID;
  '(refs, wagerSettlementIDs, wagerEventIDs) ← settlement_inputs wagers (∅, ∅, ∅);
  marketEventID ← NewEventID;
  instant ← now;
  result ← lift (
    if graded
    then SettleMarket (mkSettleMarketCommand market selections outcome wagers refs wagerSettlementIDs wagerEventIDs
           settlementID version actorUserID instant marketEventID regrade (declared deadHeat) (divisor deadHeat))
    else VoidMarket (mkVoidMarketCommand market wagers refs wagerSettlementIDs wagerEventIDs
           settlementID version actorUserID reason instant marketEventID));
  (if graded then insert_outcomes insertedID marketID outcome (SMR_DeadHeatDivisor result) (range_keys outcome)
   else mret ());;
  report ← record_settlements insertedID 0 (SMR_Settlements result) (SMR_WagerEvents result)
             (empty_report marketID insertedID version);
  set_market_state marketID (Market_State (SMR_Market result));;
  resolveParlayLegsTx marketID outcome (bool_decide (settlementType = "voided"%string)) parlayJuice;;
  publish (SMR_MarketEvent result);;
  mret (Commit "commit market settlement: %w" report).

Definition settlement_version_key marketID (version : Z) : string :=
  ("market:" ++ marketID ++ ":settlement:v" ++ sprint_d version)%string.

Definition settleWith st marketID (settlementType : string) (outcome : gmap string SettlementResult)
    (actorUserID reason verifiedResultID : string) (regrade : bool) (deadHeat : deadHeatSpec) : go SettleReport :=
  in_tx st (
    loaded ← loadMarketForUpdate marketID;
    market ← (if bool_decide (settlementType = "graded"%string) && bool_decide (Market_State loaded = MarketOpen)
              then closeOpenMarketTx marketID;; mret (set_Market_State MarketClosed loaded)
              else mret loaded);
    lift (validateSettleableState (Market_State market) settlementType regrade);;
    version ← nextSettlementVersion marketID;
    let idempotencyKey := settlement_version_key marketID version in
    settlementID ← NewEventID;
    supersedesID ← (if 1 <? version then previousSettlementID marketID version else mret ""%string);
    '(insertedID, existed) ← insertMarketSettlement marketID settlementID version settlementType verifiedResultID
                               actorUserID reason idempotencyKey supersedesID;
    if (existed : bool) then
      (if bool_decide (settlementType = "graded"%string) then verifyOutcomeMatches insertedID outcome else mret ());;
      report ← loadExistingSettleReport insertedID marketID version;
      mret (Commit "commit idempotent market settlement: %w" report)
    else
      settle_market_tx market settlementType outcome actorUserID reason regrade deadHeat settlementID insertedID version).

Definition settle st marketID (settlementType : string) (outcome : gmap string SettlementResult)
    (actorUserID reason verifiedResultID : string) (deadHeat : deadHeatSpec) : go SettleReport :=
  settleWith st marketID settlementType outcome actorUserID reason verifiedResultID false deadHeat.

Definition Store_SettleMarket st (req : SettleMarketRequest) : go SettleReport :=
  settle st (SMQ_MarketID req) "graded" (SMQ_Outcome req) (SMQ_ActorUserID req) (SMQ_Reason req)
    (SMQ_VerifiedResultID req) (mkDeadHeatSpec (SMQ_DeadHeat req) 0).

Definition Store_VoidMarket st (req : VoidMarketRequest) : go SettleReport :=
  settle st (VMQ_MarketID req) "voided" ∅ (VMQ_ActorUserID req) (VMQ_Reason req) "" (mkDeadHeatSpec false 0).

(** ** regrade.go *)
Record StrandedWagerRow := mkStrandedWagerRow {
  SW_WagerID : string;
  SW_MemberName : string;
  SW_Selection : string;
  SW_StakeCents : Z;
  SW_Result : SettlementResult
}.

(** The latest graded settlement of a market. *)
Definition latest_graded (market : string) d : option MarketSettlementRow :=
  latest (List.filter (fun r => bool_decide (settlement_type r = "graded"%string)) (settlements_of market d)).
Definition latest_outcomes (market : string) d : list OutcomeRow :=
  match latest_graded market d with
  | Some ms => List.filter (fun o => bool_decide (oc_settlement_id o = ms_id ms)) (outcomes d)
  | None => []
  end.

Definition placed_earlier (x y : Wager) : Prop := nanos (PlacedAt x) <= nanos (PlacedAt y).
#[export] Instance placed_earlier_dec : RelDecision placed_earlier.
Proof. intros x y. unfold placed_earlier. apply _. Defined.

(** The rows one accepted wager joins with. *)
Definition stranded_rows d (w : Wager) : list StrandedWagerRow :=
  match selections d !! Wager_SelectionID w with
  | None => []
  | Some s =>
      (fun o => mkStrandedWagerRow (Wager_ID w) (default ""%string (display_name <$> users d !! Wager_UserID w))
                  (DisplayTerms (sr_selection s)) (Cents (Stake w)) (oc_outcome o))
      <$> List.filter (fun o => bool_decide (oc_selection_id o = Wager_SelectionID w))
            (latest_outcomes (Wager_MarketID w) d)
  end.
Definition stranded_in (market : string) d : list StrandedWagerRow :=
  match markets d !! market with
  | Some m =>
      if bool_decide (Market_State (mr_market m) = MarketSettled) then
        merge_sort placed_earlier
          (List.filter (fun w => bool_decide (Wager_MarketID w = market) && is_accepted w)
             (wr_wager <$> (map_to_list (wager_rows d)).*2)) ≫= stranded_rows d
      else []
  | None => []
  end.

Definition StrandedWagers marketID : go (list StrandedWagerRow) :=
  if negb (isUUID marketID) then failing (Wrapf "%w: market %s" ErrNotFound)
  else query "load stranded wagers for market %s: %w" (fun d =>
    c ← cast marketID;
    Ok (stranded_in c d)).

Definition max_divisor (rows : list OutcomeRow) : Z := foldl (fun m r => Z.max m (oc_dead_heat_divisor r)) 1 rows.

Definition recordedOutcome marketID : go (gmap string SettlementResult * Z) :=
  query "load recorded outcome for market %s: %w" (fun d =>
    c ← cast marketID;
    let rows := latest_outcomes c d in
    Ok (list_to_map ((fun r => (oc_selection_id r, oc_outcome r)) <$> rows), max_divisor rows)).

Definition RegradeStrandedWagers st marketID (actorUserID reason : string) : go SettleReport :=
  if negb (isUUID marketID) then failing (Wrapf "%w: market %s" ErrNotFound)
  else if negb (isUUID actorUserID) then failing ErrUnauthorized
  else
    let reason := TrimSpace reason in
    if bool_decide (reason = ""%string) then failing ErrReasonRequired
    else
      stranded ← StrandedWagers marketID;
      if bool_decide (stranded = []) then failing ErrNothingToRegrade
      else
        '(outcome, divisor) ← recordedOutcome marketID;
        if bool_decide (size outcome = 0%nat)
        then failing (Wrapf "%w: no recorded outcome to regrade against" ErrNothingToRegrade)
        else settleWith st marketID "graded" outcome actorUserID reason "" true
               (mkDeadHeatSpec (1 <? divisor) divisor).

(** ** match_settlement.go *)
Record MatchSettleReport := mkMatchSettleReport {
  MSR_MatchID : string;
  Settled : list string;
  Skipped : list string
}.
Definition add_settled (id : string) (r : MatchSettleReport) := mkMatchSettleReport (MSR_MatchID r) (Settled r ++ [id]) (Skipped r).
Definition add_skipped (id : string) (r : MatchSettleReport) := mkMatchSettleReport (MSR_MatchID r) (Settled r) (Skipped r ++ [id]).

(** Markets of a match that can still be settled, [ORDER BY id], and their
    states. *)
Definition settleable_match_market (match_ : string) (kr : string * MarketRow) : bool :=
  let m := mr_market kr.2 in
  bool_decide (MatchID m = match_) && bool_decide (Market_Type m = MarketMatch)
  && bool_decide (Market_State m ∈ [MarketOpen; MarketClosed; MarketSettlementPending]).
Definition match_markets (match_ : string) d : list (string * MarketState) :=
  (fun kr => (kr.1, Market_State (mr_market kr.2)))
    <$> sort_by fst (List.filter (settleable_match_market match_) (map_to_list (markets d))).

Definition matchMarketsToSettle (matchID : string) : go (list (string * MarketState)) :=
  query "load match markets for match %s: %w" (fun d => c ← cast matchID; Ok (match_markets c d)).

Definition semantic_keys (market : string) d : gmap string string :=
  SemanticResultKey ∘ sr_selection
    <$> filter (fun kr => Selection_MarketID (sr_selection kr.2) = market) (selections d).

Definition selectionSemanticKeys marketID : go (gmap string string) :=
  query "load selection semantic keys for market %s: %w" (fun d => c ← cast marketID; Ok (semantic_keys c d)).

(** The body of the loop over the markets, on the report so far. *)
Definition settle_match_market st (outcome winningSideID verifiedResultID actor : string)
    (market : string * MarketState) (report : MatchSettleReport) : go MatchSettleReport :=
  let '(marketID, state) := market in
  (if bool_decide (state = MarketOpen)
   then wrapped "auto-close market %s before settlement: %w" (CloseMarket st marketID actor) else mret ());;
  semanticKeys ← selectionSemanticKeys marketID;
  match buildMatchOutcome semanticKeys outcome winningSideID with
  | None => mret (add_skipped marketID report)
  | Some marketOutcome =>
      wrapped "settle market %s: %w"
        (Store_SettleMarket st (mkSettleMarketRequest marketID marketOutcome actor "match result verified"
                                  verifiedResultID false));;
      mret (add_settled marketID report)
  end.

(** A report is returned beside an error as well. *)
Fixpoint settle_match_markets st (outcome winningSideID verifiedResultID actor : string)
    (markets : list (string * MarketState)) (report : MatchSettleReport) : go (MatchSettleReport * option error) :=
  match markets with
  | [] => mret (report, None)
  | market :: rest => fun s =>
      match settle_match_market st outcome winningSideID verifiedResultID actor market report s with
      | (s', Err e) => (s', Ok (report, Some e))
      | (s', Ok report') => settle_match_markets st outcome winningSideID verifiedResultID actor rest report' s'
      end
  end.

Definition SettleMatchMarkets st (matchID outcome winningSideID verifiedResultID actor : string)
    : go (MatchSettleReport * option error) := fun s =>
  let report := mkMatchSettleReport matchID [] [] in
  match matchMarketsToSettle matchID s with
  | (s', Err e) => (s', Ok (report, Some e))
  | (s', Ok markets) => settle_match_markets st outcome winningSideID verifiedResultID actor markets report s'
  end.

(** ** consumer.go *)
Definition matchSettlementActor : string := "system:settlement-worker".
Definition MatchSettlementConsumer_Handles (t : EventType) : bool := bool_decide (t = MatchResultVerified).

(** [json.Unmarshal] into the payload, on bytes the program did not marshal. *)
Context (unmarshal_bytes : string -> result MatchResultVerifiedPayload).

(** The store pointer may be nil; the warning about skipped markets is only
    logged. *)
Definition MatchSettlementConsumer_Handle (store : option Store) (envelope : Envelope) : go unit :=
  match store with
  | None => failing (Errorf "betting-match-settlement: store is required")
  | Some st =>
      payload ← lift (wrap_err "parse MatchResultVerified payload: %w" (unmarshal_MatchResultVerified unmarshal_bytes (Payload envelope)));
      '(report, err) ← SettleMatchMarkets st (MRV_MatchID payload) (MRV_Outcome payload) (MRV_WinningSideID payload)
                         (MRV_VerificationID payload) matchSettlementActor;
      match err with Some e => failing e | None => mret () end
  end.

(** ** reprice.go: the consumer of accepted wagers *)
Record pricing_payload := mkPricingPayload { PP_WagerID : string; PP_MarketID : string }.
Definition PricingConsumer_Handles (t : EventType) : bool := bool_decide (t = WagerAcceptedType).

Context (unmarshal_pricing_bytes : string -> result pricing_payload).
Definition unmarshal_pricing (m : RawMessage) : result pricing_payload :=
  match m with
  | RawObject fields =>
      wagerID ← string_field "wager_id" fields;
      marketID ← string_field "market_id" fields;
      Ok (mkPricingPayload wagerID marketID)
  | RawBytes _ raw => unmarshal_pricing_bytes raw
  end.

(** That the line moved is only logged. *)
Definition PricingConsumer_Handle (store : option Store) (envelope : Envelope) : go unit :=
  match store with
  | None => failing (Errorf "betting-dynamic-pricing: store is required")
  | Some st =>
      payload ← lift (wrap_err "parse WagerAccepted payload: %w" (unmarshal_pricing (Payload envelope)));
      RepriceMarketAfterWager st (PP_MarketID payload) (PP_WagerID payload);;
      mret ()
  end.
End market_store.

(** ** What the operations do to the book *)

(** Wagers are stored under their identifiers. *)
Definition keyed (d : DB) : Prop := forall id r, wager_rows d !! id = Some r -> Wager_ID (wr_wager r) = id.

Lemma keyed_insert d d' id r :
  wager_rows d' = <[id := r]> (wager_rows d) -> Wager_ID (wr_wager r) = id -> keyed d -> keyed d'.
Proof. intros H Hid Hk i x. rewrite H, lookup_insert_Some. intros [[<- <-]|[_ Hx]]; [done|by apply Hk]. Qed.

Lemma store_step_keyed d d' : store_step d d' -> keyed d -> keyed d'.
Proof.
  intros [[Hw _ _ _]|c [_ (id & r & _ & Hid & _ & Hw) _ _ _]|id r r' ps [Ho Hw [Hid _] _ _ _ _]|id p' [_ _ _ Hw _]] Hk.
  - intros i x. rewrite Hw. apply Hk.
  - by eapply keyed_insert.
  - eapply keyed_insert; [exact Hw| |exact Hk]. rewrite Hid. by apply Hk.
  - intros i x. rewrite Hw. apply Hk.
Qed.
Lemma store_steps_keyed d d' : store_steps d d' -> keyed d -> keyed d'.
Proof. induction 1 as [|x y z Hxy _ IH]; [done|]. intros Hk. by eapply IH, store_step_keyed. Qed.

(** The wagers of a market, loaded: each is the row under its identifier. *)
Lemma wagers_of_rows m d :
  keyed d -> NoDup (Wager_ID <$> wagers_of m d)
  /\ forall w, w ∈ wagers_of m d -> exists r, wager_rows d !! Wager_ID w = Some r /\ wagerRow r = w.
Proof.
  intros Hk. split.
  - unfold wagers_of. rewrite (fmap_Permutation _ _ _ (sort_by_perm _ _)).
    apply NoDup_fmap_filter.
    rewrite <- !list_fmap_compose. rewrite (list_fmap_ext _ fst); [apply NoDup_fst_map_to_list|].
    intros i [id r] Hi. apply list_elem_of_lookup_2, elem_of_map_to_list in Hi. by apply Hk.
  - intros w Hin. unfold wagers_of in Hin. rewrite sort_by_perm in Hin. apply filter_bool_elem in Hin as [Hin _].
    apply list_elem_of_fmap in Hin as (r & -> & Hin). apply list_elem_of_fmap in Hin as ([id r'] & -> & Hin).
    apply elem_of_map_to_list in Hin. exists r'. split; [|done]. cbn. by rewrite (Hk _ _ Hin).
Qed.

(** What grading one wager computed, whichever market command did it. *)
Definition grades (refs : gmap string SettlementAccountRefs) (w : Wager) (g : graded) : Prop :=
  exists r res msid wsid version actor at_ eid d,
    refs !! Wager_ID w = Some r /\ settleWager w res r msid wsid version actor at_ eid d = Ok g.2.

Lemma wager_refs_Ok refs sids eids w x :
  wager_refs refs sids eids w = Ok x -> refs !! Wager_ID w = Some x.1.1.
Proof. unfold wager_refs. destruct (refs !! _); [|done]. intros H. go_inv. done. Qed.

Lemma settle_one_grades c at_ d w g : settle_one c at_ d w = Ok g -> grades (SMC_Refs c) w g.
Proof.
  unfold settle_one, grades. destruct (Outcome c !! _); [|done]. intros H. go_inv.
  destruct v as [[refs sid] eid]. go_inv. match goal with Hx : wager_refs _ _ _ _ = _ |- _ => apply wager_refs_Ok in Hx end.
  subst. eauto 12.
Qed.
Lemma void_one_grades c at_ w g : void_one c at_ w = Ok g -> grades (VMC_Refs c) w g.
Proof.
  unfold void_one, grades. intros H. go_inv.
  destruct v as [[refs sid] eid]. go_inv. match goal with Hx : wager_refs _ _ _ _ = _ |- _ => apply wager_refs_Ok in Hx end.
  subst. eauto 12.
Qed.

Lemma settlement_amounts_type w res refs d m ty profit returned ps :
  settlement_amounts w res refs d m = Ok (ty, profit, returned, ps) -> bet_type ty = true.
Proof. unfold settlement_amounts. intros H. destruct res; [destruct (deadHeatSplit _ _)|..]; go_inv; cbv zeta in *; by simplify_eq. Qed.
Lemma settleWager_shape w res refs msid wsid version actor at_ eid d ws w' ev :
  settleWager w res refs msid wsid version actor at_ eid d = Ok (ws, w', ev) ->
  WS_WagerID ws = Wager_ID w /\ w' = set_Wager_State (if bool_decide (WS_Result ws = ResultVoid) then WagerVoided else WagerSettled) w
  /\ wager_source (WS_Transaction ws) = true /\ Tx_Currency (WS_Transaction ws) = Money_Currency (Stake w).
Proof.
  unfold settleWager. cbv zeta. intros H. go_inv. destruct v2 as [[[? ?] ?] ?]. go_inv. simplify_eq.
  match goal with Hs : settlement_amounts _ _ _ _ _ = _ |- _ => apply settlement_amounts_type in Hs as Ht end.
  unfold wager_source. cbn. by rewrite Ht.
Qed.

Section market_steps.
Context {E : environment} {HE : environment_ok E}.

(** The escrow account of every wager in the list that the map names is the
    stored one of the wager's currency. *)
Definition refs_stored (d : DB) (refs : gmap string SettlementAccountRefs) (ws : list Wager) : Prop :=
  forall i x, refs !! i = Some x -> exists w, w ∈ ws /\ Wager_ID w = i
    /\ accounts d !! escrow_key (Money_Currency (Stake w)) = Some (SAR_EscrowAccountID x).

Lemma refs_stored_mono d d' refs ws ws' :
  accounts d ⊆ accounts d' -> ws ⊆ ws' -> refs_stored d refs ws -> refs_stored d' refs ws'.
Proof.
  intros Ha Hw H i x Hx. destruct (H i x Hx) as (w & Hin & Hid & Hacc). exists w.
  split_and!; [by apply Hw|done|by eapply lookup_weaken].
Qed.

Lemma settlement_inputs_run all wagers maps s s' out :
  settlement_inputs wagers maps s = (s', Ok out) -> wagers ⊆ all -> refs_stored (db s) maps.1.1 all ->
  accounts_only (db s) (db s') /\ refs_stored (db s') out.1.1 all.
Proof.
  revert maps s. induction wagers as [|w ws IH]; intros [[refs sids] eids] s H Hsub Hst; cbn [settlement_inputs] in H.
  - run_inv. by subst.
  - assert (ws ⊆ all) by set_solver. run_inv; [by apply IH in H|]. store_facts. apply IH in H as [Ha Hr]; [|done|].
    + split; [|done]. eapply (transitivity (y := db s4)); [still_chain|done].
    + cbn. assert (Hgrow : accounts (db s) ⊆ accounts (db s4)) by (eapply ag_subset, ao_accounts; still_chain).
      intros i y. cbn in Hst |- *. rewrite lookup_insert_Some. intros [[<- <-]|[_ Hy]].
      * exists w. split_and!; [set_solver|done|]. cbn. eapply lookup_weaken; [eassumption|].
        eapply ag_subset, ao_accounts. still_chain.
      * destruct (Hst i y Hy) as (w' & ? & ? & Hacc). exists w'. split_and!; [done..|]. by eapply lookup_weaken.
Qed.

Lemma insert_wager_settlement_Ok sid tid ws d d' :
  insert_wager_settlement sid tid ws d = Ok d' -> exists x, d' = with_wager_settlements x d.
Proof. unfold insert_wager_settlement. intros H. go_inv. eauto. Qed.

Lemma record_settlement_steps refs insertedID w g r ev s s' u :
  wager_rows (db s) !! Wager_ID w = Some r -> wagerRow r = w -> grades refs w g ->
  (forall x, refs !! Wager_ID w = Some x ->
     accounts (db s) !! escrow_key (Money_Currency (Stake w)) = Some (SAR_EscrowAccountID x)) ->
  record_settlement insertedID g.2.1.1 ev s = (s', Ok u) ->
  store_steps (db s) (db s')
  /\ exists r', wager_rows (db s') = <[Wager_ID w := r']> (wager_rows (db s)) /\ accounts (db s) ⊆ accounts (db s').
Proof.
  intros Hr Hw (x & res & msid & wsid & version & actor & at_ & eid & dv & Hx & Hg) Hacc H.
  destruct g as [o [[ws w'] ev']]. cbn [fst snd] in *. apply settleWager_shape in Hg as Hsh.
  destruct Hsh as (Hid & Hw' & Hsrc & Hcur).
  unfold record_settlement in H. run_inv; store_facts;
    match goal with Hi : insert_wager_settlement _ _ _ _ = Ok _ |- _ => apply insert_wager_settlement_Ok in Hi as (y & Hi) end;
    unfold set_wager_state in *; rewrite Hid in *;
    match goal with Hu : Ok _ = Ok (db ?a) |- _ => injection Hu as Hu; rename Hu into Hset end.
  all: match goal with Hi : db ?b = with_wager_settlements _ (db ?a), Hl : db ?a = with_ledger _ _ |- _ =>
         rewrite Hi, Hl in Hset end.
  all: cbn in Hset; rewrite (alter_as_insert _ _ _ _ Hr) in Hset.
  1: rename H into Hpub.
  2: assert (Hpub : accounts_only (db s2) (db s2)) by done.
  all: split; [|eexists; split; [etrans; [exact (ao_wagers _ _ Hpub)|by rewrite <- Hset]
                                |etrans; [|apply ag_subset, ao_accounts, Hpub]; by rewrite <- Hset]].
  all: rewrite <- Hw in Hcur; destruct (ledger_of_book_row _ _ _ H1 Hsrc Hcur) as [Hb Hp].
  all: eapply one_wager_step, (changes_wager_moved (Wager_ID w) r _ x0 (db s) (with_wager_settlements y (db s)) (db s2) _ Hr);
    [by split|symmetry; exact Hset|exact Hpub|done|done|exact Hb|].
  all: intros escrow He; rewrite Hp, wagerRow_set_State, Hw, <- Hw'; eapply op_grade; [|exact Hg].
  all: specialize (Hacc x Hx); rewrite <- Hw in Hacc; apply He; exact Hacc.
Qed.

Lemma record_settlements_steps refs insertedID ws gs i events report s s' out :
  NoDup (Wager_ID <$> ws) -> Forall2 (grades refs) ws gs ->
  (forall w, w ∈ ws -> exists r, wager_rows (db s) !! Wager_ID w = Some r /\ wagerRow r = w) ->
  (forall w x, w ∈ ws -> refs !! Wager_ID w = Some x ->
     accounts (db s) !! escrow_key (Money_Currency (Stake w)) = Some (SAR_EscrowAccountID x)) ->
  record_settlements insertedID i ((fun g => g.2.1.1) <$> gs) events report s = (s', Ok out) ->
  store_steps (db s) (db s').
Proof.
  intros Hnd Hgs. revert i report s. induction Hgs as [|w g ws gs Hg Hgs IH]; intros i report s Hrows Hacc H;
    cbn [fmap list_fmap record_settlements] in H; run_inv; [apply rtc_refl|].
  rewrite fmap_cons in Hnd. apply NoDup_cons in Hnd as [Hni Hnd].
  destruct (Hrows w) as (r & Hr & Hw); [set_solver|].
  eapply record_settlement_steps in Hrun as [Hs (r' & Hrows' & Hsub)]; [|exact Hr|exact Hw|exact Hg|].
  2: { intros x. apply Hacc. set_solver. }
  etrans; [exact Hs|]. eapply IH; [done| | |exact H].
  - intros v Hv. destruct (Hrows v) as (rv & Hrv & Hv'); [set_solver|]. exists rv. split; [|done].
    rewrite Hrows', lookup_insert_ne; [done|]. intros Heq. apply Hni. rewrite Heq. by apply list_elem_of_fmap_2.
  - intros v x Hv Hx. eapply lookup_weaken; [|exact Hsub]. apply Hacc; [set_solver|done].
Qed.

(** What either market command graded. *)
Definition grades_all (refs : gmap string SettlementAccountRefs) (wagers : list Wager) (r : SettleMarketResult) : Prop :=
  exists gs, Forall2 (grades refs) (sort_by Wager_ID (List.filter is_accepted wagers)) gs
    /\ SMR_Settlements r = (fun g => g.2.1.1) <$> gs.

Lemma SettleMarket_grades_all c r : SettleMarket c = Ok r -> grades_all (SMC_Refs c) (SMC_Wagers c) r.
Proof.
  intros (d & gs & _ & Hf & _ & _ & Hs & _)%SettleMarket_Ok. exists gs. split; [|done].
  eapply Forall2_impl; [exact Hf|]. intros w g. apply settle_one_grades.
Qed.
Lemma VoidMarket_grades_all c r : VoidMarket c = Ok r -> grades_all (VMC_Refs c) (VMC_Wagers c) r.
Proof.
  intros (gs & Hf & _ & _ & Hs & _)%VoidMarket_Ok. exists gs. split; [|done].
  eapply Forall2_impl; [exact Hf|]. intros w g. apply void_one_grades.
Qed.

Lemma still_move_market w m from to_ : still_run (move_market w m from to_).
Proof.
  apply still_statement. intros n d d' a H. go_inv. destruct (markets d !! v); [|by simplify_eq].
  case_bool_decide; by simplify_eq.
Qed.
Lemma still_publish_on_market t m p : still_run (publish_on_market t m p).
Proof. unfold publish_on_market. still. Qed.
Lemma still_closeOpenMarketTx m : still_run (closeOpenMarketTx m).
Proof.
  unfold closeOpenMarketTx. apply still_bind; [apply still_move_market|]. intros. still. apply still_publish_on_market.
Qed.
Lemma still_previousSettlementID m v : still_run (previousSettlementID m v).
Proof. unfold previousSettlementID. still. Qed.
Lemma still_insertMarketSettlement m sid v t vr actor reason key sup :
  still_run (insertMarketSettlement m sid v t vr actor reason key sup).
Proof.
  unfold insertMarketSettlement. cbv zeta. apply still_bind; [|intros; still]. apply still_statement.
  intros n d d' a H. go_inv. case_match; [by simplify_eq|]. go_inv. by simplify_eq.
Qed.
Lemma still_insert_outcomes sid m o d ids : still_run (insert_outcomes sid m o d ids).
Proof. induction ids as [|id ids IH]; cbn [insert_outcomes]; still.
  apply still_exec. intros d1 d2 Hi. unfold insert_outcome in Hi. go_inv. by simplify_eq.
Qed.
Lemma still_set_market_state m s : still_run (set_market_state m s).
Proof. unfold set_market_state. still. Qed.

Lemma loadWagers_run m s s' ws :
  loadWagersForMarketForUpdate m s = (s', Ok ws) -> db s' = db s /\ exists c, ws = wagers_of c (db s).
Proof. unfold loadWagersForMarketForUpdate. intros H. run_inv. go_inv. subst. eauto. Qed.

Lemma settle_market_tx_steps market ty outcome actor reason regrade dh sid iid v s s' a :
  keyed (db s) -> settle_market_tx market ty outcome actor reason regrade dh sid iid v s = (s', Ok a) ->
  store_steps (db s) (db s').
Proof.
  intros Hk H. unfold settle_market_tx in H. cbv zeta in H.
  apply bind_run in H as ([sels keys] & s1 & Hsel & H). unfold loadSelections in Hsel. apply query_run in Hsel as [Hd1 _].
  apply bind_run in H as (ws & s2 & Hws & H). apply loadWagers_run in Hws as (Hd2 & c & Hws).
  apply bind_run in H as ([[refs sids] eids] & s3 & Hin & H).
  apply (settlement_inputs_run ws) in Hin as [Hao Hst]; [|done|by intros i x].
  apply bind_run in H as (meid & s4 & Hd4 & H). apply NewEventID_run in Hd4.
  apply bind_run in H as (instant & s5 & Hd5 & H). apply now_run in Hd5 as [Hd5 _].
  apply bind_run in H as (res & s6 & Hres & H). apply lift_run in Hres as [-> Hres].
  assert (Hgr : grades_all refs ws res).
  { case_match; [by apply SettleMarket_grades_all in Hres|by apply VoidMarket_grades_all in Hres]. }
  clear Hres. apply bind_run in H as (u1 & s7 & Hout & H).
  still_in Hout; [apply still_insert_outcomes|]. rename Hout into Hao7.
  apply bind_run in H as (report & s8 & Hrec & H). apply bind_run in H as (u2 & s9 & Hset & H).
  apply still_set_market_state in Hset. apply bind_run in H as (u3 & s10 & Hpar & H).
  apply stepping_resolveParlayLegsTx in Hpar. apply bind_run in H as (u4 & s11 & Hpub & H).
  apply still_publish in Hpub. apply ret_run in H as [-> _].
  assert (Hs7 : accounts_only (db s) (db s7)).
  { etrans; [|exact Hao7]. rewrite Hd5, Hd4, <- Hd1, <- Hd2. exact Hao. }
  assert (Hs2 : db s2 = db s) by congruence.
  destruct Hgr as (gs & Hf & Hs). rewrite Hs in Hrec.
  destruct (wagers_of_rows c (db s) Hk) as [Hnd Hrows]. rewrite Hd1 in Hws.
  etrans; [by apply accounts_only_steps, Hs7|]. etrans.
  - eapply record_settlements_steps; [|exact Hf| | |exact Hrec].
    + rewrite (fmap_Permutation _ _ _ (sort_by_perm _ _)). apply NoDup_fmap_filter. by rewrite Hws.
    + intros w Hw. rewrite sort_by_perm in Hw. apply filter_bool_elem in Hw as [Hw _]. rewrite Hws in Hw.
      rewrite (ao_wagers _ _ Hs7). by apply Hrows.
    + intros w x Hw Hx. rewrite sort_by_perm in Hw. apply filter_bool_elem in Hw as [Hw _].
      destruct (Hst _ _ Hx) as (w2 & Hw2 & Hid & Hacc). rewrite Hws in Hw, Hw2.
      destruct (Hrows w Hw) as (r & Hr & <-). destruct (Hrows w2 Hw2) as (r2 & Hr2 & <-). rewrite Hid in Hr2.
      simplify_eq. eapply lookup_weaken; [exact Hacc|]. rewrite <- Hd4, <- Hd5. apply ag_subset, ao_accounts, Hao7.
  - etrans; [by apply accounts_only_steps, Hset|]. etrans; [exact Hpar|]. by apply accounts_only_steps, Hpub.
Qed.

Lemma still_keyed d d' : accounts_only d d' -> keyed d -> keyed d'.
Proof. intros Ha Hk i r. rewrite (ao_wagers _ _ Ha). apply Hk. Qed.

Lemma settleWith_steps st m ty outcome actor reason vr regrade dh s s' r :
  keyed (db s) -> settleWith st m ty outcome actor reason vr regrade dh s = (s', r) -> store_steps (db s) (db s').
Proof.
  intros Hk [->|(s0 & s1 & wrap & a & H0 & H & -> & _)]%in_tx_run; [apply rtc_refl|].
  rewrite <- H0 in Hk |- *. clear H0 r. apply bind_run in H as (loaded & s2 & Hl & H).
  apply (still_loadMarket m) in Hl.
  apply bind_run in H as (market & s3 & Hm & H).
  still_in Hm; [apply still_closeOpenMarketTx|].
  apply bind_run in H as (u1 & s4 & Hv & H). apply lift_run in Hv as [-> _].
  apply bind_run in H as (version & s5 & Hver & H). unfold nextSettlementVersion in Hver. apply query_run in Hver as [Hd5 _].
  apply bind_run in H as (sid & s6 & Hd6 & H). apply NewEventID_run in Hd6.
  apply bind_run in H as (sup & s7 & Hsup & H).
  still_in Hsup; [apply still_previousSettlementID|].
  apply bind_run in H as ([iid existed] & s8 & Hins & H). apply still_insertMarketSettlement in Hins.
  assert (Hao : accounts_only (db s0) (db s8)).
  { etrans; [exact Hl|]. etrans; [exact Hm|]. rewrite <- Hd5, <- Hd6. etrans; [exact Hsup|exact Hins]. }
  etrans; [by apply accounts_only_steps, Hao|]. destruct existed.
  - unfold verifyOutcomeMatches, loadExistingSettleReport in H. still_in H. by eapply accounts_only_steps.
  - eapply settle_market_tx_steps; [|exact H]. by eapply still_keyed.
Qed.

Lemma Store_SettleMarket_steps st req s s' r :
  keyed (db s) -> Store_SettleMarket st req s = (s', r) -> store_steps (db s) (db s').
Proof. apply settleWith_steps. Qed.
Lemma Store_VoidMarket_steps st req s s' r :
  keyed (db s) -> Store_VoidMarket st req s = (s', r) -> store_steps (db s) (db s').
Proof. apply settleWith_steps. Qed.

Lemma still_CloseMarket st m actor : still_op (CloseMarket st m actor).
Proof. unfold CloseMarket. still; [apply still_loadMarket|apply still_closeOpenMarketTx]. Qed.

Lemma RegradeStrandedWagers_steps st m actor reason s s' r :
  keyed (db s) -> RegradeStrandedWagers st m actor reason s = (s', r) -> store_steps (db s) (db s').
Proof.
  intros Hk. unfold RegradeStrandedWagers, StrandedWagers, recordedOutcome. cbv zeta.
  destruct (isUUID m); cbn [negb]; [|by intros [= <- _]; apply rtc_refl].
  do 2 (destruct (negb _) || destruct (bool_decide _); [by intros [= <- _]; apply rtc_refl|]).
  unfold mbind, go_bind. intros H. destruct (query _ _ s) as [s1 r1] eqn:E1. apply query_db in E1.
  destruct r1 as [l|e]; [|injection H as <- _; rewrite E1; apply rtc_refl].
  case_bool_decide; [injection H as <- _; rewrite E1; apply rtc_refl|].
  destruct (query _ _ s1) as [s2 r2] eqn:E2. apply query_db in E2.
  destruct r2 as [[o d]|e]; [|injection H as <- _; rewrite E2, E1; apply rtc_refl].
  case_bool_decide; [injection H as <- _; rewrite E2, E1; apply rtc_refl|].
  rewrite <- E1, <- E2. eapply settleWith_steps; [|exact H]. by rewrite E2, E1.
Qed.

(** Operations that run others in sequence. *)
Definition keyed_op {A} (m : go A) : Prop :=
  forall s s' r, keyed (db s) -> m s = (s', r) -> store_steps (db s) (db s').

Lemma keyed_op_still {A} (m : go A) : still_op m -> keyed_op m.
Proof. intros Hm s s' r _ H. by eapply rtc_once, step_quiet, Hm. Qed.
Lemma keyed_op_bind {A B} (m : go A) (k : A -> go B) :
  keyed_op m -> (forall a, keyed_op (k a)) -> keyed_op (m ≫= k).
Proof.
  intros Hm Hk s s' r Hks. unfold mbind, go_bind. destruct (m s) as [s1 [a|e]] eqn:Em.
  - intros H. etrans; [by eapply Hm|]. eapply Hk; [|exact H]. eapply store_steps_keyed; [|done]. by eapply Hm.
  - intros [= <- _]. by eapply Hm.
Qed.
Lemma keyed_op_wrapped {A} w (m : go A) : keyed_op m -> keyed_op (wrapped w m).
Proof. intros Hm s s' r Hk. unfold wrapped. destruct (m s) as [s1 r1] eqn:Em. intros [= <- _]. by eapply Hm. Qed.

Lemma settle_match_market_keyed st o ws vr actor m report : keyed_op (settle_match_market st o ws vr actor m report).
Proof.
  unfold settle_match_market. destruct m as [m state]. apply keyed_op_bind.
  { case_bool_decide; [apply keyed_op_wrapped, keyed_op_still, still_CloseMarket|apply keyed_op_still, still_op_ret]. }
  intros _. apply keyed_op_bind; [apply keyed_op_still, still_op_query|]. intros keys.
  destruct (buildMatchOutcome _ _ _); [|apply keyed_op_still, still_op_ret].
  apply keyed_op_bind; [apply keyed_op_wrapped; intros ? ? ?; apply Store_SettleMarket_steps|].
  intros _. apply keyed_op_still, still_op_ret.
Qed.

Lemma settle_match_markets_keyed st o ws vr actor ms report : keyed_op (settle_match_markets st o ws vr actor ms report).
Proof.
  revert report. induction ms as [|m ms IH]; intros report; cbn [settle_match_markets]; [apply keyed_op_still, still_op_ret|].
  intros s s' r Hk. destruct (settle_match_market _ _ _ _ _ _ _ _) as [s1 [report'|e]] eqn:Em;
    apply settle_match_market_keyed in Em as Hs; [|done|intros [= <- _]; done|done].
  intros H. etrans; [exact Hs|]. eapply IH; [|exact H]. by eapply store_steps_keyed.
Qed.

Lemma SettleMatchMarkets_keyed st m o ws vr actor : keyed_op (SettleMatchMarkets st m o ws vr actor).
Proof.
  intros s s' r Hk. unfold SettleMatchMarkets, matchMarketsToSettle. destruct (query _ _ s) as [s1 r1] eqn:E1.
  apply query_db in E1. destruct r1; [|intros [= <- _]; rewrite E1; apply rtc_refl].
  rewrite <- E1. intros H. eapply settle_match_markets_keyed; [|exact H]. by rewrite E1.
Qed.

Lemma still_PricingConsumer_Handle unmarshal st e : still_op (PricingConsumer_Handle unmarshal st e).
Proof.
  unfold PricingConsumer_Handle. destruct st as [st|]; [|apply still_op_failing].
  apply still_op_bind; [apply still_op_lift|]. intros p.
  apply still_op_bind; [apply still_RepriceMarketAfterWager|]. intros []; apply still_op_ret.
Qed.

Lemma MatchSettlementConsumer_Handle_steps unmarshal st e : keyed_op (MatchSettlementConsumer_Handle unmarshal st e).
Proof.
  unfold MatchSettlementConsumer_Handle. destruct st as [st|]; [|apply keyed_op_still, still_op_failing].
  apply keyed_op_bind; [apply keyed_op_still, still_op_lift|]. intros p.
  apply keyed_op_bind; [apply SettleMatchMarkets_keyed|]. intros [report [err|]]; apply keyed_op_still;
    [apply still_op_failing|apply still_op_ret].
Qed.
End market_steps.
