(* ===== verification/AdminStore.v ===== *)
(** * internal/bettingpg: create.go, noaction.go, closetime.go, stakelimit.go and restrict.go

    Creating and opening markets, and the controls an admin has over one:
    closing it without action, its closing time, its limits and who is barred
    from it.  None of them touches a wager, a parlay or the ledger. *)
From S2P Require Import Prelude GoStrings GoTime Ledger Events Betting Placement Settlement SQL BettingDB StoreSteps PricingStore WagerStore MarketStore.

Definition ErrMarketHasWagers := Sentinel "bettingpg.ErrMarketHasWagers".
Definition ErrMatchMarketNeedsGrading := Sentinel "bettingpg.ErrMatchMarketNeedsGrading".
Definition ErrMarketChangedConcurrently := Sentinel "bettingpg.ErrMarketChangedConcurrently".
Definition ErrCloseTimeInPast := Sentinel "bettingpg.ErrCloseTimeInPast".

(** ** create.go *)
Record CreateMarketSelection := mkCreateMarketSelection {
  CMS_MaxStakeCents : Z;
  CMS_Key : string;
  CMS_DisplayTerms : string;
  CMS_OfferedAmericanOdds : Z;
  CMS_SemanticResultKey : string
}.
Record CreateMarketRequest := mkCreateMarketRequest {
  CMR_MarketID : string;
  CMR_Type : MarketType;
  CMR_MatchID : string;
  CMR_Title : string;
  CMR_Currency : Currency;
  CMR_OpensAt : Time;
  CMR_ClosesAt : Time;
  CMR_Selections : list CreateMarketSelection;
  CMR_ActorUserID : string;
  CMR_DynamicPricing : bool;
  CMR_PricingLiquidityCents : Z;
  CMR_MaxStakeCents : Z
}.
Definition MaxSelectionsPerMarket : Z := 32.
Definition DefaultPricingLiquidityCents : Z := 500000.

(** [nullif($n, 0::bigint)] *)
Definition null_if_zero (z : Z) : option Z := if z =? 0 then None else Some z.

(** NULL is kept as the zero time, as a market without an opening time reads. *)
Definition nullableTime (value : Time) : Time := if IsZero value then zeroTime else timestamptz (UTC value).

Definition MarketType_text (t : MarketType) : string :=
  match t with
  | MarketMatch => "match" | MarketFuture => "future" | MarketProp => "prop" | MarketTypeOther text => text
  end.

(** What the insert of a market row reported. *)
Inductive market_insert := MarketInserted | MarketConflict | MatchMarketTaken.

Section admin_store.
Context {E : environment}.
Implicit Types (st : Store) (d : DB) (marketID selectionID : string).

(** The two sides of a match that is scheduled or open, in the competition
    tables. *)
Context (open_match_sides : string -> option (string * string)).

(** [for _, request := range req.Selections]: the new selections and their
    caps by key. *)
Fixpoint new_selections marketID (requests : list CreateMarketSelection) (seenKeys : list string)
    : go (list Selection * gmap string Z) :=
  match requests with
  | [] => mret ([], ∅)
  | request :: rest =>
      selectionID ← NewEventID;
      let selection := mkSelection selectionID marketID (TrimSpace (CMS_Key request))
          (TrimSpace (CMS_DisplayTerms request)) (CMS_OfferedAmericanOdds request)
          (TrimSpace (CMS_SemanticResultKey request)) true in
      lift (Selection_Validate selection);;
      if bool_decide (Key selection ∈ seenKeys)
      then failing (Wrapf "%w: selection key %q is duplicated" ErrInvalid)
      else
        '(selections, caps) ← new_selections marketID rest (Key selection :: seenKeys);
        mret (selection :: selections, <[Key selection := CMS_MaxStakeCents request]> caps)
  end.

(** [markets_one_active_match_market_idx] *)
Definition active_match_market (match_ : string) (r : MarketRow) : bool :=
  bool_decide (MatchID (mr_market r) = match_) && bool_decide (Market_Type (mr_market r) = MarketMatch)
  && negb (bool_decide (Market_State (mr_market r) ∈ [MarketVoided; MarketCancelled])).

Definition insert_market (m : Market) (req : CreateMarketRequest) (liquidity : option Z) : go market_insert :=
  statement "insert market %s: %w" (fun n d =>
    id ← cast (Market_ID m);
    match_ ← cast_opt (MatchID m);
    by_ ← cast (CMR_ActorUserID req);
    let stored := mkMarket id (Market_Type m) match_ (Title m) MarketDraft (Market_Currency m)
        (nullableTime (OpensAt m)) (timestamptz (UTC (ClosesAt m))) in
    match markets d !! id with
    | Some _ => Ok (d, MarketConflict)
    | None =>
        if bool_decide (Market_Type m = MarketMatch)
           && bool_decide (map_Exists (fun _ r => active_match_market match_ r = true) (markets d))
        then Ok (d, MatchMarketTaken)
        else Ok (with_markets (<[id := mkMarketRow stored by_ (CMR_DynamicPricing req) liquidity
                                         (null_if_zero (CMR_MaxStakeCents req)) (timestamptz (clock n))]> (markets d)) d,
                 MarketInserted)
    end).

(** No other market of the match that is not voided or cancelled. *)
Definition match_taken (match_ marketID : string) d : bool :=
  bool_decide (map_Exists (fun id r => MatchID (mr_market r) = match_ /\ id <> marketID
    /\ Market_State (mr_market r) ∉ [MarketVoided; MarketCancelled]) (markets d)).

(** [for _, selection := range selections], each side named once. *)
Fixpoint sides_named (selections : list Selection) (want : list string) : bool :=
  match selections with
  | [] => true
  | s :: rest => bool_decide (SemanticResultKey s ∈ want)
                 && sides_named rest (List.filter (fun k => negb (bool_decide (k = SemanticResultKey s))) want)
  end.

Definition validateMatchMarketMapping marketID (matchID : string) (selections : list Selection) : go unit :=
  sides ← query "validate match market %s: %w" (fun d =>
    match_ ← cast matchID;
    market ← cast marketID;
    Ok (if match_taken match_ market d then None else open_match_sides match_));
  match sides with
  | None => failing (Wrapf "%w: choose an open match without an existing market" ErrInvalid)
  | Some (side1, side2) =>
      if negb (Z.of_nat (length selections) =? 2)
      then failing (Wrapf "%w: a match winner market requires exactly two side selections" ErrInvalid)
      else if negb (sides_named selections ["side:" ++ side1; "side:" ++ side2]%string)
      then failing (Wrapf "%w: match selections must map exactly once to each match side" ErrInvalid)
      else mret ()
  end.

Definition insert_selection (s : Selection) (cap : Z) d : result DB :=
  id ← cast (Selection_ID s);
  market ← cast (Selection_MarketID s);
  fail_if (bool_decide (selections d !! id <> None)
           || bool_decide (map_Exists (fun _ r => Selection_MarketID (sr_selection r) = market
                                                  /\ Key (sr_selection r) = Key s) (selections d)))
    (Errorf "violates unique constraint");;
  Ok (with_selections (<[id := mkSelectionRow (mkSelection id market (Key s) (DisplayTerms s) (OfferedAmericanOdds s)
                                (SemanticResultKey s) true) (OfferedAmericanOdds s) (null_if_zero cap) None]>
                         (selections d)) d).

Fixpoint insert_selections (selections : list Selection) (caps : gmap string Z) : go unit :=
  match selections with
  | [] => mret ()
  | s :: rest =>
      exec "insert selection %q for market %s: %w" (insert_selection s (default 0 (caps !! Key s)));;
      insert_selections rest caps
  end.

Definition same_market (existing market : Market) : bool :=
  bool_decide (Market_Type existing = Market_Type market) && bool_decide (MatchID existing = MatchID market)
  && bool_decide (Title existing = Title market) && bool_decide (Market_Currency existing = Market_Currency market)
  && TimeEqual (ClosesAt existing) (UTC (ClosesAt market)).

Definition CreateMarket st (req : CreateMarketRequest) : go Market :=
  if negb (isUUID (CMR_ActorUserID req))
  then failing (Wrapf "%w: market creation requires an acting admin user" ErrUnauthorized)
  else if negb (isUUID (CMR_MarketID req))
  then failing (Wrapf "%w: market creation requires a UUID market ID" ErrInvalid)
  else
    let market := mkMarket (CMR_MarketID req) (CMR_Type req) (TrimSpace (CMR_MatchID req)) (TrimSpace (CMR_Title req))
        MarketDraft (CMR_Currency req) (CMR_OpensAt req) (CMR_ClosesAt req) in
    lift (Market_Validate market);;
    let n := Z.of_nat (length (CMR_Selections req)) in
    if (n =? 0) || (MaxSelectionsPerMarket <? n)
    then failing (Wrapf "%w: a market requires between 1 and %d selections" ErrInvalid)
    else if CMR_DynamicPricing req && (n <? 2)
    then failing (Wrapf "%w: dynamic pricing requires at least two selections" ErrInvalid)
    else
      let liquidity := if CMR_PricingLiquidityCents req <=? 0 then DefaultPricingLiquidityCents
                       else CMR_PricingLiquidityCents req in
      '(selections, selectionCaps) ← new_selections (Market_ID market) (CMR_Selections req) [];
      in_tx st (
        inserted ← insert_market market req (if CMR_DynamicPricing req then Some liquidity else None);
        match inserted with
        | MarketConflict =>
            existing ← loadMarket (Market_ID market);
            if negb (same_market existing market)
            then failing (Wrapf "%w: market %s already exists with different terms" ErrIdempotencyConflict)
            else mret (Commit "commit idempotent market creation: %w" existing)
        | MatchMarketTaken => failing ErrMatchMarketExists
        | MarketInserted =>
            (if bool_decide (Market_Type market = MarketMatch)
             then validateMatchMarketMapping (Market_ID market) (MatchID market) selections else mret ());;
            insert_selections selections selectionCaps;;
            publish_on_market MarketCreatedType (Market_ID market)
              [("market_id"%string, JString (Market_ID market));
               ("market_type"%string, JString (MarketType_text (Market_Type market)));
               ("currency"%string, JString (Market_Currency market));
               ("actor_user_id"%string, JString (CMR_ActorUserID req))];;
            mret (Commit "commit create market: %w" market)
        end).

Definition OpenMarket st marketID (actor : string) : go unit :=
  if is_blank actor then failing (Wrapf "%w: opening a market requires an acting user" ErrUnauthorized)
  else in_tx st (
    market ← loadMarketForUpdate marketID;
    if bool_decide (Market_State market = MarketOpen) then mret (Commit "%w" ())
    else if negb (MarketState_CanTransitionTo (Market_State market) MarketOpen)
    then failing (Wrapf "%w: market %s state %s cannot open" ErrMarketNotOpenable)
    else
      affected ← move_market "open market %s: %w" marketID MarketDraft MarketOpen;
      if negb affected then failing (Errorf "open market %s: market was not draft")
      else
        publish_on_market MarketOpenedType marketID
          [("market_id"%string, JString marketID); ("actor_user_id"%string, JString actor)];;
        mret (Commit "%w" ())).

(** ** noaction.go *)

(** [SELECT ... FROM markets WHERE id = $1 FOR UPDATE] *)
Definition lock_market (wrap : string) marketID : go MarketRow :=
  row ← query wrap (fun d => c ← cast marketID; Ok (markets d !! c));
  lift (match row with Some r => Ok r | None => Err (Wrapf "%w: market %s" ErrNotFound) end).

Definition live_wagers (market : string) d : list Wager :=
  List.filter (fun w => bool_decide (Wager_MarketID w = market) && is_open_wager w)
    (wr_wager <$> (map_to_list (wager_rows d)).*2).

Definition CloseMarketWithoutAction st marketID (actorUserID reason : string) : go unit :=
  if negb (isUUID marketID) then failing (Wrapf "%w: market %s" ErrNotFound)
  else if negb (isUUID actorUserID) then failing ErrUnauthorized
  else
    let reason := TrimSpace reason in
    if bool_decide (reason = ""%string) then failing ErrReasonRequired
    else in_tx st (
      row ← lock_market "load market for no-action close: %w" marketID;
      let state := Market_State (mr_market row) in
      if bool_decide (Market_Type (mr_market row) = MarketMatch) then failing ErrMatchMarketNeedsGrading
      else if negb (MarketState_CanTransitionTo state MarketNoAction)
      then failing (Wrapf "%w: market %s is %s" ErrMarketNotSettleable)
      else
        live ← query "count live wagers: %w" (fun d => c ← cast marketID; Ok (Z.of_nat (length (live_wagers c d))));
        if 0 <? live then failing (Wrapf "%w: %d live wager(s)" ErrMarketHasWagers)
        else
          affected ← move_market "close market without action: %w" marketID state MarketNoAction;
          if negb affected then failing (Wrapf "%w: market %s" ErrMarketChangedConcurrently)
          else
            insert_audit "record no-action close: %w" actorUserID "market.closed_no_action" "market" marketID reason
              [("state"%string, AString (MarketState_text state))] [("state"%string, AString "closed_no_action")];;
            mret (Commit "commit no-action close: %w" ())).

Definition cents_or_null (key : string) (z : Z) : string * audit_value := (key, if z =? 0 then ANull else AInt z).
Definition previousOrZero (value : option Z) : Z := default 0 value.

Definition set_total_cap (cents : Z) (r : SelectionRow) : SelectionRow :=
  mkSelectionRow (sr_selection r) (opening_american_odds r) (selection_max_stake_cents r) (null_if_zero cents).
Definition set_selection_cap (cents : Z) (r : SelectionRow) : SelectionRow :=
  mkSelectionRow (sr_selection r) (opening_american_odds r) (null_if_zero cents) (total_stake_cap_cents r).

(** One nullable column of a selection on a market. *)
Definition selection_cap (wrap : string) marketID selectionID (f : SelectionRow -> option Z) : go (option Z) :=
  found ← query wrap (fun d => c ← cast selectionID; m ← cast marketID; Ok (f <$> selection_of m c d));
  lift (match found with
        | Some cap => Ok cap
        | None => Err (Wrapf "%w: selection %s is not on market %s" ErrNotFound)
        end).

Definition SetTotalSideCap st marketID selectionID (cents : Z) (actorUserID reason : string) : go unit :=
  if negb (isUUID marketID) then failing (Wrapf "%w: market %s" ErrNotFound)
  else if negb (isUUID selectionID) then failing (Wrapf "%w: selection %s" ErrNotFound)
  else if negb (isUUID actorUserID) then failing ErrUnauthorized
  else if cents <? 0 then failing (Wrapf "%w: a cap cannot be negative" ErrInvalid)
  else
    let reason := TrimSpace reason in
    if bool_decide (reason = ""%string) then failing ErrReasonRequired
    else in_tx st (
      row ← lock_market "load market for side cap: %w" marketID;
      if negb (open_or_draft (Market_State (mr_market row)))
      then failing (Wrapf "%w: market %s is %s" ErrMarketNotPriceable)
      else
        previous ← selection_cap "load side cap: %w" marketID selectionID total_stake_cap_cents;
        affected ← update_selection "update side cap: %w" marketID selectionID (set_total_cap cents);
        if negb affected then failing (Wrapf "%w: nothing to cap" ErrNotFound)
        else
          insert_audit "record side cap change: %w" actorUserID "market.total_side_cap_changed" "market" marketID reason
            [("selection_id"%string, AString selectionID);
             cents_field "total_stake_cap_cents" (previousOrZero previous)]
            [("selection_id"%string, AString selectionID); cents_or_null "total_stake_cap_cents" cents];;
          mret (Commit "commit side cap: %w" ())).

(** ** closetime.go *)
Definition set_closes_at (t : Time) (r : MarketRow) : MarketRow :=
  let m := mr_market r in
  set_mr_market (mkMarket (Market_ID m) (Market_Type m) (MatchID m) (Title m) (Market_State m) (Market_Currency m)
                   (OpensAt m) t) r.

(** [UPDATE markets SET ... WHERE id = $1] *)
Definition update_market (wrap : string) marketID (f : MarketRow -> MarketRow) : go bool :=
  statement wrap (fun _ d =>
    c ← cast marketID;
    match markets d !! c with
    | Some r => Ok (with_markets (<[c := f r]> (markets d)) d, true)
    | None => Ok (d, false)
    end).

Definition SetMarketCloseTime st marketID (closesAt : Time) (actorUserID reason : string) : go unit :=
  if negb (isUUID marketID) then failing (Wrapf "%w: market %s" ErrNotFound)
  else if negb (isUUID actorUserID) then failing ErrUnauthorized
  else
    let reason := TrimSpace reason in
    if bool_decide (reason = ""%string) then failing ErrReasonRequired
    else if IsZero closesAt then failing (Wrapf "%w: a closing time is required" ErrInvalid)
    else
      instant ← now;
      if negb (After closesAt instant) then failing ErrCloseTimeInPast
      else in_tx st (
        row ← lock_market "load market for close time: %w" marketID;
        let opensAt := timestamptz (OpensAt (mr_market row)) in
        let previous := timestamptz (ClosesAt (mr_market row)) in
        if negb (open_or_draft (Market_State (mr_market row)))
        then failing (Wrapf "%w: market %s is %s" ErrMarketNotPriceable)
        else if negb (IsZero opensAt) && negb (After closesAt opensAt)
        then failing (Wrapf "%w: a market cannot close before it opens" ErrInvalid)
        else
          update_market "update market close time: %w" marketID (set_closes_at (timestamptz (UTC closesAt)));;
          insert_audit "record close time change: %w" actorUserID "market.close_time_changed" "market" marketID reason
            [("closes_at"%string, ATime (UTC previous))] [("closes_at"%string, ATime (timestamptz (UTC closesAt)))];;
          mret (Commit "commit market close time: %w" ())).

(** ** stakelimit.go *)
Definition set_market_cap (cents : Z) (r : MarketRow) : MarketRow :=
  mkMarketRow (mr_market r) (created_by r) (dynamic_pricing r) (pricing_liquidity_cents r) (null_if_zero cents)
    (market_created_at r).

Definition text_or_null (key value : string) : string * audit_value :=
  (key, if bool_decide (value = ""%string) then ANull else AString value).

Definition SetStakeLimit st marketID selectionID (cents : Z) (actorUserID reason : string) : go unit :=
  if negb (isUUID marketID) then failing (Wrapf "%w: market %s" ErrNotFound)
  else if negb (bool_decide (selectionID = ""%string)) && negb (isUUID selectionID)
  then failing (Wrapf "%w: selection %s" ErrNotFound)
  else if negb (isUUID actorUserID) then failing ErrUnauthorized
  else if cents <? 0 then failing (Wrapf "%w: a limit cannot be negative" ErrInvalid)
  else
    let reason := TrimSpace reason in
    if bool_decide (reason = ""%string) then failing ErrReasonRequired
    else in_tx st (
      row ← lock_market "load market for stake limit: %w" marketID;
      if negb (open_or_draft (Market_State (mr_market row)))
      then failing (Wrapf "%w: market %s is %s" ErrMarketNotPriceable)
      else
        '(previous, affected) ←
          (if bool_decide (selectionID = ""%string) then
             previous ← query "load market stake limit: %w" (fun d =>
                          c ← cast marketID; r ← must_find (markets d !! c); Ok (market_max_stake_cents r));
             affected ← update_market "update stake limit: %w" marketID (set_market_cap cents);
             mret (previous, affected)
           else
             previous ← selection_cap "load selection stake limit: %w" marketID selectionID selection_max_stake_cents;
             affected ← update_selection "update stake limit: %w" marketID selectionID (set_selection_cap cents);
             mret (previous, affected));
        if negb affected then failing (Wrapf "%w: nothing to limit" ErrNotFound)
        else
          insert_audit "record stake limit change: %w" actorUserID "market.stake_limit_changed" "market" marketID reason
            [text_or_null "selection_id" selectionID; cents_field "max_stake_cents" (previousOrZero previous)]
            [text_or_null "selection_id" selectionID; cents_or_null "max_stake_cents" cents];;
          mret (Commit "commit stake limit: %w" ())).

(** ** restrict.go *)
Record RestrictionRow := mkRestrictionRow {
  RR_MarketID : string;
  RR_MarketTitle : string;
  RR_UserID : string;
  RR_MemberName : string;
  RR_SelectionID : string;
  RR_SelectionTerms : string;
  RR_Reason : string;
  RR_RestrictedBy : string;
  RR_CreatedAt : Time
}.
Definition WholeMarket (r : RestrictionRow) : bool := bool_decide (RR_SelectionID r = ""%string).

Record RestrictRequest := mkRestrictRequest {
  RQ_MarketID : string;
  RQ_UserID : string;
  RQ_SelectionID : string;
  RQ_Reason : string;
  RQ_ActorUserID : string
}.

(** The upsert on whichever partial unique index applies. *)
Definition upsert_restriction (request : RestrictRequest) (reason : string) (at_ : Time) d : result DB :=
  market ← cast (RQ_MarketID request);
  user ← cast (RQ_UserID request);
  actor ← cast (RQ_ActorUserID request);
  selection ← (if bool_decide (RQ_SelectionID request = ""%string) then Ok None
               else c ← cast (RQ_SelectionID request); Ok (Some c));
  fail_if (bool_decide (markets d !! market = None) || bool_decide (users d !! user = None)
           || bool_decide (users d !! actor = None)) (Errorf "violates foreign key constraint");;
  let created := match restrictions d !! (market, user, selection) with
                 | Some r => restricted_at r
                 | None => timestamptz at_
                 end in
  Ok (with_restrictions (<[(market, user, selection) := mkRestrictionDBRow reason actor created]> (restrictions d)) d).

Definition RestrictMember st (request : RestrictRequest) : go unit :=
  if negb (isUUID (RQ_MarketID request)) || negb (isUUID (RQ_UserID request))
  then failing (Wrapf "%w: a restriction needs a market and a member" ErrInvalid)
  else if negb (bool_decide (RQ_SelectionID request = ""%string)) && negb (isUUID (RQ_SelectionID request))
  then failing (Wrapf "%w: selection %s" ErrNotFound)
  else if negb (isUUID (RQ_ActorUserID request)) then failing ErrUnauthorized
  else
    let reason := TrimSpace (RQ_Reason request) in
    if bool_decide (reason = ""%string) || (500 <? len reason) then failing ErrReasonRequired
    else in_tx st (
      (if negb (bool_decide (RQ_SelectionID request = ""%string)) then
         found ← query "verify restricted selection: %w" (fun d =>
                   c ← cast (RQ_SelectionID request); m ← cast (RQ_MarketID request); Ok (selection_of m c d));
         match found with
         | Some _ => mret ()
         | None => failing (Wrapf "%w: selection %s is not on market %s" ErrNotFound)
         end
       else mret ());;
      statement "record market restriction: %w" (fun n d =>
        d' ← upsert_restriction request reason (clock n) d; Ok (d', ()));;
      mret (Commit "commit market restriction: %w" ())).

(** [DELETE FROM market_restrictions] and whether a row was affected. *)
Definition delete_restriction marketID (userID selectionID : string) : go bool :=
  statement "lift market restriction: %w" (fun _ d =>
    market ← cast marketID;
    user ← cast userID;
    selection ← (if bool_decide (selectionID = ""%string) then Ok None else c ← cast selectionID; Ok (Some c));
    Ok (with_restrictions (delete (market, user, selection) (restrictions d)) d,
        bool_decide (restrictions d !! (market, user, selection) <> None))).

Definition LiftRestriction st marketID (userID selectionID : string) : go unit :=
  if negb (isUUID marketID) || negb (isUUID userID)
  then failing (Wrapf "%w: lifting a restriction needs a market and a member" ErrInvalid)
  else in_tx st (
    if negb (bool_decide (selectionID = ""%string)) && negb (isUUID selectionID)
    then failing (Wrapf "%w: selection %s" ErrNotFound)
    else
      affected ← delete_restriction marketID userID selectionID;
      if negb affected then failing (Wrapf "%w: no such restriction" ErrNotFound)
      else mret (Commit "commit lifted restriction: %w" ())).

(** The joins of the admin list, one restriction at a time. *)
Definition restriction_row d (kr : restriction_key * RestrictionDBRow) : option RestrictionRow :=
  let '((market, user, selection), r) := kr in
  m ← markets d !! market;
  u ← users d !! user;
  if bool_decide (Market_State (mr_market m) ∈ [MarketDraft; MarketOpen; MarketClosed; MarketSettlementPending]) then
    Some (mkRestrictionRow market (Title (mr_market m)) user (display_name u) (default ""%string selection)
            (default ""%string (c ← selection; s ← selections d !! c; Some (DisplayTerms (sr_selection s))))
            (restriction_reason r) (default ""%string (display_name <$> users d !! restricted_by r))
            (UTC (restricted_at r)))
  else None.

(** [ORDER BY r.created_at DESC, u.display_name] *)
Definition listed_before (x y : RestrictionRow) : Prop :=
  nanos (RR_CreatedAt y) < nanos (RR_CreatedAt x)
  \/ (nanos (RR_CreatedAt x) = nanos (RR_CreatedAt y) /\ String.le (RR_MemberName x) (RR_MemberName y)).
#[export] Instance listed_before_dec : RelDecision listed_before.
Proof. intros x y. unfold listed_before. apply _. Defined.

Definition ListRestrictions st : go (list RestrictionRow) :=
  if negb (HasDB st) then failing (Errorf "bettingpg: PostgreSQL pool is required")
  else query "query market restrictions: %w" (fun d =>
    Ok (merge_sort listed_before (omap (restriction_row d) (map_to_list (restrictions d))))).

Record MemberOption := mkMemberOption { MO_ID : string; MO_Name : string }.

Definition ListMembers st : go (list MemberOption) :=
  if negb (HasDB st) then failing (Errorf "bettingpg: PostgreSQL pool is required")
  else query "list members: %w" (fun d =>
    Ok (sort_by MO_Name ((fun kr => mkMemberOption kr.1 (display_name kr.2))
          <$> List.filter (fun kr => bool_decide (user_status kr.2 = "active"%string)) (map_to_list (users d))))).
End admin_store.

(** ** None of them moves a wager, a parlay or money *)
Section admin_lemmas.
Context {E : environment} {HE : environment_ok E}.

Lemma still_new_selections m requests seen : still_run (new_selections m requests seen).
Proof. revert seen. induction requests as [|q qs IH]; intros seen; cbn [new_selections]; still. Qed.
Lemma still_op_new_selections m requests seen : still_op (new_selections m requests seen).
Proof.
  assert (Hid : still_op NewEventID) by (intros s s' r; unfold NewEventID; by intros [= <- _]).
  revert seen. induction requests as [|q qs IH]; intros seen; cbn [new_selections]; still.
Qed.
Lemma still_insert_market m req l : still_run (insert_market m req l).
Proof.
  apply still_statement. intros n d d' a H. go_inv. cbv zeta in H. destruct (markets d !! _); [by simplify_eq|].
  case_match; by simplify_eq.
Qed.
Lemma still_insert_selections l caps : still_run (insert_selections l caps).
Proof.
  induction l as [|x l IH]; cbn [insert_selections]; still.
  apply still_exec. intros d d' H. unfold insert_selection in H. go_inv. by simplify_eq.
Qed.
Lemma still_validateMatchMarketMapping sides m id l : still_run (validateMatchMarketMapping sides m id l).
Proof. unfold validateMatchMarketMapping. still. Qed.
#[local] Hint Resolve still_insert_market still_insert_selections still_validateMatchMarketMapping
  still_publish_on_market still_loadMarket still_move_market : still.

Lemma still_CreateMarket sides st req : still_op (CreateMarket sides st req).
Proof. unfold CreateMarket. cbv zeta. still. apply still_op_new_selections. Qed.

Lemma still_loadMarketForUpdate id : still_run (loadMarketForUpdate id).
Proof. apply still_loadMarket. Qed.
#[local] Hint Resolve still_loadMarketForUpdate : still.

Lemma still_OpenMarket st m actor : still_op (OpenMarket st m actor).
Proof. unfold OpenMarket. still. Qed.

Lemma still_lock_market w m : still_run (lock_market w m).
Proof. unfold lock_market. still. Qed.
Lemma still_update_market w m f : still_run (update_market w m f).
Proof. apply still_statement. intros n d d' a H. go_inv. destruct (markets d !! v); by simplify_eq. Qed.
Lemma still_selection_cap w m c f : still_run (selection_cap w m c f).
Proof. unfold selection_cap. still. Qed.
#[local] Hint Resolve still_lock_market still_update_market still_selection_cap : still.

Lemma still_CloseMarketWithoutAction st m actor reason : still_op (CloseMarketWithoutAction st m actor reason).
Proof. unfold CloseMarketWithoutAction. cbv zeta. still. Qed.
Lemma still_SetTotalSideCap st m c cents actor reason : still_op (SetTotalSideCap st m c cents actor reason).
Proof. unfold SetTotalSideCap. cbv zeta. still. Qed.
Lemma still_op_now : still_op now.
Proof. by intros s s' r [= <- _]. Qed.
#[local] Hint Resolve still_op_now : still.
Lemma still_SetMarketCloseTime st m t actor reason : still_op (SetMarketCloseTime st m t actor reason).
Proof. unfold SetMarketCloseTime. cbv zeta. still. Qed.
Lemma still_SetStakeLimit st m c cents actor reason : still_op (SetStakeLimit st m c cents actor reason).
Proof. unfold SetStakeLimit. cbv zeta. still. Qed.
Lemma still_RestrictMember st q : still_op (RestrictMember st q).
Proof.
  unfold RestrictMember. cbv zeta. still. apply still_statement. intros n d d' x H. unfold upsert_restriction in H.
  go_inv. by simplify_eq.
Qed.
Lemma still_LiftRestriction st m u c : still_op (LiftRestriction st m u c).
Proof. unfold LiftRestriction. still. apply still_statement. intros n d d' a H. go_inv. by simplify_eq. Qed.
End admin_lemmas.
