(* ===== verification/AdjustStore.v ===== *)
(** * internal/bettingpg: adjust.go and memberbook.go

    Settle-ups, their reversals, and the balances they change. *)
From S2P Require Import Prelude GoStrings GoTime Ledger Events Betting Placement Settlement Corrections SQL BettingDB StoreSteps WagerStore.

Definition ErrAlreadyReversed := Sentinel "bettingpg.ErrAlreadyReversed".

Record RecordSettlementRequest := mkRecordSettlementRequest {
  RSR_AdjustmentID : string;
  RSR_UserID : string;
  RSR_ActorUserID : string;
  RSR_Direction : AdjustmentDirection;
  RSR_AmountCents : Z;
  RSR_Currency : Currency;
  RSR_Reason : string
}.
Record SettlementRow := mkSettlementRow {
  STR_AdjustmentID : string;
  STR_TransactionID : string;
  STR_UserID : string;
  STR_MemberName : string;
  STR_Direction : AdjustmentDirection;
  STR_Amount : Money;
  STR_Reason : string;
  STR_ActorName : string;
  STR_OccurredAt : Time;
  Reversed : bool;
  ReversedReason : string;
  ReversedAt : Time
}.
Record MemberBalanceRow := mkMemberBalanceRow { MBR_UserID : string; MBR_Name : string; MBR_Balance : Money }.
(** [SettlementRow{}] *)
Definition zero_settlement_row : SettlementRow :=
  mkSettlementRow "" "" "" "" (AdjustmentOther "") (mkMoney 0 "") "" "" zeroTime false "" zeroTime.
Definition Owed (r : MemberBalanceRow) : bool := 0 <? Cents (MBR_Balance r).
Definition Owes (r : MemberBalanceRow) : bool := Cents (MBR_Balance r) <? 0.

Section adjust_store.
Context {E : environment}.
Implicit Types (st : Store) (d : DB).

(** The member an account belongs to. *)
Definition account_owner (account : string) d : option string :=
  list_find (fun kr : account_key * string => kr.2 = account) (map_to_list (accounts d)) ≫= fun p => p.2.1.1.1.

(** A recorded settle-up. *)
Definition is_settle_up (r : LedgerRow) : bool :=
  bool_decide (Tx_Type (lt_transaction r) = TransactionAdminAdjustment)
  && bool_decide (Tx_SourceType (lt_transaction r) = AdjustmentSourceType).
Definition reversal_of (id : string) d : option LedgerRow :=
  find (fun r => bool_decide (Tx_ReversalOf (lt_transaction r) = id)) (ledger d).

(** The row of one posting of a settle-up, if its account is a member's. *)
Definition settlement_row d (r : LedgerRow) (p : Posting) : option (SettlementRow * Currency) :=
  owner ← account_owner (AccountID p) d;
  member ← users d !! owner;
  let t := lt_transaction r in
  let reversal := reversal_of (lt_id r) d in
  Some (mkSettlementRow (Tx_SourceID t) (lt_id r) owner (display_name member)
          (if 0 <? Cents (Amount p) then AdjustmentPaymentReceived else AdjustmentPayoutSent)
          (mkMoney (Z.abs (Cents (Amount p))) (Tx_Currency t)) (Tx_Reason t)
          (default "system"%string (display_name <$> users d !! Tx_Actor t)) (UTC (lt_occurred_at r))
          (bool_decide (reversal <> None)) (default ""%string ((fun v => Tx_Reason (lt_transaction v)) <$> reversal))
          (default zeroTime ((fun v => UTC (lt_occurred_at v)) <$> reversal)), Tx_Currency t).

(** [ORDER BY t.occurred_at DESC, t.id DESC] *)
Definition recorded_later (x y : SettlementRow * Currency) : Prop :=
  nanos (STR_OccurredAt y.1) < nanos (STR_OccurredAt x.1)
  \/ (nanos (STR_OccurredAt x.1) = nanos (STR_OccurredAt y.1)
      /\ String.le (STR_TransactionID y.1) (STR_TransactionID x.1)).
#[export] Instance recorded_later_dec : RelDecision recorded_later.
Proof. intros x y. unfold recorded_later. apply _. Defined.

Definition settlement_rows (p : LedgerRow -> bool) d : list (SettlementRow * Currency) :=
  merge_sort recorded_later
    (List.filter (fun r => is_settle_up r && p r) (ledger d)
       ≫= fun r => omap (settlement_row d r) (row_postings r)).

Fixpoint scanSettlements (rows : list (SettlementRow * Currency)) : result (list SettlementRow) :=
  match rows with
  | [] => Ok []
  | (row, currency) :: rest =>
      wrap_err "scan settlement: %w" (scan_int64 (Cents (STR_Amount row)));;
      wrap_err "settlement %s currency: %w" (ParseCurrency currency);;
      tail ← scanSettlements rest;
      Ok (row :: tail)
  end.

Definition ListSettlements st (limit : Z) : go (list SettlementRow) :=
  if negb (HasDB st) then failing (Errorf "bettingpg: PostgreSQL pool is required")
  else
    let limit := if limit <=? 0 then 50 else limit in
    found ← query "query settlements: %w" (fun d => Ok (take (Z.to_nat limit) (settlement_rows (fun _ => true) d)));
    lift (scanSettlements found).

Definition loadSettlement (adjustmentID : string) : go (option SettlementRow) :=
  found ← query "query settlement: %w" (fun d =>
            c ← cast adjustmentID;
            Ok (settlement_rows (fun r => bool_decide (Tx_SourceID (lt_transaction r) = c)) d));
  rows ← lift (scanSettlements found);
  mret (head rows).

Definition requireMember (userID : string) : go unit :=
  found ← query "load settlement member: %w" (fun d => c ← cast userID; Ok (users d !! c));
  match found with
  | Some _ => mret ()
  | None => failing (Wrapf "%w: user %s" ErrNotFound)
  end.

Definition RecordSettlement st (request : RecordSettlementRequest) : go SettlementRow :=
  if negb (isUUID (RSR_AdjustmentID request)) || negb (isUUID (RSR_UserID request))
  then failing (Wrapf "%w: a settlement needs an adjustment and member ID" ErrInvalid)
  else if negb (isUUID (RSR_ActorUserID request)) then failing ErrUnauthorized
  else in_tx st (
    found ← loadSettlement (RSR_AdjustmentID request);
    match found with
    | Some existing => mret (Commit "commit settlement (idempotent): %w" existing)
    | None =>
        requireMember (RSR_UserID request);;
        userAccountID ← ensureUserAccount (RSR_UserID request) FundingUserCash (RSR_Currency request);
        houseAccountID ← ensureSystemAccount "house_clearing" (RSR_Currency request);
        instant ← now;
        transaction ← lift (RecordAdjustment (mkAdjustmentCommand (RSR_AdjustmentID request) (RSR_UserID request)
            (RSR_Direction request) (mkMoney (RSR_AmountCents request) (RSR_Currency request)) (RSR_Reason request)
            (RSR_ActorUserID request) (mkAdjustmentAccountRefs userAccountID houseAccountID) instant));
        insertLedgerTransaction transaction;;
        row ← loadSettlement (RSR_AdjustmentID request);
        mret (Commit "commit settlement: %w"
                (default zero_settlement_row row))
    end).

Fixpoint scan_postings (currency : Currency) (postings : list Posting) : result (list Posting) :=
  match postings with
  | [] => Ok []
  | p :: rest =>
      cents ← wrap_err "scan settlement posting: %w" (scan_int64 (Cents (Amount p)));
      tail ← scan_postings currency rest;
      Ok (mkPosting (AccountID p) (mkMoney cents currency) :: tail)
  end.

(** The transaction's first row, then the postings of that row: its id is the
    primary key. *)
Definition loadAdjustmentTransaction (adjustmentID : string) : go (Transaction * string) :=
  found ← query "load settlement transaction: %w" (fun d =>
            c ← cast adjustmentID;
            Ok (find (fun r => is_settle_up r && bool_decide (Tx_SourceID (lt_transaction r) = c)) (ledger d)));
  match found with
  | None => failing (Wrapf "%w: settlement %s" ErrNotFound)
  | Some r =>
      let t := lt_transaction r in
      parsedCurrency ← lift (wrap_err "settlement %s currency: %w" (ParseCurrency (Tx_Currency t)));
      stored ← query "load settlement postings: %w" (fun _ => Ok (row_postings r));
      postings ← lift (scan_postings parsedCurrency stored);
      mret (mkTransaction TransactionAdminAdjustment parsedCurrency "" "" AdjustmentSourceType (Tx_SourceID t)
              (Tx_Reason t) "" postings, lt_id r)
  end.

Definition settlementIsReversed (transactionID : string) : go bool :=
  query "check settlement reversal: %w" (fun d => Ok (bool_decide (reversal_of transactionID d <> None))).

Definition ReverseSettlement st (adjustmentID actorUserID reason : string) : go SettlementRow :=
  if negb (isUUID adjustmentID) then failing (Wrapf "%w: settlement %s" ErrNotFound)
  else if negb (isUUID actorUserID) then failing ErrUnauthorized
  else in_tx st (
    '(original, transactionID) ← loadAdjustmentTransaction adjustmentID;
    reversed ← settlementIsReversed transactionID;
    if (reversed : bool) then failing ErrAlreadyReversed
    else
      reversal ← lift (ReverseAdjustment original transactionID actorUserID reason);
      insertLedgerTransaction reversal;;
      row ← loadSettlement adjustmentID;
      mret (Commit "commit settlement reversal: %w" (default zero_settlement_row row))).

(** The cash accounts of a currency that are not square, [ORDER BY
    b.balance_cents, u.display_name]. *)
Definition member_balance (currency : Currency) d (kr : account_key * string) : option MemberBalanceRow :=
  let '((owner, type_, cur), account) := kr in
  user ← owner;
  u ← users d !! user;
  if bool_decide (type_ = "user_cash"%string) && bool_decide (cur = currency) && negb (balance_of account d =? 0)
  then Some (mkMemberBalanceRow user (display_name u) (mkMoney (balance_of account d) currency))
  else None.
Definition owes_more (x y : MemberBalanceRow) : Prop :=
  Cents (MBR_Balance x) < Cents (MBR_Balance y)
  \/ (Cents (MBR_Balance x) = Cents (MBR_Balance y) /\ String.le (MBR_Name x) (MBR_Name y)).
#[export] Instance owes_more_dec : RelDecision owes_more.
Proof. intros x y. unfold owes_more. apply _. Defined.

Definition ListMemberBalances st (currency : Currency) : go (list MemberBalanceRow) :=
  if negb (HasDB st) then failing (Errorf "bettingpg: PostgreSQL pool is required")
  else query "query member balances: %w" (fun d =>
    let found := merge_sort owes_more (omap (member_balance currency d) (map_to_list (accounts d))) in
    fail_if (existsb (fun r => negb (bool_decide (int64 (Cents (MBR_Balance r))))) found)
      (Errorf "bigint out of range");;
    Ok found).

(** ** memberbook.go *)
Record MemberBookRow := mkMemberBookRow {
  MBK_UserID : string;
  MBK_Name : string;
  MBK_Email : string;
  MBK_Balance : Money;
  CreditLimit : Money;
  CreditAvailable : Money;
  AutoApproveLimit : Money;
  AutoApprovePersonal : bool
}.
Definition bookCurrency : Currency := CAD.

(** The scan of the balance fails when it is out of range. *)
Definition MemberBook st (userID : string) (defaultAutoApproveCents : Z) : go MemberBookRow :=
  if negb (HasDB st) then failing (Errorf "bettingpg: PostgreSQL pool is required")
  else if negb (isUUID userID) then failing (Wrapf "%w: user %s" ErrNotFound)
  else
    found ← query "load member book: %w" (fun d =>
      c ← cast userID;
      match users d !! c with
      | None => Ok None
      | Some u =>
          balance ← scan_int64 (default 0 ((fun a => balance_of a d) <$> accounts d !! (Some c, "user_cash"%string, bookCurrency)));
          Ok (Some (u, balance))
      end);
    match found with
    | None => failing (Wrapf "%w: user %s" ErrNotFound)
    | Some (u, balanceCents) =>
        let available := wrap64 (credit_limit_cents u + balanceCents) in
        let available := if available <? 0 then 0 else available in
        mret (mkMemberBookRow userID (display_name u) (user_email u) (mkMoney balanceCents bookCurrency)
          (mkMoney (credit_limit_cents u) bookCurrency) (mkMoney available bookCurrency)
          (mkMoney (default defaultAutoApproveCents (wager_auto_approve_max_cents u)) bookCurrency)
          (bool_decide (wager_auto_approve_max_cents u <> None)))
    end.
End adjust_store.

(** ** Settle-ups stay off escrow *)

(** Whatever is stored that is nobody's bet posts to no escrow account. *)
Definition nobodys_bet (r : LedgerRow) : Prop :=
  wager_source (lt_transaction r) = false /\ parlay_source (lt_transaction r) = false.
Definition settle_ups_plain (d : DB) : Prop :=
  Forall (fun r => nobodys_bet r -> Forall (off_escrow d) (row_postings r)) (ledger d).

Section adjust_lemmas.
Context {E : environment}.

Lemma off_escrow_mono d d' p : accounts d ⊆ accounts d' -> off_escrow d p -> off_escrow d' p.
Proof. intros Hs (k & Hk & Hne). exists k. split; [|done]. by eapply lookup_weaken. Qed.

Lemma still_loadSettlement id : still_run (loadSettlement id).
Proof. unfold loadSettlement. still. Qed.
Lemma still_requireMember id : still_run (requireMember id).
Proof. unfold requireMember. still. Qed.

(** One transaction that is nobody's bet. *)
Lemma plain_transaction_quiet d d1 t x d2 d3 :
  accounts_only d d1 -> d2 = with_ledger (ledger d1 ++ [x]) d1 -> ledger_of t x ->
  Tx_SourceType t = AdjustmentSourceType -> Forall (off_escrow d1) (Tx_Postings t) ->
  accounts_only d2 d3 -> quiet d d3.
Proof.
  intros Ha -> (_ & _ & _ & Hs & Hp) Ht Hoff Ha3. etrans; [by apply accounts_only_quiet|].
  etrans; [|by apply accounts_only_quiet]. split; [done..| |done]. exists [x]. split; [done|].
  apply Forall_singleton. unfold plain_row, wager_source, parlay_source. rewrite Hs, Ht. split_and!; [apply andb_false_r..|].
  unfold row_postings. by rewrite Hp.
Qed.

Lemma RecordAdjustment_shape c t :
  RecordAdjustment c = Ok t ->
  Tx_SourceType t = AdjustmentSourceType
  /\ exists x y, Tx_Postings t = [mkPosting (ADR_UserFundingAccountID (AC_Refs c)) x;
                                 mkPosting (ADR_HouseClearingAccountID (AC_Refs c)) y].
Proof. unfold RecordAdjustment. cbv zeta. intros H. go_inv; simplify_eq; split; cbn; eauto. Qed.

Lemma RecordSettlement_quiet st q s s' r : RecordSettlement st q s = (s', r) -> quiet (db s) (db s').
Proof.
  unfold RecordSettlement. do 2 (destruct (negb _ || negb _) || destruct (negb _); [by intros [= <- _]|]).
  intros [->|(s0 & s1 & wrap & a & H0 & H & -> & _)]%in_tx_run; [done|]. rewrite <- H0. clear H0 r. run_inv.
  { apply still_loadSettlement in Hrun. by apply accounts_only_quiet. }
  apply still_loadSettlement in Hrun. apply still_requireMember in Hrun0. store_facts.
  match goal with Hx : RecordAdjustment _ = Ok _ |- _ =>
    apply RecordAdjustment_shape in Hx as (Ht & x1 & x2 & Hps) end.
  match goal with Hx : loadSettlement _ _ = _ |- _ => apply still_loadSettlement in Hx as Hend end.
  eapply plain_transaction_quiet; [|eassumption|eassumption|done| |exact Hend]; [still_chain|].
  cbn in Hps. rewrite Hps, !Forall_cons, Forall_nil. split_and!; [..|done]; eexists; (split; [cbn|]).
  all: first [eapply lookup_weaken; [eassumption|eapply ag_subset, ao_accounts; still_chain]|done].
Qed.

Lemma off_escrow_accounts d ps qs :
  AccountID <$> ps = AccountID <$> qs -> Forall (off_escrow d) qs -> Forall (off_escrow d) ps.
Proof.
  intros Heq Hq. rewrite Forall_forall in Hq |- *. intros p Hp.
  assert (Hin : AccountID p ∈ AccountID <$> qs) by (rewrite <- Heq; by apply list_elem_of_fmap_2).
  apply list_elem_of_fmap in Hin as (q & Hpq & Hq'). destruct (Hq q Hq') as (k & Hk & Hne).
  exists k. by rewrite Hpq.
Qed.

Lemma scan_postings_accounts c ps qs : scan_postings c ps = Ok qs -> AccountID <$> qs = AccountID <$> ps.
Proof.
  revert qs. induction ps as [|p ps IH]; intros qs H; cbn in H; [by simplify_eq|]. go_inv. rewrite !fmap_cons. cbn.
  f_equal. by apply IH.
Qed.

Lemma negate_postings_accounts ps qs : negate_postings ps = Ok qs -> AccountID <$> qs = AccountID <$> ps.
Proof.
  revert qs. induction ps as [|p ps IH]; intros qs H; cbn in H; [by simplify_eq|]. go_inv. rewrite !fmap_cons. cbn.
  f_equal. by apply IH.
Qed.

Lemma loadAdjustmentTransaction_run id s s' t tid :
  loadAdjustmentTransaction id s = (s', Ok (t, tid)) ->
  db s' = db s /\ exists r, r ∈ ledger (db s) /\ is_settle_up r = true /\ lt_id r = tid
    /\ AccountID <$> Tx_Postings t = AccountID <$> row_postings r.
Proof.
  unfold loadAdjustmentTransaction. intros H. run_inv. simplify_eq. go_inv.
  match goal with Hx : find _ _ = Some _ |- _ => apply find_some in Hx as [Hin Hb] end. apply list_elem_of_In in Hin.
  match goal with Hx : scan_postings _ _ = Ok _ |- _ => apply scan_postings_accounts in Hx end. bool_prop.
  split; [congruence|]. eexists. split_and!; [exact Hin|done|done|]. simplify_eq. done.
Qed.

Lemma ReverseAdjustment_shape o tid actor reason t :
  ReverseAdjustment o tid actor reason = Ok t ->
  Tx_SourceType t = AdjustmentSourceType /\ AccountID <$> Tx_Postings t = AccountID <$> Tx_Postings o.
Proof.
  unfold ReverseAdjustment. cbv zeta. intros H. go_inv. split; [done|]. cbn. by apply negate_postings_accounts.
Qed.

Lemma ReverseSettlement_quiet st id actor reason s s' r :
  settle_ups_plain (db s) -> ReverseSettlement st id actor reason s = (s', r) -> quiet (db s) (db s').
Proof.
  intros Hpl. unfold ReverseSettlement. do 2 (destruct (negb _); [by intros [= <- _]|]).
  intros [->|(s0 & s1 & wrap & a & H0 & H & -> & _)]%in_tx_run; [done|]. rewrite <- H0 in Hpl |- *. clear H0 r.
  run_inv. apply loadAdjustmentTransaction_run in Hrun as (Hd & row & Hin & Hsu & _ & Hacc).
  unfold settlementIsReversed in *. store_facts.
  match goal with Hx : ReverseAdjustment _ _ _ _ = Ok _ |- _ => apply ReverseAdjustment_shape in Hx as [Ht Hps] end.
  match goal with Hx : loadSettlement _ _ = _ |- _ => apply still_loadSettlement in Hx as Hend end.
  eapply plain_transaction_quiet; [|eassumption|eassumption|done| |exact Hend]; [still_chain|].
  eapply off_escrow_accounts; [by rewrite Hps|]. repeat match goal with Hx : db _ = db _ |- _ => rewrite Hx in * end.
  unfold settle_ups_plain in Hpl. rewrite Forall_forall in Hpl. apply Hpl; [done|].
  unfold is_settle_up in Hsu. bool_prop. unfold nobodys_bet, wager_source, parlay_source.
  match goal with Hx : Tx_SourceType _ = _ |- _ => rewrite Hx end. split; apply andb_false_r.
Qed.

Lemma still_ListSettlements st n : still_op (ListSettlements st n).
Proof. unfold ListSettlements. cbv zeta. still. Qed.
Lemma still_ListMemberBalances st c : still_op (ListMemberBalances st c).
Proof. unfold ListMemberBalances. still. Qed.
Lemma still_MemberBook st u c : still_op (MemberBook st u c).
Proof. unfold MemberBook. cbv zeta. still. Qed.
End adjust_lemmas.

(** Every step of the store keeps settle-ups off escrow. *)
Lemma settle_ups_grow d d' l :
  ledger d' = ledger d ++ l -> accounts d ⊆ accounts d' ->
  Forall (fun r => nobodys_bet r -> Forall (off_escrow d') (row_postings r)) l ->
  settle_ups_plain d -> settle_ups_plain d'.
Proof.
  intros Hl Ha Hf Hp. unfold settle_ups_plain. rewrite Hl. apply Forall_app. split; [|done].
  eapply Forall_impl; [exact Hp|]. cbn. intros r Hr Hs. eapply Forall_impl; [by apply Hr|]. intros p. by apply off_escrow_mono.
Qed.

Lemma store_step_settle_ups d d' : store_step d d' -> settle_ups_plain d -> settle_ups_plain d'.
Proof.
  intros [[_ _ (l & Hl & Hf) Ha]|c [_ _ _ Hl Ha]|id r r' ps [_ _ _ _ (l & Hl & Hf & _) _ Ha]|id p' [_ _ (l & Hl & Hf & _) _ Ha]].
  - eapply settle_ups_grow; [exact Hl|apply Ha|]. eapply Forall_impl; [exact Hf|]. by intros r (_ & _ & Hr) _.
  - eapply (settle_ups_grow _ _ []); [by rewrite app_nil_r|apply Ha|done].
  - eapply settle_ups_grow; [exact Hl|apply Ha|]. eapply Forall_impl; [exact Hf|]. intros x Hx%book_row_wager Hs.
    destruct Hs as [Hs _]. by rewrite Hs in Hx.
  - eapply settle_ups_grow; [exact Hl|apply Ha|]. eapply Forall_impl; [exact Hf|]. intros x Hx Hs.
    destruct Hs as [_ Hs]. unfold parlay_row in Hx. by rewrite Hs in Hx.
Qed.
