(* ===== verification/ReadersStore.v ===== *)
(** * internal/bettingpg: readers.go and record.go

    What the pages read: the markets on the board, the approval queue, a
    member's own wagers and the book's record.  The listing of matches that
    could get a market joins competition tables and is not modelled. *)
From S2P Require Import Prelude GoStrings GoTime Ledger Events Betting Placement Settlement SQL BettingDB StoreSteps WagerStore.

(** ** [ORDER BY] over several columns *)
Inductive sort_key := ByZ (z : Z) | ByText (s : string) | ByTextDesc (s : string).

Definition key_before (x y : sort_key) : bool :=
  match x, y with
  | ByZ a, ByZ b => a <? b
  | ByText a, ByText b => String.ltb a b
  | ByTextDesc a, ByTextDesc b => String.ltb b a
  | _, _ => false
  end.

(** No later column of the first list decides against it. *)
Fixpoint keys_le (xs ys : list sort_key) : bool :=
  match xs, ys with
  | x :: xs, y :: ys => key_before x y || (negb (key_before y x) && keys_le xs ys)
  | _, _ => true
  end.
Definition keyed_before {A} (keys : A -> list sort_key) (x y : A) : Prop := keys_le (keys x) (keys y) = true.
#[export] Instance keyed_before_dec {A} (keys : A -> list sort_key) : RelDecision (keyed_before keys).
Proof. intros x y. unfold keyed_before. apply _. Defined.

Definition order_by {A} (keys : A -> list sort_key) (l : list A) : list A := merge_sort (keyed_before keys) l.

Lemma order_by_perm {A} (keys : A -> list sort_key) l : order_by keys l ≡ₚ l.
Proof. apply merge_sort_Permutation. Qed.

(** ** Markets *)
Record MarketSelectionRow := mkMarketSelectionRow {
  MS_TotalStakeCapCents : Z;
  MS_MaxStakeCents : Z;
  MS_ID : string;
  MS_Key : string;
  MS_DisplayTerms : string;
  MS_OfferedAmericanOdds : AmericanOdds;
  OpeningAmericanOdds : AmericanOdds;
  MS_SemanticResultKey : string;
  MS_Active : bool
}.
Definition Moved (r : MarketSelectionRow) : bool := negb (bool_decide (MS_OfferedAmericanOdds r = OpeningAmericanOdds r)).

(** [bettingpg.MarketRow] of readers.go. *)
Record MarketListRow := mkMarketListRow {
  ML_ID : string;
  ML_Type : MarketType;
  ML_MatchID : string;
  ML_Title : string;
  ML_State : MarketState;
  ML_Currency : Currency;
  ML_DynamicPricing : bool;
  ML_MaxStakeCents : Z;
  ML_OpensAt : Time;
  ML_ClosesAt : Time;
  LiveWagerCount : Z;
  ML_Selections : list MarketSelectionRow
}.
Definition HasWagers (m : MarketListRow) : bool := 0 <? LiveWagerCount m.
Definition set_ML_Selections (l : list MarketSelectionRow) (m : MarketListRow) : MarketListRow :=
  mkMarketListRow (ML_ID m) (ML_Type m) (ML_MatchID m) (ML_Title m) (ML_State m) (ML_Currency m) (ML_DynamicPricing m)
    (ML_MaxStakeCents m) (ML_OpensAt m) (ML_ClosesAt m) (LiveWagerCount m) l.

(** Labels of a match: [matchSideLabel] and [matchBetLabel]. *)
Definition matchSideLabel (team players : string) : string :=
  if is_blank players then team else (team ++ " — " ++ players)%string.
Definition matchBetLabel (team players : string) : string :=
  if negb (is_blank players) then players else team.

(** One row of [marketRowsSQL]: a market with one of its selections, or with
    none. *)
Record market_join := mkMarketJoin {
  mj_id : string;
  mj_market : MarketRow;
  mj_live : Z;
  mj_selection : option (string * SelectionRow)
}.

Section readers.
Context {E : environment}.
Implicit Types (st : Store) (d : DB).

Definition live_count (market : string) d : Z :=
  Z.of_nat (length (List.filter (fun w => bool_decide (Wager_MarketID w = market) && is_open_wager w)
                      (wr_wager <$> (map_to_list (wager_rows d)).*2))).

Definition selections_joined (active_only : bool) (market : string) d : list (string * SelectionRow) :=
  List.filter (fun kr => bool_decide (Selection_MarketID (sr_selection kr.2) = market)
                         && (negb active_only || Active (sr_selection kr.2))) (map_to_list (selections d)).

Definition join_market (active_only : bool) d (kr : string * MarketRow) : list market_join :=
  match selections_joined active_only kr.1 d with
  | [] => [mkMarketJoin kr.1 kr.2 (live_count kr.1 d) None]
  | l => (fun s => mkMarketJoin kr.1 kr.2 (live_count kr.1 d) (Some s)) <$> l
  end.

Definition market_keys (descending : bool) (j : market_join) : list sort_key :=
  let sign z := if descending then - z else z in
  [ByZ (sign (nanos (ClosesAt (mr_market (mj_market j))))); ByZ (sign (nanos (market_created_at (mj_market j))));
   ByText (mj_id j)]
  ++ match mj_selection j with
     | Some (id, s) => [ByZ (OfferedAmericanOdds (sr_selection s)); ByText (DisplayTerms (sr_selection s)); ByText id]
     | None => []
     end.

Definition market_rows (active_only descending : bool) (p : string -> MarketRow -> bool) d : list market_join :=
  order_by (market_keys descending)
    (List.filter (fun kr : string * MarketRow => p kr.1 kr.2) (map_to_list (markets d)) ≫= join_market active_only d).

(** The market of a row, with no selections yet. *)
Definition list_market (j : market_join) : result MarketListRow :=
  let r := mj_market j in
  let m := mr_market r in
  parsedCurrency ← wrap_err "market %s currency: %w" (ParseCurrency (TrimSpace (Market_Currency m)));
  Ok (mkMarketListRow (mj_id j) (Market_Type m) (MatchID m) (Title m) (Market_State m) parsedCurrency
        (dynamic_pricing r) 0 (if IsZero (OpensAt m) then zeroTime else UTC (OpensAt m)) (UTC (ClosesAt m)) (mj_live j) []).

Definition list_selection (id : string) (s : SelectionRow) : result MarketSelectionRow :=
  let x := sr_selection s in
  parsedOdds ← wrap_err "selection %s odds: %w" (NewAmericanOdds (OfferedAmericanOdds x));
  parsedOpeningOdds ← wrap_err "selection %s opening odds: %w" (NewAmericanOdds (opening_american_odds s));
  Ok (mkMarketSelectionRow (default 0 (total_stake_cap_cents s)) (default 0 (selection_max_stake_cents s)) id (Key x)
        (DisplayTerms x) parsedOdds parsedOpeningOdds (SemanticResultKey x) (Active x)).

(** [for rows.Next()]: the markets so far and the position of each. *)
Fixpoint scan_markets (rows : list market_join) (found : list MarketListRow) (index : gmap string nat)
    : result (list MarketListRow) :=
  match rows with
  | [] => Ok found
  | j :: rest =>
      '(found, index, position) ←
        (match index !! mj_id j with
         | Some position => Ok (found, index, position)
         | None => market ← list_market j;
                   Ok (found ++ [market], <[mj_id j := length found]> index, length found)
         end);
      match mj_selection j with
      | None => scan_markets rest found index
      | Some (id, s) =>
          row ← list_selection id s;
          scan_markets rest (alter (fun m => set_ML_Selections (ML_Selections m ++ [row]) m) position found) index
      end
  end.

Definition listMarkets st (rows : Time -> DB -> result (list market_join)) : go (list MarketListRow) :=
  if negb (HasDB st) then failing (Errorf "bettingpg: PostgreSQL pool is required")
  else
    found ← statement "query markets: %w" (fun n d => l ← rows (timestamptz (clock n)) d; Ok (d, l));
    lift (scan_markets found [] ∅).

Definition openMarketPredicate (at_ : Time) (r : MarketRow) : bool :=
  let m := mr_market r in
  bool_decide (Market_State m = MarketOpen) && (nanos at_ <? nanos (ClosesAt m))
  && (IsZero (OpensAt m) || (nanos (OpensAt m) <=? nanos at_)).

Definition ListMarkets st : go (list MarketListRow) :=
  listMarkets st (fun _ d => Ok (market_rows false true (fun _ _ => true) d)).
Definition ListOpenMarkets st : go (list MarketListRow) :=
  listMarkets st (fun at_ d => Ok (market_rows true false (fun _ => openMarketPredicate at_) d)).

(** The member's side restrictions: the selections they may not back. *)
Definition hidden_selections (user : string) d : gset string :=
  list_to_set (omap (fun kr : restriction_key * RestrictionDBRow =>
                       if bool_decide (kr.1.1.2 = user) then kr.1.2 else None) (map_to_list (restrictions d))).
Definition restrictedSelections (userID : string) : go (gset string) :=
  query "load member selection restrictions: %w" (fun d => u ← cast userID; Ok (hidden_selections u d)).

(** The markets with what is hidden taken out, and without those left empty. *)
Definition visible_markets (hidden : gset string) (markets : list MarketListRow) : list MarketListRow :=
  List.filter (fun m => negb (bool_decide (ML_Selections m = [])))
    ((fun m => set_ML_Selections (List.filter (fun x => negb (bool_decide (MS_ID x ∈ hidden))) (ML_Selections m)) m)
       <$> markets).

Definition ListOpenMarketsForUser st (userID : string) : go (list MarketListRow) :=
  if negb (isUUID userID) then failing (Wrapf "%w: listing markets requires a user ID" ErrInvalid)
  else
    markets ← listMarkets st (fun at_ d =>
      u ← cast userID;
      Ok (market_rows true false (fun id r => openMarketPredicate at_ r
            && bool_decide (restrictions d !! (id, u, None) = None)) d));
    hidden ← restrictedSelections userID;
    if bool_decide (size hidden = 0%nat) then mret markets else mret (visible_markets hidden markets).

(** ** Wagers *)
Record AdminWagerRow := mkAdminWagerRow {
  AW_ID : string;
  AW_UserID : string;
  UserDisplayName : string;
  AW_MarketID : string;
  AW_MarketTitle : string;
  AW_SelectionID : string;
  AW_SelectionTerms : string;
  AW_Odds : AmericanOdds;
  AW_Stake : Money;
  AW_PotentialProfit : Money;
  AW_State : WagerState;
  AW_RejectionReason : string;
  AW_PlacedAt : Time;
  AW_CurrentOdds : AmericanOdds;
  AW_SelectionActive : bool;
  AW_MarketState : MarketState
}.
Record UserWagerRow := mkUserWagerRow {
  UW_ID : string;
  UW_MarketTitle : string;
  UW_SelectionTerms : string;
  UW_Odds : AmericanOdds;
  UW_Stake : Money;
  UW_PotentialProfit : Money;
  UW_State : WagerState;
  UW_RejectionReason : string;
  UW_PlacedAt : Time;
  UW_CurrentOdds : AmericanOdds;
  UW_SelectionActive : bool;
  UW_MarketState : MarketState
}.

(** A wager with its member, market and selection. *)
Record wager_join := mkWagerJoin {
  wj_wager : WagerRow;
  wj_user : option UserRow;
  wj_market : Market;
  wj_selection : SelectionRow
}.
Definition join_wager d (r : WagerRow) : option wager_join :=
  let w := wr_wager r in
  m ← markets d !! Wager_MarketID w;
  s ← selection_of (Wager_MarketID w) (Wager_SelectionID w) d;
  Some (mkWagerJoin r (users d !! Wager_UserID w) (mr_market m) s).
Definition wager_joins (p : Wager -> bool) d : list wager_join :=
  omap (join_wager d) (List.filter (fun r => p (wr_wager r)) (map_to_list (wager_rows d)).*2).

(** The odds, stake and profit of a stored wager. *)
Definition fillWagerMoney (rawOdds stakeCents profitCents : Z) (currency : string) : result (AmericanOdds * Money * Money) :=
  parsedCurrency ← wrap_err "currency: %w" (ParseCurrency (TrimSpace currency));
  odds ← wrap_err "odds: %w" (NewAmericanOdds rawOdds);
  stake ← wrap_err "stake: %w" (NewMoney stakeCents parsedCurrency);
  profit ← wrap_err "potential profit: %w" (NewMoney profitCents parsedCurrency);
  Ok (odds, stake, profit).
Definition wager_money (w : Wager) : result (AmericanOdds * Money * Money) :=
  wrap_err "wager %s: %w" (fillWagerMoney (AcceptedOdds w) (Cents (Stake w)) (Cents (PotentialProfit w))
                             (Money_Currency (Stake w))).

Definition admin_wager (j : wager_join) : result AdminWagerRow :=
  let w := wr_wager (wj_wager j) in
  let s := sr_selection (wj_selection j) in
  '(odds, stake, profit) ← wager_money w;
  currentOdds ← wrap_err "wager %s live line: %w" (NewAmericanOdds (OfferedAmericanOdds s));
  Ok (mkAdminWagerRow (Wager_ID w) (Wager_UserID w) (default ""%string (display_name <$> wj_user j)) (Wager_MarketID w)
        (Title (wj_market j)) (Wager_SelectionID w) (AcceptedTerms w) odds stake profit (Wager_State w)
        (default ""%string (rejection_reason (wj_wager j))) (UTC (PlacedAt w)) currentOdds (Active s)
        (Market_State (wj_market j))).
Definition user_wager (j : wager_join) : result UserWagerRow :=
  let w := wr_wager (wj_wager j) in
  let s := sr_selection (wj_selection j) in
  '(odds, stake, profit) ← wager_money w;
  currentOdds ← wrap_err "wager %s live line: %w" (NewAmericanOdds (OfferedAmericanOdds s));
  Ok (mkUserWagerRow (Wager_ID w) (Title (wj_market j)) (AcceptedTerms w) odds stake profit (Wager_State w)
        (default ""%string (rejection_reason (wj_wager j))) (UTC (PlacedAt w)) currentOdds (Active s)
        (Market_State (wj_market j))).

Definition oldest_first (j : wager_join) : list sort_key :=
  let w := wr_wager (wj_wager j) in [ByZ (nanos (PlacedAt w)); ByText (Wager_ID w)].
Definition newest_first (j : wager_join) : list sort_key :=
  let w := wr_wager (wj_wager j) in [ByZ (- nanos (PlacedAt w)); ByTextDesc (Wager_ID w)].
Definition with_user (j : wager_join) : bool := bool_decide (wj_user j <> None).

Definition ListWagersByState st (state : WagerState) : go (list AdminWagerRow) :=
  if negb (HasDB st) then failing (Errorf "bettingpg: PostgreSQL pool is required")
  else
    lift (WagerState_Validate state);;
    found ← query "query wagers by state: %w" (fun d =>
              Ok (order_by oldest_first (List.filter with_user (wager_joins (in_state state) d))));
    lift (mapM admin_wager found).

Definition ListWagersForUser st (userID : string) : go (list UserWagerRow) :=
  if negb (HasDB st) then failing (Errorf "bettingpg: PostgreSQL pool is required")
  else if negb (isUUID userID) then failing (Wrapf "%w: listing wagers requires a user ID" ErrInvalid)
  else
    found ← query "query wagers for user: %w" (fun d =>
              u ← cast userID;
              Ok (order_by newest_first (wager_joins (fun w => bool_decide (Wager_UserID w = u)) d)));
    lift (mapM user_wager found).

(** ** record.go *)
Definition wagerRecordLimit : Z := 200.

Record WagerRecordRow := mkWagerRecordRow {
  WR_ID : string;
  WR_PlacedAt : Time;
  WR_UserID : string;
  WR_MemberName : string;
  WR_MarketTitle : string;
  WR_MarketState : MarketState;
  WR_SelectionTerms : string;
  OpeningOdds : AmericanOdds;
  TakenOdds : AmericanOdds;
  ClosingOdds : AmericanOdds;
  WR_Stake : Money;
  WR_PotentialProfit : Money;
  WR_State : WagerState;
  WR_Result : option SettlementResult
}.
Definition MarketClosedRecord (r : WagerRecordRow) : bool :=
  negb (bool_decide (WR_MarketState r = MarketOpen)) && negb (bool_decide (WR_MarketState r = MarketDraft)).

(** A wager joined with each of its settlements, of which none supersedes
    another: the column is never written. *)
Definition with_results d (j : wager_join) : list (wager_join * option SettlementResult) :=
  match List.filter (fun r => bool_decide (WS_WagerID (wsr_settlement r) = Wager_ID (wr_wager (wj_wager j))))
          (wager_settlements d) with
  | [] => [(j, None)]
  | l => (fun r => (j, Some (WS_Result (wsr_settlement r)))) <$> l
  end.

Definition record_row (jr : wager_join * option SettlementResult) : result WagerRecordRow :=
  let '(j, res) := jr in
  let w := wr_wager (wj_wager j) in
  '(taken, stake, profit) ← wager_money w;
  opening ← wrap_err "wager %s opening line: %w" (NewAmericanOdds (opening_american_odds (wj_selection j)));
  closing ← wrap_err "wager %s closing line: %w" (NewAmericanOdds (OfferedAmericanOdds (sr_selection (wj_selection j))));
  Ok (mkWagerRecordRow (Wager_ID w) (UTC (PlacedAt w)) (Wager_UserID w) (default ""%string (display_name <$> wj_user j))
        (Title (wj_market j)) (Market_State (wj_market j)) (AcceptedTerms w) opening taken closing stake profit
        (Wager_State w) res).

Definition ListWagerRecord st (limit : Z) : go (list WagerRecordRow) :=
  if negb (HasDB st) then failing (Errorf "bettingpg: PostgreSQL pool is required")
  else
    let limit := if (limit <=? 0) || (wagerRecordLimit <? limit) then wagerRecordLimit else limit in
    found ← query "query wager record: %w" (fun d =>
              Ok (take (Z.to_nat limit)
                    (order_by (fun jr => newest_first jr.1)
                       (List.filter with_user (wager_joins (fun _ => true) d) ≫= with_results d))));
    lift (mapM record_row found).
End readers.

(** ** What a listing shows *)
Definition shown (l : list MarketListRow) (market selection : string) : Prop :=
  exists row x, row ∈ l /\ ML_ID row = market /\ x ∈ ML_Selections row /\ MS_ID x = selection.

(** The index names the position of every market found. *)
Definition index_ok (found : list MarketListRow) (index : gmap string nat) : Prop :=
  forall id p, index !! id = Some p <-> exists m, found !! p = Some m /\ ML_ID m = id.

Lemma elem_of_alter_list {A} (f : A -> A) (p : nat) (l : list A) x y :
  l !! p = Some x -> (y ∈ alter f p l <-> y = f x \/ exists i, i <> p /\ l !! i = Some y).
Proof.
  intros Hp. rewrite list_elem_of_lookup. split.
  - intros [i Hi]. destruct (decide (i = p)) as [->|Hne].
    + rewrite list_lookup_alter_eq, Hp in Hi. injection Hi as <-. by left.
    + rewrite list_lookup_alter_ne in Hi by done. eauto.
  - intros [->|(i & Hne & Hi)].
    + exists p. by rewrite list_lookup_alter_eq, Hp.
    + exists i. by rewrite list_lookup_alter_ne.
Qed.

Lemma shown_add_selection found p m row market selection :
  found !! p = Some m ->
  shown (alter (fun m => set_ML_Selections (ML_Selections m ++ [row]) m) p found) market selection
  <-> shown found market selection \/ (market = ML_ID m /\ selection = MS_ID row).
Proof.
  intros Hp. unfold shown. setoid_rewrite (elem_of_alter_list _ _ _ _ _ Hp). split.
  - intros (r & x & [->|(i & Hne & Hi)] & Hm & Hx & Hs).
    + cbn in *. apply elem_of_app in Hx as [Hx|Hx%list_elem_of_singleton].
      * left. exists m, x. split_and!; try done. by eapply list_elem_of_lookup_2.
      * right. by subst.
    + left. exists r, x. split_and!; try done. by eapply list_elem_of_lookup_2.
  - intros [(r & x & Hr & Hm & Hx & Hs)|[-> ->]].
    + apply list_elem_of_lookup in Hr as [i Hi]. destruct (decide (i = p)) as [->|Hne].
      * rewrite Hp in Hi. injection Hi as <-. eexists _, x. split; [by left|]. cbn. split_and!; try done. set_solver.
      * exists r, x. split; [by right; eauto|done].
    + eexists _, row. split; [by left|]. cbn. split_and!; try done. set_solver.
Qed.

Lemma shown_add_market found m market selection :
  ML_Selections m = [] -> shown (found ++ [m]) market selection <-> shown found market selection.
Proof.
  intros Hm. unfold shown. setoid_rewrite elem_of_app. setoid_rewrite list_elem_of_singleton.
  split; [|intros (r & x & ? & ?); exists r, x; tauto].
  intros (r & x & [Hr| ->] & H); [by exists r, x|]. rewrite Hm in H. destruct H as (_ & Hx & _). by apply elem_of_nil in Hx.
Qed.

Definition row_shows (market selection : string) (j : market_join) : Prop :=
  mj_id j = market /\ fst <$> mj_selection j = Some selection.

Lemma index_ok_add found m id index :
  ML_ID m = id -> index !! id = None -> index_ok found index -> index_ok (found ++ [m]) (<[id := length found]> index).
Proof.
  intros Hid Hnew Hok i p. rewrite lookup_insert_Some. split.
  - intros [[<- <-]|[Hne Hi]].
    + exists m. by rewrite lookup_app_r, Nat.sub_diag.
    + apply Hok in Hi as (r & Hr & Hri). exists r. split; [|done]. by apply lookup_app_l_Some.
  - intros (r & Hr & Hri). apply lookup_snoc_Some in Hr as [[Hl Hr]|[-> <-]]; [right|left; split; congruence].
    assert (Hi : index !! i = Some p) by (apply Hok; eauto). split; [congruence|done].
Qed.

Lemma index_ok_alter found f p index :
  (forall m, ML_ID (f m) = ML_ID m) -> index_ok found index -> index_ok (alter f p found) index.
Proof.
  intros Hf Hok i q. rewrite (Hok i q). destruct (decide (p = q)) as [->|Hne].
  - rewrite list_lookup_alter_eq. split.
    + intros (m & -> & Hm). exists (f m). by rewrite Hf.
    + intros (m & Hm & Hid). destruct (found !! q) as [r|]; [|done]. injection Hm as <-. rewrite Hf in Hid. eauto.
  - by rewrite list_lookup_alter_ne.
Qed.

Lemma list_market_Ok j m : list_market j = Ok m -> ML_ID m = mj_id j /\ ML_Selections m = [] /\ ML_MaxStakeCents m = 0.
Proof. unfold list_market. cbv zeta. intros H. go_inv. done. Qed.
Lemma list_selection_Ok id s x : list_selection id s = Ok x -> MS_ID x = id.
Proof. unfold list_selection. cbv zeta. intros H. go_inv. done. Qed.

(** The listing has each row's selection under its market, and no cap. *)
Lemma scan_markets_spec rows found index out :
  scan_markets rows found index = Ok out -> index_ok found index ->
  (forall market selection, shown out market selection
     <-> shown found market selection \/ exists j, j ∈ rows /\ row_shows market selection j)
  /\ (Forall (fun m => ML_MaxStakeCents m = 0) found -> Forall (fun m => ML_MaxStakeCents m = 0) out).
Proof.
  revert found index. induction rows as [|j rows IH]; intros found index H Hok; cbn [scan_markets] in H.
  { simplify_eq. split; [|done]. intros m x. split; [by left|]. intros [?|(j & Hj & _)]; [done|set_solver]. }
  apply bind_Ok in H as ([[found1 index1] position] & Hpos & H).
  assert (H1 : index_ok found1 index1 /\ (exists m, found1 !! position = Some m /\ ML_ID m = mj_id j)
            /\ (forall m x, shown found1 m x <-> shown found m x)
            /\ (Forall (fun m => ML_MaxStakeCents m = 0) found -> Forall (fun m => ML_MaxStakeCents m = 0) found1)).
  { destruct (index !! mj_id j) as [p|] eqn:Ei; go_inv; simplify_eq.
    - split_and!; try done. by apply Hok.
    - match goal with Hm : list_market j = Ok ?v |- _ => apply list_market_Ok in Hm as (Hid & Hsel & Hcap) end. split_and!.
      + by apply index_ok_add.
      + eexists. split; [|exact Hid]. by rewrite lookup_app_r, Nat.sub_diag.
      + intros m x. by apply shown_add_market.
      + intros Hf. apply Forall_app. split; [done|]. by apply Forall_singleton. }
  destruct H1 as (Hok1 & (m0 & Hm0 & Hid0) & Hsh & Hcap). destruct (mj_selection j) as [[id s]|] eqn:Es.
  - apply bind_Ok in H as (row & Hrow & H). apply list_selection_Ok in Hrow. apply IH in H as [IH1 IH2]; [|by apply index_ok_alter].
    split.
    + intros m x. rewrite IH1, (shown_add_selection _ _ _ _ _ _ Hm0), Hsh. unfold row_shows. setoid_rewrite elem_of_cons.
      split.
      * intros [[?|[-> ->]]|(j' & ? & ?)]; [by left| |right; eauto]. right. exists j. rewrite Es. cbn. split; [by left|].
        split; congruence.
      * intros [?|(j' & [->|Hj'] & Hs)]; [by left; left| |right; eauto]. left. right. rewrite Es in Hs. cbn in Hs.
        destruct Hs as [<- [= <-]]. split; congruence.
    + intros Hf. apply IH2. specialize (Hcap Hf). rewrite Forall_forall in Hcap |- *. intros y Hy.
      apply (elem_of_alter_list _ _ _ _ _ Hm0) in Hy as [->|(i & _ & Hi)]; [cbn|]; apply Hcap; by eapply list_elem_of_lookup_2.
  - apply IH in H as [IH1 IH2]; [|done]. split; [|auto]. intros m x. rewrite IH1, Hsh. setoid_rewrite elem_of_cons.
    split; [intros [?|(j' & ? & ?)]; [by left|right; eauto]|]. intros [?|(j' & [->|Hj'] & Hs)]; [by left| |right; eauto].
    destruct Hs as [_ Hs]. by rewrite Es in Hs.
Qed.

Section board.
Context {E : environment}.

Lemma market_rows_show active_only desc p d m x :
  (exists j, j ∈ market_rows active_only desc p d /\ row_shows m x j)
  <-> exists mr sr, markets d !! m = Some mr /\ p m mr = true /\ selection_of m x d = Some sr
        /\ (active_only = true -> Active (sr_selection sr) = true).
Proof.
  unfold market_rows. setoid_rewrite order_by_perm. setoid_rewrite list_elem_of_bind. split.
  - intros (j & ([m' mr] & Hj & Hin) & Hm & Hx). apply filter_bool_elem in Hin as [Hin Hp].
    apply elem_of_map_to_list in Hin. cbn [fst snd] in *. unfold join_market in Hj.
    destruct (selections_joined _ _ _) as [|s l] eqn:Es.
    + apply list_elem_of_singleton in Hj as ->. by cbn in Hx.
    + rewrite <- Es in Hj. apply list_elem_of_fmap in Hj as ([x' sr] & -> & Hj). cbn in Hm, Hx. subst m'. injection Hx as ->.
      unfold selections_joined in Hj. apply filter_bool_elem in Hj as [Hj Hb]. apply elem_of_map_to_list in Hj.
      cbn [fst snd] in *. bool_prop. exists mr, sr. split_and!; [done|done| |].
      * unfold selection_of. rewrite Hj. cbn. by rewrite bool_decide_true.
      * intros ->. match goal with Ho : _ || _ = true |- _ => by cbn in Ho end.
  - intros (mr & sr & Hm & Hp & Hs & Ha). unfold selection_of in Hs. destruct (selections d !! x) as [sr'|] eqn:Ex; [|done].
    cbn in Hs. case_bool_decide as Hmk; [|done]. injection Hs as ->.
    exists (mkMarketJoin m mr (live_count m d) (Some (x, sr))). split; [|done]. exists (m, mr). split.
    + assert (Hin : (x, sr) ∈ selections_joined active_only m d).
      { unfold selections_joined. apply filter_bool_elem. split; [by apply elem_of_map_to_list|]. cbn [fst snd].
        rewrite bool_decide_true by done. cbn. destruct active_only; [by apply Ha|done]. }
      unfold join_market. cbn [fst snd]. destruct (selections_joined _ _ _) as [|s l] eqn:Es; [by apply elem_of_nil in Hin|].
      apply list_elem_of_fmap. by exists (x, sr).
    + apply filter_bool_elem. split; [by apply elem_of_map_to_list|done].
Qed.

Lemma listMarkets_run st rows s s' l :
  listMarkets st rows s = (s', Ok l) ->
  db s' = db s /\ exists n js, rows (timestamptz (clock n)) (db s) = Ok js /\ scan_markets js [] ∅ = Ok l.
Proof.
  unfold listMarkets. destruct (negb _); [intros [=]|]. intros H. run_inv.
  apply statement_run in Hrun as (n & Hn). go_inv. simplify_eq. split; [done|]. eauto.
Qed.

Lemma scan_markets_all js l :
  scan_markets js [] ∅ = Ok l ->
  (forall m x, shown l m x <-> exists j, j ∈ js /\ row_shows m x j) /\ Forall (fun m => ML_MaxStakeCents m = 0) l.
Proof.
  intros H%scan_markets_spec; [|intros i p; rewrite lookup_empty; split; [done|by intros (? & ? & ?)]].
  destruct H as [H1 H2]. split; [|by apply H2]. intros m x. rewrite H1. split; [|by right].
  intros [(r & y & Hr & _)|?]; [by apply elem_of_nil in Hr|done].
Qed.

Lemma visible_shown hidden l m x :
  shown (visible_markets hidden l) m x <-> shown l m x /\ x ∉ hidden.
Proof.
  unfold shown, visible_markets. setoid_rewrite filter_bool_elem. setoid_rewrite list_elem_of_fmap. split.
  - intros (r & y & [(r' & -> & Hr) _] & Hm & Hy & Hx). cbn in *. apply filter_bool_elem in Hy as [Hy Hh]. bool_prop.
    split; [eauto 10|congruence].
  - intros [(r & y & Hr & Hm & Hy & Hx) Hh].
    assert (Hin : y ∈ List.filter (fun x => negb (bool_decide (MS_ID x ∈ hidden))) (ML_Selections r)).
    { apply filter_bool_elem. split; [done|]. rewrite bool_decide_false; [done|congruence]. }
    eexists _, y. split; [split; [by exists r|]|]; cbn; [|done].
    rewrite bool_decide_false; [done|]. intros Hn. rewrite Hn in Hin. by apply elem_of_nil in Hin.
Qed.

Lemma elem_of_hidden u d x : x ∈ hidden_selections u d <-> exists m, is_Some (restrictions d !! (m, u, Some x)).
Proof.
  unfold hidden_selections. rewrite elem_of_list_to_set, list_elem_of_omap. split.
  - intros ([[[m u'] c] r] & Hin & H). apply elem_of_map_to_list in Hin. cbn in H. case_bool_decide; [|done]. subst. eauto.
  - intros [m [r Hr]]. exists ((m, u, Some x), r). split; [by apply elem_of_map_to_list|]. cbn. by rewrite bool_decide_true.
Qed.

(** What the restriction tables' foreign keys guarantee: a side restriction
    names a selection of its market. *)
Definition restrictions_named (d : DB) : Prop :=
  forall m u c, is_Some (restrictions d !! (m, u, Some c)) -> c <> ""%string /\ is_Some (selection_of m c d).

Lemma elem_of_restrictions m d r :
  r ∈ restrictions_of m d <-> exists u c y, restrictions d !! (m, u, c) = Some y
    /\ r = mkRestriction u (default ""%string c) (restriction_reason y).
Proof.
  unfold restrictions_of. rewrite list_elem_of_fmap. split.
  - intros ([[[m' u] c] y] & -> & Hin). apply filter_bool_elem in Hin as [Hin Hm]. apply elem_of_map_to_list in Hin.
    cbn in Hm. bool_prop. subst m'. by exists u, c, y.
  - intros (u & c & y & Hy & ->). exists ((m, u, c), y). split; [done|]. apply filter_bool_elem.
    split; [by apply elem_of_map_to_list|]. cbn. by rewrite bool_decide_true.
Qed.

Lemma unrestricted_iff d m u x sr :
  restrictions_named d -> selection_of m x d = Some sr ->
  unrestricted (restrictions_of m d) u x
  <-> restrictions d !! (m, u, None) = None /\ x ∉ hidden_selections u d.
Proof.
  intros Hn Hsel. unfold unrestricted. setoid_rewrite elem_of_restrictions. rewrite elem_of_hidden. split.
  - intros H. split.
    + destruct (restrictions d !! _) as [y|] eqn:Ey; [|done]. exfalso.
      destruct (H (mkRestriction u ""%string (restriction_reason y))) as [Hne _]; [by exists u, None, y|done|done].
    + intros [m' Hm']. destruct (Hn _ _ _ Hm') as [_ [sr' Hsr']]. destruct Hm' as [y Hy].
      assert (m' = m) as ->.
      { unfold selection_of in *. destruct (selections d !! x) as [z|]; [|done]. cbn in *.
        case_bool_decide; [|done]. case_bool_decide; [|done]. congruence. }
      destruct (H (mkRestriction u x (restriction_reason y))) as [_ Hne]; [by exists u, (Some x), y|done|done].
  - intros [Hw Hh] r (u' & c & y & Hy & ->) Hu. cbn in *. subst u'. destruct c as [c|]; cbn; [|congruence].
    split; [by eapply Hn|]. intros ->. apply Hh. eauto.
Qed.

(** The board's predicate on the instant of the query. *)
Lemma openMarketPredicate_iff at_ r :
  openMarketPredicate at_ r = true
  <-> Market_State (mr_market r) = MarketOpen /\ in_window (mr_market r) at_.
Proof.
  unfold openMarketPredicate, in_window. cbv zeta. rewrite !andb_true_iff, orb_true_iff, bool_decide_eq_true, Z.ltb_lt, Z.leb_le.
  tauto.
Qed.

(** C31. A member's board offers exactly what the book would let them back.  A
    selection is on the board under a market if and only if the market is open
    and inside its window at the instant of the query, the selection belongs to
    it and is active, and no restriction on the market bars this member from
    the market or from that side: the conditions [PlaceWager] checks again. *)
Theorem board_offers_what_can_be_backed st user s s' board :
  restrictions_named (db s) ->
  ListOpenMarketsForUser st user s = (s', Ok board) ->
  db s' = db s /\ exists n u, uuid_cast user = Some u
    /\ forall market selection, shown board market selection
         <-> exists mr sr, markets (db s) !! market = Some mr
               /\ Market_State (mr_market mr) = MarketOpen /\ in_window (mr_market mr) (timestamptz (clock n))
               /\ selection_of market selection (db s) = Some sr /\ Active (sr_selection sr) = true
               /\ unrestricted (restrictions_of market (db s)) u selection.
Proof.
  intros Hnamed H. unfold ListOpenMarketsForUser in H. destruct (negb _); [by apply failing_run in H|].
  apply bind_run in H as (l & s1 & Hl & H). apply listMarkets_run in Hl as (Hd1 & n & js & Hjs & Hscan).
  apply bind_run in H as (hidden & s2 & Hh & H). unfold restrictedSelections in Hh. apply query_run in Hh as [Hd2 Hh].
  go_inv. apply cast_Ok in Hok. match goal with Hc : cast user = Ok _ |- _ => apply cast_Ok in Hc; rewrite Hc in Hok end.
  simplify_eq. apply scan_markets_all in Hscan as [Hshown _].
  assert (Hb : db s' = db s /\ forall m x, shown board m x <-> shown l m x /\ x ∉ hidden_selections v (db s)).
  { rewrite Hd1 in *. case_bool_decide as Hsz; apply ret_run in H as [-> ->]; (split; [congruence|]); intros m x.
    - apply size_empty_inv in Hsz. split; [|tauto]. intros ?. split; [done|]. set_solver.
    - apply visible_shown. }
  destruct Hb as [Hd Hb]. split; [done|]. exists n, v. split; [done|]. intros m x.
  rewrite Hb, Hshown, market_rows_show. split.
  - intros [(mr & sr & Hm & Hp & Hs & Ha) Hx]. apply andb_true_iff in Hp as [Hp Hr]. bool_prop.
    apply openMarketPredicate_iff in Hp as [? ?]. exists mr, sr. split_and!; try done; [by apply Ha|].
    by eapply unrestricted_iff.
  - intros (mr & sr & Hm & Hst & Hw & Hs & Ha & Hu). eapply unrestricted_iff in Hu as [Hr Hx]; [|done..].
    split; [|done]. exists mr, sr. split_and!; try done. apply andb_true_iff. split; [by apply openMarketPredicate_iff|].
    by apply bool_decide_eq_true.
Qed.

(** No listing shows a market's own stake cap: every row reports zero,
    whatever the market's cap is, although the scanned column holds it. *)
Theorem listings_omit_the_market_cap st rows s s' l :
  listMarkets st rows s = (s', Ok l) -> Forall (fun m => ML_MaxStakeCents m = 0) l.
Proof. intros (_ & n & js & _ & Hs)%listMarkets_run. by apply scan_markets_all in Hs as [_ Hs]. Qed.
End board.
