(* ===== verification/StoreRefinement.v ===== *)
(** * The betting store against its specification

    Every command of the store, whatever it returns and whichever statement
    fails, moves the database by steps of the store; the database it leaves
    holds a reachable book, and its escrow accounts hold the open stakes. *)
From S2P Require Import Prelude GoStrings GoTime Ledger Events Payloads Betting Placement Settlement Corrections Book Float64 Parlay Dispatcher OutboxPG SQL BettingDB StoreSteps PricingStore WagerStore ParlayStore MarketStore AdminStore AdjustStore.

Lemma net_app a ps qs : net a (ps ++ qs) = net a ps + net a qs.
Proof. induction ps as [|p ps IH]; [done|]. rewrite <- app_comm_cons, !net_cons, IH. lia. Qed.

(** ** What escrow holds for parlays *)
Definition parlay_in (cur : Currency) (r : ParlayDBRow) : Prop := Money_Currency (Parlay_Stake (pr_parlay r)) = cur.
#[export] Instance parlay_in_dec cur r : Decision (parlay_in cur r).
Proof. unfold parlay_in. apply _. Defined.

Definition parlays_in (cur : Currency) (d : DB) : gmap string ParlayDBRow := filter (fun kr => parlay_in cur kr.2) (parlays d).
Definition parlay_stakes (cur : Currency) (d : DB) : Z := total ((fun r => parlay_held (pr_parlay r)) <$> parlays_in cur d).
Definition parlay_postings_of (cur : Currency) (d : DB) : list Posting :=
  List.filter (parlay_row cur) (ledger d) ≫= row_postings.

(** The parlays' postings to escrow add up to the accepted parlays' stakes. *)
Definition parlays_covered (escrow : string) (cur : Currency) (d : DB) : Prop :=
  net escrow (parlay_postings_of cur d) = parlay_stakes cur d.

Lemma parlay_postings_grow cur d d' l :
  ledger d' = ledger d ++ l ->
  parlay_postings_of cur d' = parlay_postings_of cur d ++ (List.filter (parlay_row cur) l ≫= row_postings).
Proof. intros Hl. unfold parlay_postings_of. by rewrite Hl, List.filter_app, bind_app. Qed.

Lemma parlays_covered_other escrow cur d d' l :
  ledger d' = ledger d ++ l -> Forall (fun r => parlay_source (lt_transaction r) = false) l -> parlays d' = parlays d ->
  parlays_covered escrow cur d -> parlays_covered escrow cur d'.
Proof.
  intros Hl Hf Hp. unfold parlays_covered, parlay_stakes, parlays_in. rewrite (parlay_postings_grow _ _ _ _ Hl), Hp.
  rewrite filter_none, app_nil_r; [done|]. eapply Forall_impl; [exact Hf|]. intros r Hr. unfold parlay_row. by rewrite Hr.
Qed.

Lemma parlay_stakes_insert cur d d' id p' :
  parlays d' = <[id := p']> (parlays d) ->
  (forall p, parlays d !! id = Some p -> parlay_in cur p <-> parlay_in cur p') ->
  (parlays d !! id = None -> parlay_held (pr_parlay p') = 0) ->
  parlay_stakes cur d' = parlay_stakes cur d
    + (if bool_decide (parlay_in cur p')
       then parlay_held (pr_parlay p') - default 0 ((fun p => parlay_held (pr_parlay p)) <$> parlays d !! id) else 0).
Proof.
  intros Hp Hold Hnew. unfold parlay_stakes, parlays_in. rewrite Hp. case_bool_decide as Hc.
  - rewrite map_filter_insert_True by done. rewrite fmap_insert, total_insert, lookup_fmap.
    replace (filter (fun kr => parlay_in cur kr.2) (parlays d) !! id) with (parlays d !! id); [lia|].
    destruct (parlays d !! id) as [p|] eqn:E; symmetry.
    + apply map_lookup_filter_Some. split; [done|]. by apply Hold.
    + apply map_lookup_filter_None. by left.
  - rewrite map_filter_insert_False by done. rewrite map_filter_delete, delete_id; [lia|].
    apply map_lookup_filter_None. destruct (parlays d !! id) as [p|] eqn:E; [right|by left].
    intros x [= <-] Hx. by apply Hc, (Hold p).
Qed.

Lemma store_step_parlays_covered escrow cur d d' :
  compat escrow cur d' -> store_step d d' -> parlays_covered escrow cur d -> parlays_covered escrow cur d'.
Proof.
  intros Hc [[_ Hp (l & Hl & Hf) _]|c [_ _ Hp Hl _]|id r r' ps [_ _ _ _ (l & Hl & Hf & _) Hp _]
            |id p' [Hp Hold (l & Hl & Hf & Hnet) _ Ha]].
  - eapply parlays_covered_other; [exact Hl| |exact Hp]. eapply Forall_impl; [exact Hf|]. by intros r (_ & Hr & _).
  - eapply (parlays_covered_other _ _ _ _ []); [by rewrite app_nil_r|done|exact Hp].
  - eapply parlays_covered_other; [exact Hl| |exact Hp]. eapply Forall_impl; [exact Hf|]. intros x Hx%book_row_wager.
    unfold wager_source, parlay_source in *. destruct (bool_decide_reflect (Tx_SourceType (lt_transaction x) = "parlay"%string)) as [Hs|]; [|apply andb_false_r].
    rewrite Hs, andb_false_r in Hx. done.
  - unfold parlays_covered. intros Hcov. rewrite (parlay_postings_grow _ _ _ _ Hl), net_app, Hcov.
    rewrite (parlay_stakes_insert cur d d' id p'); [|exact Hp| |].
    + f_equal. case_bool_decide as Hcur.
      * unfold parlay_in in Hcur. rewrite Hcur in Hf. rewrite filter_all by exact Hf. apply Hnet. by rewrite Hcur.
      * rewrite filter_none; [done|]. eapply Forall_impl; [exact Hf|]. unfold parlay_row. intros x Hx. bool_prop.
        rewrite (bool_decide_false (Tx_Currency _ = cur)) by (unfold parlay_in in Hcur; congruence). apply andb_false_r.
    + intros p Ep. rewrite Ep in Hold. unfold parlay_in. by rewrite Hold.
    + intros En. by rewrite En in Hold.
Qed.

Lemma store_steps_parlays_covered escrow cur d d' :
  compat escrow cur d' -> store_steps d d' -> parlays_covered escrow cur d -> parlays_covered escrow cur d'.
Proof.
  intros Hc Hs. revert Hc. induction Hs as [|x y z Hxy Hyz IH]; [done|]. intros Hc Hx. apply IH; [done|].
  eapply store_step_parlays_covered; [|done..]. eapply compat_mono; [|exact Hc]. by apply store_steps_accounts.
Qed.

(** ** The balance of an escrow account *)
Lemma account_in_spec d cur a : account_in d cur a = true -> exists o ty, accounts d !! (o, ty, cur) = Some a.
Proof.
  unfold account_in. rewrite bool_decide_eq_true. intros ([[o ty] c] & x & Hx & Hc & ->). cbn in Hc. subst. eauto.
Qed.

(** A transaction touches an escrow account only as a wager's or a parlay's,
    in the account's currency. *)
Lemma row_escrow d r escrow cur :
  accounts_inj d -> accounts d !! escrow_key cur = Some escrow -> ledger_row_ok d r = true ->
  (nobodys_bet r -> Forall (off_escrow d) (row_postings r)) ->
  book_row cur r = false -> parlay_row cur r = false -> net escrow (row_postings r) = 0.
Proof.
  intros Hinj He Hok Hplain Hb Hp. apply net_absent. unfold book_row, parlay_row in *.
  destruct (decide (Tx_Currency (lt_transaction r) = cur)) as [Hc|Hc].
  - rewrite (bool_decide_true _ Hc), andb_true_r in Hb, Hp. eapply Forall_impl; [by apply Hplain|].
    intros p (k & Hk & Hne) Heq. rewrite Heq in Hk. apply Hne. by rewrite (Hinj _ _ _ Hk He).
  - unfold ledger_row_ok in Hok. bool_prop. match goal with Hx : forallb _ _ = true |- _ => rename Hx into Hall end.
    apply Forall_forall. intros p Hin Heq. rewrite forallb_forall in Hall. apply list_elem_of_In, Hall in Hin.
    apply account_in_spec in Hin as (o & ty & Hk). unfold row_postings in *. rewrite Heq in Hk.
    pose proof (Hinj _ _ _ Hk He) as Hkey. unfold escrow_key in Hkey. congruence.
Qed.

Lemma book_not_parlay cur r : book_row cur r = true -> parlay_row cur r = true -> False.
Proof.
  unfold book_row, parlay_row, wager_source, parlay_source. intros Hb Hp. bool_prop.
  match goal with Hx : Tx_SourceType _ = "parlay"%string, Hy : _ || _ = true |- _ => by rewrite Hx in Hy end.
Qed.

Lemma escrow_split d escrow cur l :
  accounts_inj d -> accounts d !! escrow_key cur = Some escrow -> Forall (fun r => ledger_row_ok d r = true) l ->
  Forall (fun r => nobodys_bet r -> Forall (off_escrow d) (row_postings r)) l ->
  net escrow (l ≫= row_postings)
  = net escrow (List.filter (book_row cur) l ≫= row_postings) + net escrow (List.filter (parlay_row cur) l ≫= row_postings).
Proof.
  intros Hinj He Hok Hpl. induction l as [|r l IH]; [done|]. rewrite !Forall_cons in Hok, Hpl.
  destruct Hok as [Hr Hok], Hpl as [Hp Hpl]. cbn [List.filter]. specialize (IH Hok Hpl).
  rewrite bind_cons, net_app, IH. destruct (book_row cur r) eqn:Eb, (parlay_row cur r) eqn:Ep;
    rewrite ?bind_cons, ?net_app; try lia.
  - by destruct (book_not_parlay cur r).
  - rewrite (row_escrow d r escrow cur) by done. lia.
Qed.

Lemma book_balances_lookup cur d a :
  default 0 (book_balances cur d !! a) = net a (List.filter (book_row cur) (ledger d) ≫= row_postings).
Proof.
  unfold book_balances. induction (List.filter (book_row cur) (ledger d)) as [|r l IH] using rev_ind; [done|].
  rewrite foldl_app, bind_app, net_app. cbn [foldl]. unfold post_row at 1. rewrite post_all_lookup, IH, bind_cons. cbn. rewrite app_nil_r.
  done.
Qed.

(** ** Databases the commands start from *)
Record fresh_db (d : DB) : Prop := {
  fr_wagers : wager_rows d = ∅;
  fr_parlays : parlays d = ∅;
  fr_ledger : Forall (plain_row d) (ledger d);
  fr_accounts : accounts_inj d;
  fr_constraints : deferred_constraints d = true
}.

Lemma fresh_keyed d : fresh_db d -> keyed d.
Proof. intros [Hw _ _ _ _] i r. by rewrite Hw, lookup_empty. Qed.
Lemma fresh_settle_ups d : fresh_db d -> settle_ups_plain d.
Proof.
  intros [_ _ Hl _ _]. unfold settle_ups_plain. eapply Forall_impl; [exact Hl|]. by intros r (_ & _ & Hr) _.
Qed.

Lemma fresh_holds cur d : fresh_db d -> holds_book cur d empty_book.
Proof.
  intros Hf. pose proof (fresh_keyed d Hf) as Hk. destruct Hf as [Hw _ Hl _ _]. split.
  - unfold book_wagers. by rewrite Hw, map_filter_empty, fmap_empty.
  - unfold book_balances. rewrite filter_none; [done|]. eapply Forall_impl; [exact Hl|]. intros r (Hr & _).
    unfold book_row. by rewrite Hr.
  - exact Hk.
Qed.

Lemma fresh_covered escrow cur d : fresh_db d -> parlays_covered escrow cur d.
Proof.
  intros [_ Hp Hl _ _]. unfold parlays_covered, parlay_postings_of, parlay_stakes, parlays_in.
  rewrite Hp, map_filter_empty, fmap_empty. rewrite filter_none; [done|]. eapply Forall_impl; [exact Hl|].
  intros r (_ & Hr & _). unfold parlay_row. by rewrite Hr.
Qed.

(** ** Commands *)
Inductive command :=
  | CPlaceWager (req : PlaceWagerRequest)
  | CAcceptWager (id actor : string)
  | CRejectWager (id actor reason : string)
  | CCancelWager (id user : string)
  | CVoidWager (id actor reason : string)
  | CReduceWager (id : string) (cents : Z) (actor reason : string)
  | CPlaceParlay (req : PlaceParlayRequest)
  | CAcceptParlay (id actor : string)
  | CRejectParlay (id actor reason : string)
  | CCancelParlay (id user : string)
  | CQuoteParlay (req : PlaceParlayRequest)
  | CCreateMarket (req : CreateMarketRequest)
  | COpenMarket (market actor : string)
  | CCloseMarket (market actor : string)
  | CSettleMarket (req : SettleMarketRequest)
  | CVoidMarket (req : VoidMarketRequest)
  | CRegrade (market actor reason : string)
  | CHandle (event : Envelope)
  | CHandlePricing (event : Envelope)
  | CCloseWithoutAction (market actor reason : string)
  | CSetTotalSideCap (market selection : string) (cents : Z) (actor reason : string)
  | CSetMarketCloseTime (market : string) (closes_at : Time) (actor reason : string)
  | CSetStakeLimit (market selection : string) (cents : Z) (actor reason : string)
  | CRestrictMember (req : RestrictRequest)
  | CLiftRestriction (market user selection : string)
  | CSetOpeningLine (market selection : string) (odds : AmericanOdds) (actor reason : string)
  | CReprice (market trigger : string)
  | CRecordSettlement (req : RecordSettlementRequest)
  | CReverseSettlement (adjustment actor reason : string).

(** The int64 parameters of a command are int64 values. *)
Definition command_ok (c : command) : Prop :=
  match c with
  | CPlaceWager req => int64 (PWR_StakeCents req)
  | CReduceWager _ cents _ _ => int64 cents
  | _ => True
  end.

(** Run for the effect: only whether it failed is kept. *)
Definition discard {A} (m : go A) : go unit := m;; mret ().

Section commands.
Context {E : environment} {HE : environment_ok E}.
Context (st : Store) (sides : string -> option (string * string)).
Context (unmarshal : string -> result MatchResultVerifiedPayload).
Context (unmarshal_pricing : string -> result pricing_payload).

Definition perform (c : command) : go unit :=
  match c with
  | CPlaceWager req => discard (Store_PlaceWager st req)
  | CAcceptWager id actor => discard (Store_AcceptWager st id actor)
  | CRejectWager id actor reason => discard (Store_RejectWager st id actor reason)
  | CCancelWager id user => discard (Store_CancelWager st id user)
  | CVoidWager id actor reason => discard (Store_VoidWager st id actor reason)
  | CReduceWager id cents actor reason => discard (Store_ReduceWager st id cents actor reason)
  | CPlaceParlay req => discard (Store_PlaceParlay st req)
  | CAcceptParlay id actor => discard (Store_AcceptParlay st id actor)
  | CRejectParlay id actor reason => discard (Store_RejectParlay st id actor reason)
  | CCancelParlay id user => discard (Store_CancelParlay st id user)
  | CQuoteParlay req => discard (QuoteParlay st req)
  | CCreateMarket req => discard (CreateMarket sides st req)
  | COpenMarket m actor => discard (OpenMarket st m actor)
  | CCloseMarket m actor => discard (CloseMarket st m actor)
  | CSettleMarket req => discard (Store_SettleMarket st req)
  | CVoidMarket req => discard (Store_VoidMarket st req)
  | CRegrade m actor reason => discard (RegradeStrandedWagers st m actor reason)
  | CHandle e => discard (MatchSettlementConsumer_Handle unmarshal (Some st) e)
  | CHandlePricing e => discard (PricingConsumer_Handle unmarshal_pricing (Some st) e)
  | CCloseWithoutAction m actor reason => discard (CloseMarketWithoutAction st m actor reason)
  | CSetTotalSideCap m c cents actor reason => discard (SetTotalSideCap st m c cents actor reason)
  | CSetMarketCloseTime m t actor reason => discard (SetMarketCloseTime st m t actor reason)
  | CSetStakeLimit m c cents actor reason => discard (SetStakeLimit st m c cents actor reason)
  | CRestrictMember req => discard (RestrictMember st req)
  | CLiftRestriction m u c => discard (LiftRestriction st m u c)
  | CSetOpeningLine m c odds actor reason => discard (SetOpeningLine st m c odds actor reason)
  | CReprice m trigger => discard (RepriceMarketAfterWager st m trigger)
  | CRecordSettlement req => discard (RecordSettlement st req)
  | CReverseSettlement id actor reason => discard (ReverseSettlement st id actor reason)
  end.

(** The command's transaction, without the repricing that follows the commit
    of a void or of a reduction. *)
Definition own_transaction (c : command) : go unit :=
  match c with
  | CVoidWager id actor reason => discard (void_wager_tx st id actor reason)
  | CReduceWager id cents actor reason => discard (reduce_wager_tx st id cents actor (TrimSpace reason))
  | c => perform c
  end.

(** The database after a list of commands, whatever each returned. *)
Definition run_commands (cs : list command) (s : session) : session := foldl (fun s c => (perform c s).1) s cs.

(** *** Every command is steps of the store *)
Record store_ok (d : DB) : Prop := { so_keyed : keyed d; so_settle_ups : settle_ups_plain d }.

Lemma store_steps_ok d d' : store_steps d d' -> store_ok d -> store_ok d'.
Proof.
  induction 1 as [|x y z Hxy _ IH]; [done|]. intros [Hk Hs]. apply IH. split.
  - by eapply store_step_keyed.
  - by eapply store_step_settle_ups.
Qed.

Lemma discard_run {A} (m : go A) s s' r : discard m s = (s', r) -> exists r', m s = (s', r').
Proof. unfold discard, mbind, go_bind. destruct (m s) as [s1 [a|e]]; intros [= <- _]; eauto. Qed.

Lemma still_op_steps {A} (m : go A) s s' r : still_op m -> m s = (s', r) -> store_steps (db s) (db s').
Proof. intros Hm H. by eapply rtc_once, step_quiet, Hm. Qed.

Lemma perform_steps c s s' r :
  command_ok c -> store_ok (db s) -> perform c s = (s', r) -> store_steps (db s) (db s').
Proof.
  intros Hc [Hk Hs] H. destruct c; cbn [perform command_ok] in *; apply discard_run in H as [r' H].
  - by eapply Store_PlaceWager_steps.
  - by eapply Store_AcceptWager_steps.
  - by eapply Store_RejectWager_steps.
  - by eapply Store_CancelWager_steps.
  - by eapply Store_VoidWager_steps.
  - by eapply Store_ReduceWager_steps.
  - by eapply Store_PlaceParlay_steps.
  - by eapply Store_AcceptParlay_steps.
  - by eapply Store_RejectParlay_steps.
  - by eapply Store_CancelParlay_steps.
  - eapply still_op_steps; [|exact H]. apply still_QuoteParlay.
  - eapply still_op_steps; [|exact H]. apply still_CreateMarket.
  - eapply still_op_steps; [|exact H]. apply still_OpenMarket.
  - eapply still_op_steps; [|exact H]. apply still_CloseMarket.
  - by eapply Store_SettleMarket_steps.
  - by eapply Store_VoidMarket_steps.
  - by eapply RegradeStrandedWagers_steps.
  - by eapply MatchSettlementConsumer_Handle_steps.
  - eapply still_op_steps; [|exact H]. apply still_PricingConsumer_Handle.
  - eapply still_op_steps; [|exact H]. apply still_CloseMarketWithoutAction.
  - eapply still_op_steps; [|exact H]. apply still_SetTotalSideCap.
  - eapply still_op_steps; [|exact H]. apply still_SetMarketCloseTime.
  - eapply still_op_steps; [|exact H]. apply still_SetStakeLimit.
  - eapply still_op_steps; [|exact H]. apply still_RestrictMember.
  - eapply still_op_steps; [|exact H]. apply still_LiftRestriction.
  - eapply still_op_steps; [|exact H]. apply still_SetOpeningLine.
  - eapply still_op_steps; [|exact H]. apply still_RepriceMarketAfterWager.
  - by eapply rtc_once, step_quiet, RecordSettlement_quiet.
  - by eapply rtc_once, step_quiet, ReverseSettlement_quiet.
Qed.

Lemma run_commands_steps cs s :
  Forall command_ok cs -> store_ok (db s) -> store_steps (db s) (db (run_commands cs s)).
Proof.
  revert s. induction cs as [|c cs IH]; intros s Hc Hs; [apply rtc_refl|]. apply Forall_cons in Hc as [Hc Hcs].
  cbn [run_commands foldl]. destruct (perform c s) as [s1 r] eqn:Ep. pose proof (perform_steps c s s1 r Hc Hs Ep) as Hst.
  etrans; [exact Hst|]. apply (IH s1); [done|]. by eapply store_steps_ok.
Qed.

(** *** The deferred ledger constraints hold after every command *)
Definition consistent {A} (m : go A) : Prop :=
  forall s s' r, deferred_constraints (db s) = true -> m s = (s', r) -> deferred_constraints (db s') = true.

Lemma consistent_in_tx {A} (body : go (finish A)) : consistent (in_tx st body).
Proof. intros s s' r Hd [->|(s0 & s1 & wrap & a & _ & _ & -> & _ & Hc)]%in_tx_run; done. Qed.
Lemma consistent_untouched {A} (m : go A) : (forall s s' r, m s = (s', r) -> db s' = db s) -> consistent m.
Proof. intros Hm s s' r Hd H. by rewrite (Hm _ _ _ H). Qed.
Lemma consistent_bind {A B} (m : go A) (k : A -> go B) :
  consistent m -> (forall a, consistent (k a)) -> consistent (m ≫= k).
Proof.
  intros Hm Hk s s' r Hd. unfold mbind, go_bind. destruct (m s) as [s1 [a|e]] eqn:Em.
  - apply Hk. by eapply Hm.
  - intros [= <- _]. by eapply Hm.
Qed.
Lemma consistent_ret {A} (a : A) : consistent (mret a).
Proof. apply consistent_untouched. by intros s s' r [= <- _]. Qed.
Lemma consistent_lift {A} (x : result A) : consistent (lift x).
Proof. apply consistent_untouched. by intros s s' r [= <- _]. Qed.
Lemma consistent_failing {A} e : consistent (failing (A := A) e).
Proof. apply consistent_lift. Qed.
Lemma consistent_query {A} w (f : DB -> result A) : consistent (query w f).
Proof. apply consistent_untouched. intros s s' r. apply query_db. Qed.
Lemma consistent_now : consistent now.
Proof. apply consistent_untouched. by intros s s' r [= <- _]. Qed.
Lemma consistent_NewEventID : consistent NewEventID.
Proof. apply consistent_untouched. intros s s' r. unfold NewEventID, new_uuid. by intros [= <- _]. Qed.
Lemma consistent_wrapped {A} w (m : go A) : consistent m -> consistent (wrapped w m).
Proof. intros Hm s s' r Hd. unfold wrapped. destruct (m s) as [s1 r1] eqn:Em. intros [= <- _]. by eapply Hm. Qed.

Create HintDb consistent.
#[local] Hint Resolve consistent_in_tx consistent_ret consistent_lift consistent_failing consistent_query consistent_now
  consistent_NewEventID consistent_wrapped : consistent.
Ltac consistent :=
  repeat match goal with
  | |- consistent (_ ≫= _) => apply consistent_bind; [|intros]
  | |- consistent (if ?b then _ else _) => destruct b
  | |- consistent (let '_ := ?x in _) => destruct x
  | |- consistent (match ?x with _ => _ end) => destruct x
  | |- _ => solve [auto with consistent]
  end.

Lemma consistent_reprice_quietly m id : consistent (reprice_quietly st m id).
Proof.
  intros s s' r Hd. unfold reprice_quietly. destruct (RepriceMarketAfterWager st m id s) as [s1 r1] eqn:Er. intros [= <- _].
  assert (Hc : consistent (RepriceMarketAfterWager st m id)) by (unfold RepriceMarketAfterWager; consistent).
  by eapply Hc.
Qed.
#[local] Hint Resolve consistent_reprice_quietly : consistent.

Lemma consistent_new_selections m requests seen : consistent (new_selections m requests seen).
Proof. revert seen. induction requests as [|q qs IH]; intros seen; cbn [new_selections]; consistent. Qed.

Lemma consistent_settle_match_market o ws vr actor m report :
  consistent (settle_match_market st o ws vr actor m report).
Proof.
  unfold settle_match_market, Store_SettleMarket, settle, settleWith, CloseMarket, selectionSemanticKeys. consistent.
Qed.
Lemma consistent_SettleMatchMarkets m o ws vr actor : consistent (SettleMatchMarkets st m o ws vr actor).
Proof.
  intros s s' r Hd. unfold SettleMatchMarkets, matchMarketsToSettle. destruct (query _ _ s) as [s1 r1] eqn:E1.
  apply query_db in E1. rewrite <- E1 in Hd. destruct r1 as [ms|]; [|by intros [= <- _]].
  generalize (mkMatchSettleReport m [] []). intros report H. clear E1. revert s1 report Hd H.
  induction ms as [|x ms IH]; intros s1 report Hd; cbn [settle_match_markets]; [by intros [= <- _]|].
  destruct (settle_match_market _ _ _ _ _ _ _ _) as [s2 [report'|e]] eqn:Em;
    apply consistent_settle_match_market in Em; [|done|intros [= <- _]; done|done].
  by apply IH.
Qed.
#[local] Hint Resolve consistent_new_selections consistent_SettleMatchMarkets : consistent.

Lemma perform_consistent c : consistent (perform c).
Proof.
  destruct c; cbn [perform]; unfold discard; apply consistent_bind; try (intros; apply consistent_ret).
  all: unfold Store_PlaceWager, Store_AcceptWager, Store_RejectWager, Store_CancelWager, Store_VoidWager, void_wager_tx,
    Store_ReduceWager, reduce_wager_tx, Store_PlaceParlay, Store_AcceptParlay, Store_RejectParlay, Store_CancelParlay,
    QuoteParlay, CreateMarket, OpenMarket, CloseMarket, Store_SettleMarket, Store_VoidMarket, settle,
    RegradeStrandedWagers, StrandedWagers, recordedOutcome, MatchSettlementConsumer_Handle, PricingConsumer_Handle, CloseMarketWithoutAction,
    SetTotalSideCap, SetMarketCloseTime, SetStakeLimit, RestrictMember, LiftRestriction, SetOpeningLine,
    RepriceMarketAfterWager, RecordSettlement, ReverseSettlement, settleWith; cbv zeta; consistent.
Qed.

Lemma run_commands_consistent cs s :
  deferred_constraints (db s) = true -> deferred_constraints (db (run_commands cs s)) = true.
Proof.
  revert s. induction cs as [|c cs IH]; intros s Hd; [done|]. cbn [run_commands foldl].
  destruct (perform c s) as [s1 r] eqn:Ep. apply (IH s1). by eapply perform_consistent.
Qed.

(** ** The specification met *)

(** The database after [cs], from one that held no bets. *)
Lemma run_commands_book escrow cur cs s :
  fresh_db (db s) -> Forall command_ok cs -> compat escrow cur (db (run_commands cs s)) ->
  exists b, reachable escrow cur b /\ holds_book cur (db (run_commands cs s)) b.
Proof.
  intros Hf Hc He. eapply store_steps_simulated; [exact He| |by apply fresh_holds].
  apply run_commands_steps; [done|]. split; [by apply fresh_keyed|by apply fresh_settle_ups].
Qed.

Lemma fresh_steps cs s :
  fresh_db (db s) -> Forall command_ok cs -> store_steps (db s) (db (run_commands cs s)).
Proof. intros Hf Hc. apply run_commands_steps; [done|]. split; [by apply fresh_keyed|by apply fresh_settle_ups]. Qed.

Lemma run_commands_inj cs s : fresh_db (db s) -> Forall command_ok cs -> accounts_inj (db (run_commands cs s)).
Proof. intros Hf Hc. eapply ag_inj; [by apply store_steps_accounts, fresh_steps|apply Hf]. Qed.

(** C1. The betting store implements the book.  Start from a database without
    bets and run any commands of the store, in any order and with any
    arguments, each with whatever outcome, any statement of them failing at
    any point: for every currency the database then holds a book that the
    operations of internal/betting alone can reach, wager by wager and balance
    by balance. *)
Theorem store_refines_the_book escrow cur cs s :
  fresh_db (db s) -> Forall command_ok cs ->
  compat escrow cur (db (run_commands cs s)) ->
  exists b, reachable escrow cur b
    /\ wagers b = book_wagers cur (db (run_commands cs s))
    /\ balances b = book_balances cur (db (run_commands cs s)).
Proof.
  intros Hf Hc He. destruct (run_commands_book escrow cur cs s Hf Hc He) as (b & Hb & [Hw Hbal _]). by exists b.
Qed.

(** The escrow account after steps that ended with the constraints checked. *)
Lemma escrow_of_steps d0 d cur escrow :
  fresh_db d0 -> store_steps d0 d -> deferred_constraints d = true -> accounts d !! escrow_key cur = Some escrow ->
  balance_of escrow d = total (held <$> book_wagers cur d) + parlay_stakes cur d
  /\ Forall (fun r => sumZ posting_cents (row_postings r) = 0) (ledger d).
Proof.
  intros Hf Hsteps Hd He.
  assert (Hcons : Forall (fun r => ledger_row_ok d r = true) (ledger d)).
  { unfold deferred_constraints in Hd. rewrite forallb_forall in Hd. apply Forall_forall. intros r Hr%list_elem_of_In. by apply Hd. }
  assert (Hcompat : compat escrow cur d) by (intros id Hid; congruence).
  split.
  - unfold balance_of, all_postings. fold row_postings. rewrite (escrow_split d escrow cur).
    + f_equal.
      * rewrite <- book_balances_lookup.
        destruct (store_steps_simulated escrow cur d0 d empty_book Hcompat Hsteps (fresh_holds cur d0 Hf)) as (b & Hb & [Hw Hbal _]).
        rewrite <- Hbal, <- Hw. by apply (bk_escrow _ _ _ (reachable_ok _ _ _ Hb)).
      * eapply store_steps_parlays_covered; [exact Hcompat|done|by apply fresh_covered].
    + eapply ag_inj; [by apply store_steps_accounts|apply Hf].
    + exact He.
    + exact Hcons.
    + eapply store_steps_ok; [done|]. split; [by apply fresh_keyed|by apply fresh_settle_ups].
  - eapply Forall_impl; [exact Hcons|]. intros r Hr. unfold ledger_row_ok in Hr. bool_prop. done.
Qed.

(** C2. Escrow holds exactly the open stakes.  After any commands from a
    database without bets, the balance of a currency's escrow account over
    every posting in the ledger, settle-ups and corrections included, is the
    stakes of the accepted wagers and of the accepted parlays in that currency
    together, and the postings of every transaction sum to zero. *)
Theorem escrow_holds_the_open_stakes cs s cur escrow :
  fresh_db (db s) -> Forall command_ok cs ->
  accounts (db (run_commands cs s)) !! escrow_key cur = Some escrow ->
  let d := db (run_commands cs s) in
  balance_of escrow d = total (held <$> book_wagers cur d) + parlay_stakes cur d
  /\ Forall (fun r => sumZ posting_cents (row_postings r) = 0) (ledger d).
Proof.
  intros Hf Hc He. apply (escrow_of_steps (db s)); [done|by apply fresh_steps| |done]. apply run_commands_consistent, fr_constraints, Hf.
Qed.

(** C10. Every stored wager is well formed.  After any commands, a wager row is
    stored under its own identifier and what the store loads from it passes
    the domain validation, its integers fit the code's types, and its stake is
    small enough for its odds that no payout on it can overflow. *)
Theorem stored_wagers_are_well_formed cs s id r :
  fresh_db (db s) -> Forall command_ok cs -> wager_rows (db (run_commands cs s)) !! id = Some r ->
  Wager_ID (wr_wager r) = id /\ wager_ints (wagerRow r) /\ Wager_Validate (wagerRow r) = Ok ()
  /\ Cents (Stake (wagerRow r)) <= MaxInt64 / fst (odds_ratio (AcceptedOdds (wagerRow r))).
Proof.
  intros Hf Hc Hr. set (cur := Money_Currency (Stake (wr_wager r))).
  set (escrow := default ""%string (accounts (db (run_commands cs s)) !! escrow_key cur)).
  destruct (run_commands_book escrow cur cs s Hf Hc) as (b & Hb & [Hw _ Hk]).
  { intros i Hi. unfold escrow. by rewrite Hi. }
  split; [by apply Hk|]. destruct (bk_wagers _ _ _ (reachable_ok _ _ _ Hb) id (wagerRow r)) as ([[Hi Hv] Hfit] & _); [|done].
  rewrite Hw. by apply wagers_of_currency.
Qed.

(** C4. What a member agreed to never changes, whatever the store does.  From
    any point of any history of commands to any later one, a wager keeps its
    owner, market, selection, odds, terms, funding, currency and placement
    time, its stake never grows and stays positive, its state only moves along
    the declared transitions, and once rejected, settled or voided it does not
    change at all. *)
Theorem stored_wagers_keep_their_terms cs cs' s id r :
  fresh_db (db s) -> Forall command_ok cs -> Forall command_ok cs' ->
  wager_rows (db (run_commands cs s)) !! id = Some r ->
  exists r', wager_rows (db (run_commands cs' (run_commands cs s))) !! id = Some r'
    /\ Book.evolves (wagerRow r) (wagerRow r').
Proof.
  intros Hf Hc Hc' Hr. set (d := db (run_commands cs s)) in *. set (d' := db (run_commands cs' (run_commands cs s))).
  set (cur := Money_Currency (Stake (wr_wager r))). set (escrow := default ""%string (accounts d' !! escrow_key cur)).
  assert (He' : compat escrow cur d') by (intros i Hi; unfold escrow; by rewrite Hi).
  assert (Hsteps : store_steps d d').
  { apply run_commands_steps; [done|]. eapply store_steps_ok; [by apply fresh_steps|].
    split; [by apply fresh_keyed|by apply fresh_settle_ups]. }
  assert (He : compat escrow cur d) by (eapply compat_mono; [by apply store_steps_accounts|done]).
  destruct (run_commands_book escrow cur cs s Hf Hc He) as (b & Hb & Hh). fold d in Hh.
  destruct (store_steps_simulated escrow cur d d' b He' Hsteps Hh) as (b' & Hrun & Hh').
  destruct (book_run_evolves escrow cur b b' id (wagerRow r)) as (w' & Hw' & Hev);
    [by apply reachable_ok|done|rewrite (hb_wagers _ _ _ Hh); by apply wagers_of_currency|].
  rewrite (hb_wagers _ _ _ Hh') in Hw'. unfold book_wagers in Hw'. rewrite lookup_fmap in Hw'.
  apply fmap_Some in Hw' as (r' & Er' & ->). apply map_lookup_filter_Some in Er' as [Hr' _]. by exists r'.
Qed.

End commands.

(** ** A command that reports an error *)

(** A command in one transaction, or in one followed by a repricing. *)
Definition single_transaction (c : command) : Prop := match c with CHandle _ => False | _ => True end.

Section untouched.
Context {E : environment}.

Definition untouched {A} (m : go A) : Prop := forall s s' r, m s = (s', r) -> db s' = db s.

Lemma untouched_bind {A B} (m : go A) (k : A -> go B) :
  untouched m -> (forall a, untouched (k a)) -> untouched (m ≫= k).
Proof.
  intros Hm Hk s s' r. unfold mbind, go_bind. destruct (m s) as [s1 [a|e]] eqn:Em; apply Hm in Em as Hd.
  - intros H. apply Hk in H. congruence.
  - by intros [= <- _].
Qed.
Lemma untouched_lift {A} (x : result A) : untouched (lift x).
Proof. by intros s s' r [= <- _]. Qed.
Lemma untouched_ret {A} (a : A) : untouched (mret a).
Proof. by intros s s' r [= <- _]. Qed.
Lemma untouched_failing {A} e : untouched (failing (A := A) e).
Proof. apply untouched_lift. Qed.
Lemma untouched_query {A} w (f : DB -> result A) : untouched (query w f).
Proof. intros s s' r. apply query_db. Qed.
Lemma untouched_now : untouched now.
Proof. by intros s s' r [= <- _]. Qed.
Lemma untouched_NewEventID : untouched NewEventID.
Proof. intros s s' r. unfold NewEventID, new_uuid. by intros [= <- _]. Qed.

Lemma untouched_new_selections m requests seen : untouched (new_selections m requests seen).
Proof.
  revert seen. induction requests as [|q qs IH]; intros seen; cbn [new_selections]; [apply untouched_ret|].
  cbv zeta. apply untouched_bind; [apply untouched_NewEventID|intros i]. apply untouched_bind; [apply untouched_lift|intros _].
  case_bool_decide; [apply untouched_failing|]. apply untouched_bind; [apply IH|intros []; apply untouched_ret].
Qed.
End untouched.

Section replies.
Context {E : environment} (st : Store).

(** What comes before a transaction does not write, and what comes after the
    last one does not fail. *)
Lemma aon_untouched {A B} (m : go A) (m' : go B) : untouched m -> all_or_nothing m m'.
Proof. intros Hm s s' e H. left. by eapply Hm. Qed.
Lemma aon_in_tx {A} (body : go (finish A)) : all_or_nothing (in_tx st body) (in_tx (E := every_reply E) st body).
Proof. apply transaction_all_or_nothing. Qed.
Lemma aon_bind {A B C} (m : go A) (k : A -> go B) (k' : A -> go C) :
  untouched m -> (forall a, all_or_nothing (k a) (k' a)) -> all_or_nothing (m ≫= k) (m ≫= k').
Proof.
  intros Hm Hk s s' e. unfold mbind, go_bind. destruct (m s) as [s1 [a|e']] eqn:Em; apply Hm in Em as Hd.
  - intros [H|H]%Hk; [left; congruence|by right].
  - intros [= <- _]. by left.
Qed.
Lemma aon_then {A B C} (m : go A) (k : A -> go B) (m' : go C) :
  all_or_nothing m m' -> (forall a s s' e, k a s <> (s', Err e)) -> all_or_nothing (m ≫= k) m'.
Proof.
  intros Hm Hk s s' e. unfold mbind, go_bind. destruct (m s) as [s1 [a|e']] eqn:Em; [intros H; by apply Hk in H|].
  intros [= <- _]. by eapply Hm.
Qed.
Lemma aon_discard {A B} (m : go A) (m' : go B) : all_or_nothing m m' -> all_or_nothing (discard m) (discard m').
Proof.
  intros Hm. apply aon_then; [|done]. intros s s' e [?|(n & e0 & a & Ht & Hl & Hm')]%Hm; [by left|right].
  exists n, e0, (). unfold discard, mbind, go_bind. by rewrite Hm'.
Qed.

Create HintDb untouched.
#[local] Hint Resolve untouched_lift untouched_ret untouched_failing untouched_query untouched_now untouched_NewEventID untouched_new_selections : untouched.
Ltac reply_step :=
  match goal with
  | |- untouched (_ ≫= _) => apply untouched_bind; [|intros]
  | |- all_or_nothing (in_tx _ _ ≫= _) _ => apply aon_discard
  | |- all_or_nothing (_ ≫= _) _ => apply aon_bind; [|intros]
  | |- all_or_nothing (in_tx _ ?body) _ => exact (aon_in_tx body)
  | |- all_or_nothing (failing _) _ => apply aon_untouched, untouched_failing
  | |- all_or_nothing (mret _) _ => apply aon_untouched, untouched_ret
  | |- context [if ?b then _ else _] => destruct b
  | |- context [let '_ := ?x in _] => destruct x
  | |- _ => solve [auto with untouched]
  end.

Lemma after_commit_succeeds {A} m id (fresh : bool) (a : A) s s' e :
  ((if fresh then reprice_quietly st m id else mret ());; mret a) s <> (s', Err e).
Proof. unfold mbind, go_bind. by destruct fresh. Qed.

Context (sides : string -> option (string * string)) (unmarshal : string -> result MatchResultVerifiedPayload).
Context (unmarshal_pricing : string -> result pricing_payload).

Lemma perform_all_or_nothing c :
  single_transaction c -> all_or_nothing (perform st sides unmarshal unmarshal_pricing c) (own_transaction (E := every_reply E) st sides unmarshal unmarshal_pricing c).
Proof.
  intros Hc. destruct c; cbn [perform own_transaction single_transaction] in *; try done; apply aon_discard.
  5: { unfold Store_VoidWager. repeat (destruct (negb _); [apply aon_untouched, untouched_failing|]).
       apply aon_then; [apply aon_in_tx|]. intros [w fresh] ? ? ?. apply after_commit_succeeds. }
  5: { unfold Store_ReduceWager. cbv zeta. repeat (destruct (negb _); [apply aon_untouched, untouched_failing|]).
       case_bool_decide; [apply aon_untouched, untouched_failing|].
       apply aon_then; [apply aon_in_tx|]. intros [[w r] fresh] ? ? ?. apply after_commit_succeeds. }
  all: unfold Store_PlaceWager, Store_AcceptWager, Store_RejectWager, Store_CancelWager,
    Store_PlaceParlay, Store_AcceptParlay, Store_RejectParlay, Store_CancelParlay,
    QuoteParlay, CreateMarket, OpenMarket, CloseMarket, Store_SettleMarket, Store_VoidMarket, settle,
    RegradeStrandedWagers, StrandedWagers, recordedOutcome, CloseMarketWithoutAction, PricingConsumer_Handle,
    SetTotalSideCap, SetMarketCloseTime, SetStakeLimit, RestrictMember, LiftRestriction, SetOpeningLine,
    RepriceMarketAfterWager, RecordSettlement, ReverseSettlement, settleWith; cbv zeta.
  all: repeat reply_step.
Qed.

(** C8. Commands are all or nothing.  A command of the store that returns an
    error, whichever guard, statement or commit failed, has left the database
    as it was, or has done the whole of its transaction: the latter only when
    the reply to its COMMIT was lost, and then the same transaction started
    from the same state succeeds, if that reply arrives, and leaves exactly
    that database.  Only the handler of a verified match, which settles each
    market in a transaction of its own, may keep some of its work. *)
Theorem failed_commands_are_all_or_nothing c s s' e :
  single_transaction c -> perform st sides unmarshal unmarshal_pricing c s = (s', Err e) ->
  db s' = db s
  \/ (exists n e0, tick s' = S n /\ reply_lost n e0)
     /\ exists s'', own_transaction (E := every_reply E) st sides unmarshal unmarshal_pricing c s = (s'', Ok ()) /\ db s'' = db s'.
Proof.
  intros Hc [?|(n & e0 & [] & Ht & Hl & H)]%perform_all_or_nothing; [by left| |done]. right. split; [by exists n, e0|]. by exists s'.
Qed.
End replies.
