(* ===== verification/StoreExample.v ===== *)
(** * A concrete run of the betting store

    A database without bets and a run of commands on it: the inputs at which
    the theorems on the store are instantiated. *)
From S2P Require Import Prelude GoStrings GoTime Ledger Events Payloads Betting Placement Settlement Corrections Book Float64 Parlay Dispatcher OutboxPG SQL Sample BettingDB EventIDs StoreSteps PricingStore WagerStore ParlayStore MarketStore AdminStore AdjustStore ReadersStore StoreRefinement.

(** ** The database *)
Definition sample_market (id match_ title : string) : MarketRow :=
  mkMarketRow (mkMarket id MarketMatch match_ title MarketOpen "CAD" zeroTime (mkTime (64000000000 * Second) true))
    admin false None (Some 50000) (mkTime (63800000000 * Second) true).
Definition sample_selection (id market key : string) (odds : Z) : SelectionRow :=
  mkSelectionRow (mkSelection id market key key odds "" true) odds None None.

Definition sample_db : DB :=
  mkDB
    {[ alice := mkUserRow "Alice" "alice@example.com" "active" 100000 None;
       admin := mkUserRow "Admin" "admin@example.com" "active" 0 None ]}
    {[ sid "1" := sample_market (sid "1") (sid "c") "Match 1"; sid "2" := sample_market (sid "2") (sid "d") "Match 2" ]}
    {[ sid "3" := sample_selection (sid "3") (sid "1") "ann" 150; sid "4" := sample_selection (sid "4") (sid "1") "bob" (-200);
       sid "5" := sample_selection (sid "5") (sid "2") "ann" 200; sid "6" := sample_selection (sid "6") (sid "2") "bob" (-110) ]}
    {[ (sid "2", alice, Some (sid "6")) := mkRestrictionDBRow "conflict of interest" admin (mkTime (63800000000 * Second) true) ]}
    ∅ ∅ [] [] [] [] ∅ [] [] [] ∅.

Definition start : session := mkSession sample_db 0.
Definition sample_store : BettingDB.Store := BettingDB.mkStore true 0.
Definition no_matches (_ : string) : option (string * string) := None.
Definition no_pricing (_ : string) : result pricing_payload := Err (Errorf "json").
Definition no_bytes (_ : string) : result MatchResultVerifiedPayload := Err (Errorf "json").

(** Alice backs Ann at +150, parlays both markets, and the first is settled
    in her favour; a second wager stays open. *)
Definition history : list command :=
  [CPlaceWager (mkPlaceWagerRequest (sid "7") alice (sid "1") (sid "3") FundingUserCash 2000 "CAD" "bet-1" "");
   CAcceptWager (sid "7") admin;
   CPlaceParlay (mkPlaceParlayRequest (sid "8") alice [mkParlayLegRequest (sid "1") (sid "3"); mkParlayLegRequest (sid "2") (sid "5")]
                   FundingUserCash 500 "CAD" "parlay-1" "");
   CAcceptParlay (sid "8") admin;
   CPlaceWager (mkPlaceWagerRequest (sid "9") alice (sid "2") (sid "5") FundingUserCash 700 "CAD" "bet-2" "");
   CAcceptWager (sid "9") admin].
Definition settlement : list command :=
  [CSettleMarket (mkSettleMarketRequest (sid "1") {[ sid "3" := ResultWin; sid "4" := ResultLoss ]} admin "measured" "" false);
   CReduceWager (sid "9") 600 admin "typed one digit too many"].

Abbreviation run := (run_commands sample_store no_matches no_bytes no_pricing).

(** ** What holds of it *)
Lemma fresh_sample_db : fresh_db sample_db.
Proof. by split. Qed.
Lemma history_ok : Forall command_ok (history ++ settlement).
Proof. by repeat constructor. Qed.
Lemma history_ok1 : Forall command_ok history.
Proof. by repeat constructor. Qed.
Lemma settlement_ok : Forall command_ok settlement.
Proof. by repeat constructor. Qed.

(** The identifier the first accepted wager gave the CAD escrow account. *)
Definition cad_escrow : string := "0100000e-0000-4000-8000-000000000000".

Lemma sample_escrow : accounts (db (run (history ++ settlement) start)) !! escrow_key "CAD" = Some cad_escrow.
Proof. by vm_compute. Qed.

Lemma sample_stakes : balance_of cad_escrow (db (run (history ++ settlement) start)) = 1100.
Proof. by vm_compute. Qed.

(** ** Witnesses *)
Lemma new_ids_are_version_4_witness :
  exists i, (NewEventID start).2 = Ok i /\ uuid_v4 i = true /\ i = "02000000-0000-4000-8000-000000000000".
Proof.
  destruct (new_ids_are_version_4 start) as [_ H]. destruct (NewEventID start).2 as [i|e] eqn:Ei; [|by vm_compute in Ei].
  exists i. split; [done|]. split; [apply H|]. vm_compute in Ei. by injection Ei as <-.
Defined.

Lemma store_refines_the_book_witness :
  exists b, reachable cad_escrow "CAD" b
    /\ wagers b = book_wagers "CAD" (db (run (history ++ settlement) start))
    /\ balances b = book_balances "CAD" (db (run (history ++ settlement) start))
    /\ Wager_State <$> wagers b !! sid "7" = Some WagerSettled.
Proof.
  destruct (store_refines_the_book sample_store no_matches no_bytes no_pricing cad_escrow "CAD" (history ++ settlement) start)
    as (b & Hb & Hw & Hbal).
  - apply fresh_sample_db.
  - apply history_ok.
  - intros id Hid. rewrite sample_escrow in Hid. by injection Hid.
  - exists b. split; [exact Hb|]. split; [exact Hw|]. split; [exact Hbal|]. rewrite Hw. by vm_compute.
Defined.

Lemma escrow_holds_the_open_stakes_witness :
  let d := db (run (history ++ settlement) start) in
  balance_of cad_escrow d = 1100 /\ total (held <$> book_wagers "CAD" d) + parlay_stakes "CAD" d = 1100.
Proof.
  intros d. pose proof (escrow_holds_the_open_stakes sample_store no_matches no_bytes no_pricing (history ++ settlement) start "CAD" cad_escrow
    fresh_sample_db history_ok sample_escrow) as [H _]. unfold d. split; [exact sample_stakes|].
  rewrite <- H. exact sample_stakes.
Defined.

Lemma stored_wagers_are_well_formed_witness :
  exists r, wager_rows (db (run history start)) !! sid "7" = Some r /\ Wager_Validate (wagerRow r) = Ok ()
    /\ Cents (Stake (wagerRow r)) = 2000.
Proof.
  destruct (wager_rows (db (run history start)) !! sid "7") as [r|] eqn:Er; [|by vm_compute in Er].
  exists r. split; [done|].
  destruct (stored_wagers_are_well_formed sample_store no_matches no_bytes no_pricing history start (sid "7") r
    fresh_sample_db history_ok1 Er) as (_ & _ & Hv & _).
  split; [exact Hv|]. vm_compute in Er. by injection Er as <-.
Defined.

Lemma stored_wagers_keep_their_terms_witness :
  exists r r', wager_rows (db (run history start)) !! sid "9" = Some r
    /\ wager_rows (db (run settlement (run history start))) !! sid "9" = Some r'
    /\ Book.evolves (wagerRow r) (wagerRow r') /\ Cents (Stake (wagerRow r)) = 700 /\ Cents (Stake (wagerRow r')) = 600.
Proof.
  destruct (wager_rows (db (run history start)) !! sid "9") as [r|] eqn:Er; [|by vm_compute in Er].
  destruct (stored_wagers_keep_their_terms sample_store no_matches no_bytes no_pricing history settlement start (sid "9") r
    fresh_sample_db history_ok1 settlement_ok Er) as (r' & Er' & Hev).
  exists r, r'. split; [done|]. split; [exact Er'|]. split; [exact Hev|].
  vm_compute in Er, Er'. injection Er as <-. by injection Er' as <-.
Defined.

(** The connection breaks at the n-th statement. *)
Definition struck (n : nat) (how : strike) : environment :=
  mkEnvironment (uuid_cast (environment := sample)) gen_uuid random_bytes
    (fun k => if (k =? n)%nat then Some (Errorf "connection reset") else None) (fun _ => how) clock map_order float_exp float_to_int64.

(** It breaks at the COMMIT of accepting a wager. *)
Definition placed : session := Eval vm_compute in run (take 1 history) start.
Definition acceptance : command := CAcceptWager (sid "7") admin.
Abbreviation attempt_at E := (perform (E := E) sample_store no_matches no_bytes no_pricing acceptance placed).
Definition at_commit : nat := Eval vm_compute in pred (tick (attempt_at sample).1).
Definition broken : error := Wrapf "commit accept wager: %w" (Errorf "connection reset").
Definition in_state (st : WagerState) (s : session) : bool :=
  match wager_rows (db s) !! sid "7" with Some r => bool_decide (Wager_State (wr_wager r) = st) | None => false end.

Lemma commit_refused : (attempt_at (struck at_commit BeforeCommit)).2 = Err broken.
Proof. vm_cast_no_check (eq_refl (Err (A := unit) broken)). Qed.
Lemma reply_not_received :
  let '(s, r) := attempt_at (struck at_commit BeforeReply) in (r, in_state WagerAccepted s) = (Err broken, true).
Proof. vm_cast_no_check (eq_refl (Err (A := unit) broken, true)). Qed.
Lemma placed_pending : in_state WagerAccepted placed = false.
Proof. vm_cast_no_check (eq_refl false). Qed.
Lemma never_lost n e : reply_lost (E := struck at_commit BeforeCommit) n e -> False.
Proof. by intros [_ [=]]. Qed.

Lemma failed_commands_are_all_or_nothing_witness :
  (exists s', attempt_at (struck at_commit BeforeCommit) = (s', Err broken) /\ db s' = db placed)
  /\ (exists s', attempt_at (struck at_commit BeforeReply) = (s', Err broken) /\ in_state WagerAccepted s' = true
      /\ exists s'', own_transaction (E := every_reply (struck at_commit BeforeReply)) sample_store no_matches no_bytes no_pricing acceptance placed
                    = (s'', Ok ()) /\ db s'' = db s').
Proof.
  split.
  - eexists. split; [exact (run_of _ _ _ commit_refused)|].
    destruct (failed_commands_are_all_or_nothing (E := struck at_commit BeforeCommit) sample_store no_matches no_bytes no_pricing
      acceptance placed _ broken I (run_of _ _ _ commit_refused)) as [H|[(n & e & _ & H) _]]; [exact H|destruct (never_lost n e H)].
  - pose proof reply_not_received as Hr. destruct (attempt_at (struck at_commit BeforeReply)) as [s' r] eqn:Es.
    injection Hr as -> Hs. exists s'. split; [exact eq_refl|]. split; [exact Hs|].
    destruct (failed_commands_are_all_or_nothing (E := struck at_commit BeforeReply) sample_store no_matches no_bytes no_pricing
      acceptance placed s' broken I Es) as [H|[_ H]]; [|exact H].
    pose proof placed_pending as Hp. unfold in_state in Hs, Hp. rewrite H, Hp in Hs. discriminate Hs.
Defined.

Lemma sample_named : restrictions_named sample_db.
Proof.
  intros m u c [y Hy]. unfold sample_db in Hy. cbn [restrictions] in Hy.
  apply lookup_singleton_Some in Hy as [[= <- <- <-] _]. split; [done|]. vm_compute. eauto.
Qed.

(** Ann is offered on both markets to Alice, Bob only on the first. *)
Definition board_of_alice : list MarketListRow := Eval vm_compute in
  match (ListOpenMarketsForUser sample_store alice start).2 with Ok board => board | Err _ => [] end.

Lemma alice_sees : (ListOpenMarketsForUser sample_store alice start).2 = Ok board_of_alice.
Proof. by vm_compute. Qed.

Lemma board_offers_what_can_be_backed_witness :
  (fmap MS_ID ∘ ML_Selections <$> board_of_alice) = [[sid "4"; sid "3"]; [sid "5"]]
  /\ forall market selection, shown board_of_alice market selection -> is_Some (selection_of market selection sample_db).
Proof.
  destruct (board_offers_what_can_be_backed sample_store alice start _ board_of_alice sample_named (run_of _ _ _ alice_sees))
    as (_ & n & u & _ & Hb).
  split; [by vm_compute|]. intros m x (mr & sr & _ & _ & _ & Hs & _)%Hb. eauto.
Defined.

Definition open_markets : Time -> DB -> result (list market_join) :=
  fun at_ d => Ok (market_rows true false (fun _ => openMarketPredicate at_) d).
Definition open_list : list MarketListRow := Eval vm_compute in
  match (listMarkets sample_store open_markets start).2 with Ok l => l | Err _ => [] end.

Lemma open_list_of : (listMarkets sample_store open_markets start).2 = Ok open_list.
Proof. by vm_compute. Qed.

(** Both markets have a cap of $500. *)
Lemma listings_omit_the_market_cap_witness :
  length open_list = 2%nat /\ Forall (fun m => ML_MaxStakeCents m = 0) open_list
  /\ forall m r, markets (db start) !! m = Some r -> market_max_stake_cents r = Some 50000.
Proof.
  split; [done|].
  split; [exact (listings_omit_the_market_cap sample_store open_markets start _ open_list (run_of _ _ _ open_list_of))|].
  intros m r Hm. cbn in Hm. apply lookup_insert_Some in Hm as [[_ <-]|[_ Hm]]; [done|].
  by apply lookup_singleton_Some in Hm as [_ <-].
Defined.
