(* ===== verification/IdentityDB.v ===== *)
(** * internal/identitypg: users, memberships, invitations and sessions

    [store.go] and [membership.go]: the tables of the identity store and one
    definition per method, over the sessions of [SQL].  PostgreSQL's [lower],
    Go's [strings.ToLower] and [strings.EqualFold], SHA-256 and the reads of 32
    random bytes are parameters.  The unique indexes are written out; the
    other constraints are statements that may fail. *)
From S2P Require Import Prelude GoStrings GoTime Float64 SQL Identity Base64 Session.

(** ** Tables *)
Record IdUserRow := mkIdUserRow {
  iu_display_name : string;
  iu_email : option string;
  iu_status : UserStatus;
  iu_auto_approve : option Z;
  iu_credit_limit : Z
}.
(** Keyed by provider and subject. *)
Record IdentityRow := mkIdentityRow {
  ir_user : string;
  ir_email : string;
  ir_profile_name : string;
  ir_last_authenticated : Time
}.
(** [revoked_at], [revoked_by] and [revocation_reason] are set together. *)
Record MembershipRow := mkMembershipRow {
  mb_user : string;
  mb_role : Role;
  mb_granted_by : option string;
  mb_granted_at : Time;
  mb_revoked : option (Time * string * string)
}.
(** [consumed_at] and [consumed_by], and [revoked_at] and [revoked_by], are
    set together. *)
Record InvitationDBRow := mkInvitationDBRow {
  in_token_hash : Digest;
  in_email : option string;
  in_role : Role;
  in_issued_by : string;
  in_expires_at : Time;
  in_consumed : option (Time * string);
  in_revoked : option (Time * string);
  in_created_at : Time
}.
Record SessionRow := mkSessionRow {
  se_user : string;
  se_token_hash : Digest;
  se_csrf_hash : Digest;
  se_created_at : Time;
  se_last_seen_at : Time;
  se_expires_at : Time;
  se_revoked : option (Time * string);
  se_rotated_from : option string
}.

Record IdDB := mkIdDB {
  id_users : gmap string IdUserRow;
  identities : gmap (string * string) IdentityRow;
  memberships : gmap string MembershipRow;
  invitations : gmap string InvitationDBRow;
  id_sessions : gmap string SessionRow;
  id_audit : list AuditRow
}.
Definition with_id_users x d := mkIdDB x (identities d) (memberships d) (invitations d) (id_sessions d) (id_audit d).
Definition with_identities x d := mkIdDB (id_users d) x (memberships d) (invitations d) (id_sessions d) (id_audit d).
Definition with_memberships x d := mkIdDB (id_users d) (identities d) x (invitations d) (id_sessions d) (id_audit d).
Definition with_invitations x d := mkIdDB (id_users d) (identities d) (memberships d) x (id_sessions d) (id_audit d).
Definition with_id_sessions x d := mkIdDB (id_users d) (identities d) (memberships d) (invitations d) x (id_audit d).
Definition with_id_audit x d := mkIdDB (id_users d) (identities d) (memberships d) (invitations d) (id_sessions d) x.

#[local] Abbreviation go := (SQL.go IdDB).

(** A membership, an invitation or a session is live while it is not revoked
    (or consumed). *)
Definition mb_live (m : MembershipRow) : bool := bool_decide (mb_revoked m = None).
Definition se_live (x : SessionRow) : bool := bool_decide (se_revoked x = None).
Definition in_open (x : InvitationDBRow) : bool := bool_decide (in_consumed x = None) && bool_decide (in_revoked x = None).

Record IdStore := mkIdStore { HasPool : bool; DefaultCreditLimitCents : Z }.

Section identity_store.
Context {E : environment}.
Context (pg_lower go_lower : string -> string) (equal_fold : string -> string -> bool).
Context (sha256 : list ascii -> Digest) (random32 : nat -> option (list ascii)).
Implicit Types (st : IdStore) (d : IdDB).

Definition no_pool : error := Errorf "identity PostgreSQL pool is required".

(** *** Principals *)
Definition active_membership (user : string) d : option (string * MembershipRow) :=
  find_row (fun m => bool_decide (mb_user m = user) && mb_live m) (memberships d).

(** [scanPrincipal] of the columns of [principalColumns]. *)
Definition scanPrincipal (uid : string) (u : IdUserRow) (mid : string) (m : MembershipRow) : Principal :=
  mkPrincipal (mkUser uid (iu_display_name u) (default ""%string (iu_email u)) (iu_status u))
    (mkMembership mid (mb_user m) (mb_role m) (mb_granted_at m)
       (match mb_revoked m with Some (t, _, _) => t | None => zeroTime end)).

(** The rows of [principalByUserSQL]. *)
Definition principal_of (uid : string) d : option Principal :=
  u ← id_users d !! uid;
  '(mid, m) ← active_membership uid d;
  if bool_decide (iu_status u = UserActive) then Some (scanPrincipal uid u mid m) else None.
Definition principal_by_identity (provider subject : string) d : option Principal :=
  i ← identities d !! (provider, subject);
  principal_of (ir_user i) d.
Definition user_by_email (email : string) d : option (string * IdUserRow) :=
  find_row (fun u => bool_decide (pg_lower <$> iu_email u = Some (pg_lower email))) (id_users d).
Definition principal_by_email (email : string) d : option Principal :=
  '(uid, _) ← user_by_email email d;
  principal_of uid d.

(** The upsert of [auth_identities]; whether it wrote a row. *)
Definition touch_identity (at_ : Time) (email : string) (i : IdentityRow) : IdentityRow :=
  mkIdentityRow (ir_user i) email (ir_profile_name i) at_.
Definition link_identity (at_ : Time) (uid : string) (who : VerifiedIdentity) d : result (IdDB * bool) :=
  let key := (VI_Provider who, VI_Subject who) in
  match identities d !! key with
  | None =>
      Ok (with_identities (<[key := mkIdentityRow uid (VI_Email who) (VI_DisplayName who) at_]> (identities d)) d, true)
  | Some i =>
      if bool_decide (ir_user i = uid)
      then Ok (with_identities (<[key := touch_identity at_ (VI_Email who) i]> (identities d)) d, true)
      else Ok (d, false)
  end.

Definition resolveApprovedIdentity (at_ : Time) (verified : VerifiedIdentity) : go Principal :=
  found ← query "resolve OIDC identity: %w" (fun d => Ok (principal_by_identity (VI_Provider verified) (VI_Subject verified) d));
  match found with
  | Some principal =>
      exec "record authentication: %w" (fun d =>
        Ok (with_identities (alter (touch_identity at_ (VI_Email verified)) (VI_Provider verified, VI_Subject verified)
                               (identities d)) d));;
      mret principal
  | None =>
      approved ← query "resolve approved email: %w" (fun d => Ok (principal_by_email (VI_Email verified) d));
      match approved with
      | None => failing ErrSignInNotAllowed
      | Some principal =>
          linked ← statement "link approved OIDC identity: %w" (fun _ d =>
            link_identity at_ (User_ID (Principal_User principal)) verified d);
          if negb linked then failing ErrSignInNotAllowed else mret principal
      end
  end.

(** *** Sessions *)
Definition scan_session (sid : string) (x : SessionRow) : Session :=
  Session.mkSession sid (se_user x) (se_token_hash x) (se_csrf_hash x) (se_created_at x) (se_last_seen_at x) (se_expires_at x)
    (match se_revoked x with Some (t, _) => t | None => zeroTime end)
    (match se_revoked x with Some (_, reason) => reason | None => ""%string end)
    (default ""%string (se_rotated_from x)).

(** [INSERT INTO sessions], with the unique [token_hash] and [rotated_from]. *)
Definition insert_session_row (sid : string) (x : SessionRow) d : result (IdDB * Session) :=
  fail_if (bool_decide (is_Some (id_sessions d !! sid))
           || bool_decide (map_Exists (fun _ y => se_token_hash y = se_token_hash x
                \/ (se_rotated_from x <> None /\ se_rotated_from y = se_rotated_from x)) (id_sessions d)))
    (Errorf "duplicate key value violates unique constraint");;
  Ok (with_id_sessions (<[sid := x]> (id_sessions d)) d, scan_session sid x).

Definition insertSession (userID : string) (draft : SessionDraft) (rotatedFrom : string) : go Session :=
  statement "insert session: %w" (fun n d =>
    insert_session_row (gen_uuid n)
      (mkSessionRow userID (SD_TokenHash draft) (SD_CSRFSecretHash draft) (timestamptz (SD_CreatedAt draft))
         (timestamptz (SD_LastSeenAt draft)) (timestamptz (SD_ExpiresAt draft)) None
         (if bool_decide (rotatedFrom = ""%string) then None else Some rotatedFrom)) d).

(** Whether the deferred rollback or the commit ends the transaction is only
    a matter of the operation's error. *)
Definition withPrincipalTransaction st (operation : go (Session * Principal)) : go (Session * Principal) :=
  transaction (HasPool st) no_pool (Wrapf "begin identity transaction: %w") (fun _ => true)
    (r ← operation; mret (Commit "commit identity transaction: %w" r)).

Definition Store_CreateSessionForIdentity st (verified : VerifiedIdentity) (draft : SessionDraft) : go (Session * Principal) :=
  withPrincipalTransaction st (
    at_ ← tx_now;
    principal ← resolveApprovedIdentity at_ verified;
    session ← insertSession (User_ID (Principal_User principal)) draft "";
    mret (session, principal)).

(** The row of [sessionPrincipalSQL] under its [WHERE]. *)
Definition live_session (tokenHash : Digest) (now : Time) d : option (Session * Principal) :=
  '(sid, x) ← find_row (fun x => bool_decide (se_token_hash x = tokenHash) && se_live x
                          && (nanos now <? nanos (se_expires_at x))) (id_sessions d);
  p ← principal_of (se_user x) d;
  Some (scan_session sid x, p).

Definition set_last_seen (t : Time) (x : SessionRow) : SessionRow :=
  mkSessionRow (se_user x) (se_token_hash x) (se_csrf_hash x) (se_created_at x) t (se_expires_at x) (se_revoked x)
    (se_rotated_from x).
Definition touch_session (now : Time) (x : SessionRow) : SessionRow :=
  if nanos (se_last_seen_at x) <? nanos now then set_last_seen now x else x.
Definition set_LastSeenAt (t : Time) (s : Session) : Session :=
  Session.mkSession (Session_ID s) (Session_UserID s) (TokenHash s) (CSRFSecretHash s) (CreatedAt s) t (ExpiresAt s)
    (RevokedAt s) (RevokeReason s) (RotatedFrom s).

Definition Store_UseSession st (tokenHash : Digest) (now : Time) : go (Session * Principal) :=
  if negb (HasPool st) then failing no_pool
  else
    found ← query "find active session: %w" (fun d => Ok (live_session tokenHash (timestamptz now) d));
    match found with
    | None => failing ErrUnauthenticated
    | Some (session, principal) =>
        if 5 * Minute <=? nanos now - nanos (LastSeenAt session) then
          exec "touch session: %w" (fun d =>
            Ok (with_id_sessions (alter (touch_session (timestamptz now)) (Session_ID session) (id_sessions d)) d));;
          mret (set_LastSeenAt now session, principal)
        else mret (session, principal)
    end.

Definition revoke_row (now : Time) (reason : string) (x : SessionRow) : SessionRow :=
  mkSessionRow (se_user x) (se_token_hash x) (se_csrf_hash x) (se_created_at x) (se_last_seen_at x) (se_expires_at x)
    (Some (now, reason)) (se_rotated_from x).

Definition Store_RotateSession st (currentHash : Digest) (draft : SessionDraft) (now : Time) (reason : string)
    : go (Session * Principal) :=
  withPrincipalTransaction st (
    found ← query "lock session for rotation: %w" (fun d => Ok (live_session currentHash (timestamptz now) d));
    match found with
    | None => failing ErrUnauthenticated
    | Some (current, principal) =>
        exec "revoke rotated session: %w" (fun d =>
          Ok (with_id_sessions (alter (revoke_row (timestamptz now) reason) (Session_ID current) (id_sessions d)) d));;
        session ← insertSession (User_ID (Principal_User principal)) draft (Session_ID current);
        mret (session, principal)
    end).

Definition is_live_token (tokenHash : Digest) (x : SessionRow) : bool :=
  bool_decide (se_token_hash x = tokenHash) && se_live x.

Definition Store_RevokeSession st (tokenHash : Digest) (now : Time) (reason : string) : go unit :=
  if negb (HasPool st) then failing no_pool
  else
    changed ← statement "revoke session: %w" (fun _ d =>
      match find_row (is_live_token tokenHash) (id_sessions d) with
      | None => Ok (d, false)
      | Some _ =>
          Ok (with_id_sessions ((fun x => if is_live_token tokenHash x then revoke_row (timestamptz now) reason x else x)
                                  <$> id_sessions d) d, true)
      end);
    if negb changed then failing ErrUnauthenticated else mret ().

(** *** Invitations *)
Definition invitationTokenContext : string := "cabot-invitation-token-v1".
Definition hashInvitationToken (raw : string) : Digest := sha256 (bytes (invitationTokenContext ++ ":" ++ raw)).

(** The unique active role of a user, enforced by a partial unique index. *)
Definition insert_membership (mid : string) (m : MembershipRow) d : result IdDB :=
  fail_if (bool_decide (is_Some (memberships d !! mid))
           || bool_decide (is_Some (active_membership (mb_user m) d)))
    (Errorf "duplicate key value violates unique constraint");;
  Ok (with_memberships (<[mid := m]> (memberships d)) d).

(** An argument is [cast] when it came from outside and [Ok] when it is an
    identifier the database returned. *)
Definition grant_membership (wrap : string) (at_ : Time) (user : result string) (role : Role) (by_ : result string) : go unit :=
  statement wrap (fun n d =>
    u ← user;
    b ← by_;
    d' ← insert_membership (gen_uuid n) (mkMembershipRow u role (Some b) at_ None) d;
    Ok (d', ())).

(** [INSERT INTO users ... RETURNING id], with the unique index on
    [lower(email)]; a limit of zero leaves the column's default of
    migration 000010. *)
Definition column_credit_limit : Z := 150000.
Definition insert_user (uid : string) (name email : string) (creditLimitCents : Z) d : result (IdDB * string) :=
  fail_if (bool_decide (is_Some (id_users d !! uid)) || bool_decide (is_Some (user_by_email email d)))
    (Errorf "duplicate key value violates unique constraint");;
  Ok (with_id_users (<[uid := mkIdUserRow name (Some email) UserActive None
        (if creditLimitCents <=? 0 then column_credit_limit else creditLimitCents)]> (id_users d)) d, uid).

Definition set_consumed (at_ : Time) (uid : string) (x : InvitationDBRow) : InvitationDBRow :=
  mkInvitationDBRow (in_token_hash x) (in_email x) (in_role x) (in_issued_by x) (in_expires_at x) (Some (at_, uid))
    (in_revoked x) (in_created_at x).
(** [consumed_by] is unique over all invitations. *)
Definition consume_row (at_ : Time) (invitationID uid : string) d : result IdDB :=
  fail_if (bool_decide (map_Exists (fun i x => i <> invitationID /\ snd <$> in_consumed x = Some uid) (invitations d)))
    (Errorf "duplicate key value violates unique constraint");;
  Ok (with_invitations (alter (set_consumed at_ uid) invitationID (invitations d)) d).

Definition id_insert_audit (wrap : string) (actor : result string) (action : string) (target : result string) (reason : string)
    (before after : list (string * audit_value)) : go unit :=
  exec wrap (fun d =>
    a ← actor;
    t ← target;
    Ok (with_id_audit (id_audit d ++ [mkAuditRow a action "user" t reason before after]) d)).

Definition role_text (r : Role) : string :=
  match r with RoleMember => "member" | RoleAdmin => "admin" | RoleOwner => "owner" | RoleOther t => t end.

Definition open_invitation (at_ : Time) (hash : Digest) d : option (string * InvitationDBRow) :=
  find_row (fun x => bool_decide (in_token_hash x = hash) && in_open x && (nanos at_ <? nanos (in_expires_at x)))
    (invitations d).

(** The user of a verified email, created when there is none. *)
Definition invited_user (verified : VerifiedIdentity) (creditLimitCents : Z) : go string :=
  found ← query "look up invited user: %w" (fun d => Ok (user_by_email (VI_Email verified) d));
  match found with
  | None =>
      statement "create invited user: %w" (fun n d =>
        insert_user (gen_uuid n) (VI_DisplayName verified) (go_lower (VI_Email verified)) creditLimitCents d)
  | Some (uid, u) => if negb (bool_decide (iu_status u = UserActive)) then failing ErrSignInNotAllowed else mret uid
  end.

Definition consumeInvitation (at_ : Time) (verified : VerifiedIdentity) (rawToken : string) (creditLimitCents : Z)
    : go Principal :=
  if is_blank rawToken then failing ErrSignInNotAllowed
  else
    found ← query "load invitation: %w" (fun d => Ok (open_invitation at_ (hashInvitationToken rawToken) d));
    match found with
    | None => failing ErrSignInNotAllowed
    | Some (invitationID, inv) =>
        if (match in_email inv with
            | Some email => negb (equal_fold (TrimSpace email) (VI_Email verified))
            | None => false
            end)
        then failing ErrSignInNotAllowed
        else
          userID ← invited_user verified creditLimitCents;
          grant_membership "grant invited membership: %w" at_ (Ok userID) (in_role inv) (Ok (in_issued_by inv));;
          exec "consume invitation: %w" (consume_row at_ invitationID userID);;
          statement "link invited OIDC identity: %w" (fun _ d => link_identity at_ userID verified d);;
          id_insert_audit "record invitation audit: %w" (Ok (in_issued_by inv)) "membership.invitation_consumed" (Ok userID)
            "accepted invite" [] [("role"%string, AString (role_text (in_role inv)))];;
          query "load invited principal: %w" (fun d => must_find (principal_of userID d))
    end.

Definition Store_CreateSessionForInvitedIdentity st (verified : VerifiedIdentity) (draft : SessionDraft) (inviteToken : string)
    : go (Session * Principal) :=
  withPrincipalTransaction st (
    at_ ← tx_now;
    resolved ← attempt (resolveApprovedIdentity at_ verified);
    principal ← match resolved with
                | Ok p => mret p
                | Err e =>
                    if errors_is "identity.ErrSignInNotAllowed" e
                    then consumeInvitation at_ verified inviteToken (DefaultCreditLimitCents st)
                    else failing e
                end;
    session ← insertSession (User_ID (Principal_User principal)) draft "";
    mret (session, principal)).

Definition activeRole (userID : string) : go Role :=
  found ← query "load actor role: %w" (fun d => u ← cast userID; Ok (active_membership u d));
  match found with
  | None => failing (Wrapf "%w: no active membership" ErrUnauthorized)
  | Some (_, m) => mret (mb_role m)
  end.
Definition admin_or_owner (r : Role) : bool := bool_decide (r = RoleAdmin) || bool_decide (r = RoleOwner).

Definition insert_invitation (iid : string) (x : InvitationDBRow) d : result IdDB :=
  fail_if (bool_decide (is_Some (invitations d !! iid))
           || bool_decide (map_Exists (fun _ y => in_token_hash y = in_token_hash x) (invitations d)))
    (Errorf "duplicate key value violates unique constraint");;
  fail_if (nanos (in_expires_at x) <=? nanos (in_created_at x)) (Errorf "check constraint on expires_at");;
  Ok (with_invitations (<[iid := x]> (invitations d)) d).

(** [rand.Read] of 32 bytes. *)
Definition draw_token : go string := fun s =>
  (SQL.mkSession (db s) (S (tick s)),
   match random32 (tick s) with
   | None => Err (Wrapf "generate invitation token: %w" (Errorf "rand"))
   | Some buf => Ok (EncodeToString buf)
   end).

Definition IssueInvitation st (actorUserID : string) (role : Role) (intendedEmail : string) (ttl : Z) : go string :=
  if negb (HasPool st) then failing no_pool
  else if negb (bool_decide (role = RoleMember)) && negb (bool_decide (role = RoleAdmin))
  then failing (Wrapf "%w: invitations may grant member or admin only" ErrUnauthorized)
  else if (ttl <=? 0) || (30 * 24 * Hour <? ttl) then failing (Errorf "invitation ttl must be between 0 and 30 days")
  else
    actorRole ← activeRole actorUserID;
    if bool_decide (role = RoleAdmin) && negb (bool_decide (actorRole = RoleOwner))
    then failing (Wrapf "%w: only an owner may invite an admin" ErrUnauthorized)
    else if negb (admin_or_owner actorRole)
    then failing (Wrapf "%w: only an admin or owner may invite members" ErrUnauthorized)
    else
      rawToken ← draw_token;
      let trimmed := go_lower (TrimSpace intendedEmail) in
      let email := if bool_decide (trimmed = ""%string) then None else Some trimmed in
      statement "create invitation: %w" (fun n d =>
        by_ ← cast actorUserID;
        let created := timestamptz (clock n) in
        d' ← insert_invitation (gen_uuid n)
               (mkInvitationDBRow (hashInvitationToken rawToken) email role by_
                  (TimeAdd created (ttl / Second * Second)) None None created) d;
        Ok (d', ()));;
      mret rawToken.

Definition set_in_revoked (at_ : Time) (by_ : string) (x : InvitationDBRow) : InvitationDBRow :=
  mkInvitationDBRow (in_token_hash x) (in_email x) (in_role x) (in_issued_by x) (in_expires_at x) (in_consumed x)
    (Some (at_, by_)) (in_created_at x).

Definition RevokeInvitation st (actorUserID invitationID : string) : go unit :=
  if negb (HasPool st) then failing no_pool
  else
    actorRole ← activeRole actorUserID;
    if negb (admin_or_owner actorRole)
    then failing (Wrapf "%w: only an admin or owner may revoke invitations" ErrUnauthorized)
    else
      changed ← statement "revoke invitation: %w" (fun n d =>
        i ← cast invitationID;
        by_ ← cast actorUserID;
        match invitations d !! i with
        | Some x => if in_open x
                    then Ok (with_invitations (<[i := set_in_revoked (timestamptz (clock n)) by_ x]> (invitations d)) d, true)
                    else Ok (d, false)
        | None => Ok (d, false)
        end);
      if negb changed then failing (Errorf "invitation not found or already consumed") else mret ().

(** *** Listings *)
Record MemberRow := mkMemberRow {
  ML_UserID : string; ML_DisplayName : string; ML_Email : string; ML_Role : Role; ML_Status : UserStatus;
  ML_GrantedAt : Time; IdentityLinked : bool; AutoApproveMaxCents : option Z; CreditLimitCents : Z
}.
Definition member_before (x y : MemberRow) : Prop :=
  nanos (ML_GrantedAt y) < nanos (ML_GrantedAt x)
  \/ (nanos (ML_GrantedAt x) = nanos (ML_GrantedAt y) /\ String.leb (ML_DisplayName x) (ML_DisplayName y) = true).
#[export] Instance member_before_dec : RelDecision member_before.
Proof. intros x y. unfold member_before. apply _. Defined.

Definition member_row d (m : MembershipRow) : option MemberRow :=
  u ← id_users d !! mb_user m;
  Some (mkMemberRow (mb_user m) (iu_display_name u) (default ""%string (iu_email u)) (mb_role m) (iu_status u)
          (UTC (mb_granted_at m)) (bool_decide (map_Exists (fun _ i => ir_user i = mb_user m) (identities d)))
          (iu_auto_approve u) (iu_credit_limit u)).
Definition ListMembers st : go (list MemberRow) :=
  if negb (HasPool st) then failing no_pool
  else query "list members: %w" (fun d =>
    Ok (merge_sort member_before (omap (member_row d) (List.filter mb_live (map_to_list (memberships d)).*2)))).

Record InvitationRow := mkInvitationRow {
  IV_ID : string; IV_Role : Role; IntendedEmail : string; IssuedByName : string; IV_ExpiresAt : Time; IV_CreatedAt : Time
}.
Definition invitation_before (x y : InvitationRow) : Prop := nanos (IV_CreatedAt y) <= nanos (IV_CreatedAt x).
#[export] Instance invitation_before_dec : RelDecision invitation_before.
Proof. intros x y. unfold invitation_before. apply _. Defined.

Definition invitation_row d (kx : string * InvitationDBRow) : InvitationRow :=
  mkInvitationRow kx.1 (in_role kx.2) (default ""%string (in_email kx.2))
    (default ""%string (iu_display_name <$> id_users d !! in_issued_by kx.2)) (UTC (in_expires_at kx.2)) (UTC (in_created_at kx.2)).
Definition ListPendingInvitations st : go (list InvitationRow) :=
  if negb (HasPool st) then failing no_pool
  else statement "list invitations: %w" (fun n d =>
    Ok (d, merge_sort invitation_before (invitation_row d <$>
          List.filter (fun kx => in_open kx.2 && (nanos (timestamptz (clock n)) <? nanos (in_expires_at kx.2)))
            (map_to_list (invitations d))))).

(** *** Roles and limits *)
Definition requireOwnerTx (actorUserID : string) : go unit :=
  found ← query "verify owner: %w" (fun d => u ← cast actorUserID; Ok (active_membership u d));
  match found with
  | Some (_, m) => if bool_decide (mb_role m = RoleOwner) then mret ()
                   else failing (Wrapf "%w: this action requires an owner" ErrUnauthorized)
  | None => failing (Wrapf "%w: this action requires an owner" ErrUnauthorized)
  end.

Definition load_target (targetUserID : string) : go (string * MembershipRow) :=
  found ← query "load target membership: %w" (fun d => u ← cast targetUserID; Ok (active_membership u d));
  match found with
  | None => failing (Errorf "target has no active membership")
  | Some m => mret m
  end.

Definition is_live_owner (m : MembershipRow) : bool := bool_decide (mb_role m = RoleOwner) && mb_live m.
Definition owners d : Z := Z.of_nat (length (List.filter is_live_owner (map_to_list (memberships d)).*2)).
(** The guard both operations have: an owner may lose the role only while
    another has it. *)
Definition keep_an_owner (message : string) (m : MembershipRow) : go unit :=
  if bool_decide (mb_role m = RoleOwner) then
    ownerCount ← query "count owners: %w" (fun d => Ok (owners d));
    if ownerCount <=? 1 then failing (Errorf message) else mret ()
  else mret ().

Definition set_mb_revoked (at_ : Time) (by_ reason : string) (m : MembershipRow) : MembershipRow :=
  mkMembershipRow (mb_user m) (mb_role m) (mb_granted_by m) (mb_granted_at m) (Some (at_, by_, reason)).
Definition revoke_membership (wrap : string) (at_ : Time) (mid actorUserID reason : string) : go unit :=
  exec wrap (fun d =>
    by_ ← cast actorUserID;
    Ok (with_memberships (alter (set_mb_revoked at_ by_ reason) mid (memberships d)) d)).

(** A transaction whose commit error is returned as it is. *)
Definition id_tx {A} st (wrap : string) (body : go (finish A)) : go A :=
  transaction (HasPool st) no_pool (Wrapf wrap) (fun _ => true) body.

Definition ChangeMemberRole st (actorUserID targetUserID : string) (newRole : Role) (reason : string) : go unit :=
  if negb (HasPool st) then failing no_pool
  else if (match newRole with RoleOther _ => true | _ => false end) then failing (Errorf "role must be member, admin, or owner")
  else if is_blank reason then failing (Wrapf "%w: a reason is required for a role change" ErrUnauthorized)
  else
    id_tx st "begin role change: %w" (
      at_ ← tx_now;
      requireOwnerTx actorUserID;;
      '(mid, m) ← load_target targetUserID;
      if bool_decide (mb_role m = newRole) then mret (Commit "%w" ())
      else
        keep_an_owner "cannot demote the last owner" m;;
        revoke_membership "revoke prior membership: %w" at_ mid actorUserID reason;;
        grant_membership "grant new membership: %w" at_ (cast targetUserID) newRole (cast actorUserID);;
        id_insert_audit "record role change audit: %w" (cast actorUserID) "membership.role_changed" (cast targetUserID) reason
          [("role"%string, AString (role_text (mb_role m)))] [("role"%string, AString (role_text newRole))];;
        mret (Commit "%w" ())).

Definition RevokeMember st (actorUserID targetUserID reason : string) : go unit :=
  if negb (HasPool st) then failing no_pool
  else if is_blank reason then failing (Wrapf "%w: a reason is required to revoke a member" ErrUnauthorized)
  else if bool_decide (actorUserID = targetUserID) then failing (Errorf "you cannot revoke your own membership")
  else
    id_tx st "begin revoke: %w" (
      at_ ← tx_now;
      requireOwnerTx actorUserID;;
      '(mid, m) ← load_target targetUserID;
      keep_an_owner "cannot revoke the last owner" m;;
      revoke_membership "revoke membership: %w" at_ mid actorUserID reason;;
      id_insert_audit "record revoke audit: %w" (cast actorUserID) "membership.revoked" (cast targetUserID) reason
        [("role"%string, AString (role_text (mb_role m)))] [];;
      mret (Commit "%w" ())).

Definition update_user (wrap targetUserID : string) (f : IdUserRow -> IdUserRow) : go unit :=
  changed ← statement wrap (fun _ d =>
    u ← cast targetUserID;
    match id_users d !! u with
    | Some x => Ok (with_id_users (<[u := f x]> (id_users d)) d, true)
    | None => Ok (d, false)
    end);
  if negb changed then failing (Errorf "member not found") else mret ().

Definition set_auto_approve (cents : option Z) (u : IdUserRow) : IdUserRow :=
  mkIdUserRow (iu_display_name u) (iu_email u) (iu_status u) cents (iu_credit_limit u).
Definition SetAutoApproveLimit st (actorUserID targetUserID : string) (cents : option Z) : go unit :=
  if negb (HasPool st) then failing no_pool
  else if (match cents with Some c => c <? 0 | None => false end) then failing (Errorf "auto-approve limit must not be negative")
  else
    actorRole ← activeRole actorUserID;
    if negb (admin_or_owner actorRole) then failing (Wrapf "%w: only an admin or owner may set betting limits" ErrUnauthorized)
    else
      id_tx st "begin set limit: %w" (
        update_user "set auto-approve limit: %w" targetUserID (set_auto_approve cents);;
        id_insert_audit "record limit audit: %w" (cast actorUserID) "membership.auto_approve_limit_set" (cast targetUserID)
          "set betting limit" []
          [("auto_approve_max_cents"%string, AString (match cents with Some c => pretty c | None => "null"%string end))];;
        mret (Commit "%w" ())).

Definition set_credit_limit (cents : Z) (u : IdUserRow) : IdUserRow :=
  mkIdUserRow (iu_display_name u) (iu_email u) (iu_status u) (iu_auto_approve u) cents.
Definition SetCreditLimit st (actorUserID targetUserID : string) (cents : Z) : go unit :=
  if negb (HasPool st) then failing no_pool
  else if cents <? 0 then failing (Errorf "credit limit must not be negative")
  else
    actorRole ← activeRole actorUserID;
    if negb (admin_or_owner actorRole) then failing (Wrapf "%w: only an admin or owner may set credit limits" ErrUnauthorized)
    else
      id_tx st "begin set credit limit: %w" (
        update_user "set credit limit: %w" targetUserID (set_credit_limit cents);;
        id_insert_audit "record credit limit audit: %w" (cast actorUserID) "membership.credit_limit_set" (cast targetUserID)
          "set credit limit" [] [("credit_limit_cents"%string, AString (pretty cents))];;
        mret (Commit "%w" ())).

(** *** The store as the session service sees it *)
Definition pg_sessions st : SessionStore (SQL.session IdDB) := {|
  CreateSessionForIdentity := Store_CreateSessionForIdentity st;
  CreateSessionForInvitedIdentity := Store_CreateSessionForInvitedIdentity st;
  UseSession := Store_UseSession st;
  RotateSession := Store_RotateSession st;
  RevokeSession := Store_RevokeSession st
|}.
End identity_store.
