(* ===== verification/IdentityStore.v ===== *)
(** * The identity store over time

    Every operation of the identity store, whatever it returns and whichever
    statement fails, only adds rows or revokes live ones; what follows of it
    for owners, roles, invitations and sessions over any run of operations. *)
From S2P Require Import Prelude GoStrings GoTime Float64 SQL Keeping Identity Base64 Session IdentityDB.

#[local] Abbreviation go := (SQL.go IdDB).

(** ** History is append-only *)
Create HintDb history.


(** Whether the columns that never change agree, and what was revoked or
    consumed stays as it was. *)
Record user_kept (x y : IdUserRow) : Prop := {
  uk_name : iu_display_name y = iu_display_name x;
  uk_email : iu_email y = iu_email x;
  uk_status : iu_status y = iu_status x
}.
Record membership_kept (x y : MembershipRow) : Prop := {
  mk_user : mb_user y = mb_user x;
  mk_role : mb_role y = mb_role x;
  mk_granted : mb_granted_by y = mb_granted_by x /\ mb_granted_at y = mb_granted_at x;
  mk_revoked : mb_revoked x <> None -> mb_revoked y = mb_revoked x
}.
Record invitation_kept (x y : InvitationDBRow) : Prop := {
  ik_terms : in_token_hash y = in_token_hash x /\ in_email y = in_email x /\ in_role y = in_role x
             /\ in_issued_by y = in_issued_by x /\ in_expires_at y = in_expires_at x;
  ik_consumed : in_consumed x <> None -> in_consumed y = in_consumed x;
  ik_revoked : in_revoked x <> None -> in_revoked y = in_revoked x
}.
Record session_kept (x y : SessionRow) : Prop := {
  sk_terms : se_user y = se_user x /\ se_token_hash y = se_token_hash x /\ se_csrf_hash y = se_csrf_hash x
             /\ se_created_at y = se_created_at x /\ se_expires_at y = se_expires_at x;
  sk_revoked : se_revoked x <> None -> se_revoked y = se_revoked x
}.

(** Every row of a table is still there, related by [R]. *)
Definition rows_kept {K A} `{Countable K} (R : A -> A -> Prop) (m m' : gmap K A) : Prop :=
  forall k x, m !! k = Some x -> exists y, m' !! k = Some y /\ R x y.

Record history (d d' : IdDB) : Prop := {
  hi_users : rows_kept user_kept (id_users d) (id_users d');
  hi_identities : rows_kept (fun x y => ir_user y = ir_user x) (identities d) (identities d');
  hi_memberships : rows_kept membership_kept (memberships d) (memberships d');
  hi_invitations : rows_kept invitation_kept (invitations d) (invitations d');
  hi_sessions : rows_kept session_kept (id_sessions d) (id_sessions d');
  hi_audit : id_audit d `prefix_of` id_audit d'
}.

Section rows_kept.
Context {K A : Type} `{Countable K} (R : A -> A -> Prop).
Implicit Types (m : gmap K A).
Lemma rows_kept_refl m : (forall x, R x x) -> rows_kept R m m.
Proof. intros Hr k x Hk. eauto. Qed.
Lemma rows_kept_trans m1 m2 m3 :
  (forall x y z, R x y -> R y z -> R x z) -> rows_kept R m1 m2 -> rows_kept R m2 m3 -> rows_kept R m1 m3.
Proof. intros Ht H1 H2 k x (y & Hy & Rxy)%H1. apply H2 in Hy as (z & Hz & Ryz). eauto. Qed.
Lemma rows_kept_insert m k x :
  (forall x, R x x) -> (forall y, m !! k = Some y -> R y x) -> rows_kept R m (<[k := x]> m).
Proof.
  intros Hr Hk k' y Hy. destruct (decide (k' = k)) as [->|].
  - rewrite lookup_insert_eq. eauto.
  - rewrite lookup_insert_ne by done. eauto.
Qed.
Lemma rows_kept_alter m k f :
  (forall x, R x x) -> (forall y, m !! k = Some y -> R y (f y)) -> rows_kept R m (alter f k m).
Proof.
  intros Hr Hk k' y Hy. destruct (decide (k' = k)) as [->|].
  - rewrite lookup_alter_eq, Hy. cbn. eauto.
  - rewrite lookup_alter_ne by done. eauto.
Qed.
Lemma rows_kept_fmap m f : (forall y, R y (f y)) -> rows_kept R m (f <$> m).
Proof. intros Hf k y Hy. rewrite lookup_fmap, Hy. cbn. eauto. Qed.
End rows_kept.

Lemma user_kept_refl x : user_kept x x.
Proof. by split. Qed.
Lemma membership_kept_refl x : membership_kept x x.
Proof. by split. Qed.
Lemma invitation_kept_refl x : invitation_kept x x.
Proof. by split. Qed.
Lemma session_kept_refl x : session_kept x x.
Proof. by split. Qed.
#[local] Hint Resolve user_kept_refl membership_kept_refl invitation_kept_refl session_kept_refl rows_kept_refl : history.

#[export] Instance history_refl : Reflexive history.
Proof. intros d. split; auto with history. Qed.
#[export] Instance history_trans : Transitive history.
Proof.
  intros x y z [] []. split; try (eapply rows_kept_trans; [|done..]).
  - intros ??? [] []. split; congruence.
  - intros ???. congruence.
  - intros ??? [? ? [] Hx] [? ? [] Hy]. split; [congruence..| |]; [split; congruence|]. intros Hr. rewrite <- (Hx Hr). apply Hy.
    by rewrite (Hx Hr).
  - intros ??? [] []. destruct_and!. split; [split_and!; congruence| |]; intros Hr.
    + rewrite <- (ik_consumed0 Hr). apply ik_consumed1. by rewrite (ik_consumed0 Hr).
    + rewrite <- (ik_revoked0 Hr). apply ik_revoked1. by rewrite (ik_revoked0 Hr).
  - intros ??? [] []. destruct_and!. split; [split_and!; congruence|]; intros Hr.
    rewrite <- (sk_revoked0 Hr). apply sk_revoked1. by rewrite (sk_revoked0 Hr).
  - by etrans.
Qed.

(** ** The changes an operation makes *)

(** A user who has, or had, the owner role. *)
Definition owner_once (user : string) (d : IdDB) : Prop :=
  exists mid m, memberships d !! mid = Some m /\ mb_user m = user /\ mb_role m = RoleOwner.
(** Who may give a role away: anyone the role of a member, an owner any. *)
Definition may_grant (role : Role) (by_ : string) (d : IdDB) : Prop :=
  role = RoleMember \/ owner_once by_ d.

Inductive id_step (d d' : IdDB) : Prop :=
  | step_new_user uid x (_ : id_users d !! uid = None) (_ : d' = with_id_users (<[uid := x]> (id_users d)) d)
  | step_user uid x y (_ : id_users d !! uid = Some x) (_ : user_kept x y)
      (_ : d' = with_id_users (<[uid := y]> (id_users d)) d)
  | step_link key i (_ : forall j, identities d !! key = Some j -> ir_user i = ir_user j)
      (_ : d' = with_identities (<[key := i]> (identities d)) d)
  | step_grant mid m by_ (_ : memberships d !! mid = None) (_ : active_membership (mb_user m) d = None)
      (_ : mb_revoked m = None) (_ : mb_granted_by m = Some by_)
      (_ : may_grant (mb_role m) by_ d \/ exists i x, invitations d !! i = Some x /\ in_role x = mb_role m /\ in_issued_by x = by_)
      (_ : d' = with_memberships (<[mid := m]> (memberships d)) d)
  | step_revoke mid m at_ by_ reason (_ : memberships d !! mid = Some m) (_ : mb_live m = true)
      (_ : mb_role m = RoleOwner -> exists mid' m', mid' <> mid /\ memberships d !! mid' = Some m' /\ is_live_owner m' = true)
      (_ : d' = with_memberships (<[mid := set_mb_revoked at_ by_ reason m]> (memberships d)) d)
  | step_invite iid x (_ : invitations d !! iid = None) (_ : in_open x = true)
      (_ : forall i y, invitations d !! i = Some y -> in_token_hash y <> in_token_hash x)
      (_ : may_grant (in_role x) (in_issued_by x) d) (_ : d' = with_invitations (<[iid := x]> (invitations d)) d)
  | step_consume iid x at_ uid (_ : invitations d !! iid = Some x) (_ : in_open x = true)
      (_ : forall i y, invitations d !! i = Some y -> i <> iid -> snd <$> in_consumed y <> Some uid)
      (_ : d' = with_invitations (<[iid := set_consumed at_ uid x]> (invitations d)) d)
  | step_withdraw iid x at_ by_ (_ : invitations d !! iid = Some x) (_ : in_open x = true)
      (_ : d' = with_invitations (<[iid := set_in_revoked at_ by_ x]> (invitations d)) d)
  | step_session sid x (_ : id_sessions d !! sid = None)
      (_ : forall i y, id_sessions d !! i = Some y -> se_token_hash y <> se_token_hash x)
      (_ : d' = with_id_sessions (<[sid := x]> (id_sessions d)) d)
  | step_sessions m' (_ : forall k, option_Forall2 session_kept (id_sessions d !! k) (m' !! k))
      (_ : d' = with_id_sessions m' d)
  | step_audit e (_ : d' = with_id_audit (id_audit d ++ [e]) d).

Definition id_steps : IdDB -> IdDB -> Prop := rtc id_step.
#[export] Instance id_steps_po : PreOrder id_steps := rtc_po.
#[export] Hint Resolve id_steps_po : keeps.

Lemma id_step_history d d' : id_step d d' -> history d d'.
Proof.
  destruct 1; subst d'; split; cbn; auto with history; try (apply rows_kept_insert; [by auto with history|intros z Hz]);
    try congruence.
  - naive_solver.
  - simplify_eq. unfold mb_live in *. bool_prop. split; [done..|]. intros Hr. congruence.
  - simplify_eq. unfold in_open in *. bool_prop. split; [done|intros; congruence|done].
  - simplify_eq. unfold in_open in *. bool_prop. split; [done|done|intros; congruence].
  - intros k x Hk. match goal with Hf : forall k, option_Forall2 _ _ _ |- _ => pose proof (Hf k) as Hk' end.
    rewrite Hk in Hk'. inversion Hk'; subst. eauto.
  - by exists [e].
Qed.

Lemma id_steps_history d d' : id_steps d d' -> history d d'.
Proof. induction 1 as [|x y z Hxy _ IH]; [done|]. etrans; [by apply id_step_history|done]. Qed.

(** ** What always holds *)
Record id_ok (d : IdDB) : Prop := {
  ok_roles : forall i j x y, memberships d !! i = Some x -> memberships d !! j = Some y ->
    mb_live x = true -> mb_live y = true -> mb_user x = mb_user y -> i = j;
  ok_tokens : forall i j x y, id_sessions d !! i = Some x -> id_sessions d !! j = Some y ->
    se_token_hash x = se_token_hash y -> i = j;
  ok_invitations : forall i j x y, invitations d !! i = Some x -> invitations d !! j = Some y ->
    in_token_hash x = in_token_hash y -> i = j;
  ok_consumers : forall i j x y u, invitations d !! i = Some x -> invitations d !! j = Some y ->
    snd <$> in_consumed x = Some u -> snd <$> in_consumed y = Some u -> i = j
}.

Lemma active_membership_None u d i m :
  active_membership u d = None -> memberships d !! i = Some m -> mb_user m = u -> mb_live m = false.
Proof.
  intros Hn Hi Hu. apply (find_row_None _ _ _ _ Hn) in Hi. rewrite (bool_decide_true _ Hu) in Hi. done.
Qed.

(** Two rows of a table in which one row was written: the old rows, or that
    one and another. *)
Ltac two_rows :=
  intros ? ? ? ? [[<- <-]|[? ?]]%lookup_insert_Some [[<- <-]|[? ?]]%lookup_insert_Some.

Lemma id_step_ok d d' : id_step d d' -> id_ok d -> id_ok d'.
Proof.
  intros Hs [Hr Ht Hi Hc]. destruct Hs as [| | |mid m by_ Hm Ha Hn|mid m at_ by_ reason Hm Hl|iid x Hx Ho Hf|iid x at_ uid Hx Ho Hu
    |iid x at_ by_ Hx Ho|sid x Hx Hf|m' Hk|]; subst d'; split; cbn; try done.
  - two_rows; intros Hy Hz Hyz; [done| | |by eapply Hr]; exfalso.
    + apply not_false_iff_true in Hz. eapply Hz, active_membership_None; eauto.
    + apply not_false_iff_true in Hy. eapply Hy, active_membership_None; eauto.
  - two_rows; intros Hy Hz Hyz; [done|discriminate Hy|discriminate Hz|by eapply Hr].
  - two_rows; intros Hyz; [done| | |by eapply Hi]; exfalso; by eapply Hf.
  - assert (Hnone : in_consumed x = None) by (unfold in_open in Ho; by bool_prop).
    intros ? ? ? ? u [[<- <-]|[? ?]]%lookup_insert_Some [[<- <-]|[? ?]]%lookup_insert_Some; [done|by rewrite Hnone..|by eapply Hc].
  - two_rows; cbn; intros Hyz; [done| | |by eapply Hi]; by eapply Hi.
  - intros ? ? ? ? u [[<- <-]|[? ?]]%lookup_insert_Some [[<- <-]|[? ?]]%lookup_insert_Some; cbn; intros Hy Hz;
      [done| | |by eapply Hc]; exfalso; simplify_eq; by eapply Hu.
  - two_rows; cbn; intros Hyz; [done| | |by eapply Hi]; by eapply Hi.
  - intros ? ? ? ? u [[<- <-]|[? ?]]%lookup_insert_Some [[<- <-]|[? ?]]%lookup_insert_Some; cbn; intros Hy Hz;
      [done| | |by eapply Hc]; by eapply Hc.
  - two_rows; intros Hyz; [done| | |by eapply Ht]; exfalso; by eapply Hf.
  - intros i j y z Hy Hz Hyz. pose proof (Hk i) as Hki. pose proof (Hk j) as Hkj. rewrite Hy in Hki. rewrite Hz in Hkj.
    inversion Hki as [y' ? [(_ & Hy' & _) _] Ey|]. inversion Hkj as [z' ? [(_ & Hz' & _) _] Ez|]. subst. eapply Ht; [done..|congruence].
Qed.

Lemma id_steps_ok d d' : id_steps d d' -> id_ok d -> id_ok d'.
Proof. induction 1 as [|x y z Hxy _ IH]; [done|]. intros Hd. by eapply IH, id_step_ok. Qed.

(** *** Somebody owns the book *)
Definition has_owner (d : IdDB) : Prop := exists mid m, memberships d !! mid = Some m /\ is_live_owner m = true.

Lemma id_step_owner d d' : id_step d d' -> has_owner d -> has_owner d'.
Proof.
  intros Hs (k & o & Hk & Ho). destruct Hs as [| | |mid m by_ Hm Ha Hn|mid m at_ by_ reason Hm Hl Hother| | | | | |]; subst d';
    try (by exists k, o).
  - exists k, o. split; [|done]. cbn. rewrite lookup_insert_ne; [done|]. intros ->. congruence.
  - destruct (decide (mid = k)) as [->|Hne].
    + rewrite Hm in Hk. injection Hk as <-. destruct Hother as (mid' & m' & Hmid & Hm' & Hlo).
      { unfold is_live_owner in Ho. by bool_prop. }
      exists mid', m'. split; [|done]. cbn. by rewrite lookup_insert_ne.
    + exists k, o. split; [|done]. cbn. by rewrite lookup_insert_ne.
Qed.

Lemma id_steps_owner d d' : id_steps d d' -> has_owner d -> has_owner d'.
Proof. induction 1 as [|x y z Hxy _ IH]; [done|]. intros Hd. by eapply IH, id_step_owner. Qed.

(** *** Roles come from owners *)

(** Every role above a member's, held or offered, was given by somebody who
    was an owner; [d0] is where the account starts. *)
Record vouched (d0 d : IdDB) : Prop := {
  vo_memberships : forall mid m, memberships d !! mid = Some m -> memberships d0 !! mid = None ->
    exists by_, mb_granted_by m = Some by_ /\ may_grant (mb_role m) by_ d;
  vo_invitations : forall i x, invitations d !! i = Some x -> may_grant (in_role x) (in_issued_by x) d
}.

Lemma owner_once_history u d d' : history d d' -> owner_once u d -> owner_once u d'.
Proof.
  intros Hh (mid & m & Hm & Hu & Ho). apply (hi_memberships _ _ Hh) in Hm as (m' & Hm' & [Hu' Hr' _ _]).
  exists mid, m'. split_and!; congruence.
Qed.
Lemma may_grant_history r u d d' : history d d' -> may_grant r u d -> may_grant r u d'.
Proof. intros Hh [->|Ho]; [by left|right]. by eapply owner_once_history. Qed.

Lemma id_step_vouched d0 d d' : id_step d d' -> vouched d0 d -> vouched d0 d'.
Proof.
  intros Hs [Hm Hi]. pose proof (id_step_history d d' Hs) as Hh.
  assert (Hinv : forall i x, invitations d !! i = Some x -> may_grant (in_role x) (in_issued_by x) d').
  { intros i x Hx. by eapply may_grant_history, Hi. }
  assert (Hmem : forall mid m, memberships d !! mid = Some m -> memberships d0 !! mid = None ->
    exists by_, mb_granted_by m = Some by_ /\ may_grant (mb_role m) by_ d').
  { intros mid m Hx Hnew. destruct (Hm mid m Hx Hnew) as (by_ & Hb & Hg). exists by_. split; [done|]. by eapply may_grant_history. }
  destruct Hs as [| | |mid m by_ Hx Ha Hn Hb Hg|mid m at_ by_ reason Hx Hl Hother|iid x Hx Ho Hf Hg|iid x at_ uid Hx|iid x at_ by_ Hx| | |];
    subst d'; split; cbn [memberships invitations with_memberships with_invitations with_id_users with_identities with_id_sessions
      with_id_audit]; try done.
  - intros mid' m' [[<- <-]|[? ?]]%lookup_insert_Some Hnew; [|by eapply Hmem]. exists by_. split; [done|].
    destruct Hg as [Hg|(i & x & Hix & <- & <-)]; [by eapply may_grant_history|by eapply Hinv].
  - intros mid' m' [[<- <-]|[? ?]]%lookup_insert_Some Hnew; [|by eapply Hmem]. by eapply (Hmem mid m).
  - intros i y [[<- <-]|[? ?]]%lookup_insert_Some; [by eapply may_grant_history|by eapply Hinv].
  - intros i y [[<- <-]|[? ?]]%lookup_insert_Some; [by eapply (Hinv iid x)|by eapply Hinv].
  - intros i y [[<- <-]|[? ?]]%lookup_insert_Some; [by eapply (Hinv iid x)|by eapply Hinv].
Qed.

Lemma id_steps_vouched d0 d d' : id_steps d d' -> vouched d0 d -> vouched d0 d'.
Proof. induction 1 as [|x y z Hxy _ IH]; [done|]. intros Hd. by eapply IH, id_step_vouched. Qed.

(** ** Operations are steps *)
Section operations.
Context {E : environment}.
Context (pg_lower go_lower : string -> string) (equal_fold : string -> string -> bool).
Context (sha256 : list ascii -> Digest) (random32 : nat -> option (list ascii)).
Implicit Types (st : IdStore) (d : IdDB).

#[local] Abbreviation keeps := (Keeping.keeps id_steps).
#[local] Abbreviation stepping := (Keeping.stepping id_steps).
#[local] Abbreviation keeps_at := (Keeping.keeps_at id_steps).
#[local] Abbreviation keeps_at_statement_bind := (Keeping.keeps_at_statement_bind id_steps).
#[local] Abbreviation keeps_bind := (Keeping.keeps_bind id_steps).
#[local] Abbreviation stepping_then := (Keeping.stepping_then id_steps).
#[local] Abbreviation keeps_transaction := (Keeping.keeps_transaction id_steps).
#[local] Abbreviation keeps_statement := (Keeping.keeps_statement id_steps).
#[local] Abbreviation keeps_exec := (Keeping.keeps_exec id_steps).
#[local] Abbreviation keeps_exec_fun := (Keeping.keeps_exec_fun id_steps).

(** *** Statements *)
Lemma one_step d d' : id_step d d' -> id_steps d d'.
Proof. apply rtc_once. Qed.

Lemma alter_is_insert {K A} `{Countable K} (f : A -> A) (m : gmap K A) k x : m !! k = Some x -> alter f k m = <[k := f x]> m.
Proof.
  intros Hk. apply map_eq. intros k'. destruct (decide (k' = k)) as [->|].
  - by rewrite lookup_alter_eq, Hk, lookup_insert_eq.
  - by rewrite lookup_alter_ne, lookup_insert_ne.
Qed.

Lemma with_identities_same d : with_identities (identities d) d = d.
Proof. by destruct d. Qed.

Lemma alter_identity_steps at_ email key d :
  id_steps d (with_identities (alter (touch_identity at_ email) key (identities d)) d).
Proof.
  destruct (identities d !! key) as [i|] eqn:Ei.
  - apply one_step. eapply (step_link _ _ key (touch_identity at_ email i)).
    + intros j Hj. rewrite Hj in Ei. by injection Ei as ->.
    + f_equal. by apply alter_is_insert.
  - rewrite alter_id'; [by rewrite with_identities_same|done].
Qed.

Lemma link_identity_steps at_ uid who d d' b : link_identity at_ uid who d = Ok (d', b) -> id_steps d d'.
Proof.
  unfold link_identity. destruct (identities d !! _) as [i|] eqn:Ei.
  - case_bool_decide; intros [= <- _]; [|done]. apply one_step. eapply step_link; [|done]. intros j Hj.
    by injection (eq_trans (eq_sym Ei) Hj) as ->.
  - intros [= <- _]. apply one_step. eapply step_link; [|done]. intros j Hj. discriminate (eq_trans (eq_sym Ei) Hj).
Qed.

Lemma insert_session_steps sid x d d' a : insert_session_row sid x d = Ok (d', a) -> id_steps d d'.
Proof.
  unfold insert_session_row. intros H. go_inv. simplify_eq. apply orb_false_iff in Hok as [Hs Ht]. bool_prop.
  apply one_step. eapply (step_session _ _ sid x); [by apply eq_None_not_Some| |done].
  intros i y Hy Heq. apply Ht. exists i, y. split; [done|]. by left.
Qed.

Lemma fmap_sessions_steps f d : (forall x, session_kept x (f x)) -> id_steps d (with_id_sessions (f <$> id_sessions d) d).
Proof.
  intros Hf. apply one_step. eapply step_sessions; [|done]. intros k. rewrite lookup_fmap.
  destruct (id_sessions d !! k); constructor. apply Hf.
Qed.
Lemma alter_session_steps f k d :
  (forall x, id_sessions d !! k = Some x -> session_kept x (f x)) ->
  id_steps d (with_id_sessions (alter f k (id_sessions d)) d).
Proof.
  intros Hf. apply one_step. eapply step_sessions; [|done]. intros k'. destruct (decide (k' = k)) as [->|].
  - rewrite lookup_alter_eq. destruct (id_sessions d !! k) eqn:Ek; constructor. by apply Hf.
  - rewrite lookup_alter_ne by done. destruct (id_sessions d !! k'); constructor. apply session_kept_refl.
Qed.

Lemma touch_session_kept now x : session_kept x (touch_session now x).
Proof. unfold touch_session. by destruct (_ <? _). Qed.
Lemma revoke_row_kept now reason x : se_live x = true -> session_kept x (revoke_row now reason x).
Proof. unfold se_live. intros H. bool_prop. by split. Qed.

Lemma update_user_steps f uid x d :
  id_users d !! uid = Some x -> user_kept x (f x) -> id_steps d (with_id_users (<[uid := f x]> (id_users d)) d).
Proof. intros Hx Hk. apply one_step. by eapply step_user. Qed.

Lemma insert_user_steps uid name email limit d d' a :
  insert_user pg_lower uid name email limit d = Ok (d', a) -> id_steps d d'.
Proof.
  unfold insert_user. intros H. go_inv. simplify_eq. apply orb_false_iff in Hok as [Hs _]. bool_prop.
  apply one_step. eapply step_new_user; [|done]. by apply eq_None_not_Some.
Qed.

Lemma insert_invitation_steps iid x d d' :
  insert_invitation iid x d = Ok d' -> in_open x = true -> may_grant (in_role x) (in_issued_by x) d -> id_steps d d'.
Proof.
  unfold insert_invitation. intros H Ho Hg. go_inv. simplify_eq. apply orb_false_iff in Hok as [Hs Ht]. bool_prop.
  apply one_step. eapply (step_invite _ _ iid x); [by apply eq_None_not_Some|done| |done..].
  intros i y Hy Heq. apply Ht. by exists i, y.
Qed.

Lemma insert_membership_steps mid m by_ d d' :
  insert_membership mid m d = Ok d' -> mb_revoked m = None -> mb_granted_by m = Some by_ ->
  may_grant (mb_role m) by_ d \/ (exists i x, invitations d !! i = Some x /\ in_role x = mb_role m /\ in_issued_by x = by_) ->
  id_steps d d'.
Proof.
  unfold insert_membership. intros H Hr Hb Hg. go_inv. simplify_eq. apply orb_false_iff in Hok as [Hs Ha]. bool_prop.
  apply one_step. eapply (step_grant _ _ mid m by_); try done; by apply eq_None_not_Some.
Qed.

Lemma consume_row_steps at_ iid uid x d d' :
  consume_row at_ iid uid d = Ok d' -> invitations d !! iid = Some x -> in_open x = true -> id_steps d d'.
Proof.
  unfold consume_row. intros H Hx Ho. go_inv. simplify_eq. bool_prop. apply one_step.
  eapply (step_consume _ _ iid x at_ uid Hx Ho).
  - intros i y Hy Hne Hu. apply Hok. exists i, y. done.
  - f_equal. by apply alter_is_insert.
Qed.

Lemma audit_steps e d : id_steps d (with_id_audit (id_audit d ++ [e]) d).
Proof. apply one_step. by eapply step_audit. Qed.

(** *** Guards *)
#[local] Abbreviation owner_now u d := (exists mid m, active_membership u d = Some (mid, m) /\ mb_role m = RoleOwner).

Lemma active_membership_Some u d mid m :
  active_membership u d = Some (mid, m) -> memberships d !! mid = Some m /\ mb_user m = u /\ mb_live m = true.
Proof. intros [Hm Hp]%find_row_Some. apply andb_prop in Hp as [Hu Hl]. by bool_prop. Qed.

Lemma owner_now_once u d : owner_now u d -> owner_once u d.
Proof. intros (mid & m & (Hm & Hu & _)%active_membership_Some & Hr). by exists mid, m. Qed.

Lemma activeRole_run u s s' r :
  activeRole u s = (s', Ok r) ->
  db s' = db s /\ exists c mid m, uuid_cast u = Some c /\ active_membership c (db s) = Some (mid, m) /\ mb_role m = r.
Proof.
  unfold activeRole. intros H. run_inv. go_inv. apply cast_Ok in Hok. simplify_eq. split; [congruence|eauto 8].
Qed.
Lemma keeps_activeRole u : keeps (activeRole u).
Proof. unfold activeRole. keeps. Qed.

Lemma requireOwnerTx_run u s s' r :
  requireOwnerTx u s = (s', Ok r) -> db s' = db s /\ exists c, uuid_cast u = Some c /\ owner_now c (db s).
Proof.
  unfold requireOwnerTx. intros H. run_inv. go_inv. apply cast_Ok in Hok. bool_prop. simplify_eq.
  split; [congruence|eauto 8].
Qed.

Lemma load_target_run u s s' mid m :
  load_target u s = (s', Ok (mid, m)) -> db s' = db s /\ exists c, uuid_cast u = Some c /\ active_membership c (db s) = Some (mid, m).
Proof. unfold load_target. intros H. run_inv. go_inv. apply cast_Ok in Hok. simplify_eq. split; [congruence|eauto]. Qed.

Lemma another_owner d mid m :
  memberships d !! mid = Some m -> 1 < owners d ->
  exists mid' m', mid' <> mid /\ memberships d !! mid' = Some m' /\ is_live_owner m' = true.
Proof.
  intros Hm Hn. destruct (decide (map_Exists (fun k x => k <> mid /\ is_live_owner x = true) (memberships d)))
    as [(k & x & Hk & Hne & Hx)|Hnone]; [by exists k, x|exfalso].
  assert (Hperm : map_to_list (memberships d) ≡ₚ (mid, m) :: map_to_list (delete mid (memberships d))).
  { rewrite <- map_to_list_insert by apply lookup_delete_eq. by rewrite insert_delete_id. }
  unfold owners in Hn. apply (fmap_Permutation snd) in Hperm. cbn in Hperm.
  assert (Hrest : List.filter is_live_owner (map_to_list (delete mid (memberships d))).*2 = []).
  { apply elem_of_nil_inv. intros x [([k y] & -> & Hk)%list_elem_of_fmap Hx]%filter_bool_elem.
    apply elem_of_map_to_list, lookup_delete_Some in Hk as [Hne Hk]. apply Hnone. by exists k, y. }
  rewrite (Permutation_length (filter_bool_perm is_live_owner _ _ Hperm)) in Hn. cbn in Hn. rewrite Hrest in Hn.
  destruct (is_live_owner m); cbn in Hn; lia.
Qed.

Lemma keep_an_owner_run msg mid m s s' u :
  keep_an_owner msg m s = (s', Ok u) -> memberships (db s) !! mid = Some m ->
  db s' = db s /\ (mb_role m = RoleOwner ->
    exists mid' m', mid' <> mid /\ memberships (db s) !! mid' = Some m' /\ is_live_owner m' = true).
Proof.
  unfold keep_an_owner. intros H Hm. run_inv; bool_prop; simplify_eq; (split; [congruence|]).
  - intros _. eapply another_owner; [done|]. lia.
  - done.
Qed.

(** *** Operations *)
Ltac run_inv_hook ::=
  match goal with
  | H : tx_now _ = (_, Ok _) |- _ => apply tx_now_run in H; subst
  | H : attempt _ _ = (_, Ok _) |- _ => apply attempt_run in H
  end.

Lemma keeps_audit wrap a action t reason before after : keeps (id_insert_audit wrap a action t reason before after).
Proof. unfold id_insert_audit. apply keeps_exec. intros d d' H. go_inv. simplify_eq. apply audit_steps. Qed.

Lemma keeps_link wrap at_ uid who : keeps (statement wrap (fun _ d => link_identity at_ uid who d)).
Proof. apply keeps_statement. intros n d d' a. apply link_identity_steps. Qed.

Lemma keeps_resolveApprovedIdentity at_ v : keeps (resolveApprovedIdentity pg_lower at_ v).
Proof.
  unfold resolveApprovedIdentity. keeps; [|apply keeps_link].
  apply keeps_exec_fun. intros d. apply alter_identity_steps.
Qed.

Lemma keeps_insertSession uid draft from : keeps (insertSession uid draft from).
Proof. apply keeps_statement. intros n d d' a. apply insert_session_steps. Qed.

Lemma keeps_update_user wrap t f : (forall x, user_kept x (f x)) -> keeps (update_user wrap t f).
Proof.
  intros Hf. unfold update_user. keeps. apply keeps_statement. intros n d d' a H. destruct (cast t) as [u|]; [|discriminate H]. cbn in H.
  destruct (id_users d !! u) as [x|] eqn:Ex; simplify_eq; [|done]. by apply (update_user_steps f u x d Ex).
Qed.
#[local] Hint Resolve keeps_audit keeps_link keeps_resolveApprovedIdentity keeps_insertSession keeps_activeRole : keeps.

Lemma keeps_invited_user v limit : keeps (invited_user pg_lower go_lower v limit).
Proof. unfold invited_user. keeps. apply keeps_statement. intros n d d' a. apply insert_user_steps. Qed.

Lemma invited_user_invitations v limit s s' uid :
  invited_user pg_lower go_lower v limit s = (s', Ok uid) -> invitations (db s') = invitations (db s).
Proof.
  unfold invited_user. intros H. run_inv; simplify_eq; try congruence.
  apply statement_run in H as (n & H). unfold insert_user in H. go_inv. simplify_eq. rewrite <- H. cbn. congruence.
Qed.

(** Granting a membership changes only the memberships. *)
Lemma grant_run wrap at_ u role b s s' r :
  grant_membership wrap at_ u role b s = (s', Ok r) ->
  exists n u' b', u = Ok u' /\ b = Ok b'
    /\ insert_membership (gen_uuid n) (mkMembershipRow u' role (Some b') at_ None) (db s) = Ok (db s').
Proof. unfold grant_membership. intros (n & H)%statement_run. go_inv. simplify_eq. eauto 8. Qed.

Lemma insert_membership_invitations mid m d d' : insert_membership mid m d = Ok d' -> invitations d' = invitations d.
Proof. unfold insert_membership. intros H. go_inv. by simplify_eq. Qed.

Lemma stepping_consumeInvitation at_ v raw limit :
  stepping (consumeInvitation pg_lower go_lower equal_fold sha256 at_ v raw limit).
Proof.
  intros s s' p H. unfold consumeInvitation in H. run_inv_step; [by apply failing_run in H|].
  do 2 run_inv_step.
  destruct a as [[iid inv]|]; [|by apply failing_run in H]. injection H1 as H1.
  apply find_row_Some in H1 as [Hinv Hp]. apply andb_prop in Hp as [[_ Ho]%andb_prop _].
  destruct (match in_email inv with Some _ => _ | None => _ end); [by apply failing_run in H|].
  apply bind_run in H as (uid & s2 & Huid & H). apply bind_run in H as (a1 & s3 & (n & u' & b' & [= <-] & [= <-] & Hg)%grant_run & H).
  apply bind_run in H as (a2 & s4 & Hcon%exec_run & H).
  pose proof (invited_user_invitations _ _ _ _ _ Huid) as Hiu. apply keeps_invited_user in Huid.
  assert (Hinv3 : invitations (db s3) = invitations (db s0)).
  { by rewrite (insert_membership_invitations _ _ _ _ Hg), Hiu. }
  assert (H34 : id_steps (db s4) (db s')).
  { assert (Hk : keeps (statement "link invited OIDC identity: %w" (fun _ d => link_identity at_ uid v d);;
        id_insert_audit "record invitation audit: %w" (Ok (in_issued_by inv)) "membership.invitation_consumed" (Ok uid)
          "accepted invite" [] [("role"%string, AString (role_text (in_role inv)))];;
        query "load invited principal: %w" (fun d => must_find (principal_of uid d)))) by keeps.
    by eapply Hk. }
  rewrite <- H0. etrans; [exact Huid|]. etrans; [|etrans; [|exact H34]].
  - eapply insert_membership_steps; [exact Hg|done..|]. right. exists iid, inv. by rewrite Hiu, H0.
  - eapply consume_row_steps; [exact Hcon| |exact Ho]. by rewrite Hinv3, H0.
Qed.

(** *** Session operations *)
#[local] Hint Resolve stepping_consumeInvitation : keeps.

Lemma keeps_withPrincipalTransaction st op : stepping op -> keeps (withPrincipalTransaction st op).
Proof. intros Hop. apply keeps_transaction, stepping_then; [done|]. intros. keeps. Qed.

Lemma keeps_CreateSessionForIdentity st v draft : keeps (Store_CreateSessionForIdentity pg_lower st v draft).
Proof. apply keeps_withPrincipalTransaction. keeps. Qed.

Lemma keeps_CreateSessionForInvitedIdentity st v draft token :
  keeps (Store_CreateSessionForInvitedIdentity pg_lower go_lower equal_fold sha256 st v draft token).
Proof.
  apply keeps_withPrincipalTransaction. keeps.
Qed.

Lemma keeps_UseSession st hash now : keeps (Store_UseSession st hash now).
Proof.
  unfold Store_UseSession. keeps. apply keeps_exec_fun. intros d. apply alter_session_steps. intros x _. apply touch_session_kept.
Qed.

Lemma live_session_Some hash now d sess p :
  live_session hash now d = Some (sess, p) ->
  exists x, id_sessions d !! Session_ID sess = Some x /\ se_live x = true /\ se_token_hash x = hash
    /\ nanos now < nanos (se_expires_at x) /\ sess = scan_session (Session_ID sess) x /\ principal_of (se_user x) d = Some p.
Proof.
  unfold live_session. intros H. destruct (find_row _ _) as [[sid x]|] eqn:Ef; [|done]. cbn in H.
  destruct (principal_of (se_user x) d) as [q|] eqn:Ep; [|done]. cbn in H. injection H as <- <-.
  apply find_row_Some in Ef as [Hx Hp]. apply andb_prop in Hp as [[Hh Hl]%andb_prop Ht]. bool_prop. exists x. cbn.
  split_and!; try done.
Qed.

Lemma keeps_RotateSession st hash draft now reason : keeps (Store_RotateSession st hash draft now reason).
Proof.
  apply keeps_withPrincipalTransaction. intros s s' r H.
  apply bind_run in H as (found & s1 & [Hd Hf]%query_run & H). destruct found as [[cur p]|]; [|by apply failing_run in H].
  injection Hf as (x & Hx & Hl & _)%live_session_Some.
  apply bind_run in H as (u & s2 & H2%exec_run & H). injection H2 as H2. rewrite <- Hd in Hx |- *.
  apply keeps_bind in H; [|by auto with keeps|intros; by keeps]. etrans; [|exact H].
  rewrite <- H2. apply alter_session_steps. intros y Hy.
  injection (eq_trans (eq_sym Hx) Hy) as <-. by apply revoke_row_kept.
Qed.

Lemma keeps_RevokeSession st hash now reason : keeps (Store_RevokeSession st hash now reason).
Proof.
  unfold Store_RevokeSession. keeps. apply keeps_statement. intros n d d' a H.
  destruct (find_row _ _); simplify_eq; [|done]. apply fmap_sessions_steps. intros x.
  destruct (is_live_token hash x) eqn:El; [|apply session_kept_refl]. apply andb_prop in El as [_ El].
  by apply revoke_row_kept.
Qed.

(** *** Membership operations *)

Lemma keeps_activeRole_bind {A} u (k : Role -> go A) :
  (forall d c mid m, uuid_cast u = Some c -> active_membership c d = Some (mid, m) -> keeps_at d (k (mb_role m))) ->
  keeps (activeRole u ≫= k).
Proof.
  intros Hk s s' r. unfold mbind, go_bind. destruct (activeRole u s) as [s1 [ar|e]] eqn:Ea.
  - apply activeRole_run in Ea as [Hd (c & mid & m & Hc & Hm & <-)]. intros H. by eapply Hk.
  - intros [= <- _]. by eapply keeps_activeRole.
Qed.
Lemma keeps_at_draw_bind d0 {A} (k : string -> go A) : (forall raw, keeps_at d0 (k raw)) -> keeps_at d0 (draw_token random32 ≫= k).
Proof.
  intros Hk s s' r <-. unfold mbind, go_bind, draw_token. destruct (random32 (tick s)); [|by intros [= <- _]].
  by apply Hk.
Qed.
Lemma keeps_IssueInvitation st actor role email ttl :
  keeps (IssueInvitation go_lower sha256 random32 st actor role email ttl).
Proof.
  unfold IssueInvitation. keeps_step; [by auto with keeps|].
  destruct (negb _ && negb _) eqn:Erole; [by auto with keeps|]. keeps_step; [by auto with keeps|].
  apply keeps_activeRole_bind. intros d c mid m Hc Hm.
  destruct (bool_decide (role = RoleAdmin) && _) eqn:Eadmin; [by auto with keeps|].
  destruct (negb (admin_or_owner _)); [by auto with keeps|].
  apply keeps_at_draw_bind. intros raw. apply keeps_at_statement_bind; [|by auto with keeps]. intros n d' a H.
  destruct (cast actor) as [b|] eqn:Eb; [|discriminate H]. apply cast_Ok in Eb. cbn in H. go_inv. simplify_eq.
  eapply insert_invitation_steps; [eassumption|done|]. cbn. unfold may_grant.
  destruct (decide (role = RoleMember)) as [->|Hne]; [by left|right].
  assert (role = RoleAdmin) as -> by (apply andb_false_iff in Erole as [He|He]; by bool_prop).
  apply owner_now_once. exists mid, m. split; [done|]. apply andb_false_iff in Eadmin as [He|He]; by bool_prop.
Qed.

Lemma keeps_RevokeInvitation st actor iid : keeps (RevokeInvitation st actor iid).
Proof.
  unfold RevokeInvitation. keeps. apply keeps_statement. intros n d d' b0 H.
  destruct (cast iid) as [i|]; [|discriminate H]. destruct (cast actor) as [b|]; [|discriminate H]. cbn in H.
  destruct (invitations d !! i) as [x|] eqn:Ex; [|by simplify_eq]. destruct (in_open x) eqn:Eo; simplify_eq; [|done].
  apply one_step. eapply step_withdraw; [exact Ex|done..].
Qed.

Lemma keeps_id_tx {A} st wrap (body : go (finish A)) : stepping body -> keeps (id_tx st wrap body).
Proof. apply keeps_transaction. Qed.

Lemma revoke_membership_steps wrap at_ mid actor reason m s s' u :
  revoke_membership wrap at_ mid actor reason s = (s', Ok u) -> memberships (db s) !! mid = Some m -> mb_live m = true ->
  (mb_role m = RoleOwner -> exists mid' m', mid' <> mid /\ memberships (db s) !! mid' = Some m' /\ is_live_owner m' = true) ->
  id_steps (db s) (db s').
Proof.
  intros H%exec_run Hm Hl Ho. destruct (cast actor) as [b|]; [|discriminate H]. injection H as <-. apply one_step.
  eapply (step_revoke _ _ mid m at_ b reason); [done..|]. f_equal. by apply alter_is_insert.
Qed.

(** The three guards both operations start with. *)
Lemma owner_acts_on_target actor target msg s s1 s2 s3 mid m u1 u3 :
  requireOwnerTx actor s = (s1, Ok u1) -> load_target target s1 = (s2, Ok (mid, m)) -> keep_an_owner msg m s2 = (s3, Ok u3) ->
  db s3 = db s /\ (exists c, uuid_cast actor = Some c /\ owner_now c (db s))
  /\ memberships (db s) !! mid = Some m /\ mb_live m = true
  /\ (mb_role m = RoleOwner -> exists mid' m', mid' <> mid /\ memberships (db s) !! mid' = Some m' /\ is_live_owner m' = true).
Proof.
  intros [E1 Hc]%requireOwnerTx_run [E2 (t & _ & (Hm & _ & Hl)%active_membership_Some)]%load_target_run H3.
  apply (keep_an_owner_run _ mid) in H3 as [E3 Ho]; [|congruence].
  rewrite E2 in E3, Ho. rewrite E1 in E3, Ho, Hm. done.
Qed.

Lemma keeps_ChangeMemberRole st actor target newRole reason : keeps (ChangeMemberRole st actor target newRole reason).
Proof.
  unfold ChangeMemberRole. do 3 (keeps_step; [by auto with keeps|]). apply keeps_id_tx.
  intros s s' r H. apply bind_run in H as (at_ & s0 & ->%tx_now_run & H).
  apply bind_run in H as (u1 & s1 & H1 & H). apply bind_run in H as ([mid m] & s2 & H2 & H).
  destruct (bool_decide _).
  { apply ret_run in H as [-> _]. apply requireOwnerTx_run in H1 as [<- _]. by apply load_target_run in H2 as [<- _]. }
  apply bind_run in H as (u3 & s3 & H3 & H).
  destruct (owner_acts_on_target _ _ _ _ _ _ _ _ _ _ _ H1 H2 H3) as (E3 & (c & Hc & Hco) & Hm & Hl & Ho).
  rewrite <- E3 in Hm, Ho, Hco |- *.
  apply bind_run in H as (u4 & s4 & H4 & H). pose proof (revoke_membership_steps _ _ _ _ _ _ _ _ _ H4 Hm Hl Ho) as H34.
  apply bind_run in H as (u5 & s5 & (n & t & b & Ht & Hb%cast_Ok & Hg)%grant_run & H). simplify_eq.
  apply keeps_bind in H; [|by auto with keeps|intros; by auto with keeps].
  etrans; [exact H34|]. etrans; [|exact H]. eapply insert_membership_steps; [exact Hg|done..|]. left.
  eapply may_grant_history; [by apply id_steps_history|]. right. by apply owner_now_once.
Qed.

Lemma keeps_RevokeMember st actor target reason : keeps (RevokeMember st actor target reason).
Proof.
  unfold RevokeMember. do 3 (keeps_step; [by auto with keeps|]). apply keeps_id_tx.
  intros s s' r H. apply bind_run in H as (at_ & s0 & ->%tx_now_run & H).
  apply bind_run in H as (u1 & s1 & H1 & H). apply bind_run in H as ([mid m] & s2 & H2 & H).
  apply bind_run in H as (u3 & s3 & H3 & H).
  destruct (owner_acts_on_target _ _ _ _ _ _ _ _ _ _ _ H1 H2 H3) as (E3 & _ & Hm & Hl & Ho).
  rewrite <- E3 in Hm, Ho |- *.
  apply bind_run in H as (u4 & s4 & H4 & H). pose proof (revoke_membership_steps _ _ _ _ _ _ _ _ _ H4 Hm Hl Ho) as H34.
  apply keeps_bind in H; [|by auto with keeps|intros; by auto with keeps]. by etrans.
Qed.

Lemma keeps_SetAutoApproveLimit st actor target cents : keeps (SetAutoApproveLimit st actor target cents).
Proof.
  unfold SetAutoApproveLimit. keeps. apply keeps_id_tx, stepping_then; [|intros; by keeps].
  by apply keeps_stepping, keeps_update_user.
Qed.
Lemma keeps_SetCreditLimit st actor target cents : keeps (SetCreditLimit st actor target cents).
Proof.
  unfold SetCreditLimit. keeps. apply keeps_id_tx, stepping_then; [|intros; by keeps].
  by apply keeps_stepping, keeps_update_user.
Qed.
Lemma keeps_ListMembers st : keeps (ListMembers st).
Proof. unfold ListMembers. keeps. Qed.
Lemma keeps_ListPendingInvitations st : keeps (ListPendingInvitations st).
Proof. unfold ListPendingInvitations. keeps. apply keeps_statement. by intros n d d' a [= <- _]. Qed.
End operations.
