(* ===== verification/IdentityRuns.v ===== *)
(** * Runs of the identity store

    The commands of the identity store in any order, and what no run of them
    can undo: owners remain, roles come from owners, an ended session stays
    ended; who may sign in, and whom an invitation admits. *)
From S2P Require Import Prelude GoStrings GoTime Float64 SQL Keeping Identity Base64 Session IdentityDB IdentityStore.

#[local] Abbreviation go := (SQL.go IdDB).

Lemma option_Forall2_Some_l {A B} (R : A -> B -> Prop) x my : option_Forall2 R (Some x) my -> exists y, my = Some y /\ R x y.
Proof. inversion 1; eauto. Qed.
Lemma option_Forall2_Some_r {A B} (R : A -> B -> Prop) mx y : option_Forall2 R mx (Some y) -> exists x, mx = Some x /\ R x y.
Proof. inversion 1; eauto. Qed.

Section runs.
Context {E : environment}.
Context (pg_lower go_lower : string -> string) (equal_fold : string -> string -> bool).
Context (sha256 : list ascii -> Digest) (random32 : nat -> option (list ascii)).
Implicit Types (st : IdStore) (d : IdDB).

(** ** Commands *)
Inductive id_command :=
  | ISignIn (who : VerifiedIdentity) (draft : SessionDraft)
  | IInvitedSignIn (who : VerifiedIdentity) (draft : SessionDraft) (inviteToken : string)
  | IUse (hash : Digest) (now : Time)
  | IRotate (hash : Digest) (draft : SessionDraft) (now : Time) (reason : string)
  | IRevokeSession (hash : Digest) (now : Time) (reason : string)
  | IInvite (actor : string) (role : Role) (email : string) (ttl : Z)
  | IWithdraw (actor invitation : string)
  | IListMembers
  | IListInvitations
  | IChangeRole (actor target : string) (role : Role) (reason : string)
  | IRevokeMember (actor target reason : string)
  | IAutoApprove (actor target : string) (cents : option Z)
  | ICredit (actor target : string) (cents : Z).

(** The tables after a command, whatever it returned. *)
Definition id_perform st (c : id_command) (s : session IdDB) : session IdDB :=
  match c with
  | ISignIn who draft => (Store_CreateSessionForIdentity pg_lower st who draft s).1
  | IInvitedSignIn who draft token =>
      (Store_CreateSessionForInvitedIdentity pg_lower go_lower equal_fold sha256 st who draft token s).1
  | IUse hash now => (Store_UseSession st hash now s).1
  | IRotate hash draft now reason => (Store_RotateSession st hash draft now reason s).1
  | IRevokeSession hash now reason => (Store_RevokeSession st hash now reason s).1
  | IInvite actor role email ttl => (IssueInvitation go_lower sha256 random32 st actor role email ttl s).1
  | IWithdraw actor iid => (RevokeInvitation st actor iid s).1
  | IListMembers => (ListMembers st s).1
  | IListInvitations => (ListPendingInvitations st s).1
  | IChangeRole actor target role reason => (ChangeMemberRole st actor target role reason s).1
  | IRevokeMember actor target reason => (RevokeMember st actor target reason s).1
  | IAutoApprove actor target cents => (SetAutoApproveLimit st actor target cents s).1
  | ICredit actor target cents => (SetCreditLimit st actor target cents s).1
  end.
Definition run_identity st (cs : list id_command) (s : session IdDB) : session IdDB :=
  foldl (fun s c => id_perform st c s) s cs.

Lemma id_perform_steps st c s : id_steps (db s) (db (id_perform st c s)).
Proof.
  destruct c; cbn; apply (keeps_fst id_steps);
    auto using keeps_CreateSessionForIdentity, keeps_CreateSessionForInvitedIdentity, keeps_UseSession, keeps_RotateSession,
      keeps_RevokeSession, keeps_IssueInvitation, keeps_RevokeInvitation, keeps_ListMembers, keeps_ListPendingInvitations,
      keeps_ChangeMemberRole, keeps_RevokeMember, keeps_SetAutoApproveLimit, keeps_SetCreditLimit.
Qed.

Lemma run_identity_steps st cs s : id_steps (db s) (db (run_identity st cs s)).
Proof.
  revert s. induction cs as [|c cs IH]; intros s; [done|]. cbn. etrans; [apply id_perform_steps|apply IH].
Qed.

(** ** Ended sessions *)
Definition ended (hash : Digest) d : Prop :=
  (exists sid x, id_sessions d !! sid = Some x /\ se_token_hash x = hash)
  /\ forall sid x, id_sessions d !! sid = Some x -> se_token_hash x = hash -> se_live x = false.

Lemma id_step_ended hash d d' : id_step d d' -> ended hash d -> ended hash d'.
Proof.
  intros Hs [(k & y & Hk & Hy) Hall]. destruct Hs as [| | | | | | | |sid x Hsid Hf|m' Hm|]; subst d';
    try by (split; [by exists k, y|exact Hall]).
  - split.
    + exists k, y. split; [|done]. cbn. rewrite lookup_insert_ne; [done|]. intros ->. congruence.
    + cbn. intros i z [[<- <-]|[_ Hi]]%lookup_insert_Some Hz; [|by eapply Hall]. exfalso. apply (Hf k y Hk). congruence.
  - split; cbn.
    + pose proof (Hm k) as Hmk. rewrite Hk in Hmk. apply option_Forall2_Some_l in Hmk as (z & Hz & [(_ & Hh & _) _]).
      exists k, z. split; congruence.
    + intros i z Hi Hz. pose proof (Hm i) as Hmi. rewrite Hi in Hmi. apply option_Forall2_Some_r in Hmi as (w & Hw & [(_ & Hh & _) Hr]).
      assert (Hl : se_live w = false) by (apply (Hall i w Hw); congruence). unfold se_live in *. bool_prop.
      apply bool_decide_eq_false. by rewrite (Hr Hl).
Qed.
Lemma id_steps_ended hash d d' : id_steps d d' -> ended hash d -> ended hash d'.
Proof. induction 1 as [|x y z Hxy _ IH]; [done|]. intros Hd. by eapply IH, id_step_ended. Qed.

Lemma ended_not_live hash now d : ended hash d -> live_session hash now d = None.
Proof.
  intros [_ Hall]. unfold live_session. destruct (find_row _ _) as [[sid x]|] eqn:Ef; [|done].
  apply find_row_Some in Ef as [Hx Hp]. apply andb_prop in Hp as [[Hh Hl]%andb_prop _]. bool_prop.
  by rewrite (Hall sid x Hx Hh) in Hl.
Qed.

Lemma RevokeSession_ends st hash now reason s s' u : Store_RevokeSession st hash now reason s = (s', Ok u) -> ended hash (db s').
Proof.
  unfold Store_RevokeSession. destruct (HasPool st); cbn [negb]; [|by intros ?%failing_run].
  intros (changed & s1 & (n & H1)%statement_run & H)%bind_run. destruct changed; [|by apply failing_run in H].
  apply ret_run in H as [-> _]. destruct (find_row _ _) as [[sid x]|] eqn:Ef; [|done]. injection H1 as H1. rewrite <- H1.
  apply find_row_Some in Ef as [Hx [Hh Hl]%andb_prop]. split; cbn.
  - exists sid, (if is_live_token hash x then revoke_row (timestamptz now) reason x else x). rewrite lookup_fmap, Hx.
    split; [done|]. bool_prop. by destruct (is_live_token hash x).
  - intros i z. rewrite lookup_fmap. destruct (id_sessions (db s) !! i) as [w|]; [|done]. cbn. intros [= <-].
    destruct (is_live_token hash w) eqn:Ew; [done|]. intros Hw. unfold is_live_token in Ew. by rewrite bool_decide_true in Ew.
Qed.

Lemma withPrincipalTransaction_cases st op s s' r :
  withPrincipalTransaction st op s = (s', r) ->
  (is_Ok r = false /\ db s' = db s)
  \/ exists s0 s1 a, db s0 = db s /\ op s0 = (s1, Ok a) /\ db s' = db s1 /\ (r = Ok a \/ is_Ok r = false).
Proof.
  intros [[[e ->] ->]|[(s0 & s1 & a & _ & H & _)|(s0 & s1 & w & a & Hd & H & -> & Hr & _)]]%transaction_cases; [by left|..];
    apply bind_run in H as (a' & s2 & H & [-> Ha]%ret_run); [done|]. injection Ha as -> ->. right.
  exists s0, s2, a'. split_and!; [done..|]. destruct Hr as [->|(e & -> & _)]; auto.
Qed.
Lemma withPrincipalTransaction_run st op s s' r :
  withPrincipalTransaction st op s = (s', Ok r) -> exists s0 s1, db s0 = db s /\ op s0 = (s1, Ok r) /\ db s' = db s1.
Proof.
  intros [(s0 & s1 & _ & _ & Hb)|(s0 & s1 & wrap & Hd & Hb & ->)]%transaction_Ok.
  - apply bind_run in Hb as (q & s2 & _ & Hb). by apply ret_run in Hb as [_ ?].
  - apply bind_run in Hb as (q & s2 & Hop & [-> Hq]%ret_run). injection Hq as _ ->. eauto.
Qed.

Lemma RotateSession_ends st hash draft now reason s s' r :
  id_ok (db s) -> Store_RotateSession st hash draft now reason s = (s', Ok r) -> ended hash (db s').
Proof.
  intros Hok (s0 & s2 & Hd & Hop & ->)%withPrincipalTransaction_run.
  apply bind_run in Hop as (found & s3 & [E3 Hf]%query_run & H). destruct found as [[cur p]|]; [|by apply failing_run in H].
  injection Hf as (x & Hx & Hl & Hh & _)%live_session_Some.
  apply bind_run in H as (u & s4 & H4%exec_run & H). injection H4 as H4.
  assert (Hi : id_steps (db s4) (db s2)) by (apply (keeps_bind id_steps) in H; [done|apply keeps_insertSession|intros; auto with keeps]).
  eapply id_steps_ended; [exact Hi|]. rewrite <- H4, E3, Hd in *. unfold ID in *. split; cbn.
  - exists (Session_ID cur), (revoke_row (timestamptz now) reason x). by rewrite lookup_alter_eq, Hx.
  - intros i z Hz Hzh. destruct (decide (i = Session_ID cur)) as [->|Hne].
    + rewrite lookup_alter_eq, Hx in Hz. by injection Hz as <-.
    + rewrite lookup_alter_ne in Hz by done. exfalso. apply Hne. eapply (ok_tokens _ Hok); [exact Hz|exact Hx|congruence].
Qed.

(** ** Theorems *)

(** C20. An ended session stays ended.  Once a bearer secret has been revoked, or
    exchanged for a new one by a rotation, no sequence of operations of the
    store, with whichever statements failing, makes it usable again: [Resume]
    with it fails ever after, at every time. *)
Theorem ended_sessions_never_resume st unicode_lower ParseAddress lifetime now reads raw reason before after later s s' :
  let store := pg_sessions pg_lower go_lower equal_fold sha256 st in
  id_ok (db s) ->
  (Revoke (H := store) sha256 now raw reason (run_identity st before s) = (s', Ok ())
   \/ exists issued, Rotate (H := store) unicode_lower ParseAddress sha256 lifetime now reads raw reason (run_identity st before s)
                     = (s', Ok issued)) ->
  is_Ok (Resume (H := store) unicode_lower ParseAddress sha256 later raw (run_identity st after s')).2 = false.
Proof.
  cbv zeta. intros Hok Hend. pose proof (id_steps_ok _ _ (run_identity_steps st before s) Hok) as Hok'.
  assert (He : ended (HashSessionToken sha256 raw) (db s')).
  { destruct Hend as [H|[issued H]]; unfold Revoke, Rotate in H; destruct (ParseSecret raw) as [t|] eqn:Ep; try done;
      apply ParseSecret_spec in Ep as [-> _]; cbv zeta in H; case_bool_decide; try done.
    - by apply RevokeSession_ends in H.
    - destruct (newDraft _ _ _ _) as [[[token csrf] draft]|]; [|done]. cbn in H.
      destruct (Store_RotateSession _ _ _ _ _ _) as [s1 [q|e]] eqn:Er; [|done]. injection H as <- _.
      by eapply RotateSession_ends. }
  apply (id_steps_ended _ _ _ (run_identity_steps st after s')) in He.
  unfold Resume. destruct (ParseSecret raw) as [t|] eqn:Ep; [|done]. apply ParseSecret_spec in Ep as [-> _]. cbn.
  destruct (Store_UseSession _ _ _ _) as [s1 [q|e]] eqn:Eu; [|done]. exfalso.
  unfold Store_UseSession in Eu. destruct (HasPool st); cbn [negb] in Eu; [|by apply failing_run in Eu].
  apply bind_run in Eu as (found & s2 & [E2 Hf]%query_run & H). rewrite (ended_not_live _ _ _ He) in Hf. injection Hf as <-.
  by apply failing_run in H.
Qed.

(** Nothing recorded about members is rewritten.  Over any run of the
    store, with whichever statements failing, every user, linked identity,
    membership, invitation and session is still there with the terms it was
    created with (a user's limits, an identity's latest email and a session's
    last use aside), what was revoked or consumed stays so with its time, actor
    and reason, and the audit trail is only appended to. *)
Theorem identity_history_is_append_only st cs s : history (db s) (db (run_identity st cs s)).
Proof. apply id_steps_history, run_identity_steps. Qed.

(** C21. The book always has an owner, and everybody at most one role.  Over any
    run of the store from a state with a live owner, one remains; no user has
    two live memberships, no two sessions or invitations share a secret, and no
    user has consumed two invitations. *)
Theorem owners_always_remain st cs s :
  id_ok (db s) -> has_owner (db s) -> id_ok (db (run_identity st cs s)) /\ has_owner (db (run_identity st cs s)).
Proof.
  pose proof (run_identity_steps st cs s) as Hs. intros Hok Ho.
  split; [by eapply id_steps_ok|by eapply id_steps_owner].
Qed.

(** C22. Authority comes from owners.  Over any run of the store from a state
    whose invitations to more than membership were all issued by owners, every
    membership the run granted above that of a member was granted by a user who
    is or has been an owner, directly or by the invitation that was redeemed:
    administrators cannot make administrators. *)
Theorem authority_comes_from_owners st cs s mid m :
  (forall i x, invitations (db s) !! i = Some x -> may_grant (in_role x) (in_issued_by x) (db s)) ->
  memberships (db (run_identity st cs s)) !! mid = Some m -> memberships (db s) !! mid = None -> mb_role m <> RoleMember ->
  exists by_, mb_granted_by m = Some by_ /\ owner_once by_ (db (run_identity st cs s)).
Proof.
  intros Hi Hm Hnew Hr.
  assert (Hv : vouched (db s) (db s)) by (split; [congruence|done]).
  apply (id_steps_vouched _ _ _ (run_identity_steps st cs s)) in Hv.
  destruct (vo_memberships _ _ Hv mid m Hm Hnew) as (by_ & Hb & [?|Ho]); [done|by exists by_].
Qed.

(** ** Signing in *)

Lemma principal_of_id uid d p : principal_of uid d = Some p -> User_ID (Principal_User p) = uid.
Proof.
  unfold principal_of. destruct (id_users d !! uid) as [u|]; [|done]. cbn. destruct (active_membership uid d) as [[mid m]|]; [|done].
  cbn. case_bool_decide; [|done]. by intros [= <-].
Qed.
Lemma principal_of_tables uid d d' :
  id_users d' = id_users d -> memberships d' = memberships d -> principal_of uid d' = principal_of uid d.
Proof. intros Hu Hm. unfold principal_of, active_membership. by rewrite Hu, Hm. Qed.

(** Whom an identity signs in as: the active member it is linked to or, while
    it is linked to nobody, the active member with its email. *)
Definition admitted (who : VerifiedIdentity) d : option Principal :=
  match principal_by_identity (VI_Provider who) (VI_Subject who) d with
  | Some p => Some p
  | None => if bool_decide (identities d !! (VI_Provider who, VI_Subject who) = None)
            then principal_by_email pg_lower (VI_Email who) d else None
  end.

Lemma admitted_principal who d p : admitted who d = Some p -> principal_of (User_ID (Principal_User p)) d = Some p.
Proof.
  unfold admitted. destruct (principal_by_identity _ _ d) as [q|] eqn:Ei.
  - intros [= ->]. unfold principal_by_identity in Ei. destruct (identities d !! _) as [i|]; [|done]. cbn in Ei.
    by rewrite (principal_of_id _ _ _ Ei).
  - case_bool_decide; [|done]. unfold principal_by_email. destruct (user_by_email _ _ d) as [[uid u]|]; [|done]. cbn.
    intros He. by rewrite (principal_of_id _ _ _ He).
Qed.

(** Resolving changes at most the linked identities. *)
Lemma resolveApprovedIdentity_run at_ who s s' p :
  resolveApprovedIdentity pg_lower at_ who s = (s', Ok p) ->
  admitted who (db s) = Some p /\ exists m, db s' = with_identities m (db s)
    /\ exists row, m !! (VI_Provider who, VI_Subject who) = Some row /\ ir_user row = User_ID (Principal_User p).
Proof.
  unfold resolveApprovedIdentity, admitted. intros (found & s1 & [E1 Hf]%query_run & H)%bind_run. injection Hf as Hf.
  rewrite Hf. destruct found as [q|].
  - apply bind_run in H as (u & s2 & H2%exec_run & [-> ->]%ret_run). injection H2 as <-. rewrite E1.
    split; [done|]. eexists. split; [done|]. unfold principal_by_identity in Hf.
    destruct (identities (db s) !! _) as [i|] eqn:Ei; [|done]. cbn in Hf.
    exists (touch_identity at_ (VI_Email who) i). rewrite lookup_alter_eq. split; [exact (f_equal (fmap _) Ei)|]. cbn. by rewrite (principal_of_id _ _ _ Hf).
  - apply bind_run in H as (approved & s2 & [E2 Ha]%query_run & H). injection Ha as Ha.
    destruct approved as [q|]; [|by apply failing_run in H].
    apply bind_run in H as (linked & s3 & (n & H3)%statement_run & H). destruct linked; [|by apply failing_run in H].
    apply ret_run in H as [-> ->]. rewrite E2, E1 in H3. rewrite E1 in Ha. unfold link_identity in H3.
    unfold principal_by_identity in Hf. destruct (identities (db s) !! _) as [i|] eqn:Ei.
    + exfalso. case_bool_decide as Hu; [|discriminate H3]. cbn in Hf. rewrite Hu in Hf.
      unfold principal_by_email in Ha. destruct (user_by_email _ _ _) as [[uid y]|]; [|done]. cbn in Ha.
      rewrite (principal_of_id _ _ _ Ha) in Hf. congruence.
    + rewrite bool_decide_true by done. injection H3 as <-. split; [done|]. eexists. split; [done|].
      eexists. split; [apply lookup_insert_eq|done].
Qed.

(** The session of a draft is stored, and found by its token until it
    expires. *)
#[local] Abbreviation stored draft now s r :=
  (ExpiresAt r.1 = timestamptz (SD_ExpiresAt draft)
   /\ (nanos now < nanos (timestamptz (SD_ExpiresAt draft)) -> live_session (SD_TokenHash draft) now (db s) = Some r)).

(** A stored session is the only live one with its token. *)
Lemma insertSession_live p draft from s s' sess now :
  insertSession (User_ID (Principal_User p)) draft from s = (s', Ok sess) ->
  principal_of (User_ID (Principal_User p)) (db s) = Some p -> stored draft now s' (sess, p).
Proof.
  intros (n & H)%statement_run Hp. unfold insert_session_row in H.
  destruct (_ || _) eqn:Hok in H; [discriminate H|]. injection H as Hd <-. split; [done|intros Hnow].
  apply orb_false_iff in Hok as [Hs Ht]. bool_prop. rewrite <- Hd. unfold live_session. cbn [id_sessions with_id_sessions].
  erewrite find_row_unique; [|apply lookup_insert_eq|..].
  - cbn. by rewrite (principal_of_tables _ (db s)), Hp.
  - unfold se_live. cbn [se_token_hash se_revoked se_expires_at]. rewrite !bool_decide_true by done. by apply Z.ltb_lt.
  - intros k x [[<- _]|[_ Hk]]%lookup_insert_Some Hx; [done|]. exfalso. apply Ht. exists k, x. split; [done|]. left. by bool_prop.
Qed.

Lemma insert_and_return_live p draft from s s' r now :
  (session ← insertSession (User_ID (Principal_User p)) draft from; mret (session, p) : go (Session * Principal)) s = (s', Ok r) ->
  principal_of (User_ID (Principal_User p)) (db s) = Some p -> stored draft now s' r.
Proof.
  intros (sess & s1 & Hi & [-> ->]%ret_run)%bind_run Hp. by eapply insertSession_live.
Qed.

Lemma sign_in_live st who draft s s' r now :
  Store_CreateSessionForIdentity pg_lower st who draft s = (s', Ok r) -> stored draft now s' r.
Proof.
  intros (s0 & s1 & Hd & H & ->)%withPrincipalTransaction_run.
  apply bind_run in H as (at_ & s2 & ->%tx_now_run & H). apply bind_run in H as (p & s3 & [Ha (m & Hm & _)]%resolveApprovedIdentity_run & H).
  apply admitted_principal in Ha. eapply insert_and_return_live; [exact H|].
  by rewrite Hm, (principal_of_tables _ (db s0)).
Qed.

Lemma consumeInvitation_principal at_ who raw limit s s' p :
  consumeInvitation pg_lower go_lower equal_fold sha256 at_ who raw limit s = (s', Ok p) ->
  principal_of (User_ID (Principal_User p)) (db s') = Some p.
Proof.
  unfold consumeInvitation. intros H. run_inv_step; [by apply failing_run in H|]. do 2 run_inv_step.
  destruct a as [[iid inv]|]; [|by apply failing_run in H].
  destruct (match in_email inv with Some _ => _ | None => _ end); [by apply failing_run in H|].
  do 5 (apply bind_run in H as (? & ? & _ & H)). apply query_run in H as [-> H]. unfold must_find in H.
  destruct (principal_of _ _) as [q|] eqn:Ep; [|done]. injection H as <-. by rewrite (principal_of_id _ _ _ Ep).
Qed.

Lemma invited_sign_in_live st who draft token s s' r now :
  Store_CreateSessionForInvitedIdentity pg_lower go_lower equal_fold sha256 st who draft token s = (s', Ok r) ->
  stored draft now s' r.
Proof.
  intros (s0 & s1 & Hd & H & ->)%withPrincipalTransaction_run.
  apply bind_run in H as (at_ & s2 & ->%tx_now_run & H). apply bind_run in H as (resolved & s3 & Hr%attempt_run & H).
  apply bind_run in H as (p & s4 & Hp & H). eapply insert_and_return_live; [exact H|].
  destruct resolved as [q|e].
  - apply ret_run in Hp as [-> ->]. apply resolveApprovedIdentity_run in Hr as [Ha (m & Hm & _)]. apply admitted_principal in Ha.
    by rewrite Hm, (principal_of_tables _ (db s0)).
  - destruct (errors_is _ _); [|by apply failing_run in Hp]. by eapply consumeInvitation_principal.
Qed.

Lemma rotation_live st hash draft at_ reason s s' r now :
  Store_RotateSession st hash draft at_ reason s = (s', Ok r) -> stored draft now s' r.
Proof.
  intros (s0 & s2 & Hd & Hop & ->)%withPrincipalTransaction_run.
  apply bind_run in Hop as (found & s3 & [E3 Hf]%query_run & H). destruct found as [[cur p]|]; [|by apply failing_run in H].
  injection Hf as (x & _ & _ & _ & _ & _ & Hp)%live_session_Some.
  apply bind_run in H as (u & s4 & H4%exec_run & H). injection H4 as H4.
  eapply insert_and_return_live; [exact H|]. rewrite <- H4, (principal_of_tables _ (db s3)) by done.
  by rewrite E3, (principal_of_id _ _ _ Hp).
Qed.

Lemma transaction_pool {A} pool e0 begun c (body : go (finish A)) s s' a :
  transaction pool e0 begun c body s = (s', Ok a) -> pool = true.
Proof. unfold transaction. by destruct pool. Qed.

Lemma issue_stored st unicode_lower ParseAddress lifetime now reads call s s' issued :
  issue (H := pg_sessions pg_lower go_lower equal_fold sha256 st) unicode_lower ParseAddress sha256 lifetime now reads call s
    = (s', Ok issued) ->
  HasPool st = true /\ exists draft,
    newDraft sha256 lifetime now reads = Ok (Token issued, CSRFSecret issued, draft)
    /\ validateStoredSession unicode_lower ParseAddress (IS_Session issued) (IS_Principal issued) draft = Ok ()
    /\ forall now, stored draft now s' (IS_Session issued, IS_Principal issued).
Proof.
  destruct call as [who|who token|raw reason]; cbn [issue]; unfold CompleteSignIn, CompleteSignInWithInvitation, Rotate, issue_sign_in.
  1, 2: destruct (VerifiedIdentity_Validate _ _ who); [|done].
  3: destruct (ParseSecret raw); [|done]; cbv zeta; case_bool_decide; [done|].
  all: destruct (newDraft _ _ _ _) as [[[tok csrf] draft]|]; [|done]; cbn;
    match goal with |- (let (_, _) := ?m in _) = _ -> _ => destruct m as [s1 [[sess p]|e]] eqn:Em end; [|done]; cbn;
    intros [= <- Hr]; go_inv; bool_prop; repeat match goal with v : unit |- _ => destruct v end;
    (split; [by eapply transaction_pool|]); exists draft; (split; [done|]); (split; [done|]); intros at_.
  - exact (sign_in_live _ _ _ _ _ _ at_ Em).
  - exact (invited_sign_in_live _ _ _ _ _ _ _ at_ Em).
  - exact (rotation_live _ _ _ _ _ _ _ _ at_ Em).
Qed.

Lemma UseSession_live st hash now s sess p :
  HasPool st = true -> (forall n, statement_fault n = None) -> live_session hash (timestamptz now) (db s) = Some (sess, p) ->
  exists s' sess', Store_UseSession st hash now s = (s', Ok (sess', p))
    /\ (sess' = sess \/ sess' = set_LastSeenAt now sess).
Proof.
  intros Hp Hq Hl. unfold Store_UseSession. rewrite Hp. cbn [negb]. unfold mbind at 1, go_bind at 1.
  rewrite (query_quiet _ _ (Some (sess, p))); [|done|by rewrite Hl].
  destruct (5 * Minute <=? _); [|by eauto].
  unfold mbind, go_bind, exec, statement. rewrite Hq. eauto.
Qed.

Lemma set_LastSeenAt_active sess now :
  Session_Validate sess = Ok () -> nanos (CreatedAt sess) <= nanos now < nanos (ExpiresAt sess) ->
  Session_Validate (set_LastSeenAt now sess) = Ok ().
Proof.
  unfold Session_Validate. cbn. intros H Ht. go_inv.
  assert (Hts : IsZero (CreatedAt sess) || Before now (CreatedAt sess) || After now (ExpiresAt sess)
                || negb (After (ExpiresAt sess) (CreatedAt sess)) = false).
  { unfold Before, After in *. bool_prop. repeat (apply orb_false_intro); bool_prop; try done; lia. }
  by rewrite Hok, Hts, Hok1, Hok2, H.
Qed.

(** C24. Whoever was let in stays in.  The session a sign-in, an invited sign-in
    or a rotation hands out can be resumed with its token until it expires: in
    the state the operation left, with no statement failing, [Resume] at any
    time between the session's creation and its expiry succeeds, with the same
    session and the same principal. *)
Theorem issued_sessions_can_be_resumed st unicode_lower ParseAddress lifetime now reads call s s' issued later :
  let store := pg_sessions pg_lower go_lower equal_fold sha256 st in
  let n := Truncate (UTC later) Microsecond in
  (forall k, statement_fault k = None) -> full_reads reads ->
  issue (H := store) unicode_lower ParseAddress sha256 lifetime now reads call s = (s', Ok issued) ->
  nanos (CreatedAt (IS_Session issued)) <= nanos n < nanos (ExpiresAt (IS_Session issued)) -> IsZero n = false ->
  exists s'' a, Resume (H := store) unicode_lower ParseAddress sha256 later (Token issued) s' = (s'', Ok a)
    /\ Session_ID (AS_Session a) = Session_ID (IS_Session issued) /\ AS_Principal a = IS_Principal issued.
Proof.
  cbv zeta. set (n := Truncate (UTC later) Microsecond). intros Hq Hreads Hi Ht Hz.
  destruct (issue_stored _ _ _ _ _ _ _ _ _ _ Hi) as (Hpool & draft & Hd & Hv & Hs).
  destruct (newDraft_Ok _ _ _ _ _ _ _ Hreads Hd) as (Hparse & _ & _ & ->).
  apply validateStoredSession_Ok in Hv as (Ha & Hsig & Hu & Hhash & _).
  destruct (Hs (timestamptz n)) as [He Hlive]. cbn [fst] in He.
  assert (Hn : nanos (timestamptz n) = nanos n) by apply timestamptz_Truncate.
  rewrite Hn, <- He in Hlive. specialize (Hlive (proj2 Ht)).
  destruct (UseSession_live st _ n s' _ _ Hpool Hq Hlive) as (s'' & sess & Huse & Hsess).
  unfold Resume. rewrite Hparse. fold n. cbn [UseSession pg_sessions]. cbn [SD_TokenHash] in Huse. rewrite Huse.
  assert (Hsame : TokenHash sess = HashSessionToken sha256 (Token issued) /\ Session_ID sess = Session_ID (IS_Session issued)
                  /\ Session_UserID sess = Session_UserID (IS_Session issued) /\ ActiveAt sess n = Ok ()).
  { apply ActiveAt_Ok in Ha as (Hvalid & Hrev & _). unfold ActiveAt, Before.
    destruct Hsess as [->| ->]; (split_and!; [done..|]).
    - rewrite Hvalid, Hz, Hrev, (proj2 (Z.ltb_lt _ _)) by lia. done.
    - rewrite (set_LastSeenAt_active _ _ Hvalid) by done. cbn. rewrite Hz, Hrev, (proj2 (Z.ltb_lt _ _)) by lia. done. }
  destruct Hsame as (H1 & H2 & H3 & H4).
  exists s'', (mkAuthenticatedSession sess (IS_Principal issued)). split; [|by split]. cbn. unfold Digest_Equal. rewrite H1, bool_decide_true by done. cbn.
  unfold validateActiveSession. rewrite H4. apply Principal_Validate_iff in Hsig. rewrite Hsig. cbn.
  by rewrite H3, Hu, bool_decide_true.
Qed.

Lemma consumeInvitation_once at_ who raw limit uid u i x s s' p :
  consumeInvitation pg_lower go_lower equal_fold sha256 at_ who raw limit s = (s', Ok p) ->
  user_by_email pg_lower (VI_Email who) (db s) = Some (uid, u) ->
  invitations (db s) !! i = Some x -> snd <$> in_consumed x = Some uid -> False.
Proof.
  unfold consumeInvitation. intros H Hu Hi Hx. run_inv_step; [by apply failing_run in H|].
  apply bind_run in H as (found & s1 & [E1 Hf]%query_run & H). destruct found as [[iid inv]|]; [|by apply failing_run in H].
  injection Hf as Hf. apply find_row_Some in Hf as [Hinv Hp]. apply andb_prop in Hp as [[_ Ho]%andb_prop _].
  destruct (match in_email inv with Some _ => _ | None => _ end); [by apply failing_run in H|].
  apply bind_run in H as (uid' & s2 & Huid & H).
  apply bind_run in H as (a1 & s3 & (n & u' & b' & [= <-] & [= <-] & Hg)%grant_run & H).
  apply bind_run in H as (a2 & s4 & Hcon%exec_run & _).
  apply insert_membership_invitations in Hg. pose proof (invited_user_invitations _ _ _ _ _ _ _ Huid) as Hiu.
  unfold invited_user in Huid. apply bind_run in Huid as (found & s5 & [E5 Hf]%query_run & Huid).
  rewrite E1, Hu in Hf. injection Hf as <-. destruct (negb _); [by apply failing_run in Huid|].
  apply ret_run in Huid as [_ ->]. unfold consume_row in Hcon. destruct (bool_decide _) eqn:Eu in Hcon; [discriminate Hcon|].
  bool_prop. apply Eu. exists i, x. split; [by rewrite Hg, Hiu, E1|]. split; [|done]. intros ->. simplify_eq.
  unfold in_open in Ho. bool_prop. by destruct (in_consumed inv).
Qed.

(** A refused identity leaves the tables alone. *)
Lemma resolveApprovedIdentity_refused at_ who s s' e :
  resolveApprovedIdentity pg_lower at_ who s = (s', Err e) -> db s' = db s.
Proof.
  intros [H%query_db|(found & s1 & E1%query_db & H)]%bind_refused; [done|]. rewrite <- E1. destruct found as [p|].
  - apply bind_refused in H as [H|(u & s2 & _ & H)]; [by eapply statement_refused|done].
  - apply bind_refused in H as [H%query_db|(approved & s2 & E2%query_db & H)]; [done|]. rewrite <- E2.
    destruct approved as [p|]; [|by injection H as <- _].
    apply bind_refused in H as [H|(linked & s3 & (n & H3)%statement_run & H)]; [by eapply statement_refused|].
    destruct linked; [done|]. injection H as <- _. unfold link_identity in H3. destruct (identities _ !! _); [|done].
    case_bool_decide; [done|]. by injection H3 as ->.
Qed.

(** Nobody is admitted twice.  A user who once redeemed an invitation and
    has no live membership any more cannot come back by another one, however it
    was issued: signing in with it fails and changes nothing, because each user
    can be recorded as having consumed one invitation only. *)
Theorem members_are_admitted_once st who draft token uid u i x s s' r :
  user_by_email pg_lower (VI_Email who) (db s) = Some (uid, u) -> active_membership uid (db s) = None ->
  principal_by_identity (VI_Provider who) (VI_Subject who) (db s) = None ->
  invitations (db s) !! i = Some x -> snd <$> in_consumed x = Some uid ->
  Store_CreateSessionForInvitedIdentity pg_lower go_lower equal_fold sha256 st who draft token s = (s', r) ->
  is_Ok r = false /\ db s' = db s.
Proof.
  intros Hu Hnone Hid Hi Hx [H|(s0 & s1 & p & Hd & H & _)]%withPrincipalTransaction_cases; [done|]. exfalso.
  apply bind_run in H as (at_ & s2 & ->%tx_now_run & H). apply bind_run in H as (resolved & s3 & Hr%attempt_run & H).
  apply bind_run in H as (q & s4 & Hq & _). rewrite <- Hd in *. clear s Hd.
  destruct resolved as [q'|e].
  { apply resolveApprovedIdentity_run in Hr as [Ha _]. unfold admitted in Ha. rewrite Hid in Ha. case_bool_decide; [|done].
    unfold principal_by_email, principal_of in Ha. rewrite Hu in Ha. cbn in Ha. rewrite Hnone in Ha.
    by destruct (id_users (db s0) !! uid). }
  apply resolveApprovedIdentity_refused in Hr. destruct (errors_is _ _); [|by apply failing_run in Hq].
  eapply consumeInvitation_once; [exact Hq|by rewrite Hr|by rewrite Hr|exact Hx].
Qed.

(** C23. Signing in is for members.  An identity that is linked to no active
    member, and is not an unlinked one with an active member's email, is
    refused and nothing is stored.  A sign-in that succeeds signs in exactly
    the admitted member; afterwards the identity is linked to that member, one
    session is new, and users, memberships, invitations and the audit trail are
    as they were. *)
Theorem sign_in_is_for_members st who draft s s' r :
  Store_CreateSessionForIdentity pg_lower st who draft s = (s', r) ->
  (admitted who (db s) = None -> is_Ok r = false /\ db s' = db s)
  /\ forall sess p, r = Ok (sess, p) ->
     admitted who (db s) = Some p
     /\ principal_of (User_ID (Principal_User p)) (db s) = Some p
     /\ (exists row, identities (db s') !! (VI_Provider who, VI_Subject who) = Some row
          /\ ir_user row = User_ID (Principal_User p))
     /\ (exists sid x, id_sessions (db s) !! sid = None /\ id_sessions (db s') = <[sid := x]> (id_sessions (db s))
          /\ sess = scan_session sid x /\ se_user x = User_ID (Principal_User p) /\ se_token_hash x = SD_TokenHash draft)
     /\ id_users (db s') = id_users (db s) /\ memberships (db s') = memberships (db s)
     /\ invitations (db s') = invitations (db s) /\ id_audit (db s') = id_audit (db s).
Proof.
  intros H.
  assert (Hin : (is_Ok r = false /\ db s' = db s) \/ exists sess p s0 s1 s2 at_, db s0 = db s
    /\ resolveApprovedIdentity pg_lower at_ who s0 = (s1, Ok p)
    /\ insertSession (User_ID (Principal_User p)) draft "" s1 = (s2, Ok sess) /\ db s' = db s2 /\ (r = Ok (sess, p) \/ is_Ok r = false)).
  { apply withPrincipalTransaction_cases in H as [H|(s0 & s1 & a & Hd & H & -> & Hr)]; [by left|]. right.
    apply bind_run in H as (at_ & s2 & ->%tx_now_run & H). apply bind_run in H as (q & s3 & Hq & H).
    apply bind_run in H as (sess & s4 & Hi & [-> ->]%ret_run). eauto 12. }
  split.
  - intros Hnone. destruct Hin as [?|(sess & p & s0 & s1 & s2 & at_ & Hd & [Ha _]%resolveApprovedIdentity_run & _)]; [done|].
    rewrite Hd in Ha. congruence.
  - intros sess p ->. destruct Hin as [[[=] _]|(sess' & p' & s0 & s1 & s2 & at_ & Hd & [Ha (m & Hm & Hrow)]%resolveApprovedIdentity_run & Hi & -> & [[= <- <-]|[=]])].
    rewrite Hd in Ha, Hm. apply statement_run in Hi as (n & Hi). unfold insert_session_row in Hi.
    destruct (_ || _) eqn:Hok in Hi; [discriminate Hi|]. injection Hi as Hd2 <-. rewrite <- Hd2, Hm.
    apply orb_false_iff in Hok as [Hs _]. bool_prop. rewrite Hm in Hs.
    split_and!; try done.
    + by eapply admitted_principal.
    + eexists _, _. split; [by apply eq_None_not_Some|]. done.
Qed.
End runs.
