(* ===== verification/IdentityExample.v ===== *)
(** * A concrete run of the identity store

    A book with an owner, a member and a former member, and a few commands on
    it: the inputs at which the theorems on the identity store are
    instantiated. *)
From S2P Require Import Prelude GoStrings GoTime Float64 SQL Sample Identity Base64 Session IdentityDB IdentityStore IdentityRuns.

(** ** The tables *)
Definition carol : string := sid "c".
Definition long_ago : Time := mkTime (63800000000 * Second) true.
Definition next_year : Time := mkTime (63931536000 * Second) true.
Definition lower (s : string) : string := s.
Definition same_fold (s t : string) : bool := bool_decide (s = t).
Definition random32 (n : nat) : option (list ascii) := Some (repeat (ascii_of_nat (n + 7)) 32).

Definition sample_invitation (token : string) (consumed : option (Time * string)) : InvitationDBRow :=
  mkInvitationDBRow (hashInvitationToken ex_digest token) None RoleMember admin next_year consumed None long_ago.
Definition sample_members : IdDB :=
  mkIdDB
    {[ alice := mkIdUserRow "Alice" (Some "alice@example.com"%string) UserActive None 100000;
       admin := mkIdUserRow "Admin" (Some "admin@example.com"%string) UserActive None 0;
       carol := mkIdUserRow "Carol" (Some "carol@example.com"%string) UserActive None 100000 ]}
    ∅
    {[ sid "1" := mkMembershipRow alice RoleMember (Some admin) long_ago None;
       sid "2" := mkMembershipRow admin RoleOwner None long_ago None;
       sid "3" := mkMembershipRow carol RoleMember (Some admin) long_ago (Some (long_ago, admin, "moved away"%string)) ]}
    {[ sid "4" := sample_invitation "old ticket" (Some (long_ago, carol)); sid "5" := sample_invitation "new ticket" None ]}
    ∅ [].
Definition id_start : SQL.session IdDB := SQL.mkSession sample_members 0.
Definition sample_id_store : IdStore := mkIdStore true 100000.
Definition carol_identity : VerifiedIdentity := mkVerifiedIdentity "google" "subject-2" "carol@example.com" true "Carol".

(** The secrets of the first sign-in. *)
Definition ex_token : string := EncodeToString (repeat (ascii_of_nat 1) 32).
Definition ex_csrf : string := EncodeToString (repeat (ascii_of_nat 2) 32).
Definition ex_draft : SessionDraft :=
  mkSessionDraft (HashSessionToken ex_digest ex_token) (HashCSRFSecret ex_digest ex_csrf) ex_now ex_now (TimeAdd ex_now Hour).
Definition minutes_later (n : Z) : Time := TimeAdd ex_now (n * Minute).

(** Alice signs in; the owner promotes her, and invites somebody. *)
Definition id_history : list id_command :=
  [ISignIn ex_identity ex_draft; IUse (HashSessionToken ex_digest ex_token) (minutes_later 7);
   IChangeRole admin alice RoleAdmin "helps out"; IInvite admin RoleAdmin "dave@example.com" (24 * Hour)].

Abbreviation id_run := (run_identity lower lower same_fold ex_digest random32 sample_id_store).
Abbreviation id_service := (pg_sessions lower lower same_fold ex_digest sample_id_store).

Lemma sample_members_ok : id_ok sample_members.
Proof.
  split.
  - intros i j x y Hi Hj Hx Hy Hu.
    assert (Hp : pairwise (fun x y => mb_live x && mb_live y && bool_decide (mb_user x = mb_user y)) (memberships sample_members) = true)
      by by vm_compute.
    apply (pairwise_spec _ _ i j x y Hp Hi Hj). by rewrite Hx, Hy, bool_decide_true.
  - intros i j x y Hi. discriminate (eq_trans (eq_sym (lookup_empty i)) Hi).
  - intros i j x y Hi Hj Hh.
    assert (Hp : pairwise (fun x y => bool_decide (in_token_hash x = in_token_hash y)) (invitations sample_members) = true)
      by by vm_compute.
    apply (pairwise_spec _ _ i j x y Hp Hi Hj). by rewrite bool_decide_true.
  - intros i j x y u Hi Hj Hx Hy.
    assert (Hp : pairwise (fun x y => bool_decide (in_consumed x <> None /\ snd <$> in_consumed x = snd <$> in_consumed y)) (invitations sample_members) = true)
      by by vm_compute.
    apply (pairwise_spec _ _ i j x y Hp Hi Hj). apply bool_decide_true. split; [|exact (eq_trans Hx (eq_sym Hy))]. intros Hn. rewrite Hn in Hx.
    discriminate Hx.
Qed.

Lemma sample_members_owned : has_owner sample_members.
Proof. exists (sid "2"), (mkMembershipRow admin RoleOwner None long_ago None). split; by vm_compute. Qed.

Lemma sample_invitations i x : invitations sample_members !! i = Some x -> in_role x = RoleMember.
Proof.
  assert (Hp : bool_decide (map_Forall (fun _ x => in_role x = RoleMember) (invitations sample_members)) = true) by by vm_compute.
  apply bool_decide_eq_true in Hp. exact (Hp i x).
Qed.

(** ** Witnesses *)
Lemma owners_always_remain_witness :
  has_owner (db (id_run id_history id_start))
  /\ active_membership alice (db (id_run id_history id_start)) <> active_membership alice sample_members.
Proof.
  split; [apply owners_always_remain; [exact sample_members_ok|exact sample_members_owned]|].
  by vm_compute.
Defined.

(** The run's membership of an administrator. *)
Definition promoted : option (string * MembershipRow) := active_membership alice (db (id_run id_history id_start)).

Lemma authority_comes_from_owners_witness :
  exists mid m, promoted = Some (mid, m) /\ mb_role m = RoleAdmin
    /\ exists by_, mb_granted_by m = Some by_ /\ owner_once by_ (db (id_run id_history id_start)).
Proof.
  destruct promoted as [[mid m]|] eqn:Ep; [|by vm_compute in Ep]. exists mid, m.
  assert (Hr : mb_role m = RoleAdmin) by (vm_compute in Ep; by injection Ep as _ <-). split; [done|]. split; [done|].
  apply (authority_comes_from_owners lower lower same_fold ex_digest random32 sample_id_store id_history id_start mid m).
  - intros i x Hx. left. exact (sample_invitations i x Hx).
  - by apply find_row_Some in Ep as [? _].
  - vm_compute in Ep. by injection Ep as <- _.
  - by rewrite Hr.
Defined.

(** Alice's session, after the first command and after the last. *)
Definition resumed (s : SQL.session IdDB) : bool :=
  is_Ok (Resume (H := id_service) lower ex_ParseAddress ex_digest (minutes_later 8) ex_token s).2.

Lemma ended_sessions_never_resume_witness :
  resumed (id_run id_history id_start) = true
  /\ exists s', Revoke (H := id_service) ex_digest (minutes_later 8) ex_token "signed out" (id_run id_history id_start) = (s', Ok ())
       /\ resumed (id_run id_history s') = false.
Proof.
  split; [by vm_compute|].
  assert (Hr : (Revoke (H := id_service) ex_digest (minutes_later 8) ex_token "signed out" (id_run id_history id_start)).2 = Ok ())
    by by vm_compute.
  destruct (Revoke (H := id_service) ex_digest (minutes_later 8) ex_token "signed out" (id_run id_history id_start)) as [s' r] eqn:Er.
  cbn in Hr. subst r. exists s'. split; [done|].
  exact (ended_sessions_never_resume lower lower same_fold ex_digest random32 sample_id_store lower ex_ParseAddress
           Hour (minutes_later 8) ex_reads ex_token "signed out" id_history id_history (minutes_later 8) id_start s'
           sample_members_ok (or_introl Er)).
Defined.

Lemma sign_in_is_for_members_witness :
  is_Ok (Store_CreateSessionForIdentity lower sample_id_store ex_identity ex_draft id_start).2 = true
  /\ is_Ok (Store_CreateSessionForIdentity lower sample_id_store carol_identity ex_draft id_start).2 = false.
Proof.
  split; [by vm_compute|].
  destruct (Store_CreateSessionForIdentity lower sample_id_store carol_identity ex_draft id_start) as [s' r] eqn:Er.
  apply (sign_in_is_for_members lower sample_id_store carol_identity ex_draft id_start s' r Er). by vm_compute.
Defined.

(** What Alice is handed. *)
Abbreviation alice_signs_in :=
  (issue (H := id_service) lower ex_ParseAddress ex_digest Hour ex_now ex_reads (SignIn ex_identity)).
Definition handed_to_alice : option IssuedSession :=
  Eval vm_compute in match (alice_signs_in id_start).2 with Ok issued => Some issued | Err _ => None end.

Lemma issued_sessions_can_be_resumed_witness :
  match handed_to_alice with
  | Some issued =>
      Token issued = ex_token
      /\ exists s'' a, Resume (H := id_service) lower ex_ParseAddress ex_digest (minutes_later 59) (Token issued)
                         (alice_signs_in id_start).1 = (s'', Ok a)
           /\ Session_ID (AS_Session a) = Session_ID (IS_Session issued) /\ AS_Principal a = IS_Principal issued
  | None => False
  end.
Proof.
  unfold handed_to_alice. split; [by vm_compute|].
  apply (issued_sessions_can_be_resumed lower lower same_fold ex_digest sample_id_store lower ex_ParseAddress
    Hour ex_now ex_reads (SignIn ex_identity) id_start).
  - done.
  - intros i b Hb. injection Hb as <-. reflexivity.
  - apply run_of. by vm_compute.
  - by vm_compute.
  - by vm_compute.
Defined.

Lemma members_are_admitted_once_witness :
  is_Ok (Store_CreateSessionForInvitedIdentity lower lower same_fold ex_digest sample_id_store carol_identity ex_draft
           "new ticket" id_start).2 = false
  /\ is_Ok (Store_CreateSessionForInvitedIdentity lower lower same_fold ex_digest sample_id_store
              (mkVerifiedIdentity "google" "subject-3" "dave@example.com" true "Dave") ex_draft "new ticket" id_start).2 = true.
Proof.
  split; [|by vm_compute].
  destruct (Store_CreateSessionForInvitedIdentity lower lower same_fold ex_digest sample_id_store carol_identity ex_draft
           "new ticket" id_start) as [s' r] eqn:Er.
  refine (proj1 (members_are_admitted_once lower lower same_fold ex_digest sample_id_store carol_identity ex_draft "new ticket"
    carol _ (sid "4") _ id_start s' r _ _ _ _ _ Er)); by vm_compute.
Defined.
