(* ===== verification/CompetitionDB.v ===== *)
(** * internal/competitionpg: events, teams, rosters, matches and results

    [store.go], [roster.go], [links.go], [delete.go] and [stats.go]: the
    tables of the competition store and one definition per operation that
    writes, over the sessions of [SQL].

    Users and memberships are the tables of [IdentityDB], which this store only
    reads.  Rows of the betting, media and legacy tables that refer to a match,
    a team or an event are a parameter.  Points are numeric(_, 2), kept in
    hundredths: the 0, 0.5 and 1 the program writes are exact. *)
From S2P Require Import Prelude GoStrings GoTime Events Payloads Dispatcher OutboxPG Competition Float64 SQL Keeping Identity IdentityDB.

(** ** Tables *)
Record EventDBRow := mkEventDBRow {
  ev_slug : string;
  ev_name : string;
  ev_season_year : Z;
  ev_venue : string;
  ev_state : string;
  ev_created_at : Time
}.
Record TeamDBRow := mkTeamDBRow { te_event : string; te_slug : string; te_name : string; te_version : Z }.
Record PlayerDBRow := mkPlayerDBRow {
  pl_linked_user : option string;
  pl_slug : string;
  pl_display_name : string;
  pl_active : bool
}.
(** [event_team_memberships], keyed by event and player. *)
Record RosterRow := mkRosterRow { ro_team : string; ro_captain : bool }.
Record MatchDBRow := mkMatchDBRow { ma_event : string; ma_number : Z; ma_format : MatchFormat; ma_state : string }.
Record SideRow := mkSideRow { si_event : string; si_match : string; si_number : Z; si_team : string }.
(** [match_participants], keyed by match and player. *)
Record ParticipantRow := mkParticipantRow { pa_side : string; pa_order : Z }.
#[export] Instance ParticipantRow_eq_dec : EqDecision ParticipantRow.
Proof. solve_decision. Defined.
Record VerifiedRow := mkVerifiedRow {
  vr_match : string;
  vr_version : Z;
  vr_points : Z * Z;
  vr_outcome : string;
  vr_method : string;
  vr_by : string;
  vr_reason : string;
  vr_score : option string;
  vr_at : Time
}.
Definition latest_first (x y : string * VerifiedRow) : Prop := vr_version y.2 <= vr_version x.2.
#[export] Instance latest_first_dec : RelDecision latest_first.
Proof. intros x y. unfold latest_first. apply _. Defined.

(** Matches, wins, losses, ties and points. *)
Record Tally := mkTally { played : Z; wins : Z; losses : Z; ties : Z; points : Z }.
(** [player_stat_projections], keyed by player and event. *)
Record StatRow := mkStatRow { st_all : Tally; st_singles : Tally; st_team : Tally; st_version : Z }.

Record CompDB := mkCompDB {
  co_events : gmap string EventDBRow;
  co_teams : gmap string TeamDBRow;
  co_players : gmap string PlayerDBRow;
  co_roster : gmap (string * string) RosterRow;
  co_matches : gmap string MatchDBRow;
  co_sides : gmap string SideRow;
  co_participants : gmap (string * string) ParticipantRow;
  co_verified : gmap string VerifiedRow;
  co_stats : gmap (string * string) StatRow;
  co_applied : gset string;
  co_audit : list AuditRow;
  co_outbox : gmap string OutboxPG.row;
  co_people : IdDB
}.
Definition with_events x d := mkCompDB x (co_teams d) (co_players d) (co_roster d) (co_matches d) (co_sides d) (co_participants d)
  (co_verified d) (co_stats d) (co_applied d) (co_audit d) (co_outbox d) (co_people d).
Definition with_teams x d := mkCompDB (co_events d) x (co_players d) (co_roster d) (co_matches d) (co_sides d) (co_participants d)
  (co_verified d) (co_stats d) (co_applied d) (co_audit d) (co_outbox d) (co_people d).
Definition with_players x d := mkCompDB (co_events d) (co_teams d) x (co_roster d) (co_matches d) (co_sides d) (co_participants d)
  (co_verified d) (co_stats d) (co_applied d) (co_audit d) (co_outbox d) (co_people d).
Definition with_roster x d := mkCompDB (co_events d) (co_teams d) (co_players d) x (co_matches d) (co_sides d) (co_participants d)
  (co_verified d) (co_stats d) (co_applied d) (co_audit d) (co_outbox d) (co_people d).
Definition with_matches x d := mkCompDB (co_events d) (co_teams d) (co_players d) (co_roster d) x (co_sides d) (co_participants d)
  (co_verified d) (co_stats d) (co_applied d) (co_audit d) (co_outbox d) (co_people d).
Definition with_sides x d := mkCompDB (co_events d) (co_teams d) (co_players d) (co_roster d) (co_matches d) x (co_participants d)
  (co_verified d) (co_stats d) (co_applied d) (co_audit d) (co_outbox d) (co_people d).
Definition with_participants x d := mkCompDB (co_events d) (co_teams d) (co_players d) (co_roster d) (co_matches d) (co_sides d) x
  (co_verified d) (co_stats d) (co_applied d) (co_audit d) (co_outbox d) (co_people d).
Definition with_verified x d := mkCompDB (co_events d) (co_teams d) (co_players d) (co_roster d) (co_matches d) (co_sides d)
  (co_participants d) x (co_stats d) (co_applied d) (co_audit d) (co_outbox d) (co_people d).
Definition with_stats x d := mkCompDB (co_events d) (co_teams d) (co_players d) (co_roster d) (co_matches d) (co_sides d)
  (co_participants d) (co_verified d) x (co_applied d) (co_audit d) (co_outbox d) (co_people d).
Definition with_applied x d := mkCompDB (co_events d) (co_teams d) (co_players d) (co_roster d) (co_matches d) (co_sides d)
  (co_participants d) (co_verified d) (co_stats d) x (co_audit d) (co_outbox d) (co_people d).
Definition with_co_audit x d := mkCompDB (co_events d) (co_teams d) (co_players d) (co_roster d) (co_matches d) (co_sides d)
  (co_participants d) (co_verified d) (co_stats d) (co_applied d) x (co_outbox d) (co_people d).
Definition with_co_outbox x d := mkCompDB (co_events d) (co_teams d) (co_players d) (co_roster d) (co_matches d) (co_sides d)
  (co_participants d) (co_verified d) (co_stats d) (co_applied d) (co_audit d) x (co_people d).
(** The identity store's tables, as another process left them. *)
Definition with_people x d := mkCompDB (co_events d) (co_teams d) (co_players d) (co_roster d) (co_matches d) (co_sides d)
  (co_participants d) (co_verified d) (co_stats d) (co_applied d) (co_audit d) (co_outbox d) x.
#[export] Instance CompDB_outbox : HasOutbox CompDB := {| outbox_rows := co_outbox; set_outbox_rows := with_co_outbox |}.

#[export] Instance MatchFormat_eq_dec : EqDecision MatchFormat.
Proof. solve_decision. Defined.

#[local] Abbreviation go := (SQL.go CompDB).

(** ** Slugs *)

(** [regexp.MustCompile(`[^a-z0-9]+`).ReplaceAllString(_, "-")]: a byte of a
    longer rune is outside the class, and so is the rune. *)
Definition slug_byte (a : ascii) : bool := is_lower a || is_digit a.
Fixpoint strip_runs (in_run : bool) (l : list ascii) : list ascii :=
  match l with
  | [] => []
  | a :: l' => if slug_byte a then a :: strip_runs false l'
               else if in_run then strip_runs true l' else "-"%char :: strip_runs true l'
  end.
(** [strings.Trim(_, "-")] *)
Fixpoint drop_dashes (l : list ascii) : list ascii :=
  match l with
  | [] => []
  | a :: l' => if byte_is 45 a then drop_dashes l' else l
  end.
Definition trim_dashes (l : list ascii) : list ascii := reverse (drop_dashes (reverse (drop_dashes l))).

Section competition_store.
Context {E : environment} (unicode_lower : string -> string).
Implicit Types (d : CompDB).

Definition slugify (value : string) : string :=
  of_bytes (trim_dashes (strip_runs false (bytes (ToLower unicode_lower (TrimSpace value))))).

(** *** links.go: who may act *)
Definition no_co_pool : error := Errorf "competitionpg: pool is required".

Definition active_role (uid : string) d : option Identity.Role :=
  u ← id_users (co_people d) !! uid;
  '(_, m) ← active_membership uid (co_people d);
  if bool_decide (iu_status u = UserActive) then Some (mb_role m) else None.

Definition requireStaff (actorUserID : string) : go unit :=
  found ← query "verify staff role: %w" (fun d => a ← cast actorUserID; Ok (active_role a d));
  match found with
  | Some role => if admin_or_owner role then mret ()
                 else failing (Wrapf "%w: only an admin or owner may manage competition data" Identity.ErrUnauthorized)
  | None => failing (Wrapf "%w: only an admin or owner may manage competition data" Identity.ErrUnauthorized)
  end.

Definition newUUID : go string := new_uuid "generate id: %w".
Definition maxOutboxAttempts : Z := 20.
Definition publish (e : Envelope) : go unit := publish_event maxOutboxAttempts e.

Definition co_tx {A} (pool : bool) (begun : string) (body : go (finish A)) : go A :=
  transaction pool no_co_pool (Wrapf begun) (fun _ => true) body.

Definition co_insert_audit (wrap actor action target_type target reason : string)
    (before after : list (string * audit_value)) : go unit :=
  exec wrap (fun d =>
    a ← cast actor;
    t ← cast target;
    Ok (with_co_audit (co_audit d ++ [mkAuditRow a action target_type t reason before after]) d)).

Definition duplicate_key : error := Errorf "duplicate key value violates unique constraint".
Definition foreign_key : error := Errorf "violates foreign key constraint".

(** *** store.go: events, teams and players *)
Record CreateEventRequest := mkCreateEventRequest { CE_Name : string; CE_Venue : string; SeasonYear : Z; CE_CreatedBy : string }.

Definition insert_event (id : string) (x : EventDBRow) d : result CompDB :=
  fail_if (bool_decide (is_Some (co_events d !! id))
           || bool_decide (map_Exists (fun _ y => ev_slug y = ev_slug x
                \/ (ev_season_year y = ev_season_year x /\ ev_name y = ev_name x)) (co_events d))) duplicate_key;;
  Ok (with_events (<[id := x]> (co_events d)) d).

Definition CreateEvent (pool : bool) (req : CreateEventRequest) : go string :=
  if negb pool then failing no_co_pool
  else
    let name := TrimSpace (CE_Name req) in
    let venue := TrimSpace (CE_Venue req) in
    if bool_decide (name = ""%string) || bool_decide (venue = ""%string)
    then failing (Errorf "event requires a name and venue")
    else if (SeasonYear req <? 2010) || (2200 <? SeasonYear req) then failing (Errorf "event season year is out of range")
    else
      let slug := slugify (name ++ "-" ++ sprint_d (SeasonYear req)) in
      if bool_decide (slug = ""%string) then failing (Errorf "event name must contain letters or digits")
      else statement "insert event: %w" (fun n d =>
        cast (CE_CreatedBy req);;
        d' ← insert_event (gen_uuid n) (mkEventDBRow slug name (SeasonYear req) venue "active" (timestamptz (clock n))) d;
        Ok (d', gen_uuid n)).

Definition insert_team (id : string) (x : TeamDBRow) d : result CompDB :=
  fail_if (negb (bool_decide (is_Some (co_events d !! te_event x)))) foreign_key;;
  fail_if (bool_decide (is_Some (co_teams d !! id))
           || bool_decide (map_Exists (fun _ y => te_event y = te_event x /\ te_slug y = te_slug x) (co_teams d))) duplicate_key;;
  Ok (with_teams (<[id := x]> (co_teams d)) d).

Definition CreateTeam (pool : bool) (eventID name createdBy : string) : go string :=
  if negb pool then failing no_co_pool
  else
    let name := TrimSpace name in
    if bool_decide (name = ""%string) then failing (Errorf "team requires a name")
    else
      let slug := slugify name in
      if bool_decide (slug = ""%string) then failing (Errorf "team name must contain letters or digits")
      else statement "insert team: %w" (fun n d =>
        e ← cast eventID;
        d' ← insert_team (gen_uuid n) (mkTeamDBRow e slug name 1) d;
        Ok (d', gen_uuid n)).

Definition insert_player (id : string) (x : PlayerDBRow) d : result CompDB :=
  fail_if (bool_decide (is_Some (co_players d !! id))
           || bool_decide (map_Exists (fun _ y => pl_slug y = pl_slug x
                \/ (pl_linked_user x <> None /\ pl_linked_user y = pl_linked_user x)) (co_players d))) duplicate_key;;
  fail_if (match pl_linked_user x with
           | Some u => bool_decide (id_users (co_people d) !! u = None)
           | None => false
           end) foreign_key;;
  Ok (with_players (<[id := x]> (co_players d)) d).

(** [nullif($3, '')::uuid] *)
Definition cast_null (s : string) : result (option string) :=
  if bool_decide (s = ""%string) then Ok None else c ← cast s; Ok (Some c).

(** [strings.Split(unique, "-")[0]] *)
Definition first_part (s : string) : string := of_bytes (default [] (head (split_on 45 (bytes s)))).

Definition CreatePlayer (pool : bool) (displayName linkedUserID : string) : go string :=
  if negb pool then failing no_co_pool
  else
    let displayName := TrimSpace displayName in
    if bool_decide (displayName = ""%string) then failing (Errorf "player requires a display name")
    else
      let slug := slugify displayName in
      if bool_decide (slug = ""%string) then failing (Errorf "player name must contain letters or digits")
      else
        unique ← newUUID;
        statement "insert player: %w" (fun n d =>
          linked ← cast_null linkedUserID;
          d' ← insert_player (gen_uuid n)
                 (mkPlayerDBRow linked (slug ++ "-" ++ first_part unique) displayName true) d;
          Ok (d', gen_uuid n)).

(** *** store.go: matches *)
Record MatchCreated := mkMatchCreated { MC_MatchID : string; Side1ID : string; Side2ID : string }.
Record CreateMatchRequest := mkCreateMatchRequest {
  CM_EventID : string; CM_Format : MatchFormat; Side1TeamID : string; Side2TeamID : string;
  Side1PlayerIDs : list string; Side2PlayerIDs : list string; CM_CreatedBy : string
}.

Definition normalizeParticipantIDs (playerIDs : list string) : list string :=
  List.filter (fun p => negb (bool_decide (p = ""%string))) (TrimSpace <$> playerIDs).

Fixpoint validate_participants (playerIDs : list string) (seen : gset string) : result unit :=
  match playerIDs with
  | [] => Ok ()
  | playerID :: rest =>
      fail_if (negb (isUUID playerID)) (Wrapf "%w: every participant must be an existing player" Competition.ErrInvalid);;
      fail_if (bool_decide (playerID ∈ seen)) (Wrapf "%w: a player can appear only once in a match" Competition.ErrInvalid);;
      validate_participants rest ({[playerID]} ∪ seen)
  end.
Definition validateParticipantIDs (sideOne sideTwo : list string) : result unit :=
  validate_participants (sideOne ++ sideTwo) ∅.

(** The number of rows that satisfy a condition. *)
Definition count_rows {K A} `{Countable K} (p : K * A -> bool) (m : gmap K A) : Z :=
  Z.of_nat (length (List.filter p (map_to_list m))).

Definition cast_all (l : list string) : result (list string) := mapM cast l.

Definition player_active (p : string) d : bool := default false (pl_active <$> co_players d !! p).
(** The rows of a team's roster. *)
Definition on_team (event team : string) (kr : string * string * RosterRow) : bool :=
  bool_decide (kr.1.1 = event) && bool_decide (ro_team kr.2 = team).

Definition requireActiveRosterPlayers (eventID teamID : string) (playerIDs : list string) : go unit :=
  '(activeCount, captainCount) ← query "check match roster players: %w" (fun d =>
    e ← cast eventID;
    t ← cast teamID;
    ids ← cast_all playerIDs;
    Ok (count_rows (fun kr => on_team e t kr && player_active kr.1.2 d && bool_decide (kr.1.2 ∈ ids)) (co_roster d),
        count_rows (fun kr => on_team e t kr && ro_captain kr.2) (co_roster d)));
  if captainCount =? 0
  then failing (Wrapf "%w: each team must have a captain before a match is created" Competition.ErrInvalid)
  else if negb (activeCount =? Z.of_nat (length playerIDs))
  then failing (Wrapf "%w: every participant must be an active golfer on the selected team's roster" Competition.ErrInvalid)
  else mret ().

Definition requireDistinctEventTeams (eventID sideOneTeamID sideTwoTeamID : string) : go unit :=
  count ← query "check match teams: %w" (fun d =>
    e ← cast eventID;
    ids ← cast_all [sideOneTeamID; sideTwoTeamID];
    Ok (count_rows (fun kr => bool_decide (te_event kr.2 = e) && bool_decide (kr.1 ∈ ids)) (co_teams d)));
  if negb (count =? 2) then failing (Wrapf "%w: choose two teams from this event" Competition.ErrInvalid) else mret ().

Definition next_match_number (event : string) d : Z :=
  foldr Z.max 0 (ma_number <$> List.filter (fun m => bool_decide (ma_event m = event)) (map_to_list (co_matches d)).*2) + 1.

Definition insert_match (id : string) (x : MatchDBRow) d : result CompDB :=
  fail_if (negb (bool_decide (is_Some (co_events d !! ma_event x)))) foreign_key;;
  fail_if (bool_decide (is_Some (co_matches d !! id))
           || bool_decide (map_Exists (fun _ y => ma_event y = ma_event x /\ ma_number y = ma_number x) (co_matches d)))
    duplicate_key;;
  Ok (with_matches (<[id := x]> (co_matches d)) d).

(** The foreign keys to the match and the team of the same event, and the
    unique side numbers and teams of a match. *)
Definition insert_side (id : string) (x : SideRow) d : result CompDB :=
  fail_if (negb (bool_decide (ma_event <$> co_matches d !! si_match x = Some (si_event x)))
           || negb (bool_decide (te_event <$> co_teams d !! si_team x = Some (si_event x)))) foreign_key;;
  fail_if (bool_decide (is_Some (co_sides d !! id))
           || bool_decide (map_Exists (fun _ y => si_match y = si_match x
                /\ (si_number y = si_number x \/ si_team y = si_team x)) (co_sides d))) duplicate_key;;
  Ok (with_sides (<[id := x]> (co_sides d)) d).

Definition insertSide (eventID matchID : string) (number : Z) (teamID : string) : go string :=
  statement "insert match side %d: %w" (fun n d =>
    e ← cast eventID;
    t ← cast teamID;
    d' ← insert_side (gen_uuid n) (mkSideRow e matchID number t) d;
    Ok (d', gen_uuid n)).

Definition insert_participant (matchID playerID : string) (x : ParticipantRow) d : result CompDB :=
  fail_if (negb (bool_decide (si_match <$> co_sides d !! pa_side x = Some matchID))
           || negb (bool_decide (is_Some (co_players d !! playerID)))) foreign_key;;
  fail_if (bool_decide (is_Some (co_participants d !! (matchID, playerID)))
           || bool_decide (map_Exists (fun _ y => y = x) (co_participants d))) duplicate_key;;
  Ok (with_participants (<[(matchID, playerID) := x]> (co_participants d)) d).

(** The loop with its index [i]. *)
Fixpoint insert_participants (matchID sideID : string) (playerIDs : list string) (i : Z) : go unit :=
  match playerIDs with
  | [] => mret ()
  | playerID :: rest =>
      (if is_blank playerID then mret ()
       else exec "insert participant %s: %w" (fun d =>
         p ← cast playerID;
         insert_participant matchID p (mkParticipantRow sideID (i + 1)) d));;
      insert_participants matchID sideID rest (i + 1)
  end.
Definition insertParticipants (matchID sideID : string) (playerIDs : list string) : go unit :=
  insert_participants matchID sideID playerIDs 0.

Definition CreateMatch (pool : bool) (req : CreateMatchRequest) : go MatchCreated :=
  if negb pool then failing no_co_pool
  else if bool_decide (Side1TeamID req = Side2TeamID req) then failing (Errorf "a match needs two different teams")
  else
    let side1 := normalizeParticipantIDs (Side1PlayerIDs req) in
    let side2 := normalizeParticipantIDs (Side2PlayerIDs req) in
    lift (ValidateParticipantCounts (CM_Format req) (Z.of_nat (length side1)) (Z.of_nat (length side2)));;
    lift (validateParticipantIDs side1 side2);;
    co_tx pool "begin create match: %w" (
      requireStaff (CM_CreatedBy req);;
      requireDistinctEventTeams (CM_EventID req) (Side1TeamID req) (Side2TeamID req);;
      wrapped "side 1: %w" (requireActiveRosterPlayers (CM_EventID req) (Side1TeamID req) side1);;
      wrapped "side 2: %w" (requireActiveRosterPlayers (CM_EventID req) (Side2TeamID req) side2);;
      matchNumber ← query "next match number: %w" (fun d => e ← cast (CM_EventID req); Ok (next_match_number e d));
      matchID ← statement "insert match: %w" (fun n d =>
        e ← cast (CM_EventID req);
        cast (CM_CreatedBy req);;
        d' ← insert_match (gen_uuid n) (mkMatchDBRow e matchNumber (CM_Format req) "open") d;
        Ok (d', gen_uuid n));
      side1ID ← insertSide (CM_EventID req) matchID 1 (Side1TeamID req);
      side2ID ← insertSide (CM_EventID req) matchID 2 (Side2TeamID req);
      insertParticipants matchID side1ID side1;;
      insertParticipants matchID side2ID side2;;
      mret (Commit "commit create match: %w" (mkMatchCreated matchID side1ID side2ID))).

(** *** store.go: results *)
Record RecordResultRequest := mkRecordResultRequest {
  RR_MatchID : string; Winner : string; RR_Score : string; ActorUserID : string; RR_Reason : string
}.

(** The sides of a match by number. *)
Definition sides_of (match_ : string) d : list (string * SideRow) :=
  List.filter (fun kx => bool_decide (si_match kx.2 = match_)) (map_to_list (co_sides d)).
Definition loadSideIDs (matchID : string) : go (gmap Z string) :=
  sides ← query "load match sides: %w" (fun d =>
    m ← cast matchID;
    Ok (list_to_map ((fun kx => (si_number kx.2, kx.1)) <$> sides_of m d) : gmap Z string));
  if negb (bool_decide (size sides = 2%nat)) then failing (Errorf "match %s does not have two sides") else mret sides.

(** Outcome, winning side, and the points of both sides. *)
Definition resolveOutcome (winner : string) (sides : gmap Z string) : string * string * (Z * Z) :=
  if bool_decide (winner = "side_1"%string) then ("side_win"%string, default ""%string (sides !! 1), (100, 0))
  else if bool_decide (winner = "side_2"%string) then ("side_win"%string, default ""%string (sides !! 2), (0, 100))
  else ("tie"%string, ""%string, (50, 50)).

Definition verifiedOutcome (winner : string) : string :=
  if bool_decide (winner = "side_1"%string) then "side_1"
  else if bool_decide (winner = "side_2"%string) then "side_2" else "tie".

(** The results of a match, latest version first. *)
Definition results_of (match_ : string) d : list (string * VerifiedRow) :=
  merge_sort latest_first
    (List.filter (fun kx => bool_decide (vr_match kx.2 = match_)) (map_to_list (co_verified d))).

Definition insert_verified (id : string) (x : VerifiedRow) d : result CompDB :=
  fail_if (negb (bool_decide (is_Some (co_matches d !! vr_match x)))) foreign_key;;
  fail_if (bool_decide (is_Some (co_verified d !! id))
           || bool_decide (map_Exists (fun _ y => vr_match y = vr_match x /\ vr_version y = vr_version x) (co_verified d)))
    duplicate_key;;
  Ok (with_verified (<[id := x]> (co_verified d)) d).

Definition set_ma_state (state : string) (m : MatchDBRow) : MatchDBRow :=
  mkMatchDBRow (ma_event m) (ma_number m) (ma_format m) state.

Definition RecordAdminResult (pool : bool) (req : RecordResultRequest) : go string :=
  if negb pool then failing no_co_pool
  else if negb (bool_decide (Winner req = "side_1"%string)) && negb (bool_decide (Winner req = "side_2"%string))
          && negb (bool_decide (Winner req = "tie"%string))
  then failing (Errorf "winner must be side_1, side_2, or tie")
  else
    let trimmed := TrimSpace (RR_Reason req) in
    let reason := if bool_decide (trimmed = ""%string) then "Recorded by admin"%string else trimmed in
    let score := TrimSpace (RR_Score req) in
    if 120 <? len score then failing (Errorf "score must be at most 120 characters")
    else
      co_tx pool "begin record result: %w" (
        at_ ← tx_now;
        requireStaff (ActorUserID req);;
        found ← query "load match: %w" (fun d => m ← cast (RR_MatchID req); Ok (co_matches d !! m));
        match found with
        | None => failing (Errorf "match %s not found")
        | Some row =>
            let eventID := ma_event row in
            if bool_decide (ma_state row = "verified"%string) then
              existing ← query "load existing verification: %w" (fun d =>
                m ← cast (RR_MatchID req); must_find (head (results_of m d)));
              mret (Commit "%w" existing.1)
            else if negb (bool_decide (ma_state row = "open"%string)) && negb (bool_decide (ma_state row = "pending_verification"%string))
                    && negb (bool_decide (ma_state row = "disputed"%string))
            then failing (Errorf "match in state %s cannot be verified")
            else
              sides ← loadSideIDs (RR_MatchID req);
              let '(outcome, winningSideID, points_) := resolveOutcome (Winner req) sides in
              verificationID ← statement "insert verified result: %w" (fun n d =>
                m ← cast (RR_MatchID req);
                by_ ← cast (ActorUserID req);
                d' ← insert_verified (gen_uuid n)
                       (mkVerifiedRow m 1 points_ (verifiedOutcome (Winner req)) "admin_override" by_ reason
                          (if bool_decide (score = ""%string) then None else Some score) at_) d;
                Ok (d', gen_uuid n));
              exec "mark match verified: %w" (fun d =>
                m ← cast (RR_MatchID req);
                Ok (with_matches (alter (set_ma_state "verified") m (co_matches d)) d));;
              co_insert_audit "record result audit: %w" (ActorUserID req) "competition.result_admin_verified" "match"
                (RR_MatchID req) (TrimSpace reason) []
                [("verification_id"%string, AString verificationID); ("version"%string, AInt 1); ("winner"%string, AString (Winner req));
                 ("score"%string, AString score); ("verification_method"%string, AString "admin_override")];;
              eventID2 ← newUUID;
              instant ← now;
              publish (mkEnvelope eventID2 "match" (RR_MatchID req) 1 MatchResultVerified
                (marshal_MatchResultVerified
                   (mkMatchResultVerifiedPayload (RR_MatchID req) eventID verificationID outcome winningSideID score))
                (UTC instant) "" "");;
              mret (Commit "commit record result: %w" verificationID)
        end).

(** *** delete.go: errors *)
Definition ErrDeleteNotFound := Sentinel "competitionpg.ErrDeleteNotFound".
Definition ErrDeleteProtected := Sentinel "competitionpg.ErrDeleteProtected".
Definition maxDeleteReasonLength : Z := 500.

(** *** roster.go *)
Definition ErrRosterNotFound := Sentinel "competitionpg.ErrRosterNotFound".
Definition ErrRosterProtected := Sentinel "competitionpg.ErrRosterProtected".
Definition ErrLastCaptain := Sentinel "competitionpg.ErrLastCaptain".

Record SetTeamMemberRequest := mkSetTeamMemberRequest {
  TM_EventID : string; TM_TeamID : string; TM_PlayerID : string; IsCaptain : bool; TM_ActorUserID : string
}.

Definition lockRosterTeam (eventID teamID : string) : go Z :=
  found ← query "load roster team: %w" (fun d =>
    t ← cast teamID;
    e ← cast eventID;
    Ok (match co_teams d !! t with
        | Some x => if bool_decide (te_event x = e) then Some (te_version x) else None
        | None => None
        end));
  match found with None => failing ErrDeleteNotFound | Some version => mret version end.

Definition recordRosterAudit (actorUserID teamID playerID action : string) (before after : list (string * audit_value))
    (reason : string) : go unit :=
  co_insert_audit "record roster audit for player %s: %w" actorUserID ("competition.roster_" ++ action) "team" teamID reason
    (before ++ [("player_id"%string, AString playerID)]) (after ++ [("player_id"%string, AString playerID)]).

Definition publishRosterChanged (req : SetTeamMemberRequest) (version : Z) (action : string) (isCaptain : bool) : go unit :=
  eventID ← newUUID;
  instant ← now;
  wrapped "publish roster event: %w" (publish (mkEnvelope eventID "team" (TM_TeamID req) version TeamRosterChanged
    (marshal_TeamRosterChanged
       (mkTeamRosterChangedPayload (TM_EventID req) (TM_TeamID req) (TM_PlayerID req) action isCaptain))
    (UTC instant) "" "")).

Definition set_te_version (v : Z) (t : TeamDBRow) : TeamDBRow := mkTeamDBRow (te_event t) (te_slug t) (te_name t) v.
Definition advance_version (teamID : string) (version : Z) : go unit :=
  exec "advance team roster version: %w" (fun d =>
    t ← cast teamID;
    Ok (with_teams (alter (set_te_version version) t (co_teams d)) d)).

(** The membership of a player in a team, if the event's is in that team. *)
Definition roster_entry (event team player : string) d : option RosterRow :=
  match co_roster d !! (event, player) with
  | Some r => if bool_decide (ro_team r = team) then Some r else None
  | None => None
  end.

(** [INSERT ... ON CONFLICT (event_id, player_id) DO UPDATE ... WHERE] the
    team is the same, with the foreign key to the event's team. *)
Definition upsert_roster (event team player : string) (captain : bool) d : result CompDB :=
  fail_if (negb (bool_decide (te_event <$> co_teams d !! team = Some event))) foreign_key;;
  match co_roster d !! (event, player) with
  | Some r => if bool_decide (ro_team r = team)
              then Ok (with_roster (<[(event, player) := mkRosterRow team captain]> (co_roster d)) d)
              else Ok d
  | None => Ok (with_roster (<[(event, player) := mkRosterRow team captain]> (co_roster d)) d)
  end.

Definition SetTeamMember (pool : bool) (req : SetTeamMemberRequest) : go unit :=
  if negb pool then failing no_co_pool
  else if negb (isUUID (TM_EventID req)) || negb (isUUID (TM_TeamID req)) || negb (isUUID (TM_PlayerID req))
  then failing (Wrapf "%w: event, team, and player are required" Competition.ErrInvalid)
  else
    co_tx pool "begin roster update: %w" (
      requireStaff (TM_ActorUserID req);;
      version ← lockRosterTeam (TM_EventID req) (TM_TeamID req);
      player ← query "load roster player: %w" (fun d =>
        p ← cast (TM_PlayerID req);
        Ok (x ← co_players d !! p; if pl_active x then Some (pl_display_name x) else None));
      match player with
      | None => failing (Wrapf "%w: choose an active player" Competition.ErrInvalid)
      | Some playerName =>
          entry ← query "load roster membership: %w" (fun d =>
            e ← cast (TM_EventID req);
            t ← cast (TM_TeamID req);
            p ← cast (TM_PlayerID req);
            Ok (roster_entry e t p d));
          let existed := bool_decide (is_Some entry) in
          let oldCaptain := default false (ro_captain <$> entry) in
          '(memberCount, captainCount) ← query "count team roster: %w" (fun d =>
            e ← cast (TM_EventID req);
            t ← cast (TM_TeamID req);
            Ok (count_rows (on_team e t) (co_roster d), count_rows (fun kr => on_team e t kr && ro_captain kr.2) (co_roster d)));
          let newCaptain := IsCaptain req || (memberCount =? 0) || (captainCount =? 0) in
          if existed && oldCaptain && negb newCaptain && (captainCount =? 1) then failing ErrLastCaptain
          else if existed && Bool.eqb oldCaptain newCaptain then mret (Commit "commit unchanged roster update: %w" ())
          else
            exec "set team roster membership: %w" (fun d =>
              e ← cast (TM_EventID req);
              t ← cast (TM_TeamID req);
              p ← cast (TM_PlayerID req);
              upsert_roster e t p newCaptain d);;
            belongsToTeam ← query "verify team roster membership: %w" (fun d =>
              e ← cast (TM_EventID req);
              t ← cast (TM_TeamID req);
              p ← cast (TM_PlayerID req);
              Ok (bool_decide (is_Some (roster_entry e t p d))));
            if negb belongsToTeam
            then failing (Wrapf "%w: that player already belongs to another team in this event" Competition.ErrInvalid)
            else
              advance_version (TM_TeamID req) (wrap64 (version + 1));;
              recordRosterAudit (TM_ActorUserID req) (TM_TeamID req) (TM_PlayerID req)
                (if existed then "captain_status_changed" else "added")
                [("present"%string, ABool existed); ("is_captain"%string, ABool oldCaptain)]
                [("present"%string, ABool true); ("is_captain"%string, ABool newCaptain); ("player_name"%string, AString playerName)]
                "team roster updated";;
              publishRosterChanged req (wrap64 (version + 1)) (if existed then "captain_status_changed" else "added") newCaptain;;
              mret (Commit "commit roster update: %w" ())
      end).

(** Whether a player played a match for a team. *)
Definition played_for (event team player : string) d : bool :=
  bool_decide (map_Exists (fun k x => k.2 = player
    /\ (fun s => (si_event s, si_team s)) <$> co_sides d !! pa_side x = Some (event, team)) (co_participants d)).

Definition roster_member (event team player : string) d : option (string * bool) :=
  r ← roster_entry event team player d;
  x ← co_players d !! player;
  Some (pl_display_name x, ro_captain r).

Definition RemoveTeamMember (pool : bool) (eventID teamID playerID actorUserID reason : string) : go unit :=
  if negb pool then failing no_co_pool
  else if negb (isUUID eventID) || negb (isUUID teamID) || negb (isUUID playerID)
  then failing (Wrapf "%w: event, team, and player are required" Competition.ErrInvalid)
  else
    let reason := TrimSpace reason in
    if bool_decide (reason = ""%string) || (maxDeleteReasonLength <? len reason)
    then failing (Errorf "roster removal requires a reason of at most 500 characters")
    else
      co_tx pool "begin roster removal: %w" (
        requireStaff actorUserID;;
        version ← lockRosterTeam eventID teamID;
        found ← query "load roster membership: %w" (fun d =>
          e ← cast eventID;
          t ← cast teamID;
          p ← cast playerID;
          Ok (roster_member e t p d));
        match found with
        | None => failing ErrRosterNotFound
        | Some (playerName, wasCaptain) =>
            has_history ← query "check roster history: %w" (fun d =>
              e ← cast eventID;
              t ← cast teamID;
              p ← cast playerID;
              Ok (played_for e t p d));
            if bool_decide (has_history = true) then failing ErrRosterProtected
            else
              '(otherMembers, otherCaptains) ← query "count remaining roster: %w" (fun d =>
                e ← cast eventID;
                t ← cast teamID;
                p ← cast playerID;
                Ok (count_rows (fun kr => on_team e t kr && negb (bool_decide (kr.1.2 = p))) (co_roster d),
                    count_rows (fun kr => on_team e t kr && negb (bool_decide (kr.1.2 = p)) && ro_captain kr.2) (co_roster d)));
              if wasCaptain && (0 <? otherMembers) && (otherCaptains =? 0) then failing ErrLastCaptain
              else
                exec "remove roster membership: %w" (fun d =>
                  e ← cast eventID;
                  t ← cast teamID;
                  p ← cast playerID;
                  Ok (match roster_entry e t p d with
                      | Some _ => with_roster (delete (e, p) (co_roster d)) d
                      | None => d
                      end));;
                advance_version teamID (wrap64 (version + 1));;
                recordRosterAudit actorUserID teamID playerID "removed"
                  [("present"%string, ABool true); ("is_captain"%string, ABool wasCaptain); ("player_name"%string, AString playerName)]
                  [("present"%string, ABool false)] reason;;
                publishRosterChanged (mkSetTeamMemberRequest eventID teamID playerID false actorUserID) (wrap64 (version + 1)) "removed" false;;
                mret (Commit "commit roster removal: %w" ())
        end).

(** *** links.go *)
Definition ErrPlayerNotFound := Sentinel "competitionpg.ErrPlayerNotFound".
Definition ErrMemberNotFound := Sentinel "competitionpg.ErrMemberNotFound".
Definition ErrPlayerAlreadyLinked := Sentinel "competitionpg.ErrPlayerAlreadyLinked".
Definition ErrMemberAlreadyLinked := Sentinel "competitionpg.ErrMemberAlreadyLinked".
Definition ErrPlayerLinkMismatch := Sentinel "competitionpg.ErrPlayerLinkMismatch".

Definition is_link_audit (player : string) (a : AuditRow) : bool :=
  bool_decide (au_target_type a = "player"%string) && bool_decide (au_target_id a = player)
  && (bool_decide (au_action a = "player.linked_to_user"%string) || bool_decide (au_action a = "player.unlinked_from_user"%string)).

Definition publishPlayerLinkEvent (playerID userID : string) (eventType : EventType) : go unit :=
  aggregateVersion ← query "load player aggregate version: %w" (fun d =>
    p ← cast playerID; Ok (Z.of_nat (length (List.filter (is_link_audit p) (co_audit d)))));
  eventID ← newUUID;
  instant ← now;
  wrapped "publish player link event: %w" (publish (mkEnvelope eventID "player" playerID aggregateVersion eventType
    (marshal_PlayerUserLinkChanged (mkPlayerUserLinkChangedPayload playerID userID)) (UTC instant) "" "")).

Definition set_linked (user : option string) (p : PlayerDBRow) : PlayerDBRow :=
  mkPlayerDBRow user (pl_slug p) (pl_display_name p) (pl_active p).
(** [UPDATE players SET linked_user_id], unique. *)
Definition link_player (player : string) (user : option string) d : result CompDB :=
  fail_if (bool_decide (user <> None /\ map_Exists (fun k y => k <> player /\ pl_linked_user y = user) (co_players d))) duplicate_key;;
  Ok (with_players (alter (set_linked user) player (co_players d)) d).

Definition LinkPlayerToUser (pool : bool) (actorUserID playerID targetUserID : string) : go unit :=
  co_tx pool "begin link player: %w" (
    requireStaff actorUserID;;
    target ← query "load target membership: %w" (fun d => u ← cast targetUserID; Ok (active_role u d));
    match target with
    | None => failing ErrMemberNotFound
    | Some _ =>
        other ← query "check existing user link: %w" (fun d =>
          u ← cast targetUserID;
          p ← cast playerID;
          Ok (bool_decide (map_Exists (fun k y => k <> p /\ pl_linked_user y = Some u) (co_players d))));
        if bool_decide (other = true) then failing ErrMemberAlreadyLinked
        else
          found ← query "load player: %w" (fun d =>
            p ← cast playerID;
            Ok (x ← co_players d !! p; if pl_active x then Some (default ""%string (pl_linked_user x)) else None));
          match found with
          | None => failing ErrPlayerNotFound
          | Some currentUser =>
              if bool_decide (currentUser = targetUserID) then mret (Commit "%w" ())
              else if negb (bool_decide (currentUser = ""%string)) then failing ErrPlayerAlreadyLinked
              else
                exec "link player: %w" (fun d =>
                  p ← cast playerID;
                  u ← cast targetUserID;
                  link_player p (Some u) d);;
                co_insert_audit "record link audit: %w" actorUserID "player.linked_to_user" "player" playerID
                  "mapped member to historical player" [("user_id"%string, ANull)] [("user_id"%string, AString targetUserID)];;
                publishPlayerLinkEvent playerID targetUserID PlayerLinkedToUser;;
                mret (Commit "%w" ())
          end
    end).

Definition UnlinkPlayer (pool : bool) (actorUserID playerID targetUserID : string) : go unit :=
  co_tx pool "begin unlink player: %w" (
    requireStaff actorUserID;;
    found ← query "load player for unlink: %w" (fun d =>
      p ← cast playerID;
      Ok (x ← co_players d !! p; Some (default ""%string (pl_linked_user x))));
    match found with
    | None => failing ErrPlayerNotFound
    | Some currentUser =>
        if bool_decide (currentUser = ""%string) then mret (Commit "%w" ())
        else if negb (bool_decide (currentUser = targetUserID)) then failing ErrPlayerLinkMismatch
        else
          exec "unlink player: %w" (fun d => p ← cast playerID; link_player p None d);;
          co_insert_audit "record unlink audit: %w" actorUserID "player.unlinked_from_user" "player" playerID
            "removed member-player mapping" [("user_id"%string, AString targetUserID)] [("user_id"%string, ANull)];;
          publishPlayerLinkEvent playerID targetUserID PlayerUnlinkedFromUser;;
          mret (Commit "%w" ())
    end).

(** *** delete.go *)

(** Whether rows of the tables of other packages refer to a record: markets,
    submissions, media links and imported records of a match, imported records
    of a team, media links and imported records of an event. *)
Context (referenced : string -> string -> bool).

Record deletedSetupRecord := mkDeletedSetupRecord {
  recordType : string; recordID : string; recordName : string; recordReason : string; beforeData : list (string * audit_value)
}.

(** [string_agg(p.display_name, ', ' ORDER BY mp.playing_order, p.display_name)] *)
Definition name_order (x y : Z * string) : Prop := x.1 < y.1 \/ (x.1 = y.1 /\ String.leb x.2 y.2 = true).
#[local] Instance name_order_dec : RelDecision name_order.
Proof. intros x y. unfold name_order. apply _. Defined.
Definition side_players (side : string) d : string :=
  String.concat ", " ((merge_sort name_order (omap (fun kx : string * string * ParticipantRow =>
    x ← co_players d !! kx.1.2;
    if bool_decide (pa_side kx.2 = side) then Some (pa_order kx.2, pl_display_name x) else None)
    (map_to_list (co_participants d)))).*2).
Definition side_number (number : Z) (match_ : string) d : option (string * SideRow) :=
  head (List.filter (fun kx => bool_decide (si_number kx.2 = number)) (sides_of match_ d)).
Definition team_name (s : option (string * SideRow)) d : string :=
  default ""%string ('(_, x) ← s; te_name <$> co_teams d !! si_team x).
Definition players_text (s : option (string * SideRow)) d : string :=
  match s with Some (k, _) => side_players k d | None => ""%string end.

Definition publishSetupDeleted (record : deletedSetupRecord) : go unit :=
  eventID ← newUUID;
  instant ← now;
  wrapped "publish setup deletion: %w" (publish (mkEnvelope eventID (recordType record) (recordID record) 1 CompetitionSetupDeleted
    (marshal_CompetitionSetupDeleted
       (mkCompetitionSetupDeletedPayload (recordType record) (recordID record) (recordName record) (recordReason record)))
    (UTC instant) "" "")).

Definition deleteSetup (pool : bool) (actorUserID reason : string) (deleteRecord : string -> go deletedSetupRecord) : go unit :=
  if negb pool then failing no_co_pool
  else
    let reason := TrimSpace reason in
    if bool_decide (reason = ""%string) || (maxDeleteReasonLength <? len reason)
    then failing (Errorf "deletion requires a reason of at most 500 characters")
    else
      co_tx pool "begin setup deletion: %w" (
        requireStaff actorUserID;;
        record ← deleteRecord reason;
        co_insert_audit "record setup deletion audit: %w" actorUserID ("competition." ++ recordType record ++ "_deleted")
          (recordType record) (recordID record) (recordReason record) (beforeData record) [("deleted"%string, ABool true)];;
        publishSetupDeleted record;;
        mret (Commit "commit setup deletion: %w" ())).

(** [DELETE FROM matches] cascades to the sides, the participants and the
    application of its statistics. *)
Definition delete_match (match_ : string) d : CompDB :=
  with_matches (delete match_ (co_matches d))
    (with_sides (filter (fun kx => si_match kx.2 <> match_) (co_sides d))
      (with_participants (filter (fun kx => kx.1.1 <> match_) (co_participants d))
        (with_applied (co_applied d ∖ {[match_]}) d))).

Record match_details := mkMatchDetails { md_row : MatchDBRow; md_teams : string * string; md_players : string * string }.
Definition match_details_of (match_ : string) d : option match_details :=
  row ← co_matches d !! match_;
  let s1 := side_number 1 match_ d in
  let s2 := side_number 2 match_ d in
  Some (mkMatchDetails row (team_name s1 d, team_name s2 d) (players_text s1 d, players_text s2 d)).

Definition match_protected (state match_ : string) d : bool :=
  (negb (bool_decide (state = "scheduled"%string)) && negb (bool_decide (state = "open"%string)))
  || referenced "match" match_
  || bool_decide (map_Exists (fun _ x => vr_match x = match_) (co_verified d))
  || bool_decide (match_ ∈ co_applied d).

Definition format_text (f : MatchFormat) : string :=
  match f with
  | FormatSingles => "singles" | FormatFourball => "fourball" | FormatFoursomes => "foursomes"
  | FormatScramble => "scramble" | FormatOther => "other" | FormatUnknown text => text
  end.

Definition DeleteMatch (pool : bool) (matchID actorUserID reason : string) : go unit :=
  deleteSetup pool actorUserID reason (fun cleanReason =>
    found ← query "load match for deletion: %w" (fun d => m ← cast matchID; Ok (match_details_of m d));
    match found with
    | None => failing ErrDeleteNotFound
    | Some (mkMatchDetails row (side1, side2) (players1, players2)) =>
        has_history ← query "check match deletion history: %w" (fun d => m ← cast matchID; Ok (match_protected (ma_state row) m d));
        if bool_decide (has_history = true) then failing ErrDeleteProtected
        else
          exec "delete match: %w" (fun d => m ← cast matchID; Ok (delete_match m d));;
          mret (mkDeletedSetupRecord "match" matchID
            ("Match " ++ sprint_d (ma_number row) ++ " · " ++ side1 ++ " vs " ++ side2) cleanReason
            [("event_id"%string, AString (ma_event row)); ("match_number"%string, AInt (ma_number row));
             ("format"%string, AString (format_text (ma_format row))); ("state"%string, AString (ma_state row));
             ("side_1_team"%string, AString side1); ("side_1_players"%string, AString players1);
             ("side_2_team"%string, AString side2); ("side_2_players"%string, AString players2)])
    end).

(** A team of a match cannot be deleted; its roster goes with it. *)
Definition delete_team (team : string) d : result CompDB :=
  fail_if (bool_decide (map_Exists (fun _ x => si_team x = team) (co_sides d))) foreign_key;;
  Ok (with_teams (delete team (co_teams d)) (with_roster (filter (fun kx => ro_team kx.2 <> team) (co_roster d)) d)).

Definition team_protected (team : string) d : bool :=
  bool_decide (map_Exists (fun _ x => si_team x = team) (co_sides d))
  || bool_decide (map_Exists (fun _ x => ro_team x = team) (co_roster d))
  || referenced "team" team.

Definition DeleteTeam (pool : bool) (eventID teamID actorUserID reason : string) : go unit :=
  deleteSetup pool actorUserID reason (fun cleanReason =>
    found ← query "load team for deletion: %w" (fun d =>
      t ← cast teamID;
      e ← cast eventID;
      Ok (match co_teams d !! t with
          | Some x => if bool_decide (te_event x = e) then Some x else None
          | None => None
          end));
    match found with
    | None => failing ErrDeleteNotFound
    | Some x =>
        has_history ← query "check team deletion history: %w" (fun d => t ← cast teamID; Ok (team_protected t d));
        if bool_decide (has_history = true) then failing ErrDeleteProtected
        else
          exec "delete team: %w" (fun d => t ← cast teamID; delete_team t d);;
          mret (mkDeletedSetupRecord "team" teamID (te_name x) cleanReason
            [("event_id"%string, AString eventID); ("name"%string, AString (te_name x)); ("slug"%string, AString (te_slug x))])
    end).

Definition event_protected (state event : string) d : bool :=
  (negb (bool_decide (state = "draft"%string)) && negb (bool_decide (state = "scheduled"%string))
   && negb (bool_decide (state = "active"%string)))
  || bool_decide (map_Exists (fun _ x => te_event x = event) (co_teams d))
  || bool_decide (map_Exists (fun _ x => ma_event x = event) (co_matches d))
  || bool_decide (map_Exists (fun k _ => k.2 = event) (co_stats d))
  || referenced "event" event.

(** Nothing refers to the event any more but, in principle, roster rows, which
    go with it. *)
Definition delete_event (event : string) d : CompDB :=
  with_events (delete event (co_events d)) (with_roster (filter (fun kx => kx.1.1 <> event) (co_roster d)) d).

Definition DeleteEvent (pool : bool) (eventID actorUserID reason : string) : go unit :=
  deleteSetup pool actorUserID reason (fun cleanReason =>
    found ← query "load event for deletion: %w" (fun d => e ← cast eventID; Ok (co_events d !! e));
    match found with
    | None => failing ErrDeleteNotFound
    | Some x =>
        has_history ← query "check event deletion history: %w" (fun d => e ← cast eventID; Ok (event_protected (ev_state x) e d));
        if bool_decide (has_history = true) then failing ErrDeleteProtected
        else
          exec "delete event: %w" (fun d => e ← cast eventID; Ok (delete_event e d));;
          mret (mkDeletedSetupRecord "event" eventID (ev_name x ++ " " ++ sprint_d (ev_season_year x)) cleanReason
            [("name"%string, AString (ev_name x)); ("slug"%string, AString (ev_slug x)); ("season_year"%string, AInt (ev_season_year x));
             ("venue"%string, AString (ev_venue x)); ("state"%string, AString (ev_state x))])
    end).

(** *** stats.go *)
Context (unmarshal_bytes : string -> result MatchResultVerifiedPayload).

Definition StatsProjectionConsumer_Name : string := "competition-stats-projection".
Definition StatsProjectionConsumer_Handles (t : EventType) : bool := bool_decide (t = MatchResultVerified).

(** Wins, losses, ties and points. *)
Definition outcomeForSide (outcome winningSideID sideID : string) : Z * Z * Z * Z :=
  if bool_decide (outcome = "tie"%string) then (0, 0, 1, 50)
  else if bool_decide (outcome = "side_win"%string) then
    if bool_decide (sideID = winningSideID) then (1, 0, 0, 100) else (0, 1, 0, 0)
  else (0, 0, 0, 0).

Definition no_tally : Tally := mkTally 0 0 0 0 0.
Definition add_tally (x y : Tally) : Tally :=
  mkTally (played x + played y) (wins x + wins y) (losses x + losses y) (ties x + ties y) (points x + points y).

(** What one match adds to a participant's row. *)
Definition contribution (outcome winningSideID sideID : string) (format : MatchFormat) : StatRow :=
  let '(w, l, t, p) := outcomeForSide outcome winningSideID sideID in
  let all := mkTally 1 w l t p in
  if bool_decide (format = FormatSingles) then mkStatRow all all no_tally 1 else mkStatRow all no_tally all 1.
Definition add_stats (x y : StatRow) : StatRow :=
  mkStatRow (add_tally (st_all x) (st_all y)) (add_tally (st_singles x) (st_singles y)) (add_tally (st_team x) (st_team y))
    (st_version x + st_version y).

(** The upsert of [player_stat_projections]. *)
Definition project (player event : string) (c : StatRow) d : result CompDB :=
  match co_stats d !! (player, event) with
  | Some x => Ok (with_stats (<[(player, event) := add_stats x c]> (co_stats d)) d)
  | None =>
      fail_if (negb (bool_decide (is_Some (co_players d !! player))) || negb (bool_decide (is_Some (co_events d !! event)))) foreign_key;;
      Ok (with_stats (<[(player, event) := c]> (co_stats d)) d)
  end.

Fixpoint project_all (payload : MatchResultVerifiedPayload) (participants : list (string * string * MatchFormat)) : go unit :=
  match participants with
  | [] => mret ()
  | (playerID, sideID, format) :: rest =>
      exec "project stats for player %s: %w" (fun d =>
        e ← cast (MRV_CompetitionEventID payload);
        project playerID e (contribution (MRV_Outcome payload) (MRV_WinningSideID payload) sideID format) d);;
      project_all payload rest
  end.

Definition participants_of (match_ : string) d : list (string * string * MatchFormat) :=
  omap (fun kx : string * string * ParticipantRow =>
    row ← co_matches d !! match_;
    if bool_decide (kx.1.1 = match_) then Some (kx.1.2, pa_side kx.2, ma_format row) else None) (map_to_list (co_participants d)).

Definition StatsProjectionConsumer_Handle (pool : bool) (envelope : Envelope) : go unit :=
  if negb pool then failing (Errorf "competition-stats-projection: pool is required")
  else
    payload ← lift (wrap_err "parse MatchResultVerified payload: %w" (unmarshal_MatchResultVerified unmarshal_bytes (Payload envelope)));
    if bool_decide (MRV_MatchID payload = ""%string) || bool_decide (MRV_CompetitionEventID payload = ""%string)
    then failing (Errorf "competition-stats-projection: payload missing match or event ID")
    else
      co_tx pool "begin stats projection: %w" (
        inserted ← statement "guard stats application: %w" (fun _ d =>
          m ← cast (MRV_MatchID payload);
          fail_if (negb (bool_decide (is_Some (co_matches d !! m)))) foreign_key;;
          if bool_decide (m ∈ co_applied d) then Ok (d, false) else Ok (with_applied ({[m]} ∪ co_applied d) d, true));
        if negb inserted then mret (Commit "%w" ())
        else
          participants ← query "load participants: %w" (fun d => m ← cast (MRV_MatchID payload); Ok (participants_of m d));
          project_all payload participants;;
          mret (Commit "commit stats projection: %w" ())).
End competition_store.
