(* ===== verification/Slugs.v ===== *)
(** * The slugs of the competition store

    [slugify] of [CompetitionDB] against the pattern the tables check,
    [^[a-z0-9]+(?:-[a-z0-9]+)*$]. *)
From S2P Require Import Prelude GoStrings GoTime Float64 SQL EventIDs CompetitionDB.

(** The pattern, read left to right: [after_dash] before the first character
    and after every dash. *)
Fixpoint slug_rest (after_dash : bool) (l : list ascii) : bool :=
  match l with
  | [] => negb after_dash
  | a :: l' => if slug_byte a then slug_rest false l' else byte_is 45 a && negb after_dash && slug_rest true l'
  end.
Definition is_slug (s : string) : bool := slug_rest true (bytes s).

(** ** Bytes of a slug *)
Definition slug_or_dash (a : ascii) : bool := slug_byte a || byte_is 45 a.

Lemma dash_not_slug a : byte_is 45 a = true -> slug_byte a = false.
Proof. unfold slug_byte, is_lower, is_digit, between, byte_is. intros ->%Z.eqb_eq. done. Qed.
Lemma slug_byte_range a : slug_byte a = true -> 48 <= byte_val a <= 57 \/ 97 <= byte_val a <= 122.
Proof. unfold slug_byte, is_lower, is_digit, between. intros [H|H]%orb_prop; bool_prop; lia. Qed.
Lemma slug_or_dash_val a : slug_or_dash a = true -> byte_val a = 45 \/ 48 <= byte_val a <= 57 \/ 97 <= byte_val a <= 122.
Proof. intros [H%slug_byte_range|H%Z.eqb_eq]%orb_prop; tauto. Qed.
Lemma slug_byte_plain a : slug_byte a = true -> plain a = true.
Proof.
  intros H%slug_byte_range. unfold plain, is_ascii, space1, between, byte_is.
  rewrite (proj2 (Z.leb_le 0 _)), (proj2 (Z.leb_le _ 127)), (proj2 (Z.leb_gt _ 13)), (proj2 (Z.eqb_neq _ 32)) by lia.
  by rewrite andb_false_r.
Qed.
Lemma dash_char a : byte_is 45 a = true -> a = "-"%char.
Proof.
  unfold byte_is, byte_val. intros H%Z.eqb_eq. rewrite <- (ascii_N_embedding a). change "-"%char with (ascii_of_N 45). f_equal. lia.
Qed.
Lemma slug_or_dash_lower a : slug_or_dash a = true -> is_ascii a = true /\ lower_byte a = a.
Proof.
  intros H%slug_or_dash_val. unfold is_ascii, lower_byte, is_upper, between. split; [apply andb_true_intro; split; apply Z.leb_le; lia|].
  destruct (65 <=? byte_val a) eqn:E1, (byte_val a <=? 90) eqn:E2; cbn; try done. apply Z.leb_le in E1, E2. lia.
Qed.

(** ** Lists without two dashes in a row *)
Definition no_double (l : list ascii) : Prop := forall l1 l2, l <> l1 ++ "-"%char :: "-"%char :: l2.

Lemma no_double_reverse l : no_double l -> no_double (reverse l).
Proof.
  intros H l1 l2 Hl. apply (H (reverse l2) (reverse l1)). rewrite <- (reverse_involutive l), Hl, reverse_app, !reverse_cons, <- !app_assoc. done.
Qed.
Lemma no_double_tail a l : no_double (a :: l) -> no_double l.
Proof. intros H l1 l2 ->. by apply (H (a :: l1) l2). Qed.
Lemma no_double_next l : no_double ("-"%char :: l) -> head l <> Some "-"%char.
Proof. intros H. destruct l as [|a l]; [done|]. intros [= ->]. by apply (H [] l). Qed.

Lemma strip_runs_alphabet b l : Forall (fun a => slug_or_dash a = true) (strip_runs b l).
Proof.
  revert b. induction l as [|a l IH]; intros b; cbn; [done|]. destruct (slug_byte a) eqn:Ea.
  - constructor; [|done]. unfold slug_or_dash. by rewrite Ea.
  - destruct b; [done|]. by constructor.
Qed.
Lemma strip_runs_no_double b l : no_double (if b : bool then "-"%char :: strip_runs b l else strip_runs b l).
Proof.
  revert b. induction l as [|a l IH]; intros b; cbn.
  - destruct b; intros [|x [|y l1]] l2; cbn; congruence.
  - pose proof (IH true) as Ht. pose proof (IH false) as Hf. cbn in Ht, Hf. destruct (slug_byte a) eqn:Ea.
    + assert (Ha : a <> "-"%char) by (intros ->; done).
      destruct b; intros l1 l2 Hl.
      * destruct l1 as [|x [|y l1]]; cbn in Hl; [congruence|congruence|]. injection Hl as _ _ Hl. by eapply Hf.
      * destruct l1 as [|x l1]; cbn in Hl; [congruence|]. injection Hl as _ Hl. by eapply Hf.
    + by destruct b.
Qed.

Lemma drop_dashes_spec l : exists n, l = replicate n "-"%char ++ drop_dashes l /\ head (drop_dashes l) <> Some "-"%char.
Proof.
  induction l as [|a l (n & Hl & Hh)]; [by exists 0%nat|]. cbn. destruct (byte_is 45 a) eqn:Ea.
  - apply dash_char in Ea as ->. exists (S n). cbn. by rewrite <- Hl.
  - exists 0%nat. split; [done|]. cbn. intros [= ->]. done.
Qed.
Lemma no_double_suffix l1 l2 : no_double (l1 ++ l2) -> no_double l2.
Proof. induction l1 as [|a l1 IH]; [done|]. intros H%no_double_tail. by apply IH. Qed.

(** What [strings.Trim] leaves: inside the text, with no dash at either end. *)
Lemma trim_dashes_spec l (good : ascii -> Prop) :
  Forall good l -> no_double l ->
  Forall good (trim_dashes l) /\ no_double (trim_dashes l) /\ head (trim_dashes l) <> Some "-"%char /\ last (trim_dashes l) <> Some "-"%char.
Proof.
  intros Hg Hd. unfold trim_dashes. destruct (drop_dashes_spec l) as (n & Hl & Hh). set (k := drop_dashes l) in *.
  destruct (drop_dashes_spec (reverse k)) as (m & Hk & Hh'). set (j := drop_dashes (reverse k)) in *.
  assert (Hgk : Forall good k) by (rewrite Hl in Hg; by apply Forall_app in Hg as [_ ?]).
  assert (Hdk : no_double k) by (rewrite Hl in Hd; by eapply no_double_suffix).
  assert (Hrev : k = reverse j ++ replicate m "-"%char).
  { rewrite <- (reverse_involutive k), Hk, reverse_app. f_equal. apply reverse_replicate. }
  split_and!.
  - rewrite Hrev in Hgk. by apply Forall_app in Hgk as [? _].
  - apply no_double_reverse. apply no_double_reverse in Hdk. rewrite Hk in Hdk. by eapply no_double_suffix.
  - rewrite Hrev in Hh. by destruct (reverse j).
  - by rewrite last_reverse.
Qed.

Lemma slug_rest_intro l b :
  Forall (fun a => slug_or_dash a = true) l -> no_double l -> last l <> Some "-"%char ->
  (b = true -> l <> [] /\ head l <> Some "-"%char) -> slug_rest b l = true.
Proof.
  revert b. induction l as [|a l IH]; intros b Hg Hd Hl Hb; cbn.
  - destruct b; [|done]. by destruct (Hb eq_refl).
  - apply Forall_cons in Hg as [Ha Hg]. assert (Hlast : l <> [] -> last l <> Some "-"%char) by by destruct l.
    destruct (slug_byte a) eqn:Ea.
    + apply IH; [done|by eapply no_double_tail| |done]. destruct l; [done|by apply Hlast].
    + unfold slug_or_dash in Ha. rewrite Ea in Ha. cbn in Ha. rewrite Ha. apply dash_char in Ha as ->.
      destruct b; [by destruct (Hb eq_refl)|]. cbn. destruct l as [|c l]; [done|].
      apply IH; [done|by eapply no_double_tail|by apply Hlast|]. intros _. split; [done|by apply no_double_next].
Qed.

(** ** The slugs *)
Lemma slugify_is_slug unicode_lower s : slugify unicode_lower s <> ""%string -> is_slug (slugify unicode_lower s) = true.
Proof.
  unfold slugify, is_slug. set (l := bytes _). intros Hne. rewrite bytes_of_bytes.
  destruct (trim_dashes_spec (strip_runs false l) (fun a => slug_or_dash a = true)) as (Hg & Hd & Hh & Hl);
    [apply strip_runs_alphabet|apply (strip_runs_no_double false)|].
  apply slug_rest_intro; [done..|]. intros _. split; [|done]. intros Hnil. apply Hne. by rewrite Hnil.
Qed.

Lemma slug_rest_app b l k : slug_rest b l = true -> slug_rest true k = true -> slug_rest b (l ++ "-"%char :: k) = true.
Proof.
  revert b. induction l as [|a l IH]; intros b; cbn; [by destruct b|]. destruct (slug_byte a); [by apply IH|].
  intros [-> Hl]%andb_prop Hk. cbn. by apply IH.
Qed.
Lemma is_slug_join s t : is_slug s = true -> is_slug t = true -> is_slug (s ++ "-" ++ t) = true.
Proof.
  unfold is_slug. intros Hs Ht. assert (Happ : forall x y, bytes (x ++ y) = bytes x ++ bytes y).
  { intros x y. induction x as [|a x IH]; [done|].
    change (a :: bytes (x ++ y)%string = a :: (bytes x ++ bytes y)). by rewrite IH. }
  rewrite Happ. cbn. by apply slug_rest_app.
Qed.

(** The first part of a version 4 UUID is eight hexadecimal digits. *)
Lemma hex_byte_slug b : 0 <= b < 256 -> Forall (fun a => slug_byte a = true) (hex_byte b).
Proof.
  intros Hb. pose proof (below_ind (fun b => slug_byte (hex_digit (b / 16)) && slug_byte (hex_digit (b mod 16))) 256 b
    ltac:(by vm_compute) ltac:(lia)) as H. cbv beta in H. apply andb_prop in H as [? ?]. by repeat constructor.
Qed.
Lemma split_on_head l k : Forall (fun a => byte_is 45 a = false) l -> head (split_on 45 (l ++ "-"%char :: k)) = Some l.
Proof.
  induction l as [|a l IH]; [done|]. intros [Ha Hl]%Forall_cons. cbn. rewrite Ha. specialize (IH Hl).
  destruct (split_on 45 _) as [|w ws]; [done|]. cbn in *. congruence.
Qed.
Lemma slug_rest_bytes b l : Forall (fun a => slug_byte a = true) l -> slug_rest b l = true \/ l = [].
Proof.
  revert b. induction l as [|a l IH]; intros b; [by right|]. intros [Ha Hl]%Forall_cons. left. cbn. rewrite Ha.
  by destruct (IH false Hl) as [?| ->].
Qed.
Lemma first_part_is_slug buf : length buf = 16%nat -> Forall (fun b => 0 <= b < 256) buf -> is_slug (first_part (event_id buf)) = true.
Proof.
  intros Hlen Hb. do 16 (destruct buf as [|? buf]; [done|]). destruct buf; [|done].
  rewrite event_id_layout. unfold first_part. rewrite bytes_of_bytes.
  do 4 (apply Forall_cons in Hb as [?Hb%hex_byte_slug Hb]). rewrite !app_assoc.
  match goal with |- context [split_on 45 (?l ++ _)] => set (h := l) end.
  assert (Hh : Forall (fun a => slug_byte a = true) h) by (unfold h; rewrite !Forall_app; done).
  rewrite split_on_head.
  - change (slug_rest true (bytes (of_bytes h)) = true). rewrite bytes_of_bytes. by destruct (slug_rest_bytes true h Hh).
  - eapply Forall_impl; [exact Hh|]. intros a Ha. destruct (byte_is 45 a) eqn:E; [|done]. apply dash_not_slug in E. congruence.
Qed.

(** ** Idempotence *)
Lemma slug_rest_good b l : slug_rest b l = true -> Forall (fun a => slug_or_dash a = true) l /\ last l <> Some "-"%char.
Proof.
  revert b. induction l as [|a l IH]; intros b; cbn; [done|]. destruct (slug_byte a) eqn:Ea.
  - intros [Hg Hl]%IH. split; [constructor; [by unfold slug_or_dash; rewrite Ea|done]|]. destruct l; [|done]. cbn. intros [= ->]. done.
  - intros [[Hd _]%andb_prop Hr]%andb_prop. apply IH in Hr as Hgl. destruct Hgl as [Hg Hl]. split.
    + constructor; [by unfold slug_or_dash; rewrite Hd, orb_true_r|done].
    + by destruct l.
Qed.
Lemma strip_runs_slug b l : slug_rest b l = true -> strip_runs b l = l.
Proof.
  revert b. induction l as [|a l IH]; intros b; cbn; [done|]. destruct (slug_byte a); [by intros ->%IH|].
  intros [[Hd Hb]%andb_prop Hr]%andb_prop. apply negb_true_iff in Hb as ->. apply dash_char in Hd as ->. by rewrite (IH true).
Qed.
Lemma strip_runs_head b l : slug_rest true l = true -> strip_runs b l = strip_runs true l.
Proof. destruct l as [|a l]; [done|]. cbn. destruct (slug_byte a); [done|]. by rewrite andb_false_r. Qed.
Lemma drop_dashes_clean l : head l <> Some "-"%char -> drop_dashes l = l.
Proof. destruct l as [|a l]; [done|]. cbn. intros Hh. destruct (byte_is 45 a) eqn:E; [|done]. apply dash_char in E as ->. done. Qed.
Lemma slug_rest_head l : slug_rest true l = true -> exists a k, l = a :: k /\ slug_byte a = true.
Proof. destruct l as [|a l]; [done|]. cbn. destruct (slug_byte a) eqn:E; [eauto|]. by rewrite andb_false_r. Qed.

Lemma slugify_slug unicode_lower s : is_slug s = true -> slugify unicode_lower s = s.
Proof.
  unfold is_slug, slugify. intros Hs. destruct (slug_rest_good _ _ Hs) as [Hg Hl]. destruct (slug_rest_head _ Hs) as (a & k & Hk & Ha).
  assert (Htrim : TrimSpace s = s).
  { rewrite <- (of_bytes_bytes s), Hk. destruct k as [|c k _] using rev_ind; [by apply TrimSpace_plain_one, slug_byte_plain|].
    apply TrimSpace_plain_ends; [by apply slug_byte_plain|]. rewrite Hk in Hg, Hl. apply Forall_cons in Hg as [_ Hg].
    apply Forall_app in Hg as [_ [Hc _]%Forall_cons]. rewrite app_comm_cons, last_snoc in Hl.
    apply slug_byte_plain. unfold slug_or_dash in Hc. destruct (slug_byte c); [done|]. apply dash_char in Hc as ->. done. }
  assert (Hlower : ToLower unicode_lower s = s).
  { unfold ToLower, all_bytes. rewrite (proj2 (forallb_forall _ _)).
    - rewrite <- (of_bytes_bytes s) at 2. f_equal. rewrite <- (list_fmap_id (bytes s)) at 2. apply list_fmap_ext. intros i x Hx.
      apply list_elem_of_lookup_2 in Hx. rewrite Forall_forall in Hg. by apply slug_or_dash_lower, Hg.
    - intros x Hx%list_elem_of_In. rewrite Forall_forall in Hg. by apply slug_or_dash_lower, Hg. }
  rewrite Htrim, Hlower, strip_runs_head, (strip_runs_slug true) by done.
  unfold trim_dashes. rewrite (drop_dashes_clean (bytes s)), drop_dashes_clean, reverse_involutive; [apply of_bytes_bytes| |].
  - by rewrite head_reverse.
  - rewrite Hk. cbn. intros [= ->]. done.
Qed.
