(* ===== verification/CompetitionStore.v ===== *)
(** * The competition store as a state machine

    The changes its operations make to the tables ([comp_step]), what holds
    after any number of them ([comp_ok]), and what they never rewrite
    ([comp_history]).  Statistics are compared with a recomputation from the
    verified results, written without the projection. *)
From S2P Require Import Prelude GoStrings GoTime Events Payloads Dispatcher OutboxPG Competition Float64 SQL Keeping Identity IdentityDB CompetitionDB Slugs.

(** ** Statistics from the results *)

(** What a match is worth to a player on side [number], by its verified
    outcome. *)
Definition scored (outcome : string) (number : Z) (format : MatchFormat) : StatRow :=
  let t := if bool_decide (outcome = "tie"%string) then mkTally 1 0 0 1 50
           else if bool_decide (outcome = if number =? 1 then "side_1"%string else "side_2"%string) then mkTally 1 1 0 0 100
           else mkTally 1 0 1 0 0 in
  match format with
  | FormatSingles => mkStatRow t t no_tally 1
  | _ => mkStatRow t no_tally t 1
  end.

Definition result_of (m : string) (d : CompDB) : option (string * VerifiedRow) :=
  find_row (fun v => bool_decide (vr_match v = m)) (co_verified d).

(** A player's line in an event from one match. *)
Definition match_line (p e : string) (d : CompDB) (m : string) : option StatRow :=
  x ← co_participants d !! (m, p);
  s ← co_sides d !! pa_side x;
  row ← co_matches d !! m;
  '(_, v) ← result_of m d;
  if bool_decide (ma_event row = e) then Some (scored (vr_outcome v) (si_number s) (ma_format row)) else None.

Definition add_line (x y : option StatRow) : option StatRow :=
  match x, y with
  | Some a, Some b => Some (add_stats a b)
  | None, y => y
  | x, None => x
  end.
Definition total (l : list (option StatRow)) : option StatRow := foldr add_line None l.

(** A player's statistics in an event from the results of the given matches. *)
Definition recomputed (ms : gset string) (p e : string) (d : CompDB) : option StatRow :=
  total (match_line p e d <$> elements ms).

Lemma add_stats_comm a b : add_stats a b = add_stats b a.
Proof. destruct a as [[] [] [] ?], b as [[] [] [] ?]. unfold add_stats, add_tally. cbn. f_equal; [f_equal; lia..|lia]. Qed.
Lemma add_stats_assoc a b c : add_stats a (add_stats b c) = add_stats (add_stats a b) c.
Proof. destruct a as [[] [] [] ?], b as [[] [] [] ?], c as [[] [] [] ?]. unfold add_stats, add_tally. cbn. f_equal; [f_equal; lia..|lia]. Qed.
Lemma add_line_swap x y z : add_line x (add_line y z) = add_line y (add_line x z).
Proof.
  destruct x, y, z; cbn; try done; f_equal; [|apply add_stats_comm].
  by rewrite !add_stats_assoc, (add_stats_comm s s0).
Qed.
Lemma add_line_comm x y : add_line x y = add_line y x.
Proof. destruct x, y; cbn; [|done..]. by rewrite add_stats_comm. Qed.

#[export] Instance total_perm : Proper ((≡ₚ) ==> eq) total.
Proof. intros l l' Hl. unfold total. induction Hl; cbn; [done|congruence|apply add_line_swap|congruence]. Qed.

Lemma recomputed_insert m ms p e d : m ∉ ms -> recomputed ({[m]} ∪ ms) p e d = add_line (match_line p e d m) (recomputed ms p e d).
Proof. intros Hm. unfold recomputed. by rewrite elements_union_singleton. Qed.

Lemma recomputed_ext ms p e d d' :
  (forall m, m ∈ ms -> match_line p e d m = match_line p e d' m) -> recomputed ms p e d = recomputed ms p e d'.
Proof.
  intros H. unfold recomputed. f_equal. apply list_fmap_ext. intros i m Hm. apply H.
  by eapply elem_of_elements, list_elem_of_lookup_2.
Qed.

(** ** Rows under an update *)
Lemma alter_row {K A} `{Countable K} (f : A -> A) (m : gmap K A) k j y :
  alter f k m !! j = Some y -> exists x, m !! j = Some x /\ (y = x \/ (j = k /\ y = f x)).
Proof. intros [[<- (x & Hx & ->)]|[_ Hy]]%lookup_alter_Some; eauto 6. Qed.
Lemma alter_column {K A B} `{Countable K} (g : A -> B) (f : A -> A) (m : gmap K A) k j :
  (forall x, g (f x) = g x) -> g <$> alter f k m !! j = g <$> m !! j.
Proof.
  intros Hg. destruct (decide (k = j)) as [<-|]; [rewrite lookup_alter_eq|by rewrite lookup_alter_ne].
  destruct (m !! k); cbn; by rewrite ?Hg.
Qed.
Lemma insert_column {K A B} `{Countable K} (g : A -> B) (m : gmap K A) k x j b :
  m !! k = None -> g <$> m !! j = Some b -> g <$> <[k := x]> m !! j = Some b.
Proof. intros Hk Hj. rewrite lookup_insert_ne; [done|]. intros ->. by rewrite Hk in Hj. Qed.

Section competition.
Context {E : environment}.
Implicit Types (d : CompDB).

(** ** What holds of the tables *)

(** The event that announces a verified result says what was recorded. *)
Definition names_winner (v : VerifiedRow) (p : MatchResultVerifiedPayload) d : Prop :=
  (vr_outcome v = "tie"%string /\ MRV_Outcome p = "tie"%string /\ MRV_WinningSideID p = ""%string)
  \/ exists s, vr_outcome v = (if si_number s =? 1 then "side_1"%string else "side_2"%string) /\ MRV_Outcome p = "side_win"%string
       /\ co_sides d !! MRV_WinningSideID p = Some s /\ si_match s = vr_match v.
Record announces (p : MatchResultVerifiedPayload) d (k : string) (v : VerifiedRow) (row : MatchDBRow) : Prop := {
  an_verified : co_verified d !! k = Some v;
  an_id : MRV_VerificationID p = k;
  an_match : MRV_MatchID p <> ""%string /\ uuid_cast (MRV_MatchID p) = Some (vr_match v);
  an_row : co_matches d !! vr_match v = Some row;
  an_event : MRV_CompetitionEventID p = ma_event row;
  an_winner : names_winner v p d
}.

(** A team whose event is [event]. *)
Definition team_of_event (team event : string) d : Prop := te_event <$> co_teams d !! team = Some event.
Definition verified_match (m : string) d : Prop := exists k v, co_verified d !! k = Some v /\ vr_match v = m.

Definition has_sides (m : string) d : Prop :=
  forall n, n = 1 \/ n = 2 -> exists k s, co_sides d !! k = Some s /\ si_match s = m /\ si_number s = n.

(** Every page name fits the pattern its table checks. *)
Record slugs_ok d : Prop := {
  sl_events i x : co_events d !! i = Some x -> is_slug (ev_slug x) = true;
  sl_teams i x : co_teams d !! i = Some x -> is_slug (te_slug x) = true;
  sl_players i x : co_players d !! i = Some x -> is_slug (pl_slug x) = true
}.

Record comp_ok d : Prop := {
  ok_slugs : slugs_ok d;
  ok_teams t x : co_teams d !! t = Some x -> is_Some (co_events d !! te_event x);
  ok_roster e p r : co_roster d !! (e, p) = Some r -> team_of_event (ro_team r) e d;
  ok_captains e p r : co_roster d !! (e, p) = Some r ->
    exists p' r', co_roster d !! (e, p') = Some r' /\ ro_team r' = ro_team r /\ ro_captain r' = true;
  ok_links p q x y u : co_players d !! p = Some x -> co_players d !! q = Some y ->
    pl_linked_user x = Some u -> pl_linked_user y = Some u -> p = q;
  ok_matches m x : co_matches d !! m = Some x -> is_Some (co_events d !! ma_event x) /\ uuid_cast (ma_event x) = Some (ma_event x)
    /\ ma_event x <> ""%string;
  ok_sides k s : co_sides d !! k = Some s ->
    ma_event <$> co_matches d !! si_match s = Some (si_event s) /\ team_of_event (si_team s) (si_event s) d
    /\ (si_number s = 1 \/ si_number s = 2);
  ok_numbers j k s s' : co_sides d !! j = Some s -> co_sides d !! k = Some s' -> si_match s = si_match s' ->
    si_number s = si_number s' -> j = k;
  ok_participants m p x : co_participants d !! (m, p) = Some x -> is_Some (co_players d !! p)
    /\ exists s, co_sides d !! pa_side x = Some s /\ si_match s = m /\ ro_team <$> co_roster d !! (si_event s, p) = Some (si_team s);
  ok_verified k v : co_verified d !! k = Some v ->
    vr_version v = 1 /\ vr_outcome v ∈ ["side_1"; "side_2"; "tie"]%string /\ ma_state <$> co_matches d !! vr_match v = Some "verified"%string;
  ok_verified_sides k v : co_verified d !! k = Some v -> has_sides (vr_match v) d;
  ok_verified_once j k v w : co_verified d !! j = Some v -> co_verified d !! k = Some w -> vr_match v = vr_match w -> j = k;
  ok_state m x : co_matches d !! m = Some x -> ma_state x = "verified"%string -> verified_match m d;
  ok_applied m : m ∈ co_applied d -> verified_match m d;
  ok_outbox i r : co_outbox d !! i = Some r -> Env_Type (envelope r) = MatchResultVerified ->
    exists p k v row, Payload (envelope r) = marshal_MatchResultVerified p /\ AggregateID (envelope r) = MRV_MatchID p
      /\ announces p d k v row;
  ok_announced k v : co_verified d !! k = Some v ->
    exists i r p, co_outbox d !! i = Some r /\ Env_Type (envelope r) = MatchResultVerified
      /\ Payload (envelope r) = marshal_MatchResultVerified p /\ MRV_VerificationID p = k;
  ok_stats p e : co_stats d !! (p, e) = recomputed (co_applied d) p e d
}.

(** ** The changes *)
Definition event_of_match (m : string) d : option string := ma_event <$> co_matches d !! m.

(** The statistics after the results of [m] are added to the rows of its
    participants. *)
Definition apply_result (m : string) (stats : gmap (string * string) StatRow) d : Prop :=
  forall p e, stats !! (p, e) = add_line (match_line p e d m) (co_stats d !! (p, e)).

Inductive comp_step d : CompDB -> Prop :=
  | step_event id x : co_events d !! id = None -> is_slug (ev_slug x) = true -> comp_step d (with_events (<[id := x]> (co_events d)) d)
  | step_team id x : co_teams d !! id = None -> is_slug (te_slug x) = true -> is_Some (co_events d !! te_event x) ->
      comp_step d (with_teams (<[id := x]> (co_teams d)) d)
  | step_player id x : co_players d !! id = None -> is_slug (pl_slug x) = true ->
      (forall q y u, co_players d !! q = Some y -> pl_linked_user x = Some u -> pl_linked_user y <> Some u) ->
      comp_step d (with_players (<[id := x]> (co_players d)) d)
  | step_link id user : (forall q y u, user = Some u -> q <> id -> co_players d !! q = Some y -> pl_linked_user y <> Some u) ->
      comp_step d (with_players (alter (set_linked user) id (co_players d)) d)
  | step_match id x : co_matches d !! id = None -> ma_state x = "open"%string -> is_Some (co_events d !! ma_event x) ->
      uuid_cast (ma_event x) = Some (ma_event x) -> ma_event x <> ""%string ->
      comp_step d (with_matches (<[id := x]> (co_matches d)) d)
  | step_side id x row : co_sides d !! id = None -> co_matches d !! si_match x = Some row -> ma_state row = "open"%string ->
      ma_event row = si_event x -> team_of_event (si_team x) (si_event x) d -> si_number x = 1 \/ si_number x = 2 ->
      (forall k s, co_sides d !! k = Some s -> si_match s = si_match x -> si_number s <> si_number x) ->
      comp_step d (with_sides (<[id := x]> (co_sides d)) d)
  | step_participant m p x s row : co_participants d !! (m, p) = None -> is_Some (co_players d !! p) ->
      co_matches d !! m = Some row -> ma_state row = "open"%string -> co_sides d !! pa_side x = Some s -> si_match s = m ->
      ro_team <$> co_roster d !! (si_event s, p) = Some (si_team s) ->
      comp_step d (with_participants (<[(m, p) := x]> (co_participants d)) d)
  | step_join e p team captain : team_of_event team e d ->
      (forall r, co_roster d !! (e, p) = Some r -> ro_team r = team) ->
      (captain = true \/ exists p' r', p' <> p /\ co_roster d !! (e, p') = Some r' /\ ro_team r' = team /\ ro_captain r' = true) ->
      comp_step d (with_roster (<[(e, p) := mkRosterRow team captain]> (co_roster d)) d)
  | step_leave e p r : co_roster d !! (e, p) = Some r -> played_for e (ro_team r) p d = false ->
      (forall p' r', p' <> p -> co_roster d !! (e, p') = Some r' -> ro_team r' = ro_team r ->
         exists q r'', q <> p /\ co_roster d !! (e, q) = Some r'' /\ ro_team r'' = ro_team r /\ ro_captain r'' = true) ->
      comp_step d (with_roster (delete (e, p) (co_roster d)) d)
  | step_version t v : comp_step d (with_teams (alter (set_te_version v) t (co_teams d)) d)
  | step_verify k v m row i r p : co_verified d !! k = None -> vr_version v = 1 -> vr_match v = m ->
      vr_outcome v ∈ ["side_1"; "side_2"; "tie"]%string -> co_matches d !! m = Some row -> ma_state row <> "verified"%string ->
      has_sides m d -> co_outbox d !! i = None -> Env_Type (envelope r) = MatchResultVerified ->
      Payload (envelope r) = marshal_MatchResultVerified p -> AggregateID (envelope r) = MRV_MatchID p -> MRV_VerificationID p = k ->
      MRV_MatchID p <> ""%string /\ uuid_cast (MRV_MatchID p) = Some m -> MRV_CompetitionEventID p = ma_event row ->
      names_winner v p d ->
      comp_step d (with_co_outbox (<[i := r]> (co_outbox d)) (with_matches (alter (set_ma_state "verified") m (co_matches d))
        (with_verified (<[k := v]> (co_verified d)) d)))
  | step_delete_match m row : co_matches d !! m = Some row -> ma_state row <> "verified"%string -> comp_step d (delete_match m d)
  | step_delete_team t : (forall k s, co_sides d !! k = Some s -> si_team s <> t) ->
      comp_step d (with_teams (delete t (co_teams d)) (with_roster (filter (fun kx => ro_team kx.2 <> t) (co_roster d)) d))
  | step_delete_event e : (forall t x, co_teams d !! t = Some x -> te_event x <> e) ->
      (forall m x, co_matches d !! m = Some x -> ma_event x <> e) -> comp_step d (delete_event e d)
  | step_apply m stats : verified_match m d -> m ∉ co_applied d -> apply_result m stats d ->
      comp_step d (with_stats stats (with_applied ({[m]} ∪ co_applied d) d))
  | step_co_audit a : comp_step d (with_co_audit (co_audit d ++ [a]) d)
  | step_outbox i r : co_outbox d !! i = None -> Env_Type (envelope r) <> MatchResultVerified ->
      comp_step d (with_co_outbox (<[i := r]> (co_outbox d)) d)
  | step_people x : comp_step d (with_people x d).
Definition comp_steps : CompDB -> CompDB -> Prop := rtc comp_step.
#[export] Instance comp_steps_po : PreOrder comp_steps := rtc_po.

(** ** What a step keeps of a verified match *)
Record kept (m : string) d d' : Prop := {
  kept_match : co_matches d' !! m = co_matches d !! m;
  kept_sides k s : co_sides d !! k = Some s -> si_match s = m -> co_sides d' !! k = Some s;
  kept_participants p : co_participants d' !! (m, p) = co_participants d !! (m, p);
  kept_result : result_of m d' = result_of m d
}.

Lemma result_of_verified k v d : comp_ok d -> co_verified d !! k = Some v -> result_of (vr_match v) d = Some (k, v).
Proof.
  intros Hok Hk. apply find_row_unique; [done|by rewrite bool_decide_true|].
  intros k' v' Hk' Hv'. bool_prop. by eapply (ok_verified_once _ Hok).
Qed.
Lemma result_of_Some m k v d : result_of m d = Some (k, v) -> co_verified d !! k = Some v /\ vr_match v = m.
Proof. intros [? ?]%find_row_Some. by bool_prop. Qed.

Lemma verified_state d k v row : comp_ok d -> co_verified d !! k = Some v -> co_matches d !! vr_match v = Some row ->
  ma_state row = "verified"%string.
Proof. intros Hok Hk Hr. destruct (ok_verified _ Hok _ _ Hk) as (_ & _ & Hs). rewrite Hr in Hs. by injection Hs. Qed.

Lemma unverified_not d m row : comp_ok d -> co_matches d !! m = Some row -> ma_state row <> "verified"%string -> ~ verified_match m d.
Proof. intros Hok Hr Hs (k & v & Hk & <-). by eapply Hs, verified_state. Qed.

Lemma verified_row d m : comp_ok d -> verified_match m d -> is_Some (co_matches d !! m).
Proof.
  intros Hok (k & v & Hk & <-). destruct (ok_verified _ Hok _ _ Hk) as (_ & _ & Hs). by apply fmap_Some in Hs as (x & -> & _).
Qed.

Lemma step_kept d d' m : comp_ok d -> comp_step d d' -> verified_match m d -> kept m d d'.
Proof.
  intros Hok Hs Hm. pose proof (verified_row _ _ Hok Hm) as Hrow. destruct Hs; subst; try (by split; cbn; auto).
  - split; cbn; auto. rewrite lookup_insert_ne; [done|]. intros ->. destruct Hrow. congruence.
  - split; cbn; auto. intros k s Hk _. rewrite lookup_insert_ne; [done|congruence].
  - split; cbn; auto. intros q. rewrite lookup_insert_ne; [done|]. intros [= <- <-]. eapply (unverified_not d); [done|eassumption|congruence|done].
  - assert (Hne : vr_match v <> m) by (intros <-; by eapply (unverified_not d)). split; cbn; auto.
    + by rewrite lookup_alter_ne.
    + destruct Hm as (j & w & Hj & <-). rewrite (result_of_verified j w d) by done. apply find_row_unique; cbn.
      * rewrite lookup_insert_ne; [done|congruence].
      * by rewrite bool_decide_true.
      * intros k' w' [[<- <-]|[_ Hk']]%lookup_insert_Some Hw'; bool_prop; [done|]. by eapply (ok_verified_once _ Hok).
  - assert (Hne : m0 <> m) by (intros ->; by eapply (unverified_not d)). split; cbn; auto.
    + by rewrite lookup_delete_ne.
    + intros k s Hk Hsm. apply map_lookup_filter_Some. split; [done|]. cbn. congruence.
    + intros q. destruct (co_participants d !! (m, q)) as [x|] eqn:Ex.
      * apply map_lookup_filter_Some. split; [done|]. cbn. congruence.
      * apply map_lookup_filter_None. by left.
Qed.

Lemma kept_line p e m d d' : comp_ok d -> kept m d d' -> match_line p e d' m = match_line p e d m.
Proof.
  intros Hok [Hm Hs Hp Hr]. unfold match_line. rewrite Hm, Hr, Hp. destruct (co_participants d !! (m, p)) as [x|] eqn:Ex; [|done].
  cbn. destruct (ok_participants _ Hok _ _ _ Ex) as (_ & s & Hx & Hsm & _). by rewrite Hx, (Hs _ _ Hx Hsm).
Qed.

Lemma verified_fresh_kept d d' k v : comp_step d d' -> co_verified d !! k = Some v -> co_verified d' !! k = Some v.
Proof. intros Hs Hk. destruct Hs; cbn; try done. rewrite lookup_insert_ne; [done|congruence]. Qed.

Lemma announces_kept d d' p k v row : comp_ok d -> comp_step d d' -> announces p d k v row -> announces p d' k v row.
Proof.
  intros Hok Hs [Hk Hid Hm Hr He Hw]. assert (Hkept : kept (vr_match v) d d') by (apply step_kept; [done..|by exists k, v]).
  destruct Hkept as [Hm' Hs' _ _]. split; try done; [by eapply verified_fresh_kept|by rewrite Hm'|].
  destruct Hw as [?|(s & ? & ? & Hsd & Hsm)]; [by left|right]. exists s. auto.
Qed.

(** ** The invariant is kept *)
Section preserved.
Context (d d' : CompDB) (Hok : comp_ok d) (Hs : comp_step d d').

Lemma step_ok_slugs : slugs_ok d'.
Proof using Hok Hs.
  destruct (ok_slugs _ Hok) as [He Ht Hp]. destruct Hs; split; cbn; try done.
  - intros i y [[<- <-]|[_ Hi]]%lookup_insert_Some; eauto.
  - intros i y [[<- <-]|[_ Hi]]%lookup_insert_Some; eauto.
  - intros i y [[<- <-]|[_ Hi]]%lookup_insert_Some; eauto.
  - intros i y (z & Hz & [->|[_ ->]])%alter_row; by apply (Hp i z).
  - intros i y (z & Hz & [->|[_ ->]])%alter_row; by apply (Ht i z).
  - intros i y [_ Hi]%lookup_delete_Some. eauto.
  - intros i y [_ Hi]%lookup_delete_Some. eauto.
Qed.

Lemma step_ok_teams t x : co_teams d' !! t = Some x -> is_Some (co_events d' !! te_event x).
Proof using Hok Hs.
  pose proof (ok_teams _ Hok) as H. destruct Hs as [| | | | | | | | |?v ?t| | |?t|e Ht _| | | |]; cbn; try apply H.
  - intros Ht. rewrite lookup_insert_is_Some'. right. eauto.
  - intros [[<- <-]|[_ Ht]]%lookup_insert_Some; eauto.
  - intros (y & Hy & [->|[_ ->]])%alter_row; by apply (H t y).
  - intros [_ Ht]%lookup_delete_Some. eauto.
  - intros Hx. rewrite lookup_delete_ne; [by apply (H t)|]. intros ->. by eapply Ht.
Qed.

(** Every row that names a team of an event still does. *)
Lemma step_team_of_event t e : team_of_event t e d ->
  (exists k s, co_sides d' !! k = Some s /\ si_team s = t) \/ (exists k r, co_roster d' !! k = Some r /\ ro_team r = t) ->
  team_of_event t e d'.
Proof using Hs.
  unfold team_of_event. intros Ht Href.
  destruct Hs as [| | | | | | | | | | | |u Hu| | | | |]; cbn; try done.
  - by apply insert_column.
  - by rewrite alter_column.
  - rewrite lookup_delete_ne; [done|]. intros ->. cbn in Href.
    destruct Href as [(k & s & Hk & Hks)|(k & r & [_ Hk]%map_lookup_filter_Some & Hkr)]; [by eapply Hu|done].
Qed.

Lemma step_ok_roster e p r : co_roster d' !! (e, p) = Some r -> team_of_event (ro_team r) e d'.
Proof using Hok Hs.
  intros Hr. apply step_team_of_event; [|right; eauto].
  revert Hr. pose proof (ok_roster _ Hok) as H. destruct Hs; cbn; try apply H.
  - intros [[[= <- <-] <-]|[_ Hr]]%lookup_insert_Some; eauto.
  - intros [_ Hr]%lookup_delete_Some. eauto.
  - intros [Hr _]%map_lookup_filter_Some. eauto.
  - intros [Hr _]%map_lookup_filter_Some. eauto.
Qed.

Lemma step_ok_captains e p r : co_roster d' !! (e, p) = Some r ->
  exists p' r', co_roster d' !! (e, p') = Some r' /\ ro_team r' = ro_team r /\ ro_captain r' = true.
Proof using Hok Hs.
  pose proof (ok_captains _ Hok) as H.
  destruct Hs as [| | | | | | |e0 p0 team captain Ht Hsame Hc|e0 p0 r0 Hr0 Hplayed Hc| | | |t Ht|e0 Ht Hm| | | |]; cbn; try apply H.
  - intros Hr. destruct (decide (e0 = e)) as [<-|He].
    + assert (Hteam : ro_team r = team \/ ro_team r <> team) by (destruct (decide (ro_team r = team)); auto).
      destruct Hteam as [Hteam|Hteam].
      * destruct Hc as [->|(p' & r' & Hp' & Hr' & Ht' & Hcap)].
        -- exists p0, (mkRosterRow team true). by rewrite lookup_insert_eq.
        -- exists p', r'. rewrite lookup_insert_ne by congruence. by rewrite Hteam.
      * rewrite lookup_insert_Some in Hr. destruct Hr as [[_ <-]|[Hne Hr]]; [done|].
        destruct (H _ _ _ Hr) as (p' & r' & Hr' & Ht' & Hcap). exists p', r'. rewrite lookup_insert_ne; [done|].
        intros [= ->]. apply Hteam. rewrite <- Ht'. by apply Hsame.
    + rewrite lookup_insert_ne in Hr by congruence. destruct (H _ _ _ Hr) as (p' & r' & Hr' & Ht' & Hcap).
      exists p', r'. by rewrite lookup_insert_ne by congruence.
  - intros [Hne Hr]%lookup_delete_Some. destruct (decide (e0 = e /\ ro_team r = ro_team r0)) as [[<- Heq]|Hd].
    + destruct (Hc p r) as (q & r'' & Hq & Hr'' & Ht'' & Hcap); [congruence|done..|].
      exists q, r''. rewrite lookup_delete_ne by congruence. split_and!; [done|congruence|done].
    + destruct (H _ _ _ Hr) as (p' & r' & Hr' & Ht' & Hcap). exists p', r'. rewrite lookup_delete_ne; [done|].
      intros [= <- <-]. apply Hd. split; [done|congruence].
  - intros [Hr Hne]%map_lookup_filter_Some. destruct (H _ _ _ Hr) as (p' & r' & Hr' & Ht' & Hcap).
    exists p', r'. split; [|done]. apply map_lookup_filter_Some. split; [done|]. cbn in *. congruence.
  - intros [Hr Hne]%map_lookup_filter_Some. destruct (H _ _ _ Hr) as (p' & r' & Hr' & Ht' & Hcap).
    exists p', r'. split; [|done]. by apply map_lookup_filter_Some.
Qed.

Lemma step_ok_links p q x y u : co_players d' !! p = Some x -> co_players d' !! q = Some y ->
  pl_linked_user x = Some u -> pl_linked_user y = Some u -> p = q.
Proof using Hok Hs.
  pose proof (ok_links _ Hok) as H. destruct Hs as [| |id z Hid _ Hz|id user Huser| | | | | | | | | | | | | |]; cbn; try apply H.
  - intros [[<- <-]|[_ Hp]]%lookup_insert_Some [[<- <-]|[_ Hq]]%lookup_insert_Some Hx Hy; [done|..].
    + by destruct (Hz _ _ _ Hq Hx).
    + by destruct (Hz _ _ _ Hp Hy).
    + by eapply H.
  - intros (x' & Hp & Hx')%alter_row (y' & Hq & Hy')%alter_row Hx Hy. destruct (decide (p = q)) as [|Hne]; [done|exfalso].
    destruct Hx' as [->|[-> ->]], Hy' as [->|[-> ->]]; cbn in *; [|by eapply Huser..|done].
    by eapply Hne, H.
Qed.

Lemma step_ok_matches m x : co_matches d' !! m = Some x ->
  is_Some (co_events d' !! ma_event x) /\ uuid_cast (ma_event x) = Some (ma_event x) /\ ma_event x <> ""%string.
Proof using Hok Hs.
  pose proof (ok_matches _ Hok) as H. destruct Hs as [| | | | | | | | | | | | |e _ He| | | |]; cbn; try apply H.
  - intros Hm. destruct (H _ _ Hm) as (? & ? & ?). rewrite lookup_insert_is_Some'. auto.
  - intros [[<- <-]|[_ Hm]]%lookup_insert_Some; eauto.
  - intros (y & Hy & [->|[_ ->]])%alter_row; by apply (H m y).
  - intros [_ Hm]%lookup_delete_Some. eauto.
  - intros Hm. rewrite lookup_delete_ne; [by apply H with m|]. intros ->. by eapply He.
Qed.

Lemma step_ok_sides k s : co_sides d' !! k = Some s ->
  ma_event <$> co_matches d' !! si_match s = Some (si_event s) /\ team_of_event (si_team s) (si_event s) d'
  /\ (si_number s = 1 \/ si_number s = 2).
Proof using Hok Hs.
  intros Hk. enough (Hw : ma_event <$> co_matches d' !! si_match s = Some (si_event s) /\ team_of_event (si_team s) (si_event s) d
                         /\ (si_number s = 1 \/ si_number s = 2)).
  { destruct Hw as (? & ? & ?). split_and!; [done| |done]. apply step_team_of_event; [done|left; eauto]. }
  revert Hk. pose proof (ok_sides _ Hok) as H. destruct Hs; cbn; try apply H.
  - intros Hk. destruct (H _ _ Hk) as (? & ? & ?). split_and!; [|done..]. by apply insert_column.
  - intros [[<- <-]|[_ Hk]]%lookup_insert_Some; [|by eapply H]. split_and!; [|done..]. simplify_option_eq. congruence.
  - intros Hk. destruct (H _ _ Hk) as (? & ? & ?). split_and!; [|done..]. by rewrite alter_column.
  - intros [Hk Hne]%map_lookup_filter_Some. destruct (H _ _ Hk) as (? & ? & ?). split_and!; [|done..]. by rewrite lookup_delete_ne.
Qed.

Lemma step_ok_numbers j k s s' : co_sides d' !! j = Some s -> co_sides d' !! k = Some s' -> si_match s = si_match s' ->
  si_number s = si_number s' -> j = k.
Proof using Hok Hs.
  pose proof (ok_numbers _ Hok) as H. destruct Hs as [| | | | |id x row Hid _ _ _ _ _ Hn| | | | | | | | | | | |]; cbn; try apply H.
  - intros [[<- <-]|[_ Hj]]%lookup_insert_Some [[<- <-]|[_ Hk]]%lookup_insert_Some Hm Hnum; [done|..].
    + by destruct (Hn _ _ Hk).
    + by destruct (Hn _ _ Hj).
    + by eapply H.
  - intros [Hj _]%map_lookup_filter_Some [Hk _]%map_lookup_filter_Some. by eapply H.
Qed.

Lemma step_ok_verified k v : co_verified d' !! k = Some v ->
  vr_version v = 1 /\ vr_outcome v ∈ ["side_1"; "side_2"; "tie"]%string /\ ma_state <$> co_matches d' !! vr_match v = Some "verified"%string.
Proof using Hok Hs.
  intros Hk. destruct (co_verified d !! k) as [w|] eqn:Ew.
  - assert (v = w) as -> by (apply (verified_fresh_kept _ _ _ _ Hs) in Ew; congruence).
    destruct (ok_verified _ Hok _ _ Ew) as (? & ? & ?). split_and!; [done..|].
    by rewrite (kept_match _ _ _ (step_kept _ _ (vr_match w) Hok Hs ltac:(by exists k, w))).
  - destruct Hs; cbn in *; try congruence. rewrite lookup_insert_Some in Hk. destruct Hk as [[_ <-]|[_ ?]]; [|congruence].
    subst m. split_and!; [done..|]. rewrite lookup_alter_eq. by simplify_option_eq.
Qed.

Lemma step_ok_verified_sides k v : co_verified d' !! k = Some v -> has_sides (vr_match v) d'.
Proof using Hok Hs.
  intros Hk. destruct (co_verified d !! k) as [w|] eqn:Ew.
  - assert (v = w) as -> by (apply (verified_fresh_kept _ _ _ _ Hs) in Ew; congruence).
    intros n Hn. destruct (ok_verified_sides _ Hok _ _ Ew n Hn) as (j & s & Hj & Hm & Hnum). exists j, s. split_and!; [|done..].
    by apply (kept_sides _ _ _ (step_kept _ _ (vr_match w) Hok Hs ltac:(by exists k, w))).
  - destruct Hs; cbn in *; try congruence. rewrite lookup_insert_Some in Hk. destruct Hk as [[_ <-]|[_ ?]]; [|congruence].
    by subst m.
Qed.

Lemma step_ok_verified_once j k v w : co_verified d' !! j = Some v -> co_verified d' !! k = Some w -> vr_match v = vr_match w -> j = k.
Proof using Hok Hs.
  pose proof (ok_verified_once _ Hok) as H. destruct Hs; cbn; try apply H.
  assert (Hn : ~ verified_match m d) by by eapply unverified_not.
  intros [[<- <-]|[_ Hj]]%lookup_insert_Some [[<- <-]|[_ Hk]]%lookup_insert_Some Hm; [done|..].
  - destruct Hn. exists k, w. split; [done|congruence].
  - destruct Hn. exists j, v. split; [done|congruence].
  - by eapply H.
Qed.

Lemma step_verified_match m : verified_match m d -> verified_match m d'.
Proof using Hs. intros (k & v & Hk & Hv). exists k, v. split; [by eapply verified_fresh_kept|done]. Qed.

Lemma step_ok_state m x : co_matches d' !! m = Some x -> ma_state x = "verified"%string -> verified_match m d'.
Proof using Hok Hs.
  pose proof (ok_state _ Hok) as H. intros Hm Hx.
  assert (Hw : verified_match m d \/ exists k v, co_verified d' !! k = Some v /\ vr_match v = m);
    [|destruct Hw; [by apply step_verified_match|done]].
  revert Hm. destruct Hs as [| | | |id y Hid Hy| | | | | |k v m0| | | | | | |]; cbn; try (intros Hm; left; by eapply H).
  - intros [[<- <-]|[_ Hm]]%lookup_insert_Some; [congruence|left; by eapply H].
  - intros (y & Hy & [->|[-> ->]])%alter_row; [left; by eapply H|right]. exists k, v. by rewrite lookup_insert_eq.
  - intros [_ Hm]%lookup_delete_Some. left. by eapply H.
Qed.

Lemma step_ok_applied m : m ∈ co_applied d' -> verified_match m d'.
Proof using Hok Hs.
  intros Hm. apply step_verified_match. revert Hm. pose proof (ok_applied _ Hok) as H. destruct Hs; cbn; try apply H.
  - intros [Hm _]%elem_of_difference. by apply H.
  - intros [->%elem_of_singleton|Hm]%elem_of_union; [done|by apply H].
Qed.

Lemma step_ok_outbox i r : co_outbox d' !! i = Some r -> Env_Type (envelope r) = MatchResultVerified ->
  exists p k v row, Payload (envelope r) = marshal_MatchResultVerified p /\ AggregateID (envelope r) = MRV_MatchID p
    /\ announces p d' k v row.
Proof using Hok Hs.
  intros Hi Ht. destruct (co_outbox d !! i) as [r0|] eqn:Er.
  - assert (r = r0) as -> by (revert Hi; destruct Hs; cbn; rewrite ?lookup_insert_ne by congruence; congruence).
    destruct (ok_outbox _ Hok _ _ Er Ht) as (p & k & v & row & Hp & Hid & Ha). exists p, k, v, row. split_and!; [done..|]. by eapply announces_kept.
  - destruct Hs; cbn in *; try congruence; rewrite lookup_insert_Some in Hi; destruct Hi as [[_ <-]|[_ ?]]; try congruence; try done.
    subst m. exists p, k, v, (set_ma_state "verified" row). split_and!; [done..|]. split; cbn; try done.
    + by rewrite lookup_insert_eq.
    + rewrite lookup_alter_eq. by simplify_option_eq.
Qed.

Lemma step_ok_announced k v : co_verified d' !! k = Some v ->
  exists i r p, co_outbox d' !! i = Some r /\ Env_Type (envelope r) = MatchResultVerified
    /\ Payload (envelope r) = marshal_MatchResultVerified p /\ MRV_VerificationID p = k.
Proof using Hok Hs.
  pose proof (ok_announced _ Hok) as H. destruct Hs; cbn; try apply H.
  - intros [[<- <-]|[_ Hk]]%lookup_insert_Some; [exists i, r, p; by rewrite lookup_insert_eq|].
    destruct (H _ _ Hk) as (i' & r' & p' & Hi & ?). exists i', r', p'. rewrite lookup_insert_ne by congruence. done.
  - intros Hk. destruct (H _ _ Hk) as (i' & r' & p' & Hi & ?). exists i', r', p'. rewrite lookup_insert_ne by congruence. done.
Qed.

(** A player of a match stays on the roster of the side's team. *)
Lemma step_roster_kept m q x s : co_participants d !! (m, q) = Some x -> co_sides d !! pa_side x = Some s -> si_match s = m ->
  ro_team <$> co_roster d !! (si_event s, q) = Some (si_team s) ->
  ro_team <$> co_roster d' !! (si_event s, q) = Some (si_team s).
Proof using Hok Hs.
  intros Hx Hside Hm Hr.
  destruct Hs as [| | | | | | |e p team captain _ Hsame _|e p r Hr0 Hplayed _| | | |t Ht|e Ht He| | | |]; cbn; try done.
  - destruct (decide ((e, p) = (si_event s, q))) as [[= -> ->]|Hne]; [|by rewrite lookup_insert_ne].
    rewrite lookup_insert_eq. apply fmap_Some in Hr as (r & Hr & Hteam). cbn. f_equal. rewrite Hteam. symmetry. by apply Hsame.
  - destruct (decide ((e, p) = (si_event s, q))) as [[= -> ->]|Hne]; [exfalso|by rewrite lookup_delete_ne].
    unfold played_for in Hplayed. bool_prop. apply Hplayed. exists (m, q), x. cbn. rewrite Hside. cbn.
    rewrite Hr0 in Hr. by injection Hr as ->.
  - apply fmap_Some in Hr as (r & Hr & Hteam). apply fmap_Some. exists r. split; [|done].
    apply map_lookup_filter_Some. split; [done|]. cbn. rewrite <- Hteam. by eapply Ht.
  - apply fmap_Some in Hr as (r & Hr & Hteam). apply fmap_Some. exists r. split; [|done].
    apply map_lookup_filter_Some. split; [done|]. cbn. intros <-.
    destruct (ok_sides _ Hok _ _ Hside) as (Hev & _). apply fmap_Some in Hev as (row & Hrow & Hev). by eapply He.
Qed.

Lemma step_ok_participants m p x : co_participants d' !! (m, p) = Some x -> is_Some (co_players d' !! p)
  /\ exists s, co_sides d' !! pa_side x = Some s /\ si_match s = m /\ ro_team <$> co_roster d' !! (si_event s, p) = Some (si_team s).
Proof using Hok Hs.
  intros Hp. assert (Hpl : is_Some (co_players d !! p) -> is_Some (co_players d' !! p)).
  { destruct Hs; cbn; try done; [|by rewrite lookup_alter_is_Some]. intros ?. apply lookup_insert_is_Some'. by right. }
  destruct (co_participants d !! (m, p)) as [y|] eqn:Ey.
  - assert (x = y) as ->.
    { revert Hp. destruct Hs; cbn; try congruence; [rewrite lookup_insert_ne by congruence; congruence|].
      intros [? _]%map_lookup_filter_Some. congruence. }
    destruct (ok_participants _ Hok _ _ _ Ey) as (Hpy & s & Hside & Hsm & Hr). split; [by apply Hpl|].
    exists s. split_and!; [|done|by eapply step_roster_kept]. revert Hp. clear Hpl. destruct Hs; cbn; try done.
    + intros _. rewrite lookup_insert_ne; [done|congruence].
    + intros [_ Hne]%map_lookup_filter_Some. apply map_lookup_filter_Some. cbn in *. split; [done|congruence].
  - revert Hp Hpl. destruct Hs; cbn; try congruence.
    + intros [[[= <- <-] <-]|[_ ?]]%lookup_insert_Some _; [eauto 6|congruence].
    + intros [? _]%map_lookup_filter_Some. congruence.
Qed.

Lemma step_ok_stats p e : co_stats d' !! (p, e) = recomputed (co_applied d') p e d'.
Proof using Hok Hs.
  assert (Hline : forall m, m ∈ co_applied d -> match_line p e d' m = match_line p e d m).
  { intros m Hm%(ok_applied _ Hok). by apply kept_line, step_kept. }
  pose proof (ok_stats _ Hok p e) as H.
  assert (Hsame : co_applied d' = co_applied d -> co_stats d' = co_stats d ->
    co_stats d' !! (p, e) = recomputed (co_applied d') p e d').
  { intros -> ->. rewrite H. by apply recomputed_ext; intros m Hm; rewrite Hline. }
  destruct Hs; try by apply Hsame.
  - apply Hsame; [|done]. cbn. assert (m ∉ co_applied d); [|set_solver].
    intros Hm%(ok_applied _ Hok). by eapply (unverified_not d).
  - cbn. rewrite recomputed_insert by done. match goal with Ha : apply_result _ _ _ |- _ => pose proof (Ha p e) as Hl end.
    rewrite H in Hl. exact Hl.
Qed.
End preserved.

Lemma comp_step_ok d d' : comp_step d d' -> comp_ok d -> comp_ok d'.
Proof.
  intros Hs Hok. split; eauto using step_ok_slugs, step_ok_teams, step_ok_roster, step_ok_captains, step_ok_links, step_ok_matches, step_ok_sides,
    step_ok_numbers, step_ok_participants, step_ok_verified, step_ok_verified_sides, step_ok_verified_once, step_ok_state, step_ok_applied, step_ok_outbox,
    step_ok_announced, step_ok_stats.
Qed.
Lemma comp_steps_ok d d' : comp_steps d d' -> comp_ok d -> comp_ok d'.
Proof. induction 1 as [|x y z Hxy _ IH]; [done|]. intros Hd. by eapply IH, comp_step_ok. Qed.

(** ** What is never rewritten *)

(** Verified results stay, and with them their matches, sides, participants
    and statistics; players keep their names, the audit trail is appended to
    and every published event stays. *)
Record comp_history d d' : Prop := {
  hi_verified k v : co_verified d !! k = Some v -> co_verified d' !! k = Some v;
  hi_matches k v : co_verified d !! k = Some v -> kept (vr_match v) d d';
  hi_applied : co_applied d ⊆ co_applied d';
  hi_players p x : co_players d !! p = Some x -> exists y, co_players d' !! p = Some y /\ pl_slug y = pl_slug x
    /\ pl_display_name y = pl_display_name x;
  hi_audit : co_audit d `prefix_of` co_audit d';
  hi_outbox : co_outbox d ⊆ co_outbox d'
}.

Lemma kept_trans m d1 d2 d3 : kept m d1 d2 -> kept m d2 d3 -> kept m d1 d3.
Proof. intros [M S P R] [M' S' P' R']. split; [congruence|auto|intros; by rewrite P'|congruence]. Qed.
#[export] Instance comp_history_trans : Transitive comp_history.
Proof.
  intros d1 d2 d3 [V M A P U O] [V' M' A' P' U' O']. split; eauto using kept_trans.
  - by etrans.
  - intros p x Hp. destruct (P _ _ Hp) as (y & Hy & Hys & Hyn). destruct (P' _ _ Hy) as (z & Hz & Hzs & Hzn).
    exists z. split_and!; congruence.
  - by etrans.
  - by etrans.
Qed.

Lemma comp_step_history d d' : comp_ok d -> comp_step d d' -> comp_history d d'.
Proof.
  intros Hok Hs. split.
  - intros k v. by apply verified_fresh_kept.
  - intros k v Hk. apply step_kept; [done..|]. by exists k, v.
  - destruct Hs; cbn; try done; [|set_solver]. intros a Ha. apply elem_of_difference. split; [done|].
    intros ->%elem_of_singleton. apply (ok_applied _ Hok) in Ha. by eapply (unverified_not d).
  - intros p x Hp. destruct Hs as [| |id z Hid _ _|id user| | | | | | | | | | | | | |]; cbn; eauto.
    + exists x. rewrite lookup_insert_ne; [done|congruence].
    + destruct (decide (id = p)) as [->|]; [|rewrite lookup_alter_ne by done; eauto].
      exists (set_linked user x). by rewrite lookup_alter_eq, Hp.
  - destruct Hs; cbn; try done. by eexists.
  - destruct Hs; cbn; try done; by apply insert_subseteq.
Qed.
Lemma comp_steps_history d d' : comp_steps d d' -> comp_ok d -> comp_history d d'.
Proof.
  induction 1 as [d|x y z Hxy _ IH]; intros Hok.
  - split; eauto. by split.
  - etrans; [by apply comp_step_history|]. by eapply IH, comp_step_ok.
Qed.
End competition.
#[export] Hint Resolve comp_steps_po : keeps.
