(* ===== verification/CompetitionOps.v ===== *)
(** * The competition store's operations as steps

    Every operation of [CompetitionDB], whatever it returns and whichever of
    its statements fails, makes only the changes of [CompetitionStore], so
    that what holds there holds after any run of the store and of the
    statistics consumer. *)
From S2P Require Import Prelude GoStrings GoTime Events Payloads Dispatcher OutboxPG Competition Float64 SQL Keeping Identity IdentityDB EventIDs CompetitionDB Slugs CompetitionStore.

#[local] Abbreviation go := (SQL.go CompDB).

(** One text reads as one uuid. *)
Ltac same_casts :=
  repeat match goal with
  | H1 : cast ?x = Ok ?a, H2 : cast ?x = Ok ?b |- _ =>
      assert (b = a) by congruence; clear H2; try subst b
  end.

Section operations.
Context {E : environment}.
Implicit Types (d : CompDB).

(** Steps from a state in which the invariant holds. *)
Definition comp_moves d d' : Prop := comp_ok d -> comp_steps d d'.
#[export] Instance comp_moves_po : PreOrder comp_moves.
Proof.
  split; [by intros d _|]. intros d1 d2 d3 H1 H2 Hok. etrans; [by apply H1|]. by eapply H2, comp_steps_ok; [apply H1|].
Qed.
#[local] Hint Resolve comp_moves_po : keeps.

#[local] Abbreviation keeps := (Keeping.keeps comp_moves).
#[local] Abbreviation keeps_at := (Keeping.keeps_at comp_moves).
#[local] Abbreviation stepping := (Keeping.stepping comp_moves).
#[local] Abbreviation keeps_statement := (Keeping.keeps_statement comp_moves).
#[local] Abbreviation keeps_exec := (Keeping.keeps_exec comp_moves).
#[local] Abbreviation keeps_bind := (Keeping.keeps_bind comp_moves).
#[local] Abbreviation stepping_then := (Keeping.stepping_then comp_moves).
#[local] Abbreviation keeps_transaction := (Keeping.keeps_transaction comp_moves).

Lemma one_move d d' : comp_step d d' -> comp_moves d d'.
Proof. intros Hs _. by apply rtc_once. Qed.
Lemma moves_when d d' : (comp_ok d -> comp_moves d d') -> comp_moves d d'.
Proof. intros H Hok. by apply H. Qed.

Lemma keeps_co_audit wrap a action tt t reason before after : keeps (co_insert_audit wrap a action tt t reason before after).
Proof. apply keeps_exec. intros d d' H. go_inv. simplify_eq. apply one_move, step_co_audit. Qed.

Lemma with_same_outbox d : with_co_outbox (co_outbox d) d = d.
Proof. by destruct d. Qed.

Lemma publish_run e s s' u : publish e s = (s', Ok u) ->
  Envelope_Validate e = Ok () /\
  ((db s' = db s /\ exists i r, co_outbox (db s) !! i = Some r /\ same_fact (envelope r) e = true)
   \/ co_outbox (db s) !! Env_ID e = None
      /\ exists r, envelope r = e /\ db s' = with_co_outbox (<[Env_ID e := r]> (co_outbox (db s))) (db s)).
Proof.
  intros (Hv & [[Hd Hf]|(Hn & r & Hr & _ & Hd)])%publish_event_run; (split; [done|]).
  - left. split; [|done]. rewrite Hd. apply with_same_outbox.
  - right. eauto.
Qed.

(** Publishing anything but a verified result. *)
Lemma keeps_publish e : Env_Type e <> MatchResultVerified -> keeps (publish e).
Proof.
  intros Ht s s' [u|err] H.
  - apply publish_run in H as (_ & [[-> _]|(Hn & r & <- & ->)]); [done|]. by apply one_move, step_outbox.
  - apply publish_event_refused in H. by rewrite H, with_same_outbox.
Qed.
#[local] Hint Resolve keeps_co_audit keeps_publish : keeps.

Lemma keeps_requireStaff a : keeps (requireStaff a).
Proof. unfold requireStaff. keeps. Qed.
Lemma reads_requireStaff a : reads (requireStaff a) (fun _ _ => True).
Proof.
  intros s s' r. unfold requireStaff, mbind, go_bind. destruct (query _ _ _) as [s1 [o|e]] eqn:Eq; apply query_db in Eq.
  - destruct o as [role|]; [destruct (admin_or_owner role)|]; by intros [= <- _].
  - by intros [= <- _].
Qed.
Lemma keeps_at_requireStaff d0 a {B} (k : unit -> go B) : keeps_at d0 (k ()) -> keeps_at d0 (requireStaff a ≫= k).
Proof. intros Hk. apply (keeps_at_reads_bind comp_moves _ _ _ _ (reads_requireStaff a)). by intros [] _. Qed.
#[local] Hint Resolve keeps_requireStaff : keeps.

(** *** Events, teams, players *)
Lemma keeps_CreateEvent unicode_lower pool req : keeps (CreateEvent unicode_lower pool req).
Proof.
  unfold CreateEvent. do 3 (keeps_step; [by auto with keeps|]). destruct (bool_decide (slugify _ _ = _)) eqn:Eslug; [by auto with keeps|].
  apply keeps_statement. intros n d d' a H. go_inv. unfold insert_event in *. go_inv. simplify_eq. bool_prop.
  apply one_move, step_event; [by apply eq_None_not_Some|by apply slugify_is_slug].
Qed.
Lemma keeps_CreateTeam unicode_lower pool e name by_ : keeps (CreateTeam unicode_lower pool e name by_).
Proof.
  unfold CreateTeam. do 2 (keeps_step; [by auto with keeps|]). destruct (bool_decide (slugify _ _ = _)) eqn:Eslug; [by auto with keeps|].
  apply keeps_statement. intros n d d' a H. go_inv. unfold insert_team in *. go_inv. simplify_eq. bool_prop.
  apply one_move, step_team; [by apply eq_None_not_Some|by apply slugify_is_slug|done].
Qed.

Lemma reads_new_uuid w : reads (D := CompDB) (new_uuid w) (fun _ u => exists n buf, random_bytes n = Some buf /\ u = event_id buf).
Proof.
  intros s s' r. unfold new_uuid. intros [= <- <-]. split; [done|]. intros a. destruct (random_bytes (tick s)) as [buf|] eqn:Eb; [|done].
  intros [= <-]. by exists (tick s), buf.
Qed.
Lemma keeps_CreatePlayer `{!environment_ok E} unicode_lower pool name user : keeps (CreatePlayer unicode_lower pool name user).
Proof.
  unfold CreatePlayer. do 2 (keeps_step; [by auto with keeps|]). destruct (bool_decide (slugify _ _ = _)) eqn:Eslug; [by auto with keeps|].
  bool_prop. apply (keeps_from comp_moves). intros d0.
  apply (keeps_at_reads_bind comp_moves _ _ _ _ (reads_new_uuid _)). intros unique (m & buf & Hbuf & ->). apply keeps_at_keeps, keeps_statement.
  intros n d d' b H. go_inv. unfold insert_player in *. go_inv. simplify_eq. bool_prop.
  apply one_move, step_player; [by apply eq_None_not_Some| |].
  - destruct (random_full _ _ Hbuf). apply is_slug_join; [by apply slugify_is_slug|by apply first_part_is_slug].
  - intros q y u Hq Hx Hy. match goal with H : ~ map_Exists _ _ |- _ => apply H end. exists q, y. split; [done|right]. cbn in *. split; congruence.
Qed.

(** *** Rosters *)
Lemma count_rows_some {K A} `{Countable K} (p : K * A -> bool) (m : gmap K A) :
  count_rows p m <> 0 -> exists k x, m !! k = Some x /\ p (k, x) = true.
Proof.
  unfold count_rows. intros Hn. destruct (List.filter p (map_to_list m)) as [|[k x] l] eqn:El; [done|].
  assert (Hin : (k, x) ∈ List.filter p (map_to_list m)) by (rewrite El; left).
  apply filter_bool_elem in Hin as [Hin%elem_of_map_to_list Hp]. by exists k, x.
Qed.
Lemma count_rows_pos {K A} `{Countable K} (p : K * A -> bool) (m : gmap K A) k x :
  m !! k = Some x -> p (k, x) = true -> count_rows p m <> 0.
Proof.
  intros Hk Hp. assert (Hin : (k, x) ∈ List.filter p (map_to_list m)) by (apply filter_bool_elem; by rewrite elem_of_map_to_list).
  unfold count_rows. destruct (List.filter p (map_to_list m)); [by apply elem_of_nil in Hin|done].
Qed.
Lemma count_rows_other {K A} `{Countable K} (p : K * A -> bool) (m : gmap K A) k x :
  m !! k = Some x -> p (k, x) = true -> count_rows p m <> 1 -> exists k' x', k' <> k /\ m !! k' = Some x' /\ p (k', x') = true.
Proof.
  intros Hk Hp Hn. assert (Hin : (k, x) ∈ List.filter p (map_to_list m)) by (apply filter_bool_elem; by rewrite elem_of_map_to_list).
  assert (Hd : NoDup ((List.filter p (map_to_list m)).*1)) by (apply NoDup_fmap_filter, NoDup_fst_map_to_list).
  assert (Hall : forall k' x', (k', x') ∈ List.filter p (map_to_list m) -> m !! k' = Some x' /\ p (k', x') = true).
  { intros k' x' [Hi%elem_of_map_to_list ?]%filter_bool_elem. done. }
  unfold count_rows in Hn. destruct (List.filter p (map_to_list m)) as [|[k1 x1] [|[k2 x2] l]] eqn:El.
  - by apply elem_of_nil in Hin.
  - done.
  - cbn in Hd. apply NoDup_cons in Hd as [Hd1 _]. destruct (decide (k1 = k)) as [->|Hne].
    + exists k2, x2. destruct (Hall k2 x2) as [? ?]; [by right; left|]. split_and!; [|done..]. intros ->. apply Hd1. left.
    + exists k1, x1. destruct (Hall k1 x1) as [? ?]; [by left|]. done.
Qed.

Lemma keeps_advance_version t v : keeps (advance_version t v).
Proof. apply keeps_exec. intros d d' H. go_inv. simplify_eq. apply one_move, step_version. Qed.
Lemma keeps_publishRosterChanged req v action c : keeps (publishRosterChanged req v action c).
Proof. unfold publishRosterChanged, newUUID. keeps. Qed.
Lemma keeps_recordRosterAudit a t p action before after reason : keeps (recordRosterAudit a t p action before after reason).
Proof. apply keeps_co_audit. Qed.
#[local] Hint Resolve keeps_advance_version keeps_publishRosterChanged keeps_recordRosterAudit : keeps.

Lemma reads_lockRosterTeam e t : reads (lockRosterTeam e t) (fun _ _ => True).
Proof.
  intros s s' r. unfold lockRosterTeam, mbind, go_bind. destruct (query _ _ _) as [s1 [o|err]] eqn:Eq; apply query_db in Eq.
  - destruct o; by intros [= <- _].
  - by intros [= <- _].
Qed.

Lemma on_team_spec e t kr : on_team e t kr = true -> kr.1.1 = e /\ ro_team kr.2 = t.
Proof. unfold on_team. intros. by bool_prop. Qed.

(** Setting a membership, with the captaincy the handler chose. *)
Lemma upsert_roster_moves e t p captain d d' :
  upsert_roster e t p captain d = Ok d' ->
  (captain = true \/ exists p' r', p' <> p /\ co_roster d !! (e, p') = Some r' /\ ro_team r' = t /\ ro_captain r' = true) ->
  comp_moves d d'.
Proof.
  unfold upsert_roster. intros H Hc. go_inv. bool_prop. destruct (co_roster d !! (e, p)) as [r|] eqn:Er; [case_bool_decide as Ht|];
    go_inv; simplify_eq; [|done|]; apply one_move, step_join; try done.
  - intros r' Hr'. by rewrite Hr' in Er; simplify_eq.
  - intros r' Hr'. congruence.
Qed.

Lemma other_captain e t p d entry :
  roster_entry e t p d = entry ->
  count_rows (fun kr => on_team e t kr && ro_captain kr.2) (co_roster d) <> 0 ->
  (default false (ro_captain <$> entry) = true -> count_rows (fun kr => on_team e t kr && ro_captain kr.2) (co_roster d) <> 1) ->
  exists p' r', p' <> p /\ co_roster d !! (e, p') = Some r' /\ ro_team r' = t /\ ro_captain r' = true.
Proof.
  intros He Hn Hone.
  assert (Hwit : forall k x, co_roster d !! k = Some x -> on_team e t (k, x) && ro_captain x = true -> k <> (e, p) ->
    exists p' r', p' <> p /\ co_roster d !! (e, p') = Some r' /\ ro_team r' = t /\ ro_captain r' = true).
  { intros [e' p'] x Hx [[He' Ht]%on_team_spec Hcap]%andb_prop Hne. cbn in *. subst e'. exists p', x. split_and!; [congruence|done..]. }
  destruct (count_rows_some _ _ Hn) as (k & x & Hx & Hp). destruct (decide (k = (e, p))) as [->|Hne]; [|by eapply Hwit].
  assert (Hcap : default false (ro_captain <$> entry) = true).
  { rewrite <- He. unfold roster_entry. rewrite Hx. cbn in Hp. apply andb_prop in Hp as [[_ Ht]%on_team_spec Hc].
    cbn in Ht. by rewrite bool_decide_true. }
  destruct (count_rows_other _ _ _ _ Hx Hp (Hone Hcap)) as (k' & x' & Hne & Hx' & Hp'). by eapply Hwit.
Qed.

Lemma keeps_SetTeamMember pool req : keeps (SetTeamMember pool req).
Proof.
  unfold SetTeamMember. keeps_step; [by auto with keeps|]. destruct (_ || _); [by auto with keeps|].
  apply keeps_transaction, keeps_stepping, (keeps_from comp_moves). intros d0. apply keeps_at_requireStaff.
  apply (keeps_at_reads_bind comp_moves _ _ _ _ (reads_lockRosterTeam _ _)). intros version _. keeps_at.
  apply (keeps_at_exec_bind comp_moves). intros d' Hd'. split; [|apply keeps_at_keeps; by keeps].
  go_inv. simplify_eq. same_casts. eapply upsert_roster_moves; [eassumption|].
  set (entry := roster_entry _ _ _ d0) in *. destruct (IsCaptain req || _ || _) eqn:Enew; [by left|right].
  apply orb_false_iff in Enew as [_ Ecaptains]. apply Z.eqb_neq in Ecaptains.
  eapply (other_captain _ _ _ _ entry); [done|exact Ecaptains|]. intros Hold Hone. rewrite Hold, Hone in Hc.
  destruct entry; [|done]. by rewrite bool_decide_true in Hc.
Qed.

(** What a removal leaves: a captain among the others, or nobody. *)
Lemma leave_moves e t p d r :
  roster_entry e t p d = Some r -> played_for e t p d = false ->
  (count_rows (fun kr => on_team e t kr && negb (bool_decide (kr.1.2 = p))) (co_roster d) <> 0 -> ro_captain r = true ->
   count_rows (fun kr => on_team e t kr && negb (bool_decide (kr.1.2 = p)) && ro_captain kr.2) (co_roster d) <> 0) ->
  comp_moves d (with_roster (delete (e, p) (co_roster d)) d).
Proof.
  unfold roster_entry. destruct (co_roster d !! (e, p)) as [r0|] eqn:Er; [|done]. case_bool_decide as Ht; [|done]. intros [= ->] Hp Hc.
  apply moves_when. intros Hok. apply one_move. eapply step_leave; [done|by rewrite Ht|]. intros p' r' Hne Hr' Ht'. rewrite Ht in *.
  destruct (ro_captain r) eqn:Ecap.
  - assert (Hothers : count_rows (fun kr => on_team e t kr && negb (bool_decide (kr.1.2 = p))) (co_roster d) <> 0).
    { eapply (count_rows_pos _ _ (e, p') r'); [done|]. unfold on_team.
      by rewrite (bool_decide_true (_ = e)), (bool_decide_true (_ = t)), bool_decide_false. }
    destruct (count_rows_some _ _ (Hc Hothers eq_refl)) as ([e' q] & x & Hx & Hq).
    apply andb_prop in Hq as [[[He Hq]%on_team_spec Hnq]%andb_prop Hcap]. bool_prop. cbn in *. subst e'. by exists q, x.
  - destruct (ok_captains _ Hok _ _ _ Er) as (q & x & Hx & Htx & Hcap). exists q, x. split_and!; [|done|congruence|done].
    intros ->. congruence.
Qed.

Lemma keeps_RemoveTeamMember pool e t p actor reason : keeps (RemoveTeamMember pool e t p actor reason).
Proof.
  unfold RemoveTeamMember. keeps_step; [by auto with keeps|]. destruct (_ || _); [by auto with keeps|]. cbv zeta.
  destruct (_ || _); [by auto with keeps|].
  apply keeps_transaction, keeps_stepping, (keeps_from comp_moves). intros d0. apply keeps_at_requireStaff.
  apply (keeps_at_reads_bind comp_moves _ _ _ _ (reads_lockRosterTeam _ _)). intros version _. keeps_at.
  apply (keeps_at_exec_bind comp_moves). intros d' Hd'. split; [|apply keeps_at_keeps; by keeps].
  go_inv. simplify_eq. same_casts. destruct (roster_entry _ _ _ d0) as [r|] eqn:Er; [|done].
  unfold roster_member in *. rewrite Er in *. simplify_option_eq. bool_prop. eapply leave_moves; [done|by apply not_true_is_false|].
  intros Hm Hcap. rewrite Hcap in Hc0. cbn in Hc0. apply andb_false_iff in Hc0 as [Hc0|Hc0]; bool_prop; [|done].
  exfalso. apply Hm. apply Z.ltb_ge in Hc0. unfold count_rows in *. lia.
Qed.

(** *** Player links *)
Lemma link_player_moves p user d d' : link_player p user d = Ok d' -> comp_moves d d'.
Proof.
  unfold link_player. intros H. go_inv. simplify_eq. bool_prop. apply one_move, step_link. intros q y u -> Hne Hq Hy.
  match goal with Hn : ~ (_ /\ _) |- _ => apply Hn end. split; [done|]. exists q, y. by split.
Qed.
Lemma keeps_publishPlayerLinkEvent p u t : t <> MatchResultVerified -> keeps (publishPlayerLinkEvent p u t).
Proof. intros Ht. unfold publishPlayerLinkEvent, newUUID. keeps. Qed.
#[local] Hint Resolve keeps_publishPlayerLinkEvent : keeps.

Lemma keeps_link_player wrap player user :
  keeps (exec wrap (fun d => p ← cast player; u ← cast user; link_player p (Some u) d)).
Proof. apply keeps_exec. intros d d' H. go_inv. by eapply link_player_moves. Qed.
Lemma keeps_unlink_player wrap player : keeps (exec wrap (fun d => p ← cast player; link_player p None d)).
Proof. apply keeps_exec. intros d d' H. go_inv. by eapply link_player_moves. Qed.
#[local] Hint Resolve keeps_link_player keeps_unlink_player : keeps.

Lemma keeps_LinkPlayerToUser pool a p u : keeps (LinkPlayerToUser pool a p u).
Proof. apply keeps_transaction, keeps_stepping. by keeps. Qed.
Lemma keeps_UnlinkPlayer pool a p u : keeps (UnlinkPlayer pool a p u).
Proof. apply keeps_transaction, keeps_stepping. by keeps. Qed.

(** *** Deletions *)
Lemma keeps_publishSetupDeleted record : keeps (publishSetupDeleted record).
Proof. unfold publishSetupDeleted, newUUID. by keeps. Qed.
#[local] Hint Resolve keeps_publishSetupDeleted : keeps.

Lemma keeps_deleteSetup pool a reason del : (forall r, keeps (del r)) -> keeps (deleteSetup pool a reason del).
Proof.
  intros Hdel. unfold deleteSetup. keeps_step; [by auto with keeps|]. cbv zeta. destruct (_ || _); [by auto with keeps|].
  apply keeps_transaction, keeps_stepping. by keeps.
Qed.

Lemma match_protected_state referenced state m d : match_protected referenced state m d <> true -> state <> "verified"%string.
Proof. by intros Hp ->. Qed.
Lemma delete_event_moves referenced state e d : event_protected referenced state e d <> true -> comp_moves d (delete_event e d).
Proof.
  unfold event_protected. intros Hp%not_true_is_false. bool_prop. apply one_move, step_delete_event.
  - intros t x Ht Hx. match goal with Hn : ~ map_Exists _ (co_teams _) |- _ => apply Hn end. by exists t, x.
  - intros m x Hm Hx. match goal with Hn : ~ map_Exists _ (co_matches _) |- _ => apply Hn end. by exists m, x.
Qed.

Lemma keeps_DeleteMatch referenced pool m a reason : keeps (DeleteMatch referenced pool m a reason).
Proof.
  apply keeps_deleteSetup. intros clean. apply (keeps_from comp_moves). intros d0. keeps_at.
  apply (keeps_at_exec_bind comp_moves). intros d' Hd'. split; [|apply keeps_at_keeps; by keeps].
  go_inv. simplify_eq. same_casts. unfold match_details_of in *. destruct (co_matches d0 !! _) as [row|] eqn:Erow; [|done].
  cbn in *. simplify_eq. bool_prop. apply one_move. eapply step_delete_match; [done|]. by eapply match_protected_state.
Qed.

Lemma keeps_DeleteTeam referenced pool e t a reason : keeps (DeleteTeam referenced pool e t a reason).
Proof.
  apply keeps_deleteSetup. intros clean. keeps. apply keeps_exec. intros d d' H. unfold delete_team in H. go_inv. simplify_eq. bool_prop.
  apply one_move, step_delete_team. intros k s Hk Hs. match goal with Hn : ~ map_Exists _ _ |- _ => apply Hn end. by exists k, s.
Qed.

Lemma keeps_DeleteEvent referenced pool e a reason : keeps (DeleteEvent referenced pool e a reason).
Proof.
  apply keeps_deleteSetup. intros clean. apply (keeps_from comp_moves). intros d0. keeps_at.
  apply (keeps_at_exec_bind comp_moves). intros d' Hd'. split; [|apply keeps_at_keeps; by keeps].
  go_inv. simplify_eq. same_casts. bool_prop. by eapply delete_event_moves.
Qed.

(** *** Matches *)
Lemma reads_requireDistinctEventTeams e t1 t2 : reads (requireDistinctEventTeams e t1 t2) (fun _ _ => True).
Proof.
  intros s s' r. unfold requireDistinctEventTeams, mbind, go_bind. destruct (query _ _ _) as [s1 [o|err]] eqn:Eq; apply query_db in Eq.
  - destruct (negb _); by intros [= <- _].
  - by intros [= <- _].
Qed.
Lemma reads_wrapped {A} w (m : go A) P : reads m P -> reads (wrapped w m) P.
Proof.
  intros Hm s s' r. unfold wrapped. destruct (m s) as [s1 r1] eqn:Em. intros [= <- <-]. apply Hm in Em as [? HP].
  split; [done|]. intros a Ha%wrap_err_Ok. by apply HP.
Qed.

(** Every player of a list is on the team's roster. *)
Definition rostered (e t : string) (players : list string) d : Prop :=
  exists e' t', cast e = Ok e' /\ cast t = Ok t' /\
    forall p c, p ∈ players -> cast p = Ok c -> ro_team <$> co_roster d !! (e', c) = Some t'.

(** As many active players of the roster as names asked for: by counting,
    all of them. *)
Lemma counted_all e t ids d :
  count_rows (fun kr => on_team e t kr && player_active kr.1.2 d && bool_decide (kr.1.2 ∈ ids)) (co_roster d) = Z.of_nat (length ids) ->
  forall c, c ∈ ids -> ro_team <$> co_roster d !! (e, c) = Some t.
Proof.
  unfold count_rows. intros Hn%Nat2Z.inj c Hc.
  set (l := List.filter _ (map_to_list (co_roster d))) in *.
  assert (Hl : forall kr, kr ∈ l -> co_roster d !! kr.1 = Some kr.2 /\ kr.1.1 = e /\ ro_team kr.2 = t /\ kr.1.2 ∈ ids).
  { intros [k r] [Hin Hp]%filter_bool_elem. apply elem_of_map_to_list in Hin.
    apply andb_prop in Hp as [[[He Ht]%on_team_spec _]%andb_prop Hi]. by bool_prop. }
  assert (Hd : NoDup ((fun kr : string * string * RosterRow => kr.1.2) <$> l)).
  { assert (Hd : NoDup (l.*1)) by (apply NoDup_fmap_filter, NoDup_fst_map_to_list).
    change (NoDup ((snd ∘ fst) <$> l)). rewrite list_fmap_compose. apply (NoDup_fmap_2_strong snd); [|done].
    intros [e1 p1] [e2 p2] ([k1 r1] & -> & H1)%list_elem_of_fmap ([k2 r2] & -> & H2)%list_elem_of_fmap Hp.
    destruct (Hl _ H1) as (_ & <- & _), (Hl _ H2) as (_ & He2 & _). cbn in *. destruct k1, k2. cbn in *. congruence. }
  assert (Hsub : ((fun kr : string * string * RosterRow => kr.1.2) <$> l) ⊆+ ids).
  { apply NoDup_submseteq; [done|]. intros x (kr & -> & Hkr)%list_elem_of_fmap. by apply Hl. }
  apply submseteq_length_Permutation in Hsub; [|rewrite length_fmap; lia]. rewrite <- Hsub in Hc.
  apply list_elem_of_fmap in Hc as ([[e1 p1] r1] & -> & Hkr). destruct (Hl _ Hkr) as (Hr & He & Ht & _). cbn in *. subst e1.
  by rewrite Hr, <- Ht.
Qed.

Lemma cast_all_length l ids : cast_all l = Ok ids -> length ids = length l /\ forall p c, p ∈ l -> cast p = Ok c -> c ∈ ids.
Proof.
  revert ids. unfold cast_all. induction l as [|x l IH]; intros ids H; cbn in H; go_inv.
  - split; [done|]. intros p c Hp. by apply elem_of_nil in Hp.
  - destruct (IH _ Hok0) as [Hlen Hin]. split; [cbn; congruence|]. intros p c [->|Hp]%elem_of_cons Hc; [|by right; eapply Hin].
    rewrite Hok in Hc. injection Hc as ->. left.
Qed.

Lemma reads_requireActiveRosterPlayers e t l : reads (requireActiveRosterPlayers e t l) (fun d _ => rostered e t l d).
Proof.
  intros s s' r. unfold requireActiveRosterPlayers, mbind at 1, go_bind at 1.
  destruct (query _ _ _) as [s1 [[active captains]|err]] eqn:Eq; pose proof (query_db _ _ _ _ _ Eq) as Edb; [|by intros [= <- <-]].
  apply query_run in Eq as [_ Hq]. cbv beta in Hq. destruct (captains =? 0); [by intros [= <- <-]|].
  destruct (active =? _) eqn:En; cbn [negb]; [|by intros [= <- <-]]. intros [= <- <-]. split; [done|]. intros [] _.
  go_inv. simplify_eq. apply Z.eqb_eq in En. match goal with Ha : cast_all _ = Ok _ |- _ => apply cast_all_length in Ha as [Hlen Hin] end.
  eexists _, _. split_and!; [eassumption|eassumption|]. intros p c Hp Hc. eapply counted_all; [|by eapply Hin]. congruence.
Qed.

Lemma insert_participants_run mid sid side row l i s s' u :
  co_matches (db s) !! mid = Some row -> ma_state row = "open"%string -> co_sides (db s) !! sid = Some side -> si_match side = mid ->
  (forall p c, p ∈ l -> cast p = Ok c -> ro_team <$> co_roster (db s) !! (si_event side, c) = Some (si_team side)) ->
  insert_participants mid sid l i s = (s', Ok u) ->
  comp_moves (db s) (db s') /\ exists x, db s' = with_participants x (db s).
Proof.
  intros Hrow Hopen Hside Hmid. revert i s Hrow Hside.
  induction l as [|p l IH]; intros i s Hrow Hside Hroster H; cbn [insert_participants] in H.
  - apply ret_run in H as [-> _]. split; [done|]. exists (co_participants (db s)). by destruct (db s).
  - apply bind_run in H as (u1 & s1 & H1 & H).
    assert (Hs1 : comp_moves (db s) (db s1) /\ exists x, db s1 = with_participants x (db s)).
    { destruct (is_blank p); [apply ret_run in H1 as [-> _]; split; [done|]; exists (co_participants (db s)); by destruct (db s)|].
      apply exec_run in H1. destruct (cast p) as [c|] eqn:Ec; [|discriminate H1]. cbn in H1. unfold insert_participant in H1.
      go_inv. simplify_eq. bool_prop. rewrite <- H1. split; [|by eexists]. apply one_move. eapply step_participant; cbn; try done.
      - by apply eq_None_not_Some.
      - eapply Hroster; [left|done]. }
    destruct Hs1 as [Hm1 [x Hx]]. destruct (IH (i + 1) s1) as [Hm2 [y Hy]]; try done; try (by rewrite Hx).
    { intros p' c Hp' Hc. rewrite Hx. cbn. eapply Hroster; [by right|done]. }
    split; [by etrans|]. exists y. by rewrite Hy, Hx.
Qed.

Lemma insertSide_run e mid n t s s' sid row :
  insertSide e mid n t s = (s', Ok sid) -> n = 1 \/ n = 2 -> co_matches (db s) !! mid = Some row -> ma_state row = "open"%string ->
  comp_moves (db s) (db s') /\ exists e' t', cast e = Ok e' /\ cast t = Ok t' /\ co_sides (db s) !! sid = None
    /\ db s' = with_sides (<[sid := mkSideRow e' mid n t']> (co_sides (db s))) (db s).
Proof.
  intros (k & H)%statement_run Hn Hrow Hopen. destruct (cast e) as [e'|] eqn:Ee; [|discriminate H].
  destruct (cast t) as [t'|] eqn:Et; [|discriminate H]. cbn in H. go_inv. simplify_eq. unfold insert_side in *. go_inv. simplify_eq. bool_prop.
  match goal with H : with_sides _ _ = db s' |- _ => rewrite <- H end. cbn in *. split; [|exists e', t'; split_and!; try done; by apply eq_None_not_Some].
  apply one_move. eapply step_side; cbn; try done.
  - by apply eq_None_not_Some.
  - simplify_option_eq. congruence.
  - intros j x Hj Hjm Hjn. match goal with Hu : ~ map_Exists _ _ |- _ => apply Hu end. exists j, x. split; [done|]. by split; [|left].
Qed.

Lemma keeps_CreateMatch `{!environment_ok E} pool req : keeps (CreateMatch pool req).
Proof.
  unfold CreateMatch. keeps_step; [by auto with keeps|]. destruct (bool_decide _); [by auto with keeps|]. cbv zeta.
  set (l1 := normalizeParticipantIDs (Side1PlayerIDs req)). set (l2 := normalizeParticipantIDs (Side2PlayerIDs req)).
  do 2 (keeps_step; [by auto with keeps|]). apply keeps_transaction. intros s s' r H.
  apply bind_run in H as (u0 & s0 & [E0 _]%reads_requireStaff & H). apply bind_run in H as (u1 & s1 & [E1 _]%reads_requireDistinctEventTeams & H).
  apply bind_run in H as (u2 & s2 & [E2 HP2]%(reads_wrapped _ _ _ (reads_requireActiveRosterPlayers _ _ _)) & H).
  apply bind_run in H as (u3 & s3 & [E3 HP3]%(reads_wrapped _ _ _ (reads_requireActiveRosterPlayers _ _ _)) & H).
  apply bind_run in H as (number & s4 & [E4 _]%query_run & H). apply bind_run in H as (mid & s5 & (n & H5)%statement_run & H).
  destruct (HP2 u2 eq_refl) as (e & t1 & He & Ht1 & Hr1). destruct (HP3 u3 eq_refl) as (e' & t2 & He' & Ht2 & Hr2).
  rewrite He' in He. injection He as ->. rewrite He' in H5. cbn in H5. go_inv. simplify_eq.
  unfold insert_match in *. go_inv. simplify_eq. bool_prop. cbn [ma_event] in *.
  match goal with H : with_matches _ _ = db s5 |- _ => rename H into E5 end.
  set (row := mkMatchDBRow e number (CM_Format req) "open") in *.
  assert (Hm5 : comp_moves (db s4) (db s5)).
  { rewrite <- E5. apply cast_Ok in He'. destruct (cast_canonical _ _ He') as [Hcan Hu]. apply one_move, step_match; cbn; try done.
    - by apply eq_None_not_Some.
    - by intros ->. }
  assert (Hrow5 : co_matches (db s5) !! gen_uuid n = Some row) by (rewrite <- E5; apply lookup_insert_eq).
  apply bind_run in H as (k1 & s6 & H6 & H). apply (insertSide_run _ _ _ _ _ _ _ row) in H6 as [Hm6 (e6 & t6 & He6 & Ht6 & Hk1 & E6)];
    [|by left|done..]. rewrite He' in He6. injection He6 as <-. rewrite Ht1 in Ht6. injection Ht6 as <-.
  apply bind_run in H as (k2 & s7 & H7 & H). apply (insertSide_run _ _ _ _ _ _ _ row) in H7 as [Hm7 (e7 & t7 & He7 & Ht7 & Hk2 & E7)];
    [|by right|by rewrite E6|done]. rewrite He' in He7. injection He7 as <-. rewrite Ht2 in Ht7. injection Ht7 as <-.
  assert (Hroster : co_roster (db s7) = co_roster (db s)) by (rewrite E7, E6, <- E5; cbn; congruence).
  apply bind_run in H as (v1 & s8 & H8 & H).
  apply (insert_participants_run _ _ (mkSideRow e (gen_uuid n) 1 t1) row) in H8 as [Hm8 [x8 E8]]; try done.
  2: by rewrite E7, E6.
  2: { rewrite E7. cbn. rewrite lookup_insert_ne; [rewrite E6; apply lookup_insert_eq|]. intros <-. rewrite E6 in Hk2. cbn in Hk2.
       by rewrite lookup_insert_eq in Hk2. }
  2: { intros p c Hp Hc. rewrite Hroster, <- E0, <- E1. by eapply Hr1. }
  apply bind_run in H as (v2 & s9 & H9 & [-> _]%ret_run).
  apply (insert_participants_run _ _ (mkSideRow e (gen_uuid n) 2 t2) row) in H9 as [Hm9 _]; try done.
  2: by rewrite E8, E7, E6.
  2: { rewrite E8, E7. cbn. apply lookup_insert_eq. }
  2: { intros p c Hp Hc. rewrite E8. cbn. rewrite Hroster, <- E0, <- E1, <- E2. by eapply Hr2. }
  rewrite E3, E2, E1, E0 in E4. rewrite E4 in Hm5. do 4 (etrans; [eassumption|]). done.
Qed.

(** *** Results *)
Lemma sides_of_spec m d k s : (k, s) ∈ sides_of m d <-> co_sides d !! k = Some s /\ si_match s = m.
Proof. unfold sides_of. rewrite filter_bool_elem, elem_of_map_to_list. cbn. by rewrite bool_decide_eq_true. Qed.

(** Both sides of a match, each under its number. *)
Definition both_sides (m : string) (sides : gmap Z string) d : Prop :=
  forall n, n = 1 \/ n = 2 -> exists k s, sides !! n = Some k /\ co_sides d !! k = Some s /\ si_match s = m /\ si_number s = n.

Lemma both_sides_has m sides d : both_sides m sides d -> has_sides m d.
Proof. intros H n Hn. destruct (H n Hn) as (k & s & _ & ?). by exists k, s. Qed.

Lemma loadSideIDs_run m c s s' sides :
  comp_ok (db s) -> cast m = Ok c -> loadSideIDs m s = (s', Ok sides) -> db s' = db s /\ both_sides c sides (db s).
Proof.
  intros Hok Hc H. unfold loadSideIDs in H. apply bind_run in H as (a & s1 & [E1 Hq]%query_run & H).
  destruct (negb _) eqn:En; [by apply failing_run in H|]. apply ret_run in H as [-> ->]. split; [done|]. bool_prop.
  rewrite Hc in Hq. cbn in Hq. injection Hq as Hq.
  assert (Hspec : forall n k, a !! n = Some k -> exists x, co_sides (db s) !! k = Some x /\ si_match x = c /\ si_number x = n).
  { intros n k Hk. rewrite <- Hq in Hk. apply elem_of_list_to_map_2, list_elem_of_fmap in Hk as ([k' x] & [= -> ->] & Hx).
    apply sides_of_spec in Hx as [? ?]. by exists x. }
  assert (Hdom : forall n, n = 1 \/ n = 2 -> is_Some (a !! n)).
  { intros n Hn. destruct (a !! n) as [k|] eqn:Ek; [by eexists|exfalso]. rewrite <- size_dom in En.
    assert (Hsub : dom a ⊆ {[3 - n]}).
    { intros j [k Hk]%elem_of_dom. destruct (Hspec _ _ Hk) as (x & Hx & _ & Hnum). destruct (ok_sides _ Hok _ _ Hx) as (_ & _ & Hx12).
      apply elem_of_singleton. assert (j <> n) by congruence. lia. }
    apply subseteq_size in Hsub. rewrite size_singleton in Hsub. lia. }
  intros n Hn. destruct (Hdom n Hn) as [k Hk]. destruct (Hspec _ _ Hk) as (x & ? & ? & ?). by exists k, x.
Qed.

(** What the event says is what the row says. *)
Lemma resolve_names_winner winner sides m d v p :
  both_sides m sides d -> winner ∈ ["side_1"; "side_2"; "tie"]%string -> vr_match v = m -> vr_outcome v = verifiedOutcome winner ->
  MRV_Outcome p = (resolveOutcome winner sides).1.1 -> MRV_WinningSideID p = (resolveOutcome winner sides).1.2 -> names_winner v p d.
Proof.
  intros Hboth Hw Hm Ho Hpo Hps. unfold names_winner. rewrite Ho, Hpo, Hps. unfold verifiedOutcome, resolveOutcome.
  rewrite !elem_of_cons, elem_of_nil in Hw. destruct Hw as [->|[->|[->|[]]]]; cbn.
  - right. destruct (Hboth 1) as (k & x & Hk & Hx & Hxm & Hn); [by left|]. exists x. rewrite Hk, Hn. cbn. by rewrite Hm.
  - right. destruct (Hboth 2) as (k & x & Hk & Hx & Hxm & Hn); [by right|]. exists x. rewrite Hk, Hn. cbn. by rewrite Hm.
  - by left.
Qed.

Lemma verifiedOutcome_known winner : verifiedOutcome winner ∈ ["side_1"; "side_2"; "tie"]%string.
Proof. unfold verifiedOutcome. repeat case_bool_decide; set_solver. Qed.

(** The fact that [m] was verified is not in the outbox before it is. *)
Lemma fact_unpublished m c d i r e :
  comp_ok d -> uuid_cast m = Some c -> ~ verified_match c d -> co_outbox d !! i = Some r -> same_fact (envelope r) e = true ->
  AggregateID e = m -> Env_Type e = MatchResultVerified -> False.
Proof.
  intros Hok Hc Hn Hi Hf Ha Ht. unfold same_fact in Hf. bool_prop.
  destruct (ok_outbox _ Hok _ _ Hi) as (p & k & v & row & _ & Hid & [Hk _ [_ Hv] _ _ _]); [congruence|].
  apply Hn. exists k, v. split; [done|]. congruence.
Qed.

(** The changes of a recorded result: the row, the match's state, the audit
    entry and the event. *)
Lemma verify_moves d d' k v m row a i r p :
  d' = with_co_outbox (<[i := r]> (co_outbox d)) (with_co_audit (co_audit d ++ [a])
    (with_matches (alter (set_ma_state "verified") m (co_matches d)) (with_verified (<[k := v]> (co_verified d)) d))) ->
  co_verified d !! k = None -> vr_version v = 1 -> vr_match v = m -> vr_outcome v ∈ ["side_1"; "side_2"; "tie"]%string ->
  co_matches d !! m = Some row -> ma_state row <> "verified"%string -> has_sides m d -> co_outbox d !! i = None ->
  Env_Type (envelope r) = MatchResultVerified -> Payload (envelope r) = marshal_MatchResultVerified p ->
  AggregateID (envelope r) = MRV_MatchID p -> MRV_VerificationID p = k -> MRV_MatchID p <> ""%string /\ uuid_cast (MRV_MatchID p) = Some m ->
  MRV_CompetitionEventID p = ma_event row -> names_winner v p d -> comp_steps d d'.
Proof.
  intros -> H H0 H1 H2 H3 H4 H5 H6 H7 H8 H9 H10 H11 H12 H13. eapply rtc_l; [apply (step_co_audit _ a)|]. apply rtc_once.
  exact (step_verify (with_co_audit (co_audit d ++ [a]) d) k v m row i r p H H0 H1 H2 H3 H4 H5 H6 H7 H8 H9 H10 H11 H12 H13).
Qed.

Lemma validUUID_nonempty s : validUUID s = true -> s <> ""%string.
Proof. by intros Hv ->. Qed.

(** A recorded result, or an error that changed nothing; the identifier is
    returned unless the reply to the COMMIT was lost. *)
Lemma RecordAdminResult_run pool req s s' r :
  comp_ok (db s) -> RecordAdminResult pool req s = (s', r) ->
  (is_Ok r = false /\ db s' = db s)
  \/ exists vid, (r = Ok vid \/ is_Ok r = false) /\ comp_steps (db s) (db s')
     /\ exists m v, uuid_cast (RR_MatchID req) = Some m /\ co_verified (db s') !! vid = Some v /\ vr_match v = m
        /\ (db s' = db s \/ ~ verified_match m (db s) /\ vr_outcome v = verifiedOutcome (Winner req)).
Proof using.
  intros Hok. unfold RecordAdminResult. destruct pool; [|intros [= <- <-]; by left]. cbn [negb].
  destruct (_ && _) eqn:Ewinner; [intros [= <- <-]; by left|]. cbv zeta.
  set (reason := if bool_decide (TrimSpace (RR_Reason req) = _) then _ else _). set (score := TrimSpace (RR_Score req)).
  destruct (120 <? len score); [intros [= <- <-]; by left|].
  intros [[[e ->] ->]|[(b & b1 & vid & _ & H & _)|(b & b1 & wrap & vid & Eb & H & -> & Hr & _)]]%transaction_cases; [by left|..].
  { exfalso. run_inv; try done. all: try (by destruct (resolveOutcome _ _) as [[? ?] ?]; run_inv). }
  right. exists vid. split; [destruct Hr as [->|(e & -> & _)]; auto|]. clear Hr r.
  rewrite <- Eb in *. clear Eb s.
  apply bind_run in H as (at_ & s0 & ->%tx_now_run & H). apply bind_run in H as (u0 & s1 & [E1 _]%reads_requireStaff & H).
  apply bind_run in H as (found & s2 & [E2 Hrow]%query_run & H). destruct found as [row|]; [|by apply failing_run in H].
  destruct (cast (RR_MatchID req)) as [m|] eqn:Em; [|discriminate Hrow]. injection Hrow as Hrow. pose proof Em as Em'. apply cast_Ok in Em'.
  rewrite E1 in Hrow, E2. destruct (bool_decide (ma_state row = "verified"%string)) eqn:Estate; bool_prop.
  { apply bind_run in H as (x & s3 & [E3 Hx]%query_run & [-> [= _ ->]]%ret_run). cbn in Hx. rewrite E3, E2. split; [done|].
    unfold must_find in Hx. destruct (head _) as [y|] eqn:Ey; [|done]. injection Hx as ->.
    apply head_Some_elem_of in Ey. unfold results_of in Ey. rewrite merge_sort_Permutation in Ey. apply filter_bool_elem in Ey as [Ey Hm].
    destruct x as [k v]. apply elem_of_map_to_list in Ey. bool_prop. rewrite E2 in Ey. exists m, v. auto 6. }
  destruct (negb (bool_decide (ma_state row = "open"%string)) && _ && _); [by apply failing_run in H|].
  apply bind_run in H as (sides & s3 & H3 & H).
  apply (loadSideIDs_run _ m) in H3 as [E3 Hsides]; [|by rewrite E2|done]. rewrite E2 in E3, Hsides.
  destruct (resolveOutcome (Winner req) sides) as [[outcome winning] points_] eqn:Eres.
  apply bind_run in H as (k & s4 & (n & H4)%statement_run & H). cbn in H4.
  destruct (cast (ActorUserID req)) as [by_|]; [|discriminate H4]. cbn in H4. apply bind_Ok in H4 as (d4 & H4 & [= E4 <-]).
  set (v := mkVerifiedRow m 1 points_ _ _ _ _ _ _) in H4. unfold insert_verified in H4. go_inv. bool_prop.
  match goal with Hk : ~ is_Some (co_verified _ !! _) |- _ => apply eq_None_not_Some in Hk; rename Hk into Hk end.
  apply bind_run in H as (u5 & s5 & H5%exec_run & H). injection H5 as H5.
  apply bind_run in H as (u6 & s6 & H6%exec_run & H). cbn in H6. go_inv.
  apply bind_run in H as (eid & s7 & E7%new_uuid_run & H). apply bind_run in H as (t & s8 & [E8 _]%now_run & H).
  apply bind_run in H as (u9 & s9 & H9 & [-> [= _ ->]]%ret_run). rewrite E3 in *.
  assert (Hnv : ~ verified_match m (db b)) by by eapply unverified_not.
  rewrite <- H6, <- H5, <- E4 in E7. rewrite E7 in E8. clear s4 s5 s6 s7 E4 H5 H6 E7.
  apply publish_run in H9 as (Hv & [[_ (i & r0 & Hi & Hf)]|(Hfresh & r0 & Henv & E9)]).
  { exfalso. rewrite E8 in Hi. by eapply (fact_unpublished _ m (db b) i r0). }
  rewrite E8 in Hfresh, E9. split.
  - eapply (verify_moves _ _ _ v m row _ _ r0 (mkMatchResultVerifiedPayload (RR_MatchID req) (ma_event row) (gen_uuid n) outcome winning score));
      [exact E9|..]; rewrite ?Henv; try done; [apply verifiedOutcome_known|by eapply both_sides_has|split; [|done]|].
    + unfold Envelope_Validate in Hv. go_inv. cbn in *. bool_prop. by apply validUUID_nonempty.
    + apply (resolve_names_winner (Winner req) sides m); try done; [|by rewrite Eres..].
      rewrite !elem_of_cons, elem_of_nil. destruct (decide (Winner req = "side_1"%string)); [by left|].
      destruct (decide (Winner req = "side_2"%string)); [by right; left|]. right; right; left.
      rewrite !bool_decide_false in Ewinner by done. cbn in Ewinner. by bool_prop.
  - exists m, v. rewrite E9. split_and!; [done|apply lookup_insert_eq|done|by right].
Qed.

Lemma keeps_RecordAdminResult pool req : keeps (RecordAdminResult pool req).
Proof.
  intros s s' r H Hok. destruct (RecordAdminResult_run pool req s s' r Hok H) as [[_ ->]|(vid & _ & ? & _)]; done.
Qed.

(** *** Statistics *)
Lemma participants_of_spec m d row q side f :
  co_matches d !! m = Some row ->
  (q, side, f) ∈ participants_of m d <-> f = ma_format row /\ exists x, co_participants d !! (m, q) = Some x /\ pa_side x = side.
Proof.
  intros Hrow. unfold participants_of. split.
  - intros ([[m' q'] x] & Hin%elem_of_map_to_list & Hx)%list_elem_of_omap. rewrite Hrow in Hx. cbn in Hx. case_bool_decide; [|done]. subst m'.
    injection Hx as -> <- <-. eauto.
  - intros (-> & x & Hx & <-). apply list_elem_of_omap. exists (m, q, x). rewrite elem_of_map_to_list, Hrow. cbn. by rewrite bool_decide_true.
Qed.

Lemma participants_of_NoDup m d : NoDup (fst <$> (fst <$> participants_of m d)).
Proof.
  unfold participants_of. pose proof (NoDup_fst_map_to_list (co_participants d)) as Hd. revert Hd.
  generalize (map_to_list (co_participants d)). destruct (co_matches d !! m) as [row|]; cbn; intros l;
    induction l as [|[[m' q'] x] l IH]; cbn; intros Hd; try constructor; apply NoDup_cons in Hd as [Hn Hd]; [|by apply IH].
  case_bool_decide as Hm; [subst m'|by apply IH]. cbn. constructor; [|by apply IH].
  intros ([q'' side] & -> & ([[q1 s1] f1] & [= -> ->] & Hin)%list_elem_of_fmap)%list_elem_of_fmap. cbn in *.
  apply list_elem_of_omap in Hin as ([[m2 q2] x2] & Hin & Hx2). cbn in Hx2. case_bool_decide; [|done]. subst m2. injection Hx2 as -> _ _.
  apply Hn, list_elem_of_fmap. by exists (m, q1, x2).
Qed.

(** What a list of participants adds to a player's row. *)
Definition added (p : MatchResultVerifiedPayload) (q : string) (l : list (string * string * MatchFormat)) : option StatRow :=
  head (omap (fun x : string * string * MatchFormat =>
    if bool_decide (x.1.1 = q) then Some (contribution (MRV_Outcome p) (MRV_WinningSideID p) x.1.2 x.2) else None) l).

Lemma added_None p q l : q ∉ fst <$> (fst <$> l) -> added p q l = None.
Proof.
  unfold added. induction l as [|[[q' side] f] l IH]; cbn; [done|]. intros [Hne Hn]%not_elem_of_cons.
  rewrite bool_decide_false by congruence. by apply IH.
Qed.
Lemma added_Some p q side f l : NoDup (fst <$> (fst <$> l)) -> (q, side, f) ∈ l ->
  added p q l = Some (contribution (MRV_Outcome p) (MRV_WinningSideID p) side f).
Proof.
  unfold added. induction l as [|[[q' side'] f'] l IH]; cbn; [by intros _ ?%elem_of_nil|]. intros [Hn Hd]%NoDup_cons [[= -> -> ->]|Hin]%elem_of_cons.
  - by rewrite bool_decide_true.
  - rewrite bool_decide_false; [by apply IH|]. intros ->. apply Hn. apply list_elem_of_fmap. exists (q, side). split; [done|].
    apply list_elem_of_fmap. by exists (q, side, f).
Qed.

Lemma project_spec q e c d d' : project q e c d = Ok d' ->
  exists stats, d' = with_stats stats d /\ forall q' e', stats !! (q', e') =
    add_line (if bool_decide (q' = q /\ e' = e) then Some c else None) (co_stats d !! (q', e')).
Proof.
  unfold project. intros H. destruct (co_stats d !! (q, e)) as [x|] eqn:Ex; go_inv; eexists; (split; [reflexivity|]); intros q' e';
    (destruct (decide (q' = q /\ e' = e)) as [[-> ->]|Hqe]; [rewrite bool_decide_true by done; rewrite lookup_insert_eq, Ex; cbn; first [done|f_equal; apply add_stats_comm]
                              |rewrite bool_decide_false by done; rewrite lookup_insert_ne; [done|intros [= -> ->]; by apply Hqe]]).
Qed.

Lemma project_all_run p l s s' u e : cast (MRV_CompetitionEventID p) = Ok e -> NoDup (fst <$> (fst <$> l)) ->
  project_all p l s = (s', Ok u) ->
  exists stats, db s' = with_stats stats (db s) /\ forall q e', stats !! (q, e') =
    add_line (if bool_decide (e' = e) then added p q l else None) (co_stats (db s) !! (q, e')).
Proof.
  intros He. revert s. induction l as [|[[q side] f] l IH]; intros s Hd H; cbn [project_all] in H.
  - apply ret_run in H as [-> _]. exists (co_stats (db s)). split; [by destruct (db s)|]. intros q e'. by destruct (bool_decide _).
  - apply bind_run in H as (u1 & s1 & H1%exec_run & H). rewrite He in H1. cbn in H1. apply project_spec in H1 as (st1 & E1 & Hst1).
    cbn in Hd. apply NoDup_cons in Hd as [Hn Hd]. destruct (IH _ Hd H) as (st2 & E2 & Hst2). exists st2. split; [by rewrite E2, E1|].
    intros q' e'. rewrite Hst2, E1. cbn. rewrite Hst1. unfold added. cbn. destruct (decide (e' = e)) as [->|Hne].
    + rewrite !(bool_decide_true (e = e)) by done. destruct (decide (q' = q)) as [->|Hq].
      * rewrite !bool_decide_true by done. fold (added p q l). by rewrite (added_None _ _ _ Hn).
      * rewrite (bool_decide_false (q' = q /\ _)), (bool_decide_false (q = q')) by intuition congruence.
        cbn [add_line]. by destruct (co_stats (db s) !! (q', e)).
    + rewrite !bool_decide_false by tauto. done.
Qed.

(** The projection's arithmetic agrees with the score of the result. *)
Lemma contribution_scored d p k v row x side f :
  comp_ok d -> announces p d k v row -> co_sides d !! x = Some side -> si_match side = vr_match v ->
  contribution (MRV_Outcome p) (MRV_WinningSideID p) x f = scored (vr_outcome v) (si_number side) f.
Proof.
  intros Hok Ha Hx Hm. assert (Hf : forall t, (if bool_decide (f = FormatSingles) then mkStatRow t t no_tally 1 else mkStatRow t no_tally t 1)
    = match f with FormatSingles => mkStatRow t t no_tally 1 | _ => mkStatRow t no_tally t 1 end).
  { intros t. case_bool_decide as Hf; [by rewrite Hf|by destruct f]. }
  unfold contribution, outcomeForSide, scored. destruct (an_winner _ _ _ _ _ Ha) as [(Ho & -> & _)|(w & Ho & -> & Hw & Hwm)].
  - rewrite Ho, !bool_decide_true by done. by apply Hf.
  - rewrite (bool_decide_false ("side_win" = "tie")%string), (bool_decide_true ("side_win" = "side_win")%string) by done.
    destruct (ok_sides _ Hok _ _ Hx) as (_ & _ & Hn), (ok_sides _ Hok _ _ Hw) as (_ & _ & Hnw).
    assert (Heq : x = MRV_WinningSideID p <-> si_number side = si_number w).
    { split; [intros ->; congruence|]. intros Hnum. by eapply (ok_numbers _ Hok); [exact Hx|exact Hw|congruence|]. }
    rewrite Ho. destruct (decide (x = MRV_WinningSideID p)) as [Hxw|Hxw].
    + rewrite (bool_decide_true (x = _)) by done. apply Heq in Hxw. rewrite Hxw.
      destruct Hnw as [->| ->]; cbn; by apply Hf.
    + rewrite (bool_decide_false (x = _)) by done. assert (si_number side <> si_number w) by tauto.
      destruct Hn as [En|En], Hnw as [Ew|Ew]; rewrite En, Ew in *; try done; cbn; by apply Hf.
Qed.

(** What the projection adds is the players' lines of the match. *)
Lemma added_line d p k v row q e :
  comp_ok d -> announces p d k v row ->
  (if bool_decide (e = ma_event row) then added p q (participants_of (vr_match v) d) else None) = match_line q e d (vr_match v).
Proof.
  intros Hok Ha. pose proof (an_row _ _ _ _ _ Ha) as Hrow. unfold match_line.
  rewrite (result_of_verified _ _ _ Hok (an_verified _ _ _ _ _ Ha)), Hrow.
  destruct (co_participants d !! (vr_match v, q)) as [x|] eqn:Ex.
  - destruct (ok_participants _ Hok _ _ _ Ex) as (_ & s & Hs & Hsm & _). cbn. rewrite Hs. cbn.
    case_bool_decide; [rewrite bool_decide_true by done|by rewrite bool_decide_false by done].
    rewrite (added_Some _ _ (pa_side x) (ma_format row)); [|apply participants_of_NoDup|apply (participants_of_spec _ _ _ _ _ _ Hrow); eauto].
    f_equal. by eapply contribution_scored.
  - cbn. case_bool_decide; [|done]. apply added_None.
    intros ([q' side] & -> & ([[q1 s1] f1] & [= -> ->] & Hin)%list_elem_of_fmap)%list_elem_of_fmap. cbn in *.
    apply (participants_of_spec _ _ row) in Hin as (_ & x & Hx & _); [|done]. congruence.
Qed.

(** The statements of one delivery. *)
Definition apply_announced (p : MatchResultVerifiedPayload) : go (finish unit) :=
  inserted ← statement "guard stats application: %w" (fun _ d =>
    m ← cast (MRV_MatchID p);
    fail_if (negb (bool_decide (is_Some (co_matches d !! m)))) foreign_key;;
    if bool_decide (m ∈ co_applied d) then Ok (d, false) else Ok (with_applied ({[m]} ∪ co_applied d) d, true));
  if negb inserted then mret (Commit "%w" ())
  else
    participants ← query "load participants: %w" (fun d => m ← cast (MRV_MatchID p); Ok (participants_of m d));
    project_all p participants;;
    mret (Commit "commit stats projection: %w" ()).

Lemma apply_announced_run p s s' u k v row :
  comp_ok (db s) -> announces p (db s) k v row -> apply_announced p s = (s', Ok u) ->
  comp_steps (db s) (db s') /\ vr_match v ∈ co_applied (db s').
Proof.
  intros Hok Ha H. destruct (an_match _ _ _ _ _ Ha) as [_ Hm]. apply cast_Ok in Hm.
  apply bind_run in H as (inserted & s1 & (n & H1)%statement_run & H). rewrite Hm in H1. cbn in H1. apply bind_Ok in H1 as (? & _ & H1).
  case_bool_decide as Hin; injection H1 as E1 <-; cbn in H; [apply ret_run in H as [-> _]; by rewrite <- E1|].
  apply bind_run in H as (l & s2 & [E2 Hl]%query_run & H). rewrite Hm in Hl. cbn in Hl. injection Hl as <-.
  apply bind_run in H as (u2 & s3 & H3 & [-> _]%ret_run). rewrite <- E1 in H3.
  destruct (ok_matches _ Hok _ _ (an_row _ _ _ _ _ Ha)) as (_ & He & _). rewrite <- (an_event _ _ _ _ _ Ha) in He. apply cast_Ok in He.
  apply (project_all_run _ _ _ _ _ _ He) in H3 as (stats & E3 & Hst); [|apply participants_of_NoDup].
  rewrite E3, E2, <- E1. split; [|cbn; set_solver]. apply rtc_once, step_apply; [by exists k, v; split; [apply Ha|]|done|].
  intros q e. rewrite Hst, E2, <- E1, (an_event _ _ _ _ _ Ha). by rewrite <- (added_line _ _ _ _ _ q e Hok Ha).
Qed.
End operations.
