(* ===== verification/CompetitionRuns.v ===== *)
(** * Runs of the competition store

    The commands of the competition store and deliveries of its outbox to the
    statistics consumer, in any order and any number of times; what no run can
    break, and what a run without faults achieves. *)
From S2P Require Import Prelude GoStrings GoTime Events Payloads Dispatcher OutboxPG Competition Float64 SQL Keeping Identity IdentityDB CompetitionDB Slugs CompetitionStore CompetitionOps.

#[local] Abbreviation go := (SQL.go CompDB).

Section runs.
Context {E : environment} `{!environment_ok E}.
Context (unicode_lower : string -> string) (referenced : string -> string -> bool).
Context (unmarshal_bytes : string -> result MatchResultVerifiedPayload).
Implicit Types (d : CompDB) (pool : bool).

(** ** The statistics consumer *)
#[local] Abbreviation Handle := (StatsProjectionConsumer_Handle unmarshal_bytes).

Lemma Handle_payload pool envelope p s :
  unmarshal_MatchResultVerified unmarshal_bytes (Payload envelope) = Ok p -> MRV_MatchID p <> ""%string -> MRV_CompetitionEventID p <> ""%string ->
  Handle true envelope s = co_tx true "begin stats projection: %w" (apply_announced p) s.
Proof.
  intros Hp Hm He. unfold StatsProjectionConsumer_Handle. cbn [negb]. unfold mbind at 1, go_bind at 1, lift. rewrite Hp. cbn.
  by rewrite !bool_decide_false.
Qed.

(** An event of a verified result, as the consumer reads it. *)
Lemma announced_payload d i r :
  comp_ok d -> co_outbox d !! i = Some r -> Env_Type (envelope r) = MatchResultVerified ->
  exists p k v row, unmarshal_MatchResultVerified unmarshal_bytes (Payload (envelope r)) = Ok p /\ announces p d k v row
    /\ MRV_MatchID p <> ""%string /\ MRV_CompetitionEventID p <> ""%string.
Proof.
  intros Hok Hi Ht. destruct (ok_outbox _ Hok _ _ Hi Ht) as (p & k & v & row & Hp & _ & Ha).
  exists p, k, v, row. rewrite Hp, unmarshal_marshal_MatchResultVerified. split_and!; [done..|apply Ha|].
  rewrite (an_event _ _ _ _ _ Ha). by apply (ok_matches _ Hok _ _ (an_row _ _ _ _ _ Ha)).
Qed.

Lemma Handle_steps pool i r s s' res :
  comp_ok (db s) -> co_outbox (db s) !! i = Some r -> Env_Type (envelope r) = MatchResultVerified ->
  Handle pool (envelope r) s = (s', res) -> comp_steps (db s) (db s').
Proof.
  intros Hok Hi Ht. destruct (announced_payload _ _ _ Hok Hi Ht) as (p & k & v & row & Hp & Ha & Hm & He).
  destruct pool; [|by intros [= <- _]]. rewrite (Handle_payload true _ p) by done.
  intros [->|(s0 & s1 & wrap & a & E0 & Hb & -> & _)]%transaction_run; [done|]. rewrite <- E0 in *.
  by eapply apply_announced_run.
Qed.

(** ** Commands *)
Inductive comp_command :=
  | KCreateEvent (req : CreateEventRequest)
  | KCreateTeam (event name by_ : string)
  | KCreatePlayer (name user : string)
  | KCreateMatch (req : CreateMatchRequest)
  | KRecordResult (req : RecordResultRequest)
  | KSetMember (req : SetTeamMemberRequest)
  | KRemoveMember (event team player actor reason : string)
  | KLink (actor player user : string)
  | KUnlink (actor player user : string)
  | KDeleteMatch (match_ actor reason : string)
  | KDeleteTeam (event team actor reason : string)
  | KDeleteEvent (event actor reason : string)
  (** The dispatcher hands the consumer the event of an outbox row. *)
  | KDeliver (row : string)
  (** The identity store changes its tables. *)
  | KPeople (people : IdDB).

Definition comp_perform pool (c : comp_command) (s : session CompDB) : session CompDB :=
  match c with
  | KCreateEvent req => (CreateEvent unicode_lower pool req s).1
  | KCreateTeam e name by_ => (CreateTeam unicode_lower pool e name by_ s).1
  | KCreatePlayer name user => (CreatePlayer unicode_lower pool name user s).1
  | KCreateMatch req => (CreateMatch pool req s).1
  | KRecordResult req => (RecordAdminResult pool req s).1
  | KSetMember req => (SetTeamMember pool req s).1
  | KRemoveMember e t p a reason => (RemoveTeamMember pool e t p a reason s).1
  | KLink a p u => (LinkPlayerToUser pool a p u s).1
  | KUnlink a p u => (UnlinkPlayer pool a p u s).1
  | KDeleteMatch m a reason => (DeleteMatch referenced pool m a reason s).1
  | KDeleteTeam e t a reason => (DeleteTeam referenced pool e t a reason s).1
  | KDeleteEvent e a reason => (DeleteEvent referenced pool e a reason s).1
  | KDeliver i =>
      match co_outbox (db s) !! i with
      | Some r => if StatsProjectionConsumer_Handles (Env_Type (envelope r)) then (Handle pool (envelope r) s).1 else s
      | None => s
      end
  | KPeople x => SQL.mkSession (with_people x (db s)) (tick s)
  end.
Definition run_competition pool (cs : list comp_command) (s : session CompDB) : session CompDB :=
  foldl (fun s c => comp_perform pool c s) s cs.

Lemma comp_perform_steps pool c s : comp_ok (db s) -> comp_steps (db s) (db (comp_perform pool c s)).
Proof.
  intros Hok. assert (Hk : forall A (m : go A), Keeping.keeps comp_moves m -> comp_steps (db s) (db (m s).1)).
  { intros A m Hm. by apply (keeps_fst comp_moves). }
  destruct c; cbn;
    try (apply Hk; auto using keeps_CreateEvent, keeps_CreateTeam, keeps_CreatePlayer, keeps_CreateMatch, keeps_RecordAdminResult,
      keeps_SetTeamMember, keeps_RemoveTeamMember, keeps_LinkPlayerToUser, keeps_UnlinkPlayer, keeps_DeleteMatch, keeps_DeleteTeam,
      keeps_DeleteEvent).
  - destruct (co_outbox (db s) !! row) as [r|] eqn:Er; [|done]. unfold StatsProjectionConsumer_Handles. case_bool_decide; [|done].
    destruct (Handle pool (envelope r) s) as [s' res] eqn:Eh. by eapply Handle_steps.
  - apply rtc_once, step_people.
Qed.

Lemma run_competition_steps pool cs s : comp_ok (db s) -> comp_steps (db s) (db (run_competition pool cs s)).
Proof.
  revert s. induction cs as [|c cs IH]; intros s Hok; [done|]. cbn. pose proof (comp_perform_steps pool c s Hok) as Hs.
  etrans; [exact Hs|]. by apply IH; eapply comp_steps_ok.
Qed.
Lemma run_competition_ok pool cs s : comp_ok (db s) -> comp_ok (db (run_competition pool cs s)).
Proof. intros Hok. by eapply comp_steps_ok; [apply run_competition_steps|]. Qed.
Lemma run_competition_history pool cs s : comp_ok (db s) -> comp_history (db s) (db (run_competition pool cs s)).
Proof. intros Hok. apply comp_steps_history; [by apply run_competition_steps|done]. Qed.

(** The tables before the first event, with whoever is a member. *)
Definition no_competition (people : IdDB) : CompDB := mkCompDB ∅ ∅ ∅ ∅ ∅ ∅ ∅ ∅ ∅ ∅ [] ∅ people.
Definition start (people : IdDB) : session CompDB := SQL.mkSession (no_competition people) 0.
Lemma no_competition_ok people : comp_ok (no_competition people).
Proof. split; [by split|..]; cbn; try set_solver; intros *; rewrite ?lookup_empty; try done. Qed.
#[local] Hint Resolve no_competition_ok : core.
Lemma run_start_ok pool cs people : comp_ok (db (run_competition pool cs (start people))).
Proof. by apply run_competition_ok, no_competition_ok. Qed.

(** ** Theorems *)

(** C18. Whoever plays is on the team.  However the store is run, with whichever
    statements failing, every participant of every match is a player on one
    side of that match only, the side's team and the match are of the same
    event, and the player is on that team's roster there: rosters can be
    changed only around the matches played. *)
Theorem participants_stay_on_roster pool cs people m p x :
  let d := db (run_competition pool cs (start people)) in
  co_participants d !! (m, p) = Some x ->
  is_Some (co_players d !! p)
  /\ exists s row r, co_sides d !! pa_side x = Some s /\ si_match s = m /\ co_matches d !! m = Some row /\ ma_event row = si_event s
       /\ te_event <$> co_teams d !! si_team s = Some (si_event s)
       /\ co_roster d !! (si_event s, p) = Some r /\ ro_team r = si_team s.
Proof.
  cbv zeta. pose proof (run_start_ok pool cs people) as Hok. intros Hx. destruct (ok_participants _ Hok _ _ _ Hx) as (Hp & s & Hs & Hm & Hr).
  split; [done|]. destruct (ok_sides _ Hok _ _ Hs) as (Hev & Hte & _). rewrite Hm in Hev.
  apply fmap_Some in Hev as (row & Hrow & Hev). apply fmap_Some in Hr as (r & Hr & Ht). by exists s, row, r.
Qed.

(** Page names fit the schema.  However the store is run, every event,
    team and player has a slug that the check of its table accepts, groups of
    lower-case letters and digits joined by single dashes, whatever bytes the
    name was made of; and a slug is its own slug, so a page name typed as a
    name leads to the same page. *)
Theorem slugs_fit_the_schema pool cs people :
  let d := db (run_competition pool cs (start people)) in
  slugs_ok d
  /\ (forall i x, co_events d !! i = Some x -> slugify unicode_lower (ev_slug x) = ev_slug x)
  /\ (forall i x, co_teams d !! i = Some x -> slugify unicode_lower (te_slug x) = te_slug x)
  /\ (forall i x, co_players d !! i = Some x -> slugify unicode_lower (pl_slug x) = pl_slug x).
Proof.
  cbv zeta. pose proof (ok_slugs _ (run_start_ok pool cs people)) as Hok. pose proof Hok as [He Ht Hp].
  split_and!; [done|..]; intros i x Hx; apply slugify_slug; eauto.
Qed.

(** A team with players has a captain.  However the store is run, every
    team with anybody on its roster has a captain on it, of the same event:
    joining makes the first player captain, and the last captain can neither
    step down nor leave before the others. *)
Theorem staffed_teams_keep_a_captain pool cs people e p r :
  let d := db (run_competition pool cs (start people)) in
  co_roster d !! (e, p) = Some r ->
  te_event <$> co_teams d !! ro_team r = Some e
  /\ exists p' r', co_roster d !! (e, p') = Some r' /\ ro_team r' = ro_team r /\ ro_captain r' = true.
Proof.
  cbv zeta. pose proof (run_start_ok pool cs people) as Hok. intros Hr.
  split; [exact (ok_roster _ Hok _ _ _ Hr)|exact (ok_captains _ Hok _ _ _ Hr)].
Qed.

(** C15. The first result of a match is its result.  Once a request to record a
    match's result has returned an identifier, a later request for the same
    match, in whatever spelling of its id, with whatever winner, by whomever
    and after whatever else was done, changes nothing: it returns the same
    identifier or an error, be it that the actor is no member of staff, the
    winner no outcome, a statement failed or the reply was lost, and the row the
    identifier names still is what the first request wrote. *)
Theorem first_result_stands pool before after people req req' s1 s2 vid r :
  RecordAdminResult pool req (run_competition pool before (start people)) = (s1, Ok vid) ->
  RecordAdminResult pool req' (run_competition pool after s1) = (s2, r) ->
  uuid_cast (RR_MatchID req') = uuid_cast (RR_MatchID req) ->
  db s2 = db (run_competition pool after s1) /\ (forall vid', r = Ok vid' -> vid' = vid)
  /\ co_verified (db s2) !! vid = co_verified (db s1) !! vid /\ is_Some (co_verified (db s1) !! vid).
Proof.
  intros H1 H2 Heq.
  destruct (RecordAdminResult_run pool req _ _ _ (run_start_ok pool before people) H1)
    as [[[=] _]|(vid1 & [[= <-]|[=]] & Hs1 & m & v & Hm & Hv & Hvm & _)].
  assert (Hok1 : comp_ok (db s1)) by (eapply comp_steps_ok; [exact Hs1|apply run_start_ok]).
  pose proof (run_competition_ok pool after s1 Hok1) as Hok2. pose proof (hi_verified _ _ (run_competition_history pool after s1 Hok1) _ _ Hv) as Hv'.
  destruct (RecordAdminResult_run pool req' _ _ _ Hok2 H2) as [[Hr ->]|(vid2 & Hr & _ & m' & v' & Hm' & Hv2 & Hvm' & Hcase)].
  - split_and!; [done| |congruence|eauto]. by intros vid' ->.
  - assert (m' = m) by congruence. subst m'. destruct Hcase as [E2|[Hn _]].
    + rewrite E2 in Hv2 |- *. assert (vid2 = vid) as -> by (eapply (ok_verified_once _ Hok2); [exact Hv2|exact Hv'|congruence]).
      split_and!; [done| |congruence|eauto]. intros vid' ->. destruct Hr as [[= ->]|[=]]. done.
    + destruct Hn. exists vid, v. split; [exact Hv'|congruence].
Qed.

(** C16. Statistics are what the results say.  However the store is run and
    however often and in whatever order events are delivered, every player's
    line in an event is exactly the sum over the matches counted so far of what
    the verified result is worth to the player's side; a match is counted only
    once it is verified. *)
Theorem statistics_match_the_results pool cs people p e :
  let d := db (run_competition pool cs (start people)) in
  co_stats d !! (p, e) = recomputed (co_applied d) p e d
  /\ forall m, m ∈ co_applied d -> exists k v, co_verified d !! k = Some v /\ vr_match v = m.
Proof. cbv zeta. pose proof (run_start_ok pool cs people) as Hok. split; [apply (ok_stats _ Hok)|apply (ok_applied _ Hok)]. Qed.

(** A row whose totals add up: what [player_stat_projection_format_totals] and
    the table's other check demand. *)
Definition tally_ok (t : Tally) : Prop :=
  played t = wins t + losses t + ties t /\ points t = 100 * wins t + 50 * ties t /\ 0 <= wins t /\ 0 <= losses t /\ 0 <= ties t.
Definition stat_ok (x : StatRow) : Prop :=
  tally_ok (st_singles x) /\ tally_ok (st_team x) /\ st_all x = add_tally (st_singles x) (st_team x) /\ played (st_all x) = st_version x.

Lemma add_stats_ok x y : stat_ok x -> stat_ok y -> stat_ok (add_stats x y).
Proof.
  destruct x as [[] [] [] ?], y as [[] [] [] ?]. unfold stat_ok, tally_ok, add_stats, add_tally. cbn.
  intros (? & ? & [= -> -> -> -> ->] & ?) (? & ? & [= -> -> -> -> ->] & ?). split_and!; try lia. f_equal; lia.
Qed.
Lemma scored_ok outcome n f : stat_ok (scored outcome n f).
Proof.
  unfold scored, stat_ok, tally_ok, no_tally, add_tally. destruct (bool_decide (outcome = "tie"%string)); [|destruct (bool_decide _)];
    destruct f; cbn; split_and!; done || lia.
Qed.

(** Totals add up.  However the store is run, every row of statistics the
    projection writes satisfies the checks of its table: in singles and in
    team play a player's matches are the wins, losses and ties, the points are
    one for a win and a half for a tie, and the overall columns are the sums of
    the two. *)
Theorem statistics_add_up pool cs people p e x :
  co_stats (db (run_competition pool cs (start people))) !! (p, e) = Some x -> stat_ok x.
Proof.
  pose proof (run_start_ok pool cs people) as Hok. rewrite (ok_stats _ Hok). unfold recomputed, total.
  generalize (elements (co_applied (db (run_competition pool cs (start people))))). intros l. revert x.
  induction l as [|m l IH]; intros x; [done|]. cbn. unfold add_line at 1.
  destruct (match_line p e _ m) as [a|] eqn:Ea; [|apply IH].
  assert (Ha : stat_ok a).
  { unfold match_line in Ea. repeat (case_match || case_bool_decide || simplify_option_eq). apply scored_ok. }
  destruct (foldr add_line None _) as [b|] eqn:Eb; [|by intros [= <-]]. intros [= <-]. apply add_stats_ok; [done|by apply IH].
Qed.

(** ** Delivery *)
#[local] Abbreviation quiet_from t := (forall n, (t <= n)%nat -> statement_fault n = None).

Lemma project_quiet q e c d : is_Some (co_players d !! q) -> is_Some (co_events d !! e) -> exists stats, project q e c d = Ok (with_stats stats d).
Proof.
  intros Hq He. unfold project. destruct (co_stats d !! (q, e)); [by eexists|]. eexists. unfold fail_if.
  rewrite !bool_decide_true by done. done.
Qed.

Lemma project_all_quiet p e l s :
  quiet_from (tick s) -> cast (MRV_CompetitionEventID p) = Ok e -> is_Some (co_events (db s) !! e) ->
  (forall q side f, (q, side, f) ∈ l -> is_Some (co_players (db s) !! q)) ->
  exists s', project_all p l s = (s', Ok ()) /\ (tick s <= tick s')%nat /\ co_applied (db s') = co_applied (db s).
Proof.
  intros Hq He Hev. revert s Hq Hev. induction l as [|[[q side] f] l IH]; intros s Hq Hev Hpl; cbn [project_all]; [by exists s|].
  destruct (project_quiet q e (contribution (MRV_Outcome p) (MRV_WinningSideID p) side f) (db s)) as [st Hst];
    [eapply Hpl; left|done|].
  rewrite (bind_quiet _ _ s (SQL.mkSession (with_stats st (db s)) (S (tick s))) ());
    [|apply exec_quiet; [by apply Hq|by rewrite He]].
  destruct (IH (SQL.mkSession (with_stats st (db s)) (S (tick s)))) as (s' & Hs' & Ht & Ha); cbn in *.
  - intros n Hn. apply Hq. lia.
  - done.
  - intros q' side' f' Hin. eapply Hpl. by right.
  - exists s'. split_and!; [done|lia|done].
Qed.

Lemma apply_announced_quiet p s k v row :
  comp_ok (db s) -> announces p (db s) k v row -> quiet_from (tick s) ->
  exists s' wrap, apply_announced p s = (s', Ok (Commit wrap ())) /\ (tick s <= tick s')%nat /\ vr_match v ∈ co_applied (db s').
Proof.
  intros Hok Ha Hq. pose proof (an_row _ _ _ _ _ Ha) as Hrow. destruct (an_match _ _ _ _ _ Ha) as [_ Hm]. apply cast_Ok in Hm.
  destruct (ok_matches _ Hok _ _ Hrow) as (Hev & He & _). rewrite <- (an_event _ _ _ _ _ Ha) in He, Hev. apply cast_Ok in He.
  unfold apply_announced. destruct (decide (vr_match v ∈ co_applied (db s))) as [Hin|Hnin].
  - erewrite bind_quiet; [|apply statement_quiet; [by apply Hq|]; rewrite Hm; cbn; unfold fail_if; rewrite Hrow; cbn; by rewrite bool_decide_true].
    eexists _, _. split; [reflexivity|]. split; [cbn; lia|done].
  - erewrite bind_quiet; [|apply statement_quiet; [by apply Hq|]; rewrite Hm; cbn; unfold fail_if; rewrite Hrow; cbn; by rewrite bool_decide_false].
    cbn [negb]. erewrite bind_quiet; [|apply query_quiet; [apply Hq; cbn; lia|by rewrite Hm]]. cbn [db].
    destruct (project_all_quiet p (MRV_CompetitionEventID p) (participants_of (vr_match v) (with_applied ({[vr_match v]} ∪ co_applied (db s)) (db s)))
      (SQL.mkSession (with_applied ({[vr_match v]} ∪ co_applied (db s)) (db s)) (S (S (tick s))))) as (s' & Hs' & Ht & Hap); cbn; try done.
    + intros n Hn. apply Hq. lia.
    + intros q side f Hqin. apply (participants_of_spec _ (db s) _ _ _ _ Hrow) in Hqin as (_ & x & Hx & _).
      by destruct (ok_participants _ Hok _ _ _ Hx).
    + erewrite bind_quiet; [|exact Hs']. eexists _, _. split; [reflexivity|]. cbn in *. split; [lia|]. rewrite Hap. set_solver.
Qed.

(** C17. Every result reaches the statistics.  In every state the store can
    reach, for every verified result there is an event in the outbox whose
    delivery to the statistics consumer succeeds if no statement fails from
    then on, and afterwards the result is counted; delivered again, it is
    acknowledged and changes no statistics. *)
Theorem every_result_reaches_the_statistics pool cs people k v :
  let s := run_competition pool cs (start people) in
  co_verified (db s) !! k = Some v -> quiet_from (tick s) ->
  exists i r s', co_outbox (db s) !! i = Some r /\ StatsProjectionConsumer_Handles (Env_Type (envelope r)) = true
    /\ Handle true (envelope r) s = (s', Ok ()) /\ vr_match v ∈ co_applied (db s')
    /\ forall s'' res, Handle true (envelope r) s' = (s'', res) -> co_stats (db s'') = co_stats (db s').
Proof.
  cbv zeta. pose proof (run_start_ok pool cs people) as Hok. set (s := run_competition pool cs (start people)) in *. intros Hk Hq.
  destruct (ok_announced _ Hok _ _ Hk) as (i & r & p & Hi & Ht & Hp & Hid).
  destruct (announced_payload _ _ _ Hok Hi Ht) as (p' & k' & v' & row & Hp' & Ha & Hm & He).
  rewrite Hp, unmarshal_marshal_MatchResultVerified in Hp'. injection Hp' as <-.
  assert (k' = k) as -> by (rewrite <- Hid; symmetry; apply Ha). assert (v' = v) as -> by (pose proof (an_verified _ _ _ _ _ Ha); congruence).
  assert (Hh : forall s, Handle true (envelope r) s = co_tx true "begin stats projection: %w" (apply_announced p) s).
  { intros s'. apply Handle_payload; [done| |done|done]. by rewrite Hp, unmarshal_marshal_MatchResultVerified. }
  destruct (apply_announced_quiet p (SQL.mkSession (db s) (S (tick s))) k v row) as (s1 & wrap & Hs1 & Ht1 & Hin); [done..|intros n Hn; apply Hq; cbn in Hn; lia|].
  exists i, r. eexists. split_and!; [done|by unfold StatsProjectionConsumer_Handles; rewrite bool_decide_true| | |].
  - rewrite Hh. apply (transaction_quiet _ _ _ _ s s1 wrap); [by apply Hq|apply Hq; cbn in Ht1; lia|exact Hs1|done].
  - done.
  - cbn [db]. intros s'' res. rewrite Hh. intros [->|(s2 & s3 & w & a & E2 & Hb & -> & _)]%transaction_run; [done|].
    cbn in E2. destruct (an_match _ _ _ _ _ Ha) as [_ Hmc]. apply cast_Ok in Hmc.
    apply bind_run in Hb as (inserted & s4 & (n & H4)%statement_run & H). rewrite Hmc in H4. cbn in H4. apply bind_Ok in H4 as (? & _ & H4).
    rewrite bool_decide_true in H4 by (by rewrite E2). injection H4 as E4 <-. cbn in H. apply ret_run in H as [-> _]. by rewrite <- E4, E2.
Qed.
End runs.

(** * The competition store reads the people

    No operation of the competition store changes the identity store's
    tables. *)

Section people.
Context {E : environment}.
Context (unicode_lower : string -> string) (referenced : string -> string -> bool).
Context (unmarshal_bytes : string -> result MatchResultVerifiedPayload).

Definition same_people (d d' : CompDB) : Prop := co_people d = co_people d'.
#[export] Instance same_people_po : PreOrder same_people.
Proof. split; [by intros d|]. intros x y z. unfold same_people. congruence. Qed.
#[local] Hint Resolve same_people_po : keeps.
#[local] Abbreviation keeps := (Keeping.keeps same_people).

(** One statement of the store. *)
Ltac same_after :=
  intros; go_inv; unfold insert_event, insert_team, insert_player, insert_match, insert_side, insert_participant, insert_verified,
    upsert_roster, link_player, delete_team, delete_event, delete_match, project in *;
  repeat (go_inv; simplify_eq; try done; case_match).
Ltac same_step :=
  match goal with
  | |- Keeping.keeps _ (exec _ _) => apply (keeps_exec same_people); same_after
  | |- Keeping.keeps _ (statement _ _) => apply (keeps_statement same_people); same_after
  | |- Keeping.keeps _ (transaction _ _ _ _ _) => apply (keeps_transaction same_people)
  | |- _ => keeps_step
  end.
Ltac same := repeat same_step.

Lemma same_publish e : keeps (publish e).
Proof.
  intros s s' [u|err] H.
  - apply publish_run in H as (_ & [[-> _]|(_ & r & _ & ->)]); done.
  - apply publish_event_refused in H. by rewrite H, with_same_outbox.
Qed.
#[local] Hint Resolve same_publish : keeps.
Lemma same_participants m side players i : keeps (insert_participants m side players i).
Proof. revert i. induction players as [|p players IH]; intros i; cbn [insert_participants]; same. Qed.
Lemma same_project p rows : keeps (project_all p rows).
Proof. induction rows as [|[[q side] f] rows IH]; cbn [project_all]; same. Qed.
Lemma same_requireActive e t l : keeps (requireActiveRosterPlayers e t l).
Proof. unfold requireActiveRosterPlayers. same. Qed.
#[local] Hint Resolve same_participants same_project same_requireActive : keeps.
Lemma same_deleteSetup pool actor reason k : (forall r, keeps (k r)) -> keeps (deleteSetup pool actor reason k).
Proof. intros Hk. unfold deleteSetup, co_tx, requireStaff, co_insert_audit, publishSetupDeleted, newUUID. cbv zeta. same. Qed.

Lemma competition_keeps_people pool c s :
  (forall people, c <> KPeople people) -> same_people (db s) (db (comp_perform unicode_lower referenced unmarshal_bytes pool c s)).
Proof.
  intros Hc. destruct c; cbn [comp_perform]; try (apply (keeps_fst same_people)).
  all: try (unfold DeleteMatch, DeleteTeam, DeleteEvent; apply same_deleteSetup; intros ?).
  all: try (unfold CreateEvent, CreateTeam, CreatePlayer, CreateMatch, RecordAdminResult, SetTeamMember, RemoveTeamMember, LinkPlayerToUser,
    UnlinkPlayer, co_tx, requireStaff, requireDistinctEventTeams, insertSide, insertParticipants, loadSideIDs,
    lockRosterTeam, advance_version, recordRosterAudit, publishRosterChanged, publishPlayerLinkEvent, co_insert_audit, newUUID; cbv zeta; by same).
  - destruct (co_outbox (db s) !! row) as [r|]; [|done]. destruct (StatsProjectionConsumer_Handles _); [|done].
    apply (keeps_fst same_people). unfold StatsProjectionConsumer_Handle, co_tx. same.
  - by exfalso; eapply Hc.
Qed.
End people.
