(* ===== verification/CompetitionBetting.v ===== *)
(** * From a recorded result to a settled market

    The event of a verified result as the betting store's consumer reads it,
    and the outcome [buildMatchOutcome] grades the match's markets by. *)
From S2P Require Import Prelude GoStrings GoTime Ledger Events Payloads Betting Placement Settlement Float64 Dispatcher OutboxPG SQL Keeping BettingDB MarketStore Identity IdentityDB CompetitionDB CompetitionStore CompetitionRuns.

Section composition.
Context {E : environment} `{!environment_ok E}.
Context (unicode_lower : string -> string) (referenced : string -> string -> bool).
Context (unmarshal_bytes : string -> result MatchResultVerifiedPayload).

(** The selections of a match market: its sides, by the key the competition
    page gives them, and the tie. *)
Definition match_selections (m : string) (d : CompDB) (selections : gmap string string) : Prop :=
  forall id key, selections !! id = Some key ->
    key = tieSemanticKey \/ exists k s, co_sides d !! k = Some s /\ si_match s = m /\ key = sideSemanticKey k.
Definition offers_tie (selections : gmap string string) : Prop := map_Exists (fun _ key => key = tieSemanticKey) selections.

(** What a side's selection should pay by the recorded outcome. *)
Definition side_pays (outcome : string) (number : Z) (selections : gmap string string) : SettlementResult :=
  if bool_decide (outcome = "tie"%string) then if bool_decide (offers_tie selections) then ResultLoss else ResultPush
  else if bool_decide (outcome = if number =? 1 then "side_1"%string else "side_2"%string) then ResultWin else ResultLoss.
Definition tie_pays (outcome : string) : SettlementResult := if bool_decide (outcome = "tie"%string) then ResultWin else ResultLoss.

Lemma recognized_side k : recognized_key (sideSemanticKey k) = true.
Proof.
  unfold recognized_key. destruct (TrimSpace_keeps "s"%char (bytes "ide") ":"%char (bytes k) eq_refl eq_refl) as [q Hq].
  assert (Hk : of_bytes ("s"%char :: bytes "ide" ++ ":"%char :: bytes k) = sideSemanticKey k).
  { unfold sideSemanticKey. cbn. by rewrite string_of_list_ascii_of_string. }
  rewrite Hk in Hq. rewrite Hq, (bool_decide_false (_ = ""%string)) by done. cbn [negb andb].
  apply orb_true_intro. right. cbn. by destruct (of_bytes q).
Qed.
Lemma recognized_tie : recognized_key tieSemanticKey = true.
Proof. by vm_compute. Qed.
Lemma side_key_inj j k : sideSemanticKey j = sideSemanticKey k -> j = k.
Proof. unfold sideSemanticKey. intros H. by injection H. Qed.
Lemma side_key_tie k : sideSemanticKey k <> tieSemanticKey.
Proof. done. Qed.

Lemma graded_selections d p k v row selections :
  comp_ok d -> announces p d k v row -> selections <> ∅ -> match_selections (vr_match v) d selections ->
  exists outcomes, buildMatchOutcome selections (MRV_Outcome p) (MRV_WinningSideID p) = Some outcomes
    /\ (forall id j s, selections !! id = Some (sideSemanticKey j) -> co_sides d !! j = Some s -> si_match s = vr_match v ->
          outcomes !! id = Some (side_pays (vr_outcome v) (si_number s) selections))
    /\ (forall id, selections !! id = Some tieSemanticKey -> outcomes !! id = Some (tie_pays (vr_outcome v))).
Proof.
  intros Hok Ha Hne Hsel. unfold buildMatchOutcome, side_pays, tie_pays. rewrite bool_decide_false by by rewrite map_size_empty_iff.
  rewrite bool_decide_false.
  2: { intros (id & key & Hid & Hr). destruct (Hsel _ _ Hid) as [->|(j & s & _ & _ & ->)]; [by rewrite recognized_tie in Hr|].
       by rewrite recognized_side in Hr. }
  destruct (an_winner _ _ _ _ _ Ha) as [(-> & -> & _)|(w & -> & -> & Hw & Hwm)].
  - rewrite (bool_decide_false ("tie" = "side_win")%string), !(bool_decide_true ("tie" = "tie")%string) by done.
    eexists. split; [reflexivity|]. fold (offers_tie selections). split; intros *.
    + intros Hid _ _. rewrite lookup_fmap, Hid. cbn. destruct (bool_decide (offers_tie selections)); cbn; [|done].
      by rewrite bool_decide_false.
    + intros Hid. rewrite lookup_fmap, Hid. cbn. rewrite bool_decide_true by by exists id, tieSemanticKey. done.
  - rewrite (bool_decide_true ("side_win" = "side_win")%string) by done. eexists. split; [reflexivity|].
    destruct (ok_sides _ Hok _ _ Hw) as (_ & _ & Hnw). split; intros *.
    + intros Hid Hj Hjm. rewrite lookup_fmap, Hid. cbn -[sideSemanticKey]. destruct (ok_sides _ Hok _ _ Hj) as (_ & _ & Hn).
      rewrite (bool_decide_false (_ = "tie"%string)) by by destruct (si_number w =? 1).
      assert (Heq : sideSemanticKey j = sideSemanticKey (MRV_WinningSideID p) <-> si_number s = si_number w).
      { split; [intros ->%side_key_inj; congruence|]. intros Hnum. f_equal. by eapply (ok_numbers _ Hok); [exact Hj|exact Hw|congruence|]. }
      do 2 f_equal. destruct (decide (si_number s = si_number w)) as [Hs|Hs].
      * rewrite (bool_decide_true (sideSemanticKey j = _)) by tauto. by rewrite Hs, bool_decide_true.
      * rewrite (bool_decide_false (sideSemanticKey j = _)) by tauto. destruct Hn as [En|En], Hnw as [Ew|Ew]; rewrite En, Ew in *; done.
    + intros Hid. rewrite lookup_fmap, Hid. cbn -[sideSemanticKey]. rewrite bool_decide_false by done.
      rewrite (bool_decide_false (_ = "tie"%string)) by by destruct (si_number w =? 1). done.
Qed.

(** C14. The recorded winner wins the market.  In every state the competition
    store can reach, an event of its outbox that announces a result reads,
    through the betting store's parser, as an outcome by which the settlement
    of any market on the match's sides, with or without the tie on offer, pays
    the side that was recorded as the winner and no other, or, after a tie, the
    tie or else returns the stakes. *)
Theorem recorded_winner_wins_the_market pool cs people i r :
  let d := db (run_competition unicode_lower referenced unmarshal_bytes pool cs (start people)) in
  co_outbox d !! i = Some r -> Env_Type (envelope r) = MatchResultVerified ->
  exists p v, unmarshal_MatchResultVerified unmarshal_bytes (Payload (envelope r)) = Ok p
    /\ co_verified d !! MRV_VerificationID p = Some v /\ uuid_cast (MRV_MatchID p) = Some (vr_match v)
    /\ forall selections, selections <> ∅ -> match_selections (vr_match v) d selections ->
         exists outcomes, buildMatchOutcome selections (MRV_Outcome p) (MRV_WinningSideID p) = Some outcomes
           /\ (forall id k s, selections !! id = Some (sideSemanticKey k) -> co_sides d !! k = Some s -> si_match s = vr_match v ->
                 outcomes !! id = Some (side_pays (vr_outcome v) (si_number s) selections))
           /\ (forall id, selections !! id = Some tieSemanticKey -> outcomes !! id = Some (tie_pays (vr_outcome v))).
Proof.
  cbv zeta. intros Hi Ht. pose proof (run_start_ok unicode_lower referenced unmarshal_bytes pool cs people) as Hok.
  destruct (announced_payload unmarshal_bytes _ _ _ Hok Hi Ht) as (p & k & v & row & Hp & Ha & _ & _).
  exists p, v. split_and!; [done|rewrite (an_id _ _ _ _ _ Ha); apply Ha|apply (an_match _ _ _ _ _ Ha)|].
  intros sel Hne Hsel. by eapply graded_selections.
Qed.
End composition.
