(* ===== verification/CompetitionReaders.v ===== *)
(** * internal/competitionpg: what is read back

    The listings of [store.go] and [links.go] and the public page of
    [public.go]: one definition per query, and the Go code that assembles the
    rows.  Names are compared bytewise where PostgreSQL would use the
    database's collation. *)
From S2P Require Import Prelude GoStrings GoTime Float64 Competition SQL Identity IdentityDB CompetitionDB Slugs CompetitionStore.

#[local] Abbreviation go := (SQL.go CompDB).

(** [ORDER BY a DESC, b], as relations on rows. *)
Definition descending {A} (key : A -> Z) (rest : A -> A -> Prop) (x y : A) : Prop := key y < key x \/ (key x = key y /\ rest x y).
Definition by_name {A} (name : A -> string) (x y : A) : Prop := String.leb (name x) (name y) = true.
#[export] Instance descending_dec {A} (key : A -> Z) rest `{!RelDecision rest} : RelDecision (descending key rest).
Proof. intros x y. unfold descending. apply _. Defined.
#[export] Instance by_name_dec {A} (name : A -> string) : RelDecision (by_name name).
Proof. intros x y. unfold by_name. apply _. Defined.
Definition ascending {A} (key : A -> Z) (rest : A -> A -> Prop) : A -> A -> Prop := descending (fun x => - key x) rest.
#[export] Instance ascending_dec {A} (key : A -> Z) rest `{!RelDecision rest} : RelDecision (ascending key rest) := descending_dec _ rest.
Definition always {A} (x y : A) : Prop := True.
#[export] Instance always_dec {A} : RelDecision (always (A := A)).
Proof. intros x y. unfold always. apply _. Defined.

(** A [numeric(10,2)] kept in hundredths, as text. *)
Definition numeric_text (z : Z) : string :=
  (sprint_d (z / 100) ++ "." ++ sprint_d (z mod 100 / 10) ++ sprint_d (z mod 10))%string.

(** ** store.go: the admin listings *)
Record TeamMemberRow := mkTeamMemberRow { TMR_PlayerID : string; TMR_PlayerName : string; TMR_IsCaptain : bool }.
Record TeamRow := mkTeamRow { TR_ID : string; TR_Name : string; Members : list TeamMemberRow }.
Definition HasCaptain (t : TeamRow) : bool := existsb TMR_IsCaptain (Members t).
Record MatchRow := mkMatchRow {
  MR_ID : string; MR_Number : Z; MR_Format : string; MR_State : string;
  Side1TeamName : string; MR_Side1Players : string; Side2TeamName : string; MR_Side2Players : string;
  MR_Side1ID : string; MR_Side2ID : string;
  ResultOutcome : string; ResultScore : string; ResultReason : string; MR_VerificationMethod : string; MR_VerifiedAt : option Time
}.
Record EventRow := mkEventRow { ER_ID : string; ER_Name : string; ER_SeasonYear : Z; Teams : list TeamRow; Matches : list MatchRow }.
Definition CanCreateMatch (e : EventRow) : bool :=
  2 <=? Z.of_nat (length (List.filter (fun t => negb (bool_decide (Members t = [])) && HasCaptain t) (Teams e))).

Definition Side1Label (m : MatchRow) : string := if is_blank (MR_Side1Players m) then Side1TeamName m else MR_Side1Players m.
Definition Side2Label (m : MatchRow) : string := if is_blank (MR_Side2Players m) then Side2TeamName m else MR_Side2Players m.
Definition MatchRow_WinnerLabel (m : MatchRow) : string :=
  if bool_decide (ResultOutcome m = "side_1"%string) then Side1Label m
  else if bool_decide (ResultOutcome m = "side_2"%string) then Side2Label m
  else if bool_decide (ResultOutcome m = "tie"%string) then "Tied" else "".
Definition VerificationLabel (method : string) : string :=
  if bool_decide (method = "opponent"%string) then "Opponent confirmed"
  else if bool_decide (method = "captain"%string) then "Captain confirmed"
  else if bool_decide (method = "admin_override"%string) then "Admin verified"
  else if bool_decide (method = "migration"%string) then "Imported verification" else "Verified".

Section readers.
Context {E : environment}.
Implicit Types (d : CompDB) (pool : bool).

(** [ORDER BY version DESC LIMIT 1] *)
Definition latest_result (m : string) d : option VerifiedRow := snd <$> head (results_of m d).

Definition match_row d (km : string * MatchDBRow) : string * MatchRow :=
  let '(k, m) := km in
  let s1 := side_number 1 k d in
  let s2 := side_number 2 k d in
  let v := latest_result k d in
  (ma_event m,
   mkMatchRow k (ma_number m) (format_text (ma_format m)) (ma_state m) (team_name s1 d) (players_text s1 d) (team_name s2 d)
     (players_text s2 d) (default ""%string (fst <$> s1)) (default ""%string (fst <$> s2))
     (default ""%string (vr_outcome <$> v)) (default ""%string (v ≫= vr_score)) (default ""%string (vr_reason <$> v))
     (default ""%string (vr_method <$> v)) (vr_at <$> v)).

Definition roster_row d (kr : string * string * RosterRow) : option (string * TeamMemberRow) :=
  x ← co_players d !! kr.1.2;
  if pl_active x then Some (ro_team kr.2, mkTeamMemberRow kr.1.2 (pl_display_name x) (ro_captain kr.2)) else None.

(** The rows of one parent, in the order of the query. *)
Definition children {A} (parent : string) (rows : list (string * A)) : list A :=
  (List.filter (fun r => bool_decide (r.1 = parent)) rows).*2.

Definition ListEvents pool : go (list EventRow) :=
  if negb pool then failing no_co_pool
  else
    events ← query "list events: %w" (fun d =>
      Ok (merge_sort (descending (fun ke => ev_season_year ke.2) (descending (fun ke => nanos (ev_created_at ke.2)) always))
            (map_to_list (co_events d))));
    if bool_decide (length events = 0%nat) then mret []
    else
      teams ← query "list teams: %w" (fun d =>
        Ok ((fun kt => (te_event kt.2, kt)) <$> merge_sort (by_name (fun kt => te_name kt.2)) (map_to_list (co_teams d))));
      rosters ← query "list team rosters: %w" (fun d =>
        Ok (merge_sort (descending (fun r => if TMR_IsCaptain r.2 then 1 else 0) (by_name (fun r => TMR_PlayerName r.2)))
              (omap (roster_row d) (map_to_list (co_roster d)))));
      matches ← query "list matches: %w" (fun d =>
        Ok (match_row d <$> merge_sort (ascending (fun km => ma_number km.2) always) (map_to_list (co_matches d))));
      mret ((fun ke : string * EventDBRow =>
        mkEventRow ke.1 (ev_name ke.2) (ev_season_year ke.2)
          ((fun kt : string * TeamDBRow => mkTeamRow kt.1 (te_name kt.2) (children kt.1 rosters)) <$> children ke.1 teams)
          (children ke.1 matches)) <$> events).

Record PlayerRow := mkPlayerRow { PR_ID : string; PR_DisplayName : string }.
Definition ListPlayers pool : go (list PlayerRow) :=
  if negb pool then failing no_co_pool
  else query "list players: %w" (fun d =>
    Ok (merge_sort (by_name PR_DisplayName)
          (omap (fun kp => if pl_active kp.2 then Some (mkPlayerRow kp.1 (pl_display_name kp.2)) else None) (map_to_list (co_players d))))).

Record StandingRow := mkStandingRow {
  SR_PlayerName : string; SR_EventName : string; SR_Played : Z; SR_Wins : Z; SR_Losses : Z; SR_Ties : Z; SR_Points : string
}.
(** A standing with the columns it is ordered by. *)
Definition standing_of d (ks : string * string * StatRow) : option (Z * Z * StandingRow) :=
  p ← co_players d !! ks.1.1;
  e ← co_events d !! ks.1.2;
  let t := st_all ks.2 in
  Some (ev_season_year e, points t,
        mkStandingRow (pl_display_name p) (ev_name e) (played t) (wins t) (losses t) (ties t) (numeric_text (points t))).
Definition ListStandings pool : go (list StandingRow) :=
  if negb pool then failing no_co_pool
  else query "list standings: %w" (fun d =>
    Ok (snd <$> merge_sort (descending (fun x => x.1.1) (descending (fun x => x.1.2)
                  (descending (fun x => SR_Wins x.2) (by_name (fun x => SR_PlayerName x.2)))))
                (omap (standing_of d) (map_to_list (co_stats d))))).

(** ** links.go *)
Record PlayerLink := mkPlayerLink { PK_PlayerID : string; PK_PlayerName : string; LinkedUserID : string }.
Definition link_order (x y : PlayerLink) : Prop :=
  (PK_PlayerName x <> PK_PlayerName y /\ by_name PK_PlayerName x y) \/ (PK_PlayerName x = PK_PlayerName y /\ by_name PK_PlayerID x y).
#[local] Instance link_order_dec : RelDecision link_order.
Proof. intros x y. unfold link_order. apply _. Defined.
Definition ListPlayerLinks pool (actorUserID : string) : go (list PlayerLink) :=
  if negb pool then failing no_co_pool
  else
    requireStaff actorUserID;;
    query "list player links: %w" (fun d =>
      Ok (merge_sort link_order
            (omap (fun kp => if pl_active kp.2 || negb (bool_decide (pl_linked_user kp.2 = None))
                             then Some (mkPlayerLink kp.1 (pl_display_name kp.2) (default ""%string (pl_linked_user kp.2))) else None)
              (map_to_list (co_players d))))).

End readers.

(** ** public.go *)
Record PublicMatchRow := mkPublicMatchRow {
  PM_Number : Z; PM_Format : string; Side1Team : string; PM_Side1Players : string; Side2Team : string; PM_Side2Players : string;
  Outcome : string; PM_Score : string; PM_VerificationMethod : string; PM_VerifiedAt : Time
}.
Record PublicTeamStandingRow := mkPublicTeamStandingRow {
  TeamName : string; PT_Played : Z; PT_Wins : Z; PT_Losses : Z; PT_Ties : Z; PT_Points : string
}.
(** The overall, singles and team columns, with the points as text. *)
Record PublicTally := mkPublicTally { PP_Played : Z; PP_Wins : Z; PP_Losses : Z; PP_Ties : Z; PP_Points : string }.
Record PublicPlayerStatRow := mkPublicPlayerStatRow {
  PlayerName : string; PlayerSlug : string; Overall : PublicTally; Singles : PublicTally; Team_ : PublicTally
}.
Record PublicSeasonRow := mkPublicSeasonRow {
  PS_EventID : string; PS_Name : string; Year : Z; PS_Venue : string; VerifiedCount : Z;
  PS_Matches : list PublicMatchRow; PS_Teams : list PublicTeamStandingRow; PS_Players : list PublicPlayerStatRow
}.
Record PublicCompetitionSnapshot := mkPublicCompetitionSnapshot { Seasons : list PublicSeasonRow; Career : list PublicPlayerStatRow }.

Definition PublicMatchRow_WinnerLabel (m : PublicMatchRow) : string :=
  let left := if bool_decide (PM_Side1Players m = ""%string) then Side1Team m else PM_Side1Players m in
  let right := if bool_decide (PM_Side2Players m = ""%string) then Side2Team m else PM_Side2Players m in
  if bool_decide (Outcome m = "side_1"%string) then left
  else if bool_decide (Outcome m = "side_2"%string) then right else "Tied".

(** [strings.ToUpper] of a one-byte text: a byte that is no rune becomes the
    replacement character. *)
Definition upper_one (a : ascii) : list ascii :=
  if is_lower a then [ascii_of_N (N_of_ascii a - 32)]
  else if is_ascii a then [a] else [ascii_of_N 239; ascii_of_N 191; ascii_of_N 189].
Definition FormatLabel (m : PublicMatchRow) : string :=
  if bool_decide (PM_Format m = "fourball"%string) then "Best ball"
  else if bool_decide (PM_Format m = "foursomes"%string) then "Alternate shot"
  else if bool_decide (PM_Format m = "singles"%string) then "Singles"
  else of_bytes (match bytes (PM_Format m) with
                 | [] => []
                 | a :: l => upper_one a ++ ((fun b => if byte_is 95 b then " "%char else b) <$> l)
                 end).

(** [strings.SplitN(s, "&", 2)] of a text that contains one. *)
Fixpoint cut (l : list ascii) : option (list ascii * list ascii) :=
  match l with
  | [] => None
  | a :: l' => if byte_is 38 a then Some ([], l') else '(x, y) ← cut l'; Some (a :: x, y)
  end.
Definition DisplayScore (score : string) : string :=
  match cut (bytes score) with
  | None => TrimSpace score
  | Some (x, y) => (TrimSpace (of_bytes x) ++ " & " ++ TrimSpace (of_bytes y))%string
  end.

Section public.
Context {E : environment}.
Implicit Types (d : CompDB) (pool : bool).

(** The verified matches of an event. *)
Definition has_result d (km : string * MatchDBRow) : bool := bool_decide (is_Some (latest_result km.1 d)).
Definition verified_matches (event : string) d : list (string * MatchDBRow) :=
  List.filter (fun km => bool_decide (ma_event km.2 = event) && has_result d km) (map_to_list (co_matches d)).

(** [GROUP BY e.id]: events without a verified match have no group. *)
Definition season_of d (ke : string * EventDBRow) : option PublicSeasonRow :=
  let count := Z.of_nat (length (verified_matches ke.1 d)) in
  if count =? 0 then None
  else Some (mkPublicSeasonRow ke.1 (ev_name ke.2) (ev_season_year ke.2) (ev_venue ke.2) count [] [] []).

(** The inner joins: a match without a side or a result has no row. *)
Definition public_match_of d (km : string * MatchDBRow) : option (string * PublicMatchRow) :=
  let '(k, m) := km in
  s1 ← side_number 1 k d;
  t1 ← co_teams d !! si_team s1.2;
  s2 ← side_number 2 k d;
  t2 ← co_teams d !! si_team s2.2;
  v ← latest_result k d;
  Some (ma_event m,
        mkPublicMatchRow (ma_number m) (format_text (ma_format m)) (te_name t1) (side_players s1.1 d) (te_name t2) (side_players s2.1 d)
          (vr_outcome v) (default ""%string (vr_score v)) (vr_method v) (vr_at v)).
Definition loadPublicMatches : go (list (string * PublicMatchRow)) :=
  query "list public verified matches: %w" (fun d =>
    Ok (omap (public_match_of d) (merge_sort (ascending (fun km => ma_number km.2) always) (map_to_list (co_matches d))))).

(** What the latest result of a match counts for one of its sides. *)
Definition side_tally (outcome : string) (number : Z) : option Tally :=
  let won := (bool_decide (outcome = "side_1"%string) && (number =? 1)) || (bool_decide (outcome = "side_2"%string) && (number =? 2)) in
  let lost := (bool_decide (outcome = "side_1"%string) && (number =? 2)) || (bool_decide (outcome = "side_2"%string) && (number =? 1)) in
  let tied := bool_decide (outcome = "tie"%string) in
  if bool_decide (outcome ∈ ["side_1"; "side_2"; "tie"]%string)
  then Some (mkTally 1 (if won then 1 else 0) (if lost then 1 else 0) (if tied then 1 else 0)
               (if tied then 50 else if won then 100 else 0))
  else None.
(** A joined side: the event, the team and what counts. *)
Definition counted_side d (ks : string * SideRow) : option (string * (string * Tally)) :=
  m ← co_matches d !! si_match ks.2;
  v ← latest_result (si_match ks.2) d;
  t ← side_tally (vr_outcome v) (si_number ks.2);
  Some (ma_event m, (si_team ks.2, t)).
Definition counted_sides d : list (string * (string * Tally)) := omap (counted_side d) (map_to_list (co_sides d)).
Definition team_standing (event team : string) d : list Tally := children team (children event (counted_sides d)).
Definition sum_tally (l : list Tally) : Tally := foldr add_tally no_tally l.
(** A standing with the points it is ordered by. *)
Definition public_teams (event : string) d : list (Z * PublicTeamStandingRow) :=
  merge_sort (descending fst (by_name (fun x => TeamName x.2)))
    (omap (fun kt : string * TeamDBRow =>
       match team_standing event kt.1 d with
       | [] => None
       | l => let t := sum_tally l in
              Some (points t, mkPublicTeamStandingRow (te_name kt.2) (played t) (wins t) (losses t) (ties t) (numeric_text (points t)))
       end) (map_to_list (co_teams d))).
Definition loadPublicTeams : go (list (string * PublicTeamStandingRow)) :=
  query "list public team standings: %w" (fun d =>
    Ok ((map_to_list (co_events d)).*1 ≫= fun e => (fun x => (e, x.2)) <$> public_teams e d)).

Definition public_tally (t : Tally) : PublicTally := mkPublicTally (played t) (wins t) (losses t) (ties t) (numeric_text (points t)).
Definition public_player (p : PlayerDBRow) (x : StatRow) : PublicPlayerStatRow :=
  mkPublicPlayerStatRow (pl_display_name p) (pl_slug p) (public_tally (st_all x)) (public_tally (st_singles x)) (public_tally (st_team x)).
Definition stat_order (x y : StatRow * PublicPlayerStatRow) : Prop :=
  descending (fun x => points (st_all x.1)) (descending (fun x => wins (st_all x.1)) (by_name (fun x => PlayerName x.2))) x y.
#[export] Instance stat_order_dec : RelDecision stat_order.
Proof. intros x y. unfold stat_order. apply _. Defined.

(** The rows of a season, and of a career: [GROUP BY p.id] sums them. *)
Definition season_players (event : string) d : list PublicPlayerStatRow :=
  (merge_sort stat_order (omap (fun ks : string * string * StatRow =>
     p ← co_players d !! ks.1.1;
     if bool_decide (ks.1.2 = event) then Some (ks.2, public_player p ks.2) else None) (map_to_list (co_stats d)))).*2.
Definition career_of (player : string) d : option StatRow :=
  total ((fun ks : string * string * StatRow => if bool_decide (ks.1.1 = player) then Some ks.2 else None) <$> map_to_list (co_stats d)).
Definition career_players d : list PublicPlayerStatRow :=
  (merge_sort stat_order (omap (fun kp : string * PlayerDBRow =>
     x ← career_of kp.1 d; Some (x, public_player kp.2 x)) (map_to_list (co_players d)))).*2.
Definition loadPublicPlayerStats : go (list PublicPlayerStatRow * list (string * PublicPlayerStatRow)) :=
  bySeason ← query "list public season player statistics: %w" (fun d =>
    Ok ((map_to_list (co_events d)).*1 ≫= fun e => (fun x => (e, x)) <$> season_players e d));
  career ← query "list public career player statistics: %w" (fun d => Ok (career_players d));
  mret (career, bySeason).

Definition PublicCompetition pool : go PublicCompetitionSnapshot :=
  if negb pool then failing no_co_pool
  else
    seasons ← query "list public competition seasons: %w" (fun d =>
      Ok (merge_sort (descending Year (by_name PS_Name)) (omap (season_of d) (map_to_list (co_events d)))));
    if bool_decide (length seasons = 0%nat) then mret (mkPublicCompetitionSnapshot [] [])
    else
      matches ← loadPublicMatches;
      teams ← loadPublicTeams;
      '(career, players) ← loadPublicPlayerStats;
      mret (mkPublicCompetitionSnapshot
        ((fun s => mkPublicSeasonRow (PS_EventID s) (PS_Name s) (Year s) (PS_Venue s) (VerifiedCount s)
            (children (PS_EventID s) matches) (children (PS_EventID s) teams) (children (PS_EventID s) players)) <$> seasons) career).
End public.
