(* ===== verification/CompetitionPublic.v ===== *)
(** * The public page

    What [PublicCompetition] shows in every state the store can reach: the
    inner joins of its queries lose no verified match, and the team standings
    it groups add up. *)
From S2P Require Import Prelude GoStrings GoTime Events Payloads Dispatcher OutboxPG Competition Float64 SQL Keeping Identity IdentityDB CompetitionDB Slugs CompetitionStore CompetitionOps CompetitionRuns CompetitionReaders.

(** ** Grouping *)
#[export] Instance bool_filter_perm {A} (p : A -> bool) : Proper ((≡ₚ) ==> (≡ₚ)) (List.filter p).
Proof. intros l l'. apply filter_bool_perm. Qed.
Lemma children_elem {A} (e : string) (rows : list (string * A)) x : x ∈ children e rows <-> (e, x) ∈ rows.
Proof.
  unfold children. rewrite list_elem_of_fmap. split.
  - intros ([e' y] & -> & [Hy He]%filter_bool_elem). bool_prop. cbn in He. by subst.
  - intros H. exists (e, x). split; [done|]. apply filter_bool_elem. split; [done|]. cbn. by rewrite bool_decide_true.
Qed.
Lemma children_app {A} (e : string) (l k : list (string * A)) : children e (l ++ k) = children e l ++ children e k.
Proof. unfold children. by rewrite List.filter_app, fmap_app. Qed.
Lemma children_same {A B} (e : string) (g : A -> B) (l : list A) : children e ((fun x => (e, g x)) <$> l) = g <$> l.
Proof. induction l as [|x l IH]; [done|]. unfold children in *. cbn. by rewrite bool_decide_true, fmap_cons, IH. Qed.
Lemma children_other {A B} (e e' : string) (g : A -> B) (l : list A) : e <> e' -> children e ((fun x => (e', g x)) <$> l) = [].
Proof. intros Hne. induction l as [|x l IH]; [done|]. unfold children in *. cbn. by rewrite bool_decide_false. Qed.
Lemma children_concat {A B} (e : string) (g : A -> B) (f : string -> list A) (es : list string) :
  NoDup es -> e ∈ es -> children e (es ≫= fun e => (fun x => (e, g x)) <$> f e) = g <$> f e.
Proof.
  assert (Hout : forall es, e ∉ es -> children e (es ≫= fun e => (fun x => (e, g x)) <$> f e) = []).
  { induction es0 as [|e' l IH]; [done|]. intros [Hne Hl]%not_elem_of_cons. cbn [mbind list_bind]. by rewrite children_app, children_other, IH. }
  induction es as [|e' es IH]; [by intros _ ?%not_elem_of_nil|]. intros [Hn Hd]%NoDup_cons Hin. cbn [mbind list_bind]. rewrite children_app.
  destruct (decide (e = e')) as [<-|Hne]; [by rewrite children_same, Hout, app_nil_r|].
  rewrite children_other by done. apply IH; [done|]. by apply elem_of_cons in Hin as [?|?].
Qed.
Lemma children_length {A B} (e : string) (f : A -> option (string * B)) (p : A -> bool) (l : list A) :
  (forall x, x ∈ l -> p x = match f x with Some y => bool_decide (y.1 = e) | None => false end) ->
  length (children e (omap f l)) = length (List.filter p l).
Proof.
  induction l as [|x l IH]; intros H; [done|]. cbn [omap list_omap List.filter]. rewrite (H x) by left.
  specialize (IH ltac:(intros y Hy; apply H; by right)).
  destruct (f x) as [y|]; [|exact IH]. unfold children in *. cbn. destruct (bool_decide (y.1 = e)); cbn; congruence.
Qed.

Section sums.
Context {A : Type} (add : A -> A -> A) (zero : A).
Context (add_zero : forall x, add zero x = x) (add_swap : forall x y z, add x (add y z) = add y (add x z)).
Context (add_assoc : forall x y z, add (add x y) z = add x (add y z)).
Definition sum_all (l : list A) : A := foldr add zero l.
Lemma sum_all_perm : Proper ((≡ₚ) ==> eq) sum_all.
Proof using add_swap. intros l l' Hl. unfold sum_all. induction Hl; cbn; [done|congruence|apply add_swap|congruence]. Qed.
Lemma sum_all_app l k : sum_all (l ++ k) = add (sum_all l) (sum_all k).
Proof using add_zero add_assoc. unfold sum_all. induction l as [|x l IH]; cbn; [by rewrite add_zero|]. by rewrite IH, add_assoc. Qed.

(** A sum is the sum of the sums of its groups. *)
Lemma sum_groups (ks : list string) (l : list (string * A)) :
  NoDup ks -> (forall x, x ∈ l -> x.1 ∈ ks) -> sum_all ((fun k => sum_all (children k l)) <$> ks) = sum_all l.*2.
Proof using add_zero add_assoc add_swap.
  revert l. induction ks as [|k ks IH]; intros l Hd Hin.
  { destruct l as [|x l]; [done|]. by destruct (not_elem_of_nil x.1 (Hin x ltac:(left))). }
  apply NoDup_cons in Hd as [Hk Hd]. cbn.
  pose (rest := List.filter (fun x : string * A => negb (bool_decide (x.1 = k))) l).
  assert (Hrest : forall j, j ∈ ks -> children j l = children j rest).
  { intros j Hj. unfold children, rest. f_equal. clear Hin. induction l as [|x l IHl]; [done|]. cbn.
    destruct (bool_decide (x.1 = k)) eqn:E1; cbn.
    - bool_prop. rewrite bool_decide_false by congruence. exact IHl.
    - destruct (bool_decide (x.1 = j)); cbn; congruence. }
  assert (Hmap : sum_all ((fun k => sum_all (children k l)) <$> ks) = sum_all rest.*2).
  { rewrite <- (IH rest).
    - f_equal. apply list_fmap_ext. intros i j Hj. f_equal. by eapply Hrest, list_elem_of_lookup_2.
    - done.
    - intros x [Hx Hne]%filter_bool_elem. bool_prop. by apply Hin in Hx as [?|?]%elem_of_cons. }
  unfold sum_all in Hmap at 1. rewrite Hmap. fold (sum_all (children k l)). rewrite <- sum_all_app. apply sum_all_perm.
  unfold children. rewrite <- fmap_app. apply fmap_Permutation. unfold rest. clear.
  induction l as [|x l IHl]; [done|]. cbn. destruct (bool_decide (x.1 = k)); cbn; [by rewrite IHl|]. by rewrite <- Permutation_middle, IHl.
Qed.
End sums.

Lemma add_tally_zero t : add_tally no_tally t = t.
Proof. by destruct t. Qed.
Lemma add_tally_swap x y z : add_tally x (add_tally y z) = add_tally y (add_tally x z).
Proof. destruct x, y, z. unfold add_tally. cbn. f_equal; lia. Qed.
Lemma add_tally_assoc x y z : add_tally (add_tally x y) z = add_tally x (add_tally y z).
Proof. destruct x, y, z. unfold add_tally. cbn. f_equal; lia. Qed.
Lemma add_tally_comm_zero t : add_tally t no_tally = t.
Proof. destruct t. unfold add_tally. cbn. f_equal; lia. Qed.
Abbreviation tallies := (sum_all add_tally no_tally).
#[local] Instance tallies_perm : Proper ((≡ₚ) ==> eq) tallies := sum_all_perm add_tally no_tally add_tally_swap.
Lemma tallies_cons x l : tallies (x :: l) = add_tally x (tallies l).
Proof. done. Qed.
Lemma tallies_groups ks (l : list (string * Tally)) :
  NoDup ks -> (forall x, x ∈ l -> x.1 ∈ ks) -> tallies ((fun k => tallies (children k l)) <$> ks) = tallies l.*2.
Proof. apply sum_groups; auto using add_tally_zero, add_tally_swap, add_tally_assoc. Qed.

Section public.
Context {E : environment} `{!environment_ok E}.
Implicit Types (d : CompDB).

(** ** The rows of a reachable state *)
Section rows.
Context (d : CompDB) (Hok : comp_ok d).

Lemma latest_result_spec m v : latest_result m d = Some v <-> exists k, co_verified d !! k = Some v /\ vr_match v = m.
Proof using Hok.
  assert (Hin : forall k v, (k, v) ∈ results_of m d <-> co_verified d !! k = Some v /\ vr_match v = m).
  { intros k w. unfold results_of. rewrite merge_sort_Permutation, filter_bool_elem, elem_of_map_to_list. cbn.
    by rewrite bool_decide_eq_true. }
  unfold latest_result. split.
  - intros ([k w] & Hh & ->)%fmap_Some. apply head_Some_elem_of, Hin in Hh. by exists k.
  - intros (k & Hk & Hm). destruct (results_of m d) as [|[j w] l] eqn:El.
    + by destruct (not_elem_of_nil (k, v)); apply Hin.
    + cbn. destruct (proj1 (Hin j w)) as [Hj Hjm]; [left|]. f_equal.
      assert (j = k) by (by eapply (ok_verified_once _ Hok); [exact Hj|exact Hk|congruence]). congruence.
Qed.

Lemma side_number_spec n m k s : side_number n m d = Some (k, s) -> co_sides d !! k = Some s /\ si_match s = m /\ si_number s = n.
Proof.
  unfold side_number. intros [Hin Hn]%head_Some_elem_of%filter_bool_elem. apply sides_of_spec in Hin as [? ?]. by bool_prop.
Qed.
Lemma side_number_found n m : has_sides m d -> n = 1 \/ n = 2 -> is_Some (side_number n m d).
Proof.
  intros Hs Hn. destruct (Hs n Hn) as (k & s & Hk & Hm & Hnum). unfold side_number.
  destruct (List.filter _ _) as [|x l] eqn:El; [|by eexists]. destruct (not_elem_of_nil (k, s)). rewrite <- El.
  apply filter_bool_elem. rewrite sides_of_spec. cbn. by rewrite bool_decide_true.
Qed.

(** What the page says of a match and its result. *)
Record shows (x : PublicMatchRow) (k m : string) (v : VerifiedRow) (row : MatchDBRow) : Prop := {
  sh_result : co_verified d !! k = Some v /\ vr_match v = m;
  sh_match : co_matches d !! m = Some row /\ PM_Number x = ma_number row /\ PM_Format x = format_text (ma_format row);
  sh_outcome : Outcome x = vr_outcome v /\ PM_Score x = default ""%string (vr_score v) /\ PM_VerificationMethod x = vr_method v
    /\ PM_VerifiedAt x = vr_at v;
  sh_sides : exists j1 j2 s1 s2 t1 t2, co_sides d !! j1 = Some s1 /\ si_match s1 = m /\ si_number s1 = 1
    /\ co_sides d !! j2 = Some s2 /\ si_match s2 = m /\ si_number s2 = 2
    /\ co_teams d !! si_team s1 = Some t1 /\ Side1Team x = te_name t1 /\ PM_Side1Players x = side_players j1 d
    /\ co_teams d !! si_team s2 = Some t2 /\ Side2Team x = te_name t2 /\ PM_Side2Players x = side_players j2 d
}.

Lemma side_team k s : co_sides d !! k = Some s -> exists t, co_teams d !! si_team s = Some t.
Proof using Hok. intros Hk. destruct (ok_sides _ Hok _ _ Hk) as (_ & Ht & _). apply fmap_Some in Ht as (t & ? & _). by exists t. Qed.

(** The inner joins lose no verified match. *)
Lemma public_match_found m row : co_matches d !! m = Some row ->
  match public_match_of d (m, row) with
  | Some (e, x) => e = ma_event row /\ exists k v, shows x k m v row
  | None => latest_result m d = None
  end.
Proof using Hok.
  intros Hm. unfold public_match_of. destruct (latest_result m d) as [v|] eqn:Ev; cbn.
  2: { destruct (side_number 1 m d) as [s1|]; cbn; [|done]. destruct (co_teams d !! _); cbn; [|done].
       destruct (side_number 2 m d) as [s2|]; cbn; [|done]. by destruct (co_teams d !! _). }
  apply latest_result_spec in Ev as (k & Hk & Hv). pose proof (ok_verified_sides _ Hok _ _ Hk) as Hs. rewrite Hv in Hs.
  destruct (side_number_found 1 m Hs) as [[j1 s1] E1]; [by left|]. destruct (side_number_found 2 m Hs) as [[j2 s2] E2]; [by right|].
  rewrite E1, E2. cbn. apply side_number_spec in E1 as (H1 & ? & ?), E2 as (H2 & ? & ?).
  destruct (side_team _ _ H1) as [t1 Ht1], (side_team _ _ H2) as [t2 Ht2]. rewrite Ht1. cbn. rewrite Ht2. cbn.
  split; [done|]. exists k, v. split; cbn; [done..|]. exists j1, j2, s1, s2, t1, t2. split_and!; done.
Qed.

(** ** Seasons *)
Definition numbered : list (string * MatchDBRow) := merge_sort (ascending (fun km => ma_number km.2) always) (map_to_list (co_matches d)).
Definition filled (x : PublicSeasonRow) : PublicSeasonRow :=
  mkPublicSeasonRow (PS_EventID x) (PS_Name x) (Year x) (PS_Venue x) (VerifiedCount x)
    (children (PS_EventID x) (omap (public_match_of d) numbered)) (snd <$> public_teams (PS_EventID x) d) (season_players (PS_EventID x) d).

Lemma numbered_elem m row : (m, row) ∈ numbered <-> co_matches d !! m = Some row.
Proof. unfold numbered. by rewrite merge_sort_Permutation, elem_of_map_to_list. Qed.

Lemma season_matches_elem e x :
  x ∈ children e (omap (public_match_of d) numbered) <-> exists m row k v, public_match_of d (m, row) = Some (e, x) /\ ma_event row = e
    /\ shows x k m v row.
Proof using Hok.
  rewrite children_elem, list_elem_of_omap. split.
  - intros ([m row] & Hin%numbered_elem & Hx). pose proof (public_match_found _ _ Hin) as Hf. rewrite Hx in Hf.
    destruct Hf as (-> & k & v & Hs). by exists m, row, k, v.
  - intros (m & row & k & v & Hx & _ & Hs). exists (m, row). split; [|done]. by apply numbered_elem, Hs.
Qed.

(** A season counts the matches it shows. *)
Lemma season_count e : length (children e (omap (public_match_of d) numbered)) = length (verified_matches e d).
Proof using Hok.
  rewrite (children_length _ _ (fun km => bool_decide (ma_event km.2 = e) && has_result d km)).
  - unfold verified_matches, numbered. by rewrite merge_sort_Permutation.
  - intros [m row] Hin%numbered_elem. pose proof (public_match_found _ _ Hin) as Hf. unfold has_result. cbn [fst snd].
    destruct (public_match_of d (m, row)) as [[e' x]|].
    + destruct Hf as (-> & k & v & [[Hk Hv] _ _ _]). rewrite (bool_decide_true (is_Some _)), andb_true_r; [done|].
      exists v. apply latest_result_spec. by exists k.
    + rewrite Hf, (bool_decide_false (is_Some _)) by by intros [? ?]. by rewrite andb_false_r.
Qed.
End rows.

Lemma season_teams d e : is_Some (co_events d !! e) ->
  children e ((map_to_list (co_events d)).*1 ≫= fun e => (fun x => (e, x.2)) <$> public_teams e d) = snd <$> public_teams e d.
Proof.
  intros [x He]. apply (children_concat e snd (fun e => public_teams e d)); [apply NoDup_fst_map_to_list|].
  apply list_elem_of_fmap. exists (e, x). by rewrite elem_of_map_to_list.
Qed.
Lemma season_stats d e : is_Some (co_events d !! e) ->
  children e ((map_to_list (co_events d)).*1 ≫= fun e => (fun x => (e, x)) <$> season_players e d) = season_players e d.
Proof.
  intros [x He]. rewrite (children_concat e (fun x => x) (fun e => season_players e d)); [by rewrite list_fmap_id|apply NoDup_fst_map_to_list|].
  apply list_elem_of_fmap. exists (e, x). by rewrite elem_of_map_to_list.
Qed.

Lemma season_of_id d e row y : season_of d (e, row) = Some y -> PS_EventID y = e.
Proof. unfold season_of. case_match; [done|]. by intros [= <-]. Qed.

(** The page, read in one state. *)
Lemma PublicCompetition_run pool s s' page : PublicCompetition pool s = (s', Ok page) ->
  db s' = db s
  /\ forall x, x ∈ Seasons page <-> exists e row y, co_events (db s) !! e = Some row /\ season_of (db s) (e, row) = Some y /\ x = filled (db s) y.
Proof.
  unfold PublicCompetition. destruct pool; [|by intros ?%failing_run]. cbn [negb]. intros H.
  apply bind_run in H as (seasons & s1 & [E1 [= Hs]]%query_run & H).
  assert (Hin : forall y, y ∈ seasons <-> exists e row, co_events (db s) !! e = Some row /\ season_of (db s) (e, row) = Some y).
  { intros y. rewrite <- Hs, merge_sort_Permutation, list_elem_of_omap. setoid_rewrite elem_of_map_to_list'. split.
    - intros ([e row] & He & Hy). by exists e, row.
    - intros (e & row & He & Hy). by exists (e, row). }
  case_bool_decide as Hempty.
  { apply ret_run in H as [-> [= ->]]. split; [done|]. apply length_zero_iff_nil in Hempty. intros x. cbn. split; [by intros ?%not_elem_of_nil|].
    intros (e & row & y & He & Hy & _). destruct (not_elem_of_nil y). rewrite <- Hempty. apply Hin. by exists e, row. }
  apply bind_run in H as (ms & s2 & [E2 [= <-]]%query_run & H). apply bind_run in H as (ts & s3 & [E3 [= <-]]%query_run & H).
  apply bind_run in H as ([career ps] & s4 & H4 & H). apply bind_run in H4 as (b & s5 & [E5 [= <-]]%query_run & H4).
  apply bind_run in H4 as (c & s6 & [E6 _]%query_run & [-> [= _ ->]]%ret_run). apply ret_run in H as [-> [= ->]].
  rewrite E6, E5, E3, E2, E1. split; [done|]. intros x. cbn [Seasons]. rewrite list_elem_of_fmap. split.
  - intros (y & -> & (e & row & He & Hy)%Hin). exists e, row, y. split_and!; [done..|]. unfold filled.
    rewrite (season_of_id _ _ _ _ Hy), season_teams, season_stats by done. done.
  - intros (e & row & y & He & Hy & ->). exists y. split; [|apply Hin; by exists e, row]. unfold filled.
    rewrite (season_of_id _ _ _ _ Hy), season_teams, season_stats by done. done.
Qed.

(** ** Standings *)
Section standings.
Context (d : CompDB) (Hok : comp_ok d) (e : string).

(** What a match gives its two sides together. *)
Definition pair_ok (n : Z) (t : Tally) : Prop :=
  played t = 2 * n /\ wins t = losses t /\ played t = wins t + losses t + ties t /\ points t = 100 * wins t + 50 * ties t.
Lemma pair_ok_add n m t u : pair_ok n t -> pair_ok m u -> pair_ok (n + m) (add_tally t u).
Proof. destruct t, u. unfold pair_ok, add_tally. cbn. lia. Qed.

Definition match_sides (m : string) : list (string * SideRow) :=
  List.filter (fun ks => bool_decide (si_match ks.2 = m)) (map_to_list (co_sides d)).
Lemma two_sides m : has_sides m d -> exists j1 j2 s1 s2, match_sides m ≡ₚ [(j1, s1); (j2, s2)] /\ si_number s1 = 1 /\ si_number s2 = 2.
Proof using Hok.
  intros Hs. destruct (Hs 1) as (j1 & s1 & H1 & Hm1 & Hn1); [by left|]. destruct (Hs 2) as (j2 & s2 & H2 & Hm2 & Hn2); [by right|].
  exists j1, j2, s1, s2. split_and!; [|done..]. assert (Hne : j1 <> j2) by (intros ->; congruence). unfold match_sides. apply NoDup_Permutation.
  - apply (NoDup_fmap_1 fst), NoDup_fmap_filter, NoDup_fst_map_to_list.
  - apply NoDup_cons. split; [|apply NoDup_singleton]. intros [= ? ?]%list_elem_of_singleton. by subst.
  - intros [j s]. rewrite filter_bool_elem, elem_of_map_to_list, !elem_of_cons, elem_of_nil. cbn. rewrite bool_decide_eq_true. split.
    + intros [Hj Hm]. destruct (ok_sides _ Hok _ _ Hj) as (_ & _ & [Hn|Hn]).
      * left. assert (j = j1) by (eapply (ok_numbers _ Hok); [exact Hj|exact H1|congruence..]). subst. congruence.
      * right; left. assert (j = j2) by (eapply (ok_numbers _ Hok); [exact Hj|exact H2|congruence..]). subst. congruence.
    + intros [[= -> ->]|[[= -> ->]|[]]]; done.
Qed.

Lemma sides_tally m v row : latest_result m d = Some v -> co_matches d !! m = Some row ->
  exists t1 t2, omap (counted_side d) (match_sides m) ≡ₚ [t1; t2] /\ t1.1 = ma_event row /\ t2.1 = ma_event row
    /\ pair_ok 1 (add_tally t1.2.2 t2.2.2).
Proof using Hok.
  intros Hv Hm. pose proof Hv as (k & Hk & Hkm)%latest_result_spec; [|done]. pose proof (ok_verified_sides _ Hok _ _ Hk) as Hs.
  rewrite Hkm in Hs. destruct (two_sides m Hs) as (j1 & j2 & s1 & s2 & Hp & H1 & H2).
  assert (Hin : forall x, x ∈ [(j1, s1); (j2, s2)] -> si_match x.2 = m).
  { intros x. rewrite <- Hp. unfold match_sides. rewrite filter_bool_elem. intros [_ ?]. by bool_prop. }
  pose proof (Hin (j1, s1) ltac:(left)) as M1. pose proof (Hin (j2, s2) ltac:(right; left)) as M2. cbn in M1, M2.
  destruct (ok_verified _ Hok _ _ Hk) as (_ & Ho & _).
  assert (Ht : exists t1 t2, side_tally (vr_outcome v) 1 = Some t1 /\ side_tally (vr_outcome v) 2 = Some t2 /\ pair_ok 1 (add_tally t1 t2)).
  { rewrite !elem_of_cons, elem_of_nil in Ho. by destruct Ho as [->|[->|[->|[]]]]; eexists _, _; vm_compute. }
  destruct Ht as (t1 & t2 & E1 & E2 & Hpair). exists (ma_event row, (si_team s1, t1)), (ma_event row, (si_team s2, t2)).
  split_and!; [|done..]. rewrite Hp. cbn. unfold counted_side. cbn. rewrite M1, M2, Hm, Hv. cbn. by rewrite H1, H2, E1, E2.
Qed.

(** The sides an event counts, by match. *)
Definition of_event (x : string * (string * Tally)) : option Tally := if bool_decide (x.1 = e) then Some x.2.2 else None.
Definition by_match (sides : list (string * SideRow)) : list (string * Tally) :=
  omap (fun ks => t ← (counted_side d ks ≫= of_event); Some (si_match ks.2, t)) sides.

Lemma by_match_tallies sides : (by_match sides).*2 = (children e (omap (counted_side d) sides)).*2.
Proof.
  induction sides as [|ks l IH]; [done|]. unfold by_match, children in *. cbn. destruct (counted_side d ks) as [x|]; cbn; [|exact IH].
  unfold of_event at 1. destruct (bool_decide (x.1 = e)); cbn; [by rewrite <- IH|exact IH].
Qed.
Lemma by_match_children m sides :
  children m (by_match sides) = omap of_event (omap (counted_side d) (List.filter (fun ks => bool_decide (si_match ks.2 = m)) sides)).
Proof.
  induction sides as [|ks l IH]; [done|]. unfold by_match, children in *. cbn.
  destruct (bool_decide (si_match ks.2 = m)) eqn:Em; cbn; destruct (counted_side d ks) as [x|]; cbn; try exact IH;
    destruct (of_event x) as [t|]; cbn; try exact IH; rewrite Em; cbn; [|exact IH]. by rewrite IH.
Qed.

Lemma verified_matches_elem m row : (m, row) ∈ verified_matches e d <->
  co_matches d !! m = Some row /\ ma_event row = e /\ exists v, latest_result m d = Some v.
Proof.
  unfold verified_matches, has_result. rewrite filter_bool_elem, elem_of_map_to_list, andb_true_iff, !bool_decide_eq_true. cbn. tauto.
Qed.
Lemma match_total m row : (m, row) ∈ verified_matches e d -> pair_ok 1 (tallies (children m (by_match (map_to_list (co_sides d))))).
Proof using Hok.
  intros (Hm & He & v & Hv)%verified_matches_elem. destruct (sides_tally _ _ _ Hv Hm) as (t1 & t2 & Hp & H1 & H2 & Hpair).
  rewrite by_match_children. unfold match_sides in Hp. rewrite Hp. cbn. unfold of_event.
  rewrite H1, H2, He, bool_decide_true by done. cbn. by rewrite (add_tally_comm_zero t2.2.2).
Qed.
Lemma all_total : pair_ok (Z.of_nat (length (verified_matches e d))) (tallies (children e (counted_sides d)).*2).
Proof using Hok.
  unfold counted_sides. rewrite <- by_match_tallies. rewrite <- (tallies_groups (verified_matches e d).*1).
  - assert (Hin : forall m row, (m, row) ∈ verified_matches e d -> (m, row) ∈ verified_matches e d) by done. revert Hin.
    generalize (verified_matches e d) at 1 3 4. intros l Hl. induction l as [|[m row] l IH]; [done|].
    rewrite fmap_cons. cbn [length fmap list_fmap fst sum_all foldr]. rewrite Nat2Z.inj_succ, <- Z.add_1_l.
    apply pair_ok_add; [apply (match_total m row), Hl; left|]. apply IH. intros m' row' Hin. apply Hl. by right.
  - apply NoDup_fmap_filter, NoDup_fst_map_to_list.
  - intros [m t]. unfold by_match. rewrite list_elem_of_omap. intros ([k s] & Hk%elem_of_map_to_list & Hx). cbn in Hx.
    unfold counted_side, of_event in Hx. cbn in Hx. destruct (co_matches d !! si_match s) as [row|] eqn:Em; [|done].
    destruct (latest_result (si_match s) d) as [v|] eqn:Ev; [|done]. cbn in Hx. destruct (side_tally _ _); [|done]. cbn in Hx.
    case_bool_decide; [|done]. injection Hx as <- _. apply list_elem_of_fmap. exists (si_match s, row). split; [done|].
    apply verified_matches_elem. eauto.
Qed.

(** The rows of the page, as tallies again. *)
Definition row_tally (x : Z * PublicTeamStandingRow) : Tally :=
  mkTally (PT_Played x.2) (PT_Wins x.2) (PT_Losses x.2) (PT_Ties x.2) x.1.
Definition standing_rows : list (Z * PublicTeamStandingRow) :=
  omap (fun kt : string * TeamDBRow =>
    match team_standing e kt.1 d with
    | [] => None
    | l => let t := sum_tally l in
           Some (points t, mkPublicTeamStandingRow (te_name kt.2) (played t) (wins t) (losses t) (ties t) (numeric_text (points t)))
    end) (map_to_list (co_teams d)).
Lemma public_teams_perm : public_teams e d ≡ₚ standing_rows.
Proof. unfold public_teams. by rewrite merge_sort_Permutation. Qed.

Lemma standing_rows_total : tallies (row_tally <$> standing_rows) = tallies (children e (counted_sides d)).*2.
Proof using Hok.
  rewrite <- (tallies_groups (map_to_list (co_teams d)).*1).
  - unfold standing_rows. rewrite <- list_fmap_compose. generalize (map_to_list (co_teams d)). intros l.
    induction l as [|kt l IH]; [done|]. cbn [omap list_omap fmap list_fmap].
    rewrite (tallies_cons (_ kt)), <- IH. change ((_ ∘ fst) kt) with (sum_tally (team_standing e kt.1 d)).
    destruct (team_standing e kt.1 d) as [|t ts]; [by rewrite add_tally_zero|].
    cbn [fmap list_fmap]. rewrite tallies_cons. by destruct (sum_tally (t :: ts)).
  - apply NoDup_fst_map_to_list.
  - intros [team t] Hin. rewrite children_elem in Hin. unfold counted_sides in Hin. rewrite list_elem_of_omap in Hin.
    destruct Hin as ([k s] & Hk%elem_of_map_to_list & Hx). destruct (side_team _ Hok _ _ Hk) as [x Ht].
    unfold counted_side in Hx. cbn in Hx. destruct (co_matches d !! _); [|done]. cbn in Hx. destruct (latest_result _ d); [|done].
    cbn in Hx. destruct (side_tally _ _); [|done]. injection Hx as _ <- _. apply list_elem_of_fmap.
    exists (si_team s, x). by rewrite elem_of_map_to_list.
Qed.

Lemma add_tally_ok t u : tally_ok t -> tally_ok u -> tally_ok (add_tally t u).
Proof. destruct t, u. unfold tally_ok, add_tally. cbn. lia. Qed.
Lemma counted_ok x y : x ∈ map_to_list (co_sides d) -> counted_side d x = Some y -> tally_ok y.2.2.
Proof using Hok.
  destruct x as [k s]. intros Hk%elem_of_map_to_list. destruct (ok_sides _ Hok _ _ Hk) as (_ & _ & Hn). unfold counted_side. cbn.
  destruct (co_matches d !! _); [|done]. cbn. destruct (latest_result _ d) as [v|]; [|done]. cbn.
  destruct (side_tally _ _) as [t|] eqn:Et; [|done]. intros [= <-]. cbn. unfold side_tally in Et. case_match; [|done]. injection Et as <-.
  bool_prop. match goal with H : vr_outcome v ∈ _ |- _ => rewrite !elem_of_cons, elem_of_nil in H; rename H into Ho end.
  by destruct Ho as [->|[->|[->|[]]]], Hn as [->| ->]; vm_compute.
Qed.
Lemma standing_ok team : tally_ok (sum_tally (team_standing e team d)).
Proof using Hok.
  assert (H : forall t, t ∈ team_standing e team d -> tally_ok t).
  { unfold team_standing, counted_sides. intros t Ht. rewrite !children_elem, list_elem_of_omap in Ht.
    destruct Ht as (x & Hx & Hy). exact (counted_ok _ _ Hx Hy). }
  induction (team_standing e team d) as [|t l IH]; [by vm_compute|]. cbn. apply add_tally_ok; [apply H; left|]. apply IH. intros u Hu. apply H. by right.
Qed.
Lemma standing_row_ok x : x ∈ standing_rows -> PT_Points x.2 = numeric_text x.1 /\ tally_ok (row_tally x).
Proof using Hok.
  unfold standing_rows. rewrite list_elem_of_omap. intros ([k t] & _ & Hx). cbn in Hx. pose proof (standing_ok k) as H.
  destruct (team_standing e k d) as [|u l]; [done|]. injection Hx as <-. split; [done|].
  cbv zeta. unfold row_tally. cbn [fst snd PT_Played PT_Wins PT_Losses PT_Ties]. exact H.
Qed.
End standings.

Context (unicode_lower : string -> string) (referenced : string -> string -> bool).
Context (unmarshal_bytes : string -> result MatchResultVerifiedPayload).
#[local] Abbreviation reached pool cs people := (run_competition unicode_lower referenced unmarshal_bytes pool cs (start people)).

(** ** Theorems *)

(** C19. The public page is the verified history.  In every state the store can
    reach, the page it answers with shows, for every season, as many matches as
    it counts, at least one; what it shows of a match is its verified result,
    its number and format, and the names of the teams and players of its two
    sides; and every verified result is shown, in the season of its match. *)
Theorem public_page_is_the_verified_history pool cs people pool' s' page :
  let s := reached pool cs people in
  PublicCompetition pool' s = (s', Ok page) ->
  db s' = db s
  /\ (forall x, x ∈ Seasons page -> 0 < VerifiedCount x /\ Z.of_nat (length (PS_Matches x)) = VerifiedCount x
       /\ exists row, co_events (db s) !! PS_EventID x = Some row /\ PS_Name x = ev_name row /\ Year x = ev_season_year row
       /\ forall y, y ∈ PS_Matches x -> exists k m v row, ma_event row = PS_EventID x /\ shows (db s) y k m v row)
  /\ forall k v, co_verified (db s) !! k = Some v ->
       exists x y row, x ∈ Seasons page /\ y ∈ PS_Matches x /\ PS_EventID x = ma_event row /\ shows (db s) y k (vr_match v) v row.
Proof.
  cbv zeta. set (s := reached pool cs people). assert (Hok : comp_ok (db s)) by apply run_start_ok. intros H.
  apply PublicCompetition_run in H as [E1 Hin]. split_and!; [exact E1| |].
  - intros x (e & row & y & He & Hy & ->)%Hin. unfold season_of in Hy. cbn in Hy. destruct (Z.eqb_spec (Z.of_nat (length (verified_matches e (db s)))) 0); [done|].
    injection Hy as <-. cbn. rewrite season_count by done. split_and!; [lia|done|]. exists row. split_and!; [done..|].
    intros y (m & r & k & v & _ & Hr & Hs)%season_matches_elem; [|done]. by exists k, m, v, r.
  - intros k v Hk. destruct (ok_verified _ Hok _ _ Hk) as (_ & _ & Hst). apply fmap_Some in Hst as (row & Hrow & _).
    destruct (ok_matches _ Hok _ _ Hrow) as ([ev Hev] & _ & _). pose proof (public_match_found _ Hok _ _ Hrow) as Hf.
    assert (Hl : latest_result (vr_match v) (db s) = Some v) by (apply latest_result_spec; [done|by exists k]).
    destruct (public_match_of (db s) (vr_match v, row)) as [[e y]|] eqn:Ey; [|congruence].
    destruct Hf as (-> & k' & v' & Hs). pose proof (sh_result _ _ _ _ _ _ Hs) as [Hk' Hv'].
    assert (k' = k) as -> by (eapply (ok_verified_once _ Hok); [exact Hk'|exact Hk|done]). assert (v' = v) as -> by congruence.
    assert (Hy : y ∈ children (ma_event row) (omap (public_match_of (db s)) (numbered (db s)))).
    { apply season_matches_elem; [done|]. by exists (vr_match v), row, k, v. }
    assert (Hc : Z.of_nat (length (verified_matches (ma_event row) (db s))) <> 0).
    { rewrite <- season_count by done. destruct (children _ _); [by apply not_elem_of_nil in Hy|]. cbn. lia. }
    destruct (season_of (db s) (ma_event row, ev)) as [z|] eqn:Ez.
    2: { unfold season_of in Ez. cbn [fst snd] in Ez. by rewrite (proj2 (Z.eqb_neq _ _) Hc) in Ez. }
    pose proof (season_of_id _ _ _ _ Ez) as Hid. exists (filled (db s) z), y, row. split_and!; [apply Hin; eauto 6| |exact Hid|exact Hs].
    cbn. by rewrite Hid.
Qed.

(** The standings add up.  In every state the store can reach, on the
    page it answers with, every team's line is consistent (matches are wins,
    losses and ties, the points one for a win and a half for a tie), and over
    the teams of a season every verified match is counted exactly twice, there
    are as many wins as losses, and one point was given out per match. *)
Theorem public_standings_add_up pool cs people pool' s' page x :
  PublicCompetition pool' (reached pool cs people) = (s', Ok page) -> x ∈ Seasons page ->
  (forall t, t ∈ PS_Teams x -> PT_Played t = PT_Wins t + PT_Losses t + PT_Ties t
     /\ PT_Points t = numeric_text (100 * PT_Wins t + 50 * PT_Ties t))
  /\ sumZ PT_Played (PS_Teams x) = 2 * VerifiedCount x
  /\ sumZ PT_Wins (PS_Teams x) = sumZ PT_Losses (PS_Teams x)
  /\ sumZ (fun t => 100 * PT_Wins t + 50 * PT_Ties t) (PS_Teams x) = 100 * VerifiedCount x.
Proof.
  set (s := reached pool cs people). assert (Hok : comp_ok (db s)) by apply run_start_ok. intros [_ Hin]%PublicCompetition_run Hx.
  apply Hin in Hx as (e & row & y & He & Hy & ->). unfold season_of in Hy. cbn in Hy.
  destruct (Z.of_nat (length (verified_matches e (db s))) =? 0); [done|]. injection Hy as <-. cbn.
  pose proof (all_total (db s) Hok e) as Ht. rewrite <- standing_rows_total in Ht by done.
  split.
  { intros t (z & -> & Hz)%list_elem_of_fmap. rewrite public_teams_perm in Hz. destruct (standing_row_ok _ Hok _ _ Hz) as [-> (Hp & Hpt & _)].
    cbn in Hp, Hpt. by rewrite Hp, Hpt. }
  rewrite !public_teams_perm. revert Ht. generalize (Z.of_nat (length (verified_matches e (db s)))).
  generalize (standing_rows (db s) e). intros rows n.
  assert (Hsums : sumZ PT_Played rows.*2 = played (tallies (row_tally <$> rows)) /\ sumZ PT_Wins rows.*2 = wins (tallies (row_tally <$> rows))
    /\ sumZ PT_Losses rows.*2 = losses (tallies (row_tally <$> rows)) /\ sumZ PT_Ties rows.*2 = ties (tallies (row_tally <$> rows))
    /\ sumZ (fun t => 100 * PT_Wins t + 50 * PT_Ties t) rows.*2 = 100 * sumZ PT_Wins rows.*2 + 50 * sumZ PT_Ties rows.*2).
  { induction rows as [|z rows IH]; [done|]. rewrite !fmap_cons, !sumZ_cons, tallies_cons. cbn. lia. }
  destruct Hsums as (H1 & H2 & H3 & H4 & H5). intros (Hp & Hw & Hs & Hpts). rewrite H5, H1, H2, H3, H4. lia.
Qed.
End public.
