(* ===== verification/CompetitionExample.v ===== *)
(** * A concrete season

    An event with two teams of one player each, a match between them, its
    result and the delivery of the event it publishes: the inputs at which the
    theorems on the competition store are instantiated. *)
From S2P Require Import Prelude GoStrings GoTime Ledger Events Payloads Betting Placement Settlement Float64 Dispatcher OutboxPG SQL Sample Keeping MarketStore Competition Identity IdentityDB CompetitionDB Slugs CompetitionStore CompetitionOps CompetitionRuns CompetitionBetting CompetitionReaders CompetitionPublic.

Definition club : IdDB :=
  mkIdDB {[ admin := mkIdUserRow "Admin" None UserActive None 0 ]} ∅
    {[ sid "1" := mkMembershipRow admin RoleAdmin None (mkTime 0 true) None ]} ∅ ∅ [].
Definition ex_unicode (s : string) : string := s.
Definition ex_referenced (kind id : string) : bool := false.
Definition ex_bytes (s : string) : result MatchResultVerifiedPayload := Err (Errorf "invalid JSON").
Abbreviation season := (run_competition ex_unicode ex_referenced ex_bytes true).

(** Identifiers are drawn by the statement's number. *)
Definition cup : string := Eval vm_compute in gen_uuid 0.
Definition reds : string := Eval vm_compute in gen_uuid 1.
Definition blues : string := Eval vm_compute in gen_uuid 2.
Definition ann : string := Eval vm_compute in gen_uuid 4.
Definition bob : string := Eval vm_compute in gen_uuid 6.
Definition setup : list comp_command :=
  [KCreateEvent (mkCreateEventRequest " Cabot  Cup! " "Cabot Links" 2024 admin);
   KCreateTeam cup "The Reds" admin; KCreateTeam cup "The Blues" admin;
   KCreatePlayer "Ann O'Hara" ""; KCreatePlayer "Bob" "";
   KSetMember (mkSetTeamMemberRequest cup reds ann false admin); KSetMember (mkSetTeamMemberRequest cup blues bob true admin)].
Definition before_match : session CompDB := season setup (start club).
Definition ex_match : CreateMatchRequest := mkCreateMatchRequest cup FormatSingles reds blues [ann] [bob] admin.
Definition the_match : string := Eval vm_compute in gen_uuid 41.
Definition red_side : string := Eval vm_compute in gen_uuid 42.
Definition blue_side : string := Eval vm_compute in gen_uuid 43.
Definition with_match : list comp_command := setup ++ [KCreateMatch ex_match].
Definition reds_win : RecordResultRequest := mkRecordResultRequest the_match "side_1" "3 and 2" admin "".
Definition a_tie : RecordResultRequest := mkRecordResultRequest the_match "tie" "" admin "changed my mind".

Definition recorded : session CompDB * result string := RecordAdminResult true reds_win (season with_match (start club)).
Definition the_result : string := Eval vm_compute in match recorded.2 with Ok vid => vid | Err _ => "" end.
(** The outbox row that announces it. *)
Definition news : string := Eval vm_compute in
  match find_row (fun r => bool_decide (Env_Type (envelope r) = MatchResultVerified)) (co_outbox (db recorded.1)) with
  | Some (i, _) => i
  | None => ""
  end.
Definition played_season : list comp_command := with_match ++ [KRecordResult reds_win; KDeliver news; KDeliver news; KRecordResult a_tie].

Example created_is : (CreateMatch true ex_match (season setup (start club))).2 = Ok (mkMatchCreated the_match red_side blue_side).
Proof. by vm_compute. Qed.
Example recorded_is : recorded.2 = Ok the_result.
Proof. by vm_compute. Qed.
Example ann_won : co_stats (db (season played_season (start club))) !! (ann, cup)
  = Some (mkStatRow (mkTally 1 1 0 0 100) (mkTally 1 1 0 0 100) no_tally 1).
Proof. by vm_compute. Qed.

(** A name without letters or digits is not refused: the year is in the slug. *)
Example nameless_event : exists d id, (CreateEvent ex_unicode true (mkCreateEventRequest "!!!" "Cabot Links" 2024 admin) (start club)) = (d, Ok id)
  /\ (ev_slug <$> co_events (db d) !! id) = Some "2024"%string.
Proof.
  destruct (CreateEvent _ _ _ _) as [d [id|e]] eqn:Er; [|by vm_compute in Er]. exists d, id. split; [done|]. vm_compute in Er. by injection Er as <- <-.
Qed.

(** ** Witnesses *)
Definition ex_participant : ParticipantRow := mkParticipantRow red_side 1.
Definition ex_roster : RosterRow := mkRosterRow reds true.

Lemma participants_stay_on_roster_witness :
  co_participants (db (season played_season (start club))) !! (the_match, ann) = Some ex_participant
  /\ is_Some (co_players (db (season played_season (start club))) !! ann).
Proof.
  assert (Hp : co_participants (db (season played_season (start club))) !! (the_match, ann) = Some ex_participant) by by vm_compute.
  split; [exact Hp|]. exact (proj1 (participants_stay_on_roster ex_unicode ex_referenced ex_bytes true played_season club _ _ _ Hp)).
Defined.

Lemma staffed_teams_keep_a_captain_witness :
  exists p' r', co_roster (db (season played_season (start club))) !! (cup, p') = Some r' /\ ro_team r' = reds /\ ro_captain r' = true.
Proof.
  assert (Hr : co_roster (db (season played_season (start club))) !! (cup, ann) = Some ex_roster) by by vm_compute.
  exact (proj2 (staffed_teams_keep_a_captain ex_unicode ex_referenced ex_bytes true played_season club _ _ _ Hr)).
Defined.

Lemma slugs_fit_the_schema_witness : slugs_ok (db (season played_season (start club))).
Proof. exact (proj1 (slugs_fit_the_schema ex_unicode ex_referenced ex_bytes true played_season club)). Defined.

Definition second : session CompDB * result string :=
  RecordAdminResult true a_tie (season [KDeliver news] recorded.1).
(** Alice is no member of staff. *)
Definition by_alice : RecordResultRequest := mkRecordResultRequest the_match "tie" "" alice "it was a tie".
Definition refused_request : session CompDB * result string :=
  RecordAdminResult true by_alice (season [KDeliver news] recorded.1).
Lemma first_result_stands_witness :
  second.2 = Ok the_result /\ co_verified (db second.1) !! the_result = co_verified (db recorded.1) !! the_result
  /\ is_Ok refused_request.2 = false /\ db refused_request.1 = db (season [KDeliver news] recorded.1).
Proof.
  assert (H2 : second.2 = Ok the_result) by by vm_compute. split; [exact H2|].
  destruct (first_result_stands ex_unicode ex_referenced ex_bytes true with_match [KDeliver news] club reds_win a_tie _ _ _ _
    (run_of _ _ _ recorded_is) (run_of _ _ _ H2) eq_refl) as (_ & _ & H & _). split; [exact H|].
  destruct (first_result_stands ex_unicode ex_referenced ex_bytes true with_match [KDeliver news] club reds_win by_alice _ _ _ _
    (run_of _ _ _ recorded_is) (surjective_pairing refused_request) eq_refl) as (Hd & _). split; [by vm_compute|exact Hd].
Defined.

Lemma statistics_match_the_results_witness :
  recomputed (co_applied (db (season played_season (start club)))) ann cup (db (season played_season (start club)))
  = Some (mkStatRow (mkTally 1 1 0 0 100) (mkTally 1 1 0 0 100) no_tally 1).
Proof.
  exact (eq_trans (eq_sym (proj1 (statistics_match_the_results ex_unicode ex_referenced ex_bytes true played_season club ann cup))) ann_won).
Defined.

Lemma statistics_add_up_witness : stat_ok (mkStatRow (mkTally 1 1 0 0 100) (mkTally 1 1 0 0 100) no_tally 1).
Proof. exact (statistics_add_up ex_unicode ex_referenced ex_bytes true played_season club ann cup _ ann_won). Defined.

(** The result before anything was delivered. *)
Definition undelivered : list comp_command := with_match ++ [KRecordResult reds_win].
Definition result_row : VerifiedRow := Eval vm_compute in
  match co_verified (db recorded.1) !! the_result with Some v => v | None => mkVerifiedRow "" 0 (0, 0) "" "" "" "" None (mkTime 0 true) end.
Lemma every_result_reaches_the_statistics_witness :
  the_match ∉ co_applied (db (season undelivered (start club)))
  /\ exists i r s', co_outbox (db (season undelivered (start club))) !! i = Some r
       /\ StatsProjectionConsumer_Handle ex_bytes true (envelope r) (season undelivered (start club)) = (s', Ok ())
       /\ the_match ∈ co_applied (db s').
Proof.
  split; [by vm_compute|].
  assert (Hv : co_verified (db (season undelivered (start club))) !! the_result = Some result_row) by by vm_compute.
  destruct (every_result_reaches_the_statistics ex_unicode ex_referenced ex_bytes true undelivered club _ _ Hv) as (i & r & s' & Hi & _ & Hh & Ha & _);
    [done|]. exists i, r, s'. auto.
Defined.

(** A market on the two sides and the tie. *)
Definition ex_market : gmap string string :=
  {[ sid "1" := sideSemanticKey red_side; sid "2" := sideSemanticKey blue_side; sid "3" := tieSemanticKey ]}.
Definition news_row : OutboxPG.row := Eval vm_compute in
  match co_outbox (db recorded.1) !! news with Some r => r | None => mkRow (mkEnvelope "" "" "" 0 "" (RawObject []) (mkTime 0 true) "" "") (mkTime 0 true) OutboxPending 0 0 None None None None None end.

Lemma ex_market_sides d :
  (exists s, co_sides d !! red_side = Some s /\ si_match s = the_match) -> (exists s, co_sides d !! blue_side = Some s /\ si_match s = the_match) ->
  match_selections the_match d ex_market.
Proof.
  intros (r & Hr & Hrm) (b & Hb & Hbm) id key Hk. unfold ex_market in Hk.
  apply lookup_insert_Some in Hk as [[_ <-]|[_ [[_ <-]|[_ [_ <-]%lookup_singleton_Some]]%lookup_insert_Some]].
  - right. exists red_side, r. split_and!; [exact Hr|exact Hrm|done].
  - right. exists blue_side, b. split_and!; [exact Hb|exact Hbm|done].
  - by left.
Qed.

Definition red_row : SideRow := mkSideRow cup the_match 1 reds.
Definition blue_row : SideRow := mkSideRow cup the_match 2 blues.
Lemma recorded_winner_wins_the_market_witness :
  exists p outcomes, unmarshal_MatchResultVerified ex_bytes (Payload (envelope news_row)) = Ok p
    /\ buildMatchOutcome ex_market (MRV_Outcome p) (MRV_WinningSideID p) = Some outcomes
    /\ outcomes !! sid "1" = Some ResultWin /\ outcomes !! sid "2" = Some ResultLoss /\ outcomes !! sid "3" = Some ResultLoss.
Proof.
  assert (Hi : co_outbox (db (season undelivered (start club))) !! news = Some news_row) by by vm_compute.
  assert (Hr : co_sides (db (season undelivered (start club))) !! red_side = Some red_row) by by vm_compute.
  assert (Hb : co_sides (db (season undelivered (start club))) !! blue_side = Some blue_row) by by vm_compute.
  destruct (recorded_winner_wins_the_market ex_unicode ex_referenced ex_bytes true undelivered club news news_row Hi eq_refl)
    as (p & v & Hp & Hv & Hm & Hmarket).
  assert (Hid : MRV_VerificationID p = the_result) by (vm_compute in Hp; by injection Hp as <-).
  rewrite Hid in Hv. assert (Hv' : co_verified (db (season undelivered (start club))) !! the_result = Some result_row) by by vm_compute.
  pose proof (eq_trans (eq_sym Hv) Hv') as [= ->].
  destruct (Hmarket ex_market) as (outcomes & Ho & Hside & Htie).
  - by apply insert_non_empty.
  - apply ex_market_sides; [exists red_row|exists blue_row]; split; [exact Hr|done|exact Hb|done].
  - exists p, outcomes. split; [exact Hp|]. split; [exact Ho|]. split; [|split].
    + rewrite (Hside _ red_side red_row); [by vm_compute|by vm_compute|exact Hr|done].
    + rewrite (Hside _ blue_side blue_row); [by vm_compute|by vm_compute|exact Hb|done].
    + rewrite Htie; by vm_compute.
Defined.

(** ** The public page *)
Definition page_read : session CompDB * result PublicCompetitionSnapshot := PublicCompetition true (season played_season (start club)).
Definition ex_page : PublicCompetitionSnapshot := Eval vm_compute in match page_read.2 with Ok x => x | Err _ => mkPublicCompetitionSnapshot [] [] end.
Definition ex_season : PublicSeasonRow := Eval vm_compute in match Seasons ex_page with x :: _ => x | [] => mkPublicSeasonRow "" "" 0 "" 0 [] [] [] end.
Example page_is : page_read.2 = Ok ex_page /\ Seasons ex_page = [ex_season].
Proof. split; [by vm_compute|done]. Qed.
Example standings_are : PS_Teams ex_season = [mkPublicTeamStandingRow "The Reds" 1 1 0 0 "1.00"; mkPublicTeamStandingRow "The Blues" 1 0 1 0 "0.00"].
Proof. done. Qed.
Example season_players_are : PlayerName <$> PS_Players ex_season = ["Ann O'Hara"; "Bob"]%string.
Proof. done. Qed.
Example labels_are : PublicMatchRow_WinnerLabel <$> PS_Matches ex_season = ["Ann O'Hara"%string] /\ FormatLabel <$> PS_Matches ex_season = ["Singles"%string]
  /\ DisplayScore "3&2" = "3 & 2"%string /\ DisplayScore " 3 &  2 & more" = "3 & 2 & more"%string.
Proof. by vm_compute. Qed.

Lemma public_page_is_the_verified_history_witness :
  ex_season ∈ Seasons ex_page /\ Z.of_nat (length (PS_Matches ex_season)) = VerifiedCount ex_season /\ VerifiedCount ex_season = 1.
Proof.
  assert (H : page_read.2 = Ok ex_page) by by vm_compute. assert (Hin : ex_season ∈ Seasons ex_page) by left. split; [exact Hin|]. split; [|done].
  destruct (public_page_is_the_verified_history ex_unicode ex_referenced ex_bytes true played_season club true _ _ (run_of _ _ _ H)) as (_ & Hs & _).
  exact (proj1 (proj2 (Hs _ Hin))).
Defined.
Lemma public_standings_add_up_witness : ex_season ∈ Seasons ex_page /\ sumZ PT_Played (PS_Teams ex_season) = 2 * VerifiedCount ex_season.
Proof.
  assert (H : page_read.2 = Ok ex_page) by by vm_compute. assert (Hin : ex_season ∈ Seasons ex_page) by left. split; [exact Hin|].
  exact (proj1 (proj2 (public_standings_add_up ex_unicode ex_referenced ex_bytes true played_season club true _ _ _ (run_of _ _ _ H) Hin))).
Defined.
