(* ===== verification/Url.v ===== *)
(** * The part of Go's [net/url] the web front end uses

    Parsing of a URL reference, its request URI, percent-encoding and the
    encoding of one query value, on bytes.  A URL's user and the errors'
    texts are not kept.  [parse_host] stands for the reading of a host, which
    the modelled code only compares with the empty text. *)
From S2P Require Import Prelude GoStrings.

(** ** Bytes *)
Definition hex_upper (n : Z) : ascii := ascii_of_N (Z.to_N (if n <? 10 then 48 + n else 55 + n)).
Definition hex_val (a : ascii) : Z :=
  if is_digit a then byte_val a - 48 else if between 97 102 a then byte_val a - 87 else byte_val a - 55.
Definition alnum (a : ascii) : bool := is_digit a || is_upper a || is_lower a.
Definition one_of (zs : list Z) (a : ascii) : bool := existsb (fun z => byte_is z a) zs.

(** [strings.Cut(s, string(c))] *)
Fixpoint cut_at (c : Z) (l : list ascii) : list ascii * list ascii * bool :=
  match l with
  | [] => ([], [], false)
  | a :: l' => if byte_is c a then ([], l', true) else let '(x, y, found) := cut_at c l' in (a :: x, y, found)
  end.
Definition contains (c : Z) (l : list ascii) : bool := existsb (byte_is c) l.
Definition count (c : Z) (l : list ascii) : nat := length (List.filter (byte_is c) l).
Definition has_prefix (p l : list ascii) : bool := bool_decide (take (length p) l = p).
Definition slash : ascii := "/".
Definition ends_with (c : Z) (l : list ascii) : bool := match last l with Some a => byte_is c a | None => false end.

(** ** Escapes *)

(** [shouldEscape(c, encodePath)], [shouldEscape(c, encodeQueryComponent)] *)
Definition escape_path_byte (a : ascii) : bool :=
  if alnum a || one_of [45; 95; 46; 126] a then false
  else negb (one_of [36; 38; 43; 44; 47; 58; 59; 61; 64] a).
Definition escape_query_byte (a : ascii) : bool := negb (alnum a || one_of [45; 95; 46; 126] a).
Definition percent (a : ascii) : list ascii := ["%"%char; hex_upper (byte_val a / 16); hex_upper (byte_val a mod 16)].
Definition escape_path (l : list ascii) : list ascii := l ≫= fun a => if escape_path_byte a then percent a else [a].
(** [url.QueryEscape] *)
Definition QueryEscape (l : list ascii) : list ascii :=
  l ≫= fun a => if byte_is 32 a then ["+"%char] else if escape_query_byte a then percent a else [a].

(** [unescape(s, encodePath)], and [unescape(s, encodeQueryComponent)] when
    [plus] *)
Fixpoint unescape (plus : bool) (l : list ascii) : option (list ascii) :=
  match l with
  | [] => Some []
  | a :: l1 =>
      if byte_is 37 a then
        match l1 with
        | h1 :: h2 :: l2 =>
            if is_hex h1 && is_hex h2
            then t ← unescape plus l2; Some (ascii_of_N (Z.to_N (hex_val h1 * 16 + hex_val h2)) :: t)
            else None
        | _ => None
        end
      else t ← unescape plus l1; Some ((if plus && byte_is 43 a then " "%char else a) :: t)
  end.

(** [validEncoded(s, encodePath)] *)
Definition valid_encoded (l : list ascii) : bool :=
  forallb (fun a => one_of [33; 36; 38; 39; 40; 41; 42; 43; 44; 59; 61; 58; 64; 91; 93; 37] a || negb (escape_path_byte a)) l.

(** ** [url.Parse] *)
Record URL := mkURL {
  Scheme : list ascii; Opaque_ : list ascii; Host : list ascii; Path : list ascii; RawPath : list ascii;
  ForceQuery : bool; RawQuery : list ascii; Fragment : list ascii
}.
Definition IsAbs (u : URL) : bool := negb (bool_decide (Scheme u = [])).

Definition ctl_byte (a : ascii) : bool := (byte_val a <? 32) || byte_is 127 a.

(** [getScheme]: [None] is an error. *)
Fixpoint scheme_loop (i : Z) (l : list ascii) : option (option (list ascii * list ascii)) :=
  match l with
  | [] => Some None
  | a :: l' =>
      if is_lower a || is_upper a then option_map (option_map (fun '(x, y) => (a :: x, y))) (scheme_loop (i + 1) l')
      else if is_digit a || one_of [43; 45; 46] a
      then if i =? 0 then Some None else option_map (option_map (fun '(x, y) => (a :: x, y))) (scheme_loop (i + 1) l')
      else if byte_is 58 a then if i =? 0 then None else Some (Some ([], l'))
      else Some None
  end.
Definition getScheme (l : list ascii) : option (list ascii * list ascii) :=
  found ← scheme_loop 0 l; Some (default ([], l) found).

(** [strings.LastIndex(s, "@")], as what is around it. *)
Definition cut_last (c : Z) (l : list ascii) : option (list ascii * list ascii) :=
  let '(x, y, found) := cut_at c (reverse l) in if found then Some (reverse y, reverse x) else None.
Definition validUserinfo (l : list ascii) : bool :=
  forallb (fun a => alnum a || one_of [45; 46; 95; 58; 126; 33; 36; 38; 39; 40; 41; 42; 43; 44; 59; 61; 37; 64] a) l.

(** The path, [ForceQuery] and [RawQuery] *)
Definition split_query (rest : list ascii) : list ascii * bool * list ascii :=
  if ends_with 63 rest && (count 63 rest =? 1)%nat then (take (length rest - 1) rest, true, [])
  else let '(x, y, _) := cut_at 63 rest in (x, false, y).

Section parse.
Context (parse_host : list ascii -> option (list ascii)).

Definition parseAuthority (authority : list ascii) : option (list ascii) :=
  match cut_last 64 authority with
  | None => parse_host authority
  | Some (userinfo, h) =>
      host ← parse_host h;
      if negb (validUserinfo userinfo) then None
      else
        let '(username, password, _) := cut_at 58 userinfo in
        unescape false username ≫= fun _ => unescape false password ≫= fun _ => Some host
  end.

Definition set_path (u : URL) (p : list ascii) : option URL :=
  path ← unescape false p;
  Some (mkURL (Scheme u) (Opaque_ u) (Host u) path (if bool_decide (p = escape_path path) then [] else p) (ForceQuery u) (RawQuery u) (Fragment u)).

Definition parse (rawURL : list ascii) : option URL :=
  if existsb ctl_byte rawURL then None
  else if bool_decide (rawURL = ["*"%char]) then Some (mkURL [] [] [] ["*"%char] [] false [] [])
  else
    '(scheme, rest) ← getScheme rawURL;
    let scheme := map lower_byte scheme in
    let '(rest, force, query) := split_query rest in
    if negb (has_prefix [slash] rest) && negb (bool_decide (scheme = [])) then Some (mkURL scheme rest [] [] [] force query [])
    else if negb (has_prefix [slash] rest) && contains 58 (cut_at 47 rest).1.1 then None
    else
      '(host, rest) ←
        (if (negb (bool_decide (scheme = [])) || negb (has_prefix [slash; slash; slash] rest)) && has_prefix [slash; slash] rest
         then
           let '(authority, path, found) := cut_at 47 (drop 2 rest) in
           host ← parseAuthority authority; Some (host, if found : bool then slash :: path else [])
         else Some ([], rest));
      set_path (mkURL scheme [] host [] [] force query []) rest.

Definition Parse (rawURL : list ascii) : option URL :=
  let '(u, frag, _) := cut_at 35 rawURL in
  url ← parse u;
  if bool_decide (frag = []) then Some url
  else
    fragment ← unescape false frag;
    Some (mkURL (Scheme url) (Opaque_ url) (Host url) (Path url) (RawPath url) (ForceQuery url) (RawQuery url) fragment).
End parse.

Definition EscapedPath (u : URL) : list ascii :=
  if negb (bool_decide (RawPath u = [])) && valid_encoded (RawPath u) && bool_decide (unescape false (RawPath u) = Some (Path u)) then RawPath u
  else if bool_decide (Path u = ["*"%char]) then ["*"%char] else escape_path (Path u).
Definition RequestURI (u : URL) : list ascii :=
  let result :=
    if bool_decide (Opaque_ u = []) then if bool_decide (EscapedPath u = []) then [slash] else EscapedPath u
    else if has_prefix [slash; slash] (Opaque_ u) then Scheme u ++ ":"%char :: Opaque_ u else Opaque_ u in
  if ForceQuery u || negb (bool_decide (RawQuery u = [])) then result ++ "?"%char :: RawQuery u else result.

(** ** Facts about bytes *)
Lemma each_byte (p : ascii -> bool) : forallb p (map ascii_of_nat (seq 0 256)) = true -> forall a, p a = true.
Proof.
  intros H a. rewrite forallb_forall in H. apply H. rewrite <- (ascii_nat_embedding a). apply in_map, in_seq.
  pose proof (nat_ascii_bounded a). lia.
Qed.

(** What neither starts a query or a fragment nor is refused. *)
Definition plain_path (a : ascii) : bool := negb (byte_is 63 a || byte_is 35 a || ctl_byte a || byte_is 92 a).

Lemma percent_plain a : forallb plain_path (percent a) = true.
Proof. revert a. apply each_byte. by vm_compute. Qed.
Lemma percent_hex a : is_hex (hex_upper (byte_val a / 16)) && is_hex (hex_upper (byte_val a mod 16)) = true.
Proof. revert a. apply each_byte. by vm_compute. Qed.
Lemma percent_val a :
  ascii_of_N (Z.to_N (hex_val (hex_upper (byte_val a / 16)) * 16 + hex_val (hex_upper (byte_val a mod 16)))) = a.
Proof.
  apply (Ascii.eqb_eq _ a). revert a.
  apply (each_byte (fun a => Ascii.eqb (ascii_of_N (Z.to_N (hex_val (hex_upper (byte_val a / 16)) * 16 + hex_val (hex_upper (byte_val a mod 16))))) a)).
  by vm_compute.
Qed.
Lemma kept_plain a : escape_path_byte a = false -> plain_path a = true.
Proof.
  intros H. enough (escape_path_byte a || plain_path a = true) as Hk by by rewrite H in Hk.
  clear H. revert a. apply each_byte. by vm_compute.
Qed.
Lemma kept_not_percent a : escape_path_byte a = false -> byte_is 37 a = false.
Proof.
  intros H. enough (escape_path_byte a || negb (byte_is 37 a) = true) as Hk by (rewrite H in Hk; by apply negb_true_iff).
  clear H. revert a. apply each_byte. by vm_compute.
Qed.
Lemma query_kept a : escape_query_byte a = false -> byte_is 37 a = false /\ byte_is 43 a = false.
Proof.
  intros H. enough (escape_query_byte a || (negb (byte_is 37 a) && negb (byte_is 43 a)) = true) as Hk.
  { rewrite H in Hk. cbn in Hk. by apply andb_prop in Hk as [?%negb_true_iff ?%negb_true_iff]. }
  clear H. revert a. apply each_byte. by vm_compute.
Qed.
Lemma valid_plain a :
  one_of [33; 36; 38; 39; 40; 41; 42; 43; 44; 59; 61; 58; 64; 91; 93; 37] a || negb (escape_path_byte a) = true -> plain_path a = true.
Proof.
  intros H. enough (negb (one_of [33; 36; 38; 39; 40; 41; 42; 43; 44; 59; 61; 58; 64; 91; 93; 37] a || negb (escape_path_byte a)) || plain_path a = true) as Hk
    by by rewrite H in Hk.
  clear H. revert a. apply each_byte. by vm_compute.
Qed.
Lemma byte_is_eq z a b : byte_is z a = true -> byte_is z b = true -> a = b.
Proof.
  unfold byte_is, byte_val. intros Ha%Z.eqb_eq Hb%Z.eqb_eq. rewrite <- (ascii_N_embedding a), <- (ascii_N_embedding b). f_equal. lia.
Qed.

(** ** Escapes are read back *)
Lemma unescape_percent plus a l : unescape plus (percent a ++ l) = (fun t => a :: t) <$> unescape plus l.
Proof. unfold percent. cbn [app unescape byte_is]. change (byte_is 37 "%") with true. cbn iota. rewrite percent_hex, percent_val. by destruct (unescape plus l). Qed.

Lemma unescape_escape_path l : unescape false (escape_path l) = Some l.
Proof.
  induction l as [|a l IH]; [done|]. unfold escape_path in *. cbn [mbind list_bind]. destruct (escape_path_byte a) eqn:Ea.
  - by rewrite unescape_percent, IH.
  - cbn. by rewrite (kept_not_percent a Ea), IH.
Qed.
Lemma unescape_QueryEscape l : unescape true (QueryEscape l) = Some l.
Proof.
  induction l as [|a l IH]; [done|]. unfold QueryEscape in *. cbn [mbind list_bind]. destruct (byte_is 32 a) eqn:Es.
  - cbn. rewrite IH. cbn. do 2 f_equal. by apply (byte_is_eq 32).
  - destruct (escape_query_byte a) eqn:Ea; [by rewrite unescape_percent, IH|].
    destruct (query_kept a Ea) as [H1 H2]. cbn. by rewrite H1, H2, IH.
Qed.
Lemma escape_path_plain l : forallb plain_path (escape_path l) = true.
Proof.
  induction l as [|a l IH]; [done|]. unfold escape_path in *. cbn [mbind list_bind]. rewrite forallb_app, IH, andb_true_r.
  destruct (escape_path_byte a) eqn:Ea; [apply percent_plain|]. cbn. by rewrite (kept_plain a Ea).
Qed.
Lemma valid_encoded_plain l : valid_encoded l = true -> forallb plain_path l = true.
Proof. unfold valid_encoded. rewrite !forallb_forall. intros H a Ha. by apply valid_plain, H. Qed.

(** ** Cuts *)
Lemma cut_at_none c l : contains c l = false -> cut_at c l = (l, [], false).
Proof.
  unfold contains. induction l as [|a l IH]; [done|]. cbn. intros [Ha Hl]%orb_false_elim. by rewrite Ha, (IH Hl).
Qed.
Lemma cut_at_app c x b y : contains c x = false -> byte_is c b = true -> cut_at c (x ++ b :: y) = (x, y, true).
Proof.
  unfold contains. intros Hx Hb. induction x as [|a x IH]; cbn; [by rewrite Hb|].
  cbn in Hx. apply orb_false_elim in Hx as [Ha Hx]. by rewrite Ha, (IH Hx).
Qed.
Lemma cut_at_spec c l x y found : cut_at c l = (x, y, found) ->
  contains c x = false /\ (if found then exists b, byte_is c b = true /\ l = x ++ b :: y else l = x /\ y = []).
Proof.
  revert x y found. induction l as [|a l IH]; cbn; intros x y found; [by intros [= <- <- <-]|]. destruct (byte_is c a) eqn:Ea.
  - intros [= <- <- <-]. split; [done|]. by exists a.
  - destruct (cut_at c l) as [[x' y'] f] eqn:El. intros [= <- <- <-]. destruct (IH _ _ _ eq_refl) as [Hx Hf]. split.
    + unfold contains in *. cbn. by rewrite Ea.
    + destruct f; [destruct Hf as (b & Hb & ->); by exists b|destruct Hf as [-> ->]; done].
Qed.
Lemma contains_app c x y : contains c (x ++ y) = contains c x || contains c y.
Proof. apply existsb_app. Qed.
Lemma plain_contains l : forallb plain_path l = true -> contains 63 l = false /\ contains 35 l = false /\ contains 92 l = false /\ existsb ctl_byte l = false.
Proof.
  unfold contains. induction l as [|a l IH]; [done|]. cbn. intros [Ha Hl]%andb_prop. destruct (IH Hl) as (-> & -> & -> & ->).
  unfold plain_path in Ha. apply negb_true_iff in Ha. apply orb_false_elim in Ha as [Ha ->]. apply orb_false_elim in Ha as [Ha ->].
  by apply orb_false_elim in Ha as [-> ->].
Qed.

(** ** A request URI is read back *)
Definition query_part (force : bool) (q : list ascii) : list ascii := if force || negb (bool_decide (q = [])) then "?"%char :: q else [].

Lemma contains_count c l : contains c l = false -> count c l = 0%nat.
Proof. unfold contains, count. induction l as [|a l IH]; [done|]. cbn. intros [-> Hl]%orb_false_elim. by apply IH. Qed.
Lemma count_app c x y : count c (x ++ y) = (count c x + count c y)%nat.
Proof. unfold count. by rewrite List.filter_app, length_app. Qed.
Lemma count_contains c l : contains c l = true -> count c l <> 0%nat.
Proof.
  unfold contains, count. intros (a & Ha & Hb)%existsb_exists H0%length_zero_iff_nil.
  assert (Hin : In a (List.filter (byte_is c) l)) by by apply filter_In. by rewrite H0 in Hin.
Qed.
Lemma contains_elem c l a : contains c l = false -> a ∈ l -> byte_is c a = false.
Proof.
  unfold contains. intros H Ha. destruct (byte_is c a) eqn:E; [|done]. rewrite <- H. symmetry. apply existsb_exists. exists a.
  split; [by apply list_elem_of_In|done].
Qed.
Lemma last_elem {A} (l : list A) a : last l = Some a -> a ∈ l.
Proof. intros Hl. rewrite <- (reverse_involutive l), elem_of_reverse. apply head_Some_elem_of. by rewrite <- last_reverse, reverse_involutive. Qed.
Lemma ends_with_contains c l : contains c l = false -> ends_with c l = false.
Proof. intros H. unfold ends_with. destruct (last l) as [a|] eqn:El; [|done]. by eapply contains_elem, last_elem. Qed.

Lemma split_query_part x force q : contains 63 x = false -> (force = true -> q = []) -> split_query (x ++ query_part force q) = (x, force, q).
Proof.
  intros Hx Hq. unfold split_query, query_part. destruct force.
  - rewrite Hq by done. cbn. assert (He : ends_with 63 (x ++ ["?"%char]) = true) by (unfold ends_with; by rewrite last_snoc).
    assert (Hc : count 63 (x ++ ["?"%char]) = 1%nat).
    { by rewrite count_app, (contains_count _ _ Hx). }
    rewrite He, Hc, length_app. cbn [length]. by rewrite Nat.add_sub, take_app_length.
  - cbn. case_bool_decide as Hne; cbn.
    + rewrite app_nil_r, ends_with_contains, cut_at_none by done. by rewrite Hne.
    + assert (He : ends_with 63 (x ++ "?"%char :: q) && (count 63 (x ++ "?"%char :: q) =? 1)%nat = false).
      { destruct (contains 63 q) eqn:Eq.
        - apply andb_false_intro2, Nat.eqb_neq. rewrite count_app. change (count 63 ("?"%char :: q)) with (S (count 63 q)).
          pose proof (count_contains _ _ Eq). lia.
        - apply andb_false_intro1. unfold ends_with. rewrite last_app_cons. destruct (last ("?"%char :: q)) as [a|] eqn:El; [|done].
          destruct q as [|b q]; [done|]. eapply contains_elem; [exact Eq|]. by apply last_elem. }
      by rewrite He, cut_at_app.
Qed.

(** Not empty, no scheme: what a reference to a path of the same site starts with. *)
Definition starts_path (l : list ascii) : bool := match l with a :: _ => byte_is 47 a || byte_is 37 a | [] => false end.
Lemma getScheme_path l : starts_path l = true -> getScheme l = Some ([], l).
Proof.
  destruct l as [|a l]; [done|]. cbn [starts_path]. intros H. unfold getScheme. cbn [scheme_loop].
  assert (Ha : forall b, (byte_is 47 b || byte_is 37 b) = true -> is_lower b || is_upper b = false /\ (is_digit b || one_of [43; 45; 46] b) = false /\ byte_is 58 b = false).
  { intros b Hb. enough (negb (byte_is 47 b || byte_is 37 b) || (negb (is_lower b || is_upper b) && negb (is_digit b || one_of [43; 45; 46] b) && negb (byte_is 58 b)) = true) as Hk.
    - rewrite Hb in Hk. cbn in Hk. apply andb_prop in Hk as [[?%negb_true_iff ?%negb_true_iff]%andb_prop ?%negb_true_iff]. done.
    - clear. revert b. apply each_byte. by vm_compute. }
  destruct (Ha a H) as (-> & -> & ->). done.
Qed.
Lemma unescape_starts l t : unescape false l = Some (slash :: t) -> starts_path l = true /\ (forall l', l = slash :: l' -> unescape false l' = Some t).
Proof.
  destruct l as [|a l]; [done|]. cbn. destruct (byte_is 37 a) eqn:Ea.
  - intros _. split; [by rewrite orb_true_r|]. intros l' [= -> ->]. done.
  - destruct (unescape false l) as [t'|] eqn:El; [|done]. cbn. intros [= -> ->]. split; [done|]. intros l' [= <-]. done.
Qed.

(** A path of the same site, and a text that stands for it. *)
Definition site_path (p : list ascii) : Prop := has_prefix [slash] p = true /\ has_prefix [slash; slash] p = false.
Record spells (x p : list ascii) : Prop := {
  sp_plain : forallb plain_path x = true;
  sp_path : unescape false x = Some p;
  sp_colon : has_prefix [slash] x = true \/ contains 58 (cut_at 47 x).1.1 = false;
  sp_kept : x = escape_path p \/ valid_encoded x = true
}.

Lemma has_prefix_slash l : has_prefix [slash] l = true -> exists t, l = slash :: t.
Proof. unfold has_prefix. intros H%bool_decide_eq_true. destruct l as [|a l]; [done|]. injection H as ->. by exists l. Qed.

Lemma Parse_spelled ph x p force q :
  spells x p -> site_path p -> contains 35 q = false -> existsb ctl_byte q = false -> (force = true -> q = []) ->
  exists raw, Parse ph (x ++ query_part force q) = Some (mkURL [] [] [] p raw force q [])
    /\ EscapedPath (mkURL [] [] [] p raw force q []) = x.
Proof.
  intros [Hplain Hpath Hcolon Hkept] [H1 H2] Hq35 Hqctl Hf. apply has_prefix_slash in H1 as [t ->].
  destruct (unescape_starts _ _ Hpath) as [Hst Htail]. destruct (plain_contains _ Hplain) as (H63 & H35 & _ & Hctl).
  assert (Hs35 : contains 35 (x ++ query_part force q) = false).
  { rewrite contains_app, H35. unfold query_part. destruct (force || _); [exact Hq35|done]. }
  assert (Hsctl : existsb ctl_byte (x ++ query_part force q) = false).
  { rewrite existsb_app, Hctl. unfold query_part. destruct (force || _); [exact Hqctl|done]. }
  assert (Hstart : starts_path (x ++ query_part force q) = true) by (destruct x; [done|exact Hst]).
  assert (Hss : has_prefix [slash; slash] x = false).
  { apply bool_decide_eq_false. intros Hx. destruct x as [|a [|b x]]; [done|done|]. cbn in Hx. injection Hx as -> ->.
    pose proof (Htail _ eq_refl) as Ht. cbn in Ht. destruct (unescape false x) as [t'|]; [|done]. cbn in Ht. injection Ht as <-. done. }
  unfold Parse. rewrite cut_at_none by done. cbn [fst snd]. unfold parse. rewrite Hsctl, getScheme_path by done. cbn [mbind option_bind].
  rewrite (bool_decide_false (_ = ["*"%char])); [|by intros Hx; rewrite Hx in Hstart]. cbn [mbind option_bind map]. rewrite split_query_part by done.
  rewrite (bool_decide_true ([] = [])) by done. cbn [negb andb orb]. rewrite andb_false_r.
  assert (Hc : negb (has_prefix [slash] x) && contains 58 (cut_at 47 x).1.1 = false) by (destruct Hcolon as [->| ->]; [done|by rewrite andb_false_r]).
  rewrite Hc, Hss, andb_false_r. cbn [mbind option_bind]. unfold set_path. rewrite Hpath.
  cbn [mbind option_bind Scheme Opaque_ Host ForceQuery RawQuery Fragment].
  eexists. split; [reflexivity|]. unfold EscapedPath. cbn [RawPath Path]. rewrite (bool_decide_false (slash :: t = ["*"%char])) by done.
  destruct (decide (x = escape_path (slash :: t))) as [Hx|Hx].
  - rewrite (bool_decide_true (x = escape_path (slash :: t))) by exact Hx. symmetry. exact Hx.
  - rewrite (bool_decide_false (x = escape_path (slash :: t))) by exact Hx. destruct Hkept as [?|Hv]; [done|].
    rewrite (bool_decide_false (x = [])) by (intros Hn; by rewrite Hn in Hst). by rewrite Hv, Hpath, bool_decide_true.
Qed.

(** ** What a parsed reference to the same site is made of *)
Lemma scheme_loop_nonempty l i x y : scheme_loop i l = Some (Some (x, y)) -> i = 0 -> x <> [].
Proof.
  destruct l as [|a l]; [done|]. cbn [scheme_loop]. intros H ->. destruct (is_lower a || is_upper a).
  - destruct (scheme_loop _ l) as [[[x' y']|]|]; cbn in H; try done. by injection H as <- <-.
  - destruct (is_digit a || _); [done|]. by destruct (byte_is 58 a).
Qed.
Lemma getScheme_nil l r : getScheme l = Some ([], r) -> r = l.
Proof.
  unfold getScheme. destruct (scheme_loop 0 l) as [[[x y]|]|] eqn:Es; cbn; [|by intros [= ->]|done].
  intros [= -> _]. by apply scheme_loop_nonempty in Es.
Qed.

Lemma cut_at_elem c l x y found : cut_at c l = (x, y, found) -> forall a, a ∈ x \/ a ∈ y -> a ∈ l.
Proof.
  intros H%cut_at_spec a Ha. destruct H as [_ H]. destruct found.
  - destruct H as (b & _ & ->). rewrite elem_of_app, elem_of_cons. tauto.
  - destruct H as [-> ->]. destruct Ha as [?|?%elem_of_nil]; [done|tauto].
Qed.
Lemma split_query_spec l x force q : split_query l = (x, force, q) ->
  contains 63 x = false /\ (force = true -> q = []) /\ (forall a, a ∈ x \/ a ∈ q -> a ∈ l).
Proof.
  unfold split_query. destruct (ends_with 63 l && _) eqn:E.
  - apply andb_prop in E as [He Hc%Nat.eqb_eq]. intros [= <- <- <-]. unfold ends_with in He.
    destruct (last l) as [b|] eqn:El; [|done]. apply last_Some in El as [l' ->].
    rewrite length_app. cbn [length]. rewrite Nat.add_sub, take_app_length. split_and!; [|done|].
    + destruct (contains 63 l') eqn:Ec; [|done]. apply count_contains in Ec. rewrite count_app in Hc. unfold count in Hc at 2. cbn in Hc.
      rewrite He in Hc. cbn in Hc. lia.
    + intros a [Ha|Ha]; [apply elem_of_app; by left|by apply elem_of_nil in Ha].
  - destruct (cut_at 63 l) as [[x' y'] f] eqn:Ec. intros [= <- <- <-]. split_and!; [exact (proj1 (cut_at_spec _ _ _ _ _ Ec))|done|by eapply cut_at_elem].
Qed.

Lemma escape_path_slash t : escape_path (slash :: t) = slash :: escape_path t.
Proof. done. Qed.
Lemma has_prefix_cons t : has_prefix [slash] (slash :: t) = true.
Proof. by apply bool_decide_eq_true. Qed.

Lemma set_path_spells u p v :
  set_path u p = Some v -> site_path (Path v) -> has_prefix [slash] p = true \/ contains 58 (cut_at 47 p).1.1 = false ->
  spells (EscapedPath v) (Path v).
Proof.
  unfold set_path. destruct (unescape false p) as [path|] eqn:Ep; [|done]. intros [= <-] [[t Ht]%has_prefix_slash _] Hc.
  cbn [Path] in *. subst path. unfold EscapedPath. cbn [RawPath Path]. rewrite (bool_decide_false (slash :: t = ["*"%char])) by done.
  assert (He : spells (escape_path (slash :: t)) (slash :: t)).
  { split; [apply escape_path_plain|apply unescape_escape_path|left; rewrite escape_path_slash; apply has_prefix_cons|by left]. }
  destruct (decide (p = escape_path (slash :: t))) as [Hp|Hp].
  - by rewrite (bool_decide_true (p = escape_path (slash :: t))) by exact Hp.
  - rewrite (bool_decide_false (p = escape_path (slash :: t))) by exact Hp.
    destruct (negb (bool_decide (p = [])) && valid_encoded p && _) eqn:Ev; [|done].
    apply andb_prop in Ev as [[_ Ev]%andb_prop _]. split; [by apply valid_encoded_plain|done|done|by right].
Qed.

Lemma set_path_fields u p v : set_path u p = Some v -> Scheme v = Scheme u /\ ForceQuery v = ForceQuery u /\ RawQuery v = RawQuery u.
Proof. unfold set_path. destruct (unescape false p); [|done]. by intros [= <-]. Qed.

Record same_site (u : URL) : Prop := {
  ss_scheme : Scheme u = []; ss_opaque : Opaque_ u = []; ss_host : Host u = []; ss_fragment : Fragment u = []; ss_path : site_path (Path u)
}.

Lemma parse_same_site ph l u : parse ph l = Some u -> Scheme u = [] -> site_path (Path u) ->
  spells (EscapedPath u) (Path u) /\ existsb ctl_byte l = false /\ (ForceQuery u = true -> RawQuery u = []) /\ (forall a, a ∈ RawQuery u -> a ∈ l).
Proof.
  unfold parse. destruct (existsb ctl_byte l) eqn:Ectl; [done|]. case_bool_decide; [by intros [= <-] _ [? _]|].
  destruct (getScheme l) as [[scheme rest]|] eqn:Es; [|done]. cbn [mbind option_bind].
  destruct (split_query rest) as [[p force] q] eqn:Eq. pose proof (split_query_spec _ _ _ _ Eq) as (_ & Hforce & Hin).
  destruct (decide (map lower_byte scheme = [])) as [Hs|Hs].
  2: { rewrite (bool_decide_false (map lower_byte scheme = [])) by exact Hs. intros Hu Hsch. exfalso. apply Hs. rewrite <- Hsch.
       cbn [negb andb orb] in Hu. rewrite andb_true_r in Hu. destruct (negb (has_prefix [slash] p)); [by injection Hu as <-|].
       cbn [andb] in Hu. match type of Hu with mbind _ ?h = _ => destruct h as [[host p']|] end; [|done].
       by apply set_path_fields in Hu as [-> _]. }
  rewrite (bool_decide_true (map lower_byte scheme = [])) by exact Hs. apply map_eq_nil in Hs as Hs'. subst scheme. apply getScheme_nil in Es as ->.
  cbn [negb andb orb map]. rewrite andb_false_r. destruct (negb (has_prefix [slash] p) && contains 58 (cut_at 47 p).1.1) eqn:Ec; [done|].
  assert (Hcp : has_prefix [slash] p = true \/ contains 58 (cut_at 47 p).1.1 = false).
  { apply andb_false_iff in Ec as [?%negb_false_iff|?]; tauto. }
  destruct (negb (has_prefix [slash; slash; slash] p) && has_prefix [slash; slash] p).
  - destruct (cut_at 47 (drop 2 p)) as [[auth path] found]. destruct (parseAuthority ph auth) as [h|]; [|done]. cbn [mbind option_bind].
    intros Hu _ Hsp. destruct (set_path_fields _ _ _ Hu) as (_ & -> & ->). split_and!; [|done|done|auto].
    eapply set_path_spells; [exact Hu|done|]. destruct found; [left; apply has_prefix_cons|by right].
  - cbn [mbind option_bind]. intros Hu _ Hsp.
    destruct (set_path_fields _ _ _ Hu) as (_ & -> & ->). split_and!; [by eapply set_path_spells|done|done|auto].
Qed.

(** Printing a reference to a path of the same site and parsing it again
    gives the same path and query. *)
Lemma Parse_RequestURI ph l u : Parse ph l = Some u -> same_site u ->
  exists v, Parse ph (RequestURI u) = Some v /\ same_site v /\ Path v = Path u /\ RawQuery v = RawQuery u /\ RequestURI v = RequestURI u
    /\ (forall a, a ∈ RequestURI u -> plain_path a = true \/ a ∈ l \/ a = "?"%char) /\ existsb ctl_byte (RequestURI u) = false
    /\ starts_path (RequestURI u) = true.
Proof.
  unfold Parse at 1. destruct (cut_at 35 l) as [[u0 frag] found] eqn:Ecut. destruct (parse ph u0) as [u1|] eqn:Eu; [|done]. cbn [mbind option_bind].
  pose proof (cut_at_spec _ _ _ _ _ Ecut) as [H35 _]. intros H Hss.
  assert (Hu : u = u1 /\ frag = []).
  { destruct (decide (frag = [])) as [Hf|Hf]; [rewrite (bool_decide_true (frag = [])) in H by exact Hf; by injection H as <-|].
    rewrite (bool_decide_false (frag = [])) in H by exact Hf. destruct (unescape false frag) as [f|] eqn:Ef; [|done]. injection H as <-.
    pose proof (ss_fragment _ Hss) as Hff. cbn in Hff. subst f. destruct frag as [|a frag]; [done|]. cbn in Ef.
    destruct (byte_is 37 a); [|by destruct (unescape false frag)]. destruct frag as [|h1 [|h2 fr]]; try done.
    destruct (is_hex h1 && is_hex h2); [|done]. by destruct (unescape false fr). }
  destruct Hu as [<- ->]. clear H. destruct Hss as [Hsch Hop Hhost Hfr Hpath].
  destruct (parse_same_site _ _ _ Eu Hsch Hpath) as (Hsp & Hctl & Hforce & Hin).
  assert (Hq35 : contains 35 (RawQuery u) = false).
  { destruct (contains 35 (RawQuery u)) eqn:E; [|done]. apply existsb_exists in E as (a & Ha%list_elem_of_In & Hb).
    by rewrite (contains_elem _ _ _ H35 (Hin _ Ha)) in Hb. }
  assert (Hqctl : existsb ctl_byte (RawQuery u) = false).
  { destruct (existsb ctl_byte (RawQuery u)) eqn:E; [|done]. apply existsb_exists in E as (a & Ha%list_elem_of_In & Hb).
    rewrite <- Hctl. symmetry. apply existsb_exists. exists a. split; [by apply list_elem_of_In, Hin|done]. }
  assert (Hne : EscapedPath u <> []).
  { intros Hn. pose proof (sp_path _ _ Hsp) as Hp. rewrite Hn in Hp. injection Hp as Hp. rewrite <- Hp in Hpath. by destruct Hpath. }
  assert (Hr : RequestURI u = EscapedPath u ++ query_part (ForceQuery u) (RawQuery u)).
  { unfold RequestURI, query_part. rewrite Hop. rewrite (bool_decide_true ([] = [])) by done.
    rewrite (bool_decide_false (EscapedPath u = [])) by exact Hne. destruct (ForceQuery u || _); [done|by rewrite app_nil_r]. }
  destruct (Parse_spelled ph _ _ (ForceQuery u) (RawQuery u) Hsp Hpath Hq35 Hqctl Hforce) as (raw & Hv & Hev).
  exists (mkURL [] [] [] (Path u) raw (ForceQuery u) (RawQuery u) []). rewrite Hr. split_and!; try done.
  - unfold RequestURI. cbn [Opaque_ ForceQuery RawQuery]. rewrite (bool_decide_true ([] = [])) by done. rewrite Hev.
    rewrite (bool_decide_false (EscapedPath u = [])) by exact Hne. unfold query_part. destruct (ForceQuery u || _); [done|by rewrite app_nil_r].
  - intros a [Ha|Ha]%elem_of_app.
    + left. pose proof (sp_plain _ _ Hsp) as Hpl. rewrite forallb_forall in Hpl. by apply Hpl, list_elem_of_In.
    + unfold query_part in Ha. destruct (ForceQuery u || _); [|by apply elem_of_nil in Ha]. apply elem_of_cons in Ha as [->|Ha]; [by right; right|].
      right; left. eapply cut_at_elem; [exact Ecut|]. left. auto.
  - rewrite existsb_app. destruct (plain_contains _ (sp_plain _ _ Hsp)) as (_ & _ & _ & ->). unfold query_part.
    destruct (ForceQuery u || _); [exact Hqctl|done].
  - destruct Hpath as [(t & Ht)%has_prefix_slash _]. pose proof (sp_path _ _ Hsp) as Hp. rewrite Ht in Hp.
    apply unescape_starts in Hp as [Hp _]. by destruct (EscapedPath u).
Qed.
