(* ===== verification/AuthWeb.v ===== *)
(** * internal/authweb and internal/oidcclient: signing in with a browser

    The handlers of [handler.go] as functions from a request to the state after
    it and the response, [cookies.go], [devlogin_dev.go], the login attempts of
    [attempts.go] and [Exchange] of the OIDC client.

    The handlers run against the interfaces the package declares: an
    [AttemptStore], the session service of [Session.v] over a [SessionStore],
    and an [OIDCClient].  What a request finds around it, the clock, the random
    source and what the identity provider answers, is its [Moment].  Response
    headers other than the redirect and the cookies, and the HTML around the
    login link, are not kept. *)
From S2P Require Import Prelude GoStrings GoTime Identity Base64 Session Url.

(** ** Paths *)
Definition defaultReturnPath : string := "/book".

Section paths.
Context (parse_host : list ascii -> option (list ascii)).

(** [strings.ContainsAny(candidate, "\\\r\n\x00")] *)
Definition unsafe_byte (a : ascii) : bool := one_of [92; 13; 10; 0] a.
Definition safeReturnPath (candidate fallback : string) : string :=
  let fallback := if bool_decide (fallback = ""%string) then defaultReturnPath else fallback in
  if bool_decide (candidate = ""%string) || (2048 <? len candidate) || existsb unsafe_byte (bytes candidate) then fallback
  else
    match Parse parse_host (bytes candidate) with
    | None => fallback
    | Some parsed =>
        if IsAbs parsed || negb (bool_decide (Host parsed = [])) || negb (bool_decide (Opaque_ parsed = []))
           || negb (bool_decide (Fragment parsed = [])) || negb (has_prefix [slash] (Path parsed))
           || has_prefix [slash; slash] (Path parsed) || contains 92 (Path parsed)
        then fallback
        else of_bytes (RequestURI parsed)
    end.

(** [(&url.URL{Path: "/auth/google", RawQuery: url.Values{"next": {next}}.Encode()}).String()] *)
Definition authStartURL (next : string) : string := ("/auth/google?next=" ++ of_bytes (QueryEscape (bytes next)))%string.
End paths.

(** ** attempts.go *)
Definition ErrInvalidLoginAttempt := Sentinel "authweb.ErrInvalidLoginAttempt".
Definition stateHashContext : list ascii := bytes "cabot-cup/oidc-state/v1" ++ [NUL].
Definition nonceHashContext : list ascii := bytes "cabot-cup/oidc-nonce/v1" ++ [NUL].

Definition AttemptHash := list ascii.
Definition zeroHash : AttemptHash := repeat NUL 32.
Definition AttemptHash_Equal (h other : AttemptHash) : bool := bool_decide (h = other).

Record LoginAttempt := mkLoginAttempt {
  StateHash : AttemptHash; NonceHash : AttemptHash; PKCEVerifier : string; ReturnPath : string;
  LA_CreatedAt : Time; LA_ExpiresAt : Time
}.
Record ConsumedAttempt := mkConsumedAttempt { CA_NonceHash : AttemptHash; CA_PKCEVerifier : string; CA_ReturnPath : string }.

(** The interface the handlers use, on a state [S]. *)
Class AttemptStore (S : Type) := {
  Attempts_Create : LoginAttempt -> S -> S * result unit;
  Attempts_Consume : AttemptHash -> Time -> S -> S * result ConsumedAttempt
}.

Section hashes.
Context (sha256 : list ascii -> Digest) (parse_host : list ascii -> option (list ascii)).
Definition hashAttemptValue (purpose : list ascii) (value : string) : AttemptHash := sha256 (purpose ++ bytes value).
Definition HashState (value : string) : AttemptHash := hashAttemptValue stateHashContext value.
Definition HashNonce (value : string) : AttemptHash := hashAttemptValue nonceHashContext value.

Definition pkce_length_bad (verifier : string) : bool := (len verifier <? 43) || (128 <? len verifier).
Definition LoginAttempt_validate (a : LoginAttempt) : result unit :=
  fail_if (AttemptHash_Equal (StateHash a) zeroHash || AttemptHash_Equal (NonceHash a) zeroHash || AttemptHash_Equal (StateHash a) (NonceHash a))
    (Errorf "login attempt requires distinct state and nonce hashes");;
  fail_if (pkce_length_bad (PKCEVerifier a)) (Errorf "login attempt PKCE verifier must contain 43 to 128 characters");;
  fail_if (negb (bool_decide (safeReturnPath parse_host (ReturnPath a) "" = ReturnPath a))) (Errorf "login attempt return path is unsafe");;
  fail_if (IsZero (LA_CreatedAt a) || negb (After (LA_ExpiresAt a) (LA_CreatedAt a))) (Errorf "login attempt timestamps are invalid").
End hashes.

(** ** The OIDC client *)
Record Claims := mkClaims { Subject : string; CL_Email : string; EmailVerified : bool; CL_DisplayName : string; PictureURL : string }.
Record OIDCClient := mkOIDCClient {
  AuthorizationURL : string -> string -> string -> string;
  Exchange : string -> string -> string -> result Claims
}.

(** [oidcclient.Client.Exchange]: the token endpoint answers with an ID token or
    without one, and [verify] is the verification of its signature, issuer,
    audience and expiry with the decoding of its claims. *)
Record IDToken := mkIDToken {
  IT_Subject : string; Nonce : string;
  raw_email : string; raw_email_verified : bool; raw_name : string; raw_picture : string
}.
Definition constantTimeEqual (left right : string) : bool :=
  if negb (len left =? len right) || (len left =? 0) then false else bool_decide (left = right).
Definition Claims_Validate (c : Claims) : result unit :=
  fail_if (is_blank (Subject c)) (Errorf "ID token subject is required");;
  fail_if (bool_decide (CL_Email c = ""%string) || negb (EmailVerified c)) (Errorf "a verified email is required").
Definition Client_Exchange (unicode_lower : string -> string) (token : string -> string -> result (option string)) (verify : string -> result IDToken)
    (code verifier expectedNonce : string) : result Claims :=
  rawIDToken ← wrap_err "exchange authorization code: %w" (token code verifier);
  match rawIDToken with
  | None => Err (Errorf "OIDC response did not contain an ID token")
  | Some rawIDToken =>
      fail_if (bool_decide (rawIDToken = ""%string)) (Errorf "OIDC response did not contain an ID token");;
      idToken ← wrap_err "verify ID token: %w" (verify rawIDToken);
      fail_if (negb (constantTimeEqual (Nonce idToken) expectedNonce)) (Errorf "ID token nonce did not match the login attempt");;
      let claims := mkClaims (IT_Subject idToken) (ToLower unicode_lower (TrimSpace (raw_email idToken))) (raw_email_verified idToken)
                      (TrimSpace (raw_name idToken)) (TrimSpace (raw_picture idToken)) in
      Claims_Validate claims;;
      Ok claims
  end.

(** ** cookies.go *)
Record cookieNames := mkCookieNames { session_ : string; csrf : string; attempt_ : string; invite : string; secure : bool }.
Definition namesFor (deployed : bool) : cookieNames :=
  if deployed then mkCookieNames "__Host-cabot_session" "__Host-cabot_csrf" "__Host-cabot_oidc" "__Host-cabot_invite" true
  else mkCookieNames "cabot_session" "cabot_csrf" "cabot_oidc" "cabot_invite" false.

(** A [Set-Cookie]: every cookie is [HttpOnly], [SameSite=Lax] and for the path
    [/]. *)
Record Cookie := mkCookie { ck_name : string; ck_value : string; Expires : Time; MaxAge : Z; Secure : bool }.

(** What the handler writes. *)
Record Response := mkResponse { status : Z; location : string; body : string; cookies : list Cookie }.
Definition StatusFound : Z := 302.
Definition StatusSeeOther : Z := 303.
Definition StatusBadRequest : Z := 400.
Definition StatusForbidden : Z := 403.
Definition StatusInternalServerError : Z := 500.
Definition StatusBadGateway : Z := 502.

Definition Values := gmap string (list string).
(** [url.Values.Get] *)
Definition Get (name : string) (v : Values) : string := default ""%string (head (default [] (v !! name))).
Record Request := mkRequest {
  rq_query : Values;
  rq_cookies : list (string * string);
  (** [r.ParseForm] under [http.MaxBytesReader], then [r.PostForm] *)
  rq_form : result Values
}.
(** [r.Cookie(name)] *)
Definition Request_Cookie (name : string) (r : Request) : option string :=
  snd <$> head (List.filter (fun c => bool_decide (c.1 = name)) (rq_cookies r)).

(** What a request finds around it: what [h.now()] and the session service's
    clock return to their n-th call, what the reads of 32 random bytes by the
    handler and by the service yield, and the provider. *)
Record Moment := mkMoment {
  web_clock : nat -> Time; service_clock : nat -> Time;
  web_random : nat -> result (list ascii); service_random : nat -> result (list ascii);
  oidc : OIDCClient
}.

Record Config := mkConfig { Deployed : bool; Acceptance : bool; LoginAttemptTTL : Z }.

(** [New]: the dependencies' presence and the configuration's check. *)
Definition New (config : Config) (hasDependencies : bool) : result Config :=
  fail_if (negb hasDependencies) (Errorf "authentication web dependencies must all be configured");;
  fail_if ((LoginAttemptTTL config <? Minute) || (30 * Minute <? LoginAttemptTTL config))
    (Errorf "login attempt TTL must be between 1 and 30 minutes");;
  Ok config.

(** [int(expires.Sub(now).Seconds())]: the division is exact in a [float64]
    for the lifetimes in use. *)
Definition max_age (expires now : Time) : Z := Z.max 1 (Z.quot (nanos expires - nanos now) Second).

Definition first (items : list string) : string := default ""%string (head items).
Definition oneValue (items : list string) (ok : bool) : option string :=
  if ok && (Z.of_nat (length items) =? 1) && (len (first items) <=? 4096) && negb (is_blank (first items)) then Some (first items) else None.
(** [oneQueryValue], [oneFormValue] *)
Definition oneQueryValue (v : Values) (name : string) : option string := oneValue (default [] (v !! name)) (bool_decide (is_Some (v !! name))).

Definition before_at (email : string) : string := of_bytes (cut_at 64 (bytes email)).1.1.
Definition normalizedDisplayName (name email : string) : string :=
  let name := TrimSpace name in
  let name := if bool_decide (name = ""%string) then TrimSpace (before_at email) else name in
  let name := if bool_decide (name = ""%string) then TrimSpace email else name in
  let runes := runes_of (bytes name) in
  if 120 <? Z.of_nat (length runes) then of_bytes (concat (take 120 runes)) else name.

Definition validInviteToken (token : string) : bool :=
  match DecodeString token with Some decoded => Z.of_nat (length decoded) =? 32 | None => false end.

(** [privateweb.Session] *)
Record WebSession := mkWebSession {
  WS_UserID : string; WS_DisplayName : string; WS_Role : Role; WS_Active : bool; WS_CSRFToken : string; WS_Acceptance : bool
}.
Definition ErrNoSession := Sentinel "privateweb.ErrNoSession".

(** Errors of the session service that mean there is no session. *)
Definition no_session_error (e : error) : bool :=
  errors_is "identity.ErrUnauthenticated" e || errors_is "identity.ErrSessionExpired" e || errors_is "identity.ErrSessionRevoked" e.

Section handler.
Context {S : Type} `{!AttemptStore S} `{!SessionStore S}.
Context (unicode_lower : string -> string) (ParseAddress : string -> option (string * string)).
Context (sha256 : list ascii -> Digest) (parse_host : list ascii -> option (list ascii)).
(** The configuration, and the lifetime of the service's sessions. *)
Context (config : Config) (lifetime : Z).
Implicit Types (m : Moment) (r : Request) (s : S).

Definition names : cookieNames := namesFor (Deployed config).
Definition setCookie (name value : string) (expires now : Time) : Cookie :=
  mkCookie name value expires (max_age expires now) (secure names).
(** [time.Unix(1, 0)] *)
Definition epoch_one : Time := mkTime 62135596801000000000 true.
Definition clearCookie (name : string) : Cookie := mkCookie name "" epoch_one (-1) (secure names).
Definition setSessionCookies (issued : IssuedSession) m (call : nat) : list Cookie :=
  [setCookie (session_ names) (Token issued) (ExpiresAt (IS_Session issued)) (UTC (web_clock m call));
   setCookie (csrf names) (CSRFSecret issued) (ExpiresAt (IS_Session issued)) (UTC (web_clock m (1 + call)))].
Definition clearSessionCookies : list Cookie := [clearCookie (session_ names); clearCookie (csrf names)].
Definition clearAttempt : list Cookie := [clearCookie (attempt_ names)].

Definition authError (cs : list Cookie) (code : Z) (message : string) : Response := mkResponse code "" message cs.
Definition internalError (cs : list Cookie) : Response := authError cs StatusInternalServerError "Unable to complete this request.".
Definition redirect (cs : list Cookie) (code : Z) (to_ : string) : Response := mkResponse code to_ "" cs.

(** The body is the link of the login page. *)
Definition showLogin r s : S * Response :=
  (s, mkResponse 200 "" (authStartURL (safeReturnPath parse_host (Get "next" (rq_query r)) defaultReturnPath)) []).

Definition acceptInvite m (token : string) s : S * Response :=
  if negb (validInviteToken token) then (s, authError [] StatusBadRequest "This invite link is not valid.")
  else (s, redirect [setCookie (invite names) token (TimeAdd (UTC (web_clock m 0)) (LoginAttemptTTL config)) (UTC (web_clock m 1))]
             StatusSeeOther (authStartURL defaultReturnPath)).

(** The attempt a request to start signing in creates. *)
Definition new_attempt m (next : string) (state nonce verifier : Secret) : LoginAttempt :=
  let now := Truncate (UTC (web_clock m 0)) Microsecond in
  mkLoginAttempt (HashState sha256 state) (HashNonce sha256 nonce) verifier next now (TimeAdd now (LoginAttemptTTL config)).

Definition startGoogle m r s : S * Response :=
  let next := safeReturnPath parse_host (Get "next" (rq_query r)) defaultReturnPath in
  match generateSecret (Some (web_random m 0)), generateSecret (Some (web_random m 1)), generateSecret (Some (web_random m 2)) with
  | Ok state, Ok nonce, Ok verifier =>
      if bool_decide (state = nonce) || bool_decide (state = verifier) || bool_decide (nonce = verifier) then (s, internalError [])
      else
        let attempt := new_attempt m next state nonce verifier in
        match Attempts_Create attempt s with
        | (s, Err _) => (s, internalError [])
        | (s, Ok _) =>
            let cs := [setCookie (attempt_ names) nonce (LA_ExpiresAt attempt) (UTC (web_clock m 1))] in
            let destination := AuthorizationURL (oidc m) state nonce verifier in
            match Parse parse_host (bytes destination) with
            | None => (s, internalError cs)
            | Some parsed =>
                if bool_decide (Host parsed = []) || (negb (bool_decide (Scheme parsed = bytes "https"))
                     && (Deployed config || negb (bool_decide (Scheme parsed = bytes "http"))))
                then (s, internalError cs)
                else (s, redirect cs StatusFound destination)
            end
        end
  | _, _, _ => (s, internalError [])
  end.

Definition invalid_response : string := "The sign-in response was invalid or expired.".

(** The sign-in of a verified identity, with the invitation in the cookie if
    there is one; which cookies that clears. *)
Definition complete_sign_in m r (verified : VerifiedIdentity) s : S * result IssuedSession * list Cookie :=
  match Request_Cookie (invite names) r with
  | Some inviteCookie =>
      if bool_decide (inviteCookie = ""%string)
      then (CompleteSignIn unicode_lower ParseAddress sha256 lifetime (service_clock m 0) (service_random m) verified s, [])
      else (CompleteSignInWithInvitation unicode_lower ParseAddress sha256 lifetime (service_clock m 0) (service_random m) verified inviteCookie s,
            [clearCookie (invite names)])
  | None => (CompleteSignIn unicode_lower ParseAddress sha256 lifetime (service_clock m 0) (service_random m) verified s, [])
  end.

Definition callback m r s : S * Response :=
  let refused := authError clearAttempt StatusBadRequest invalid_response in
  if negb (bool_decide (Get "error" (rq_query r) = ""%string))
  then (s, authError clearAttempt StatusBadRequest "Sign-in was not completed.")
  else
    match oneQueryValue (rq_query r) "state", oneQueryValue (rq_query r) "code" with
    | Some state, Some code =>
        match Request_Cookie (attempt_ names) r with
        | None => (s, refused)
        | Some nonceCookie =>
            match ParseSecret nonceCookie with
            | Err _ => (s, refused)
            | Ok nonce =>
                let now := Truncate (UTC (web_clock m 0)) Microsecond in
                match Attempts_Consume (HashState sha256 state) now s with
                | (s, Err err) =>
                    if errors_is "authweb.ErrInvalidLoginAttempt" err then (s, refused) else (s, internalError clearAttempt)
                | (s, Ok attempt) =>
                    if negb (AttemptHash_Equal (CA_NonceHash attempt) (HashNonce sha256 nonce)) then (s, refused)
                    else
                      match Exchange (oidc m) code (CA_PKCEVerifier attempt) nonce with
                      | Err _ => (s, authError clearAttempt StatusBadGateway "The identity provider could not complete sign-in.")
                      | Ok claims =>
                          let verified := mkVerifiedIdentity "google" (Subject claims) (CL_Email claims) (EmailVerified claims)
                                            (normalizedDisplayName (CL_DisplayName claims) (CL_Email claims)) in
                          match complete_sign_in m r verified s with
                          | (s, Err err, cs) =>
                              if errors_is "identity.ErrSignInNotAllowed" err
                              then (s, authError (clearAttempt ++ cs) StatusForbidden
                                         "This account has not been approved for the private book. If you have an invite link, open it again.")
                              else (s, internalError (clearAttempt ++ cs))
                          | (s, Ok issued, cs) =>
                              (s, redirect (clearAttempt ++ cs ++ setSessionCookies issued m 1) StatusSeeOther (CA_ReturnPath attempt))
                          end
                      end
                end
            end
        end
    | _, _ => (s, refused)
    end.

Definition logout m r s : S * Response :=
  let refused cs := authError cs StatusForbidden "The sign-out request was invalid." in
  match rq_form r with
  | Err _ => (s, authError [] StatusBadRequest "The sign-out request was invalid.")
  | Ok form =>
      match oneQueryValue form "csrf_token" with
      | None => (s, refused [])
      | Some presented =>
          match Request_Cookie (session_ names) r with
          | None => (s, refused clearSessionCookies)
          | Some sessionCookie =>
              match Resume unicode_lower ParseAddress sha256 (service_clock m 0) sessionCookie s with
              | (s, Err err) => if no_session_error err then (s, refused clearSessionCookies) else (s, internalError [])
              | (s, Ok authenticated) =>
                  if negb (is_Ok (ValidateCSRF sha256 (AS_Session authenticated) presented)) then (s, refused [])
                  else
                    match Revoke sha256 (service_clock m 1) sessionCookie "user signed out" s with
                    | (s, Err err) =>
                        if errors_is "identity.ErrUnauthenticated" err then (s, redirect clearSessionCookies StatusSeeOther "/")
                        else (s, internalError [])
                    | (s, Ok _) => (s, redirect clearSessionCookies StatusSeeOther "/")
                    end
              end
          end
      end
  end.

(** [SessionReader.CurrentSession] *)
Definition CurrentSession m r s : S * result WebSession :=
  match Request_Cookie (session_ names) r, Request_Cookie (csrf names) r with
  | Some tokenCookie, Some csrfCookie =>
      match Resume unicode_lower ParseAddress sha256 (service_clock m 0) tokenCookie s with
      | (s, Err err) => (s, Err (if no_session_error err then ErrNoSession else err))
      | (s, Ok authenticated) =>
          if negb (is_Ok (ValidateCSRF sha256 (AS_Session authenticated) csrfCookie)) then (s, Err ErrNoSession)
          else
            let user := Principal_User (AS_Principal authenticated) in
            (s, Ok (mkWebSession (User_ID user) (User_DisplayName user) (Mem_Role (Principal_Membership (AS_Principal authenticated))) true
                      csrfCookie (Acceptance config)))
      end
  | _, _ => (s, Err ErrNoSession)
  end.

(** [devLogin], in builds with the [dev] tag only. *)
Definition devLogin m r s : S * Response :=
  match rq_form r with
  | Err _ => (s, authError [] StatusBadRequest "The dev-login form could not be read.")
  | Ok form =>
      match NormalizeEmail unicode_lower ParseAddress (Get "email" form) with
      | Err _ => (s, authError [] StatusBadRequest "Enter a valid email that has been seeded and approved.")
      | Ok email =>
          let display := normalizedDisplayName (TrimSpace (Get "display_name" form)) email in
          match complete_sign_in m r (mkVerifiedIdentity "google" ("dev|" ++ email) email true display) s with
          | (s, Err _, cs) =>
              (s, authError cs StatusForbidden
                    "That account is not approved in the connected database. Seed it, or open a valid invite link first.")
          | (s, Ok issued, cs) => (s, redirect (cs ++ setSessionCookies issued m 0) StatusSeeOther "/book")
          end
      end
  end.

(** The routes of a production build, by method and path. *)
Inductive route := GetLogin | GetInvite (token : string) | GetGoogle | GetCallback | PostLogout.
Definition ServeHTTP (to_ : route) m r s : S * Response :=
  match to_ with
  | GetLogin => showLogin r s
  | GetInvite token => acceptInvite m token s
  | GetGoogle => startGoogle m r s
  | GetCallback => callback m r s
  | PostLogout => logout m r s
  end.
End handler.
