(* ===== verification/AuthWebDB.v ===== *)
(** * The sign-in pages over PostgreSQL

    [PostgresAttemptStore] of internal/authweb/attempts.go over the table of
    migration 000002, and the database the sign-in handlers run on: that table
    beside the identity store's. *)
From S2P Require Import Prelude GoStrings GoTime Float64 SQL Keeping Identity Base64 Session IdentityDB Url AuthWeb.

Record AttemptRow := mkAttemptRow {
  at_state : AttemptHash; at_nonce : AttemptHash; at_verifier : string; at_return : string;
  at_created : Time; at_expires : Time; at_consumed : option Time
}.
Record WebDB := mkWebDB { web_attempts : list AttemptRow; web_ids : IdDB }.
Definition with_attempts x d := mkWebDB x (web_ids d).
Definition with_ids x d := mkWebDB (web_attempts d) x.

Definition at_live (row : AttemptRow) : bool := bool_decide (at_consumed row = None).
Definition maxActiveAttempts : Z := 10000.

Section attempts_store.
Context {E : environment}.
Context (parse_host : list ascii -> option (list ascii)).
#[local] Abbreviation go := (SQL.go WebDB).

Definition no_attempts_pool : error := Errorf "OIDC login attempt PostgreSQL pool is required".

(** [expires_at < now() - interval '1 hour' OR consumed_at < now() - interval '1 hour'] *)
Definition attempt_stale (now : Time) (row : AttemptRow) : bool :=
  (nanos (at_expires row) <? nanos now - Hour)
  || match at_consumed row with Some t => nanos t <? nanos now - Hour | None => false end.

(** The table's constraints. *)
Definition row_checks (row : AttemptRow) : bool :=
  (32 <=? length (at_state row))%nat && (32 <=? length (at_nonce row))%nat
  && (43 <=? RuneCountInString (at_verifier row)) && (RuneCountInString (at_verifier row) <=? 128)
  && (1 <=? RuneCountInString (at_return row)) && (RuneCountInString (at_return row) <=? 2048)
  && has_prefix [slash] (bytes (at_return row)) && negb (has_prefix [slash; slash] (bytes (at_return row)))
  && negb (existsb (fun a => byte_is 10 a || byte_is 13 a) (bytes (at_return row)))
  && (nanos (at_created row) <? nanos (at_expires row)).
Definition insert_attempt (row : AttemptRow) (d : WebDB) : result WebDB :=
  fail_if (negb (row_checks row)) (Errorf "violates check constraint");;
  fail_if (existsb (fun r => bool_decide (at_state r = at_state row)) (web_attempts d))
    (Errorf "duplicate key value violates unique constraint");;
  Ok (with_attempts (web_attempts d ++ [row]) d).
Definition attempt_row (a : LoginAttempt) : AttemptRow :=
  mkAttemptRow (StateHash a) (NonceHash a) (PKCEVerifier a) (ReturnPath a) (timestamptz (LA_CreatedAt a)) (timestamptz (LA_ExpiresAt a)) None.

Definition PostgresAttemptStore_Create (pool : bool) (attempt : LoginAttempt) : go unit :=
  if negb pool then failing no_attempts_pool
  else
    lift (wrap_err "validate OIDC login attempt: %w" (LoginAttempt_validate parse_host attempt));;
    statement "clean up OIDC login attempts: %w" (fun n d =>
      Ok (with_attempts (List.filter (fun row => negb (attempt_stale (timestamptz (clock n)) row)) (web_attempts d)) d, ()));;
    inserted ← statement "create OIDC login attempt: %w" (fun n d =>
      let now := timestamptz (clock n) in
      if Z.of_nat (length (List.filter (fun row => at_live row && (nanos now <? nanos (at_expires row))) (web_attempts d))) <? maxActiveAttempts
      then d' ← insert_attempt (attempt_row attempt) d; Ok (d', true)
      else Ok (d, false));
    if inserted : bool then mret () else failing (Errorf "create OIDC login attempt: active attempt capacity reached").

(** [WHERE state_hash = $1 AND consumed_at IS NULL AND expires_at > $2] *)
Definition consumable (h : AttemptHash) (now : Time) (row : AttemptRow) : bool :=
  bool_decide (at_state row = h) && at_live row && (nanos now <? nanos (at_expires row)).
Definition consume_row (now : Time) (row : AttemptRow) : AttemptRow :=
  mkAttemptRow (at_state row) (at_nonce row) (at_verifier row) (at_return row) (at_created row) (at_expires row) (Some now).

Definition PostgresAttemptStore_Consume (pool : bool) (stateHash : AttemptHash) (now : Time) : go ConsumedAttempt :=
  if negb pool then failing no_attempts_pool
  else if AttemptHash_Equal stateHash zeroHash || IsZero now then failing ErrInvalidLoginAttempt
  else
    found ← statement "consume OIDC login attempt: %w" (fun _ d =>
      let at_ := timestamptz now in
      match List.filter (consumable stateHash at_) (web_attempts d) with
      | [] => Ok (d, None)
      | row :: _ =>
          fail_if (nanos at_ <? nanos (at_created row)) (Errorf "violates check constraint");;
          Ok (with_attempts (map (fun r => if consumable stateHash at_ r then consume_row at_ r else r) (web_attempts d)) d, Some row)
      end);
    match found with
    | None => failing ErrInvalidLoginAttempt
    | Some row =>
        if negb (length (at_nonce row) =? 32)%nat then failing (Errorf "consume OIDC login attempt: invalid nonce hash")
        else if pkce_length_bad (at_verifier row) || negb (bool_decide (safeReturnPath parse_host (at_return row) "" = at_return row))
                || is_blank (at_return row)
        then failing (Errorf "consume OIDC login attempt: invalid stored values")
        else mret (mkConsumedAttempt (at_nonce row) (at_verifier row) (at_return row))
    end.

#[export] Instance pg_attempts (pool : bool) : AttemptStore (SQL.session WebDB) := {|
  Attempts_Create := PostgresAttemptStore_Create pool;
  Attempts_Consume := PostgresAttemptStore_Consume pool
|}.
End attempts_store.

(** ** Both packages on one database *)

(** An operation of the identity store. *)
Definition on_ids {A} (f : SQL.session IdDB -> SQL.session IdDB * A) (s : SQL.session WebDB) : SQL.session WebDB * A :=
  let '(s', r) := f (SQL.mkSession (web_ids (db s)) (tick s)) in
  (SQL.mkSession (with_ids (db s') (db s)) (tick s'), r).

Definition web_sessions (ids : SessionStore (SQL.session IdDB)) : SessionStore (SQL.session WebDB) := {|
  CreateSessionForIdentity who draft := on_ids (CreateSessionForIdentity who draft);
  CreateSessionForInvitedIdentity who draft token := on_ids (CreateSessionForInvitedIdentity who draft token);
  UseSession h now := on_ids (UseSession h now);
  RotateSession h draft now reason := on_ids (RotateSession h draft now reason);
  RevokeSession h now reason := on_ids (RevokeSession h now reason)
|}.
