(* ===== verification/AuthWebProps.v ===== *)
(** * Signing in: what the browser flow guarantees

    Where a redirect may lead, what a session is issued for, and that an
    attempt is good for one sign-in.  The handlers run over the PostgreSQL
    attempt store and over any session store. *)
From S2P Require Import Prelude GoStrings GoTime Float64 SQL Keeping Identity Base64 Session IdentityDB Url AuthWeb AuthWebDB.

(** ** Return paths *)
Lemma existsb_false_elem {A} (p : A -> bool) l : existsb p l = false <-> forall a, a ∈ l -> p a = false.
Proof.
  split.
  - intros H a Ha. destruct (p a) eqn:E; [|done]. rewrite <- H. symmetry. apply existsb_exists. exists a. by rewrite <- list_elem_of_In.
  - intros H. destruct (existsb p l) eqn:E; [|done]. apply existsb_exists in E as (a & Ha%list_elem_of_In & Hp). by rewrite H in Hp.
Qed.

Section return_paths.
Context (parse_host : list ascii -> option (list ascii)).
#[local] Abbreviation safe := (safeReturnPath parse_host).

Definition accepted (candidate : string) (u : URL) : Prop :=
  candidate <> ""%string /\ len candidate <= 2048 /\ (forall a, a ∈ bytes candidate -> unsafe_byte a = false)
  /\ Parse parse_host (bytes candidate) = Some u /\ same_site u /\ contains 92 (Path u) = false.

Lemma safeReturnPath_cases candidate fallback :
  (exists u, accepted candidate u /\ safe candidate fallback = of_bytes (RequestURI u))
  \/ ((forall u, ~ accepted candidate u) /\ safe candidate fallback = if bool_decide (fallback = ""%string) then defaultReturnPath else fallback).
Proof.
  unfold safeReturnPath, accepted. destruct (bool_decide (candidate = ""%string) || (2048 <? len candidate) || existsb unsafe_byte (bytes candidate)) eqn:E1.
  { right. split; [|done]. intros u (H1 & H2 & H3 & _). apply orb_true_iff in E1 as [[E1|E1]%orb_true_iff|E1]; bool_prop; [done|lia|].
    by rewrite (proj2 (existsb_false_elem _ _) H3) in E1. }
  apply orb_false_elim in E1 as [[E1 E2]%orb_false_elim E3]. bool_prop. rewrite existsb_false_elem in E3.
  destruct (Parse parse_host (bytes candidate)) as [u|] eqn:Eu; [|right; split; [by intros u (_ & _ & _ & ? & _)|done]].
  unfold IsAbs. destruct (_ || contains 92 (Path u)) eqn:E4.
  - right. split; [|done]. intros u' (_ & _ & _ & [= <-] & [Hs Ho Hh Hf [Hp1 Hp2]] & Hb).
    rewrite Hs, Ho, Hh, Hf, Hp1, Hp2, Hb, !(bool_decide_true ([] = [])) in E4 by done. done.
  - left. repeat (apply orb_false_elim in E4 as [E4 ?]). bool_prop. exists u. by repeat split.
Qed.

Lemma unsafe_special a : unsafe_byte a = true -> byte_is 92 a = true \/ ctl_byte a = true.
Proof.
  intros H. enough (negb (unsafe_byte a) || byte_is 92 a || ctl_byte a = true) as Hk.
  { rewrite H in Hk. cbn in Hk. by apply orb_true_iff. }
  clear H. revert a. apply each_byte. by vm_compute.
Qed.

Lemma accepted_default : exists u, accepted defaultReturnPath u /\ of_bytes (RequestURI u) = defaultReturnPath.
Proof.
  exists (mkURL [] [] [] (bytes "/book") [] false [] []). split; [|done]. split_and!; try done.
  apply existsb_false_elem. by vm_compute.
Qed.

Lemma printed_accepted candidate u :
  accepted candidate u -> len (of_bytes (RequestURI u)) <= 2048 -> exists v, accepted (of_bytes (RequestURI u)) v /\ RequestURI v = RequestURI u.
Proof.
  intros (_ & _ & Hun & Hp & Hs & Hb) Hlen. destruct (Parse_RequestURI _ _ _ Hp Hs) as (v & Hv & Hvs & Hpath & _ & Hr & Hin & Hctl & Hst).
  exists v. split; [|done]. split_and!; rewrite ?bytes_of_bytes; try done.
  - intros Hn. apply of_bytes_nil in Hn. by rewrite Hn in Hst.
  - intros a Ha. destruct (unsafe_byte a) eqn:E; [|done]. destruct (Hin _ Ha) as [Hpl|[Hc| ->]].
    + unfold plain_path in Hpl. apply negb_true_iff in Hpl. apply orb_false_elim in Hpl as [[_ H1]%orb_false_elim H2].
      apply unsafe_special in E as [?|?]; congruence.
    + by rewrite Hun in E.
    + done.
  - by rewrite Hpath.
Qed.

Lemma safe_printed candidate : exists c u, accepted c u /\ safe candidate defaultReturnPath = of_bytes (RequestURI u) /\ (c = candidate \/ c = defaultReturnPath).
Proof.
  destruct (safeReturnPath_cases candidate defaultReturnPath) as [(u & Hu & ->)|[_ ->]]; [exists candidate, u; auto|].
  destruct accepted_default as (u & Hu & Hd). exists defaultReturnPath, u. auto.
Qed.

(** Sign-in never leads off the site.  Whatever [next] a link carries, the
    return path that is stored and redirected to is a reference without scheme,
    host, opaque part or fragment whose decoded path starts with a single slash
    and holds no backslash; it contains no control byte; and read again it is
    unchanged, the condition for storing an attempt, exactly if it is no longer
    than 2048 bytes. *)
Theorem return_paths_stay_on_site candidate :
  let p := safe candidate defaultReturnPath in
  (exists u, Parse parse_host (bytes p) = Some u /\ same_site u /\ contains 92 (Path u) = false)
  /\ existsb ctl_byte (bytes p) = false
  /\ (safe p "" = p <-> len p <= 2048).
Proof.
  cbv zeta. destruct (safe_printed candidate) as (c & u & Hu & Hp & _). rewrite Hp. pose proof Hu as (_ & _ & _ & Hparse & Hs & Hb).
  destruct (Parse_RequestURI _ _ _ Hparse Hs) as (v & Hv & Hvs & Hpath & _ & _ & _ & Hctl & _). rewrite bytes_of_bytes. split_and!.
  - exists v. by rewrite Hpath.
  - done.
  - destruct (safeReturnPath_cases (of_bytes (RequestURI u)) "") as [(w & Hw & ->)|[Hno Hd]].
    + split; [intros _; apply Hw|]. intros _. destruct Hw as (_ & Hl & _ & Hw & _). destruct (printed_accepted _ _ Hu Hl) as (v' & (_ & _ & _ & Hv' & _) & Hr).
      assert (w = v') as -> by congruence. by rewrite Hr.
    + split.
      * rewrite Hd. cbn. intros H. rewrite <- H. by vm_compute.
      * intros Hl. destruct (printed_accepted _ _ Hu Hl) as (v' & Hv' & _). by destruct (Hno v').
Qed.
End return_paths.

(** ** The attempts of a run *)

(** The rows of [rows'] are rows of [rows], some of them consumed since, or
    [new]; a consumed row is never live again. *)
Definition same_attempt (row row' : AttemptRow) : Prop :=
  at_state row' = at_state row /\ at_nonce row' = at_nonce row /\ at_verifier row' = at_verifier row /\ at_return row' = at_return row
  /\ at_created row' = at_created row /\ at_expires row' = at_expires row /\ (at_live row' = true -> at_live row = true).
Record evolves (new rows rows' : list AttemptRow) : Prop := {
  ev_from row' : row' ∈ rows' -> (exists row, row ∈ rows /\ same_attempt row row') \/ (exists row, row ∈ new /\ same_attempt row row');
  ev_unique : NoDup (at_state <$> rows) -> NoDup (at_state <$> rows')
}.

#[export] Instance same_attempt_refl : Reflexive same_attempt.
Proof. by intros row; repeat split. Qed.
#[export] Instance same_attempt_trans : Transitive same_attempt.
Proof. intros x y z (?&?&?&?&?&?&?) (?&?&?&?&?&?&?). repeat split; try congruence. auto. Qed.

Lemma attempts_evolve_refl rows : evolves [] rows rows.
Proof. split; [|done]. intros row H. left. by exists row. Qed.
Lemma attempts_evolve_trans n1 n2 r1 r2 r3 : evolves n1 r1 r2 -> evolves n2 r2 r3 -> evolves (n1 ++ n2) r1 r3.
Proof.
  intros [F1 U1] [F2 U2]. split; [|auto]. intros row [(x & Hx & Hxr)|(x & Hx & Hxr)]%F2.
  - destruct (F1 _ Hx) as [(y & Hy & Hyx)|(y & Hy & Hyx)]; [left|right]; exists y; (split; [set_solver|by etrans]).
  - right. exists x. split; [set_solver|done].
Qed.
Lemma evolves_more n1 n2 r r' : n1 ⊆ n2 -> evolves n1 r r' -> evolves n2 r r'.
Proof. intros Hn [F U]. split; [|done]. intros row [?|(x & Hx & ?)]%F; [by left|right; exists x; set_solver]. Qed.

(** No attempt with this state can be consumed. *)
Definition spent (h : AttemptHash) (rows : list AttemptRow) : Prop := forall row, row ∈ rows -> at_state row = h -> at_live row = false.
Lemma evolves_spent new rows rows' h : evolves new rows rows' -> (forall row, row ∈ new -> at_state row <> h) -> spent h rows -> spent h rows'.
Proof.
  intros [F _] Hn Hs row Hr He. destruct (F _ Hr) as [(x & Hx & Hsame)|(x & Hx & Hsame)].
  - destruct (at_live row) eqn:El; [|done]. destruct Hsame as (Heq & _ & _ & _ & _ & _ & Hl). rewrite <- (Hs x Hx); [symmetry; by apply Hl|congruence].
  - destruct (Hn x Hx). by destruct Hsame as [<- _].
Qed.

Definition grows (new : list AttemptRow) : relation WebDB := fun d d' => evolves new (web_attempts d) (web_attempts d').
#[export] Instance grows_po new : PreOrder (grows new).
Proof.
  split.
  - intros d. apply (evolves_more []); [set_solver|apply attempts_evolve_refl].
  - intros d1 d2 d3 H1 H2. eapply (evolves_more (new ++ new)); [set_solver|by eapply attempts_evolve_trans].
Qed.
#[local] Hint Resolve grows_po : keeps.

Lemma fmap_NoDup_inj {A B} (f : A -> B) l x y : NoDup (f <$> l) -> x ∈ l -> y ∈ l -> f x = f y -> x = y.
Proof.
  intros Hd [i Hi]%list_elem_of_lookup [j Hj]%list_elem_of_lookup Hf. enough (i = j) by congruence.
  eapply NoDup_lookup; [exact Hd|by rewrite list_lookup_fmap, Hi|by rewrite list_lookup_fmap, Hj, Hf].
Qed.
Lemma filter_evolves p rows : evolves [] rows (List.filter p rows).
Proof.
  split; [|apply NoDup_fmap_filter]. intros row [Hr _]%filter_bool_elem. left. by exists row.
Qed.
Lemma map_evolves f rows : (forall row, row ∈ rows -> same_attempt row (f row)) -> evolves [] rows (map f rows).
Proof.
  intros Hf. split.
  - intros row (x & <- & Hx%list_elem_of_In)%list_elem_of_In%in_map_iff. left. exists x. auto.
  - enough (at_state <$> map f rows = at_state <$> rows) as -> by done. induction rows as [|x l IH]; [done|]. cbn.
    rewrite IH; [|intros y Hy; apply Hf; by right]. f_equal. by apply (Hf x ltac:(left)).
Qed.
Lemma insert_evolves row rows : existsb (fun r => bool_decide (at_state r = at_state row)) rows = false -> evolves [row] rows (rows ++ [row]).
Proof.
  intros Hnew. split.
  - intros x [Hx|Hx%list_elem_of_singleton]%elem_of_app; [left; by exists x|right; exists row; subst; split; [left|done]].
  - intros Hd. rewrite fmap_app. apply NoDup_app. split_and!; [done| |apply NoDup_singleton].
    intros h (x & -> & Hx)%list_elem_of_fmap Hin%list_elem_of_singleton. rewrite existsb_false_elem in Hnew. specialize (Hnew _ Hx). by bool_prop.
Qed.

Section store.
Context {E : environment} (parse_host : list ascii -> option (list ascii)) (pool : bool).
Implicit Types (s : SQL.session WebDB).

Lemma keeps_Create a : Keeping.keeps (grows [attempt_row a]) (PostgresAttemptStore_Create parse_host pool a).
Proof.
  unfold PostgresAttemptStore_Create. keeps; apply keeps_statement; try apply _.
  - intros n d d' u [= <- _]. apply (evolves_more []); [set_solver|apply filter_evolves].
  - intros n d d' inserted. destruct (_ <? maxActiveAttempts); [|by intros [= <- _]]. unfold insert_attempt. intros H. go_inv.
    apply insert_evolves. by bool_prop.
Qed.
Lemma Create_Ok a s s' u : PostgresAttemptStore_Create parse_host pool a s = (s', Ok u) -> LoginAttempt_validate parse_host a = Ok ().
Proof.
  unfold PostgresAttemptStore_Create. destruct pool; [|by intros ?%failing_run]. cbn [negb].
  intros (v & s1 & [_ Hv]%lift_run & _)%bind_run. unfold wrap_err in Hv. destruct (LoginAttempt_validate parse_host a) as [[]|]; done.
Qed.

Lemma consume_same h at_ row : same_attempt row (if consumable h at_ row then consume_row at_ row else row).
Proof. destruct (consumable h at_ row); [by repeat split|done]. Qed.
Lemma keeps_Consume h now : Keeping.keeps (grows []) (PostgresAttemptStore_Consume parse_host pool h now).
Proof.
  unfold PostgresAttemptStore_Consume. keeps. apply keeps_statement; [apply _|].
  intros n d d' found H. destruct (List.filter _ _) as [|row l]; [by injection H as <- _|]. go_inv. simplify_eq.
  apply map_evolves. intros x _. apply consume_same.
Qed.
Lemma Consume_Ok h now s s' ca : PostgresAttemptStore_Consume parse_host pool h now s = (s', Ok ca) ->
  NoDup (at_state <$> web_attempts (db s)) ->
  exists row, row ∈ web_attempts (db s) /\ consumable h (timestamptz now) row = true
    /\ ca = mkConsumedAttempt (at_nonce row) (at_verifier row) (at_return row)
    /\ safeReturnPath parse_host (at_return row) "" = at_return row /\ spent h (web_attempts (db s')).
Proof.
  unfold PostgresAttemptStore_Consume. destruct pool; [|by intros ?%failing_run]. cbn [negb].
  destruct (_ || _); [by intros ?%failing_run|]. intros (found & s1 & (n & H1)%statement_run & H)%bind_run Hd.
  destruct found as [row|]; [|by apply failing_run in H]. destruct (negb _); [by apply failing_run in H|].
  destruct (pkce_length_bad _ || _ || _) eqn:Ebad; [by apply failing_run in H|]. apply ret_run in H as [-> [= ->]].
  destruct (List.filter _ _) as [|row' l] eqn:El; [done|]. go_inv. simplify_eq.
  assert (Hrow : row ∈ List.filter (consumable h (timestamptz now)) (web_attempts (db s))) by (rewrite El; left).
  apply filter_bool_elem in Hrow as [Hin Hc]. exists row. apply orb_false_elim in Ebad as [[_ Ebad]%orb_false_elim _]. bool_prop.
  split_and!; try done. match goal with H : with_attempts _ _ = _ |- _ => rewrite <- H end. cbn.
  intros x (y & <- & Hy%list_elem_of_In)%list_elem_of_In%in_map_iff Hx. destruct (consumable h (timestamptz now) y) eqn:Ey; [done|].
  exfalso. pose proof Hc as Hc2. unfold consumable in Hc2. apply andb_prop in Hc2 as [[Hh _]%andb_prop _]. bool_prop.
  assert (y = row) as -> by (eapply (fmap_NoDup_inj at_state); [exact Hd|done|done|congruence]).
  congruence.
Qed.
End store.

(** ** Runs of the sign-in pages *)
Section flow.
Context {E : environment} (pool : bool) (ids : SessionStore (SQL.session IdDB)).
Context (unicode_lower : string -> string) (ParseAddress : string -> option (string * string)).
Context (sha256 : list ascii -> Digest) (parse_host : list ascii -> option (list ascii)) (config : Config) (lifetime : Z).
Implicit Types (s : SQL.session WebDB) (m : Moment) (r : Request).
#[local] Instance flow_attempts : AttemptStore (SQL.session WebDB) := pg_attempts parse_host pool.
#[local] Instance flow_sessions : SessionStore (SQL.session WebDB) := web_sessions ids.
#[local] Abbreviation serve := (ServeHTTP unicode_lower ParseAddress sha256 parse_host config lifetime).
#[local] Abbreviation answer_callback := (callback unicode_lower ParseAddress sha256 config lifetime).
#[local] Abbreviation safe := (safeReturnPath parse_host).

(** A request: when, where to and what. *)
Definition web_request : Type := Moment * route * Request.
Definition web_perform s (w : web_request) : SQL.session WebDB := (serve w.1.2 w.1.1 w.2 s).1.
Definition web_run (ws : list web_request) s : SQL.session WebDB := foldl web_perform s ws.

(** The attempts a request may create. *)
Definition started (w : web_request) : list AttemptRow :=
  match w.1.2 with
  | GetGoogle =>
      match generateSecret (Some (web_random w.1.1 0)), generateSecret (Some (web_random w.1.1 1)), generateSecret (Some (web_random w.1.1 2)) with
      | Ok state, Ok nonce, Ok verifier =>
          [attempt_row (new_attempt sha256 config w.1.1 (safe (Get "next" (rq_query w.2)) defaultReturnPath) state nonce verifier)]
      | _, _, _ => []
      end
  | _ => []
  end.

(** A response that signs the browser in. *)
Definition issues (resp : Response) : Prop :=
  exists c, c ∈ cookies resp /\ ck_name c = session_ (names config) /\ 0 < MaxAge c.

Lemma on_ids_attempts {A} (f : SQL.session IdDB -> SQL.session IdDB * A) s : web_attempts (db (on_ids f s).1) = web_attempts (db s).
Proof. unfold on_ids. by destruct (f _). Qed.

Lemma complete_sign_in_attempts m r who s :
  web_attempts (db (complete_sign_in unicode_lower ParseAddress sha256 config lifetime m r who s).1.1) = web_attempts (db s).
Proof.
  assert (Hc : web_attempts (db (CompleteSignIn unicode_lower ParseAddress sha256 lifetime (service_clock m 0) (service_random m) who s).1) = web_attempts (db s)).
  { unfold CompleteSignIn. destruct (VerifiedIdentity_Validate _ _ who); [|done]. destruct (newDraft _ _ _ _) as [[[token csrf] draft]|]; [|done].
    cbn [CreateSessionForIdentity flow_sessions web_sessions]. rewrite <- (on_ids_attempts (CreateSessionForIdentity who draft) s).
    by destruct (on_ids _ s). }
  assert (Hi : forall token, web_attempts (db (CompleteSignInWithInvitation unicode_lower ParseAddress sha256 lifetime (service_clock m 0) (service_random m) who token s).1)
                = web_attempts (db s)).
  { intros invitation. unfold CompleteSignInWithInvitation. destruct (VerifiedIdentity_Validate _ _ who); [|done].
    destruct (newDraft _ _ _ _) as [[[token csrf] draft]|]; [|done]. cbn [CreateSessionForInvitedIdentity flow_sessions web_sessions].
    rewrite <- (on_ids_attempts (CreateSessionForInvitedIdentity who draft invitation) s). by destruct (on_ids _ s). }
  unfold complete_sign_in. destruct (Request_Cookie _ r) as [token|]; [case_bool_decide|]; cbn [fst snd]; auto.
Qed.

Lemma logout_attempts m r s : web_attempts (db (logout unicode_lower ParseAddress sha256 config m r s).1) = web_attempts (db s).
Proof.
  unfold logout. destruct (rq_form r); [|done]. destruct (oneQueryValue _ _); [|done]. destruct (Request_Cookie _ r) as [token|]; [|done].
  assert (Hr : web_attempts (db (Resume unicode_lower ParseAddress sha256 (service_clock m 0) token s).1) = web_attempts (db s)).
  { unfold Resume. destruct (ParseSecret token); [|done]. cbn [UseSession flow_sessions web_sessions].
    rewrite <- (on_ids_attempts (UseSession (HashSessionToken sha256 a0) (Truncate (UTC (service_clock m 0)) Microsecond)) s). by destruct (on_ids _ s). }
  destruct (Resume _ _ _ _ _ s) as [s1 [auth|err]]; cbn [fst] in Hr; [|by destruct (no_session_error err)].
  destruct (negb _); [done|]. rewrite <- Hr.
  assert (Hv : web_attempts (db (Revoke sha256 (service_clock m 1) token "user signed out" s1).1) = web_attempts (db s1)).
  { unfold Revoke. destruct (ParseSecret token); [|done]. case_bool_decide; [done|]. apply on_ids_attempts. }
  destruct (Revoke _ _ _ _ s1) as [s2 [u|err]]; cbn [fst] in Hv; [done|]. by destruct (errors_is _ err).
Qed.

Lemma startGoogle_grows m r s : grows (started (m, GetGoogle, r)) (db s) (db (startGoogle sha256 parse_host config m r s).1).
Proof.
  unfold startGoogle, started. cbn [fst snd]. destruct (generateSecret _) as [state|]; [|done]. destruct (generateSecret _) as [nonce|]; [|done].
  destruct (generateSecret _) as [verifier|]; [|done]. destruct (_ || _); [done|]. cbn [Attempts_Create flow_attempts pg_attempts].
  destruct (PostgresAttemptStore_Create _ _ _ s) as [s1 [u|e]] eqn:Ec; apply keeps_Create in Ec; [|exact Ec].
  destruct (Parse _ _); [|exact Ec]. by destruct (bool_decide (Host _ = []) || _).
Qed.

Lemma callback_grows m r s : grows [] (db s) (db (answer_callback m r s).1).
Proof.
  unfold callback. destruct (negb _); [done|]. destruct (oneQueryValue _ "state") as [state|]; [|done]. destruct (oneQueryValue _ "code") as [code|]; [|done].
  destruct (Request_Cookie _ r) as [nonce|]; [|done]. destruct (ParseSecret nonce) as [n|]; [|done].
  cbn [Attempts_Consume flow_attempts pg_attempts].
  destruct (PostgresAttemptStore_Consume _ _ _ _ s) as [s1 [attempt|e]] eqn:Ec; apply keeps_Consume in Ec; [|by destruct (errors_is _ e)].
  destruct (negb _); [done|]. destruct (Exchange _ _ _ _) as [claims|]; [|done].
  match goal with |- context [complete_sign_in ?a ?b ?c ?d ?e m r ?who s1] =>
    pose proof (complete_sign_in_attempts m r who s1) as Hf; destruct (complete_sign_in a b c d e m r who s1) as [[s2 [issued|err]] cs] end;
    cbn [fst] in Hf; unfold grows in *.
  - cbn [fst]. by rewrite Hf.
  - destruct (errors_is _ err); cbn [fst]; by rewrite Hf.
Qed.

Lemma serve_grows w s : grows (started w) (db s) (db (web_perform s w)).
Proof.
  destruct w as [[m []] r]; unfold web_perform; cbn [ServeHTTP fst snd].
  - done.
  - unfold acceptInvite. by destruct (negb _).
  - apply startGoogle_grows.
  - apply callback_grows.
  - unfold grows. rewrite logout_attempts. apply attempts_evolve_refl.
Qed.
Lemma web_run_evolves ws s : evolves (ws ≫= started) (web_attempts (db s)) (web_attempts (db (web_run ws s))).
Proof.
  revert s. induction ws as [|w ws IH]; intros s; [apply attempts_evolve_refl|]. cbn [mbind list_bind]. eapply attempts_evolve_trans; [apply serve_grows|apply IH].
Qed.

(** ** What a session is issued for *)
Lemma session_cookie_name : session_ (names config) <> attempt_ (names config) /\ session_ (names config) <> invite (names config).
Proof. unfold names, namesFor. by destruct (Deployed config). Qed.
Lemma cleared_not_issued resp : (forall c, c ∈ cookies resp -> MaxAge c = -1) -> ~ issues resp.
Proof. intros H (c & Hc & _ & Hm). rewrite (H c Hc) in Hm. lia. Qed.
Lemma sign_in_cookies m r who s c : c ∈ (complete_sign_in unicode_lower ParseAddress sha256 config lifetime m r who s).2 -> MaxAge c = -1.
Proof.
  unfold complete_sign_in. destruct (Request_Cookie _ r); [case_bool_decide|]; cbn; rewrite ?elem_of_nil; try done.
  by intros ->%list_elem_of_singleton.
Qed.
Lemma clearAttempt_cleared c : c ∈ clearAttempt config -> MaxAge c = -1.
Proof. by intros ->%list_elem_of_singleton. Qed.

(** Every other way out of the callback clears cookies only. *)
Lemma callback_issues m r s s1 resp : answer_callback m r s = (s1, resp) -> issues resp -> NoDup (at_state <$> web_attempts (db s)) ->
  exists state code nonce row claims, oneQueryValue (rq_query r) "state" = Some state /\ oneQueryValue (rq_query r) "code" = Some code
    /\ Request_Cookie (attempt_ (names config)) r = Some nonce /\ row ∈ web_attempts (db s)
    /\ consumable (HashState sha256 state) (timestamptz (Truncate (UTC (web_clock m 0)) Microsecond)) row = true
    /\ at_nonce row = HashNonce sha256 nonce /\ Exchange (oidc m) code (at_verifier row) nonce = Ok claims
    /\ location resp = at_return row /\ safe (at_return row) "" = at_return row /\ spent (HashState sha256 state) (web_attempts (db s1)).
Proof.
  intros H Hi Hd. unfold callback in H.
  assert (Hno : forall code text, authError (clearAttempt config) code text = resp -> False).
  { intros code text <-. eapply cleared_not_issued, Hi. apply clearAttempt_cleared. }
  destruct (negb _); [injection H as -> H; by apply Hno in H|].
  destruct (oneQueryValue _ "state") as [state|]; [|injection H as -> H; by apply Hno in H].
  destruct (oneQueryValue _ "code") as [code|]; [|injection H as -> H; by apply Hno in H].
  destruct (Request_Cookie _ r) as [nonceCookie|]; [|injection H as -> H; by apply Hno in H].
  destruct (ParseSecret nonceCookie) as [nonce|] eqn:Ep; [|injection H as -> H; by apply Hno in H].
  apply ParseSecret_spec in Ep as [-> _]. cbn [Attempts_Consume flow_attempts pg_attempts] in H.
  destruct (PostgresAttemptStore_Consume _ _ _ _ s) as [s2 [attempt|e]] eqn:Ec.
  2: { destruct (errors_is _ e); injection H as -> H; by apply Hno in H. }
  apply Consume_Ok in Ec as (row & Hin & Hc & -> & Hsafe & Hspent); [|exact Hd]. cbn [CA_NonceHash CA_PKCEVerifier CA_ReturnPath] in H.
  destruct (negb _) eqn:En; [injection H as -> H; by apply Hno in H|]. bool_prop.
  destruct (Exchange _ _ _ _) as [claims|] eqn:Ee; [|injection H as -> H; by apply Hno in H].
  exists state, code, nonceCookie, row, claims. unfold AttemptHash_Equal in En. bool_prop.
  match type of H with context [complete_sign_in ?a ?b ?c ?d ?e m r ?who s2] =>
    pose proof (complete_sign_in_attempts m r who s2) as Hf; pose proof (sign_in_cookies m r who s2) as Hcs;
    destruct (complete_sign_in a b c d e m r who s2) as [[s3 [issued|err]] cs] end; cbn [fst snd] in Hf, Hcs.
  - injection H as -> <-. split_and!; try done. by rewrite Hf.
  - exfalso. assert (Hall : forall c, c ∈ clearAttempt config ++ cs -> MaxAge c = -1).
    { intros c [Hc1|Hc1]%elem_of_app; [by apply clearAttempt_cleared|by apply Hcs]. }
    destruct (errors_is _ err); injection H as _ <-; revert Hi; apply cleared_not_issued; exact Hall.
Qed.

(** An attempt's state is never consumed a second time. *)
Lemma spent_not_issued m r s s1 resp state : answer_callback m r s = (s1, resp) -> oneQueryValue (rq_query r) "state" = Some state ->
  NoDup (at_state <$> web_attempts (db s)) -> spent (HashState sha256 state) (web_attempts (db s)) -> ~ issues resp.
Proof.
  intros H Hq Hd Hs Hi. destruct (callback_issues _ _ _ _ _ H Hi Hd) as (state' & ? & ? & row & ? & Hq' & _ & _ & Hin & Hc & _).
  assert (state' = state) as -> by congruence. unfold consumable in Hc. apply andb_prop in Hc as [[Hh Hl]%andb_prop _]. bool_prop.
  by rewrite (Hs row Hin Hh) in Hl.
Qed.

Lemma started_elem w row : row ∈ started w -> exists m r state nonce verifier, w = (m, GetGoogle, r)
  /\ generateSecret (Some (web_random m 0)) = Ok state /\ generateSecret (Some (web_random m 1)) = Ok nonce
  /\ generateSecret (Some (web_random m 2)) = Ok verifier
  /\ row = attempt_row (new_attempt sha256 config m (safe (Get "next" (rq_query r)) defaultReturnPath) state nonce verifier).
Proof.
  destruct w as [[m []] r]; unfold started; cbn [fst snd]; try by intros ?%elem_of_nil.
  destruct (generateSecret (Some (web_random m 0))) as [state|] eqn:G0; [|by intros ?%elem_of_nil].
  destruct (generateSecret (Some (web_random m 1))) as [nonce|] eqn:G1; [|by intros ?%elem_of_nil].
  destruct (generateSecret (Some (web_random m 2))) as [verifier|] eqn:G2; [|by intros ?%elem_of_nil].
  intros ->%list_elem_of_singleton. exists m, r, state, nonce, verifier. by split_and!.
Qed.

(** C30. A browser is signed in for an attempt it started, once.  Starting from
    no attempts, after any requests to any of the pages and whichever
    statements fail, a callback that issues a session answers a request to
    start signing in: the state it carries and the nonce in the browser's
    cookie have the hashes of the secrets drawn then, no more than the attempt's
    lifetime ago, the provider exchanged the code for the verifier drawn then,
    and the browser is sent to the path asked for then.  Afterwards no callback
    with that state issues a session, unless a new attempt happens to draw a
    state with the same hash. *)
Theorem sign_in_spends_an_attempt ws s0 m r s1 resp :
  web_attempts (db s0) = [] ->
  answer_callback m r (web_run ws s0) = (s1, resp) -> issues resp ->
  exists m0 r0 state nonce verifier state' nonce' code claims,
    (m0, GetGoogle, r0) ∈ ws
    /\ generateSecret (Some (web_random m0 0)) = Ok state /\ generateSecret (Some (web_random m0 1)) = Ok nonce
    /\ generateSecret (Some (web_random m0 2)) = Ok verifier
    /\ oneQueryValue (rq_query r) "state" = Some state' /\ HashState sha256 state' = HashState sha256 state
    /\ Request_Cookie (attempt_ (names config)) r = Some nonce' /\ HashNonce sha256 nonce' = HashNonce sha256 nonce
    /\ nanos (Truncate (UTC (web_clock m 0)) Microsecond) < nanos (Truncate (UTC (web_clock m0 0)) Microsecond) + LoginAttemptTTL config
    /\ oneQueryValue (rq_query r) "code" = Some code /\ Exchange (oidc m) code verifier nonce' = Ok claims
    /\ location resp = safe (Get "next" (rq_query r0)) defaultReturnPath
    /\ forall ws' m' r' s2 resp', answer_callback m' r' (web_run ws' s1) = (s2, resp') -> oneQueryValue (rq_query r') "state" = Some state' ->
         (forall row, row ∈ ws' ≫= started -> at_state row <> HashState sha256 state') -> ~ issues resp'.
Proof.
  intros H0 H Hi. pose proof (web_run_evolves ws s0) as Hev. rewrite H0 in Hev.
  assert (Hd : NoDup (at_state <$> web_attempts (db (web_run ws s0)))) by (apply (ev_unique _ _ _ Hev); constructor).
  destruct (callback_issues _ _ _ _ _ H Hi Hd) as (state' & code & nonce' & row & claims & Hq & Hcode & Hck & Hin & Hc & Hn & Hx & Hl & _ & Hsp).
  destruct (ev_from _ _ _ Hev _ Hin) as [(x & Hx0 & _)|(x & Hx0 & Hsame)]; [by apply elem_of_nil in Hx0|].
  apply list_elem_of_bind in Hx0 as (w & Hw & Hwin). apply started_elem in Hw as (m0 & r0 & state & nonce & verifier & -> & G0 & G1 & G2 & ->).
  destruct Hsame as (S1 & S2 & S3 & S4 & S5 & S6 & _). cbn in S1, S2, S3, S4, S5, S6.
  unfold consumable in Hc. apply andb_prop in Hc as [[Hh _]%andb_prop Ht]. bool_prop.
  exists m0, r0, state, nonce, verifier, state', nonce', code, claims. split_and!; try done; try congruence.
  - rewrite timestamptz_Truncate, S6 in Ht. eapply Z.lt_le_trans; [exact Ht|]. apply timestamptz_le.
  - intros ws' m' r' s2 resp' H' Hq' Hnew. eapply spent_not_issued; [exact H'|exact Hq'| |].
    + apply (ev_unique _ _ _ (web_run_evolves ws' s1)). pose proof (callback_grows m r (web_run ws s0)) as Hg. rewrite H in Hg.
      by apply (ev_unique _ _ _ Hg).
    + eapply evolves_spent; [apply web_run_evolves|done|done].
Qed.
End flow.
