(* ===== verification/AuthWebExample.v ===== *)
(** * A browser signs in

    A login link followed, the provider's answer brought back twice, and
    return paths the two layers disagree about. *)
From S2P Require Import Prelude GoStrings GoTime Float64 SQL Sample Keeping Identity Base64 Session IdentityDB Url AuthWeb AuthWebDB AuthWebProps.

Definition ex_host (h : list ascii) : option (list ascii) := Some h.
Definition ex_config : Config := mkConfig true false (10 * Minute).
(** A session store that lets everybody in. *)
Definition open_store : SessionStore (SQL.session IdDB) := {|
  CreateSessionForIdentity _ d s := (s, Ok (ex_stored "" d));
  CreateSessionForInvitedIdentity _ d _ s := (s, Ok (ex_stored "" d));
  UseSession _ _ s := (s, Err ErrUnauthenticated);
  RotateSession _ d _ _ s := (s, Ok (ex_stored (ex_id "d") d));
  RevokeSession _ _ _ s := (s, Ok ())
|}.
Definition ex_claims : Claims := mkClaims "subject-1" "alice@example.com" true "Alice" "".
Definition ex_moment : Moment :=
  mkMoment (fun _ => ex_now) (fun _ => ex_now) ex_reads (fun i => ex_reads (10 + i))
    (mkOIDCClient (fun state nonce verifier => ("https://accounts.example/auth?state=" ++ state)%string) (fun code verifier nonce => Ok ex_claims)).
Definition ex_secret (i : nat) : string := match generateSecret (Some (ex_reads i)) with Ok x => x | Err _ => "" end.
Definition no_attempts : SQL.session WebDB := SQL.mkSession (mkWebDB [] (mkIdDB ∅ ∅ ∅ ∅ ∅ [])) 0.

Definition start_request (next : string) : Request := mkRequest {[ "next"%string := [next] ]} [] (Ok ∅).
Definition callback_request : Request :=
  mkRequest (<["state"%string := [ex_secret 0]]> {[ "code"%string := ["4/abc"%string] ]}) [("__Host-cabot_oidc"%string, ex_secret 1)] (Ok ∅).
Abbreviation ex_run := (web_run (E := sample) true open_store (fun x => x) ex_ParseAddress ex_digest ex_host ex_config Hour).
Abbreviation ex_callback :=
  (callback (AttemptStore0 := pg_attempts (E := sample) ex_host true) (SessionStore0 := web_sessions open_store) (fun x => x) ex_ParseAddress ex_digest ex_config Hour).
Definition visit : list web_request := [(ex_moment, GetLogin, start_request "/book"); (ex_moment, GetGoogle, start_request "/book/markets?open=1")].
Definition signed_in_once := ex_callback ex_moment callback_request (ex_run visit no_attempts).
Definition signed_in_twice := ex_callback ex_moment callback_request signed_in_once.1.

Example signed_in_is : (status signed_in_once.2, location signed_in_once.2) = (303, "/book/markets?open=1"%string)
  /\ (status signed_in_twice.2, body signed_in_twice.2) = (400, invalid_response).
Proof. split; by vm_compute. Qed.

Example paths :
  safeReturnPath ex_host "//evil.example/x" "" = "/book"%string
  /\ safeReturnPath ex_host "https://evil.example/x" "" = "/book"%string
  /\ safeReturnPath ex_host "/%2Fevil.example" "" = "/book"%string
  /\ safeReturnPath ex_host "/a b?c d#" "" = "/a%20b?c d"%string
  /\ safeReturnPath ex_host "//user@/book" "" = "/book"%string.
Proof. split_and!; by vm_compute. Qed.

(** A path that is safe for the program is not one for the table: its first byte is
    an escaped slash.  Starting to sign in with it is an internal error. *)
Example escaped_slash_is_refused :
  safeReturnPath ex_host "%2Fbook" defaultReturnPath = "%2Fbook"%string
  /\ status (startGoogle (AttemptStore0 := pg_attempts (E := sample) ex_host true) ex_digest ex_host ex_config ex_moment (start_request "%2Fbook") no_attempts).2 = 500.
Proof. split; by vm_compute. Qed.
(** Escaping can make an accepted path too long to be stored. *)
Definition long_path : string := ("/" ++ of_bytes (repeat " "%char 1000))%string.
Example long_paths_are_refused :
  len (safeReturnPath ex_host long_path defaultReturnPath) = 3001
  /\ status (startGoogle (AttemptStore0 := pg_attempts (E := sample) ex_host true) ex_digest ex_host ex_config ex_moment (start_request long_path) no_attempts).2 = 500.
Proof. split; by vm_compute. Qed.

Lemma sign_in_spends_an_attempt_witness :
  status signed_in_once.2 = 303
  /\ exists m0 r0, (m0, GetGoogle, r0) ∈ visit /\ location signed_in_once.2 = safeReturnPath ex_host (Get "next" (rq_query r0)) defaultReturnPath.
Proof.
  split; [by vm_compute|].
  assert (Hi : issues ex_config signed_in_once.2).
  { unfold issues. eexists (nth 1 (cookies signed_in_once.2) (mkCookie "" "" zeroTime 0 true)). split; [|by vm_compute]. vm_compute. right; left. }
  destruct (sign_in_spends_an_attempt (E := sample) true open_store (fun x => x) ex_ParseAddress ex_digest ex_host ex_config Hour visit no_attempts
              ex_moment callback_request signed_in_once.1 signed_in_once.2 eq_refl (surjective_pairing _) Hi)
    as (m0 & r0 & ? & ? & ? & ? & ? & ? & ? & Hin & _ & _ & _ & _ & _ & _ & _ & _ & _ & _ & Hl & _).
  exists m0, r0. split; [exact Hin|exact Hl].
Defined.
