(* ===== verification/Web.v ===== *)
(** * What the page handlers of internal/*web share

    A handler is a program that asks the stores it was given for answers and
    ends with a response: a call keeps what its continuation does with every
    answer.  [run] gives the calls to an implementation; [run_log] also keeps
    them.  The packages repeat the same session, form and display helpers; they
    are here once, with webtime/atlantic.go. *)
From S2P Require Import Prelude GoStrings GoTime SQL Ledger Identity Url AuthWeb.

(** ** Programs over the calls [E] *)
Inductive program (E : Type -> Type) (A : Type) : Type :=
  | Return (a : A)
  | Call {X : Type} (c : E X) (k : result X -> program E A).
Arguments Return {E A} a.
Arguments Call {E A X} c k.

(** A call with the answer it got. *)
Inductive entry (E : Type -> Type) : Type :=
  | Entry {X : Type} (c : E X) (r : result X).
Arguments Entry {E X} c r.

Section program.
Context {E : Type -> Type}.

Fixpoint program_bind {A B} (k : A -> program E B) (m : program E A) : program E B :=
  match m with
  | Return a => k a
  | Call c f => Call c (fun r => program_bind k (f r))
  end.
#[export] Instance program_ret : MRet (program E) := @Return E.
#[export] Instance program_mbind : MBind (program E) := @program_bind.

Definition call {X} (c : E X) : program E (result X) := Call c Return.

(** What answers the calls, in the session of a database. *)
Definition answers (D : Type) : Type := forall X, E X -> SQL.go D X.

Fixpoint run_log {D A} (h : answers D) (m : program E A) (s : session D) : session D * A * list (entry E) :=
  match m with
  | Return a => (s, a, [])
  | Call c k =>
      let '(s1, r) := h _ c s in
      let '(s2, a, log) := run_log h (k r) s1 in
      (s2, a, Entry c r :: log)
  end.
Definition run {D A} (h : answers D) (m : program E A) (s : session D) : session D * A := (run_log h m s).1.

(** The entries [Q] allows, whatever the answers are. *)
Fixpoint logs {A} (Q : A -> list (entry E) -> Prop) (m : program E A) : Prop :=
  match m with
  | Return a => Q a []
  | Call c k => forall r, logs (fun a log => Q a (Entry c r :: log)) (k r)
  end.

Lemma logs_run {D A} (h : answers D) (m : program E A) : forall Q s s' a log,
  logs Q m -> run_log h m s = (s', a, log) -> Q a log.
Proof.
  induction m as [a|X c k IH]; intros Q s s' b log HQ; cbn.
  - by intros [= <- <- <-].
  - destruct (h X c s) as [s1 r]. destruct (run_log h (k r) s1) as [[s2 a2] log2] eqn:Er. intros [= <- <- <-].
    by apply (IH r (fun a log => Q a (Entry c r :: log)) s1 s2).
Qed.

Lemma logs_mono {A} (m : program E A) : forall Q Q' : A -> list (entry E) -> Prop,
  (forall a log, Q a log -> Q' a log) -> logs Q m -> logs Q' m.
Proof.
  induction m as [a|X c k IH]; intros Q Q' H HQ; cbn in *; [by apply H|].
  intros r. eapply IH; [|apply HQ]. cbn. intros a log. apply H.
Qed.

(** The commands among the calls of a log. *)
Section asked.
Context {C : Type} (issued : forall X, E X -> option C).
Definition asked_entry (e : entry E) : option C := match e with Entry c _ => issued _ c end.
Definition asked (log : list (entry E)) : list C := omap asked_entry log.

(** The effect of commands on the database, and of nothing else. *)
Context {D : Type} (effect : C -> session D -> session D).
Inductive performs : list C -> session D -> session D -> Prop :=
  | performs_nothing s s' : db s' = db s -> performs [] s s'
  | performs_next c cs s s1 s2 : db s1 = db s -> performs cs (effect c s1) s2 -> performs (c :: cs) s s2.

Lemma performs_after_reads cs s s1 s2 : db s1 = db s -> performs cs s1 s2 -> performs cs s s2.
Proof. intros Hd Hp. inversion Hp; subst; [constructor; congruence|]. econstructor; [|done]. congruence. Qed.

(** A run does what its commands do, when the other calls only read. *)
Lemma run_performs {A} (h : answers D) (m : program E A) :
  (forall X (c : E X) cmd s, issued X c = Some cmd -> (h X c s).1 = effect cmd s) ->
  (forall X (c : E X) s, issued X c = None -> db (h X c s).1 = db s) ->
  forall s s' a log, run_log h m s = (s', a, log) -> performs (asked log) s s'.
Proof.
  intros Hcmd Hread. induction m as [a|X c k IH]; intros s s' b log; cbn [run_log].
  - intros [= <- _ <-]. by constructor.
  - destruct (h X c s) as [s1 r] eqn:Ec. destruct (run_log _ (k r) s1) as [[s2 a2] log2] eqn:Er. intros [= <- _ <-].
    apply IH in Er. unfold asked. cbn [omap list_omap asked_entry].
    change s1 with ((s1, r).1) in Er. rewrite <- Ec in Er. destruct (issued X c) as [cmd|] eqn:Hi.
    + apply (performs_next _ _ _ s); [done|]. rewrite <- (Hcmd X c cmd s Hi). exact Er.
    + eapply performs_after_reads; [|exact Er]. by apply Hread.
Qed.

Lemma performs_keeps (R : D -> D -> Prop) `{!PreOrder R} (P : C -> Prop) cs s s' :
  (forall c s, P c -> R (db s) (db (effect c s))) -> performs cs s s' -> Forall P cs -> R (db s) (db s').
Proof.
  intros Hc. induction 1 as [s s' ->|c cs s s1 s2 Hd Hp IH]; [done|]. intros [H Hcs]%Forall_cons.
  etrans; [|by apply IH]. rewrite <- Hd. by apply Hc.
Qed.
End asked.

(** A property of the database that every call keeps. *)
Lemma run_log_keeps {D A} (R : D -> D -> Prop) `{!PreOrder R} (h : answers D) (m : program E A) :
  (forall X (c : E X) s s' r, h X c s = (s', r) -> R (db s) (db s')) ->
  forall s s' a log, run_log h m s = (s', a, log) -> R (db s) (db s').
Proof.
  intros Hh. induction m as [a|X c k IH]; intros s s' b log; cbn.
  - by intros [= <- _ _].
  - destruct (h X c s) as [s1 r] eqn:Ec. destruct (run_log h (k r) s1) as [[s2 a2] log2] eqn:Er. intros [= <- _ _].
    etrans; [by eapply Hh|by eapply IH].
Qed.
End program.

(** ** Requests and responses *)

(** What a handler reads of its request, what the session reader answers to it
    ([AuthWeb.CurrentSession]) and the clock; path values are arguments. *)
Record Visit := mkVisit {
  v_session : result WebSession;
  (** the method is GET or HEAD *)
  v_get : bool;
  v_uri : string;
  (** the header [HX-Request] is [true] *)
  v_htmx : bool;
  (** [r.ParseForm] under [http.MaxBytesReader], then [r.PostForm] *)
  v_form : result Values;
  (** [time.Now()] *)
  v_now : Time
}.

(** [http.Redirect] with 303, an error as text, or a template's page. *)
Inductive response (P : Type) : Type :=
  | SeeOther (to_ : string)
  | ErrorText (status : Z) (text : string)
  | Rendered (status : Z) (page : P).
Arguments SeeOther {P} to_.
Arguments ErrorText {P} status text.
Arguments Rendered {P} status page.

Definition StatusOK : Z := 200.
Definition StatusNotFound : Z := 404.
Definition StatusConflict : Z := 409.

(** [privateweb.LoginRedirectURL] *)
Definition LoginRedirectURL (v : Visit) : string :=
  let next := if v_get v then v_uri v else "/book"%string in
  ("/login?next=" ++ of_bytes (QueryEscape (bytes next)))%string.

Definition validMemberRole (role : Role) : bool :=
  bool_decide (role = RoleMember) || bool_decide (role = RoleAdmin) || bool_decide (role = RoleOwner).
Definition is_admin (session : WebSession) : bool :=
  bool_decide (WS_Role session = RoleAdmin) || bool_decide (WS_Role session = RoleOwner).

(** The form's token against the session's, neither of them empty. *)
Definition token_matches (form : Values) (session : WebSession) : bool :=
  let token := Get "csrf_token" form in
  negb (bool_decide (token = ""%string)) && negb (bool_decide (WS_CSRFToken session = ""%string))
  && bool_decide (token = WS_CSRFToken session).

Section visits.
Context {E : Type -> Type} {P : Type}.
#[local] Abbreviation handler := (program E (response P)).

Definition respond (x : response P) : handler := Return x.
Definition render (p : P) : handler := respond (Rendered StatusOK p).
Definition internalError : response P := ErrorText StatusInternalServerError "Unable to load this page".
(** [if err != nil { h.internalError(w) }] *)
Definition loaded {X} (c : E X) (k : X -> handler) : handler :=
  r ← call c;
  match r with Ok x => k x | Err _ => respond internalError end.

(** The session of the request, or the way to the login page. *)
Definition with_session (v : Visit) (failed : response P) (k : WebSession -> handler) : handler :=
  match v_session v with
  | Ok session => k session
  | Err err => if errors_is "privateweb.ErrNoSession" err then respond (SeeOther (LoginRedirectURL v)) else respond failed
  end.

Implicit Types Q : response P -> list (entry E) -> Prop.
Lemma logs_call {A X} (Q : A -> list (entry E) -> Prop) (c : E X) (k : result X -> program E A) :
  (forall r, logs (fun b log => Q b (Entry c r :: log)) (k r)) -> logs Q (call c ≫= k).
Proof. done. Qed.
Lemma logs_respond Q x : Q x [] -> logs Q (respond x : handler).
Proof. done. Qed.
Lemma logs_loaded {X} Q (c : E X) k :
  (forall err, Q internalError [Entry c (Err err)]) ->
  (forall x, logs (fun b log => Q b (Entry c (Ok x) :: log)) (k x)) -> logs Q (loaded c k).
Proof. intros He Hk. apply logs_call. intros [x|err]; [apply Hk|apply He]. Qed.
Lemma logs_with_session Q v failed k :
  (forall x, Q x []) -> (forall u, v_session v = Ok u -> logs Q (k u)) -> logs Q (with_session v failed k).
Proof.
  intros Hf Hk. unfold with_session. destruct (v_session v) as [u|err]; [by apply Hk|].
  destruct (errors_is _ err); by apply logs_respond.
Qed.
End visits.

(** ** Forms *)
Definition maxReasonLen : Z := 500.
Definition reason_of (form : Values) : string := TrimSpace (Get "reason" form).
Definition bad_reason (reason : string) : bool := bool_decide (reason = ""%string) || (maxReasonLen <? len reason).
(** [r.PostForm[name]] *)
Definition all_values (name : string) (form : Values) : list string := default [] (form !! name).

(** [^\$?([0-9]{1,7})(?:\.([0-9]{1,2}))?$] *)
Definition digits_upto (n : Z) (l : list ascii) : bool :=
  (1 <=? Z.of_nat (length l)) && (Z.of_nat (length l) <=? n) && forallb is_digit l.
Definition stakePattern (l : list ascii) : option (list ascii * list ascii) :=
  let l := match l with a :: rest => if byte_is 36 a then rest else l | [] => [] end in
  match split_on 46 l with
  | [dollars] => if digits_upto 7 dollars then Some (dollars, []) else None
  | [dollars; cents] => if digits_upto 7 dollars && digits_upto 2 cents then Some (dollars, cents) else None
  | _ => None
  end.
(** The cents of a match of the pattern. *)
Definition pattern_cents (dollars cents : list ascii) : Z :=
  let c := default 0 (ParseInt 64 (of_bytes cents)) in
  let c := if Z.of_nat (length cents) =? 1 then c * 10 else c in
  default 0 (ParseInt 64 (of_bytes dollars)) * 100 + c.
Definition parseStakeCents (value : string) : result Z :=
  match stakePattern (bytes (TrimSpace value)) with
  | None => Err (Errorf "stake must be a dollars-and-cents amount")
  | Some (dollars, cents) =>
      let total := pattern_cents dollars cents in
      fail_if (total <=? 0) (Errorf "stake must be greater than zero");;
      Ok total
  end.

(** ** Display *)
(** [%02d] of a number that is not negative *)
Definition pad2 (n : Z) : string := ((if (n <? 10)%Z then "0" else "") ++ sprint_d n)%string.
Definition formatCentsDollars (cents : Z) : string :=
  let cents := if cents <? 0 then 0 else cents in
  (sprint_d (Z.quot cents 100) ++ "." ++ pad2 (Z.rem cents 100))%string.
Definition formatMoney (amount : Money) : string :=
  let negative := Cents amount <? 0 in
  let magnitude := if negative then - (Cents amount + 1) + 1 else Cents amount in
  let prefix := if bool_decide (Money_Currency amount = CAD) then "CA$"%string
                else if bool_decide (Money_Currency amount = "USD"%string) then "US$"%string
                else (Money_Currency amount ++ " ")%string in
  ((if negative then "-" else "") ++ prefix ++ sprint_d (magnitude / 100) ++ "." ++ pad2 (magnitude mod 100))%string.
Definition formatOdds (value : AmericanOdds) : string := ((if (0 <? value)%Z then "+" else "") ++ sprint_d value)%string.

(** ** webtime/atlantic.go: [ParseForm]

    [time.ParseInLocation] with the layout [2006-01-02T15:04], whose hour may
    have one digit; the rules of the zone America/Halifax are [halifax]:
    [time.Date] of a civil minute in it. *)
Definition daysIn (month year : Z) : Z :=
  if month =? 2 then (if (year mod 4 =? 0) && (negb (year mod 100 =? 0) || (year mod 400 =? 0)) then 29 else 28)
  else if bool_decide (month ∈ [4; 6; 9; 11]) then 30 else 31.
Definition hour_and_rest (l : list ascii) : option (Z * list ascii) :=
  match l with
  | a :: b :: rest =>
      if negb (is_digit a) then None
      else if is_digit b then Some (digits_val [a; b], rest) else Some (digit_val a, b :: rest)
  | [a] => if is_digit a then Some (digit_val a, []) else None
  | [] => None
  end.
Definition civil_minute (l : list ascii) : option (Z * Z * Z * Z * Z) :=
  match l with
  | y1 :: y2 :: y3 :: y4 :: s1 :: m1 :: m2 :: s2 :: d1 :: d2 :: t :: rest =>
      if negb (forallb is_digit [y1; y2; y3; y4; m1; m2; d1; d2]) || negb (byte_is 45 s1) || negb (byte_is 45 s2)
         || negb (byte_is 84 t) then None
      else
        match hour_and_rest rest with
        | Some (hour, [c; n1; n2]) =>
            let year := digits_val [y1; y2; y3; y4] in
            let month := digits_val [m1; m2] in
            let day := digits_val [d1; d2] in
            let minute := digits_val [n1; n2] in
            if negb (byte_is 58 c) || negb (forallb is_digit [n1; n2]) || (month <? 1) || (12 <? month) || (24 <=? hour)
               || (60 <=? minute) || (day <? 1) || (daysIn month year <? day) then None
            else Some (year, month, day, hour, minute)
        | _ => None
        end
  | _ => None
  end.

Section webtime.
Context (halifax : Z * Z * Z * Z * Z -> Time).
Definition ParseForm (value : string) : result Time :=
  match civil_minute (bytes value) with
  | None => Err (Errorf "parsing time")
  | Some t => Ok (UTC (halifax t))
  end.
Definition parseFormTime (value : string) : result Time :=
  let value := TrimSpace value in
  if bool_decide (value = ""%string) then Ok zeroTime else ParseForm value.
End webtime.
