(* ===== verification/Amounts.v ===== *)
(** * Amounts typed into forms

    The pattern every page reads amounts with, and what it reads. *)
From S2P Require Import Prelude GoStrings GoTime Decimal Ledger Url AuthWeb Web.

Definition valid_cents (cents : Z) : Prop := 0 < cents <= 999999999.
(** The texts an amount is typed as, and the cents they stand for. *)
Inductive amount_text : list ascii -> Z -> Prop :=
  | amount_dollars d : digits_upto 7 d = true -> amount_text d (digits_val d * 100)
  | amount_tenths d a : digits_upto 7 d = true -> is_digit a = true ->
      amount_text (d ++ [dot; a]) (digits_val d * 100 + digit_val a * 10)
  | amount_cents d a b : digits_upto 7 d = true -> is_digit a = true -> is_digit b = true ->
      amount_text (d ++ [dot; a; b]) (digits_val d * 100 + (digit_val a * 10 + digit_val b)).

Lemma digits_upto_spec n l : digits_upto n l = true <-> 1 <= Z.of_nat (length l) <= n /\ forallb is_digit l = true.
Proof. unfold digits_upto. rewrite !andb_true_iff, !Z.leb_le. tauto. Qed.
Lemma digits_upto_parsed d : digits_upto 7 d = true -> ParseInt 64 (of_bytes d) = Some (digits_val d) /\ 0 <= digits_val d < 10000000.
Proof.
  intros [Hl Hd]%digits_upto_spec. pose proof (digits_val_range d Hd) as Hr.
  assert (Hp : 10 ^ Z.of_nat (length d) <= 10 ^ 7) by (apply Z.pow_le_mono_r; lia). change (10 ^ 7) with 10000000 in Hp.
  rewrite ParseInt_digits; [|intros ->; cbn in Hl; lia|done]. rewrite (proj2 (Z.ltb_lt _ _)); [split; [done|lia]|].
  change (2 ^ (64 - 1)) with 9223372036854775808. lia.
Qed.
Lemma digits_val_1 a : digits_val [a] = digit_val a.
Proof. unfold digits_val. cbn [foldl]. lia. Qed.
Lemma digits_val_2 a b : digits_val [a; b] = digit_val a * 10 + digit_val b.
Proof. unfold digits_val. cbn [foldl]. lia. Qed.

(** What follows an optional dollar sign. *)
Definition after_dollar (l : list ascii) : list ascii :=
  match l with a :: rest => if byte_is 36 a then rest else l | [] => [] end.
Definition plain_pattern (l : list ascii) : option (list ascii * list ascii) :=
  match split_on 46 l with
  | [dollars] => if digits_upto 7 dollars then Some (dollars, []) else None
  | [dollars; cents] => if digits_upto 7 dollars && digits_upto 2 cents then Some (dollars, cents) else None
  | _ => None
  end.
Lemma stakePattern_after l : stakePattern l = plain_pattern (after_dollar l).
Proof. by destruct l as [|a l]. Qed.

Lemma plain_pattern_text l d c : plain_pattern l = Some (d, c) -> amount_text l (pattern_cents d c).
Proof.
  unfold plain_pattern. destruct (split_on 46 l) as [|p [|q [|]]] eqn:Hs; [done| | |done].
  - destruct (digits_upto 7 p) eqn:Hp; [|done]. intros [= <- <-]. apply split_on_inv in Hs as [_ [[_ ->]|(q & Hq & _)]].
    + unfold pattern_cents. cbn. destruct (digits_upto_parsed p Hp) as [-> _]. cbn. rewrite Z.add_0_r. by constructor.
    + exfalso; by apply (split_on_nonempty q).
  - destruct (digits_upto 7 p) eqn:Hp; [|done]. destruct (digits_upto 2 q) eqn:Hq; [|done]. intros [= <- <-].
    apply split_on_inv in Hs as [_ [[[=] _]|(q' & Hq' & ->)]]. symmetry in Hq'. apply split_on_inv in Hq' as [_ [[_ ->]|(q2 & Hq2 & _)]].
    2:{ exfalso; by apply (split_on_nonempty q2). }
    apply digits_upto_spec in Hq as [Hl Hd]. unfold pattern_cents. destruct (digits_upto_parsed p Hp) as [-> _].
    destruct q as [|a [|b [|]]]; cbn [length] in Hl; try lia; pose proof Hd as Hab; cbn in Hab.
    + rewrite andb_true_r in Hab. rewrite ParseInt_digits by done. rewrite digits_val_1. pose proof (is_digit_val a Hab).
      rewrite (proj2 (Z.ltb_lt _ _)) by (change (2 ^ (64 - 1)) with 9223372036854775808; lia). by constructor.
    + apply andb_true_iff in Hab as [Ha Hb]. rewrite andb_true_r in Hb. rewrite ParseInt_digits by done. rewrite digits_val_2.
      pose proof (is_digit_val a Ha). pose proof (is_digit_val b Hb).
      rewrite (proj2 (Z.ltb_lt _ _)) by (change (2 ^ (64 - 1)) with 9223372036854775808; lia). by constructor.
Qed.

Lemma amount_text_pattern l cents : amount_text l cents -> exists d c, plain_pattern l = Some (d, c) /\ pattern_cents d c = cents.
Proof.
  assert (Hnd : forall d, digits_upto 7 d = true -> no_dot d = true) by (intros d [_ Hd]%digits_upto_spec; by apply digits_no_dot).
  unfold plain_pattern, pattern_cents. intros [d Hd|d a Hd Ha|d a b Hd Ha Hb].
  - rewrite split_on_none, Hd by auto. eexists d, []. split; [done|]. destruct (digits_upto_parsed d Hd) as [-> _]. apply Z.add_0_r.
  - rewrite split_on_dot by auto. rewrite (split_on_none [a]) by (apply digits_no_dot; cbn; by rewrite Ha).
    rewrite Hd. unfold digits_upto. cbn [length forallb]. rewrite Ha. cbn. eexists d, [a]. split; [done|].
    destruct (digits_upto_parsed d Hd) as [-> _]. rewrite ParseInt_digits by (done || by cbn; rewrite Ha). rewrite digits_val_1.
    pose proof (is_digit_val a Ha). rewrite (proj2 (Z.ltb_lt _ _)) by (change (2 ^ (64 - 1)) with 9223372036854775808; lia). done.
  - rewrite split_on_dot by auto. rewrite (split_on_none [a; b]) by (apply digits_no_dot; cbn; by rewrite Ha, Hb).
    rewrite Hd. unfold digits_upto. cbn [length forallb]. rewrite Ha, Hb. cbn. eexists d, [a; b]. split; [done|].
    destruct (digits_upto_parsed d Hd) as [-> _]. rewrite ParseInt_digits by (done || by cbn; rewrite Ha, Hb). rewrite digits_val_2.
    pose proof (is_digit_val a Ha). pose proof (is_digit_val b Hb).
    rewrite (proj2 (Z.ltb_lt _ _)) by (change (2 ^ (64 - 1)) with 9223372036854775808; lia). done.
Qed.

Lemma amount_text_bound l cents : amount_text l cents -> 0 <= cents <= 999999999.
Proof.
  intros [d Hd|d a Hd Ha|d a b Hd Ha Hb]; destruct (digits_upto_parsed d Hd) as [_ Hr].
  - lia.
  - pose proof (is_digit_val a Ha). lia.
  - pose proof (is_digit_val a Ha). pose proof (is_digit_val b Hb). lia.
Qed.

Lemma parseStakeCents_spec value cents :
  parseStakeCents value = Ok cents <-> 0 < cents /\ amount_text (after_dollar (bytes (TrimSpace value))) cents.
Proof.
  unfold parseStakeCents. rewrite stakePattern_after. set (l := after_dollar _). split.
  - destruct (plain_pattern l) as [[d c]|] eqn:Hp; [|done]. intros H. go_inv. bool_prop. subst. split; [lia|]. by apply plain_pattern_text.
  - intros [Hpos Ht]. destruct (amount_text_pattern _ _ Ht) as (d & c & -> & ->). cbn zeta. by rewrite (proj2 (Z.leb_gt _ _)).
Qed.
Lemma parseStakeCents_valid value cents : parseStakeCents value = Ok cents -> valid_cents cents.
Proof. intros [Hpos Ht]%parseStakeCents_spec. apply amount_text_bound in Ht. unfold valid_cents. lia. Qed.

Lemma stakePattern_bound l d c : stakePattern l = Some (d, c) -> 0 <= pattern_cents d c <= 999999999.
Proof. rewrite stakePattern_after. intros H%plain_pattern_text. by eapply amount_text_bound. Qed.

Lemma pad2_digits n : 0 <= n < 100 ->
  exists a b, bytes (pad2 n) = [a; b] /\ is_digit a = true /\ is_digit b = true /\ digit_val a * 10 + digit_val b = n.
Proof.
  intros Hn. set (ok := fun k : nat => match bytes (pad2 (Z.of_nat k)) with
    | [a; b] => is_digit a && is_digit b && (digit_val a * 10 + digit_val b =? Z.of_nat k) | _ => false end).
  assert (Hall : forallb ok (seq 0 100) = true) by (vm_compute; reflexivity).
  rewrite forallb_forall in Hall. specialize (Hall (Z.to_nat n)). unfold ok in Hall. rewrite Z2Nat.id in Hall by lia.
  destruct (bytes (pad2 n)) as [|a [|b [|]]]; try (discriminate Hall; apply in_seq; lia).
  exists a, b. assert (H : is_digit a && is_digit b && (digit_val a * 10 + digit_val b =? n) = true) by (apply Hall, in_seq; lia).
  bool_prop. done.
Qed.

Lemma bytes_string_app s t : bytes (s ++ t)%string = bytes s ++ bytes t.
Proof. induction s as [|a s IH]; [done|]. change (a :: bytes (s ++ t) = a :: bytes s ++ bytes t). by rewrite IH. Qed.
Lemma digit_plain a : is_digit a = true -> plain a = true.
Proof. destruct a as [[] [] [] [] [] [] [] []]; vm_compute; congruence. Qed.

Lemma formatCentsDollars_text cents : 0 <= cents <= 999999999 ->
  amount_text (bytes (formatCentsDollars cents)) cents /\ TrimSpace (formatCentsDollars cents) = formatCentsDollars cents
  /\ after_dollar (bytes (formatCentsDollars cents)) = bytes (formatCentsDollars cents).
Proof.
  intros Hc. unfold formatCentsDollars. rewrite (proj2 (Z.ltb_ge _ _)) by lia. rewrite Z.quot_div_nonneg, Z.rem_mod_nonneg by lia.
  destruct (pad2_digits (cents mod 100)) as (a & b & Hab & Ha & Hb & Hv); [by apply Z.mod_pos_bound|].
  assert (Hq : 0 <= cents / 100 < 10 ^ Z.of_nat 7).
  { split; [by apply Z.div_pos; lia|]. apply Z.div_lt_upper_bound; [lia|]. change (10 ^ Z.of_nat 7) with 10000000. lia. }
  destruct (sprint_d_digits (cents / 100)) as (Hd & Hdv & Hne); [lia|].
  pose proof (sprint_d_length _ 7 Hq ltac:(lia)) as Hlen.
  assert (Hdu : digits_upto 7 (bytes (sprint_d (cents / 100))) = true).
  { apply digits_upto_spec. split; [|done]. destruct (bytes (sprint_d (cents / 100))); [done|]. cbn [length] in *. lia. }
  set (s := (sprint_d (cents / 100) ++ "." ++ pad2 (cents mod 100))%string).
  assert (Hs : bytes s = bytes (sprint_d (cents / 100)) ++ [dot; a; b]) by (unfold s; by rewrite !bytes_string_app, Hab).
  destruct (bytes (sprint_d (cents / 100))) as [|x d] eqn:Ed; [done|]. pose proof Hd as Hx. cbn in Hx. apply andb_true_iff in Hx as [Hx _].
  rewrite Hs. split_and!.
  - replace cents with (digits_val (x :: d) * 100 + (digit_val a * 10 + digit_val b)); [by constructor|]. rewrite Hdv, Hv.
    pose proof (Z.div_mod cents 100). lia.
  - rewrite <- (of_bytes_bytes s), Hs. replace ((x :: d) ++ [dot; a; b]) with (x :: (d ++ [dot; a]) ++ [b]) by (cbn; by rewrite <- app_assoc).
    by apply TrimSpace_plain_ends; apply digit_plain.
  - cbn [app after_dollar]. by rewrite (digit_not 36 x).
Qed.

(** C28. Amounts of money typed into a form are read exactly.  A text is
    accepted just when it is, spaces and one dollar sign aside, one to seven
    digits with at most two decimals, and not zero; the cents read are what it
    says, between one cent and 9,999,999.99 dollars.  Every amount in that
    range printed by the pages is read back as itself. *)
Theorem typed_amounts_are_exact value cents :
  (parseStakeCents value = Ok cents <-> 0 < cents /\ amount_text (after_dollar (bytes (TrimSpace value))) cents)
  /\ (parseStakeCents value = Ok cents -> 0 < cents <= 999999999 /\ parseStakeCents (formatCentsDollars cents) = Ok cents).
Proof.
  split; [apply parseStakeCents_spec|]. intros H. pose proof (parseStakeCents_valid _ _ H) as Hv. split; [done|]. unfold valid_cents in Hv.
  destruct (formatCentsDollars_text cents) as (Ht & Htrim & Hd); [lia|]. apply parseStakeCents_spec. split; [lia|]. by rewrite Htrim, Hd.
Qed.
