(* ===== verification/PrivateWeb.v ===== *)
(** * internal/privateweb/private.go: a member's pages and the dashboard

    The rows the pages show, the calls of the five readers, and the handlers.
    The standings bars of the dashboard are computed here; the templates are
    not modelled. *)
From S2P Require Import Prelude GoStrings GoTime SQL Ledger Identity AuthWeb Web.

(** ** Rows *)
Record BalanceRow := mkBalanceRow { Label : string; Account : string; Note : string; BR_Amount : Money }.
Record LedgerRow := mkLedgerRow {
  LG_OccurredAt : Time; LG_Description : string; LG_TransactionType : string; Reference : string; ReferenceLabel : string;
  LG_Account : string; LG_Amount : Money; RunningBalance : Money; HasRunningBalance : bool
}.
Record WagerRow := mkWagerRow {
  PW_PlacedAt : Time; PW_Market : string; PW_Selection : string; PW_Odds : AmericanOdds; PW_Stake : Money;
  PW_PotentialProfit : Money; PW_Status : string; PW_Pending : bool; PW_ClosesAt : Time
}.
Record DashboardSummary := mkDashboardSummary {
  Balances : list BalanceRow; OpenWagers : Z; PendingWagers : Z; SettledWagers : Z; RecentActivity : list LedgerRow;
  DS_CreditLimit : Money; DS_CreditAvailable : Money; DS_AutoApproveLimit : Money; DS_AutoApprovePersonal : bool;
  OpenStake : Money; OpenToWin : Money; DS_PendingStake : Money; ActiveWagers : list WagerRow; MoreActiveWagers : Z
}.

Record ExposureOutcome := mkExposureOutcome {
  EO_Selection : string; EO_Wagers : Z; EO_Stake : Money; Payout : Money; HouseNet : Money; Worst : bool
}.
Record MarketExposure := mkMarketExposure {
  ME_Market : string; ME_State : string; ME_ClosesAt : Time; ME_Wagers : Z; ME_Stake : Money; Outcomes : list ExposureOutcome
}.
Record OpenWagerRow := mkOpenWagerRow {
  OW_PlacedAt : Time; OW_MemberID : string; OW_Member : string; OW_Market : string; OW_Selection : string;
  OW_Odds : AmericanOdds; OW_Stake : Money; ToWin : Money
}.
Record PlayerResult := mkPlayerResult {
  PL_UserID : string; PL_Name : string; PL_Net : Money; Won : Z; Lost : Z; Pushed : Z; PL_Open : Z; PL_Handle : Money;
  BarPercent : Z
}.
Record OutstandingRow := mkOutstandingRow { OR_UserID : string; OR_Name : string; OR_Balance : Money }.
Definition OutstandingRow_Owes (r : OutstandingRow) : bool := Cents (OR_Balance r) <? 0.
Record BookPulse := mkBookPulse {
  BP_AsOf : Time; HouseResult : Money; Escrow : Money; BP_Handle : Money; WorstCase : Money; BestCase : Money;
  OpenMarkets : Z; BP_PendingWagers : Z; BP_PendingStake : Money; OpenWagerCount : Z; Exposure : list MarketExposure;
  BP_OpenWagers : list OpenWagerRow; Players : list PlayerResult; PlayerScale : Money; BP_Outstanding : list OutstandingRow;
  OwedToBook : Money; OwedByBook : Money
}.
Record AdminReconciliationSummary := mkAdminReconciliationSummary {
  RS_AsOf : Time; LedgerBalanced : bool; LedgerTransactions : Z; UnbalancedTransactions : Z; PendingOutboxEvents : Z;
  FailedOutboxEvents : Z; MigrationDifference : Money
}.

(** The standings bars: a track of 200 units with zero at 100. *)
Definition Ahead (p : PlayerResult) : bool := 0 <? Cents (PL_Net p).
Definition BarTrackUnits : Z := 200.
Definition BarZeroUnit : Z := Z.quot BarTrackUnits 2.
Definition BarWidth (p : PlayerResult) : Z :=
  if Cents (PL_Net p) =? 0 then 0 else Z.min (Z.max (BarPercent p) 1) BarZeroUnit.
Definition BarX (p : PlayerResult) : Z := if Ahead p then BarZeroUnit else BarZeroUnit - BarWidth p.

(** A bar stays on the track, on the side of its player's result. *)
Lemma bars_stay_on_the_track p :
  0 <= BarX p /\ BarX p + BarWidth p <= BarTrackUnits
  /\ (if Ahead p then BarX p = BarZeroUnit else BarX p + BarWidth p = BarZeroUnit)
  /\ (BarWidth p = 0 <-> Cents (PL_Net p) = 0).
Proof.
  unfold BarX, BarWidth, Ahead, BarZeroUnit, BarTrackUnits. change (Z.quot 200 2) with 100.
  destruct (Z.eqb_spec (Cents (PL_Net p)) 0) as [->|Hne]; [by cbn|]. destruct (0 <? Cents (PL_Net p)); lia.
Qed.

(** ** The readers' calls *)
Inductive private_call : Type -> Type :=
  | QDashboardSummary (userID : string) : private_call DashboardSummary
  | QLedgerRows (userID : string) : private_call (list LedgerRow)
  | QWagerRows (userID : string) : private_call (list WagerRow)
  | QReconciliationSummary : private_call AdminReconciliationSummary
  | QBookPulse : private_call BookPulse.

Inductive page :=
  | Forbidden
  | Book (summary : DashboardSummary)
  | LedgerPage (rows : list LedgerRow)
  | WagersPage (rows : list WagerRow)
  | AdminPage (summary : AdminReconciliationSummary) (pulse : BookPulse).

#[local] Abbreviation handler := (program private_call (response page)).
Definition forbidden : response page := Rendered StatusForbidden Forbidden.

(** ** Handlers *)
Definition requireMember (v : Visit) (k : WebSession -> handler) : handler :=
  with_session v internalError (fun session =>
  if negb (WS_Active session) || bool_decide (WS_UserID session = ""%string) || negb (validMemberRole (WS_Role session))
  then respond forbidden else k session).

Definition book (v : Visit) : handler :=
  requireMember v (fun session => loaded (QDashboardSummary (WS_UserID session)) (fun summary => render (Book summary))).
Definition ledger (v : Visit) : handler :=
  requireMember v (fun session => loaded (QLedgerRows (WS_UserID session)) (fun rows => render (LedgerPage rows))).
Definition wagers (v : Visit) : handler :=
  requireMember v (fun session => loaded (QWagerRows (WS_UserID session)) (fun rows => render (WagersPage rows))).
Definition admin (v : Visit) : handler :=
  requireMember v (fun session =>
  if negb (is_admin session) then respond forbidden
  else
    loaded QReconciliationSummary (fun summary =>
    loaded QBookPulse (fun pulse => render (AdminPage summary pulse)))).

Inductive route := GetBook | GetLedger | GetWagers | GetAdmin.
Definition ServeHTTP (to_ : route) (v : Visit) : handler :=
  match to_ with GetBook => book v | GetLedger => ledger v | GetWagers => wagers v | GetAdmin => admin v end.

(** ** What is read for whom *)

(** Whose data a call asks for: a member's own, or the book's. *)
Definition readable (session : WebSession) {X} (c : private_call X) : Prop :=
  match c with
  | QDashboardSummary u | QLedgerRows u | QWagerRows u => u = WS_UserID session
  | QReconciliationSummary | QBookPulse => is_admin session = true
  end.
Definition entry_readable (session : WebSession) (e : entry private_call) : Prop := match e with Entry c _ => readable session c end.

(** A member's pages read that member's data only; book-wide figures, which
    name other members, are read for administrators and owners. *)
Theorem pages_read_for_their_session to_ v :
  logs (fun _ log => log = [] \/ exists session, v_session v = Ok session /\ WS_Active session = true /\ WS_UserID session <> ""%string
    /\ Forall (entry_readable session) log) (ServeHTTP to_ v).
Proof.
  destruct to_; cbn; unfold book, ledger, wagers, admin, requireMember, with_session;
    (destruct (v_session v) as [session|err]; [|destruct (errors_is _ err); by left]);
    (destruct (negb (WS_Active session) || _ || _) eqn:Hr; [by left|]); bool_prop; cbn;
    try (destruct (is_admin session) eqn:Ha; [|by left]; cbn).
  all: repeat (let r := fresh "r" in intros r; destruct r; cbn); right; exists session; split_and!; try done;
    repeat (constructor; [done|]); constructor.
Qed.
