(* ===== verification/BettingWeb.v ===== *)
(** * internal/bettingweb: the pages of the book

    The calls of the interfaces the package declares, what the pages show and
    what the forms are read as, for the handlers of [BettingPages].  The calls
    that change the book are the commands of [StoreRefinement]; the others only
    read. *)
From S2P Require Import Prelude GoStrings GoTime SQL Ledger Identity Betting Corrections Parlay BettingDB PricingStore WagerStore ParlayStore.
From S2P Require Import MarketStore AdminStore AdjustStore ReadersStore StoreRefinement Url AuthWeb Web PrivateWeb.

#[local] Abbreviation Get := AuthWeb.Get.

(** ** The calls *)
(** [bettingpg.MatchMarketOption] *)
Record MatchMarketOption := mkMatchMarketOption {
  MM_MatchID : string; EventName : string; SeasonYear : Z; MatchNumber : Z; MM_Format : string;
  Side1ID : string; Side1TeamName : string; Side1Players : string;
  Side2ID : string; Side2TeamName : string; Side2Players : string
}.
Definition Side1BetLabel (m : MatchMarketOption) : string := matchBetLabel (Side1TeamName m) (Side1Players m).
Definition Side2BetLabel (m : MatchMarketOption) : string := matchBetLabel (Side2TeamName m) (Side2Players m).
Definition MM_Title (m : MatchMarketOption) : string :=
  (EventName m ++ " " ++ sprint_d (SeasonYear m) ++ " · Match " ++ sprint_d (MatchNumber m) ++ " · " ++ Side1BetLabel m
   ++ " vs " ++ Side2BetLabel m)%string.

(** What a command answers with. *)
Definition answer_of (c : command) : Type :=
  match c with
  | CPlaceWager _ | CAcceptWager _ _ | CRejectWager _ _ _ | CCancelWager _ _ | CVoidWager _ _ _ => Wager
  | CReduceWager _ _ _ _ => Wager * Money
  | CPlaceParlay _ | CAcceptParlay _ _ | CQuoteParlay _ => ParlayRow
  | CCreateMarket _ => Market
  | CSettleMarket _ | CVoidMarket _ | CRegrade _ _ _ => SettleReport
  | CSetOpeningLine _ _ _ _ _ | CReprice _ _ => bool
  | CRecordSettlement _ | CReverseSettlement _ _ _ => SettlementRow
  | _ => unit
  end.

(** [MarketStore], [WagerStore], [ParlayStore], [MemberStore],
    [SettlementStore], [LedgerReader] and [newID]. *)
Inductive book_call : Type -> Type :=
  | NewID : book_call string
  | Command (c : command) : book_call (answer_of c)
  | QMarkets : book_call (list MarketListRow)
  | QOpenMarkets : book_call (list MarketListRow)
  | QOpenMarketsForUser (userID : string) : book_call (list MarketListRow)
  | QRestrictions : book_call (list RestrictionRow)
  | QMembers : book_call (list MemberOption)
  | QMarketableMatches : book_call (list MatchMarketOption)
  | QStrandedWagers (marketID : string) : book_call (list StrandedWagerRow)
  | QParlaysForUser (userID : string) : book_call (list ParlayRow)
  | QPendingParlays : book_call (list ParlayRow)
  | QWagersByState (state : WagerState) : book_call (list AdminWagerRow)
  | QWagerRecord (limit : Z) : book_call (list WagerRecordRow)
  | QWagersForUser (userID : string) : book_call (list UserWagerRow)
  | QAutoApproveLimit (userID : string) : book_call (Z * bool)
  | QMemberBook (userID : string) (defaultAutoApproveCents : Z) : book_call MemberBookRow
  | QMemberLedger (userID : string) : book_call (list PrivateWeb.LedgerRow)
  | QSettlements (limit : Z) : book_call (list SettlementRow)
  | QMemberBalances (currency : Currency) : book_call (list MemberBalanceRow).

(** ** Views *)
Record selectionView := mkSelectionView { SV_Row : MarketSelectionRow; SV_MarketID : string; PlaceKey : string; Parlayable : bool }.
Record marketView := mkMarketView { MV_Market : MarketListRow; MV_Selections : list selectionView }.

Inductive lineMove := lineUnchanged | lineToMember | lineToBook | lineOffBoard.
#[export] Instance lineMove_eq_dec : EqDecision lineMove.
Proof. solve_decision. Defined.

(** Profit per unit stake as an exact fraction; the products of two int32
    prices fit an int64. *)
Definition payoutRatio (odds : AmericanOdds) : Z * Z := if 0 <? odds then (odds, 100) else (100, - odds).
Definition compareLines (accepted current : AmericanOdds) : lineMove :=
  if accepted =? current then lineUnchanged
  else
    let '(acceptedNum, acceptedDen) := payoutRatio accepted in
    let '(currentNum, currentDen) := payoutRatio current in
    let left := wrap64 (acceptedNum * currentDen) in
    let right := wrap64 (currentNum * acceptedDen) in
    if right <? left then lineToMember else if left <? right then lineToBook else lineUnchanged.

Record adminWagerView := mkAdminWagerView { AV_Row : AdminWagerRow; AV_Move : lineMove; LiveProfit : Money; ProfitDelta : Money }.
Definition no_money : Money := mkMoney 0 "".
(** [accepted.Add(negated subtracted)], or what was there when that fails. *)
Definition delta_or (def from subtracted : Money) : Money :=
  match Negate subtracted with
  | Ok negated => match Money_Add from negated with Ok delta => delta | Err _ => def end
  | Err _ => def
  end.
Definition off_board (active : bool) (state : MarketState) : bool := negb active || negb (bool_decide (state = MarketOpen)).
Definition newAdminWagerView (row : AdminWagerRow) : adminWagerView :=
  if off_board (AW_SelectionActive row) (AW_MarketState row) then mkAdminWagerView row lineOffBoard no_money no_money
  else
    let move := compareLines (AW_Odds row) (AW_CurrentOdds row) in
    match Profit (AW_CurrentOdds row) (AW_Stake row) with
    | Err _ => mkAdminWagerView row move no_money no_money
    | Ok liveProfit => mkAdminWagerView row move liveProfit (delta_or no_money liveProfit (AW_PotentialProfit row))
    end.
Definition adminWagerViews (rows : list AdminWagerRow) : list adminWagerView := newAdminWagerView <$> rows.

Record memberWagerView := mkMemberWagerView { UV_Row : UserWagerRow; UV_Move : lineMove }.
Definition memberWagerViews (rows : list UserWagerRow) : list memberWagerView :=
  (fun row => mkMemberWagerView row (if off_board (UW_SelectionActive row) (UW_MarketState row) then lineOffBoard
                                     else compareLines (UW_Odds row) (UW_CurrentOdds row))) <$> rows.
Definition CanCancel (v : memberWagerView) : bool := bool_decide (UW_State (UV_Row v) = WagerPending).
Definition Cancelled (v : memberWagerView) : bool :=
  bool_decide (UW_State (UV_Row v) = WagerRejected) && bool_decide (UW_RejectionReason (UV_Row v) = CancelWagerReason).
Definition MovedAgainstMember (v : memberWagerView) : bool := CanCancel v && bool_decide (UV_Move v = lineToBook).
Definition MovedForMember (v : memberWagerView) : bool := CanCancel v && bool_decide (UV_Move v = lineToMember).
Definition ShowLiveLine (v : memberWagerView) : bool := CanCancel v && negb (bool_decide (UV_Move v = lineOffBoard)).

(** record.go *)
Inductive closeVerdict := verdictPending | verdictBeat | verdictBehind | verdictLevel.
Record wagerRecordView := mkWagerRecordView {
  RV_Row : WagerRecordRow; Verdict : closeVerdict; ClosingProfit : Money; Edge : Money; Drift : Money
}.
Definition difference (from subtracted : Money) : Money := delta_or (mkMoney 0 (Money_Currency from)) from subtracted.
Definition wagerRecordView_of (row : WagerRecordRow) : wagerRecordView :=
  if negb (MarketClosedRecord row) then mkWagerRecordView row verdictPending no_money no_money no_money
  else
    let verdict := match compareLines (TakenOdds row) (ClosingOdds row) with
                   | lineToMember => verdictBeat
                   | lineToBook => verdictBehind
                   | _ => verdictLevel
                   end in
    let closing := Profit (ClosingOdds row) (WR_Stake row) in
    let opening := Profit (OpeningOdds row) (WR_Stake row) in
    mkWagerRecordView row verdict
      (match closing with Ok c => c | Err _ => no_money end)
      (match closing with Ok c => difference (WR_PotentialProfit row) c | Err _ => no_money end)
      (match opening, closing with Ok o, Ok c => difference c o | _, _ => no_money end).
Definition wagerRecordViews (rows : list WagerRecordRow) : list wagerRecordView := wagerRecordView_of <$> rows.
Definition CanVoid (v : wagerRecordView) : bool :=
  bool_decide (WR_State (RV_Row v) = WagerAccepted) && bool_decide (WR_Result (RV_Row v) = None).
Definition LineMovedOnOpen (v : wagerRecordView) : bool := negb (OpeningOdds (RV_Row v) =? ClosingOdds (RV_Row v)).

Record strandedWagerView := mkStrandedWagerView { ST_Row : StrandedWagerRow; ST_Stake : Money }.
Definition strandedWagerViews (rows : list StrandedWagerRow) : list strandedWagerView :=
  (fun row => mkStrandedWagerView row (mkMoney (SW_StakeCents row) CAD)) <$> rows.

(** settleup.go *)
Record settleUpView := mkSettleUpView { SU_Row : MemberBalanceRow; SU_Direction : AdjustmentDirection; SU_Amount : string }.
Definition settleUpViews (balances : list MemberBalanceRow) : list settleUpView :=
  (fun balance =>
     let cents := Cents (MBR_Balance balance) in
     if cents <? 0 then mkSettleUpView balance AdjustmentPaymentReceived (formatCentsDollars (wrap64 (- cents)))
     else mkSettleUpView balance AdjustmentPayoutSent (formatCentsDollars cents)) <$> balances.

(** parlay.go *)
Record parlayLegView := mkParlayLegView { LV_MarketTitle : string; LV_Terms : string; LV_Odds : AmericanOdds }.
Record parlaySlipView := mkParlaySlipView {
  SL_Legs : Z; LegRows : list parlayLegView; Priced : bool; SL_Odds : AmericanOdds; StakeInput : string; SL_StakeCents : Z;
  ProfitCents : Z; ReturnCents : Z; SL_Notice : string
}.

Inductive page :=
  | Forbidden
  | MessagePage (title notice formError backLink : string)
  | ActionResult (message detail : string) (isError : bool)
  | ParlaySlip (view : parlaySlipView)
  | BookMarkets (views : list marketView) (parlayable : bool) (parlayKey : string)
  | BookWagers (wagers : list memberWagerView) (parlays : list ParlayRow)
  | AdminMarkets (views : list marketView) (restrictions : list RestrictionRow) (members : list MemberOption)
  | AdminMarketNew (formError newMarketID : string) (form : Values) (slots : list Z) (matches : list MatchMarketOption)
  | AdminMarketSettle (market : marketView) (stranded : list strandedWagerView)
  | AdminWagers (wagers : list adminWagerView) (parlays : list ParlayRow)
  | AdminWagerRecord (record : list wagerRecordView)
  | AdminSettleUp (outstanding : list settleUpView) (history : list SettlementRow)
  | AdminMemberBook (book : MemberBookRow) (wagers : list memberWagerView) (entries : list PrivateWeb.LedgerRow)
      (views : list marketView)
  | AdminHelp (autoApprove lineWeight credit : string).

(** ** Errors of the store *)
Definition storeErrorStatus (err : error) : Z * string :=
  let because name := errors_is name err in
  if because "betting.ErrNotFound" then (StatusNotFound, "The requested record was not found.")
  else if because "bettingpg.ErrInsufficientFunds" then (StatusConflict, "The member's funding account does not cover this stake.")
  else if because "bettingpg.ErrMarketDecided" then (StatusConflict, "This market has already been settled or voided, so there is nothing left to grade this wager against. Void the wager to return the stake, or reopen the question with the owner.")
  else if because "bettingpg.ErrMarketNotSettleable" then (StatusConflict, "This market is not in a state that can be settled or voided. Only a draft market cannot be graded; a market already settled or voided is final.")
  else if because "bettingpg.ErrMarketNotOpenable" then (StatusConflict, "This market cannot be opened from its current state.")
  else if because "bettingpg.ErrMatchMarketExists" then (StatusConflict, "That match already has an active market. Choose another match.")
  else if because "bettingpg.ErrIdempotencyConflict" || because "betting.ErrIdempotencyConflict"
  then (StatusConflict, "This request conflicts with one already recorded.")
  else if because "betting.ErrMarketNotOpen" then (StatusConflict, "This market is not open for wagers.")
  else if because "betting.ErrSelectionInactive" then (StatusConflict, "This selection is no longer available.")
  else if because "betting.ErrUserRestricted" then (StatusForbidden, "This account is not able to bet on this market.")
  else if because "betting.ErrStakeAboveLimit" then (StatusConflict, "That would go over this market's limit for one member. Check what is already on it.")
  else if because "betting.ErrSideFull" then (StatusConflict, "The book has taken all it will take on that outcome. Try the other side, or a smaller stake if some room is left.")
  else if because "betting.ErrPayoutAboveLimit" then (StatusConflict, "That would win more than the book's maximum payout on a single wager. Lower the stake.")
  else if because "betting.ErrInvalidTransition" then (StatusConflict, "This action is not allowed in the current state.")
  else if because "betting.ErrReasonRequired" then (StatusBadRequest, "A reason is required for this action.")
  else if because "betting.ErrUnauthorized" then (StatusForbidden, "You are not authorized to perform this action.")
  else if because "ledger.ErrCurrencyMismatch" then (StatusBadRequest, "The stake currency does not match the market.")
  else if because "betting.ErrInvalid" then (StatusBadRequest, "The submitted values were not valid.")
  else (StatusInternalServerError, "Unable to complete this request.")%string.

(** ** Forms *)
Definition market_type_of (t : string) : MarketType :=
  if bool_decide (t = "match"%string) then MarketMatch
  else if bool_decide (t = "future"%string) then MarketFuture
  else if bool_decide (t = "prop"%string) then MarketProp else MarketTypeOther t.
Definition result_of (t : string) : SettlementResult :=
  if bool_decide (t = "win"%string) then ResultWin
  else if bool_decide (t = "loss"%string) then ResultLoss
  else if bool_decide (t = "push"%string) then ResultPush
  else if bool_decide (t = "void"%string) then ResultVoid else ResultOther t.
Definition direction_of (t : string) : AdjustmentDirection :=
  if bool_decide (t = "payment_received"%string) then AdjustmentPaymentReceived
  else if bool_decide (t = "payout_sent"%string) then AdjustmentPayoutSent else AdjustmentOther t.

Definition startingSelectionSlots : Z := 4.
Definition maxTitleLen : Z := 200.
Definition defaultMarketForm (liquidityDefaultCents : Z) : Values :=
  list_to_map [("market_type", ["future"]); ("dynamic_pricing", ["1"]);
               ("pricing_liquidity", [formatCentsDollars liquidityDefaultCents]); ("currency", ["CAD"]);
               ("match_sign_1", ["-"]); ("match_odds_1", ["110"]); ("match_sign_2", ["-"]); ("match_odds_2", ["110"])]%string.

(** [fmt.Sprintf("selection_terms_%d", slot)] and its like *)
Definition slot_name (prefix : string) (slot : Z) : string := (prefix ++ "_" ++ sprint_d slot)%string.
Definition trimmed (name : string) (form : Values) : string := TrimSpace (Get name form).
Definition blank_field (name : string) (form : Values) : bool := bool_decide (trimmed name form = ""%string).
(** [1, ..., n] *)
Definition slots_upto (n : Z) : list Z := Z.of_nat <$> seq 1 (Z.to_nat n).

Definition highestSelectionSlot (form : Values) : Z :=
  foldl (fun highest slot =>
           if negb (blank_field (slot_name "selection_terms" slot) form) || negb (blank_field (slot_name "selection_odds" slot) form)
           then slot else highest) 0 (slots_upto MaxSelectionsPerMarket).
Definition selectionSlots (form : Values) : list Z :=
  let count := startingSelectionSlots in
  let used := highestSelectionSlot form in
  let count := if count <=? used then used + 1 else count in
  let count := if MaxSelectionsPerMarket <? count then MaxSelectionsPerMarket else count in
  slots_upto count.

Definition sign_byte (a : ascii) : bool := byte_is 43 a || byte_is 45 a.
Definition parseAmericanOdds (form : Values) (prefix : string) (slot : Z) : result Z :=
  let raw := trimmed (slot_name (prefix ++ "_odds") slot) form in
  fail_if (bool_decide (raw = ""%string)) ErrInvalidAmericanOdds;;
  let sign := trimmed (slot_name (prefix ++ "_sign") slot) form in
  fail_if (negb (bool_decide (sign ∈ [""; "+"; "-"]%string))) ErrInvalidAmericanOdds;;
  let raw := if negb (bool_decide (sign = ""%string)) && negb (existsb sign_byte (take 1 (bytes raw)))
             then (sign ++ raw)%string else raw in
  match ParseInt 32 raw with
  | None => Err (Errorf "strconv.ParseInt")
  | Some parsed => NewAmericanOdds parsed
  end.

(** setline.go: [-150], [+120], or a bare [120]. *)
Definition trim_plus (s : string) : string :=
  match s with String a rest => if byte_is 43 a then rest else s | EmptyString => s end.
Definition parseLineOdds (value : string) : result AmericanOdds :=
  match ParseInt 32 (trim_plus (TrimSpace value)) with
  | None => Err (Errorf "strconv.ParseInt")
  | Some parsed => NewAmericanOdds parsed
  end.

(** parlay.go *)
Fixpoint parlay_legs (values : list string) (seenMarket : gset string) : result (list ParlayLegRequest) :=
  match values with
  | [] => Ok []
  | value :: rest =>
      let '(marketID, selectionID, found) := cut_at 58 (bytes (TrimSpace value)) in
      let marketID := of_bytes marketID in
      let selectionID := of_bytes selectionID in
      if negb found || negb (isUUID marketID) || negb (isUUID selectionID) then parlay_legs rest seenMarket
      else
        fail_if (bool_decide (marketID ∈ seenMarket)) ErrParlayDuplicateMarket;;
        legs ← parlay_legs rest ({[marketID]} ∪ seenMarket);
        Ok (mkParlayLegRequest marketID selectionID :: legs)
  end.
Definition parseParlayLegs (values : list string) : result (list ParlayLegRequest) := parlay_legs values ∅.
Definition parlayRequestFrom (form : Values) (userID : string) : result PlaceParlayRequest :=
  legs ← parseParlayLegs (all_values "leg" form);
  stakeCents ← parseStakeCents (trimmed "parlay_stake" form);
  Ok (mkPlaceParlayRequest "" userID legs FundingUserCash stakeCents CAD "" "").

(** What the parsing of a form has to say instead of a request. *)
Inductive parsed (A : Type) := Parsed (a : A) | Says (message : string).
Arguments Parsed {A} a.
Arguments Says {A} message.
#[export] Instance parsed_bind : MBind parsed := fun A B k m => match m with Parsed a => k a | Says e => Says e end.
Definition need (ok : bool) (message : string) : parsed unit := if ok then Parsed () else Says message.
Definition or_says {A} (r : result A) (message : string) : parsed A := match r with Ok a => Parsed a | Err _ => Says message end.
(** A dollar amount, zero when the field is blank. *)
Definition optional_cents (name : string) (form : Values) (message : string) : parsed Z :=
  if blank_field name form then Parsed 0 else or_says (parseStakeCents (trimmed name form)) message.

(** The rows of outcomes, from [slot] on. *)
Fixpoint parse_selections (form : Values) (match_market : bool) (slots : list Z) : parsed (list CreateMarketSelection) :=
  match slots with
  | [] => Parsed []
  | slot :: rest =>
      let n := sprint_d slot in
      let terms := if match_market then ("Match side " ++ n)%string else trimmed (slot_name "selection_terms" slot) form in
      let oddsPrefix := if match_market then "match"%string else "selection"%string in
      let no_odds := blank_field (slot_name (oddsPrefix ++ "_odds") slot) form in
      if bool_decide (terms = ""%string) && no_odds then parse_selections form match_market rest
      else
        need (negb (bool_decide (terms = ""%string))) ("Outcome " ++ n ++ " has odds but no name.");;
        need (negb no_odds) ("Enter American odds for outcome " ++ n ++ ".");;
        odds ← or_says (parseAmericanOdds form oddsPrefix slot)
                 ("Outcome " ++ n ++ " odds must have a magnitude of at least 100, for example −110 or +150.");
        cents ← optional_cents (slot_name "selection_max" slot) form
                  ("Outcome " ++ n ++ "'s limit must be a dollars-and-cents amount, or blank.");
        selections ← parse_selections form match_market rest;
        Parsed (mkCreateMarketSelection cents ("outcome-" ++ n) terms odds "" :: selections)
  end.

Section parse_create_market.
Context (halifax : Z * Z * Z * Z * Z -> Time).
Definition parse_times (form : Values) (now : Time) : parsed (Time * Time) :=
  closesAt ← or_says (parseFormTime halifax (Get "closes_at" form)) "Choose a closing date and time in Atlantic time.";
  need (negb (IsZero closesAt)) "Choose a closing date and time in Atlantic time.";;
  need (After closesAt (UTC now)) "The closing time must be in the future.";;
  if blank_field "opens_at" form then Parsed (zeroTime, closesAt)
  else
    opensAt ← or_says (parseFormTime halifax (trimmed "opens_at" form)) "Choose a valid opening date and time in Atlantic time.";
    need (After closesAt opensAt) "The closing time must be after the opening time.";;
    Parsed (opensAt, closesAt).

Definition parseCreateMarketForm (form : Values) (now : Time) : parsed CreateMarketRequest :=
  let marketID := Get "market_id" form in
  need (isUUID marketID) "The form is missing its server token. Reload the page and try again.";;
  let type := market_type_of (Get "market_type" form) in
  let match_market := bool_decide (type = MarketMatch) in
  need (is_Ok (MarketType_Validate type)) "Choose a market type of match, future, or prop.";;
  let matchID := trimmed "match_id" form in
  need (negb match_market || isUUID matchID) "Choose the match this market belongs to.";;
  need (match_market || bool_decide (matchID = ""%string)) "Only match markets may reference a match.";;
  let title := trimmed "title" form in
  need (match_market || (negb (bool_decide (title = ""%string)) && (len title <=? maxTitleLen)))
    "Enter a market title between 1 and 200 characters.";;
  currency ← or_says (ParseCurrency (trimmed "currency" form)) "Choose a three-letter currency code such as CAD.";
  let dynamic := negb (bool_decide (Get "dynamic_pricing" form = ""%string)) in
  liquidity ← (if dynamic then optional_cents "pricing_liquidity" form
                 "Enter the pricing liquidity as a dollar amount, for example 500 (larger moves the line less)."
               else Parsed 0);
  '(opensAt, closesAt) ← parse_times form now;
  let lastSlot := if match_market then 2 else MaxSelectionsPerMarket in
  selections ← parse_selections form match_market (slots_upto lastSlot);
  need (negb (bool_decide (selections = []))) "Add at least one outcome and its odds.";;
  need (negb match_market || (Z.of_nat (length selections) =? 2)) "Enter prices for both sides of the match.";;
  cap ← optional_cents "max_stake" form
          "Enter the per-member limit as a dollars-and-cents amount, or leave it blank for no limit.";
  need (negb dynamic || (2 <=? Z.of_nat (length selections)))
    "Dynamic pricing needs at least two outcomes. Add another outcome or turn dynamic pricing off.";;
  Parsed (mkCreateMarketRequest marketID type matchID title currency opensAt closesAt selections "" dynamic liquidity cap).
End parse_create_market.
