(* ===== verification/BettingPages.v ===== *)
(** * internal/bettingweb: the handlers

    The handlers of bettingweb.go, memberbook.go, parlay.go, record.go,
    restrict.go, setline.go and settleup.go as programs over the calls of
    [BettingWeb].  Texts shown to people are kept, the templates that show them
    are not. *)
From S2P Require Import Prelude GoStrings GoTime SQL Ledger Identity Betting Corrections Parlay BettingDB PricingStore WagerStore ParlayStore.
From S2P Require Import MarketStore AdminStore AdjustStore ReadersStore StoreRefinement Url AuthWeb Web PrivateWeb BettingWeb.

#[local] Abbreviation Get := AuthWeb.Get.

(** ** The handlers *)
Record BookConfig := mkBookConfig {
  autoApproveMaxCents : Z; pricingLiquidityDefaultCents : Z; defaultCreditLimitCents : Z
}.
(** [New]: the default line weight when none is configured. *)
Definition New (hasDependencies : bool) (deps : BookConfig) : result BookConfig :=
  fail_if (negb hasDependencies) (Errorf "betting web dependencies must all be configured");;
  Ok (mkBookConfig (autoApproveMaxCents deps)
        (if pricingLiquidityDefaultCents deps <=? 0 then DefaultPricingLiquidityCents else pricingLiquidityDefaultCents deps)
        (defaultCreditLimitCents deps)).

Definition redirectBookWagers : string := "/book/wagers".
Definition redirectAdminMarkets : string := "/admin/markets".
Definition redirectAdminWagers : string := "/admin/wagers".
Definition redirectAdminWagerRecord : string := "/admin/wagers/record".
Definition redirectAdminSettleUp : string := "/admin/settle-up".
Definition memberBookPath (userID : string) : string := ("/admin/members/" ++ userID ++ "/book")%string.
Definition bookMarketsPath : string := "/book/markets".
Definition adminMembersPath : string := "/admin/members".

#[local] Abbreviation handler := (program book_call (response page)).
Definition forbidden : response page := Rendered StatusForbidden Forbidden.

Definition completePost (v : Visit) (redirectTo message detail : string) : handler :=
  respond (if v_htmx v then Rendered StatusOK (ActionResult message detail false) else SeeOther redirectTo).
Definition failPost (v : Visit) (status : Z) (message backLink : string) : handler :=
  respond (if v_htmx v then Rendered status (ActionResult "The request was not completed." message true)
           else Rendered status (MessagePage "The request was not completed" "Betting" message backLink)).
(** A store error as [storeErrorStatus] says it, unless one of the sentinels
    the handler looks for first is its cause. *)
Definition fail_with (v : Visit) (err : error) (special : list (string * (Z * string))) (backLink : string) : handler :=
  let '(status, text) := default (storeErrorStatus err) (snd <$> head (List.filter (fun x => errors_is x.1 err) special)) in
  failPost v status text backLink.

Definition requireMember (v : Visit) (k : WebSession -> handler) : handler :=
  with_session v internalError (fun session =>
  if negb (WS_Active session) || bool_decide (WS_UserID session = ""%string) || negb (validMemberRole (WS_Role session))
  then respond forbidden else k session).
Definition requireAdmin (v : Visit) (k : WebSession -> handler) : handler :=
  requireMember v (fun session => if negb (is_admin session) then respond forbidden else k session).

Definition checkedForm (v : Visit) (session : WebSession) (k : Values -> handler) : handler :=
  match v_form v with
  | Err _ => failPost v StatusBadRequest "The submitted form could not be read." "/book"
  | Ok form => if token_matches form session then k form else respond forbidden
  end.
(** The two checks every form of a member, or of an administrator, begins
    with. *)
Definition member_form (v : Visit) (k : WebSession -> Values -> handler) : handler :=
  requireMember v (fun session => checkedForm v session (k session)).
Definition admin_form (v : Visit) (k : WebSession -> Values -> handler) : handler :=
  requireAdmin v (fun session => checkedForm v session (k session)).
(** The reason a form must give. *)
Definition with_reason (v : Visit) (form : Values) (message backLink : string) (k : string -> handler) : handler :=
  let reason := reason_of form in
  if bad_reason reason then failPost v StatusBadRequest message backLink else k reason.

(** *** Shared loads *)
Definition market_not_found : response page :=
  Rendered StatusNotFound (MessagePage "Market not found" "404" "The requested market was not found." redirectAdminMarkets).
Definition findMarket (marketID : string) (k : MarketListRow -> handler) : handler :=
  if negb (isUUID marketID) then respond market_not_found
  else
    loaded QMarkets (fun markets =>
    match List.find (fun market => bool_decide (ML_ID market = marketID)) markets with
    | Some market => k market
    | None => respond market_not_found
    end).
(** The last active selection of the market with the ID gives the currency. *)
Definition open_currency (marketID selectionID : string) (markets : list MarketListRow) : option Currency :=
  foldl (fun found market =>
           if bool_decide (ML_ID market = marketID)
              && existsb (fun s => bool_decide (MS_ID s = selectionID) && MS_Active s) (ML_Selections market)
           then Some (ML_Currency market) else found) None markets.

Fixpoint selection_views (market : MarketListRow) (rows : list MarketSelectionRow) (k : list selectionView -> handler) : handler :=
  match rows with
  | [] => k []
  | selection :: rest =>
      loaded NewID (fun key =>
      selection_views market rest (fun views =>
      k (mkSelectionView selection (ML_ID market) key (bool_decide (ML_Type market = MarketMatch)) :: views)))
  end.
Fixpoint market_views (markets : list MarketListRow) (k : list marketView -> handler) : handler :=
  match markets with
  | [] => k []
  | market :: rest =>
      selection_views market (ML_Selections market) (fun selections =>
      market_views rest (fun views => k (mkMarketView market selections :: views)))
  end.
(** With place keys, as both callers want them. *)
Definition openMarketViews (userID : string) (k : list marketView -> handler) : handler :=
  loaded (if bool_decide (userID = ""%string) then QOpenMarkets else QOpenMarketsForUser userID) (fun markets => market_views markets k).

Definition plainView (market : MarketListRow) : marketView :=
  mkMarketView market ((fun s => mkSelectionView s (ML_ID market) "" false) <$> ML_Selections market).
Definition plainViews (markets : list MarketListRow) : list marketView := plainView <$> markets.

(** *** Members *)
Definition bookMarkets (v : Visit) : handler :=
  requireMember v (fun session =>
  openMarketViews (WS_UserID session) (fun views =>
  loaded NewID (fun parlayKey =>
  render (BookMarkets views (existsb (fun view => bool_decide (ML_Type (MV_Market view) = MarketMatch)) views)
            ("parlay:" ++ parlayKey))))).

Definition bookWagers (v : Visit) : handler :=
  requireMember v (fun session =>
  loaded (QWagersForUser (WS_UserID session)) (fun wagers =>
  loaded (QParlaysForUser (WS_UserID session)) (fun parlays =>
  render (BookWagers (memberWagerViews wagers) parlays)))).

Definition cancelWager (v : Visit) (wagerID : string) : handler :=
  member_form v (fun session form =>
  if negb (isUUID wagerID) then failPost v StatusNotFound "The requested wager was not found." redirectBookWagers
  else
    r ← call (Command (CCancelWager wagerID (WS_UserID session)));
    match r with
    | Err err =>
        let '(status, text) := storeErrorStatus err in
        failPost v status (if errors_is "betting.ErrInvalidTransition" err
                           then "This wager is no longer pending — the book has already reviewed it."%string else text)
          redirectBookWagers
    | Ok wager => completePost v redirectBookWagers "Wager cancelled."
                    (formatMoney (Stake wager) ++ " was never staked; nothing left your balance.")
    end).

Definition wager_line (w : Wager) : string :=
  (AcceptedTerms w ++ " at " ++ formatOdds (AcceptedOdds w) ++ " for " ++ formatMoney (Stake w))%string.
(** The stake that fills without review: the member's own limit if there is
    one, else the book's. *)
Definition approve_limit (config : BookConfig) (override : result (Z * bool)) : Z :=
  match override with Ok (limit, true) => limit | _ => autoApproveMaxCents config end.

Definition placeWager (config : BookConfig) (v : Visit) : handler :=
  member_form v (fun session form =>
  let marketID := Get "market_id" form in
  let selectionID := Get "selection_id" form in
  let idempotencyKey := Get "idempotency_key" form in
  if negb (isUUID marketID) || negb (isUUID selectionID) || negb (isUUID idempotencyKey)
  then failPost v StatusBadRequest "The wager form was incomplete. Reload the markets page and try again." bookMarketsPath
  else
    match parseStakeCents (Get "stake" form) with
    | Err _ => failPost v StatusBadRequest "Enter the stake as dollars and cents, for example 25 or 25.50." bookMarketsPath
    | Ok stakeCents =>
        loaded QOpenMarkets (fun openMarkets =>
        match open_currency marketID selectionID openMarkets with
        | None => failPost v StatusConflict "That market is no longer open for wagers." bookMarketsPath
        | Some currency =>
            loaded NewID (fun wagerID =>
            r ← call (Command (CPlaceWager (mkPlaceWagerRequest wagerID (WS_UserID session) marketID selectionID FundingUserCash
                                              stakeCents currency idempotencyKey "")));
            match r with
            | Err err => fail_with v err [] bookMarketsPath
            | Ok wager =>
                override ← call (QAutoApproveLimit (WS_UserID session));
                let limit := approve_limit config override in
                let placed := completePost v redirectBookWagers "Wager placed." (wager_line wager ++ ". It is pending admin approval.") in
                if (0 <? limit) && (stakeCents <=? limit) then
                  r ← call (Command (CAcceptWager (Wager_ID wager) AutoApproveActor));
                  match r with
                  | Ok accepted => completePost v redirectBookWagers "Wager accepted."
                                     (wager_line accepted ++ ". Auto-approved and held in escrow.")
                  | Err _ => placed
                  end
                else placed
            end)
        end)
    end).

Definition slip_notice (v : parlaySlipView) (legs : Z) (notice : string) : handler :=
  render (ParlaySlip (mkParlaySlipView legs (LegRows v) (Priced v) (SL_Odds v) (StakeInput v) (SL_StakeCents v) (ProfitCents v)
                        (ReturnCents v) notice)).
Definition correlated_legs : string := "Two legs on the same match cannot be parlayed — pick one side of each.".
Definition bookQuoteParlay (v : Visit) : handler :=
  member_form v (fun session form =>
  let view := mkParlaySlipView 0 [] false 0 (trimmed "parlay_stake" form) 0 0 0 "" in
  match parlayRequestFrom form (WS_UserID session) with
  | Err err =>
      if errors_is "betting.ErrParlayDuplicateMarket" err then slip_notice view 0 correlated_legs
      else slip_notice view (Z.of_nat (length (all_values "leg" form))) "Enter a stake to see the price."
  | Ok request =>
      let legs := Z.of_nat (length (PPR_Legs request)) in
      if legs <? MinParlayLegs then slip_notice view legs "Pick at least two matches to build a parlay."
      else
        r ← call (Command (CQuoteParlay request));
        match r with
        | Err err => slip_notice view legs (storeErrorStatus err).2
        | Ok quote =>
            render (ParlaySlip (mkParlaySlipView legs
              ((fun leg => mkParlayLegView (LR_MarketTitle leg) (LR_AcceptedTerms leg) (LR_AcceptedOdds leg)) <$> PR_Legs quote)
              true (PR_AcceptedOdds quote) (StakeInput view) (PR_StakeCents quote) (PR_PotentialProfit quote)
              (wrap64 (PR_StakeCents quote + PR_PotentialProfit quote)) ""))
        end
  end).

Definition pluralLegs (count : Z) : string := if count =? 1 then "1 leg"%string else (sprint_d count ++ " legs")%string.
Definition set_parlay_ids (id key : string) (r : PlaceParlayRequest) : PlaceParlayRequest :=
  mkPlaceParlayRequest id (PPR_UserID r) (PPR_Legs r) (PPR_Funding r) (PPR_StakeCents r) (PPR_Currency r) key (PPR_PlacedByUserID r).
Definition bookPlaceParlay (v : Visit) : handler :=
  member_form v (fun session form =>
  match parlayRequestFrom form (WS_UserID session) with
  | Err err =>
      failPost v StatusBadRequest (if errors_is "betting.ErrParlayDuplicateMarket" err then correlated_legs
                                   else "Enter the stake as a dollars-and-cents amount."%string) bookMarketsPath
  | Ok request =>
      loaded NewID (fun parlayID =>
      let key := trimmed "idempotency_key" form in
      let key := if bool_decide (key = ""%string) then ("parlay:" ++ parlayID)%string else key in
      r ← call (Command (CPlaceParlay (set_parlay_ids parlayID key request)));
      match r with
      | Err err => fail_with v err [] bookMarketsPath
      | Ok placed =>
          completePost v redirectBookWagers "Parlay submitted for review."
            ("Every parlay is checked by an admin before the book takes it, so nothing has left your balance yet. "
             ++ formatOdds (PR_AcceptedOdds placed) ++ " on " ++ pluralLegs (Z.of_nat (length (PR_Legs placed))) ++ ".")
      end)
  end).

Definition bookCancelParlay (v : Visit) (parlayID : string) : handler :=
  member_form v (fun session form =>
  if negb (isUUID parlayID) then failPost v StatusNotFound "That parlay was not found." redirectBookWagers
  else
    r ← call (Command (CCancelParlay parlayID (WS_UserID session)));
    match r with
    | Err err => fail_with v err
        [("betting.ErrInvalidTransition"%string, (StatusConflict, "The book has already taken this parlay, so it has to be graded rather than withdrawn."%string))]
        redirectBookWagers
    | Ok _ => completePost v redirectBookWagers "Parlay withdrawn." "Nothing had left your balance."
    end).

(** *** Administrators: markets *)
Definition adminHelp (config : BookConfig) (v : Visit) : handler :=
  requireAdmin v (fun session =>
  render (AdminHelp (formatCentsDollars (autoApproveMaxCents config)) (formatCentsDollars (pricingLiquidityDefaultCents config))
            (formatCentsDollars (defaultCreditLimitCents config)))).

Definition adminMarkets (v : Visit) : handler :=
  requireAdmin v (fun session =>
  loaded QMarkets (fun markets =>
  loaded QRestrictions (fun restrictions =>
  loaded QMembers (fun members => render (AdminMarkets (plainViews markets) restrictions members))))).

Definition adminMarketNew (config : BookConfig) (v : Visit) : handler :=
  requireAdmin v (fun session =>
  loaded NewID (fun marketID =>
  loaded QMarketableMatches (fun matches =>
  render (AdminMarketNew "" marketID (defaultMarketForm (pricingLiquidityDefaultCents config)) (selectionSlots ∅) matches)))).

Definition rerenderCreateForm (v : Visit) (form : Values) (formError : string) : handler :=
  let shown (marketID : string) :=
    if v_htmx v then respond (Rendered StatusBadRequest (ActionResult "Market was not created." formError true))
    else
      loaded QMarketableMatches (fun matches =>
      respond (Rendered StatusBadRequest (AdminMarketNew formError marketID form (selectionSlots form) matches))) in
  let marketID := Get "market_id" form in
  if isUUID marketID then shown marketID else loaded NewID shown.

Definition findMarketableMatch (matchID : string) (matches : list MatchMarketOption) : option MatchMarketOption :=
  List.find (fun m => bool_decide (MM_MatchID m = matchID)) matches.
Definition set_side (key terms semantic : string) (s : CreateMarketSelection) : CreateMarketSelection :=
  mkCreateMarketSelection (CMS_MaxStakeCents s) key terms (CMS_OfferedAmericanOdds s) semantic.
(** The title and the two sides of a match market, from the match. *)
Definition name_match_market (match_ : MatchMarketOption) (r : CreateMarketRequest) : CreateMarketRequest :=
  let selections :=
    alter (set_side "side-2" (Side2BetLabel match_ ++ " to win") ("side:" ++ Side2ID match_)) 1%nat
      (alter (set_side "side-1" (Side1BetLabel match_ ++ " to win") ("side:" ++ Side1ID match_)) 0%nat (CMR_Selections r)) in
  mkCreateMarketRequest (CMR_MarketID r) (CMR_Type r) (CMR_MatchID r) (MM_Title match_) (CMR_Currency r) (CMR_OpensAt r)
    (CMR_ClosesAt r) selections (CMR_ActorUserID r) (CMR_DynamicPricing r) (CMR_PricingLiquidityCents r) (CMR_MaxStakeCents r).
Definition set_actor_and_liquidity (actor : string) (liquidity : Z) (r : CreateMarketRequest) : CreateMarketRequest :=
  mkCreateMarketRequest (CMR_MarketID r) (CMR_Type r) (CMR_MatchID r) (CMR_Title r) (CMR_Currency r) (CMR_OpensAt r)
    (CMR_ClosesAt r) (CMR_Selections r) actor (CMR_DynamicPricing r) liquidity (CMR_MaxStakeCents r).

Section time_forms.
Context (halifax : Z * Z * Z * Z * Z -> Time).
Definition adminCreateMarket (config : BookConfig) (v : Visit) : handler :=
  admin_form v (fun session form =>
  match parseCreateMarketForm halifax form (v_now v) with
  | Says formError => rerenderCreateForm v form formError
  | Parsed request =>
      let liquidity := if CMR_DynamicPricing request && (CMR_PricingLiquidityCents request <=? 0)
                       then pricingLiquidityDefaultCents config else CMR_PricingLiquidityCents request in
      let create (request : CreateMarketRequest) :=
        r ← call (Command (CCreateMarket (set_actor_and_liquidity (WS_UserID session) liquidity request)));
        match r with
        | Err err =>
            let '(status, message) := storeErrorStatus err in
            if status =? StatusInternalServerError then respond internalError else rerenderCreateForm v form message
        | Ok _ => completePost v redirectAdminMarkets "Market created." "The market is in draft state until you open it."
        end in
      if bool_decide (CMR_Type request = MarketMatch) then
        loaded QMarketableMatches (fun matches =>
        match findMarketableMatch (CMR_MatchID request) matches with
        | None => rerenderCreateForm v form "Choose an open match that does not already have a market."
        | Some match_ => create (name_match_market match_ request)
        end)
      else create request
  end).

Definition market_missing (v : Visit) : handler := failPost v StatusNotFound "The requested market was not found." redirectAdminMarkets.
Definition adminMarketAction (open : bool) (v : Visit) (marketID : string) : handler :=
  admin_form v (fun session form =>
  if negb (isUUID marketID) then market_missing v
  else
    let finish (r : result unit) (message : string) : handler :=
      match r with
      | Err err => fail_with v err [] redirectAdminMarkets
      | Ok _ => completePost v redirectAdminMarkets message ""
      end in
    if open then r ← call (Command (COpenMarket marketID (WS_UserID session))); finish r "Market opened."%string
    else r ← call (Command (CCloseMarket marketID (WS_UserID session))); finish r "Market closed."%string).

Definition adminSettleForm (v : Visit) (marketID : string) : handler :=
  requireAdmin v (fun session =>
  findMarket marketID (fun market =>
  if bool_decide (ML_State market = MarketSettled) then
    loaded (QStrandedWagers (ML_ID market)) (fun rows => render (AdminMarketSettle (plainView market) (strandedWagerViews rows)))
  else render (AdminMarketSettle (plainView market) []))).

Definition adminRegradeMarket (v : Visit) (marketID : string) : handler :=
  admin_form v (fun session form =>
  findMarket marketID (fun market =>
  with_reason v form "A reason is required (up to 500 characters) and is recorded with the settlement." redirectAdminMarkets (fun reason =>
  r ← call (Command (CRegrade (ML_ID market) (WS_UserID session) reason));
  match r with
  | Err err => fail_with v err [] redirectAdminMarkets
  | Ok report =>
      completePost v redirectAdminMarkets "Ungraded wagers settled."
        (sprint_d (WinCount report + LossCount report + PushCount report + VoidCount report)
         ++ " wager(s) graded against the result this market already recorded.")
  end))).

(** What the form says of each selection of the market; none when one of them
    is not win, loss or push. *)
Definition gradable (r : SettlementResult) : bool :=
  bool_decide (r = ResultWin) || bool_decide (r = ResultLoss) || bool_decide (r = ResultPush).
Fixpoint form_outcome (form : Values) (selections : list MarketSelectionRow) (outcome : gmap string SettlementResult)
    : option (gmap string SettlementResult) :=
  match selections with
  | [] => Some outcome
  | selection :: rest =>
      let r := result_of (Get ("outcome_" ++ MS_ID selection) form) in
      if gradable r then form_outcome form rest (<[MS_ID selection := r]> outcome) else None
  end.
Definition winners (outcome : gmap string SettlementResult) : Z :=
  Z.of_nat (length (List.filter (fun kr => bool_decide (kr.2 = ResultWin)) (map_to_list outcome))).

Definition adminSettleMarket (v : Visit) (marketID : string) : handler :=
  admin_form v (fun session form =>
  findMarket marketID (fun market =>
  with_reason v form "A settlement reason is required (up to 500 characters). Match markets normally settle automatically from the verified result; a manual grade must say why."
    redirectAdminMarkets (fun reason =>
  let action := Get "action" form in
  if bool_decide (action = "void"%string) then
    r ← call (Command (CVoidMarket (mkVoidMarketRequest (ML_ID market) (WS_UserID session) reason)));
    match r with
    | Err err => fail_with v err [] redirectAdminMarkets
    | Ok _ => completePost v redirectAdminMarkets "Market voided." "Every accepted wager was refunded."
    end
  else if bool_decide (action = "settle"%string) then
    match form_outcome form (ML_Selections market) ∅ with
    | None => failPost v StatusBadRequest "Pick win, loss, or push for every selection, or void the whole market." redirectAdminMarkets
    | Some outcome =>
        let deadHeat := bool_decide (Get "dead_heat" form = "on"%string) in
        if deadHeat && (winners outcome <? 2)
        then failPost v StatusBadRequest "A dead heat needs at least two selections marked win. Mark every tied selection as a win, or untick dead heat." redirectAdminMarkets
        else
          r ← call (Command (CSettleMarket (mkSettleMarketRequest (ML_ID market) outcome (WS_UserID session) reason "" deadHeat)));
          match r with
          | Err err => fail_with v err [] redirectAdminMarkets
          | Ok _ =>
              if deadHeat then
                let n := sprint_d (winners outcome) in
                completePost v redirectAdminMarkets "Market settled as a dead heat."
                  (n ++ " selections tied, so each winning wager rode 1/" ++ n
                   ++ " of its stake at its accepted price and lost the rest.")
              else completePost v redirectAdminMarkets "Market settled." "Wagers were graded and paid from escrow."
          end
    end
  else failPost v StatusBadRequest "Choose either settle or void." redirectAdminMarkets))).

(** *** setline.go *)
Definition adminSetLine (v : Visit) (marketID selectionID : string) : handler :=
  admin_form v (fun session form =>
  if negb (isUUID marketID) || negb (isUUID selectionID) then market_missing v
  else
    match parseLineOdds (Get "odds" form) with
    | Err _ => failPost v StatusBadRequest "Enter a line as American odds, at least +100 or at most -100." redirectAdminMarkets
    | Ok odds =>
        with_reason v form "Say why the line is being moved (up to 500 characters) — it goes on the audit trail." redirectAdminMarkets (fun reason =>
        r ← call (Command (CSetOpeningLine marketID selectionID odds (WS_UserID session) reason));
        match r with
        | Err err => fail_with v err
            [("bettingpg.ErrMarketNotPriceable"%string, (StatusConflict, "Only a draft or open market's line can be moved."%string))] redirectAdminMarkets
        | Ok changed =>
            completePost v redirectAdminMarkets ("Line moved to " ++ formatOdds odds ++ ".")
              (if (changed : bool) then "The rest of the board was repriced from the new line and the action already on it. Accepted wagers keep the odds they were filled at."
               else "The board was already at that price.")%string
        end)
    end).

Definition adminSetCloseTime (v : Visit) (marketID : string) : handler :=
  admin_form v (fun session form =>
  if negb (isUUID marketID) then market_missing v
  else
    match parseFormTime halifax (trimmed "closes_at" form) with
    | Err _ => failPost v StatusBadRequest "Choose a valid closing date and time in Atlantic time." redirectAdminMarkets
    | Ok closesAt =>
        with_reason v form "Say why the closing time is moving (up to 500 characters) — it goes on the audit trail." redirectAdminMarkets (fun reason =>
        r ← call (Command (CSetMarketCloseTime marketID closesAt (WS_UserID session) reason));
        match r with
        | Err err => fail_with v err
            [("bettingpg.ErrCloseTimeInPast"%string, (StatusBadRequest, "That time has already passed. To stop taking action now, use Close."%string));
             ("bettingpg.ErrMarketNotPriceable"%string, (StatusConflict, "Only a draft or open market's closing time can be moved."%string))]
            redirectAdminMarkets
        | Ok _ => completePost v redirectAdminMarkets "Closing time moved."
                    "Wagers already on this market keep their odds; only new action is affected."
        end)
    end).
End time_forms.

Definition adminSetStakeLimit (v : Visit) (marketID : string) : handler :=
  admin_form v (fun session form =>
  let selectionID := trimmed "selection_id" form in
  let whole := bool_decide (selectionID = ""%string) in
  if negb (isUUID marketID) then market_missing v
  else if negb whole && negb (isUUID selectionID)
  then failPost v StatusBadRequest "Choose a valid outcome, or set the limit for the whole market." redirectAdminMarkets
  else
    match optional_cents "max_stake" form "Enter the limit as a dollars-and-cents amount, or leave it blank to remove it." with
    | Says message => failPost v StatusBadRequest message redirectAdminMarkets
    | Parsed cents =>
        with_reason v form "Say why the limit is changing (up to 500 characters) — it goes on the audit trail." redirectAdminMarkets (fun reason =>
        r ← call (Command (CSetStakeLimit marketID selectionID cents (WS_UserID session) reason));
        match r with
        | Err err => fail_with v err
            [("bettingpg.ErrMarketNotPriceable"%string, (StatusConflict, "Only a draft or open market's limits can be changed."%string))] redirectAdminMarkets
        | Ok _ =>
            let scope := if whole then "the whole market"%string else "that outcome"%string in
            completePost v redirectAdminMarkets
              (if (cents =? 0)%Z then "Limit removed from " ++ scope ++ "."
               else "Limit on " ++ scope ++ " set to $" ++ formatCentsDollars cents ++ " per member.")%string
              "Wagers already on it stand; the limit applies to new money."
        end)
    end).

Definition adminSetTotalSideCap (v : Visit) (marketID : string) : handler :=
  admin_form v (fun session form =>
  let selectionID := trimmed "selection_id" form in
  if negb (isUUID marketID) then market_missing v
  else if negb (isUUID selectionID) then failPost v StatusBadRequest "Choose which outcome the cap applies to." redirectAdminMarkets
  else
    match optional_cents "side_cap" form "Enter the cap as a dollars-and-cents amount, or leave it blank to remove it." with
    | Says message => failPost v StatusBadRequest message redirectAdminMarkets
    | Parsed cents =>
        with_reason v form "Say why the cap is changing (up to 500 characters) — it goes on the audit trail." redirectAdminMarkets (fun reason =>
        r ← call (Command (CSetTotalSideCap marketID selectionID cents (WS_UserID session) reason));
        match r with
        | Err err => fail_with v err
            [("bettingpg.ErrMarketNotPriceable"%string, (StatusConflict, "Only a draft or open market's caps can be changed."%string))] redirectAdminMarkets
        | Ok _ =>
            completePost v redirectAdminMarkets
              (if (cents =? 0)%Z then "Book-wide cap removed from that outcome."
               else "That outcome will take at most $" ++ formatCentsDollars cents ++ " from all members combined.")%string
              "Wagers already on it stand; the cap applies to new money, counting every member together."
        end)
    end).

Definition adminCloseWithoutAction (v : Visit) (marketID : string) : handler :=
  admin_form v (fun session form =>
  if negb (isUUID marketID) then market_missing v
  else
    with_reason v form "Say why it is being closed out (up to 500 characters) — it goes on the audit trail." redirectAdminMarkets (fun reason =>
    r ← call (Command (CCloseWithoutAction marketID (WS_UserID session) reason));
    match r with
    | Err err => fail_with v err
        [("bettingpg.ErrMarketHasWagers"%string, (StatusConflict, "Somebody has money on this market, so it has to be graded or voided rather than closed out."%string));
         ("bettingpg.ErrMatchMarketNeedsGrading"%string, (StatusConflict, "A match market always grades from its verified result, even with no bets on it."%string));
         ("bettingpg.ErrMarketNotSettleable"%string, (StatusConflict, "Only a closed market awaiting settlement can be closed out without action."%string))]
        redirectAdminMarkets
    | Ok _ => completePost v redirectAdminMarkets "Market closed with no action."
                "Nobody had money on it, so nothing was graded and nothing moved."
    end)).

(** *** restrict.go *)
Definition adminRestrictMember (v : Visit) (marketID : string) : handler :=
  admin_form v (fun session form =>
  let userID := trimmed "user_id" form in
  let selectionID := trimmed "selection_id" form in
  let whole := bool_decide (selectionID = ""%string) in
  if negb (isUUID marketID) then market_missing v
  else if negb (isUUID userID) then failPost v StatusBadRequest "Choose the member to restrict." redirectAdminMarkets
  else if negb whole && negb (isUUID selectionID)
  then failPost v StatusBadRequest "Choose a valid outcome, or restrict the whole market." redirectAdminMarkets
  else
    with_reason v form "Say why this member is restricted (up to 500 characters) — it goes on the audit trail." redirectAdminMarkets (fun reason =>
    r ← call (Command (CRestrictMember (mkRestrictRequest marketID userID selectionID reason (WS_UserID session))));
    match r with
    | Err err => fail_with v err [] redirectAdminMarkets
    | Ok _ =>
        completePost v redirectAdminMarkets "Member restricted."
          (if whole then "They will not see this market at all, and a wager on it is refused."
           else "That outcome is hidden from them, and a wager on it is refused. The rest of the market stays open to them.")%string
    end)).

Definition adminLiftRestriction (v : Visit) (marketID : string) : handler :=
  admin_form v (fun session form =>
  let userID := trimmed "user_id" form in
  if negb (isUUID marketID) || negb (isUUID userID)
  then failPost v StatusNotFound "The requested restriction was not found." redirectAdminMarkets
  else
    r ← call (Command (CLiftRestriction marketID userID (trimmed "selection_id" form)));
    match r with
    | Err err => fail_with v err [("betting.ErrNotFound"%string, (StatusNotFound, "That restriction is no longer in place."%string))] redirectAdminMarkets
    | Ok _ => completePost v redirectAdminMarkets "Restriction lifted." "They can bet this again."
    end).

(** *** Administrators: wagers *)
Definition adminWagers (v : Visit) : handler :=
  requireAdmin v (fun session =>
  loaded (QWagersByState WagerPending) (fun wagers =>
  loaded QPendingParlays (fun parlays => render (AdminWagers (adminWagerViews wagers) parlays)))).

Definition wager_missing (v : Visit) (backLink : string) : handler := failPost v StatusNotFound "The requested wager was not found." backLink.
Definition adminAcceptWager (v : Visit) (wagerID : string) : handler :=
  admin_form v (fun session form =>
  if negb (isUUID wagerID) then wager_missing v redirectAdminWagers
  else
    r ← call (Command (CAcceptWager wagerID (WS_UserID session)));
    match r with
    | Err err => fail_with v err [] redirectAdminWagers
    | Ok wager => completePost v redirectAdminWagers "Wager accepted." (formatMoney (Stake wager) ++ " moved to escrow.")
    end).

Definition adminRejectWager (v : Visit) (wagerID : string) : handler :=
  admin_form v (fun session form =>
  if negb (isUUID wagerID) then wager_missing v redirectAdminWagers
  else
    with_reason v form "A rejection reason is required (up to 500 characters)." redirectAdminWagers (fun reason =>
    r ← call (Command (CRejectWager wagerID (WS_UserID session) reason));
    match r with
    | Err err => fail_with v err [] redirectAdminWagers
    | Ok _ => completePost v redirectAdminWagers "Wager rejected." "No funds moved."
    end)).

Definition adminAcceptParlay (v : Visit) (parlayID : string) : handler :=
  admin_form v (fun session form =>
  if negb (isUUID parlayID) then failPost v StatusNotFound "That parlay was not found." redirectAdminWagers
  else
    r ← call (Command (CAcceptParlay parlayID (WS_UserID session)));
    match r with
    | Err err => fail_with v err
        [("bettingpg.ErrMarketDecided"%string, (StatusConflict, "One of its matches has already been settled, so this parlay can no longer be taken fairly. Reject it instead."%string))]
        redirectAdminWagers
    | Ok accepted => completePost v redirectAdminWagers "Parlay accepted."
                       ("The stake is held in escrow at " ++ formatOdds (PR_AcceptedOdds accepted) ++ ".")
    end).

Definition adminRejectParlay (v : Visit) (parlayID : string) : handler :=
  admin_form v (fun session form =>
  if negb (isUUID parlayID) then failPost v StatusNotFound "That parlay was not found." redirectAdminWagers
  else
    with_reason v form "Say why the parlay is being refused (up to 500 characters) — the member sees it." redirectAdminWagers (fun reason =>
    r ← call (Command (CRejectParlay parlayID (WS_UserID session) reason));
    match r with
    | Err err => fail_with v err [] redirectAdminWagers
    | Ok _ => completePost v redirectAdminWagers "Parlay rejected." "Nothing left the member's balance."
    end)).

(** *** record.go *)
Definition adminWagerRecord (v : Visit) : handler :=
  requireAdmin v (fun session => loaded (QWagerRecord 0) (fun rows => render (AdminWagerRecord (wagerRecordViews rows)))).

(** The status of the error, and the text for a wager in the wrong state. *)
Definition fail_in_state (v : Visit) (err : error) (message backLink : string) : handler :=
  let '(status, text) := storeErrorStatus err in
  failPost v status (if errors_is "betting.ErrInvalidTransition" err then message else text) backLink.
Definition adminVoidWager (v : Visit) (wagerID : string) : handler :=
  admin_form v (fun session form =>
  if negb (isUUID wagerID) then wager_missing v redirectAdminWagerRecord
  else
    with_reason v form "Say why this wager is being voided (up to 500 characters) — the member sees it on their ledger." redirectAdminWagerRecord (fun reason =>
    r ← call (Command (CVoidWager wagerID (WS_UserID session) reason));
    match r with
    | Err err => fail_in_state v err "Only an accepted wager can be voided. A pending one is rejected instead, and a settled one needs the market re-settled." redirectAdminWagerRecord
    | Ok voided => completePost v redirectAdminWagerRecord "Wager voided."
                     (formatMoney (Stake voided) ++ " went back to the member. Every other wager on the market stands.")
    end)).

Definition adminReduceWager (v : Visit) (wagerID : string) : handler :=
  admin_form v (fun session form =>
  if negb (isUUID wagerID) then wager_missing v redirectAdminWagerRecord
  else
    with_reason v form "Say why this wager is being reduced (up to 500 characters) — the member sees it on their ledger." redirectAdminWagerRecord (fun reason =>
    match parseStakeCents (Get "stake" form) with
    | Err _ => failPost v StatusBadRequest "Enter the stake this wager should come down to, in dollars." redirectAdminWagerRecord
    | Ok newStakeCents =>
        r ← call (Command (CReduceWager wagerID newStakeCents (WS_UserID session) reason));
        match r with
        | Err err => fail_in_state v err "Only an accepted wager can be reduced, and only to a stake below what it is riding now. Void it instead to remove it entirely." redirectAdminWagerRecord
        | Ok (reduced, refund) =>
            completePost v redirectAdminWagerRecord "Wager reduced."
              (formatMoney refund ++ " went back to the member. The wager rides " ++ formatMoney (Stake reduced)
               ++ " at the same price, to win " ++ formatMoney (PotentialProfit reduced) ++ ".")
        end
    end)).

(** *** settleup.go *)
Definition settlementHistoryLimit : Z := 50.
Definition adminSettleUp (v : Visit) : handler :=
  requireAdmin v (fun session =>
  loaded (QMemberBalances CAD) (fun balances =>
  loaded (QSettlements settlementHistoryLimit) (fun history => render (AdminSettleUp (settleUpViews balances) history)))).

Definition settlementVerb (d : AdjustmentDirection) : string :=
  if bool_decide (d = AdjustmentPayoutSent) then "was paid" else "paid the book".
Definition settlementNoun (d : AdjustmentDirection) : string :=
  if bool_decide (d = AdjustmentPayoutSent) then "A payout" else "A payment".
Definition adminRecordSettlement (v : Visit) : handler :=
  admin_form v (fun session form =>
  let userID := Get "user_id" form in
  let direction := direction_of (Get "direction" form) in
  if negb (isUUID userID) then failPost v StatusNotFound "The requested member was not found." redirectAdminSettleUp
  else if negb (is_Ok (AdjustmentDirection_Validate direction))
  then failPost v StatusBadRequest "Choose whether the member paid the book or the book paid the member." redirectAdminSettleUp
  else
    match parseStakeCents (Get "amount" form) with
    | Err _ => failPost v StatusBadRequest "Enter the amount that changed hands as a dollars-and-cents figure greater than zero." redirectAdminSettleUp
    | Ok amountCents =>
        with_reason v form "Say how the money moved (up to 500 characters) — this is the audit record." redirectAdminSettleUp (fun reason =>
        loaded NewID (fun adjustmentID =>
        r ← call (Command (CRecordSettlement (mkRecordSettlementRequest adjustmentID userID (WS_UserID session) direction amountCents CAD reason)));
        match r with
        | Err err => fail_with v err [] redirectAdminSettleUp
        | Ok recorded =>
            completePost v redirectAdminSettleUp "Settlement recorded."
              (STR_MemberName recorded ++ " " ++ settlementVerb (STR_Direction recorded) ++ " " ++ formatMoney (STR_Amount recorded) ++ ".")
        end))
    end).

Definition adminReverseSettlement (v : Visit) (adjustmentID : string) : handler :=
  admin_form v (fun session form =>
  if negb (isUUID adjustmentID) then failPost v StatusNotFound "The requested settlement was not found." redirectAdminSettleUp
  else
    with_reason v form "A reversal needs a reason (up to 500 characters)." redirectAdminSettleUp (fun reason =>
    r ← call (Command (CReverseSettlement adjustmentID (WS_UserID session) reason));
    match r with
    | Err err => fail_with v err
        [("bettingpg.ErrAlreadyReversed"%string, (StatusConflict, "This settlement has already been reversed."%string))] redirectAdminSettleUp
    | Ok reversed =>
        completePost v redirectAdminSettleUp "Settlement reversed."
          (settlementNoun (STR_Direction reversed) ++ " of " ++ formatMoney (STR_Amount reversed)
           ++ " was cancelled by a correcting entry; nothing was deleted.")
    end)).

(** *** memberbook.go *)
Definition adminMemberBook (config : BookConfig) (v : Visit) (userID : string) : handler :=
  requireAdmin v (fun session =>
  let not_found (status : Z) (text : string) : handler := respond (Rendered status (MessagePage "Member not found" "" text adminMembersPath)) in
  if negb (isUUID userID) then not_found StatusNotFound "The requested member was not found."%string
  else
    r ← call (QMemberBook userID (autoApproveMaxCents config));
    match r with
    | Err err => let '(status, text) := storeErrorStatus err in not_found status text
    | Ok book =>
        loaded (QWagersForUser userID) (fun wagers =>
        loaded (QMemberLedger userID) (fun entries =>
        openMarketViews userID (fun views => render (AdminMemberBook book (memberWagerViews wagers) entries views))))
    end).

Definition wagerOwnerName (form : Values) : string :=
  let name := Get "member_name" form in
  if bool_decide (name = ""%string) then "the member"%string else name.
Definition adminPlaceWagerForMember (v : Visit) (userID : string) : handler :=
  admin_form v (fun session form =>
  let marketID := Get "market_id" form in
  let selectionID := Get "selection_id" form in
  let back := memberBookPath userID in
  if negb (isUUID userID) then failPost v StatusNotFound "The requested member was not found." adminMembersPath
  else if negb (isUUID marketID) || negb (isUUID selectionID)
  then failPost v StatusBadRequest "The wager form was incomplete. Reload the page and try again." back
  else
    match parseStakeCents (Get "stake" form) with
    | Err _ => failPost v StatusBadRequest "Enter the stake as dollars and cents, for example 25 or 25.50." back
    | Ok stakeCents =>
        loaded (QOpenMarketsForUser userID) (fun markets =>
        match open_currency marketID selectionID markets with
        | None => failPost v StatusConflict "That market is not open to this member." back
        | Some currency =>
            loaded NewID (fun wagerID =>
            loaded NewID (fun idempotencyKey =>
            r ← call (Command (CPlaceWager (mkPlaceWagerRequest wagerID userID marketID selectionID FundingUserCash stakeCents
                                              currency idempotencyKey (WS_UserID session))));
            match r with
            | Err err => fail_with v err [] back
            | Ok wager =>
                r ← call (Command (CAcceptWager (Wager_ID wager) (WS_UserID session)));
                match r with
                | Err acceptErr =>
                    completePost v back "Wager placed, but not filled."
                      (wager_line wager ++ " is waiting in the approval queue: " ++ (storeErrorStatus acceptErr).2)
                | Ok accepted =>
                    completePost v back ("Wager placed for " ++ wagerOwnerName form)
                      (wager_line accepted ++ ". Filled and held in escrow; it is recorded as placed by you.")
                end
            end))
        end)
    end).

(** ** Routes *)
Inductive route :=
  | GetBookMarkets | GetBookWagers | PostBookWagers | PostCancelWager (id : string)
  | GetAdminMarkets | GetAdminMarketNew | PostAdminMarkets | PostOpenMarket (id : string) | PostCloseMarket (id : string)
  | PostLine (id selectionID : string) | PostCloseTime (id : string) | PostLimit (id : string) | PostSideCap (id : string)
  | PostNoAction (id : string) | PostRestrict (id : string) | PostLiftRestriction (id : string)
  | GetSettle (id : string) | PostSettle (id : string) | PostRegrade (id : string)
  | PostQuoteParlay | PostParlays | PostCancelParlay (id : string) | PostAcceptParlay (id : string) | PostRejectParlay (id : string)
  | GetAdminWagers | GetWagerRecord | PostAcceptWager (id : string) | PostRejectWager (id : string)
  | PostVoidWager (id : string) | PostReduceWager (id : string)
  | GetSettleUp | PostSettleUp | PostReverseSettleUp (id : string)
  | GetMemberBook (id : string) | PostMemberWager (id : string) | GetHelp.

Section routes.
Context (halifax : Z * Z * Z * Z * Z -> Time) (config : BookConfig).
Definition ServeHTTP (to_ : route) (v : Visit) : handler :=
  match to_ with
  | GetBookMarkets => bookMarkets v
  | GetBookWagers => bookWagers v
  | PostBookWagers => placeWager config v
  | PostCancelWager id => cancelWager v id
  | GetAdminMarkets => adminMarkets v
  | GetAdminMarketNew => adminMarketNew config v
  | PostAdminMarkets => adminCreateMarket halifax config v
  | PostOpenMarket id => adminMarketAction true v id
  | PostCloseMarket id => adminMarketAction false v id
  | PostLine id selectionID => adminSetLine v id selectionID
  | PostCloseTime id => adminSetCloseTime halifax v id
  | PostLimit id => adminSetStakeLimit v id
  | PostSideCap id => adminSetTotalSideCap v id
  | PostNoAction id => adminCloseWithoutAction v id
  | PostRestrict id => adminRestrictMember v id
  | PostLiftRestriction id => adminLiftRestriction v id
  | GetSettle id => adminSettleForm v id
  | PostSettle id => adminSettleMarket v id
  | PostRegrade id => adminRegradeMarket v id
  | PostQuoteParlay => bookQuoteParlay v
  | PostParlays => bookPlaceParlay v
  | PostCancelParlay id => bookCancelParlay v id
  | PostAcceptParlay id => adminAcceptParlay v id
  | PostRejectParlay id => adminRejectParlay v id
  | GetAdminWagers => adminWagers v
  | GetWagerRecord => adminWagerRecord v
  | PostAcceptWager id => adminAcceptWager v id
  | PostRejectWager id => adminRejectWager v id
  | PostVoidWager id => adminVoidWager v id
  | PostReduceWager id => adminReduceWager v id
  | GetSettleUp => adminSettleUp v
  | PostSettleUp => adminRecordSettlement v
  | PostReverseSettleUp id => adminReverseSettlement v id
  | GetMemberBook id => adminMemberBook config v id
  | PostMemberWager id => adminPlaceWagerForMember v id
  | GetHelp => adminHelp config v
  end.
End routes.
