(* ===== verification/BettingWebProps.v ===== *)
(** * What the pages of the book may do

    Whatever the stores answer, a request issues at most one command, or a
    placement with its acceptance, and only for the session it came with; and
    what the pages say of a line that moved. *)
From S2P Require Import Prelude GoStrings GoTime Decimal SQL Ledger Identity Betting Corrections Parlay BettingDB PricingStore WagerStore ParlayStore.
From S2P Require Import MarketStore AdminStore AdjustStore ReadersStore StoreRefinement Url AuthWeb Web Amounts PrivateWeb BettingWeb BettingPages.

(** ** The commands of a log *)
Definition issued X (c : book_call X) : option command := match c with Command c => Some c | _ => None end.
Definition commands_of (log : list (entry book_call)) : list command := asked issued log.

(** What reaches the store has been checked. *)
Definition valid_reason (reason : string) : Prop := reason <> ""%string /\ len reason <= 500.
Definition cents_or_none (cents : Z) : Prop := cents = 0 \/ valid_cents cents.
Definition valid_wager (req : PlaceWagerRequest) : Prop :=
  isUUID (PWR_MarketID req) = true /\ isUUID (PWR_SelectionID req) = true /\ PWR_Funding req = FundingUserCash
  /\ valid_cents (PWR_StakeCents req).
Definition valid_parlay (req : PlaceParlayRequest) : Prop :=
  Forall (fun l => isUUID (PLR_MarketID l) = true /\ isUUID (PLR_SelectionID l) = true) (PPR_Legs req)
  /\ NoDup (PLR_MarketID <$> PPR_Legs req) /\ PPR_Funding req = FundingUserCash /\ valid_cents (PPR_StakeCents req)
  /\ PPR_Currency req = CAD.
Definition uuid_or_none (id : string) : Prop := id = ""%string \/ isUUID id = true.

(** What a member's request may ask for: the member's own wagers. *)
Definition member_command (u : WebSession) (c : command) : Prop :=
  match c with
  | CPlaceWager req => PWR_UserID req = WS_UserID u /\ PlacedByUserID req = ""%string /\ valid_wager req
  | CCancelWager id user => isUUID id = true /\ user = WS_UserID u
  | CPlaceParlay req | CQuoteParlay req => PPR_UserID req = WS_UserID u /\ PPR_PlacedByUserID req = ""%string /\ valid_parlay req
  | CCancelParlay id user => isUUID id = true /\ user = WS_UserID u
  | _ => False
  end.

(** What an administrator's may: everything names the administrator, except
    lifting a restriction, which names nobody. *)
Definition admin_command (u : WebSession) (c : command) : Prop :=
  match c with
  | CAcceptWager id actor | CAcceptParlay id actor | COpenMarket id actor | CCloseMarket id actor =>
      isUUID id = true /\ actor = WS_UserID u
  | CRejectWager id actor reason | CVoidWager id actor reason | CRejectParlay id actor reason | CRegrade id actor reason
  | CCloseWithoutAction id actor reason | CReverseSettlement id actor reason =>
      isUUID id = true /\ actor = WS_UserID u /\ valid_reason reason
  | CReduceWager id cents actor reason => isUUID id = true /\ actor = WS_UserID u /\ valid_reason reason /\ valid_cents cents
  | CCreateMarket req => isUUID (CMR_MarketID req) = true /\ CMR_ActorUserID req = WS_UserID u
  | CSettleMarket req =>
      isUUID (SMQ_MarketID req) = true /\ SMQ_ActorUserID req = WS_UserID u /\ valid_reason (SMQ_Reason req)
      /\ SMQ_VerifiedResultID req = ""%string /\ map_Forall (fun _ r => gradable r = true) (SMQ_Outcome req)
      /\ (SMQ_DeadHeat req = true -> 2 <= winners (SMQ_Outcome req))
  | CVoidMarket req => isUUID (VMQ_MarketID req) = true /\ VMQ_ActorUserID req = WS_UserID u /\ valid_reason (VMQ_Reason req)
  | CSetTotalSideCap m c cents actor reason =>
      isUUID m = true /\ isUUID c = true /\ cents_or_none cents /\ actor = WS_UserID u /\ valid_reason reason
  | CSetStakeLimit m c cents actor reason =>
      isUUID m = true /\ uuid_or_none c /\ cents_or_none cents /\ actor = WS_UserID u /\ valid_reason reason
  | CSetMarketCloseTime m _ actor reason => isUUID m = true /\ actor = WS_UserID u /\ valid_reason reason
  | CSetOpeningLine m c odds actor reason =>
      isUUID m = true /\ isUUID c = true /\ NewAmericanOdds odds = Ok odds /\ actor = WS_UserID u /\ valid_reason reason
  | CRestrictMember req =>
      isUUID (RQ_MarketID req) = true /\ isUUID (RQ_UserID req) = true /\ uuid_or_none (RQ_SelectionID req)
      /\ valid_reason (RQ_Reason req) /\ RQ_ActorUserID req = WS_UserID u
  | CLiftRestriction m user _ => isUUID m = true /\ isUUID user = true
  | CRecordSettlement req =>
      isUUID (RSR_UserID req) = true /\ RSR_ActorUserID req = WS_UserID u /\ valid_cents (RSR_AmountCents req)
      /\ RSR_Currency req = CAD /\ valid_reason (RSR_Reason req) /\ AdjustmentDirection_Validate (RSR_Direction req) = Ok ()
  | _ => False
  end.

(** What comes from the database and never from the form: the currency of a
    wager, and the selections a market is graded on. *)
Definition listed (log : list (entry book_call)) (marketID : string) (P : MarketListRow -> Prop) : Prop :=
  exists markets m, Entry QMarkets (Ok markets) ∈ log /\ m ∈ markets /\ ML_ID m = marketID /\ P m.
Definition offered (marketID selectionID : string) (currency : Currency) (markets : list MarketListRow) : Prop :=
  exists m s, m ∈ markets /\ ML_ID m = marketID /\ ML_Currency m = currency
    /\ s ∈ ML_Selections m /\ MS_ID s = selectionID /\ MS_Active s = true.
Definition sourced (log : list (entry book_call)) (c : command) : Prop :=
  match c with
  | CPlaceWager req =>
      exists (q : book_call (list MarketListRow)) markets, Entry q (Ok markets) ∈ log
        /\ (q = QOpenMarkets \/ q = QOpenMarketsForUser (PWR_UserID req))
        /\ offered (PWR_MarketID req) (PWR_SelectionID req) (PWR_Currency req) markets
  | CSettleMarket req => listed log (SMQ_MarketID req) (fun m => dom (SMQ_Outcome req) = list_to_set (MS_ID <$> ML_Selections m))
  | CVoidMarket req => listed log (VMQ_MarketID req) (fun _ => True)
  | CRegrade id _ _ => listed log id (fun _ => True)
  | _ => True
  end.

Section acts.
Context (config : BookConfig).

(** All a session's request may issue. *)
Inductive acts (u : WebSession) (log : list (entry book_call)) : list command -> Prop :=
  | acts_nothing : acts u log []
  | acts_member c : member_command u c -> sourced log c -> acts u log [c]
  | acts_admin c : is_admin u = true -> admin_command u c -> sourced log c -> acts u log [c]
  | acts_approved req (w : Wager) override :
      member_command u (CPlaceWager req) -> sourced log (CPlaceWager req) ->
      @Entry book_call (answer_of (CPlaceWager req)) (Command (CPlaceWager req)) (Ok w) ∈ log ->
      Entry (QAutoApproveLimit (WS_UserID u)) override ∈ log ->
      PWR_StakeCents req <= approve_limit config override ->
      acts u log [CPlaceWager req; CAcceptWager (Wager_ID w) AutoApproveActor]
  | acts_for_member req : is_admin u = true -> isUUID (PWR_UserID req) = true -> PlacedByUserID req = WS_UserID u ->
      valid_wager req -> sourced log (CPlaceWager req) -> acts u log [CPlaceWager req]
  | acts_for_member_filled req (w : Wager) : is_admin u = true -> isUUID (PWR_UserID req) = true -> PlacedByUserID req = WS_UserID u ->
      valid_wager req -> sourced log (CPlaceWager req) ->
      @Entry book_call (answer_of (CPlaceWager req)) (Command (CPlaceWager req)) (Ok w) ∈ log ->
      acts u log [CPlaceWager req; CAcceptWager (Wager_ID w) (WS_UserID u)].

(** The request came with a live session and its token. *)
Record signed_in (v : Visit) (u : WebSession) : Prop := {
  si_session : v_session v = Ok u;
  si_active : WS_Active u = true;
  si_user : WS_UserID u <> ""%string;
  si_role : validMemberRole (WS_Role u) = true
}.
Definition authorized (v : Visit) (log : list (entry book_call)) : Prop :=
  commands_of log = [] \/
  exists u form, signed_in v u /\ v_form v = Ok form /\ token_matches form u = true /\ acts u log (commands_of log).
End acts.

(** ** What a handler may ask for *)

Section walks.
Context {config : BookConfig} {v : Visit}.
Implicit Types Q : response page -> list (entry book_call) -> Prop.

Lemma logs_failPost Q status message backLink : (forall x, Q x []) -> logs Q (failPost v status message backLink).
Proof. intros H. apply H. Qed.
Lemma logs_completePost Q redirectTo message detail : (forall x, Q x []) -> logs Q (completePost v redirectTo message detail).
Proof. intros H. apply H. Qed.
Lemma logs_fail_with Q err special backLink : (forall x, Q x []) -> logs Q (fail_with v err special backLink).
Proof. intros H. unfold fail_with. destruct (default _ _). by apply logs_failPost. Qed.
Lemma logs_fail_in_state Q err message backLink : (forall x, Q x []) -> logs Q (fail_in_state v err message backLink).
Proof. intros H. unfold fail_in_state. destruct (storeErrorStatus err). by apply logs_failPost. Qed.
Lemma logs_with_reason Q form message backLink k :
  (forall x, Q x []) -> (forall reason, valid_reason reason -> logs Q (k reason)) ->
  logs Q (with_reason v form message backLink k).
Proof.
  intros Hf Hk. unfold with_reason. destruct (bad_reason _) eqn:Hb; [by apply logs_failPost|].
  unfold bad_reason, maxReasonLen in Hb. bool_prop. apply Hk. split; [done|lia].
Qed.
Lemma logs_findMarket Q marketID k :
  (forall x, Q x []) -> (forall x r, Q x [Entry QMarkets r]) ->
  (forall markets market, market ∈ markets -> ML_ID market = marketID -> isUUID marketID = true ->
     logs (fun b log => Q b (Entry QMarkets (Ok markets) :: log)) (k market)) ->
  logs Q (findMarket marketID k).
Proof.
  intros Hf Hr Hk. unfold findMarket. destruct (isUUID marketID) eqn:Hid; cbn [negb]; [|by apply logs_respond].
  apply logs_loaded; [intros; apply Hr|]. intros markets. destruct (List.find _ markets) as [market|] eqn:Hm; [|apply logs_respond, Hr].
  apply find_some in Hm as [Hin Heq]. bool_prop. by apply (Hk markets); [by apply list_elem_of_In| |].
Qed.

(** A log in which nothing is commanded. *)
Definition reads (log : list (entry book_call)) : Prop := commands_of log = [].
Lemma logs_selection_views Q market rows : forall k,
  (forall x log, reads log -> Q x log) ->
  (forall views, logs (fun _ => reads) (k views)) ->
  logs Q (selection_views market rows k).
Proof.
  intros k HQ Hk. eapply logs_mono; [apply HQ|]. clear HQ. revert k Hk.
  induction rows as [|row rows IH]; intros k Hk; cbn [selection_views]; [apply Hk|].
  apply logs_loaded; [done|]. intros key. apply IH. intros views. apply Hk.
Qed.
Lemma logs_market_views Q markets : forall k,
  (forall x log, reads log -> Q x log) ->
  (forall views, logs (fun _ => reads) (k views)) ->
  logs Q (market_views markets k).
Proof.
  intros k HQ Hk. eapply logs_mono; [apply HQ|]. clear HQ. revert k Hk.
  induction markets as [|market markets IH]; intros k Hk; cbn [market_views]; [apply Hk|].
  apply logs_selection_views; [done|]. intros selections. apply IH. intros views. apply Hk.
Qed.
Lemma logs_openMarketViews userID k :
  (forall views, logs (fun _ => reads) (k views)) -> logs (fun _ => reads) (openMarketViews userID k).
Proof.
  intros Hk. unfold openMarketViews. apply logs_loaded; destruct (bool_decide _); try done; intros;
    by apply logs_market_views.
Qed.

(** The two ways into a handler. *)
Lemma book_session_checked Q k :
  (forall x, Q x []) -> (forall u, signed_in v u -> logs Q (k u)) -> logs Q (requireMember v k).
Proof.
  intros Hf Hk. apply logs_with_session; [done|]. intros u Hs.
  destruct (negb (WS_Active u) || _ || _) eqn:Hr; [by apply logs_respond|]. bool_prop. by apply Hk.
Qed.
Lemma page_reads k : (forall u, signed_in v u -> logs (fun _ => reads) (k u)) -> logs (fun _ => authorized config v) (requireMember v k).
Proof. intros Hk. apply (logs_mono _ (fun _ => reads)); [intros _ log; by left|by apply book_session_checked]. Qed.
Lemma admin_page_reads k :
  (forall u, signed_in v u -> is_admin u = true -> logs (fun _ => reads) (k u)) -> logs (fun _ => authorized config v) (requireAdmin v k).
Proof.
  intros Hk. apply page_reads. intros u Hu. destruct (is_admin u) eqn:Ha; cbn [negb]; [by apply Hk|by apply logs_respond].
Qed.
Lemma book_form_checked u k : signed_in v u ->
  (forall form, logs (fun _ log => acts config u log (commands_of log)) (k form)) ->
  logs (fun _ => authorized config v) (checkedForm v u k).
Proof.
  intros Hu Hk. unfold checkedForm. destruct (v_form v) as [form|err] eqn:Hform; [|apply logs_failPost; by left].
  destruct (token_matches form u) eqn:Ht; [|apply logs_respond; by left].
  eapply logs_mono; [|apply Hk]. intros x log Hact. right. by exists u, form.
Qed.
Lemma member_acts k :
  (forall u form, signed_in v u -> logs (fun _ log => acts config u log (commands_of log)) (k u form)) ->
  logs (fun _ => authorized config v) (member_form v k).
Proof. intros Hk. apply book_session_checked; [by left|]. intros u Hu. apply book_form_checked; [done|]. intros form. by apply Hk. Qed.
Lemma admin_acts k :
  (forall u form, signed_in v u -> is_admin u = true -> logs (fun _ log => acts config u log (commands_of log)) (k u form)) ->
  logs (fun _ => authorized config v) (admin_form v k).
Proof.
  intros Hk. apply book_session_checked; [by left|]. intros u Hu. destruct (is_admin u) eqn:Ha; cbn [negb]; [|apply logs_respond; by left].
  apply book_form_checked; [done|]. intros form. by apply Hk.
Qed.
End walks.

(** What the forms are read as. *)
Lemma optional_cents_valid name form message cents :
  optional_cents name form message = Parsed cents -> cents_or_none cents.
Proof.
  unfold optional_cents, or_says. destruct (blank_field name form); [by intros [= <-]; left|].
  destruct (parseStakeCents _) as [c|] eqn:Hc; [|done]. intros [= <-]. right. by eapply parseStakeCents_valid.
Qed.
Lemma parseLineOdds_valid value odds : parseLineOdds value = Ok odds -> NewAmericanOdds odds = Ok odds.
Proof.
  unfold parseLineOdds. destruct (ParseInt 32 _) as [p|]; [|done]. intros Hp.
  assert (odds = p) as -> by (unfold NewAmericanOdds in Hp; go_inv; done). done.
Qed.
Lemma parlay_legs_valid values : forall seen legs, parlay_legs values seen = Ok legs ->
  Forall (fun l => isUUID (PLR_MarketID l) = true /\ isUUID (PLR_SelectionID l) = true) legs
  /\ NoDup (PLR_MarketID <$> legs) /\ Forall (fun l => PLR_MarketID l ∉ seen) legs.
Proof.
  induction values as [|value values IH]; intros seen legs; cbn [parlay_legs].
  { intros [= <-]. split_and!; constructor. }
  destruct (cut_at 58 _) as [[m s] found]. destruct (negb found || _ || _) eqn:Hids; [apply IH|]. bool_prop.
  intros Hlegs. go_inv. bool_prop. destruct (IH _ _ Hok0) as (Hf & Hnd & Hseen).
  split_and!; [by constructor| |].
  - cbn. constructor; [|done]. intros ([? ?] & ? & Hin)%list_elem_of_fmap. rewrite Forall_forall in Hseen.
    specialize (Hseen _ Hin). set_solver.
  - constructor; [done|]. eapply Forall_impl; [exact Hseen|]. set_solver.
Qed.
Lemma parlayRequestFrom_valid form user req : parlayRequestFrom form user = Ok req ->
  PPR_UserID req = user /\ PPR_PlacedByUserID req = ""%string /\ valid_parlay req.
Proof.
  unfold parlayRequestFrom. intros Hreq. go_inv. split_and!; try done. unfold valid_parlay. cbn.
  destruct (parlay_legs_valid _ _ _ Hok) as (? & ? & _). split_and!; try done. by eapply parseStakeCents_valid.
Qed.
Lemma bind_Parsed {A B} (m : parsed A) (k : A -> parsed B) b : m ≫= k = Parsed b -> exists a, m = Parsed a /\ k a = Parsed b.
Proof. destruct m as [a|]; [by exists a|done]. Qed.
Lemma need_Parsed ok message u : need ok message = Parsed u -> ok = true.
Proof. by destruct ok. Qed.
Ltac parsed_inv :=
  repeat match goal with
  | H : _ ≫= _ = Parsed _ |- _ => apply bind_Parsed in H as (? & ? & H)
  | H : need _ _ = Parsed _ |- _ => apply need_Parsed in H
  | H : (let '(_, _) := ?p in _) = Parsed _ |- _ => destruct p
  | H : Parsed _ = Parsed _ |- _ => injection H as H; subst
  end.
Lemma parseCreateMarketForm_market halifax form now req :
  parseCreateMarketForm halifax form now = Parsed req -> isUUID (CMR_MarketID req) = true.
Proof. unfold parseCreateMarketForm. cbv zeta. intros H. by parsed_inv. Qed.
Lemma form_outcome_spec form rows : forall outcome outcome', form_outcome form rows outcome = Some outcome' ->
  map_Forall (fun _ r => gradable r = true) outcome ->
  map_Forall (fun _ r => gradable r = true) outcome' /\ dom outcome' = dom outcome ∪ list_to_set (MS_ID <$> rows).
Proof.
  induction rows as [|row rows IH]; intros outcome outcome'; cbn.
  - intros [= <-] Hg. split; [done|]. set_solver.
  - destruct (gradable (result_of _)) eqn:Hrow; [|done]. intros Ho Hg.
    destruct (IH _ _ Ho) as [Hg' Hdom]; [by apply map_Forall_insert_2|]. split; [done|]. rewrite Hdom. set_solver.
Qed.
Lemma outcome_graded form rows outcome : form_outcome form rows ∅ = Some outcome ->
  map_Forall (fun _ r => gradable r = true) outcome /\ dom outcome = list_to_set (MS_ID <$> rows).
Proof.
  intros Ho. destruct (form_outcome_spec _ _ _ _ Ho) as [? Hd]; [apply map_Forall_empty|]. split; [done|]. set_solver.
Qed.
Lemma logs_rerender Q v form formError : (forall x log, reads log -> Q x log) -> logs Q (rerenderCreateForm v form formError).
Proof.
  intros HQ. eapply logs_mono; [apply HQ|]. unfold rerenderCreateForm. cbn zeta.
  destruct (isUUID _); [|apply logs_loaded; [done|]; intros ?]; destruct (v_htmx v); repeat (apply logs_loaded; [done|]; intros ?); by apply logs_respond.
Qed.
Lemma open_currency_offered marketID selectionID currency markets :
  open_currency marketID selectionID markets = Some currency -> offered marketID selectionID currency markets.
Proof.
  unfold open_currency. set (has := fun market : MarketListRow => existsb (fun s => bool_decide (MS_ID s = selectionID) && MS_Active s) (ML_Selections market)).
  assert (Hacc : forall found, foldl (fun found market => if bool_decide (ML_ID market = marketID) && has market then Some (ML_Currency market) else found)
                   found markets = Some currency ->
            found = Some currency \/ exists m, m ∈ markets /\ ML_ID m = marketID /\ ML_Currency m = currency /\ has m = true).
  { induction markets as [|m markets IH]; intros found; [by left|]. cbn [foldl]. intros [Hf|(x & Hin & H)]%IH.
    - destruct (bool_decide (ML_ID m = marketID) && has m) eqn:Hm; [|by left]. bool_prop. injection Hf as <-.
      right. exists m. split; [by left|done].
    - right. exists x. split; [by right|done]. }
  intros [[=]|(m & Hin & Hid & Hc & Hhas)]%Hacc. unfold has in Hhas. apply existsb_exists in Hhas as (s & Hs & Hok). bool_prop.
  exists m, s. split_and!; try done. by apply list_elem_of_In.
Qed.
Lemma approve_within config override cents : 
  (0 <? approve_limit config override) && (cents <=? approve_limit config override) = true -> cents <= approve_limit config override.
Proof. intros [_ H]%andb_true_iff. by apply Z.leb_le. Qed.

(** Walk a handler to its responses. *)
Ltac walk_step :=
  match goal with
  | |- logs _ (loaded _ _) => apply logs_loaded; [intros ?err|intros ?x]
  | |- logs _ (with_reason _ _ _ _ _) => apply logs_with_reason; [intros ?x|intros ?reason ?Hreason]
  | |- logs _ (findMarket _ _) => apply logs_findMarket; [intros ?x|intros ?x ?r|intros ?markets ?market ?Hmarket ?Hid ?Huuid]
  | |- logs _ (openMarketViews _ _) => apply logs_openMarketViews; intros ?views
  | |- logs _ (call _ ≫= _) => apply logs_call; intros ?r
  | |- logs _ (respond _) => apply logs_respond
  | |- logs _ (render _) => apply logs_respond
  | |- logs _ (failPost _ _ _ _) => apply logs_failPost; intros ?x
  | |- logs _ (completePost _ _ _ _) => apply logs_completePost; intros ?x
  | |- logs _ (fail_with _ _ _ _) => apply logs_fail_with; intros ?x
  | |- logs _ (fail_in_state _ _ _ _) => apply logs_fail_in_state; intros ?x
  | |- logs _ (if ?b then _ else _) => let E := fresh "E" in destruct b eqn:E
  | |- logs _ (match ?m with _ => _ end) => let E := fresh "E" in destruct m eqn:E
  end; cbv beta zeta.
Ltac walk := cbv beta zeta; repeat walk_step; unfold commands_of, asked; cbn [omap list_omap asked_entry issued].

Lemma uuid_or_none_checked id :
  negb (bool_decide (id = ""%string)) && negb (isUUID id) = false -> uuid_or_none id.
Proof. intros [H|H]%andb_false_iff; bool_prop; [by left|by right]. Qed.
#[local] Hint Resolve uuid_or_none_checked parseStakeCents_valid optional_cents_valid parseLineOdds_valid : core.

Lemma direction_validated d : is_Ok (AdjustmentDirection_Validate d) = true -> AdjustmentDirection_Validate d = Ok ().
Proof. by destruct (AdjustmentDirection_Validate d) as [[]|]. Qed.
Lemma dead_heat_checked (deadHeat : bool) (n : Z) : deadHeat && (n <? 2) = false -> deadHeat = true -> 2 <= n.
Proof. intros H ->. cbn in H. by apply Z.ltb_ge. Qed.
Ltac acted_side := split_and!; first [done | by eauto | by eapply parseLineOdds_valid | by apply direction_validated | by eapply dead_heat_checked].
Ltac acted :=
  first
    [ apply acts_nothing
    | apply acts_member; [hnf; acted_side|done]
    | apply acts_admin; [done|hnf; acted_side|done] ].

Section handlers.
Context (halifax : Z * Z * Z * Z * Z -> Time) (config : BookConfig) (v : Visit).
Abbreviation allowed m := (logs (fun _ => authorized config v) m).

Lemma pages_only_read to_ :
  match to_ with
  | GetBookMarkets | GetBookWagers | GetAdminMarkets | GetAdminMarketNew | GetSettle _ | GetAdminWagers | GetWagerRecord
  | GetSettleUp | GetMemberBook _ | GetHelp => allowed (ServeHTTP halifax config to_ v)
  | _ => True
  end.
Proof.
  destruct to_; cbn [ServeHTTP]; try exact I;
    unfold bookMarkets, bookWagers, adminMarkets, adminMarketNew, adminSettleForm, adminWagers, adminWagerRecord, adminSettleUp, adminMemberBook, adminHelp;
    first [apply admin_page_reads; intros u Hu Ha | apply page_reads; intros u Hu]; by walk.
Qed.

(** One command, and nothing that depends on what was read. *)
Lemma simple_forms_allowed to_ :
  match to_ with
  | PostCancelWager _ | PostCancelParlay _ | PostOpenMarket _ | PostCloseMarket _ | PostNoAction _ | PostRestrict _
  | PostLiftRestriction _ | PostAcceptParlay _ | PostRejectParlay _ | PostAcceptWager _ | PostRejectWager _ | PostVoidWager _
  | PostReverseSettleUp _ | PostCloseTime _ => allowed (ServeHTTP halifax config to_ v)
  | _ => True
  end.
Proof.
  destruct to_; cbn [ServeHTTP]; try exact I;
    unfold cancelWager, bookCancelParlay, adminMarketAction, adminCloseWithoutAction, adminRestrictMember, adminLiftRestriction,
      adminAcceptParlay, adminRejectParlay, adminAcceptWager, adminRejectWager, adminVoidWager, adminReverseSettlement, adminSetCloseTime;
    first [apply admin_acts; intros u form Hu Ha | apply member_acts; intros u form Hu]; walk; bool_prop; acted.
Qed.

Lemma amount_forms_allowed to_ :
  match to_ with
  | PostLine _ _ | PostLimit _ | PostSideCap _ | PostReduceWager _ | PostSettleUp => allowed (ServeHTTP halifax config to_ v)
  | _ => True
  end.
Proof.
  destruct to_; cbn [ServeHTTP]; try exact I;
    unfold adminSetLine, adminSetStakeLimit, adminSetTotalSideCap, adminReduceWager, adminRecordSettlement;
    apply admin_acts; intros u form Hu Ha; walk; bool_prop; acted.
Qed.

Lemma parlay_forms_allowed to_ :
  match to_ with PostQuoteParlay | PostParlays => allowed (ServeHTTP halifax config to_ v) | _ => True end.
Proof.
  destruct to_; cbn [ServeHTTP]; try exact I;
    unfold bookQuoteParlay, bookPlaceParlay, slip_notice; apply member_acts; intros u form Hu; walk; try acted;
    match goal with H : parlayRequestFrom _ _ = Ok _ |- _ => destruct (parlayRequestFrom_valid _ _ _ H) as (? & ? & ? & ? & ? & ? & ?) end; acted.
Qed.

Lemma listed_first (markets : list MarketListRow) market log id (P : MarketListRow -> Prop) :
  market ∈ markets -> ML_ID market = id -> P market -> listed (Entry QMarkets (Ok markets) :: log) id P.
Proof. intros. exists markets, market. by split_and!; [left| | |]. Qed.
Lemma grades_allowed id : allowed (adminSettleMarket v id) /\ allowed (adminRegradeMarket v id).
Proof.
  split; unfold adminSettleMarket, adminRegradeMarket; apply admin_acts; intros u form Hu Ha; walk; try acted; bool_prop;
    subst id; try match goal with H : form_outcome _ _ _ = Some _ |- _ => destruct (outcome_graded _ _ _ H) as [? ?] end;
    (apply acts_admin; [done|hnf; acted_side|by eapply listed_first]).
Qed.
Lemma create_allowed : allowed (adminCreateMarket halifax config v).
Proof.
  apply admin_acts. intros u form Hu Ha. walk;
    try match goal with H : parseCreateMarketForm _ _ _ = Parsed _ |- _ => pose proof (parseCreateMarketForm_market _ _ _ _ H) end;
    first [acted | apply logs_rerender; intros y log Hreads; unfold reads, commands_of, asked in Hreads; rewrite Hreads; acted].
Qed.

Lemma wager_valid req value :
  isUUID (PWR_MarketID req) = true -> isUUID (PWR_SelectionID req) = true -> PWR_Funding req = FundingUserCash ->
  parseStakeCents value = Ok (PWR_StakeCents req) -> valid_wager req.
Proof. intros. split_and!; try done. by eapply parseStakeCents_valid. Qed.
Ltac in_log := solve [repeat first [by left | right]].
Ltac placed :=
  lazymatch goal with
  | |- member_command _ _ => hnf; split_and!; [done|done|eapply wager_valid; [done|done|done|eassumption]]
  | |- sourced _ _ => hnf; eexists _, _; split_and!; [in_log|first [by left|by right]|done]
  | |- _ ∈ _ => in_log
  | |- valid_wager _ => eapply wager_valid; [done|done|done|eassumption]
  | |- _ => done
  end.
Lemma placements_allowed : allowed (placeWager config v) /\ forall id, allowed (adminPlaceWagerForMember v id).
Proof.
  split; [|intros id]; unfold placeWager, adminPlaceWagerForMember;
    first [apply admin_acts; intros u form Hu Ha | apply member_acts; intros u form Hu]; walk; try acted; bool_prop;
    try match goal with H : open_currency _ _ _ = Some _ |- _ => apply open_currency_offered in H end.
  all: first [apply acts_member; placed | eapply acts_approved; placed | eapply acts_for_member_filled; placed | apply acts_for_member; placed].
Qed.

Lemma requests_authorized to_ : allowed (ServeHTTP halifax config to_ v).
Proof.
  pose proof (pages_only_read to_). pose proof (simple_forms_allowed to_). pose proof (amount_forms_allowed to_).
  pose proof (parlay_forms_allowed to_). destruct to_; try assumption; cbn [ServeHTTP];
    first [apply placements_allowed | apply grades_allowed | apply create_allowed].
Qed.
End handlers.

(** ** Which way a line moved *)

(** Profit per unit staked at one price is more than at another. *)
Definition pays_more (o1 o2 : AmericanOdds) : Prop :=
  let '(n1, d1) := odds_ratio o1 in
  let '(n2, d2) := odds_ratio o2 in
  n2 * d1 < n1 * d2.

Lemma price_ratio o : valid_odds o -> 0 < fst (odds_ratio o) <= 2147483648 /\ 0 < snd (odds_ratio o) <= 2147483648.
Proof. unfold valid_odds, odds_ratio. intros Hv. destruct (0 <? o) eqn:Ho; cbn [fst snd]; bool_prop; lia. Qed.
Lemma compareLines_spec accepted current : valid_odds accepted -> valid_odds current ->
  match compareLines accepted current with
  | lineToMember => pays_more accepted current
  | lineToBook => pays_more current accepted
  | lineUnchanged => ~ pays_more accepted current /\ ~ pays_more current accepted
  | lineOffBoard => False
  end.
Proof.
  intros Ha Hc. unfold compareLines, pays_more. change payoutRatio with odds_ratio.
  destruct (price_ratio _ Ha) as [Hna Hda]. destruct (price_ratio _ Hc) as [Hnc Hdc].
  destruct (accepted =? current) eqn:Heq; [apply Z.eqb_eq in Heq; subst; destruct (odds_ratio current) as [n d]; cbn; split; apply Z.lt_irrefl|].
  destruct (odds_ratio accepted) as [na da], (odds_ratio current) as [nc dc]. cbn [fst snd] in *.
  rewrite !wrap64_id by (unfold int64, MinInt64, MaxInt64; nia).
  destruct (nc * da <? na * dc) eqn:H1; [by apply Z.ltb_lt|]. destruct (na * dc <? nc * da) eqn:H2; bool_prop; [done|]. split; lia.
Qed.
Lemma pays_more_profit o1 o2 cents : valid_odds o1 -> valid_odds o2 -> 0 <= cents -> ~ pays_more o2 o1 ->
  profit_spec o2 cents <= profit_spec o1 cents.
Proof.
  unfold pays_more, profit_spec. intros H1%price_ratio H2%price_ratio Hc Hp.
  destruct (odds_ratio o1) as [n1 d1], (odds_ratio o2) as [n2 d2]. cbn [fst snd] in *.
  assert (Hn : n2 * d1 <= n1 * d2) by lia.
  rewrite <- (Z.div_mul_cancel_r (2 * (cents * n2) + d2) (2 * d2) d1) by lia.
  rewrite <- (Z.div_mul_cancel_r (2 * (cents * n1) + d1) (2 * d1) d2) by lia.
  replace (2 * d1 * d2) with (2 * d2 * d1) by lia. apply Z.div_le_mono; nia.
Qed.

(** The pages say truly which way a line moved.  Between the price of a
    wager and the price on the board, [compareLines] says that it moved to the
    member just when the locked price pays the member strictly more per unit
    staked, to the book just when it pays strictly less, and nothing when they
    pay the same (+100 and -100, say); no product overflows.  What the wager
    wins at the locked price is then at least, or at most, what the same stake
    would win at the price on the board. *)
Theorem line_moves_are_exact accepted current stake locked live :
  valid_odds accepted -> valid_odds current -> int64 (Cents stake) ->
  Profit accepted stake = Ok locked -> Profit current stake = Ok live ->
  (compareLines accepted current = lineToMember <-> pays_more accepted current)
  /\ (compareLines accepted current = lineToBook <-> pays_more current accepted)
  /\ (compareLines accepted current <> lineToBook -> Cents live <= Cents locked)
  /\ (compareLines accepted current <> lineToMember -> Cents locked <= Cents live).
Proof.
  intros Ha Hc Hs Hlocked Hlive. pose proof (compareLines_spec accepted current Ha Hc) as Hm.
  destruct (Profit_Ok accepted stake locked) as (_ & _ & Hpos & _ & -> & _); [apply Ha|done..|].
  destruct (Profit_Ok current stake live) as (_ & _ & _ & _ & -> & _); [apply Hc|done..|]. cbn [Cents].
  assert (Hasym : pays_more accepted current -> ~ pays_more current accepted).
  { unfold pays_more. destruct (odds_ratio accepted), (odds_ratio current). lia. }
  assert (H1 : ~ pays_more current accepted -> profit_spec current (Cents stake) <= profit_spec accepted (Cents stake)) by (intros; apply pays_more_profit; (done || lia)).
  assert (H2 : ~ pays_more accepted current -> profit_spec accepted (Cents stake) <= profit_spec current (Cents stake)) by (intros; apply pays_more_profit; (done || lia)).
  destruct (compareLines accepted current); naive_solver.
Qed.
