(* ===== verification/BettingWebStore.v ===== *)
(** * The pages over the betting store

    cmd/cabot wires every store interface of internal/bettingweb to the betting
    store: here its operations answer the calls of the handlers, so that what a
    request does to the database is what its commands do.  The two listings the
    other packages' readers answer ([ListMarketableMatches], over the
    competition tables, and the ledger of a member) are parameters: they read. *)
From S2P Require Import Prelude GoStrings GoTime Decimal SQL Ledger Identity Events Payloads Betting Corrections Book Parlay BettingDB PricingStore WagerStore ParlayStore.
From S2P Require Import MarketStore AdminStore AdjustStore ReadersStore StoreSteps StoreRefinement Url AuthWeb Web Amounts PrivateWeb BettingWeb BettingPages BettingWebProps.

Section page_store.
Context {E : environment} {HE : environment_ok E} (st : Store) (sides : string -> option (string * string)).
Context (unmarshal : string -> result MatchResultVerifiedPayload) (unmarshal_pricing : string -> result pricing_payload).
Context (marketable : nat -> DB -> result (list MatchMarketOption)).
Context (member_ledger : string -> nat -> DB -> result (list PrivateWeb.LedgerRow)).
Context (halifax : Z * Z * Z * Z * Z -> Time) (config : BookConfig).

Definition reading {A} (f : nat -> DB -> result A) : go A := fun s => (s, f (tick s) (db s)).

(** [StoreRefinement.perform] with what the operation returns. *)
Definition execute (c : command) : go (answer_of c) :=
  match c return go (answer_of c) with
  | CPlaceWager req => Store_PlaceWager st req
  | CAcceptWager id actor => Store_AcceptWager st id actor
  | CRejectWager id actor reason => Store_RejectWager st id actor reason
  | CCancelWager id user => Store_CancelWager st id user
  | CVoidWager id actor reason => Store_VoidWager st id actor reason
  | CReduceWager id cents actor reason => Store_ReduceWager st id cents actor reason
  | CPlaceParlay req => Store_PlaceParlay st req
  | CAcceptParlay id actor => Store_AcceptParlay st id actor
  | CQuoteParlay req => QuoteParlay st req
  | CCreateMarket req => CreateMarket sides st req
  | CSettleMarket req => Store_SettleMarket st req
  | CVoidMarket req => Store_VoidMarket st req
  | CRegrade m actor reason => RegradeStrandedWagers st m actor reason
  | CSetOpeningLine m c odds actor reason => SetOpeningLine st m c odds actor reason
  | CReprice m trigger => RepriceMarketAfterWager st m trigger
  | CRecordSettlement req => RecordSettlement st req
  | CReverseSettlement id actor reason => ReverseSettlement st id actor reason
  | CRejectParlay id actor reason => Store_RejectParlay st id actor reason
  | CCancelParlay id user => Store_CancelParlay st id user
  | COpenMarket m actor => OpenMarket st m actor
  | CCloseMarket m actor => CloseMarket st m actor
  | CHandle e => MatchSettlementConsumer_Handle unmarshal (Some st) e
  | CHandlePricing e => PricingConsumer_Handle unmarshal_pricing (Some st) e
  | CCloseWithoutAction m actor reason => CloseMarketWithoutAction st m actor reason
  | CSetTotalSideCap m c cents actor reason => SetTotalSideCap st m c cents actor reason
  | CSetMarketCloseTime m t actor reason => SetMarketCloseTime st m t actor reason
  | CSetStakeLimit m c cents actor reason => SetStakeLimit st m c cents actor reason
  | CRestrictMember req => RestrictMember st req
  | CLiftRestriction m u c => LiftRestriction st m u c
  end.

Definition book_answers : answers (E := book_call) DB := fun X c =>
  match c in book_call X return go X with
  | NewID => NewEventID
  | Command c => execute c
  | QMarkets => ListMarkets st
  | QOpenMarkets => ListOpenMarkets st
  | QOpenMarketsForUser u => ListOpenMarketsForUser st u
  | QRestrictions => ListRestrictions st
  | QMembers => ListMembers st
  | QMarketableMatches => reading marketable
  | QStrandedWagers m => StrandedWagers m
  | QParlaysForUser u => ListParlaysForUser st u
  | QPendingParlays => ListPendingParlays st
  | QWagersByState state => ListWagersByState st state
  | QWagerRecord n => ListWagerRecord st n
  | QWagersForUser u => ListWagersForUser st u
  | QAutoApproveLimit u => AutoApproveLimitForUser st u
  | QMemberBook u n => MemberBook st u n
  | QMemberLedger u => reading (member_ledger u)
  | QSettlements n => ListSettlements st n
  | QMemberBalances cur => ListMemberBalances st cur
  end.

Lemma execute_performs c s : (execute c s).1 = (perform st sides unmarshal unmarshal_pricing c s).1.
Proof.
  assert (Hd : forall A (m : go A), (discard m s).1 = (m s).1) by (intros A m; unfold discard, mbind, go_bind; by destruct (m s) as [? []]).
  destruct c; cbn [perform execute]; by rewrite Hd.
Qed.

(** ** Reads leave the database *)
Create HintDb untouched.
#[local] Hint Resolve untouched_lift untouched_ret untouched_failing untouched_query : untouched.
Ltac untouched :=
  repeat match goal with
  | |- untouched (_ ≫= _) => apply untouched_bind; [|intros]
  | |- untouched (if ?b then _ else _) => destruct b
  | |- untouched (let '_ := ?x in _) => destruct x
  | |- untouched (match ?x with _ => _ end) => destruct x
  | |- _ => solve [auto with untouched]
  end.
Lemma untouched_reading {A} (f : nat -> DB -> result A) : untouched (reading f).
Proof. by intros s s' r [= <- _]. Qed.
Lemma untouched_listing {A} wrap (f : nat -> DB -> result A) :
  untouched (statement wrap (fun n d => l ← f n d; Ok (d, l))).
Proof.
  intros s s' r. unfold statement. destruct (statement_fault _); [by intros [= <- _]|].
  destruct (f _ _) as [l|]; cbn; by intros [= <- _].
Qed.
#[local] Hint Resolve untouched_reading untouched_listing : untouched.
Lemma untouched_listMarkets rows : untouched (listMarkets st rows).
Proof. unfold listMarkets. untouched. Qed.
Lemma untouched_attach_legs rows : untouched (attach_legs rows).
Proof. induction rows as [|row rows IH]; cbn [attach_legs]; unfold parlayLegsFor, loadParlayLegs; untouched. Qed.
Lemma untouched_listParlays predicate : untouched (listParlays st predicate).
Proof. unfold listParlays. untouched; apply untouched_attach_legs. Qed.
#[local] Hint Resolve untouched_listMarkets untouched_listParlays untouched_NewEventID : untouched.

Lemma reads_touch_nothing X (c : book_call X) : issued X c = None -> untouched (book_answers X c).
Proof.
  destruct c; cbn [issued]; [intros _|done|intros _..]; cbn [book_answers];
    unfold ListMarkets, ListOpenMarkets, ListOpenMarketsForUser, ListRestrictions, ListMembers, StrandedWagers, ListParlaysForUser,
      ListPendingParlays, ListWagersByState, ListWagerRecord, ListWagersForUser, AutoApproveLimitForUser, MemberBook, ListSettlements,
      ListMemberBalances, restrictedSelections; cbv zeta; untouched.
Qed.
(** ** What a request performs *)

Definition command_effect (c : command) (s : session) : session := (perform st sides unmarshal unmarshal_pricing c s).1.
Abbreviation does := (performs command_effect).

Lemma page_performs {A} (m : program book_call A) s s' a log :
  run_log book_answers m s = (s', a, log) -> does (commands_of log) s s'.
Proof.
  apply run_performs.
  - intros X c cmd s0 Hi. destruct c; cbn [issued] in Hi; try done. injection Hi as <-. apply execute_performs.
  - intros X c s0 Hi. destruct (book_answers X c s0) as [s1 r] eqn:Ec. by eapply (reads_touch_nothing X c).
Qed.

(** What the pages check makes a command's integers fit. *)
Lemma valid_int64 cents : valid_cents cents -> int64 cents.
Proof. unfold valid_cents, int64, MinInt64, MaxInt64. lia. Qed.
Lemma wager_command_ok req : valid_wager req -> command_ok (CPlaceWager req).
Proof. intros (_ & _ & _ & Hc). by apply valid_int64. Qed.
Lemma acts_ok u log cs : acts config u log cs -> Forall command_ok cs.
Proof.
  intros [|c Hm _|c _ Ha _|req w override Hm _ _ _ _|req _ _ _ Hv _|req w _ _ _ Hv _ _];
    repeat first [apply Forall_nil_2|apply Forall_cons_2]; try exact I.
  - destruct c; try done. apply wager_command_ok, Hm.
  - destruct c; try done. apply valid_int64, Ha.
  - apply wager_command_ok, Hm.
  - by apply wager_command_ok.
  - by apply wager_command_ok.
Qed.
Lemma authorized_ok v log : authorized config v log -> Forall command_ok (commands_of log).
Proof. intros [->|(u & form & _ & _ & _ & Hact)]; [constructor|by eapply acts_ok]. Qed.


(** ** The book the pages and the consumers leave *)
Inductive work :=
  | Request (to_ : route) (v : Visit)
  | Consume (event : Envelope)
  | ConsumePricing (event : Envelope).
Definition work_step (s : session) (w : work) : session :=
  match w with
  | Request to_ v => (run book_answers (ServeHTTP halifax config to_ v) s).1
  | Consume e => (perform st sides unmarshal unmarshal_pricing (CHandle e) s).1
  | ConsumePricing e => (perform st sides unmarshal unmarshal_pricing (CHandlePricing e) s).1
  end.
Definition serve (ws : list work) (s : session) : session := foldl work_step s ws.

Lemma work_performs s w : exists cs, does cs s (work_step s w) /\ Forall command_ok cs.
Proof.
  assert (Hone : forall c s, does [c] s (command_effect c s)).
  { intros c s0. apply (performs_next _ _ _ _ s0); [done|]. by constructor. }
  destruct w as [to_ v|e|e]; cbn [work_step]; [|by eexists; split; [apply Hone|repeat constructor]..].
  unfold run. destruct (run_log _ _ s) as [[s' x] log] eqn:Er. exists (commands_of log).
  split; [by eapply page_performs|]. apply (authorized_ok v).
  by apply (logs_run book_answers _ (fun _ => authorized config v) s s' x log (requests_authorized halifax config v to_)).
Qed.

(** The steps of the store between two databases, from one it could have left. *)
Definition sound (d : DB) : Prop := store_ok d /\ deferred_constraints d = true.
Definition advances (d d' : DB) : Prop := sound d -> store_steps d d' /\ sound d'.
#[local] Instance advances_preorder : PreOrder advances.
Proof.
  split; [by intros d; split; [apply rtc_refl|]|]. intros x y z Hxy Hyz Hx. destruct (Hxy Hx) as [H1 Hy]. destruct (Hyz Hy) as [H2 Hz].
  split; [by etrans|done].
Qed.
Lemma command_advances c s : command_ok c -> advances (db s) (db (command_effect c s)).
Proof.
  intros Hc [Hok Hd]. unfold command_effect. destruct (perform _ _ _ _ c s) as [s' r] eqn:Ep. cbn [fst].
  assert (Hst : store_steps (db s) (db s')) by exact (perform_steps st sides unmarshal unmarshal_pricing c s s' r Hc Hok Ep).
  split; [exact Hst|]. split; [by eapply store_steps_ok|]. by eapply perform_consistent.
Qed.
Lemma serve_advances ws : forall s, advances (db s) (db (serve ws s)).
Proof.
  induction ws as [|w ws IH]; intros s; [reflexivity|]. cbn [serve foldl].
  destruct (work_performs s w) as (cs & Hp & Hcs). etrans; [|apply IH].
  exact (performs_keeps command_effect advances command_ok cs s _ command_advances Hp Hcs).
Qed.

(** C11. Whatever is asked of the pages, escrow holds the open stakes.  From a
    database without bets, serve any requests, with any sessions, forms and
    identifiers, and deliver any events to the consumers, in any order: the
    balance of a currency's escrow account is the stakes of the accepted wagers
    and parlays in it, and every transaction of the ledger sums to zero. *)
Theorem pages_keep_the_book ws s cur escrow :
  fresh_db (db s) -> accounts (db (serve ws s)) !! escrow_key cur = Some escrow ->
  let d : DB := db (serve ws s) in
  balance_of escrow d = total (Book.held <$> book_wagers cur d) + parlay_stakes cur d
  /\ Forall (fun r => sumZ posting_cents (row_postings r) = 0) (BettingDB.ledger d).
Proof.
  intros Hf He. destruct (serve_advances ws s) as [Hst [_ Hd]]; [|by apply (escrow_of_steps (db s))].
  split; [split; [by apply fresh_keyed|by apply fresh_settle_ups]|apply fr_constraints, Hf].
Qed.
End page_store.
