(* ===== verification/BettingWebExample.v ===== *)
(** * Requests served

    Requests to the pages of the book on the database of [StoreExample]: the
    inputs at which the theorems on the pages are instantiated, and what a
    resubmitted form does. *)
From S2P Require Import Prelude GoStrings GoTime Decimal SQL Ledger Identity Events Payloads Sample Betting Corrections Book Parlay BettingDB.
From S2P Require Import PricingStore WagerStore ParlayStore MarketStore AdminStore AdjustStore ReadersStore StoreSteps StoreRefinement StoreExample.
From S2P Require Import AuthWeb Web Amounts PrivateWeb BettingWeb BettingPages BettingWebProps BettingWebStore.

(** ** Sessions, forms and requests *)
Definition alice_session : WebSession := mkWebSession alice "Alice" RoleMember true "token-a" false.
Definition admin_session : WebSession := mkWebSession Sample.admin "Admin" RoleAdmin true "token-b" false.
Definition post (session : WebSession) (form : Values) : Visit :=
  mkVisit (Ok session) false "/" false (Ok form) (mkTime (63900000000 * Second) true).

Definition bet_form : Values :=
  list_to_map [("csrf_token", ["token-a"]); ("market_id", [sid "1"]); ("selection_id", [sid "3"]);
               ("idempotency_key", [sid "7"]); ("stake", ["$20.00"])]%string.
Definition forged_form : Values := <["csrf_token"%string := ["token-b"%string]]> bet_form.
Definition settle_up_form : Values :=
  list_to_map [("csrf_token", ["token-b"]); ("user_id", [alice]); ("direction", ["payment_received"]); ("amount", ["12.50"]);
               ("reason", ["cash at the clubhouse"])]%string.
Definition member_bet_form : Values :=
  list_to_map [("csrf_token", ["token-b"]); ("market_id", [sid "1"]); ("selection_id", [sid "4"]); ("stake", ["5"])]%string.

(** Stakes up to 50 dollars fill without review. *)
Definition sample_config : BookConfig := mkBookConfig 5000 50000 100000.
Definition nothing_marketable (_ : nat) (_ : DB) : result (list MatchMarketOption) := Ok [].
Definition nothing_posted (_ : string) (_ : nat) (_ : DB) : result (list PrivateWeb.LedgerRow) := Ok [].
Definition utc_minute (_ : Z * Z * Z * Z * Z) : Time := mkTime (63900000000 * Second) true.

Abbreviation answered := (book_answers sample_store no_matches no_bytes no_pricing nothing_marketable nothing_posted).
Abbreviation page_of to_ v := (ServeHTTP utc_minute sample_config to_ v).
Abbreviation served ws := (serve sample_store no_matches no_bytes no_pricing nothing_marketable nothing_posted utc_minute sample_config ws start).

Example forged_bet_is_refused :
  let '(_, x, log) := run_log answered (page_of PostBookWagers (post alice_session forged_form)) start in
  x = forbidden /\ log = [].
Proof. vm_compute. done. Qed.

(** The page's own key places one bet however often the form is sent. *)
Example bet_resubmitted :
  let bet := Request PostBookWagers (post alice_session bet_form) in
  size (wager_rows (db (served [bet; bet]))) = 1%nat
  /\ balance_of (default "" (accounts (db (served [bet; bet])) !! escrow_key "CAD")) (db (served [bet; bet])) = 2000.
Proof. vm_compute. done. Qed.

(** memberbook.go and settleup.go draw the identifiers after the form is sent:
    sending it again bets again, and posts the payment again. *)
Example member_bet_resubmitted :
  let bet := Request (PostMemberWager alice) (post admin_session member_bet_form) in
  size (wager_rows (db (served [bet; bet]))) = 2%nat.
Proof. vm_compute. done. Qed.
Example settlement_resubmitted :
  let payment := Request PostSettleUp (post admin_session settle_up_form) in
  let cash d := (fun a => balance_of a d) <$> accounts d !! (Some alice, "user_cash"%string, "CAD"%string) in
  cash (db (served [payment])) = Some 1250 /\ cash (db (served [payment; payment])) = Some 2500.
Proof. vm_compute. done. Qed.


Definition sample_requests : list work :=
  [Request PostBookWagers (post alice_session bet_form); Request (PostMemberWager alice) (post admin_session member_bet_form);
   Request PostSettleUp (post admin_session settle_up_form)].
Definition page_escrow : string := Eval vm_compute in default ""%string (accounts (db (served sample_requests)) !! escrow_key "CAD").
Lemma page_escrow_opened : accounts (db (served sample_requests)) !! escrow_key "CAD" = Some page_escrow.
Proof. by vm_compute. Qed.
Lemma pages_keep_the_book_witness :
  let d := db (served sample_requests) in
  balance_of page_escrow d = 2500 /\ total (held <$> book_wagers "CAD" d) + parlay_stakes "CAD" d = 2500.
Proof.
  intros d. assert (Hb : balance_of page_escrow d = 2500) by (unfold d; vm_compute; reflexivity).
  destruct (pages_keep_the_book sample_store no_matches no_bytes no_pricing nothing_marketable nothing_posted utc_minute sample_config
    sample_requests start "CAD" page_escrow fresh_sample_db page_escrow_opened) as [H _].
  split; [exact Hb|]. exact (eq_trans (eq_sym H) Hb).
Defined.

Lemma line_moves_are_exact_witness :
  compareLines 150 130 = lineToMember /\ pays_more 150 130 /\ 1300 <= 1500.
Proof.
  destruct (line_moves_are_exact 150 130 (mkMoney 1000 "CAD") (mkMoney 1500 "CAD") (mkMoney 1300 "CAD")) as (H & _ & Hl & _);
    [by unfold valid_odds; lia|by unfold valid_odds; lia|by vm_compute|by vm_compute|by vm_compute|].
  assert (Hm : compareLines 150 130 = lineToMember) by (vm_compute; reflexivity).
  split; [exact Hm|]. split; [by apply H|]. apply Hl. rewrite Hm. discriminate.
Defined.
