(* ===== verification/MembersWeb.v ===== *)
(** * internal/membersweb: the member pages

    The handlers of membersweb.go over the calls of its two interfaces: the
    identity store and the player links of the competition store. *)
From S2P Require Import Prelude GoStrings GoTime SQL Identity IdentityDB CompetitionReaders Url AuthWeb Web.

#[local] Abbreviation Get := AuthWeb.Get.

(** ** The calls: [MemberStore] and [PlayerLinker] *)
Inductive members_call : Type -> Type :=
  | QListMembers : members_call (list MemberRow)
  | QInvitations : members_call (list InvitationRow)
  | QPlayerLinks (actor : string) : members_call (list PlayerLink)
  | Issue (actor : string) (role : Role) (email : string) (ttl : Z) : members_call string
  | Withdraw (actor invitation : string) : members_call unit
  | ChangeRole (actor target : string) (role : Role) (reason : string) : members_call unit
  | Revoke (actor target reason : string) : members_call unit
  | AutoApprove (actor target : string) (cents : option Z) : members_call unit
  | Credit (actor target : string) (cents : Z) : members_call unit
  | Link (actor player target : string) : members_call unit
  | Unlink (actor player target : string) : members_call unit.

(** ** Pages *)
Record pageData := mkPageData { FormError : string; Notice : string; InviteLink : string }.
Definition form_error (text : string) : pageData := mkPageData text "" "".
Definition no_data : pageData := mkPageData "" "" "".
Inductive page :=
  | Forbidden
  | Members (members : list MemberRow) (invitations : list InvitationRow) (isOwner : bool)
      (linkedPlayerByUser : gmap string PlayerLink) (unlinkedPlayers : list PlayerLink) (data : pageData).

Definition forbidden : response page := Rendered StatusForbidden Forbidden.
Definition redirectMembers : string := "/admin/members".
Definition defaultInviteTTL : Z := 7 * 24 * Hour.

(** [strings.TrimRight(s, "/")] *)
Fixpoint drop_slashes (l : list ascii) : list ascii :=
  match l with a :: rest => if byte_is 47 a then drop_slashes rest else l | [] => [] end.
Definition trim_slashes (s : string) : string := of_bytes (reverse (drop_slashes (reverse (bytes s)))).
(** [New]: the base of the invite links. *)
Definition New (hasDependencies : bool) (publicBaseURL : string) : result string :=
  fail_if (negb hasDependencies) (Errorf "members web dependencies must all be configured");;
  let base := trim_slashes (TrimSpace publicBaseURL) in
  fail_if (bool_decide (base = ""%string)) (Errorf "members web requires a public base URL for invite links");;
  Ok base.

Definition role_of (t : string) : Role :=
  if bool_decide (t = "member"%string) then RoleMember
  else if bool_decide (t = "admin"%string) then RoleAdmin
  else if bool_decide (t = "owner"%string) then RoleOwner else RoleOther t.
Definition is_owner (session : WebSession) : bool := bool_decide (WS_Role session = RoleOwner).

(** A limit: nothing when blank, and zero is one. *)
Definition parseLimitCents (value : string) : result (option Z) :=
  let value := TrimSpace value in
  if bool_decide (value = ""%string) then Ok None
  else
    match stakePattern (bytes value) with
    | None => Err (Errorf "limit must be a dollar amount")
    | Some (dollars, cents) => Ok (Some (pattern_cents dollars cents))
    end.

Definition linkErrorMessage (err : error) : string :=
  let because name := errors_is name err in
  if because "identity.ErrUnauthorized" then "You are not authorized to map players."
  else if because "competitionpg.ErrPlayerNotFound" then "That historical player was not found or is no longer active."
  else if because "competitionpg.ErrMemberNotFound" then "That active member was not found."
  else if because "competitionpg.ErrPlayerAlreadyLinked" then "That historical player is already linked to another member."
  else if because "competitionpg.ErrMemberAlreadyLinked" then "That member is already linked to another historical player."
  else if because "competitionpg.ErrPlayerLinkMismatch" then "That historical player is no longer linked to this member. Refresh and try again."
  else "The player mapping could not be updated."%string.
Definition storeErrorMessage (err : error) : string :=
  if errors_is "identity.ErrUnauthorized" err then "You are not authorized to perform this action."
  else "The request could not be completed."%string.

(** ** The handlers *)
#[local] Abbreviation handler := (program members_call (response page)).

Definition requireMember (v : Visit) (k : WebSession -> handler) : handler :=
  with_session v internalError (fun session =>
  if negb (WS_Active session) || bool_decide (WS_UserID session = ""%string) then respond forbidden else k session).
Definition requireAdmin (v : Visit) (k : WebSession -> handler) : handler :=
  requireMember v (fun session => if negb (is_admin session) then respond forbidden else k session).
Definition requireOwner (v : Visit) (k : WebSession -> handler) : handler :=
  requireMember v (fun session => if negb (is_owner session) then respond forbidden else k session).
Definition checkedForm (v : Visit) (session : WebSession) (k : Values -> handler) : handler :=
  match v_form v with
  | Err _ => respond forbidden
  | Ok form => if token_matches form session then k form else respond forbidden
  end.
Definition admin_form (v : Visit) (k : WebSession -> Values -> handler) : handler :=
  requireAdmin v (fun session => checkedForm v session (k session)).
Definition owner_form (v : Visit) (k : WebSession -> Values -> handler) : handler :=
  requireOwner v (fun session => checkedForm v session (k session)).

(** The links by member, the last one listed for a member winning, and the
    players without one. *)
Definition linked_by_user (links : list PlayerLink) : gmap string PlayerLink :=
  foldl (fun m link => if bool_decide (LinkedUserID link = ""%string) then m else <[LinkedUserID link := link]> m) ∅ links.
Definition unlinked (links : list PlayerLink) : list PlayerLink := List.filter (fun link => bool_decide (LinkedUserID link = ""%string)) links.
Definition renderList (session : WebSession) (extra : pageData) : handler :=
  loaded QListMembers (fun members =>
  loaded QInvitations (fun invitations =>
  loaded (QPlayerLinks (WS_UserID session)) (fun links =>
  respond (Rendered (if bool_decide (FormError extra = ""%string) then StatusOK else StatusBadRequest)
    (Members members invitations (is_owner session) (linked_by_user links) (unlinked links) extra))))).
Definition refuse (session : WebSession) (text : string) : handler := renderList session (form_error text).
(** The store's word, or the member list again. *)
Definition finish (session : WebSession) (message : error -> string) (r : result unit) : handler :=
  match r with Err err => refuse session (message err) | Ok _ => respond (SeeOther redirectMembers) end.

Definition list_ (v : Visit) : handler := requireAdmin v (fun session => renderList session no_data).

Definition invite (baseURL : string) (v : Visit) : handler :=
  admin_form v (fun session form =>
  let role := Get "role" form in
  if negb (bool_decide (role = "member"%string)) && negb (bool_decide (role = "admin"%string))
  then refuse session "Choose a role of member or admin."
  else if bool_decide (role = "admin"%string) && negb (is_owner session) then refuse session "Only an owner may invite an admin."
  else
    let intendedEmail := TrimSpace (Get "email" form) in
    r ← call (Issue (WS_UserID session) (role_of role) intendedEmail defaultInviteTTL);
    match r with
    | Err err => refuse session (storeErrorMessage err)
    | Ok token =>
        renderList session (mkPageData ""
          ("Invite link created for a new " ++ role ++ ". Copy it now — it is shown only once and expires in 7 days.")
          (baseURL ++ "/invite/" ++ token))
    end).

Definition revokeInvite (v : Visit) (invitationID : string) : handler :=
  admin_form v (fun session form =>
  if negb (isUUID invitationID) then refuse session "That invitation was not found."
  else r ← call (Withdraw (WS_UserID session) invitationID); finish session storeErrorMessage r).

Definition changeRole (v : Visit) (targetID : string) : handler :=
  owner_form v (fun session form =>
  let newRole := role_of (Get "role" form) in
  let reason := reason_of form in
  if negb (isUUID targetID) || (match newRole with RoleOther _ => true | _ => false end)
  then refuse session "Pick a valid member and target role."
  else if bad_reason reason then refuse session "A reason is required to change a role."
  else r ← call (ChangeRole (WS_UserID session) targetID newRole reason); finish session storeErrorMessage r).

Definition revokeMember (v : Visit) (targetID : string) : handler :=
  owner_form v (fun session form =>
  let reason := reason_of form in
  if negb (isUUID targetID) then refuse session "That member was not found."
  else if bad_reason reason then refuse session "A reason is required to revoke a member."
  else r ← call (Revoke (WS_UserID session) targetID reason); finish session storeErrorMessage r).

Definition setLimit (v : Visit) (targetID : string) : handler :=
  admin_form v (fun session form =>
  if negb (isUUID targetID) then refuse session "That member was not found."
  else
    match parseLimitCents (Get "limit" form) with
    | Err _ => refuse session "Enter the auto-approve limit as a dollar amount, or leave it blank to use the default."
    | Ok cents => r ← call (AutoApprove (WS_UserID session) targetID cents); finish session storeErrorMessage r
    end).

Definition setCredit (v : Visit) (targetID : string) : handler :=
  admin_form v (fun session form =>
  if negb (isUUID targetID) then refuse session "That member was not found."
  else
    match parseLimitCents (Get "credit" form) with
    | Ok (Some cents) => r ← call (Credit (WS_UserID session) targetID cents); finish session storeErrorMessage r
    | _ => refuse session "Enter the credit limit as a dollar amount, for example 1000."
    end).

Definition linkPlayer (v : Visit) (targetID : string) : handler :=
  admin_form v (fun session form =>
  let playerID := Get "player_id" form in
  if negb (isUUID targetID) || negb (isUUID playerID) then refuse session "Pick a member and a player to link."
  else r ← call (Link (WS_UserID session) playerID targetID); finish session linkErrorMessage r).

Definition unlinkPlayer (v : Visit) (targetID : string) : handler :=
  admin_form v (fun session form =>
  let playerID := Get "player_id" form in
  if negb (isUUID targetID) || negb (isUUID playerID) then refuse session "That member or player was not found."
  else r ← call (Unlink (WS_UserID session) playerID targetID); finish session linkErrorMessage r).

Inductive route :=
  | GetMembers | PostInvite | PostRevokeInvite (id : string) | PostRole (id : string) | PostRevoke (id : string)
  | PostLimit (id : string) | PostCredit (id : string) | PostLink (id : string) | PostUnlink (id : string).
Definition ServeHTTP (baseURL : string) (to_ : route) (v : Visit) : handler :=
  match to_ with
  | GetMembers => list_ v
  | PostInvite => invite baseURL v
  | PostRevokeInvite id => revokeInvite v id
  | PostRole id => changeRole v id
  | PostRevoke id => revokeMember v id
  | PostLimit id => setLimit v id
  | PostCredit id => setCredit v id
  | PostLink id => linkPlayer v id
  | PostUnlink id => unlinkPlayer v id
  end.
