(* ===== verification/CompetitionWeb.v ===== *)
(** * internal/competitionweb: the pages of the competition

    The handlers of competitionweb.go over the calls of its store.  An error's
    own text is kept as the error. *)
From S2P Require Import Prelude GoStrings GoTime SQL Identity Competition CompetitionDB CompetitionReaders CompetitionRuns Url AuthWeb Web.

#[local] Abbreviation Get := AuthWeb.Get.

(** ** The calls: [CompetitionStore] *)
Definition comp_answer (c : comp_command) : Type :=
  match c with
  | KCreateEvent _ | KCreateTeam _ _ _ | KCreatePlayer _ _ | KRecordResult _ => string
  | KCreateMatch _ => MatchCreated
  | _ => unit
  end.
Inductive competition_call : Type -> Type :=
  | QListEvents : competition_call (list EventRow)
  | QListPlayers : competition_call (list PlayerRow)
  | QListStandings : competition_call (list StandingRow)
  | Command (c : comp_command) : competition_call (comp_answer c).

(** ** Pages *)
Inductive note :=
  | Text (s : string)
  | Caused (prefix : string) (err : error)
  (** [competitionValidationMessage]: the error without the text of [ErrInvalid] *)
  | Validation (err : error).
Inductive page :=
  | Denied
  | Matches (events : list EventRow) (players : list PlayerRow) (standings : list StandingRow) (formError : option note) (notice : string).
Definition redirectMatches : string := "/admin/matches".

(** [uuidList] *)
Definition uuidList (values : list string) : list string := List.filter isUUID (TrimSpace <$> values).
Definition format_of (t : string) : MatchFormat :=
  if bool_decide (t = "singles"%string) then FormatSingles
  else if bool_decide (t = "fourball"%string) then FormatFourball
  else if bool_decide (t = "foursomes"%string) then FormatFoursomes
  else if bool_decide (t = "scramble"%string) then FormatScramble
  else if bool_decide (t = "other"%string) then FormatOther else FormatUnknown t.

#[local] Abbreviation handler := (program competition_call (response page)).

(** ** Handlers *)
Definition requireAdmin (v : Visit) (k : WebSession -> handler) : handler :=
  with_session v (ErrorText StatusInternalServerError "Unable to load session") (fun session =>
  if negb (WS_Active session) || negb (is_admin session) then respond (Rendered StatusForbidden Denied) else k session).
Definition checkedForm (v : Visit) (session : WebSession) (k : Values -> handler) : handler :=
  match v_form v with
  | Err _ => respond (ErrorText StatusBadRequest "")
  | Ok form => if token_matches form session then k form else respond (ErrorText StatusForbidden "")
  end.
Definition admin_form (v : Visit) (k : WebSession -> Values -> handler) : handler :=
  requireAdmin v (fun session => checkedForm v session (k session)).

Definition loaded_or {X} (text : string) (c : competition_call X) (k : X -> handler) : handler :=
  r ← call c;
  match r with Ok x => k x | Err _ => respond (ErrorText StatusInternalServerError text) end.
Definition renderList (formError : option note) (notice : string) : handler :=
  loaded_or "Unable to load matches" QListEvents (fun events =>
  loaded_or "Unable to load players" QListPlayers (fun players =>
  loaded_or "Unable to load standings" QListStandings (fun standings =>
  respond (Rendered (match formError with Some _ => StatusBadRequest | None => StatusOK end)
    (Matches events players standings formError notice))))).
Definition refuse (text : string) : handler := renderList (Some (Text text)) "".
Definition noticed (text : string) : handler := renderList None text.

Definition list_ (v : Visit) : handler := requireAdmin v (fun session => noticed "").

(** Created, or what the store said. *)
Definition created {X} (prefix : string) (r : result X) : handler :=
  match r with Err err => renderList (Some (Caused prefix err)) "" | Ok _ => respond (SeeOther redirectMatches) end.

Definition createEvent (v : Visit) : handler :=
  admin_form v (fun session form =>
  match ParseInt 64 (TrimSpace (Get "season_year" form)) with
  | None => refuse "Enter a valid season year."
  | Some year =>
      r ← call (Command (KCreateEvent (mkCreateEventRequest (Get "name" form) (Get "venue" form) year (WS_UserID session))));
      created "Could not create event: " r
  end).

Definition createTeam (v : Visit) (eventID : string) : handler :=
  admin_form v (fun session form =>
  if negb (isUUID eventID) then refuse "That event was not found."
  else
    r ← call (Command (KCreateTeam eventID (Get "name" form) (WS_UserID session)));
    created "Could not add team: " r).

Definition createPlayer (v : Visit) : handler :=
  admin_form v (fun session form =>
  r ← call (Command (KCreatePlayer (Get "name" form) (TrimSpace (Get "linked_user_id" form))));
  created "Could not create player: " r).

Definition renderRosterError (err : error) : handler :=
  let because name := errors_is name err in
  renderList (Some (
    if because "competitionpg.ErrRosterNotFound"%string || because "competitionpg.ErrDeleteNotFound"%string
    then Text "That roster member or team was not found."
    else if because "competitionpg.ErrRosterProtected"%string
    then Text "That player has match history for this team and cannot be removed."
    else if because "competitionpg.ErrLastCaptain"%string
    then Text "Assign another captain before removing or demoting the team's final captain."
    else if because "competition.ErrInvalid"%string then Validation err
    else Text "Could not update that team roster.")) "".
Definition roster_changed (text : string) (r : result unit) : handler :=
  match r with Err err => renderRosterError err | Ok _ => noticed text end.

Definition setTeamMember (v : Visit) (eventID teamID : string) : handler :=
  admin_form v (fun session form =>
  let playerID := TrimSpace (Get "player_id" form) in
  if negb (isUUID eventID) || negb (isUUID teamID) || negb (isUUID playerID) then refuse "Pick a valid event, team, and player."
  else
    r ← call (Command (KSetMember (mkSetTeamMemberRequest eventID teamID playerID (bool_decide (Get "is_captain" form = "true"%string))
                                     (WS_UserID session))));
    roster_changed "Team roster updated." r).

Definition removeTeamMember (v : Visit) (eventID teamID playerID : string) : handler :=
  admin_form v (fun session form =>
  if negb (isUUID eventID) || negb (isUUID teamID) || negb (isUUID playerID) then refuse "That roster member was not found."
  else if bad_reason (reason_of form) then refuse "Enter a roster removal reason of at most 500 characters."
  else
    r ← call (Command (KRemoveMember eventID teamID playerID (WS_UserID session) (reason_of form)));
    roster_changed "Player removed from the team roster. The change remains in the audit history." r).

Definition createMatch (v : Visit) : handler :=
  admin_form v (fun session form =>
  let eventID := Get "event_id" form in
  let side1 := Get "side1_team_id" form in
  let side2 := Get "side2_team_id" form in
  let format := format_of (Get "format" form) in
  if negb (isUUID eventID) || negb (isUUID side1) || negb (isUUID side2) then refuse "Pick an event and two teams."
  else
    let side1Players := uuidList (all_values "side1_players" form) in
    let side2Players := uuidList (all_values "side2_players" form) in
    match ValidateParticipantCounts format (Z.of_nat (length side1Players)) (Z.of_nat (length side2Players)) with
    | Err err => renderList (Some (Validation err)) ""
    | Ok _ =>
        r ← call (Command (KCreateMatch (mkCreateMatchRequest eventID format side1 side2 side1Players side2Players (WS_UserID session))));
        match r with
        | Err err => renderList (Some (if errors_is "competition.ErrInvalid" err then Validation err else Text "Could not create match.")) ""
        | Ok _ => noticed "Match created. It is now available by name when you create a Match market."
        end
    end).

Definition recordResult (v : Visit) (matchID : string) : handler :=
  admin_form v (fun session form =>
  if negb (isUUID matchID) then refuse "That match was not found."
  else
    r ← call (Command (KRecordResult (mkRecordResultRequest matchID (Get "winner" form) (Get "score" form) (WS_UserID session)
                                        (reason_of form))));
    match r with
    | Err err => renderList (Some (Caused "Could not record result: " err)) ""
    | Ok _ => noticed "Result recorded. Any linked match markets will settle automatically."
    end).

(** *** Deletions *)
Definition deleteReason (form : Values) (k : string -> handler) : handler :=
  if bad_reason (reason_of form) then refuse "Enter a deletion reason of at most 500 characters." else k (reason_of form).
Definition renderDeleteError (recordType : string) (err : error) : handler :=
  renderList (Some (Text (
    if errors_is "competitionpg.ErrDeleteNotFound" err then "That " ++ recordType ++ " was not found."
    else if errors_is "competitionpg.ErrDeleteProtected" err
    then "That " ++ recordType ++ " has match, market, result, media, statistics, roster, or imported history and cannot be deleted. Use the correction or void workflow instead."
    else "Could not delete that " ++ recordType ++ ".")%string)) "".
Definition deleted (recordType text : string) (r : result unit) : handler :=
  match r with Err err => renderDeleteError recordType err | Ok _ => noticed text end.

Definition deleteMatch (v : Visit) (matchID : string) : handler :=
  admin_form v (fun session form =>
  if negb (isUUID matchID) then refuse "That match was not found."
  else deleteReason form (fun reason =>
    r ← call (Command (KDeleteMatch matchID (WS_UserID session) reason));
    deleted "match" "Unused match deleted. The deletion remains in the audit history." r)).
Definition deleteTeam (v : Visit) (eventID teamID : string) : handler :=
  admin_form v (fun session form =>
  if negb (isUUID eventID) || negb (isUUID teamID) then refuse "That team was not found."
  else deleteReason form (fun reason =>
    r ← call (Command (KDeleteTeam eventID teamID (WS_UserID session) reason));
    deleted "team" "Unused team deleted. The deletion remains in the audit history." r)).
Definition deleteEvent (v : Visit) (eventID : string) : handler :=
  admin_form v (fun session form =>
  if negb (isUUID eventID) then refuse "That event was not found."
  else deleteReason form (fun reason =>
    r ← call (Command (KDeleteEvent eventID (WS_UserID session) reason));
    deleted "event" "Empty event deleted. The deletion remains in the audit history." r)).

Inductive route :=
  | GetMatches | PostEvents | PostPlayers | PostTeams (event : string) | PostRoster (event team : string)
  | PostRosterRemove (event team player : string) | PostDeleteEvent (event : string) | PostDeleteTeam (event team : string)
  | PostMatches | PostResult (match_ : string) | PostDeleteMatch (match_ : string).
Definition ServeHTTP (to_ : route) (v : Visit) : handler :=
  match to_ with
  | GetMatches => list_ v
  | PostEvents => createEvent v
  | PostPlayers => createPlayer v
  | PostTeams e => createTeam v e
  | PostRoster e t => setTeamMember v e t
  | PostRosterRemove e t p => removeTeamMember v e t p
  | PostDeleteEvent e => deleteEvent v e
  | PostDeleteTeam e t => deleteTeam v e t
  | PostMatches => createMatch v
  | PostResult m => recordResult v m
  | PostDeleteMatch m => deleteMatch v m
  end.
