(* ===== verification/StaffWebStore.v ===== *)
(** * The staff pages over their stores

    cmd/cabot wires internal/membersweb to the identity store and the player
    links of the competition store, and internal/competitionweb to the
    competition store: here those operations answer the calls of the handlers,
    in the database of the competition store, whose people are the identity
    store's tables.  What a request does is what its commands do, and they are
    the session's to ask for. *)
From S2P Require Import Prelude GoStrings GoTime Decimal Events Payloads Dispatcher OutboxPG SQL Keeping Identity Session IdentityDB IdentityStore IdentityRuns.
From S2P Require Import Competition CompetitionDB CompetitionStore CompetitionOps CompetitionRuns CompetitionReaders Url AuthWeb Web Amounts MembersWeb CompetitionWeb.

#[local] Abbreviation go := (SQL.go CompDB).

(** An operation of the identity store, in the larger database. *)
Definition on_people {A} (m : SQL.go IdDB A) : go A := fun s =>
  let '(s', r) := m (SQL.mkSession (co_people (db s)) (tick s)) in
  (SQL.mkSession (with_people (db s') (db s)) (tick s'), r).

Inductive staff_command := People (c : id_command) | Competition (c : comp_command).

Section staff_pages.
Context {E : environment} {HE : environment_ok E}.
Context (pg_lower go_lower : string -> string) (equal_fold : string -> string -> bool).
Context (sha256 : list ascii -> Digest) (random32 : nat -> option (list ascii)).
Context (unicode_lower : string -> string) (referenced : string -> string -> bool).
Context (unmarshal_bytes : string -> result MatchResultVerifiedPayload).
Context (st : IdStore) (pool : bool) (baseURL : string).

(** The session after a command. *)
Definition staff_effect (c : staff_command) (s : session CompDB) : session CompDB :=
  match c with
  | People c => (on_people (fun s => (id_perform pg_lower go_lower equal_fold sha256 random32 st c s, Ok ())) s).1
  | Competition c => comp_perform unicode_lower referenced unmarshal_bytes pool c s
  end.

(** ** The stores' answers *)
Definition member_answers : answers (E := members_call) CompDB := fun X c =>
  match c in members_call X return go X with
  | QListMembers => on_people (ListMembers st)
  | QInvitations => on_people (ListPendingInvitations st)
  | QPlayerLinks actor => ListPlayerLinks pool actor
  | Issue actor role email ttl => on_people (IssueInvitation go_lower sha256 random32 st actor role email ttl)
  | Withdraw actor i => on_people (RevokeInvitation st actor i)
  | ChangeRole actor target role reason => on_people (ChangeMemberRole st actor target role reason)
  | Revoke actor target reason => on_people (RevokeMember st actor target reason)
  | AutoApprove actor target cents => on_people (SetAutoApproveLimit st actor target cents)
  | Credit actor target cents => on_people (SetCreditLimit st actor target cents)
  | Link actor player target => LinkPlayerToUser pool actor player target
  | Unlink actor player target => UnlinkPlayer pool actor player target
  end.
Definition member_issued X (c : members_call X) : option staff_command :=
  match c with
  | QListMembers | QInvitations | QPlayerLinks _ => None
  | Issue actor role email ttl => Some (People (IInvite actor role email ttl))
  | Withdraw actor i => Some (People (IWithdraw actor i))
  | ChangeRole actor target role reason => Some (People (IChangeRole actor target role reason))
  | Revoke actor target reason => Some (People (IRevokeMember actor target reason))
  | AutoApprove actor target cents => Some (People (IAutoApprove actor target cents))
  | Credit actor target cents => Some (People (ICredit actor target cents))
  | Link actor player target => Some (Competition (KLink actor player target))
  | Unlink actor player target => Some (Competition (KUnlink actor player target))
  end.

(** [comp_perform] with what the operation returns. *)
Definition comp_execute (c : comp_command) : go (comp_answer c) :=
  match c return go (comp_answer c) with
  | KCreateEvent req => CreateEvent unicode_lower pool req
  | KCreateTeam e name by_ => CreateTeam unicode_lower pool e name by_
  | KCreatePlayer name user => CreatePlayer unicode_lower pool name user
  | KCreateMatch req => CreateMatch pool req
  | KRecordResult req => RecordAdminResult pool req
  | KSetMember req => SetTeamMember pool req
  | KRemoveMember e t p a reason => RemoveTeamMember pool e t p a reason
  | KLink a p u => LinkPlayerToUser pool a p u
  | KUnlink a p u => UnlinkPlayer pool a p u
  | KDeleteMatch m a reason => DeleteMatch referenced pool m a reason
  | KDeleteTeam e t a reason => DeleteTeam referenced pool e t a reason
  | KDeleteEvent e a reason => DeleteEvent referenced pool e a reason
  | KDeliver _ | KPeople _ => fun s => (comp_perform unicode_lower referenced unmarshal_bytes pool c s, Ok ())
  end.
Definition competition_answers : answers (E := competition_call) CompDB := fun X c =>
  match c in competition_call X return go X with
  | QListEvents => ListEvents pool
  | QListPlayers => ListPlayers pool
  | QListStandings => ListStandings pool
  | Command c => comp_execute c
  end.
Definition competition_issued X (c : competition_call X) : option staff_command :=
  match c with Command c => Some (Competition c) | _ => None end.

(** ** What a request performs *)
Definition untouched {A} (m : go A) : Prop := forall s, db (m s).1 = db s.
Lemma untouched_of {D A} (m : SQL.go D A) : keeps eq m -> forall s, db (m s).1 = db s.
Proof. intros Hm s. symmetry. by apply (keeps_fst eq). Qed.
Lemma with_own_people d : with_people (co_people d) d = d.
Proof. by destruct d. Qed.
Lemma untouched_on_people {A} (m : SQL.go IdDB A) : keeps eq m -> untouched (on_people m).
Proof.
  intros Hm s. unfold on_people. pose proof (untouched_of m Hm (SQL.mkSession (co_people (db s)) (tick s))) as Hd.
  destruct (m _) as [s' r]. cbn [fst db] in *. rewrite Hd. apply with_own_people.
Qed.
Lemma on_people_effect {A} (m : SQL.go IdDB A) s : (on_people m s).1 = (on_people (fun s => ((m s).1, Ok ())) s).1.
Proof. unfold on_people. by destruct (m _). Qed.

Lemma member_commands_effect X (c : members_call X) cmd s :
  member_issued X c = Some cmd -> (member_answers X c s).1 = staff_effect cmd s.
Proof.
  destruct c; intros Hi; try done; injection Hi as <-; cbn [member_answers staff_effect id_perform comp_perform];
    try apply on_people_effect; done.
Qed.
Lemma comp_execute_effect c s : (comp_execute c s).1 = staff_effect (Competition c) s.
Proof. by destruct c. Qed.
Lemma competition_commands_effect X (c : competition_call X) cmd s :
  competition_issued X c = Some cmd -> (competition_answers X c s).1 = staff_effect cmd s.
Proof. destruct c; intros Hi; try done. injection Hi as <-. apply comp_execute_effect. Qed.

#[local] Instance eq_po {A} : PreOrder (@eq A).
Proof. split; [by intros x|]. intros x y z H1 H2. congruence. Qed.
Lemma member_reads X (c : members_call X) s : member_issued X c = None -> db (member_answers X c s).1 = db s.
Proof.
  destruct c; intros Hi; try done; clear Hi; cbn [member_answers].
  - apply untouched_on_people. unfold ListMembers. keeps.
  - apply untouched_on_people. unfold ListPendingInvitations. keeps. refine (keeps_statement eq _ _ _). intros n d d' a H. by simplify_eq.
  - apply untouched_of. unfold ListPlayerLinks, requireStaff. keeps.
Qed.
Lemma competition_reads X (c : competition_call X) s : competition_issued X c = None -> db (competition_answers X c s).1 = db s.
Proof.
  destruct c; intros Hi; try done; clear Hi; cbn [competition_answers]; apply untouched_of; unfold ListEvents, ListPlayers, ListStandings; keeps.
Qed.

(** ** What a session may ask for, with a form *)
Definition staff_may (u : WebSession) (form : Values) (c : staff_command) : Prop :=
  match c with
  | People (IInvite actor role _ ttl) =>
      actor = WS_UserID u /\ ttl = defaultInviteTTL /\ (role = Identity.RoleMember \/ role = Identity.RoleAdmin /\ is_owner u = true)
  | People (IWithdraw actor i) => actor = WS_UserID u /\ isUUID i = true
  | People (IChangeRole actor target role reason) =>
      is_owner u = true /\ actor = WS_UserID u /\ isUUID target = true /\ Role_Validate role = Ok () /\ bad_reason reason = false
  | People (IRevokeMember actor target reason) =>
      is_owner u = true /\ actor = WS_UserID u /\ isUUID target = true /\ bad_reason reason = false
  | People (IAutoApprove actor target cents) =>
      actor = WS_UserID u /\ isUUID target = true /\ (cents = None \/ exists c, cents = Some c /\ 0 <= c <= 999999999)
  | People (ICredit actor target cents) => actor = WS_UserID u /\ isUUID target = true /\ 0 <= cents <= 999999999
  | Competition (KLink actor player target) | Competition (KUnlink actor player target) =>
      actor = WS_UserID u /\ isUUID player = true /\ isUUID target = true
  | Competition (KCreateEvent req) => CE_CreatedBy req = WS_UserID u
  | Competition (KCreateTeam event _ by_) => isUUID event = true /\ by_ = WS_UserID u
  | Competition (KCreatePlayer name linked) => name = Get "name" form /\ linked = TrimSpace (Get "linked_user_id" form)
  | Competition (KCreateMatch req) =>
      CM_CreatedBy req = WS_UserID u /\ isUUID (CM_EventID req) = true /\ isUUID (Side1TeamID req) = true /\ isUUID (Side2TeamID req) = true
      /\ Forall (fun p => isUUID p = true) (Side1PlayerIDs req ++ Side2PlayerIDs req)
      /\ is_Ok (ValidateParticipantCounts (CM_Format req) (Z.of_nat (length (Side1PlayerIDs req))) (Z.of_nat (length (Side2PlayerIDs req)))) = true
  | Competition (KRecordResult req) =>
      ActorUserID req = WS_UserID u /\ isUUID (RR_MatchID req) = true
      /\ Winner req = Get "winner" form /\ RR_Score req = Get "score" form /\ RR_Reason req = TrimSpace (Get "reason" form)
  | Competition (KSetMember req) =>
      TM_ActorUserID req = WS_UserID u /\ isUUID (TM_EventID req) = true /\ isUUID (TM_TeamID req) = true /\ isUUID (TM_PlayerID req) = true
  | Competition (KRemoveMember event team player actor reason) =>
      isUUID event = true /\ isUUID team = true /\ isUUID player = true /\ actor = WS_UserID u /\ bad_reason reason = false
  | Competition (KDeleteMatch id actor reason) | Competition (KDeleteEvent id actor reason) =>
      isUUID id = true /\ actor = WS_UserID u /\ bad_reason reason = false
  | Competition (KDeleteTeam event team actor reason) =>
      isUUID event = true /\ isUUID team = true /\ actor = WS_UserID u /\ bad_reason reason = false
  | _ => False
  end.

(** An administrator's or owner's live session, and its token. *)
Definition staff_authorized (v : Visit) (cs : list staff_command) : Prop :=
  cs = [] \/ exists u form c, v_session v = Ok u /\ WS_Active u = true /\ is_admin u = true
    /\ v_form v = Ok form /\ token_matches form u = true /\ cs = [c] /\ staff_may u form c.

(** ** The handlers ask for no more *)
Section walks.
Context (v : Visit).

Lemma is_owner_admin u : is_owner u = true -> is_admin u = true.
Proof. unfold is_owner, is_admin. intros ->. by rewrite orb_true_r. Qed.
Lemma parseLimitCents_bound value cents : parseLimitCents value = Ok (Some cents) -> 0 <= cents <= 999999999.
Proof.
  unfold parseLimitCents. case_bool_decide; [done|]. destruct (stakePattern _) as [[d c]|] eqn:Hp; [|done]. intros [= <-]. by eapply stakePattern_bound.
Qed.

(** *** What both packages' handlers share *)
Section one_command.
Context {C : Type -> Type} {P : Type} (issued : forall X, C X -> option staff_command).
#[local] Abbreviation handler := (program C (response P)).
Implicit Types Q : response P -> list (entry C) -> Prop.
(** Calls that command nothing. *)
Definition only_reads (log : list (entry C)) : Prop := asked issued log = [].
Definition asks u form (log : list (entry C)) : Prop :=
  only_reads log \/ exists c, asked issued log = [c] /\ staff_may u form c.
Definition allowed (m : handler) : Prop := logs (fun _ log => staff_authorized v (asked issued log)) m.

Lemma asks_once u form X (c : C X) r cmd log : issued X c = Some cmd -> staff_may u form cmd -> only_reads log -> asks u form (Entry c r :: log).
Proof.
  intros Hc Hm Hl. right. exists cmd. unfold asked. cbn [omap list_omap asked_entry]. rewrite Hc.
  unfold only_reads, asked in Hl. by rewrite Hl.
Qed.
Lemma allowed_respond x : allowed (respond x).
Proof. by left. Qed.
Lemma form_checked u (k : Values -> handler) unread refused : v_session v = Ok u -> WS_Active u = true -> is_admin u = true ->
  (forall form, logs (fun _ => asks u form) (k form)) ->
  allowed (match v_form v with Err _ => respond unread | Ok form => if token_matches form u then k form else respond refused end).
Proof.
  intros Hs Ha Hadm Hk. destruct (v_form v) as [form|err] eqn:Hform; [|apply allowed_respond].
  destruct (token_matches form u) eqn:Ht; [|apply allowed_respond].
  eapply logs_mono; [|apply Hk]. intros x log [Hl|(c & Hl & Hm)]; [by left|right]. by exists u, form, c.
Qed.
Lemma session_checked failed (k : WebSession -> handler) :
  (forall u, v_session v = Ok u -> allowed (k u)) -> allowed (with_session v failed k).
Proof. intros Hk. apply logs_with_session; [by left|done]. Qed.
End one_command.

(** *** Member pages *)
Abbreviation reading_members := (only_reads member_issued).
Implicit Types QM : response MembersWeb.page -> list (entry members_call) -> Prop.
Lemma logs_members_list QM u extra : (forall x log, reading_members log -> QM x log) -> logs QM (MembersWeb.renderList u extra).
Proof. intros HQ. unfold MembersWeb.renderList. repeat (apply logs_loaded; intros); [by apply HQ..|]. apply logs_respond. by apply HQ. Qed.
Lemma logs_finish QM u message r : (forall x log, reading_members log -> QM x log) -> logs QM (finish u message r).
Proof. intros HQ. destruct r; [apply logs_respond; by apply HQ|by apply logs_members_list]. Qed.

Lemma members_admin_form k :
  (forall u form, logs (fun _ => asks member_issued u form) (k u form)) -> allowed member_issued (MembersWeb.admin_form v k).
Proof.
  intros Hk. apply session_checked. intros u Hs. destruct (negb (WS_Active u) || _) eqn:Hr; [apply allowed_respond|]. bool_prop.
  destruct (is_admin u) eqn:Hadm; [|apply allowed_respond]. by apply form_checked.
Qed.
Lemma members_owner_form k :
  (forall u form, is_owner u = true -> logs (fun _ => asks member_issued u form) (k u form)) -> allowed member_issued (owner_form v k).
Proof.
  intros Hk. apply session_checked. intros u Hs. destruct (negb (WS_Active u) || _) eqn:Hr; [apply allowed_respond|]. bool_prop.
  destruct (is_owner u) eqn:Ho; [|apply allowed_respond]. apply form_checked; auto using is_owner_admin.
Qed.

Lemma role_of_valid t : (match role_of t with Identity.RoleOther _ => true | _ => false end) = false -> Role_Validate (role_of t) = Ok ().
Proof. by destruct (role_of t). Qed.
Lemma invited_role t owner :
  negb (bool_decide (t = "member"%string)) && negb (bool_decide (t = "admin"%string)) = false ->
  bool_decide (t = "admin"%string) && negb owner = false ->
  role_of t = Identity.RoleMember \/ role_of t = Identity.RoleAdmin /\ owner = true.
Proof.
  intros [H|H]%andb_false_iff; bool_prop; subst; [by left|]. destruct owner; [by right|done].
Qed.
Lemma parseLimitCents_some value cents : parseLimitCents value = Ok cents -> cents = None \/ exists c, cents = Some c /\ 0 <= c <= 999999999.
Proof. destruct cents as [c|]; [|by left]. intros H%parseLimitCents_bound. right. eauto. Qed.

Ltac walk_step :=
  match goal with
  | |- logs _ (MembersWeb.renderList _ _) => apply logs_members_list; intros
  | |- logs _ (MembersWeb.refuse _ _) => apply logs_members_list; intros
  | |- logs _ (finish _ _ _) => apply logs_finish; intros
  | |- logs _ (call _ ≫= _) => apply logs_call; intros ?r
  | |- logs _ (if ?b then _ else _) => let E := fresh "E" in destruct b eqn:E
  | |- logs _ (match ?m with _ => _ end) => let E := fresh "E" in destruct m eqn:E
  end; cbv beta zeta.
Ltac limit := match goal with H : parseLimitCents _ = Ok (Some _) |- _ => apply parseLimitCents_bound in H; lia end.
Ltac asked_once :=
  first [by left | eapply asks_once; [reflexivity|hnf; split_and!; first [by eauto using role_of_valid, invited_role, parseLimitCents_some | limit]|done]].

Lemma member_pages_authorized to_ : allowed member_issued (MembersWeb.ServeHTTP baseURL to_ v).
Proof.
  destruct to_; cbn [MembersWeb.ServeHTTP];
    unfold MembersWeb.list_, invite, revokeInvite, changeRole, revokeMember, setLimit, setCredit, linkPlayer, unlinkPlayer;
    [apply session_checked; intros u Hs; repeat (match goal with |- allowed _ (if ?b then _ else _) => destruct b; [apply allowed_respond|] end);
       apply logs_members_list; by left
    |first [apply members_owner_form; intros u form Ho|apply members_admin_form; intros u form]; cbv zeta; repeat walk_step; bool_prop; try asked_once..].
Qed.

(** *** Competition pages *)
Abbreviation reading_competition := (only_reads competition_issued).
Implicit Types QC : response CompetitionWeb.page -> list (entry competition_call) -> Prop.
Lemma logs_competition_list QC formError notice :
  (forall x log, reading_competition log -> QC x log) -> logs QC (CompetitionWeb.renderList formError notice).
Proof.
  intros HQ. unfold CompetitionWeb.renderList, loaded_or.
  repeat (apply logs_call; let r := fresh "r" in intros r; destruct r; [|apply logs_respond; by apply HQ]). apply logs_respond. by apply HQ.
Qed.
Lemma competition_admin_form k :
  (forall u form, logs (fun _ => asks competition_issued u form) (k u form)) -> allowed competition_issued (CompetitionWeb.admin_form v k).
Proof.
  intros Hk. apply session_checked. intros u Hs. destruct (negb (WS_Active u) || _) eqn:Hr; [apply allowed_respond|]. bool_prop.
  by apply form_checked.
Qed.
Lemma uuidList_uuids values : Forall (fun p => isUUID p = true) (uuidList values).
Proof. unfold uuidList. apply Forall_forall. intros p Hp. by apply filter_bool_elem in Hp as [_ ?]. Qed.
Lemma uuidLists l1 l2 : Forall (fun p => isUUID p = true) (uuidList l1 ++ uuidList l2).
Proof. apply Forall_app; split; apply uuidList_uuids. Qed.
Lemma counts_checked f a b u : ValidateParticipantCounts f a b = Ok u -> is_Ok (ValidateParticipantCounts f a b) = true.
Proof. by intros ->. Qed.

Ltac competition_step :=
  match goal with
  | |- logs _ (CompetitionWeb.renderList _ _) => apply logs_competition_list; intros
  | |- logs _ (CompetitionWeb.refuse _) => unfold CompetitionWeb.refuse
  | |- logs _ (noticed _) => unfold noticed
  | |- logs _ (created _ _) => unfold created
  | |- logs _ (roster_changed _ _) => unfold roster_changed, renderRosterError
  | |- logs _ (deleteReason _ _) => unfold deleteReason
  | |- logs _ (deleted _ _ _) => unfold deleted, renderDeleteError
  | |- logs _ (respond _) => apply logs_respond
  | |- logs _ (call _ ≫= _) => apply logs_call; intros ?r
  | |- logs _ (if ?b then _ else _) => let E := fresh "E" in destruct b eqn:E
  | |- logs _ (match ?m with _ => _ end) => let E := fresh "E" in destruct m eqn:E
  end; cbv beta zeta.

Lemma competition_pages_authorized to_ : allowed competition_issued (CompetitionWeb.ServeHTTP to_ v).
Proof.
  destruct to_; cbn [CompetitionWeb.ServeHTTP];
    unfold CompetitionWeb.list_, createEvent, createPlayer, createTeam, setTeamMember, removeTeamMember, deleteEvent, deleteTeam, createMatch,
      recordResult, deleteMatch;
    [apply session_checked; intros u Hs; match goal with |- allowed _ (if ?b then _ else _) => destruct b; [apply allowed_respond|] end;
       apply logs_competition_list; by left
    |apply competition_admin_form; intros u form; cbv zeta; repeat competition_step; bool_prop;
       first [by left | eapply asks_once; [reflexivity|hnf; split_and?; first [done|apply uuidLists|by eapply counts_checked]|done]]..].
Qed.
End walks.

(** ** Requests *)
Inductive staff_page := MembersPage (to_ : MembersWeb.route) | CompetitionPage (to_ : CompetitionWeb.route).
(** The session after a request, and what it commanded. *)
Definition staff_request (to_ : staff_page) (v : Visit) (s : session CompDB) : session CompDB * list staff_command :=
  match to_ with
  | MembersPage to_ => let '(s', _, log) := run_log member_answers (MembersWeb.ServeHTTP baseURL to_ v) s in (s', asked member_issued log)
  | CompetitionPage to_ => let '(s', _, log) := run_log competition_answers (CompetitionWeb.ServeHTTP to_ v) s in (s', asked competition_issued log)
  end.

Lemma staff_request_acts to_ v s s' cs :
  staff_request to_ v s = (s', cs) -> performs staff_effect cs s s' /\ staff_authorized v cs.
Proof.
  destruct to_ as [to_|to_]; cbn [staff_request]; destruct (run_log _ _ s) as [[s1 x] log] eqn:Er; intros [= <- <-]; split.
  - eapply run_performs; [apply member_commands_effect|apply member_reads|exact Er].
  - exact (logs_run _ _ (fun _ log => staff_authorized v (asked member_issued log)) _ _ _ _ (member_pages_authorized v to_) Er).
  - eapply run_performs; [apply competition_commands_effect|apply competition_reads|exact Er].
  - exact (logs_run _ _ (fun _ log => staff_authorized v (asked competition_issued log)) _ _ _ _ (competition_pages_authorized v to_) Er).
Qed.

(** C26. A request to the member or the competition pages acts only for the
    session it came with.  What it does to the people and to the competition is
    what its commands do: at most one, and none unless it came with an active
    administrator's or owner's session and that session's form token.  The
    command names the session's user as the one who acts, except the creation
    of a player, which names nobody.  Roles are changed, memberships revoked
    and administrators invited for an owner only.  Identifiers have the form of
    a UUID, except the account a new player is linked to, which is passed on as
    typed, trimmed; limits are in range and the numbers of players fit the
    format.  Reasons for role changes, revocations, roster removals and
    deletions are not blank and of at most 500 bytes; the winner, score and
    reason of a result are passed on as typed, the reason trimmed. *)
Theorem staff_pages_act_for_their_session to_ v s s' cs :
  staff_request to_ v s = (s', cs) -> performs staff_effect cs s s' /\ staff_authorized v cs.
Proof. apply staff_request_acts. Qed.

(** ** Whatever is asked of the staff pages *)
Inductive staff_work := StaffRequest (to_ : staff_page) (v : Visit) | Deliver (row : string).
Definition staff_step (s : session CompDB) (w : staff_work) : session CompDB :=
  match w with
  | StaffRequest to_ v => (staff_request to_ v s).1
  | Deliver row => staff_effect (Competition (KDeliver row)) s
  end.
Definition staff_serve (ws : list staff_work) (s : session CompDB) : session CompDB := foldl staff_step s ws.

Definition in_order (d : CompDB) : Prop := comp_ok d /\ id_ok (co_people d) /\ has_owner (co_people d).
Definition stays_in_order (d d' : CompDB) : Prop := in_order d -> in_order d'.
#[local] Instance stays_in_order_po : PreOrder stays_in_order.
Proof. split; [intros d Hd; exact Hd|]. intros x y z Hxy Hyz Hx. by apply Hyz, Hxy. Qed.

Definition of_the_stores (c : staff_command) : Prop := match c with Competition (KPeople _) => False | _ => True end.
Lemma staff_effect_in_order c s : of_the_stores c -> stays_in_order (db s) (db (staff_effect c s)).
Proof.
  intros Hc (Hok & Hid & Ho). destruct c as [c|c]; cbn [staff_effect].
  - unfold on_people. cbn [fst db]. set (s0 := SQL.mkSession (co_people (db s)) (tick s)).
    pose proof (id_perform_steps pg_lower go_lower equal_fold sha256 random32 st c s0) as Hst. cbn [db] in Hst.
    split_and!; [|by eapply id_steps_ok|by eapply id_steps_owner].
    eapply comp_steps_ok; [apply rtc_once, step_people|done].
  - assert (Hp : same_people (db s) (db (comp_perform unicode_lower referenced unmarshal_bytes pool c s))).
    { apply competition_keeps_people. intros people ->. exact Hc. }
    unfold in_order. rewrite <- Hp. split_and!; [|done..].
    eapply comp_steps_ok; [by apply comp_perform_steps|done].
Qed.
Lemma staff_may_stores u form c : staff_may u form c -> of_the_stores c.
Proof. by destruct c as [c|[]]. Qed.
Lemma staff_step_in_order w s : stays_in_order (db s) (db (staff_step s w)).
Proof.
  destruct w as [to_ v|row]; cbn [staff_step]; [|by apply staff_effect_in_order].
  destruct (staff_request to_ v s) as [s' cs] eqn:Er. destruct (staff_request_acts to_ v s s' cs Er) as [Hp Ha].
  apply (performs_keeps staff_effect stays_in_order of_the_stores cs s s' staff_effect_in_order Hp).
  destruct Ha as [->|(u & form & c & _ & _ & _ & _ & _ & -> & Hm)]; [constructor|]. repeat constructor. by eapply staff_may_stores.
Qed.

(** C27. Whatever is asked of the staff pages, the people and the competition
    stay in order.  Serve any requests to the member and competition pages, with
    any sessions, forms and identifiers, and deliver any stored events to the
    statistics, in any order: an owner remains if there was one, nobody has two
    live memberships and no secret is shared, and the competition's invariant
    (rosters, sides, results and statistics that agree) holds if it held. *)
Theorem staff_pages_keep_order ws s : in_order (db s) -> in_order (db (staff_serve ws s)).
Proof.
  revert s. induction ws as [|w ws IH]; intros s Hs; [done|]. cbn [staff_serve foldl]. apply (IH (staff_step s w)).
  by apply staff_step_in_order.
Qed.
End staff_pages.
