(* ===== verification/StaffWebExample.v ===== *)
(** * Requests to the staff pages

    An owner who promotes a member through the page, and what a member is
    refused: the inputs at which the theorems on the staff pages are
    instantiated. *)
From S2P Require Import Prelude GoStrings GoTime Events Payloads SQL Sample Identity Session IdentityDB IdentityStore IdentityRuns IdentityExample.
From S2P Require Import CompetitionDB CompetitionStore CompetitionOps CompetitionRuns CompetitionExample Url AuthWeb Web Amounts MembersWeb CompetitionWeb StaffWebStore.

Definition owner_session : WebSession := mkWebSession Sample.admin "Admin" Identity.RoleOwner true "token-b" false.
Definition member_session : WebSession := mkWebSession Sample.alice "Alice" Identity.RoleMember true "token-a" false.
Definition posted (session : WebSession) (form : Values) : Visit :=
  mkVisit (Ok session) false "/" false (Ok form) (mkTime (63900000000 * Second) true).
Definition role_form : Values :=
  list_to_map [("csrf_token", ["token-b"]); ("role", ["admin"]); ("reason", ["helps out"])]%string.
Definition event_form : Values :=
  list_to_map [("csrf_token", ["token-b"]); ("name", ["Cabot Cup"]); ("venue", ["Cabot Links"]); ("season_year", ["2024"])]%string.
Definition promote (session : WebSession) (form : Values) : staff_work :=
  StaffRequest (MembersPage (PostRole Sample.alice)) (posted session form).
Definition found_cup : staff_work := StaffRequest (CompetitionPage PostEvents) (posted owner_session event_form).

Abbreviation asked_of to_ v :=
  (staff_request (E := sample) lower ex_digest random32 ex_unicode ex_referenced ex_bytes sample_id_store true "https://book.example" to_ v).
Abbreviation effects := (staff_effect (E := sample) lower lower same_fold ex_digest random32 ex_unicode ex_referenced ex_bytes sample_id_store true).
Abbreviation served ws :=
  (staff_serve (E := sample) lower lower same_fold ex_digest random32 ex_unicode ex_referenced ex_bytes sample_id_store true "https://book.example" ws
     (CompetitionRuns.start sample_members)).

Definition role_of_alice (ws : list staff_work) : option Identity.Role := CompetitionDB.active_role Sample.alice (db (served ws)).

Example promoted : role_of_alice [promote owner_session role_form; found_cup] = Some Identity.RoleAdmin.
Proof. by vm_compute. Qed.
Example a_member_is_refused : role_of_alice [promote member_session (<["csrf_token"%string := ["token-a"%string]]> role_form)] = Some Identity.RoleMember.
Proof. by vm_compute. Qed.
Example another_token_is_refused : role_of_alice [promote owner_session (<["csrf_token"%string := ["token-a"%string]]> role_form)] = Some Identity.RoleMember.
Proof. by vm_compute. Qed.

(** ** Witnesses *)
Definition the_promotion : staff_command := People (IChangeRole Sample.admin Sample.alice Identity.RoleAdmin "helps out").
Lemma promotion_commanded :
  (asked_of (MembersPage (PostRole Sample.alice)) (posted owner_session role_form) (CompetitionRuns.start sample_members)).2 = [the_promotion].
Proof. by vm_compute. Qed.
Lemma staff_pages_act_for_their_session_witness :
  exists s', performs effects [the_promotion] (CompetitionRuns.start sample_members) s'
    /\ staff_authorized (posted owner_session role_form) [the_promotion].
Proof.
  destruct (asked_of (MembersPage (PostRole Sample.alice)) (posted owner_session role_form) (CompetitionRuns.start sample_members)) as [s' cs] eqn:Er.
  pose proof promotion_commanded as Hc. rewrite Er in Hc. cbn [snd] in Hc. subst cs. exists s'.
  exact (staff_pages_act_for_their_session lower lower same_fold ex_digest random32 ex_unicode ex_referenced ex_bytes sample_id_store true
    "https://book.example" _ _ _ _ _ Er).
Defined.

Lemma sample_in_order : in_order (no_competition sample_members).
Proof. split; [apply no_competition_ok|]. split; [apply sample_members_ok|apply sample_members_owned]. Qed.
Lemma staff_pages_keep_order_witness : has_owner (co_people (db (served [promote owner_session role_form; found_cup]))).
Proof.
  exact (proj2 (proj2 (staff_pages_keep_order lower lower same_fold ex_digest random32 ex_unicode ex_referenced ex_bytes sample_id_store true
    "https://book.example" [promote owner_session role_form; found_cup] (CompetitionRuns.start sample_members) sample_in_order))).
Defined.
