(* ===== verification/Promotion.v ===== *)
(** * internal/migration/legacybook/promote.go: promoting a reconciled archive

    [validatePromotionReport] and [Promote], over a [Repository] whose
    operations run in the session of a database [D].  What the Go closure
    counts in a captured variable is the value its transaction returns; Go
    discards it when the transaction fails. *)
From S2P Require Import Prelude GoStrings GoTime SQL Keeping LegacyBook.

(** ** Data *)
Record UserInput := mkUserInput {
  UI_LegacyUserID : Z; UI_DisplayName : string; UI_Email : string; UI_Role : string; UI_Currency : string;
  UI_BalanceCents : Z; UI_FreePlayBalanceCents : Z; UI_TransactionNetCents : Z; UI_DifferenceCents : Z;
  UI_ActorUserID : string
}.
Record OpeningBalanceInput := mkOpeningBalanceInput {
  OB_LegacyUserID : Z; OB_UserID : string; OB_AccountType : string; OB_Currency : string; OB_AmountCents : Z;
  OB_TransactionNetCents : Z; OB_DifferenceCents : Z; OB_IdempotencyKey : string; OB_Reason : string;
  OB_ActorUserID : string
}.
Record SeasonSettlementInput := mkSeasonSettlementInput {
  SS_LegacyUserID : Z; SS_UserID : string; SS_AccountType : string; SS_Currency : string; SettledCents : Z;
  SS_IdempotencyKey : string; SS_Reason : string; SS_ActorUserID : string
}.
Record CompletionInput := mkCompletionInput {
  CI_ActorUserID : string; CI_SourceChecksum : string; CI_Users : Z; CI_SettledBalances : Z; CI_Transactions : Z;
  CI_Wagers : Z; CI_ClosingCashTotalCents : Z; CI_TransactionNetTotalCents : Z; CI_DifferenceTotalCents : Z
}.
Record PromoteOptions := mkPromoteOptions {
  BatchID : string; PO_Currency : string; PO_ActorUserID : string; SourceVersion : string
}.
Record PromotionResult := mkPromotionResult {
  PR_Users : Z; PR_Memberships : Z; CashBalances : Z; FreePlayBalances : Z; SettledBalances : Z;
  PR_Transactions : Z; PR_Wagers : Z
}.

(** The fields the loops increment. *)
Definition count_user (r : PromotionResult) : PromotionResult :=
  mkPromotionResult (PR_Users r + 1) (PR_Memberships r + 1) (CashBalances r) (FreePlayBalances r) (SettledBalances r)
    (PR_Transactions r) (PR_Wagers r).
Definition count_balance (accountType : string) (r : PromotionResult) : PromotionResult :=
  if bool_decide (accountType = "user_cash"%string)
  then mkPromotionResult (PR_Users r) (PR_Memberships r) (CashBalances r + 1) (FreePlayBalances r) (SettledBalances r)
         (PR_Transactions r) (PR_Wagers r)
  else mkPromotionResult (PR_Users r) (PR_Memberships r) (CashBalances r) (FreePlayBalances r + 1) (SettledBalances r)
         (PR_Transactions r) (PR_Wagers r).
Definition count_settled (r : PromotionResult) : PromotionResult :=
  mkPromotionResult (PR_Users r) (PR_Memberships r) (CashBalances r) (FreePlayBalances r) (SettledBalances r + 1)
    (PR_Transactions r) (PR_Wagers r).
Definition count_transaction (r : PromotionResult) : PromotionResult :=
  mkPromotionResult (PR_Users r) (PR_Memberships r) (CashBalances r) (FreePlayBalances r) (SettledBalances r)
    (PR_Transactions r + 1) (PR_Wagers r).
Definition count_wager (r : PromotionResult) : PromotionResult :=
  mkPromotionResult (PR_Users r) (PR_Memberships r) (CashBalances r) (FreePlayBalances r) (SettledBalances r)
    (PR_Transactions r) (PR_Wagers r + 1).

(** ** [validatePromotionReport]

    The three maps of the first two loops; totals and counts are int64. *)
Definition check_user (st : gmap Z UserReconciliation * Z * Z) (user : UserReconciliation)
    : result (gmap Z UserReconciliation * Z * Z) :=
  let '(users, cashTotal, freePlayTotal) := st in
  let id := UR_LegacyUserID user in
  fail_if (bool_decide (is_Some (users !! id))) (Errorf "duplicate user %d");;
  fail_if (negb (DifferenceCents user =? wrap64 (ClosingCashCents user - TransactionNetCents user)))
    (Errorf "user %d reconciliation difference is inconsistent");;
  Ok (<[id := user]> users, wrap64 (cashTotal + ClosingCashCents user),
      wrap64 (freePlayTotal + ClosingFreePlayCents user)).

Definition check_transaction (users : gmap Z UserReconciliation) (st : gmap Z Z * gmap Z Z * gset Z)
    (transaction : TransactionRecord) : result (gmap Z Z * gmap Z Z * gset Z) :=
  let '(totals, counts, seen) := st in
  let owner := TR_LegacyUserID transaction in
  let id := SourceTransactionID transaction in
  fail_if (negb (bool_decide (TR_Currency transaction = "CAD"%string))) (Errorf "transaction %d has unsupported currency %q");;
  fail_if (bool_decide (users !! owner = None)) (Errorf "transaction %d references missing user");;
  fail_if (bool_decide (id ∈ seen)) (Errorf "duplicate transaction %d");;
  Ok (<[owner := wrap64 (default 0 (totals !! owner) + AmountCents transaction)]> totals,
      <[owner := default 0 (counts !! owner) + 1]> counts, {[id]} ∪ seen).

(** The range over the users map, whose order no outcome depends on. *)
Definition check_net (totals counts : gmap Z Z) (netTotal : Z) (entry : Z * UserReconciliation) : result Z :=
  let '(userID, user) := entry in
  fail_if (negb (default 0 (totals !! userID) =? TransactionNetCents user)
           || negb (default 0 (counts !! userID) =? UR_TransactionCount user))
    (Errorf "user %d transaction reconciliation is inconsistent");;
  Ok (wrap64 (netTotal + TransactionNetCents user)).

Definition check_wager (users : gmap Z UserReconciliation) (seen : gset Z) (wager : WagerRecord) : result (gset Z) :=
  let id := SourceWagerID wager in
  fail_if (negb (bool_decide (WR_Currency wager = "CAD"%string))) (Errorf "wager %d has unsupported currency %q");;
  fail_if (bool_decide (users !! WR_LegacyUserID wager = None)) (Errorf "wager %d references missing user");;
  fail_if (bool_decide (id ∈ seen)) (Errorf "duplicate wager %d");;
  Ok ({[id]} ∪ seen).

(** A loop whose body may return an error. *)
Fixpoint fold_result {A S} (f : S -> A -> result S) (st : S) (l : list A) : result S :=
  match l with
  | [] => Ok st
  | x :: l => st' ← f st x; fold_result f st' l
  end.

Definition validatePromotionReport (report : Report) : result unit :=
  fail_if (negb (UserCount report =? Z.of_nat (length (Report_Users report)))
           || negb (TransactionCount report =? Z.of_nat (length (Report_Transactions report)))
           || negb (WagerCount report =? Z.of_nat (length (Report_Wagers report))))
    (Errorf "source counts do not match normalized records");;
  '(users, cashTotal, freePlayTotal) ← fold_result check_user (∅, 0, 0) (Report_Users report);
  '(totals, counts, _) ← fold_result (check_transaction users) (∅, ∅, ∅) (Report_Transactions report);
  netTotal ← fold_result (check_net totals counts) 0 (map_to_list users);
  fold_result (check_wager users) ∅ (Report_Wagers report);;
  fail_if (negb (cashTotal =? ClosingCashTotalCents report)
           || negb (freePlayTotal =? ClosingFreePlayTotalCents report)
           || negb (netTotal =? TransactionNetTotalCents report)
           || negb (wrap64 (cashTotal - netTotal) =? DifferenceTotalCents report))
    (Errorf "report financial totals are inconsistent").

(** ** The idempotency keys *)
Definition opening_key (batchID : string) (userID : Z) (accountType : string) : string :=
  ("legacy-book:" ++ batchID ++ ":user:" ++ sprint_d userID ++ ":" ++ accountType)%string.
Definition closing_key (batchID : string) (userID : Z) (accountType : string) : string :=
  ("legacy-book:" ++ batchID ++ ":settlement:" ++ sprint_d userID ++ ":" ++ accountType)%string.
Definition opening_reason (net diff : Z) : string :=
  ("Legacy Cabot Book opening balance; transaction net=" ++ sprint_d net
   ++ " cents; explicit migration difference=" ++ sprint_d diff ++ " cents")%string.
Definition closing_reason (accountType : string) (amount : Z) : string :=
  ("2025 Cabot Book season closed: " ++ accountType ++ " balance of " ++ sprint_d amount
   ++ " cents was settled in full outside the application after the season ended; account reset to zero so the 2026 season starts at 0")%string.

(** ** [Promote] *)
Section promote.
Context {D : Type}.
#[local] Abbreviation go := (SQL.go D).

Record Repository := mkRepository {
  EnsureApprovedUser : string -> UserInput -> go string;
  EnsureOpeningBalance : string -> OpeningBalanceInput -> go unit;
  EnsureSeasonSettlement : string -> SeasonSettlementInput -> go unit;
  EnsureLegacyTransaction : string -> string -> TransactionRecord -> go unit;
  EnsureLegacyWager : string -> string -> WagerRecord -> go unit;
  CompletePromotion : string -> CompletionInput -> go unit
}.
(** [Store]: [WithinTransaction]. *)
Record PromotionStore := mkPromotionStore {
  WithinTransaction : (Repository -> go PromotionResult) -> go PromotionResult
}.

(** [for range] with a body that runs statements. *)
Fixpoint foldM {A S} (f : S -> A -> go S) (st : S) (l : list A) : go S :=
  match l with
  | [] => mret st
  | x :: l => st' ← f st x; foldM f st' l
  end.

Definition user_input (options : PromoteOptions) (user : UserReconciliation) : UserInput :=
  mkUserInput (UR_LegacyUserID user) (UR_DisplayName user) (UR_Email user) (TargetRole user) (PO_Currency options)
    (ClosingCashCents user) (ClosingFreePlayCents user) (TransactionNetCents user) (DifferenceCents user)
    (PO_ActorUserID options).
Definition opening_input (options : PromoteOptions) (user : UserReconciliation) (userID accountType : string)
    (amount net diff : Z) : OpeningBalanceInput :=
  mkOpeningBalanceInput (UR_LegacyUserID user) userID accountType (PO_Currency options) amount net diff
    (opening_key (BatchID options) (UR_LegacyUserID user) accountType) (opening_reason net diff) (PO_ActorUserID options).
Definition closing_input (options : PromoteOptions) (user : UserReconciliation) (userID accountType : string)
    (amount : Z) : SeasonSettlementInput :=
  mkSeasonSettlementInput (UR_LegacyUserID user) userID accountType (PO_Currency options) amount
    (closing_key (BatchID options) (UR_LegacyUserID user) accountType) (closing_reason accountType amount)
    (PO_ActorUserID options).

Definition promote_balance (repo : Repository) (options : PromoteOptions) (user : UserReconciliation) (userID : string)
    (result : PromotionResult) (balance : string * Z * Z * Z) : go PromotionResult :=
  let '(accountType, amount, net, diff) := balance in
  if amount =? 0 then mret result
  else
    wrapped "promote %s balance for legacy user %d: %w"
      (EnsureOpeningBalance repo (BatchID options) (opening_input options user userID accountType amount net diff));;
    wrapped "settle %s balance for legacy user %d: %w"
      (EnsureSeasonSettlement repo (BatchID options) (closing_input options user userID accountType amount));;
    mret (count_settled (count_balance accountType result)).

Definition balances (user : UserReconciliation) : list (string * Z * Z * Z) :=
  [("user_cash"%string, ClosingCashCents user, TransactionNetCents user, DifferenceCents user);
   ("user_free_play"%string, ClosingFreePlayCents user, 0, ClosingFreePlayCents user)].

Definition promote_user (repo : Repository) (options : PromoteOptions) (st : PromotionResult * gmap Z string)
    (user : UserReconciliation) : go (PromotionResult * gmap Z string) :=
  let '(result, userIDs) := st in
  if negb (UR_Promotable user) then failing (Errorf "legacy user %d is not promotable")
  else
    userID ← wrapped "promote legacy user %d: %w" (EnsureApprovedUser repo (BatchID options) (user_input options user));
    result ← foldM (promote_balance repo options user userID) (count_user result) (balances user);
    mret (result, <[UR_LegacyUserID user := userID]> userIDs).

(** [userIDs[id]], the empty text for a missing key. *)
Definition promoted_user (userIDs : gmap Z string) (id : Z) : string := default ""%string (userIDs !! id).

Definition promote_transaction (repo : Repository) (options : PromoteOptions) (userIDs : gmap Z string)
    (result : PromotionResult) (transaction : TransactionRecord) : go PromotionResult :=
  let userID := promoted_user userIDs (TR_LegacyUserID transaction) in
  if bool_decide (userID = ""%string) then failing (Errorf "transaction %d has no promoted user")
  else
    wrapped "promote legacy transaction %d: %w" (EnsureLegacyTransaction repo (BatchID options) userID transaction);;
    mret (count_transaction result).

Definition promote_wager (repo : Repository) (options : PromoteOptions) (userIDs : gmap Z string)
    (result : PromotionResult) (wager : WagerRecord) : go PromotionResult :=
  let userID := promoted_user userIDs (WR_LegacyUserID wager) in
  if bool_decide (userID = ""%string) then failing (Errorf "wager %d has no promoted user")
  else
    wrapped "promote legacy wager %d: %w" (EnsureLegacyWager repo (BatchID options) userID wager);;
    mret (count_wager result).

Definition completion_input (report : Report) (options : PromoteOptions) (result : PromotionResult) : CompletionInput :=
  mkCompletionInput (PO_ActorUserID options) (SourceVersion options) (UserCount report) (SettledBalances result)
    (TransactionCount report) (WagerCount report) (ClosingCashTotalCents report) (TransactionNetTotalCents report)
    (DifferenceTotalCents report).

Definition promotion (report : Report) (options : PromoteOptions) (repo : Repository) : go PromotionResult :=
  '(result, userIDs) ← foldM (promote_user repo options) (mkPromotionResult 0 0 0 0 0 0 0, ∅) (Report_Users report);
  result ← foldM (promote_transaction repo options userIDs) result (Report_Transactions report);
  result ← foldM (promote_wager repo options userIDs) result (Report_Wagers report);
  wrapped "complete legacy promotion: %w"
    (CompletePromotion repo (BatchID options) (completion_input report options result));;
  mret result.

(** [options.Currency = "CAD"] when it was not given. *)
Definition with_currency (options : PromoteOptions) : PromoteOptions :=
  if bool_decide (PO_Currency options = ""%string)
  then mkPromoteOptions (BatchID options) "CAD" (PO_ActorUserID options) (SourceVersion options)
  else options.

Definition check_promotion (report : Report) (options : PromoteOptions) : result PromoteOptions :=
  fail_if (negb (bool_decide (Report_SourceSystem report = SourceSystem)) || negb (Version report =? 1))
    (Errorf "unsupported reconciliation report");;
  fail_if (negb (Promotable report)) (Errorf "reconciliation report contains blocking issues");;
  wrap_err "invalid reconciliation report: %w" (validatePromotionReport report);;
  fail_if (bool_decide (BatchID options = ""%string)) (Errorf "migration batch ID is required");;
  fail_if (bool_decide (PO_ActorUserID options = ""%string)) (Errorf "migration actor user ID is required");;
  fail_if (negb (len (SourceVersion options) =? 64)) (Errorf "approved 64-character source version is required");;
  let options := with_currency options in
  fail_if (negb (len (PO_Currency options) =? 3) || negb (bool_decide (PO_Currency options = "CAD"%string)))
    (Errorf "unsupported migration currency %q");;
  Ok options.

Definition Promote (store : option PromotionStore) (report : Report) (options : PromoteOptions) : go PromotionResult :=
  match store with
  | None => failing (Errorf "legacy book promotion store is required")
  | Some store =>
      options ← lift (check_promotion report options);
      WithinTransaction store (promotion report options)
  end.
End promote.
Arguments Repository : clear implicits.
Arguments PromotionStore : clear implicits.
