(* ===== verification/PromotionPG.v ===== *)
(** * internal/migration/legacybook/postgres.go: the promotion's PostgreSQL store

    The archive's three readers, the repository [Promote] writes through and
    its transaction, and the command of cmd/cabot/legacy.go that reconciles and
    promotes.  [json.Marshal] of the checksummed records and of the report,
    SHA-256, PostgreSQL's [lower] and [strings.EqualFold] are parameters.  The
    unique and foreign keys the inserts rely on are written out; the other
    constraints are statements that may fail. *)
From S2P Require Import Prelude GoStrings GoTime Float64 SQL Ledger Identity Base64 Session IdentityDB LegacyBook Promotion.

(** ** Tables *)
(** The archive [legacy_cabot_book]: its columns may be NULL; numbers are their
    text. *)
Record ArchivedUser := mkArchivedUser {
  ar_user_id : Z; ar_username : option string; ar_email : option string; ar_role : option string;
  ar_balance : option string; ar_free_play_balance : option string
}.
Record ArchivedTransaction := mkArchivedTransaction {
  at_transaction_id : Z; at_user_id : option Z; at_amount : option string; at_type : option string;
  at_description : option string; at_date : option Time
}.
Record ArchivedBet := mkArchivedBet {
  ab_user_bet_id : Z; ab_user_id : option Z; ab_amount : option string; ab_description : option string;
  ab_odds : option string; ab_placed_at : option Time; ab_result : option string; ab_approved : option bool
}.
(** [legacy_import_records], keyed by batch, source table and source key. *)
Record ImportRow := mkImportRow {
  im_target_table : option string; im_target_id : option string; im_checksum : string; im_state : string;
  im_imported_at : option Time
}.
(** [legacy_book_user_mappings], keyed by source user. *)
Record MappingRow := mkMappingRow {
  mp_batch : string; mp_user : string; mp_checksum : string; mp_currency : string; mp_balance : Z; mp_free_play : Z;
  mp_net : Z; mp_difference : Z; mp_state : string; mp_imported_at : option Time
}.
(** [ledger_transactions], keyed by currency and idempotency key, with their
    postings. *)
Record LedgerTxRow := mkLedgerTxRow {
  tx_id : string; tx_type : string; tx_source_type : string; tx_actor : option string; tx_reason : option string;
  tx_expected : Z; tx_occurred_at : Time; tx_postings : list (string * Z)
}.
(** [legacy_book_transactions] and [legacy_book_wagers], keyed by source row. *)
Record HistoryTransaction := mkHistoryTransaction {
  ht_batch : string; ht_user : string; ht_amount : Z; ht_type : string; ht_currency : string; ht_description : string;
  ht_occurred_at : Time; ht_checksum : string
}.
Record HistoryWager := mkHistoryWager {
  hw_batch : string; hw_user : string; hw_stake : Z; hw_terms : string; hw_currency : string; hw_odds : Z;
  hw_placed_at : Time; hw_result : string; hw_approved : bool; hw_checksum : string
}.
(** [migration_batches]; the two jsonb columns as what is marshalled into
    them. *)
Record BatchRow := mkBatchRow {
  ba_source_system : string; ba_source_version : string; ba_state : string;
  ba_source_counts : list (string * Z); ba_reconciliation : list (string * Z) * list Issue;
  ba_completed_at : option Time
}.
#[export] Instance ImportRow_eq_dec : EqDecision ImportRow.
Proof. solve_decision. Defined.

Record PromDB := mkPromDB {
  archived_users : list ArchivedUser;
  archived_transactions : list ArchivedTransaction;
  archived_bets : list ArchivedBet;
  people : IdDB;
  ledger_accounts : gmap (option string * string * string) string;
  ledger_txs : gmap (string * string) LedgerTxRow;
  import_records : gmap (string * string * string) ImportRow;
  user_mappings : gmap Z MappingRow;
  history_transactions : gmap Z HistoryTransaction;
  history_wagers : gmap Z HistoryWager;
  batches : gmap string BatchRow
}.
Definition with_people x d := mkPromDB (archived_users d) (archived_transactions d) (archived_bets d) x (ledger_accounts d)
  (ledger_txs d) (import_records d) (user_mappings d) (history_transactions d) (history_wagers d) (batches d).
Definition with_ledger_accounts x d := mkPromDB (archived_users d) (archived_transactions d) (archived_bets d) (people d) x
  (ledger_txs d) (import_records d) (user_mappings d) (history_transactions d) (history_wagers d) (batches d).
Definition with_ledger_txs x d := mkPromDB (archived_users d) (archived_transactions d) (archived_bets d) (people d)
  (ledger_accounts d) x (import_records d) (user_mappings d) (history_transactions d) (history_wagers d) (batches d).
Definition with_import_records x d := mkPromDB (archived_users d) (archived_transactions d) (archived_bets d) (people d)
  (ledger_accounts d) (ledger_txs d) x (user_mappings d) (history_transactions d) (history_wagers d) (batches d).
Definition with_user_mappings x d := mkPromDB (archived_users d) (archived_transactions d) (archived_bets d) (people d)
  (ledger_accounts d) (ledger_txs d) (import_records d) x (history_transactions d) (history_wagers d) (batches d).
Definition with_history_transactions x d := mkPromDB (archived_users d) (archived_transactions d) (archived_bets d) (people d)
  (ledger_accounts d) (ledger_txs d) (import_records d) (user_mappings d) x (history_wagers d) (batches d).
Definition with_history_wagers x d := mkPromDB (archived_users d) (archived_transactions d) (archived_bets d) (people d)
  (ledger_accounts d) (ledger_txs d) (import_records d) (user_mappings d) (history_transactions d) x (batches d).
Definition with_batches x d := mkPromDB (archived_users d) (archived_transactions d) (archived_bets d) (people d)
  (ledger_accounts d) (ledger_txs d) (import_records d) (user_mappings d) (history_transactions d) (history_wagers d) x.

#[local] Abbreviation go := (SQL.go PromDB).

(** What [checksum] is asked for. *)
Inductive checksummed :=
  | CUser (i : UserInput)
  | COpening (i : OpeningBalanceInput)
  | CSettlement (i : SeasonSettlementInput)
  | CTransaction (r : TransactionRecord)
  | CWager (r : WagerRecord).

Definition pool_required : error := Errorf "PostgreSQL pool is required".
Definition unique_violation : error := Errorf "duplicate key value violates unique constraint".
Definition foreign_violation : error := Errorf "violates foreign key constraint".

Section promotion_store.
Context {E : environment}.
Context (pg_lower : string -> string) (equal_fold : string -> string -> bool).
Context (sha256 : list ascii -> Digest) (json_marshal : checksummed -> result (list ascii)).
Implicit Types (d : PromDB).

(** ** [PostgresSource] *)
Definition text_or (def : string) (column : option string) : string := default def column.
(** A NULL scanned into a value that has no NULL. *)
Definition scan_null {A} (column : option A) : result A :=
  match column with Some a => Ok a | None => Err (Errorf "cannot scan NULL") end.
Definition source_users d : result (list LegacyUser) :=
  Ok ((fun r => mkLegacyUser (ar_user_id r) (text_or "" (ar_username r)) (text_or "" (ar_email r)) (text_or "" (ar_role r))
                  (text_or "0" (ar_balance r)) (text_or "0" (ar_free_play_balance r)))
      <$> stable_sort (by_id ar_user_id) (archived_users d)).
Definition source_transaction (r : ArchivedTransaction) : result LegacyTransaction :=
  user ← scan_null (at_user_id r);
  date ← scan_null (at_date r);
  Ok (mkLegacyTransaction (at_transaction_id r) user (text_or "" (at_amount r)) (text_or "" (at_type r))
        (text_or "" (at_description r)) date).
Definition source_wager (r : ArchivedBet) : result LegacyWager :=
  user ← scan_null (ab_user_id r);
  placed ← scan_null (ab_placed_at r);
  approved ← scan_null (ab_approved r);
  Ok (mkLegacyWager (ab_user_bet_id r) user (text_or "" (ab_amount r)) (text_or "" (ab_description r))
        (text_or "" (ab_odds r)) placed (text_or "" (ab_result r)) approved).
Definition source_transactions d : result (list LegacyTransaction) :=
  mapM source_transaction (stable_sort (by_id at_transaction_id) (archived_transactions d)).
Definition source_wagers d : result (list LegacyWager) :=
  mapM source_wager (stable_sort (by_id ab_user_bet_id) (archived_bets d)).

Definition PostgresSource_Users (pool : bool) : go (list LegacyUser) :=
  if negb pool then failing pool_required else query "%w" source_users.
Definition PostgresSource_Transactions (pool : bool) : go (list LegacyTransaction) :=
  if negb pool then failing pool_required else query "%w" source_transactions.
Definition PostgresSource_Wagers (pool : bool) : go (list LegacyWager) :=
  if negb pool then failing pool_required else query "%w" source_wagers.

(** ** The repository *)
Definition checksum (value : checksummed) : result string :=
  encoded ← json_marshal value;
  Ok (of_bytes (hex (byte_val <$> sha256 encoded))).

(** *** Users *)
Definition mapping_matches (batchID userID expectedChecksum : string) (input : UserInput) (row : MappingRow) : bool :=
  bool_decide (mp_batch row = batchID) && bool_decide (mp_user row = userID)
  && bool_decide (mp_checksum row = expectedChecksum) && bool_decide (TrimSpace (mp_currency row) = UI_Currency input)
  && (mp_balance row =? UI_BalanceCents input) && (mp_free_play row =? UI_FreePlayBalanceCents input)
  && (mp_net row =? UI_TransactionNetCents input) && (mp_difference row =? UI_DifferenceCents input)
  && bool_decide (mp_state row = "promoted"%string).
Definition verifyUserMapping (batchID userID expectedChecksum : string) (input : UserInput) : go unit :=
  row ← query "%w" (fun d => must_find (user_mappings d !! UI_LegacyUserID input));
  if negb (mapping_matches batchID userID expectedChecksum input row)
  then failing (Errorf "legacy user mapping %d does not match requested promotion")
  else mret ().

(** char(3) with its check. *)
Definition currency_column (currency : string) : result string := Currency_Validate currency;; Ok currency.
Definition batch_exists (batch : string) d : bool := bool_decide (is_Some (batches d !! batch)).
Definition user_exists (user : string) d : bool := bool_decide (is_Some (id_users (people d) !! user)).

Definition insert_mapping (at_ : Time) (batchID userID expectedChecksum : string) (input : UserInput) d : result PromDB :=
  batch ← cast batchID;
  currency ← currency_column (UI_Currency input);
  match user_mappings d !! UI_LegacyUserID input with
  | Some _ => Ok d
  | None =>
      fail_if (bool_decide (map_Exists (fun _ r => mp_user r = userID) (user_mappings d))) unique_violation;;
      fail_if (negb (batch_exists batch d) || negb (user_exists userID d)) foreign_violation;;
      Ok (with_user_mappings (<[UI_LegacyUserID input := mkMappingRow batch userID expectedChecksum currency
            (UI_BalanceCents input) (UI_FreePlayBalanceCents input) (UI_TransactionNetCents input) (UI_DifferenceCents input)
            "promoted" (Some at_)]> (user_mappings d)) d)
  end.
Definition ensureUserMapping (at_ : Time) (batchID userID expectedChecksum : string) (input : UserInput) : go unit :=
  exec "%w" (insert_mapping at_ batchID userID expectedChecksum input);;
  verifyUserMapping batchID userID expectedChecksum input.

Definition role_of_text (t : string) : Role :=
  if bool_decide (t = "member"%string) then RoleMember
  else if bool_decide (t = "admin"%string) then RoleAdmin
  else if bool_decide (t = "owner"%string) then RoleOwner else RoleOther t.
(** [INSERT INTO memberships], with its check on the role and its key. *)
Definition insert_role (mid userID role : string) (granter : string) (at_ : Time) d : result PromDB :=
  fail_if (match role_of_text role with RoleOther _ => true | _ => false end) (Errorf "violates check constraint");;
  fail_if (bool_decide (is_Some (memberships (people d) !! mid))
           || bool_decide (is_Some (active_membership userID (people d)))) unique_violation;;
  fail_if (negb (user_exists userID d) || negb (user_exists granter d)) foreign_violation;;
  Ok (with_people (with_memberships (<[mid := mkMembershipRow userID (role_of_text role) (Some granter) at_ None]>
        (memberships (people d))) (people d)) d).
Definition ensureMembership (at_ : Time) (userID role actorUserID : string) : go unit :=
  found ← query "%w" (fun d => Ok (active_membership userID (people d)));
  match found with
  | None =>
      statement "%w" (fun n d =>
        granter ← cast actorUserID;
        d' ← insert_role (gen_uuid n) userID role granter at_ d;
        Ok (d', ()))
  | Some (_, m) =>
      if negb (bool_decide (role_text (mb_role m) = role))
      then failing (Errorf "existing active membership role %q does not match %q")
      else mret ()
  end.

Definition user_matches (input : UserInput) (u : IdUserRow) : bool :=
  equal_fold (TrimSpace (default ""%string (iu_email u))) (UI_Email input) && bool_decide (iu_status u = UserActive).
Definition verifyUser (userID : string) (input : UserInput) : go string :=
  u ← query "%w" (fun d => must_find (id_users (people d) !! userID));
  if negb (user_matches input u) then failing (Errorf "existing user identity/status does not match legacy user %d")
  else if bool_decide (TrimSpace (iu_display_name u) = ""%string)
  then failing (Errorf "existing user has an empty display name")
  else mret userID.

(** [INSERT INTO users], with the unique [lower(email)] and the column
    defaults. *)
Definition insert_promoted_user (uid : string) (input : UserInput) d : result (PromDB * string) :=
  let email := if bool_decide (UI_Email input = ""%string) then None else Some (UI_Email input) in
  fail_if (user_exists uid d || match email with
                                | Some e => bool_decide (is_Some (user_by_email pg_lower e (people d)))
                                | None => false
                                end) unique_violation;;
  Ok (with_people (with_id_users (<[uid := mkIdUserRow (UI_DisplayName input) email UserActive None column_credit_limit]>
        (id_users (people d))) (people d)) d, uid).

(** [INSERT INTO legacy_import_records ... ON CONFLICT DO NOTHING] *)
Definition insert_import (at_ : Time) (batchID table key target_table target checksum_ : string) d : result PromDB :=
  batch ← cast batchID;
  match import_records d !! (batch, table, key) with
  | Some _ => Ok d
  | None =>
      fail_if (negb (batch_exists batch d)) foreign_violation;;
      Ok (with_import_records (<[(batch, table, key) := mkImportRow (Some target_table) (Some target) checksum_ "imported"
            (Some at_)]> (import_records d)) d)
  end.
Definition import_of (batchID table key : string) d : result (option ImportRow) :=
  batch ← cast batchID;
  Ok (import_records d !! (batch, table, key)).

(** The user an approved legacy user becomes: the one with the same email, or
    a new one. *)
Definition find_or_create_user (input : UserInput) : go string :=
  found ← (if bool_decide (UI_Email input = ""%string) then mret None
           else query "%w" (fun d => Ok (user_by_email pg_lower (UI_Email input) (people d))));
  match found with
  | Some (uid, _) => mret uid
  | None => statement "%w" (fun n => insert_promoted_user (gen_uuid n) input)
  end.

Definition ensureApprovedUser (at_ : Time) (batchID : string) (input : UserInput) : go string :=
  expectedChecksum ← lift (checksum (CUser input));
  found ← query "%w" (fun d =>
    row ← import_of batchID "Users" (sprint_d (UI_LegacyUserID input)) d;
    match row with
    | None => Ok None
    | Some r => target ← scan_null (im_target_id r); Ok (Some (target, im_checksum r))
    end);
  match found with
  | Some (userID, storedChecksum) =>
      if negb (bool_decide (storedChecksum = expectedChecksum)) then failing (Errorf "legacy user %d changed after import")
      else
        verifyUser userID input;;
        ensureMembership at_ userID (UI_Role input) (UI_ActorUserID input);;
        ensureUserMapping at_ batchID userID expectedChecksum input;;
        mret userID
  | None =>
      userID ← find_or_create_user input;
      verifyUser userID input;;
      ensureMembership at_ userID (UI_Role input) (UI_ActorUserID input);;
      exec "%w" (insert_import at_ batchID "Users" (sprint_d (UI_LegacyUserID input)) "users" userID expectedChecksum);;
      ensureUserMapping at_ batchID userID expectedChecksum input;;
      mret userID
  end.

(** *** Balances *)
Definition openingPostings (amountCents : Z) : result (Z * Z) :=
  fail_if (amountCents =? 0) (Errorf "opening balance must be non-zero");;
  fail_if (amountCents =? -9223372036854775807 - 1)
    (Errorf "opening balance cannot be represented by an opposite equity posting");;
  Ok (amountCents, - amountCents).
Definition settlementPostings (settledCents : Z) : result (Z * Z) :=
  '(userPosting, equityPosting) ← openingPostings settledCents;
  Ok (- userPosting, - equityPosting).

(** The upsert of an account on its unique index. *)
Definition upsert_ledger_account (k : option string * string * string) (id : string) d : result (PromDB * string) :=
  match ledger_accounts d !! k with
  | Some existing => Ok (d, existing)
  | None =>
      fail_if (bool_decide (map_Exists (fun _ other => other = id) (ledger_accounts d))) unique_violation;;
      Ok (with_ledger_accounts (<[k := id]> (ledger_accounts d)) d, id)
  end.
Definition equity_key (currency : string) : option string * string * string := (None, "migration_equity"%string, currency).

(** The actor column: [nullif($4, '')::uuid]. *)
Definition actor_column (actor : string) : result (option string) :=
  if bool_decide (actor = ""%string) then Ok None else a ← cast actor; Ok (Some a).
(** [INSERT INTO ledger_transactions ... ON CONFLICT DO NOTHING RETURNING id] *)
Definition insert_adjustment (at_ : Time) (id currency key actor reason : string) d : result (PromDB * option string) :=
  actor ← actor_column actor;
  match ledger_txs d !! (currency, key) with
  | Some _ => Ok (d, None)
  | None =>
      fail_if (bool_decide (map_Exists (fun _ r => tx_id r = id) (ledger_txs d))) unique_violation;;
      fail_if (match actor with Some a => negb (user_exists a d) | None => false end) foreign_violation;;
      Ok (with_ledger_txs (<[(currency, key) := mkLedgerTxRow id "migration_adjustment" SourceSystem actor (Some reason) 2 at_ []]>
            (ledger_txs d)) d, Some id)
  end.
(** [INSERT INTO ledger_postings] of two rows of one transaction. *)
Definition add_entries (id : string) (entries : list (string * Z)) (r : LedgerTxRow) : LedgerTxRow :=
  if bool_decide (tx_id r = id)
  then mkLedgerTxRow (tx_id r) (tx_type r) (tx_source_type r) (tx_actor r) (tx_reason r) (tx_expected r) (tx_occurred_at r)
         (tx_postings r ++ entries)
  else r.
Definition insert_entries (id : string) (entries : list (string * Z)) d : result PromDB :=
  fail_if (negb (bool_decide (map_Exists (fun _ r => tx_id r = id) (ledger_txs d)))
           || negb (forallb (fun e => bool_decide (map_Exists (fun _ a => a = e.1) (ledger_accounts d))) entries))
    foreign_violation;;
  fail_if (negb (bool_decide (map_Forall (fun _ r => tx_id r = id -> NoDup (tx_postings r ++ entries).*1) (ledger_txs d))))
    unique_violation;;
  Ok (with_ledger_txs (add_entries id entries <$> ledger_txs d) d).

(** The row both verifications aggregate: the transaction and its postings on
    the two accounts. *)
Definition entries_on (a b : string) (entries : list (string * Z)) : list (string * Z) :=
  List.filter (fun e => bool_decide (e.1 = a) || bool_decide (e.1 = b)) entries.
Definition cents_on (a : string) (entries : list (string * Z)) : Z :=
  sumZ snd (List.filter (fun e => bool_decide (e.1 = a)) entries).
Definition adjustment_row (currency key user equity : string) d : option (LedgerTxRow * Z * Z * Z) :=
  t ← ledger_txs d !! (currency, key);
  let entries := entries_on user equity (tx_postings t) in
  if bool_decide (entries = []) then None
  else Some (t, Z.of_nat (length entries), cents_on user entries, cents_on equity entries).
Definition adjustment_matches (actor reason : string) (userCents equityCents : Z) (row : LedgerTxRow * Z * Z * Z) : bool :=
  let '(t, count, userAmount, equityAmount) := row in
  bool_decide (tx_type t = "migration_adjustment"%string) && bool_decide (tx_source_type t = SourceSystem)
  && bool_decide (default ""%string (tx_actor t) = actor) && bool_decide (default ""%string (tx_reason t) = reason)
  && (tx_expected t =? 2) && (count =? 2) && (userAmount =? userCents) && (equityAmount =? equityCents).
Definition import_matches (expectedChecksum transactionID : string) (r : ImportRow) : bool :=
  bool_decide (im_checksum r = expectedChecksum)
  && bool_decide (default ""%string (im_target_table r) = "ledger_transactions"%string)
  && bool_decide (default ""%string (im_target_id r) = transactionID).
Definition balance_source (userID : Z) (accountType : string) : string := (sprint_d userID ++ ":" ++ accountType)%string.

(** What [verifyOpeningBalance] and [verifySeasonSettlement] share. *)
Definition verify_adjustment (batchID table source currency key user equity actor reason : string) (userCents equityCents : Z)
    (value : checksummed) (mismatch bad_import : error) : go unit :=
  row ← query "%w" (fun d => must_find (adjustment_row currency key user equity d));
  if negb (adjustment_matches actor reason userCents equityCents row) then failing mismatch
  else
    expectedChecksum ← lift (checksum value);
    stored ← query "%w" (fun d => r ← import_of batchID table source d; must_find r);
    if negb (import_matches expectedChecksum (tx_id row.1.1.1) stored) then failing bad_import else mret ().
Definition verifyOpeningBalance (batchID : string) (input : OpeningBalanceInput) (user equity : string) : go unit :=
  verify_adjustment batchID "UserBalances" (balance_source (OB_LegacyUserID input) (OB_AccountType input))
    (OB_Currency input) (OB_IdempotencyKey input) user equity (OB_ActorUserID input) (OB_Reason input)
    (OB_AmountCents input) (- OB_AmountCents input) (COpening input)
    (Errorf "existing opening balance does not match requested balanced postings")
    (Errorf "existing opening balance import record does not match requested migration").
Definition verifySeasonSettlement (batchID : string) (input : SeasonSettlementInput) (user equity : string) : go unit :=
  verify_adjustment batchID "UserBalanceSettlements" (balance_source (SS_LegacyUserID input) (SS_AccountType input))
    (SS_Currency input) (SS_IdempotencyKey input) user equity (SS_ActorUserID input) (SS_Reason input)
    (- SettledCents input) (SettledCents input) (CSettlement input)
    (Errorf "existing season settlement does not match requested balanced postings")
    (Errorf "existing season settlement import record does not match requested migration").

(** The statements both balance operations end with: the transaction, its two
    postings and its import record, unless the key is there already; and the
    verification. *)
Definition post_adjustment (at_ : Time) (batchID table source currency key user equity actor reason : string)
    (userPosting equityPosting : Z) (value : checksummed) (verify : go unit) : go unit :=
  transactionID ← statement "%w" (fun n => insert_adjustment at_ (gen_uuid n) currency key actor reason);
  match transactionID with
  | None => verify
  | Some id =>
      exec "%w" (insert_entries id [(user, userPosting); (equity, equityPosting)]);;
      checksum_ ← lift (checksum value);
      exec "%w" (insert_import at_ batchID table source "ledger_transactions" id checksum_);;
      verify
  end.

Definition ensureOpeningBalance (at_ : Time) (batchID : string) (input : OpeningBalanceInput) : go unit :=
  '(userPosting, equityPosting) ← lift (openingPostings (OB_AmountCents input));
  user ← statement "%w" (fun n d =>
    fail_if (negb (user_exists (OB_UserID input) d)) foreign_violation;;
    upsert_ledger_account (Some (OB_UserID input), OB_AccountType input, OB_Currency input) (gen_uuid n) d);
  equity ← statement "%w" (fun n => upsert_ledger_account (equity_key (OB_Currency input)) (gen_uuid n));
  post_adjustment at_ batchID "UserBalances" (balance_source (OB_LegacyUserID input) (OB_AccountType input))
    (OB_Currency input) (OB_IdempotencyKey input) user equity (OB_ActorUserID input) (OB_Reason input)
    userPosting equityPosting (COpening input) (verifyOpeningBalance batchID input user equity).

Definition ensureSeasonSettlement (at_ : Time) (batchID : string) (input : SeasonSettlementInput) : go unit :=
  '(userPosting, equityPosting) ← lift (settlementPostings (SettledCents input));
  user ← query "season settlement requires the opening balance account: %w" (fun d =>
    must_find (ledger_accounts d !! (Some (SS_UserID input), SS_AccountType input, SS_Currency input)));
  equity ← query "season settlement requires the migration equity account: %w" (fun d =>
    must_find (ledger_accounts d !! equity_key (SS_Currency input)));
  post_adjustment at_ batchID "UserBalanceSettlements" (balance_source (SS_LegacyUserID input) (SS_AccountType input))
    (SS_Currency input) (SS_IdempotencyKey input) user equity (SS_ActorUserID input) (SS_Reason input)
    userPosting equityPosting (CSettlement input) (verifySeasonSettlement batchID input user equity).

(** *** History *)
Definition insert_history_transaction (batchID userID : string) (record : TransactionRecord) (sum : string) d : result PromDB :=
  batch ← cast batchID;
  currency ← currency_column (TR_Currency record);
  match history_transactions d !! SourceTransactionID record with
  | Some _ => Ok d
  | None =>
      fail_if (negb (batch_exists batch d) || negb (user_exists userID d)) foreign_violation;;
      Ok (with_history_transactions (<[SourceTransactionID record := mkHistoryTransaction batch userID (AmountCents record)
            (TR_Type record) currency (TR_Description record) (timestamptz (TR_OccurredAt record)) sum]>
            (history_transactions d)) d)
  end.
Definition same_transaction (batchID userID : string) (record : TransactionRecord) (sum : string) (r : HistoryTransaction) : bool :=
  bool_decide (ht_batch r = batchID) && bool_decide (ht_user r = userID) && (ht_amount r =? AmountCents record)
  && bool_decide (ht_type r = TR_Type record) && bool_decide (TrimSpace (ht_currency r) = TR_Currency record)
  && bool_decide (ht_description r = TR_Description record) && (nanos (ht_occurred_at r) =? nanos (TR_OccurredAt record))
  && bool_decide (ht_checksum r = sum).
Definition ensureLegacyTransaction (batchID userID : string) (record : TransactionRecord) : go unit :=
  sum ← lift (checksum (CTransaction record));
  exec "%w" (insert_history_transaction batchID userID record sum);;
  row ← query "%w" (fun d => must_find (history_transactions d !! SourceTransactionID record));
  if negb (same_transaction batchID userID record sum row)
  then failing (Errorf "legacy transaction %d does not match existing immutable history") else mret ().

(** [int] written to an integer column. *)
Definition int4_column (z : Z) : result Z := scan_int32 z.
Definition insert_history_wager (batchID userID : string) (record : WagerRecord) (sum : string) d : result PromDB :=
  batch ← cast batchID;
  currency ← currency_column (WR_Currency record);
  odds ← int4_column (WR_AcceptedAmericanOdds record);
  match history_wagers d !! SourceWagerID record with
  | Some _ => Ok d
  | None =>
      fail_if (negb (batch_exists batch d) || negb (user_exists userID d)) foreign_violation;;
      Ok (with_history_wagers (<[SourceWagerID record := mkHistoryWager batch userID (WR_StakeCents record)
            (WR_AcceptedTerms record) currency odds (timestamptz (WR_PlacedAt record)) (WR_Result record)
            (WR_Approved record) sum]> (history_wagers d)) d)
  end.
Definition same_wager (batchID userID : string) (record : WagerRecord) (sum : string) (r : HistoryWager) : bool :=
  bool_decide (hw_batch r = batchID) && bool_decide (hw_user r = userID) && (hw_stake r =? WR_StakeCents record)
  && bool_decide (hw_terms r = WR_AcceptedTerms record) && bool_decide (TrimSpace (hw_currency r) = WR_Currency record)
  && (hw_odds r =? WR_AcceptedAmericanOdds record) && (nanos (hw_placed_at r) =? nanos (WR_PlacedAt record))
  && bool_decide (hw_result r = WR_Result record) && bool_decide (hw_approved r = WR_Approved record)
  && bool_decide (hw_checksum r = sum).
Definition ensureLegacyWager (batchID userID : string) (record : WagerRecord) : go unit :=
  sum ← lift (checksum (CWager record));
  exec "%w" (insert_history_wager batchID userID record sum);;
  row ← query "%w" (fun d => must_find (history_wagers d !! SourceWagerID record));
  if negb (same_wager batchID userID record sum row)
  then failing (Errorf "legacy wager %d does not match existing immutable history") else mret ().

(** *** Completion *)
(** The upsert of the completion record, which keeps an existing one. *)
Definition record_completion (at_ : Time) (batchID sourceChecksum : string) d : result (PromDB * (string * string)) :=
  batch ← cast batchID;
  let key := (batch, "Promotion"%string, "complete"%string) in
  match import_records d !! key with
  | Some r => target ← scan_null (im_target_id r); Ok (d, (im_checksum r, target))
  | None =>
      fail_if (negb (batch_exists batch d)) foreign_violation;;
      Ok (with_import_records (<[key := mkImportRow (Some "migration_batches"%string) (Some batch) sourceChecksum "imported"
            (Some at_)]> (import_records d)) d, (sourceChecksum, batch))
  end.
Definition completion_data (input : CompletionInput) : list (string * audit_value) :=
  [("users"%string, AInt (CI_Users input)); ("transactions"%string, AInt (CI_Transactions input));
   ("wagers"%string, AInt (CI_Wagers input)); ("settled_balances"%string, AInt (CI_SettledBalances input));
   ("closing_cash_total_cents"%string, AInt (CI_ClosingCashTotalCents input));
   ("transaction_net_total_cents"%string, AInt (CI_TransactionNetTotalCents input));
   ("difference_total_cents"%string, AInt (CI_DifferenceTotalCents input));
   ("currency"%string, AString SourceCurrency); ("source_checksum"%string, AString (CI_SourceChecksum input))].
Definition audit_completion (batchID : string) (input : CompletionInput) d : result PromDB :=
  actor ← cast (CI_ActorUserID input);
  batch ← cast batchID;
  Ok (with_people (with_id_audit (id_audit (people d) ++ [mkAuditRow actor "legacy_book.promoted" "migration_batches" batch
        "Approved legacy Cabot Book reconciliation and opening balances" [] (completion_data input)]) (people d)) d).
Definition promotable_state (state : string) : bool :=
  bool_decide (state = "validated"%string) || bool_decide (state = "promoted"%string).
Definition mark_promoted (at_ : Time) (b : BatchRow) : BatchRow :=
  if promotable_state (ba_state b)
  then mkBatchRow (ba_source_system b) (ba_source_version b) "promoted" (ba_source_counts b) (ba_reconciliation b)
         (Some (default at_ (ba_completed_at b)))
  else b.
Definition completePromotion (at_ : Time) (batchID : string) (input : CompletionInput) : go unit :=
  '(storedChecksum, storedTarget) ← statement "%w" (fun _ => record_completion at_ batchID (CI_SourceChecksum input));
  if negb (bool_decide (storedChecksum = CI_SourceChecksum input)) || negb (bool_decide (storedTarget = batchID))
  then failing (Errorf "existing promotion completion record does not match reconciliation report")
  else
    b ← query "%w" (fun d => batch ← cast batchID; must_find (batches d !! batch));
    if negb (promotable_state (ba_state b)) then failing (Errorf "migration batch state %q cannot be promoted")
    else
      (if bool_decide (ba_state b = "promoted"%string) then mret () else exec "%w" (audit_completion batchID input));;
      exec "%w" (fun d => batch ← cast batchID; Ok (with_batches (alter (mark_promoted at_) batch (batches d)) d)).

Definition postgresRepository (at_ : Time) : Repository PromDB :=
  mkRepository (ensureApprovedUser at_) (ensureOpeningBalance at_) (ensureSeasonSettlement at_)
    ensureLegacyTransaction ensureLegacyWager (completePromotion at_).

(** ** [WithinTransaction] *)

(** The deferred ledger triggers: each transaction has the postings it
    announced, they sum to zero and are in its currency. *)
Definition tx_balanced d (k : string * string) (r : LedgerTxRow) : Prop :=
  Z.of_nat (length (tx_postings r)) = tx_expected r /\ sumZ snd (tx_postings r) = 0
  /\ Forall (fun e => map_Exists (fun (ak : option string * string * string) a => a = e.1 /\ ak.2 = k.1) (ledger_accounts d))
       (tx_postings r).
Definition ledger_balanced d : bool := bool_decide (map_Forall (tx_balanced d) (ledger_txs d)).

(** The advisory lock keeps two promotions apart and returns nothing. *)
Definition withinTransaction (pool : bool) (operation : Repository PromDB -> go PromotionResult) : go PromotionResult :=
  transaction pool pool_required (fun e => e) ledger_balanced
    (at_ ← tx_now;
     query "%w" (fun _ => Ok ());;
     r ← operation (postgresRepository at_);
     mret (Commit "%w" r)).
Definition PostgresStore (pool : bool) : PromotionStore PromDB := mkPromotionStore (withinTransaction pool).

(** ** cmd/cabot/legacy.go *)
Definition legacyMigrationActorEmail : string := "legacy-public-import@cabotcup.invalid".
Definition source_counts (report : Report) : list (string * Z) :=
  [("users"%string, UserCount report); ("transactions"%string, TransactionCount report); ("wagers"%string, WagerCount report)].
Definition reconciliation (report : Report) : list (string * Z) * list Issue :=
  ([("closing_cash_total_cents"%string, ClosingCashTotalCents report);
    ("closing_free_play_total_cents"%string, ClosingFreePlayTotalCents report);
    ("transaction_net_total_cents"%string, TransactionNetTotalCents report);
    ("difference_total_cents"%string, DifferenceTotalCents report)], Issues report).

Definition batch_of (version : string) d : option (string * BatchRow) :=
  find_row (fun b => bool_decide (ba_source_system b = SourceSystem) && bool_decide (ba_source_version b = version)) (batches d).
Definition renew_batch (report : Report) (b : BatchRow) : BatchRow :=
  mkBatchRow (ba_source_system b) (ba_source_version b)
    (if bool_decide (ba_state b = "promoted"%string) then "promoted" else "validated") (source_counts report)
    (reconciliation report) (ba_completed_at b).
Definition upsert_batch (id sourceVersion : string) (report : Report) d : result (PromDB * option string) :=
  match batch_of sourceVersion d with
  | Some (bid, b) =>
      if bool_decide (ba_state b = "rolled_back"%string) then Ok (d, None)
      else Ok (with_batches (<[bid := renew_batch report b]> (batches d)) d, Some bid)
  | None =>
      fail_if (batch_exists id d) unique_violation;;
      Ok (with_batches (<[id := mkBatchRow SourceSystem sourceVersion "validated" (source_counts report)
            (reconciliation report) None]> (batches d)) d, Some id)
  end.
Definition ensureLegacyMigrationBatch (sourceVersion : string) (report : Report) : go string :=
  batchID ← statement "%w" (fun n => upsert_batch (gen_uuid n) sourceVersion report);
  match batchID with
  | None => failing (Errorf "matching migration batch was rolled back")
  | Some id => mret id
  end.

(** The read-only snapshot the report is made from; its queries stop at the
    first that fails, as [Reconcile] does. *)
Definition read_report (unicode_lower : string -> string) : go Report :=
  users ← attempt (PostgresSource_Users true);
  transactions ← attempt (PostgresSource_Transactions true);
  wagers ← attempt (PostgresSource_Wagers true);
  lift (wrap_err "reconcile legacy book: %w" (Reconcile unicode_lower (Some (mkSource users transactions wagers)))).

(** What the command prints: the report's figures, or the promotion. *)
Inductive legacy_output :=
  | ReportOutput (sourceVersion : string) (report : Report)
  | PromotionOutput (batchID sourceVersion : string) (report : Report) (result : PromotionResult).

Definition ExpectedVersionVariable : string := "LEGACY_BOOK_EXPECTED_SOURCE_VERSION".

(** [runLegacyBook] after it connected. [report_json] is [Report.JSON]. *)
Definition runLegacyBook (unicode_lower : string -> string) (report_json : Report -> result (list ascii))
    (lookup : string -> option string) (promote : bool) : go legacy_output :=
  query "begin legacy book source snapshot: %w" (fun _ => Ok ());;
  report ← read_report unicode_lower;
  query "commit legacy book source snapshot: %w" (fun _ => Ok ());;
  encodedReport ← lift (wrap_err "encode legacy book report: %w" (report_json report));
  let sourceVersion := of_bytes (hex (byte_val <$> sha256 encodedReport)) in
  if negb promote then mret (ReportOutput sourceVersion report)
  else if negb (Promotable report)
  then failing (Errorf "legacy book report contains blocking issues; run legacy-book-report for details")
  else
    let expectedVersion := TrimSpace (default ""%string (lookup ExpectedVersionVariable)) in
    if bool_decide (expectedVersion = ""%string)
    then failing (Errorf "LEGACY_BOOK_EXPECTED_SOURCE_VERSION is required to approve the reconciled source and warnings")
    else if negb (bool_decide (expectedVersion = sourceVersion))
    then failing (Errorf "legacy book source version does not match explicit approval: got %s")
    else
      actorUserID ← query "resolve legacy migration actor: %w" (fun d =>
        must_find (fst <$> find_row (fun u => bool_decide (iu_email u = Some legacyMigrationActorEmail)
                                              && bool_decide (iu_status u = UserDisabled)) (id_users (people d))));
      batchID ← wrapped "prepare legacy migration batch: %w" (ensureLegacyMigrationBatch sourceVersion report);
      result ← wrapped "promote legacy book: %w"
        (Promote (Some (PostgresStore true)) report (mkPromoteOptions batchID SourceCurrency actorUserID sourceVersion));
      mret (PromotionOutput batchID sourceVersion report result).
End promotion_store.
