(* ===== verification/PromotionReport.v ===== *)
(** * Reconciled reports pass validation

    [Promote] checks the report it is given anew: counts, owners, duplicate
    rows, each user's net and count, the totals.  Every report [Reconcile]
    makes without a blocking issue passes these checks, whatever the archive
    holds. *)
From S2P Require Import Prelude GoStrings GoTime SQL LegacyBook Promotion.

(** ** What the loops record *)
Section recorded.
Variable unicode_lower : string -> string.

Definition good_transaction (r : TransactionRecord) : Prop := TR_Currency r = SourceCurrency.
Definition good_wager_record (byID : gmap Z nat) (r : WagerRecord) : Prop :=
  WR_Currency r = SourceCurrency /\ is_Some (byID !! WR_LegacyUserID r).
Definition records_good (byID : gmap Z nat) (r : Report) : Prop :=
  Forall good_transaction (Report_Transactions r) /\ Forall (good_wager_record byID) (Report_Wagers r).

Lemma report_issue_good byID r i code table id msg :
  records_good byID r -> records_good byID (report_issue r i code table id msg).
Proof. unfold report_issue. by destruct (_ !! i). Qed.
Lemma issue_if_good byID cond code id msg re : records_good byID re.1 -> records_good byID (issue_if cond code id msg re).1.
Proof. unfold issue_if. by destruct cond. Qed.
Lemma assign_good {A} byID (zero : A) parsed set code id re :
  records_good byID re.1 -> records_good byID (assign zero parsed set code id re).1.
Proof. unfold assign. by destruct parsed. Qed.
Lemma user_good byID0 st u : records_good byID0 st.1 -> records_good byID0 (reconcile_user unicode_lower st u).1.
Proof.
  destruct st as [report byID]. unfold reconcile_user. cbv zeta. cbn [fst]. intros H.
  repeat first [apply issue_if_good | apply assign_good]. done.
Qed.
Lemma transaction_good byID st t : records_good byID st.1 -> records_good byID (reconcile_transaction unicode_lower byID st t).1.
Proof.
  destruct st as [report seen]. unfold reconcile_transaction. cbv zeta.
  repeat case_match; cbn [fst]; intros Hg; try (by apply report_issue_good); try done; destruct Hg as [Hg1 Hg2]; split; cbn; try done.
  apply Forall_app. split; [done|]. by apply Forall_singleton.
Qed.
Lemma wager_good byID st w : records_good byID st.1 -> records_good byID (reconcile_wager unicode_lower byID st w).1.
Proof.
  destruct st as [report seen]. unfold reconcile_wager. destruct (byID !! LW_UserID w) as [i|] eqn:Hi; [|done]. cbv zeta.
  repeat case_match; cbn [fst]; intros Hg; try (by apply report_issue_good); try done; destruct Hg as [Hg1 Hg2]; split; cbn; try done.
  apply Forall_app. split; [done|]. apply Forall_singleton. split; [done|eauto].
Qed.
Lemma foldl_good {A S} byID (f : Report * S -> A -> Report * S) l st :
  (forall st x, records_good byID st.1 -> records_good byID (f st x).1) ->
  records_good byID st.1 -> records_good byID (foldl f st l).1.
Proof. intros Hf. revert st. induction l as [|x l IH]; intros st H; [done|]. cbn. by apply IH, Hf. Qed.
End recorded.

(** What a promotable report satisfies. *)
Record sound_report (r : Report) : Prop := mkSoundReport {
  sr_version : Version r = 1 /\ Report_SourceSystem r = SourceSystem;
  sr_counts : UserCount r = Z.of_nat (length (Report_Users r))
    /\ TransactionCount r = Z.of_nat (length (Report_Transactions r)) /\ WagerCount r = Z.of_nat (length (Report_Wagers r));
  sr_users : NoDup (UR_LegacyUserID <$> Report_Users r);
  sr_differences : Forall (fun u => DifferenceCents u = wrap64 (ClosingCashCents u - TransactionNetCents u)) (Report_Users r);
  sr_reconciled : Forall (reconciled (Report_Transactions r)) (Report_Users r);
  sr_transactions : NoDup (SourceTransactionID <$> Report_Transactions r);
  sr_transaction_rows : Forall (fun t => TR_Currency t = SourceCurrency
    /\ TR_LegacyUserID t ∈ UR_LegacyUserID <$> Report_Users r) (Report_Transactions r);
  sr_wagers : NoDup (SourceWagerID <$> Report_Wagers r);
  sr_wager_rows : Forall (fun w => WR_Currency w = SourceCurrency
    /\ WR_LegacyUserID w ∈ UR_LegacyUserID <$> Report_Users r) (Report_Wagers r);
  sr_totals : ClosingCashTotalCents r = wrap64 (sumZ ClosingCashCents (Report_Users r))
    /\ ClosingFreePlayTotalCents r = wrap64 (sumZ ClosingFreePlayCents (Report_Users r))
    /\ TransactionNetTotalCents r = wrap64 (sumZ TransactionNetCents (Report_Users r))
    /\ DifferenceTotalCents r = wrap64 (ClosingCashTotalCents r - TransactionNetTotalCents r)
}.

Lemma Forall2_fmap_eq {A B C} (R : A -> B -> Prop) (f : A -> C) (g : B -> C) l k :
  (forall x y, R x y -> g y = f x) -> Forall2 R l k -> g <$> k = f <$> l.
Proof. intros Hr. induction 1 as [|x y l k H _ IH]; [done|]. by rewrite !fmap_cons, IH, (Hr _ _ H). Qed.

Lemma promotable_report_sound unicode_lower source report :
  Reconcile unicode_lower (Some source) = Ok report -> Promotable report = true -> sound_report report.
Proof.
  intros H Hp. destruct (promotable_run _ _ _ H Hp) as (us & ts & ws & r1 & r2 & r3 & byID & seen2 & seen3 & _ & _ & _ & R).
  destruct R as [E1 E2 E3 Hc (Tu & Tt & Tw & Th) Hn Hd].
  destruct (stages_clean unicode_lower (empty_report _ _ _) us ts ws r1 byID r2 seen2 r3 seen3 eq_refl eq_refl eq_refl E1 E2 E3 Hc)
    as (us1 & S1 & S2 & S3 & S4 & S5 & S6 & S7 & S8 & S9 & S10 & S11).
  assert (Hg : records_good byID r3).
  { change r3 with (r3, seen3).1. rewrite <- E3. apply foldl_good; [apply wager_good|]. change (records_good byID (r2, seen2).1).
    rewrite <- E2. apply foldl_good; [apply transaction_good|]. change (records_good byID (r1, byID).1).
    rewrite <- E1. apply foldl_good; [intros; by apply user_good|]. by split. }
  destruct Hg as [Hgt Hgw].
  assert (Hidx : indexed byID (Report_Users r3)).
  { destruct (users_loop_indexed unicode_lower us _ ∅ r1 byID E1) as [Hx _]; [by intros id i|].
    eapply indexed_ids; [|exact Hx]. transitivity (UR_LegacyUserID <$> Report_Users r2).
    - change r3 with (r3, seen3).1. rewrite <- E3.
      exact (foldl_keeps (fun r => UR_LegacyUserID <$> Report_Users r) _ ws (r2, ∅) (reconcile_wager_ids unicode_lower byID)).
    - change r2 with (r2, seen2).1. rewrite <- E2.
      exact (foldl_keeps (fun r => UR_LegacyUserID <$> Report_Users r) _ ts (r1, ∅) (reconcile_transaction_ids unicode_lower byID)). }
  injection S10 as V1 V2 V3 V4 V5 V6 V7 V8 _. injection Th as W1 W2 W3 W4 W5.
  destruct Hn as (Tn & Tc & Tf); [by rewrite ?V6, ?V7, ?V8..|].
  assert (Hids : UR_LegacyUserID <$> Report_Users report = UR_LegacyUserID <$> Report_Users r3).
  { rewrite Tu, <- list_fmap_compose. done. }
  assert (Hwith : forall f : UserReconciliation -> Z, (forall u, f (with_difference u) = f u) ->
    sumZ f (Report_Users report) = sumZ f (Report_Users r3)).
  { intros f Hf. rewrite Tu, sumZ_map. apply sumZ_ext. auto. }
  split.
  - by rewrite W1, W2, V1, V2.
  - rewrite W3, W4, W5, V3, V4, V5, Tu, Tt, Tw, length_fmap.
    rewrite (Forall2_length _ _ _ S1), (Forall2_length _ _ _ S2), (Forall2_length _ _ _ S3), (Forall2_length _ _ _ S4). done.
  - by rewrite Hids, S11.
  - rewrite Tu, Forall_fmap. by apply Forall_true.
  - rewrite Tu, Tt, Forall_fmap. exact S8.
  - by rewrite Tt, (Forall2_fmap_eq _ LT_ID SourceTransactionID _ _ (fun x y Hxy => proj1 Hxy) S3).
  - rewrite Tt, Hids, S11. apply Forall_forall. intros t Hin. rewrite Forall_forall in S9, Hgt. split; [by apply Hgt|by apply S9].
  - by rewrite Tw, (Forall2_fmap_eq _ LW_ID SourceWagerID _ _ (fun x y Hxy => proj1 Hxy) S4).
  - rewrite Tw, Hids. eapply Forall_impl; [exact Hgw|]. intros w [Hcur [i Hi]]. split; [done|].
    destruct (Hidx _ _ Hi) as (u & Hu & <-). apply list_elem_of_fmap_2. by eapply list_elem_of_lookup_2.
  - rewrite Tc, Tf, Tn, V6, V7, V8, !Z.add_0_l, !Hwith by done.
    split_and!; [done..|]. by rewrite Hd, Tc, Tn, V6, V8.
Qed.

(** ** The checks *)
Lemma fold_result_step {A S} (f : S -> A -> result S) st x l st' :
  f st x = Ok st' -> fold_result f st (x :: l) = fold_result f st' l.
Proof. intros H. cbn [fold_result]. by rewrite H. Qed.
Definition user_pair (u : UserReconciliation) : Z * UserReconciliation := (UR_LegacyUserID u, u).
Lemma lookup_of_pairs (users : gmap Z UserReconciliation) us id :
  map_to_list users ≡ₚ user_pair <$> us -> is_Some (users !! id) <-> id ∈ UR_LegacyUserID <$> us.
Proof.
  intros Hp. split.
  - intros [u Hu%elem_of_map_to_list]. rewrite Hp in Hu. apply list_elem_of_fmap in Hu as (u' & [= -> ->] & Hin).
    by apply list_elem_of_fmap_2.
  - intros (u & -> & Hin)%list_elem_of_fmap. exists u. apply elem_of_map_to_list. rewrite Hp.
    apply list_elem_of_fmap. by exists u.
Qed.

Lemma check_users_pass us : forall done_ users cash fp,
  map_to_list users ≡ₚ user_pair <$> done_ -> NoDup (UR_LegacyUserID <$> done_ ++ us) ->
  Forall (fun u => DifferenceCents u = wrap64 (ClosingCashCents u - TransactionNetCents u)) us -> int64 cash -> int64 fp ->
  exists users', fold_result check_user (users, cash, fp) us
      = Ok (users', wrap64 (cash + sumZ ClosingCashCents us), wrap64 (fp + sumZ ClosingFreePlayCents us))
    /\ map_to_list users' ≡ₚ user_pair <$> done_ ++ us.
Proof.
  induction us as [|u us IH]; intros done_ users cash fp Hp Hnd Hd Hc Hf.
  - exists users. rewrite app_nil_r, !sumZ_nil, !Z.add_0_r, !wrap64_id by done. done.
  - apply Forall_cons in Hd as [Hu Hd].
    assert (Hnew : users !! UR_LegacyUserID u = None).
    { apply eq_None_not_Some. rewrite (lookup_of_pairs _ _ _ Hp). rewrite fmap_app in Hnd. apply NoDup_app in Hnd as (_ & Hnd & _).
      intros Hin. eapply Hnd; [exact Hin|]. rewrite fmap_cons. by left. }
    destruct (IH (done_ ++ [u]) (<[UR_LegacyUserID u := u]> users) (wrap64 (cash + ClosingCashCents u))
                (wrap64 (fp + ClosingFreePlayCents u))) as (users' & Hr & Hp').
    + rewrite map_to_list_insert, Hp, fmap_app by done. cbn. by rewrite (Permutation_app_comm (user_pair <$> done_)).
    + by rewrite <- app_assoc.
    + done.
    + apply wrap64_int64.
    + apply wrap64_int64.
    + exists users'. rewrite <- app_assoc in Hp'. split; [|done]. rewrite fold_result_step with (st' := (<[UR_LegacyUserID u := u]> users,
        wrap64 (cash + ClosingCashCents u), wrap64 (fp + ClosingFreePlayCents u))).
      2:{ unfold check_user. by rewrite Hnew, Hu, Z.eqb_refl. }
      rewrite Hr, !wrap64_add, !sumZ_cons, !Z.add_assoc. done.
Qed.

Definition totals_of (ts : list TransactionRecord) (totals counts : gmap Z Z) (seen : gset Z) : Prop :=
  (forall id, default 0 (totals !! id) = wrap64 (sumZ AmountCents (user_amounts id ts)))
  /\ (forall id, default 0 (counts !! id) = Z.of_nat (length (user_amounts id ts)))
  /\ seen = list_to_set (SourceTransactionID <$> ts).
Lemma user_amounts_snoc id ts t :
  user_amounts id (ts ++ [t]) = user_amounts id ts ++ (if TR_LegacyUserID t =? id then [t] else []).
Proof. unfold user_amounts. rewrite List.filter_app. cbn. by destruct (_ =? _). Qed.
Lemma default_insert (m : gmap Z Z) k v id : default 0 (<[k := v]> m !! id) = if k =? id then v else default 0 (m !! id).
Proof. destruct (Z.eqb_spec k id) as [->|Hne]; [by rewrite lookup_insert_eq|by rewrite lookup_insert_ne]. Qed.

Lemma check_transactions_pass users us ts : forall done_ totals counts seen,
  map_to_list users ≡ₚ user_pair <$> us ->
  Forall (fun t => TR_Currency t = SourceCurrency /\ TR_LegacyUserID t ∈ UR_LegacyUserID <$> us) ts ->
  NoDup (SourceTransactionID <$> done_ ++ ts) -> totals_of done_ totals counts seen ->
  exists totals' counts' seen', fold_result (check_transaction users) (totals, counts, seen) ts = Ok (totals', counts', seen')
    /\ totals_of (done_ ++ ts) totals' counts' seen'.
Proof.
  induction ts as [|t ts IH]; intros done_ totals counts seen Hp Hts Hnd Ht.
  - rewrite app_nil_r. eauto.
  - apply Forall_cons in Hts as [[Hcur Hown] Hts]. destruct Ht as (T1 & T2 & T3).
    pose proof (proj2 (lookup_of_pairs _ _ _ Hp) Hown) as [u Hu].
    assert (Hnew : SourceTransactionID t ∉ seen).
    { rewrite T3, elem_of_list_to_set. rewrite fmap_app in Hnd. apply NoDup_app in Hnd as (_ & Hnd & _).
      intros Hin. eapply Hnd; [exact Hin|]. rewrite fmap_cons. by left. }
    edestruct (IH (done_ ++ [t])) as (totals' & counts' & seen' & Hr & Ht'); [exact Hp|exact Hts|by rewrite <- app_assoc| |].
    2:{ exists totals', counts', seen'. rewrite <- app_assoc in Ht'. split; [|exact Ht'].
        erewrite fold_result_step; [exact Hr|]. unfold check_transaction. by rewrite Hcur, Hu, (bool_decide_false _ Hnew). }
    split_and!.
    + intros id. rewrite default_insert, user_amounts_snoc, sumZ_app, T1.
      destruct (Z.eqb_spec (TR_LegacyUserID t) id) as [->|Hne]; [|by rewrite sumZ_nil, Z.add_0_r, T1].
      by rewrite wrap64_add, sumZ_cons, sumZ_nil, Z.add_0_r.
    + intros id. rewrite default_insert, user_amounts_snoc, length_app, T2.
      destruct (Z.eqb_spec (TR_LegacyUserID t) id) as [->|Hne]; cbn [length]; [lia|rewrite T2; lia].
    + rewrite T3, fmap_app, list_to_set_app_L. cbn. set_solver.
Qed.

Lemma check_nets_pass totals counts ts seen l : forall net,
  totals_of ts totals counts seen -> Forall (fun e => e.1 = UR_LegacyUserID e.2 /\ reconciled ts e.2) l -> int64 net ->
  fold_result (check_net totals counts) net l = Ok (wrap64 (net + sumZ (fun e => TransactionNetCents e.2) l)).
Proof.
  intros net Ht. revert net. induction l as [|[id u] l IH]; intros net Hl Hn.
  - by rewrite sumZ_nil, Z.add_0_r, wrap64_id.
  - apply Forall_cons in Hl as [[Hid (Hpr & Hnet & Hcnt & H64)] Hl]. destruct Ht as (T1 & T2 & T3). cbn [fst snd] in *. subst id.
    rewrite fold_result_step with (st' := wrap64 (net + TransactionNetCents u)).
    2:{ unfold check_net. rewrite T1, T2, <- Hnet, <- Hcnt, (wrap64_id _ H64). by rewrite !Z.eqb_refl. }
    rewrite IH by (done || apply wrap64_int64). by rewrite wrap64_add, sumZ_cons, Z.add_assoc.
Qed.

Lemma check_wagers_pass users us ws : forall done_ seen,
  map_to_list users ≡ₚ user_pair <$> us ->
  Forall (fun w => WR_Currency w = SourceCurrency /\ WR_LegacyUserID w ∈ UR_LegacyUserID <$> us) ws ->
  NoDup (SourceWagerID <$> done_ ++ ws) -> seen = list_to_set (SourceWagerID <$> done_) ->
  exists seen', fold_result (check_wager users) seen ws = Ok seen'.
Proof.
  induction ws as [|w ws IH]; intros done_ seen Hp Hws Hnd Hs; [by eexists|].
  apply Forall_cons in Hws as [[Hcur Hown] Hws]. pose proof (proj2 (lookup_of_pairs _ _ _ Hp) Hown) as [u Hu].
  assert (Hnew : SourceWagerID w ∉ seen).
  { rewrite Hs, elem_of_list_to_set. rewrite fmap_app in Hnd. apply NoDup_app in Hnd as (_ & Hnd & _).
    intros Hin. eapply Hnd; [exact Hin|]. rewrite fmap_cons. by left. }
  erewrite fold_result_step; [|unfold check_wager; by rewrite Hcur, Hu, (bool_decide_false _ Hnew)].
  apply (IH (done_ ++ [w])); [done..|by rewrite <- app_assoc|].
  rewrite Hs, fmap_app, list_to_set_app_L. cbn. set_solver.
Qed.

Lemma sound_report_validates r : sound_report r -> validatePromotionReport r = Ok ().
Proof.
  intros [_ (C1 & C2 & C3) Hu Hd Hrec Ht Htr Hw Hwr (T1 & T2 & T3 & T4)]. unfold validatePromotionReport.
  rewrite C1, C2, C3, !Z.eqb_refl. cbn [negb orb fail_if]. unfold mbind, result_bind.
  destruct (check_users_pass (Report_Users r) [] ∅ 0 0) as (users & -> & Hp); [done..|]. cbn [app] in Hp. cbv beta iota.
  destruct (check_transactions_pass users (Report_Users r) (Report_Transactions r) [] ∅ ∅ ∅ Hp Htr Ht)
    as (totals & counts & seen & -> & Htot); [done|]. cbn [app] in Htot. cbv beta iota.
  rewrite (check_nets_pass totals counts (Report_Transactions r) seen (map_to_list users) 0 Htot); [|rewrite Hp|done].
  2:{ apply Forall_fmap. eapply Forall_impl; [exact Hrec|]. by intros u. }
  destruct (check_wagers_pass users (Report_Users r) (Report_Wagers r) [] ∅ Hp Hwr Hw eq_refl) as (seen' & ->).
  assert (Hnet : sumZ (fun e => TransactionNetCents e.2) (map_to_list users) = sumZ TransactionNetCents (Report_Users r)).
  { rewrite (sumZ_perm _ _ _ Hp), sumZ_map. done. }
  rewrite Hnet, !Z.add_0_l, <- T1, <- T2, <- T3, <- T4, !Z.eqb_refl. done.
Qed.

(** What the reconciliation approves, the promotion accepts.  Every report
    [Reconcile] makes of an archive without a blocking issue passes all the
    checks [Promote] repeats on it (its version, counts, duplicate and orphan
    rows, each user's difference, net and count, the totals, even where int64
    sums wrap): with a batch, an actor, a 64 character version and no currency
    or CAD, the promotion goes on to its transaction. *)
Theorem reconciled_reports_are_accepted unicode_lower source report options :
  Reconcile unicode_lower (Some source) = Ok report -> Promotable report = true ->
  BatchID options <> ""%string -> PO_ActorUserID options <> ""%string -> len (SourceVersion options) = 64 ->
  PO_Currency options ∈ [""%string; "CAD"%string] ->
  check_promotion report options
  = Ok (mkPromoteOptions (BatchID options) "CAD" (PO_ActorUserID options) (SourceVersion options)).
Proof.
  intros H Hp Hb Ha Hv Hc. pose proof (promotable_report_sound _ _ _ H Hp) as Hs.
  pose proof (sound_report_validates _ Hs) as Hval. destruct (sr_version _ Hs) as [V1 V2].
  unfold check_promotion. rewrite V1, V2, Hp, Hval, (bool_decide_false _ Hb), (bool_decide_false _ Ha), Hv. cbn.
  destruct options as [b c a v]. unfold with_currency. cbn in Hc |- *.
  apply elem_of_cons in Hc as [->|[->|[]%elem_of_nil]%elem_of_cons]; done.
Qed.

(** The worked archive of [LegacyBook]. *)
Definition ex_options : PromoteOptions :=
  mkPromoteOptions "00000000-0000-4000-8000-00000000000d" "" "00000000-0000-4000-8000-00000000000b"
    "0123456789abcdef0123456789abcdef0123456789abcdef0123456789abcdef".
Lemma reconciled_reports_are_accepted_witness :
  exists options, check_promotion ex_report ex_options = Ok options /\ PO_Currency options = "CAD"%string.
Proof.
  eexists. split.
  - apply (reconciled_reports_are_accepted (fun s => s) ex_source ex_report ex_options); try (vm_compute; reflexivity); try (vm_compute; discriminate).
    cbn. by left.
  - reflexivity.
Defined.
