(* ===== verification/PromotionRepeat.v ===== *)
(** * Promotions can be repeated

    The repository's contract is that its operations are idempotent: existing
    rows are verified, not changed.  Here that contract is a law
    ([idempotent]) on any two repositories over the same tables, [Promote]'s
    loops are proved against it, and the PostgreSQL repository is proved to
    satisfy it. *)
From S2P Require Import Prelude GoStrings GoTime Float64 SQL Ledger Identity Base64 Session IdentityDB LegacyBook Promotion PromotionPG.

(** ** What a promotion leaves, and what may happen to it later *)
Definition kept_user (u u' : IdUserRow) : Prop :=
  iu_email u' = iu_email u /\ iu_status u' = iu_status u /\ iu_display_name u' = iu_display_name u.
Definition holds_role (user : string) (r : Role) (d : PromDB) : Prop :=
  exists mid m, memberships (people d) !! mid = Some m /\ mb_user m = user /\ mb_live m = true /\ mb_role m = r.
Definition kept_batch (b b' : BatchRow) : Prop :=
  ba_source_system b' = ba_source_system b /\ ba_source_version b' = ba_source_version b
  /\ ba_source_counts b' = ba_source_counts b /\ ba_reconciliation b' = ba_reconciliation b
  /\ (ba_state b = "promoted"%string -> ba_state b' = "promoted"%string
      /\ forall t, ba_completed_at b = Some t -> ba_completed_at b' = Some t).

(** Later states: rows are added; members keep their name, email, status and
    role; a promoted batch stays
    promoted. *)
Record extends (d d' : PromDB) : Prop := mkExtends {
  ex_archive : archived_users d' = archived_users d /\ archived_transactions d' = archived_transactions d
    /\ archived_bets d' = archived_bets d;
  ex_users : forall uid u, id_users (people d) !! uid = Some u -> exists u', id_users (people d') !! uid = Some u' /\ kept_user u u';
  ex_roles : forall user r, holds_role user r d -> holds_role user r d';
  ex_accounts : ledger_accounts d ⊆ ledger_accounts d';
  ex_ledger : ledger_txs d ⊆ ledger_txs d';
  ex_imports : import_records d ⊆ import_records d';
  ex_mappings : user_mappings d ⊆ user_mappings d';
  ex_transactions : history_transactions d ⊆ history_transactions d';
  ex_wagers : history_wagers d ⊆ history_wagers d';
  ex_batches : forall id b, batches d !! id = Some b -> exists b', batches d' !! id = Some b' /\ kept_batch b b'
}.

#[export] Instance extends_preorder : PreOrder extends.
Proof.
  split.
  - intros d. split; try done; [intros uid u Hu; exists u; by split|]. intros id b Hb. exists b. by split.
  - intros d1 d2 d3 [A1 U1 R1 C1 L1 I1 M1 T1 W1 B1] [A2 U2 R2 C2 L2 I2 M2 T2 W2 B2]. split; try (by etrans); try (by auto).
    + destruct A1 as (-> & -> & ->) in A2. exact A2.
    + intros uid u Hu. destruct (U1 _ _ Hu) as (u1 & H1 & K1 & K2 & K3). destruct (U2 _ _ H1) as (u2 & H2 & J1 & J2 & J3).
      exists u2. split; [done|]. split_and!; congruence.
    + intros id b Hb. destruct (B1 _ _ Hb) as (b1 & H1 & K1 & K2 & K3 & K4 & K5).
      destruct (B2 _ _ H1) as (b2 & H2 & J1 & J2 & J3 & J4 & J5). exists b2. split; [done|].
      split_and!; try congruence. intros Hs. destruct (K5 Hs) as [Hs1 Ht1]. destruct (J5 Hs1) as [Hs2 Ht2]. auto.
Qed.

Section repeat.
Context {E : environment}.
Context (pg_lower : string -> string).

(** The unique indexes on active memberships, emails and batches. *)
Record unique_rows (d : PromDB) : Prop := mkUniqueRows {
  one_role : forall i j x y, memberships (people d) !! i = Some x -> memberships (people d) !! j = Some y ->
    mb_live x = true -> mb_live y = true -> mb_user x = mb_user y -> i = j;
  one_email : forall i j x y e, id_users (people d) !! i = Some x -> id_users (people d) !! j = Some y ->
    pg_lower <$> iu_email x = Some e -> pg_lower <$> iu_email y = Some e -> i = j;
  one_batch : forall i j x y, batches d !! i = Some x -> batches d !! j = Some y ->
    ba_source_system x = ba_source_system y -> ba_source_version x = ba_source_version y -> i = j
}.
Definition later (d d' : PromDB) : Prop := extends d d' /\ unique_rows d' /\ ledger_balanced d' = true.
Definition quiet (n : nat) : Prop := forall k, (n <= k)%nat -> statement_fault k = None.

#[local] Abbreviation go := (SQL.go PromDB).

(** [m] runs to the value [a] in every later state and changes nothing. *)
Definition replays {A} (m : go A) (d : PromDB) (a : A) : Prop :=
  forall s, later d (db s) -> quiet (tick s) -> exists n, (tick s <= n)%nat /\ m s = (SQL.mkSession (db s) n, Ok a).
(** A successful run of [m] only extends the tables, and [m'] replays it. *)
Definition repeats {A} (m m' : go A) : Prop :=
  forall s s' a, unique_rows (db s) -> m s = (s', Ok a) ->
  unique_rows (db s') /\ extends (db s) (db s') /\ replays m' (db s') a.

Lemma replays_mono {A} (m : go A) d d' a : extends d d' -> replays m d a -> replays m d' a.
Proof. intros He Hm s (H1 & H2 & H3). apply Hm. split; [by etrans|done]. Qed.
Lemma replays_bind {A B} (m : go A) (k : A -> go B) d a b : replays m d a -> replays (k a) d b -> replays (m ≫= k) d b.
Proof.
  intros Hm Hk s Hl Hq. destruct (Hm s Hl Hq) as (n & Hn & Hr). rewrite (bind_quiet _ _ _ _ _ Hr).
  destruct (Hk (SQL.mkSession (db s) n)) as (n' & Hn' & Hr'); [done|intros k' ?; apply Hq; cbn in *; lia|].
  exists n'. cbn in *. split; [lia|done].
Qed.
Lemma replays_ret {A} d (a : A) : replays (mret a) d a.
Proof. intros [t n] _ _. by exists n. Qed.
Lemma replays_lift {A} d (r : result A) a : r = Ok a -> replays (lift r) d a.
Proof. intros -> [t n] _ _. by exists n. Qed.
Lemma replays_statement {A} w (f : nat -> PromDB -> result (PromDB * A)) d a :
  (forall n d2, later d d2 -> f n d2 = Ok (d2, a)) -> replays (statement w f) d a.
Proof.
  intros Hf s Hl Hq. exists (S (tick s)). split; [lia|]. apply statement_quiet; [by apply Hq|]. by apply Hf.
Qed.
Lemma replays_query {A} w (f : PromDB -> result A) d a :
  (forall d2, later d d2 -> f d2 = Ok a) -> replays (query w f) d a.
Proof. intros Hf. apply replays_statement. intros n d2 Hl. by rewrite (Hf _ Hl). Qed.
(** A query whose answer may change, if what follows does not mind. *)
Lemma replays_query_bind {A B} w (f : PromDB -> result A) (k : A -> go B) d b :
  (forall d2, later d d2 -> exists a, f d2 = Ok a /\ replays (k a) d2 b) -> replays (query w f ≫= k) d b.
Proof.
  intros Hf s Hl Hq. destruct (Hf _ Hl) as (a & Ha & Hk). pose proof (query_quiet w f a s (Hq _ (Nat.le_refl _)) Ha) as Hr.
  rewrite (bind_quiet _ _ _ _ _ Hr). destruct Hl as (_ & Hl). destruct (Hk (SQL.mkSession (db s) (S (tick s)))) as (n & Hn & Hs).
  - done.
  - intros k' ?. apply Hq. cbn in *. lia.
  - exists n. cbn in *. split; [lia|done].
Qed.
Lemma replays_exec w (f : PromDB -> result PromDB) d :
  (forall d2, later d d2 -> f d2 = Ok d2) -> replays (exec w f) d ().
Proof. intros Hf. apply replays_statement. intros n d2 Hl. by rewrite (Hf _ Hl). Qed.
Lemma replays_wrapped {A} w (m : go A) d a : replays m d a -> replays (wrapped w m) d a.
Proof. intros Hm s Hl Hq. destruct (Hm s Hl Hq) as (n & Hn & Hr). exists n. unfold wrapped. by rewrite Hr. Qed.
Lemma replays_attempt {A} (m : go A) d a : replays m d a -> replays (attempt m) d (Ok a).
Proof. intros Hm s Hl Hq. destruct (Hm s Hl Hq) as (n & Hn & Hr). exists n. unfold attempt. by rewrite Hr. Qed.

Lemma wrapped_run {A} w (m : go A) s s' a : wrapped w m s = (s', Ok a) -> m s = (s', Ok a).
Proof. unfold wrapped. destruct (m s) as [s1 [x|e]]; cbn; intros [=]; by subst. Qed.

Lemma repeats_bind {A B} (m m' : go A) (k k' : A -> go B) :
  repeats m m' -> (forall a, repeats (k a) (k' a)) -> repeats (m ≫= k) (m' ≫= k').
Proof.
  intros Hm Hk s s' b Hu (a & s1 & H1 & H2)%bind_run. destruct (Hm _ _ _ Hu H1) as (U1 & E1 & R1).
  destruct (Hk _ _ _ _ U1 H2) as (U2 & E2 & R2). split; [done|]. split; [by etrans|].
  eapply replays_bind; [by eapply replays_mono|done].
Qed.
Lemma repeats_ret {A} (a : A) : repeats (mret a) (mret a).
Proof. intros s s' b Hu [-> ->]%ret_run. split_and!; [done..|apply replays_ret]. Qed.
Lemma repeats_lift {A} (r : result A) : repeats (lift r) (lift r).
Proof. intros s s' b Hu [-> ->]%lift_run. split_and!; [done..|by apply replays_lift]. Qed.
Lemma repeats_failing {A} e : repeats (failing (A := A) e) (failing e).
Proof. intros s s' b Hu []%failing_run. Qed.
Lemma repeats_wrapped {A} w (m m' : go A) : repeats m m' -> repeats (wrapped w m) (wrapped w m').
Proof. intros Hm s s' a Hu Hr%wrapped_run. destruct (Hm _ _ _ Hu Hr) as (? & ? & ?). split_and!; [done..|by apply replays_wrapped]. Qed.
(** A query whose answer lasts. *)
Lemma repeats_query {A} w (f : PromDB -> result A) :
  (forall d d2 a, later d d2 -> f d = Ok a -> f d2 = Ok a) -> repeats (query w f) (query w f).
Proof.
  intros Hf s s' a Hu [Hs Ha]%query_run. rewrite Hs. split_and!; [done..|]. apply replays_query. intros d2 Hl. by eapply Hf.
Qed.
(** A statement that adds rows unless they are there. *)
Lemma repeats_statement {A} w (f f' : nat -> PromDB -> result (PromDB * A)) :
  (forall n d d1 a, unique_rows d -> f n d = Ok (d1, a) ->
     unique_rows d1 /\ extends d d1 /\ forall n' d2, later d1 d2 -> f' n' d2 = Ok (d2, a)) ->
  repeats (statement w f) (statement w f').
Proof.
  intros Hf s s' a Hu [n Hn]%statement_run. destruct (Hf _ _ _ _ Hu Hn) as (U1 & E1 & R1).
  split_and!; [done..|]. by apply replays_statement.
Qed.
Lemma repeats_exec w (f f' : PromDB -> result PromDB) :
  (forall d d1, unique_rows d -> f d = Ok d1 -> unique_rows d1 /\ extends d d1 /\ forall d2, later d1 d2 -> f' d2 = Ok d2) ->
  repeats (exec w f) (exec w f').
Proof.
  intros Hf. apply repeats_statement. intros n d d1 [] Hu H. go_inv. simplify_eq. destruct (Hf _ _ Hu Hok) as (U & X & R).
  split_and!; [done..|]. intros n' d2 Hl. by rewrite (R _ Hl).
Qed.
Lemma repeats_foldM {A S} (f f' : S -> A -> go S) l : forall st,
  (forall st x, repeats (f st x) (f' st x)) -> repeats (foldM f st l) (foldM f' st l).
Proof.
  induction l as [|x l IH]; intros st Hf; cbn; [apply repeats_ret|]. apply repeats_bind; [apply Hf|]. intros st'. by apply IH.
Qed.

(** ** [Promote] against an idempotent repository *)
Record idempotent (repo repo' : Repository PromDB) : Prop := mkIdempotent {
  im_user : forall b i, repeats (EnsureApprovedUser repo b i) (EnsureApprovedUser repo' b i);
  im_opening : forall b i, repeats (EnsureOpeningBalance repo b i) (EnsureOpeningBalance repo' b i);
  im_settlement : forall b i, repeats (EnsureSeasonSettlement repo b i) (EnsureSeasonSettlement repo' b i);
  im_transaction : forall b u r, repeats (EnsureLegacyTransaction repo b u r) (EnsureLegacyTransaction repo' b u r);
  im_wager : forall b u r, repeats (EnsureLegacyWager repo b u r) (EnsureLegacyWager repo' b u r);
  im_complete : forall b i, repeats (CompletePromotion repo b i) (CompletePromotion repo' b i)
}.

Lemma promotion_repeats report options repo repo' :
  idempotent repo repo' -> repeats (promotion report options repo) (promotion report options repo').
Proof.
  intros [Hu Ho Hs Ht Hw Hc]. unfold promotion. apply repeats_bind.
  { apply repeats_foldM. intros [result userIDs] user. unfold promote_user. destruct (negb _); [apply repeats_failing|].
    apply repeats_bind; [by apply repeats_wrapped|]. intros userID. apply repeats_bind; [|intros; apply repeats_ret].
    apply repeats_foldM. intros st [[[accountType amount] net] diff]. unfold promote_balance.
    destruct (amount =? 0); [apply repeats_ret|]. apply repeats_bind; [by apply repeats_wrapped|]. intros _.
    apply repeats_bind; [by apply repeats_wrapped|]. intros _. apply repeats_ret. }
  intros [result userIDs]. apply repeats_bind.
  { apply repeats_foldM. intros st t. unfold promote_transaction. case_bool_decide; [apply repeats_failing|].
    apply repeats_bind; [by apply repeats_wrapped|]. intros _. apply repeats_ret. }
  intros result'. apply repeats_bind.
  { apply repeats_foldM. intros st w. unfold promote_wager. case_bool_decide; [apply repeats_failing|].
    apply repeats_bind; [by apply repeats_wrapped|]. intros _. apply repeats_ret. }
  intros result''. apply repeats_bind; [by apply repeats_wrapped|]. intros _. apply repeats_ret.
Qed.

End repeat.
