(* ===== verification/PromotionStore.v ===== *)
(** * The PostgreSQL repository is idempotent

    Each operation of [PromotionPG] adds at most its own rows and repeats in
    every later state; with [PromotionRepeat] the whole promotion and the
    command around it do. *)
From S2P Require Import Prelude GoStrings GoTime Float64 SQL Keeping Ledger Identity Base64 Session IdentityDB LegacyBook Promotion PromotionPG PromotionRepeat.

(** ** Adding rows *)
(** The absence of a row with a new key, from the check before its insert. *)
Ltac fresh_rows :=
  repeat match goal with H : ~ is_Some (_ !! _) |- _ => apply eq_None_not_Some in H end.

Lemma lookup_extended `{Countable K} {V} (m m' : gmap K V) k v : <[k := v]> m ⊆ m' -> m' !! k = Some v.
Proof. intros Hs. eapply lookup_weaken; [apply lookup_insert_eq|exact Hs]. Qed.

Section rows.
Context (pg_lower : string -> string).
Implicit Types d : PromDB.
Local Abbreviation unique_rows := (unique_rows pg_lower).

Lemma extends_import d k r : import_records d !! k = None -> extends d (with_import_records (<[k := r]> (import_records d)) d).
Proof.
  intros Hk. split; cbn; try done; [intros uid u Hu; exists u; by split|by apply insert_subseteq|intros id b Hb; exists b; by split].
Qed.
Lemma extends_mapping d k r : user_mappings d !! k = None -> extends d (with_user_mappings (<[k := r]> (user_mappings d)) d).
Proof.
  intros Hk. split; cbn; try done; [intros uid u Hu; exists u; by split|by apply insert_subseteq|intros id b Hb; exists b; by split].
Qed.
Lemma extends_transaction d k r :
  history_transactions d !! k = None -> extends d (with_history_transactions (<[k := r]> (history_transactions d)) d).
Proof.
  intros Hk. split; cbn; try done; [intros uid u Hu; exists u; by split|by apply insert_subseteq|intros id b Hb; exists b; by split].
Qed.
Lemma extends_wager d k r : history_wagers d !! k = None -> extends d (with_history_wagers (<[k := r]> (history_wagers d)) d).
Proof.
  intros Hk. split; cbn; try done; [intros uid u Hu; exists u; by split|by apply insert_subseteq|intros id b Hb; exists b; by split].
Qed.
Lemma extends_account d k r : ledger_accounts d !! k = None -> extends d (with_ledger_accounts (<[k := r]> (ledger_accounts d)) d).
Proof.
  intros Hk. split; cbn; try done; [intros uid u Hu; exists u; by split|by apply insert_subseteq|intros id b Hb; exists b; by split].
Qed.
Lemma extends_ledger d k r : ledger_txs d !! k = None -> extends d (with_ledger_txs (<[k := r]> (ledger_txs d)) d).
Proof.
  intros Hk. split; cbn; try done; [intros uid u Hu; exists u; by split|by apply insert_subseteq|intros id b Hb; exists b; by split].
Qed.
Lemma extends_user d uid row :
  id_users (people d) !! uid = None ->
  extends d (with_people (with_id_users (<[uid := row]> (id_users (people d))) (people d)) d).
Proof.
  intros Hk. split; cbn; try done; [|intros id b Hb; exists b; by split].
  intros uid' u Hu. exists u. split; [|done]. rewrite lookup_insert_ne; [done|]. intros ->. congruence.
Qed.
Lemma extends_role d mid m :
  memberships (people d) !! mid = None ->
  extends d (with_people (with_memberships (<[mid := m]> (memberships (people d))) (people d)) d).
Proof.
  intros Hk. split; cbn; try done; [intros uid u Hu; exists u; by split| |intros id b Hb; exists b; by split].
  intros user r (i & x & Hi & Hx). exists i, x. split; [|done]. cbn. rewrite lookup_insert_ne; [done|]. intros ->. congruence.
Qed.
Lemma extends_audit d x : extends d (with_people (with_id_audit x (people d)) d).
Proof. split; cbn; try done; [intros uid u Hu; exists u; by split|intros id b Hb; exists b; by split]. Qed.

Lemma unique_same d d' : people d' = people d -> batches d' = batches d -> unique_rows d -> unique_rows d'.
Proof. intros Hp Hb [H1 H2 H3]. split; rewrite ?Hp, ?Hb; done. Qed.

(** The role a user holds is the one the lookup finds. *)
Lemma role_found d user r :
  unique_rows d -> holds_role user r d -> exists mid m, active_membership user (people d) = Some (mid, m) /\ mb_role m = r.
Proof.
  intros Hu (mid & m & Hm & Hmu & Hl & Hr). exists mid, m. split; [|done]. apply find_row_unique; [done| |].
  - by rewrite (bool_decide_true _ Hmu), Hl.
  - intros k x Hk Hx. bool_prop. eapply (one_role _ _ Hu); [done..|congruence].
Qed.
Lemma active_holds d user mid m : active_membership user (people d) = Some (mid, m) -> holds_role user (mb_role m) d.
Proof. intros [Hm Hx]%find_row_Some. bool_prop. by exists mid, m. Qed.
Lemma role_text_of t : (match role_of_text t with RoleOther _ => false | _ => true end) = true -> role_text (role_of_text t) = t.
Proof. unfold role_of_text. by repeat case_bool_decide. Qed.
End rows.

Section repository.
Context {E : environment}.
Context (pg_lower : string -> string) (equal_fold : string -> string -> bool).
Context (sha256 : list ascii -> Digest) (json_marshal : checksummed -> result (list ascii)).
Implicit Types d : PromDB.
#[local] Abbreviation unique_rows := (unique_rows pg_lower).
#[local] Abbreviation later := (later pg_lower).
#[local] Abbreviation repeats := (repeats pg_lower).
#[local] Abbreviation replays := (replays pg_lower).
#[local] Abbreviation verifyUser := (verifyUser equal_fold).
#[local] Abbreviation checksum := (checksum sha256 json_marshal).

(** *** Users *)
Lemma verifyUser_repeats uid input : repeats (verifyUser uid input) (verifyUser uid input).
Proof.
  intros s s' a Hu. unfold PromotionPG.verifyUser. intros H. run_inv; simplify_eq. rewrite H0.
  split_and!; [done..|]. apply replays_query_bind. intros d2 Hl.
  destruct (id_users (people (db s)) !! uid) as [u|] eqn:Hx; [|done]. cbn in H1. simplify_eq.
  destruct (ex_users _ _ (proj1 Hl) _ _ Hx) as (u' & Hu' & K1 & K2 & K3). exists u'. rewrite Hu'. split; [done|].
  unfold user_matches in *. rewrite K1, K2, K3, Hc, Hc0. apply replays_ret.
Qed.

Lemma ensureMembership_repeats t t' uid role actor : repeats (ensureMembership t uid role actor) (ensureMembership t' uid role actor).
Proof.
  intros s s' [] Hu. unfold ensureMembership. intros H.
  assert (Hk : unique_rows (db s') /\ extends (db s) (db s') /\ exists r, role_text r = role /\ holds_role uid r (db s')).
  { apply bind_run in H as (found & s1 & [Hs Hf]%query_run & H). simplify_eq.
    destruct (active_membership uid (people (db s))) as [[mid m]|] eqn:Ha; run_inv.
    - simplify_eq. rewrite Hs. bool_prop. split_and!; [done..|]. exists (mb_role m). split; [done|]. by eapply active_holds.
    - apply statement_run in H as (n & H). go_inv. simplify_eq. unfold insert_role in Hok0. go_inv. rewrite Hs in *.
      bool_prop. fresh_rows. rewrite <- Hok0. split_and!.
      + destruct Hu as [Hr He Hb]. split; cbn; [|exact He|exact Hb].
        intros i j x y [[<- <-]|[? Hx]]%lookup_insert_Some [[<- <-]|[? Hy]]%lookup_insert_Some Hlx Hly Hxy; cbn in *; [done| | |by eapply Hr].
        * exfalso. apply (find_row_None _ _ _ _ Ha) in Hy. rewrite <- Hxy, bool_decide_true, Hly in Hy; done.
        * exfalso. apply (find_row_None _ _ _ _ Ha) in Hx. rewrite Hxy, bool_decide_true, Hlx in Hx; done.
      + by apply extends_role.
      + exists (role_of_text role). split; [apply role_text_of|].
        { destruct (role_of_text role) eqn:Er; [done..|]. by rewrite ?Er in *. }
        eexists _, _. cbn. split; [apply lookup_insert_eq|]. done. }
  destruct Hk as (Hu' & He & r & <- & Hr). split_and!; [done..|]. apply replays_query_bind. intros d2 (Hx & Hu2 & _).
  destruct (role_found _ _ _ _ Hu2 (ex_roles _ _ Hx _ _ Hr)) as (mid & m & Ha & <-).
  eexists. split; [by rewrite Ha|]. cbn. rewrite bool_decide_true by done. apply replays_ret.
Qed.

Lemma insert_mapping_repeats t t' b uid sum input :
  repeats (exec "%w" (insert_mapping t b uid sum input)) (exec "%w" (insert_mapping t' b uid sum input)).
Proof.
  apply repeats_exec. intros d d1 Hu H. unfold insert_mapping in *. go_inv. rewrite Hok. cbn [mbind result_bind].
  rewrite Hok0. destruct (user_mappings d !! UI_LegacyUserID input) as [row|] eqn:Hm; go_inv.
  - subst. split_and!; [done..|]. intros d2 (Hx & _). cbn. by rewrite (lookup_weaken _ _ _ _ Hm (ex_mappings _ _ Hx)).
  - split_and!; [by apply (unique_same _ d)|by apply extends_mapping|]. intros d2 (Hx & _). cbn.
    by rewrite (lookup_extended _ _ _ _ (ex_mappings _ _ Hx)).
Qed.
Lemma ensureUserMapping_repeats t t' b uid sum input :
  repeats (ensureUserMapping t b uid sum input) (ensureUserMapping t' b uid sum input).
Proof.
  unfold ensureUserMapping, verifyUserMapping. apply repeats_bind; [apply insert_mapping_repeats|]. intros _.
  apply repeats_bind; [|intros row; destruct (negb _); [apply repeats_failing|apply repeats_ret]].
  apply repeats_query. intros d d2 row (Hx & _) H. destruct (user_mappings d !! _) eqn:Hm; [|done].
  by rewrite (lookup_weaken _ _ _ _ Hm (ex_mappings _ _ Hx)).
Qed.

(** An import record lasts. *)
Lemma import_of_lasts b table key d d2 r : extends d d2 -> import_of b table key d = Ok (Some r) -> import_of b table key d2 = Ok (Some r).
Proof.
  intros Hx H. unfold import_of in *. go_inv. rewrite Hok. cbn. f_equal. by apply (lookup_weaken _ _ _ _ H), ex_imports.
Qed.
Lemma insert_import_repeats t t' b table key tt target sum :
  repeats (exec "%w" (insert_import t b table key tt target sum)) (exec "%w" (insert_import t' b table key tt target sum)).
Proof.
  apply repeats_exec. intros d d1 Hu H. unfold insert_import in *. go_inv. rewrite Hok. cbn [mbind result_bind].
  destruct (import_records d !! _) as [row|] eqn:Hm; go_inv.
  - subst. split_and!; [done..|]. intros d2 (Hx & _). by rewrite (lookup_weaken _ _ _ _ Hm (ex_imports _ _ Hx)).
  - split_and!; [by apply (unique_same _ d)|by apply extends_import|]. intros d2 (Hx & _).
    by rewrite (lookup_extended _ _ _ _ (ex_imports _ _ Hx)).
Qed.
Lemma insert_import_run t b table key tt target sum s s' u :
  exec "%w" (insert_import t b table key tt target sum) s = (s', Ok u) -> import_of b table key (db s) = Ok None ->
  exists at_, import_of b table key (db s') = Ok (Some (mkImportRow (Some tt) (Some target) sum "imported" (Some at_))).
Proof.
  intros H%exec_run Hn. unfold import_of, insert_import in *. destruct (cast b) as [c|]; [|done]. cbn in *.
  injection Hn as Hn. rewrite Hn in H. go_inv. rewrite <- H. exists t. cbn. by rewrite lookup_insert_eq.
Qed.

(** The operations before the import record leave the imports alone. *)
Definition same_imports (d d' : PromDB) : Prop := import_records d' = import_records d.
#[local] Instance same_imports_preorder : PreOrder same_imports.
Proof. split; [done|]. intros x y z H1 H2. unfold same_imports in *. congruence. Qed.
Lemma keeps_find_or_create input : keeps same_imports (find_or_create_user pg_lower input).
Proof.
  unfold find_or_create_user. keeps. apply keeps_statement; [apply _|]. intros n d d' a H. unfold insert_promoted_user in H. go_inv. by simplify_eq.
Qed.
Lemma keeps_verifyUser uid input : keeps same_imports (verifyUser uid input).
Proof. unfold PromotionPG.verifyUser. keeps. Qed.
Lemma keeps_ensureMembership t uid role actor : keeps same_imports (ensureMembership t uid role actor).
Proof.
  unfold ensureMembership. keeps. apply keeps_statement; [apply _|]. intros n d d' a H. go_inv. simplify_eq. unfold insert_role in Hok0. go_inv. by simplify_eq.
Qed.

Lemma find_or_create_run input s s' uid :
  unique_rows (db s) -> find_or_create_user pg_lower input s = (s', Ok uid) -> unique_rows (db s') /\ extends (db s) (db s').
Proof.
  intros Hu H. unfold find_or_create_user in H. apply bind_run in H as (found & s1 & H1 & H).
  assert (Hs : db s1 = db s) by (case_bool_decide; run_inv; by simplify_eq).
  destruct found as [[x y]|]; [assert (db s' = db s) as -> by (run_inv; congruence); done|]. apply statement_run in H as (n & H).
  unfold insert_promoted_user in H. go_inv. match goal with H : _ = db s' |- _ => rewrite <- H; clear H end. bool_prop. unfold user_exists in *. rewrite Hs in *.
  bool_prop. fresh_rows. split; [|by apply extends_user].
  destruct Hu as [Hr He Hb]. split; cbn; [exact Hr| |exact Hb].
  set (email := if bool_decide (UI_Email input = ""%string) then None else Some (UI_Email input)) in *.
  assert (Hno : forall k x e, id_users (people (db s)) !! k = Some x -> pg_lower <$> iu_email x = Some e -> pg_lower <$> email = Some e -> False).
  { intros k x e Hk Hx Hem. destruct email as [e0|]; [|done]. cbn in Hem. injection Hem as <-. bool_prop.
    match goal with H : ~ is_Some (user_by_email _ _ _) |- _ => apply H end. unfold user_by_email.
    eapply find_row_is_Some; [exact Hk|]. by apply bool_decide_eq_true. }
  intros i j x y e [[<- <-]|[? Hx]]%lookup_insert_Some [[<- <-]|[? Hy]]%lookup_insert_Some Hex Hey; cbn in *;
    [done|exfalso; by eapply (Hno j)|exfalso; by eapply (Hno i)|by eapply He].
Qed.

Lemma ensureApprovedUser_repeats t t' b input :
  repeats (ensureApprovedUser pg_lower equal_fold sha256 json_marshal t b input)
          (ensureApprovedUser pg_lower equal_fold sha256 json_marshal t' b input).
Proof.
  unfold ensureApprovedUser. apply repeats_bind; [apply repeats_lift|]. intros sum s s' uid Hu H.
  apply bind_run in H as (found & s1 & [Hs Hf]%query_run & H). go_inv.
  assert (Hend : unique_rows (db s') /\ extends (db s) (db s')
    /\ (exists row, import_of b "Users" (sprint_d (UI_LegacyUserID input)) (db s') = Ok (Some row)
          /\ im_target_id row = Some uid /\ im_checksum row = sum)
    /\ replays (verifyUser uid input) (db s') uid
    /\ replays (ensureMembership t' uid (UI_Role input) (UI_ActorUserID input)) (db s') ()
    /\ replays (ensureUserMapping t' b uid sum input) (db s') ()).
  { destruct found as [[userID stored]|].
    - destruct v as [row|]; go_inv; [|done]. destruct (im_target_id row) as [target|] eqn:Ht; [|done]. cbn in Hok0. simplify_eq.
      destruct (negb _) eqn:Hc in H; [done|]. bool_prop. rewrite <- Hs in Hu.
      apply bind_run in H as (u1 & s2 & H1 & H). destruct (verifyUser_repeats _ _ _ _ _ Hu H1) as (U1 & E1 & R1).
      apply bind_run in H as (u2 & s3 & H2 & H). destruct (ensureMembership_repeats t t' _ _ _ _ _ _ U1 H2) as (U2 & E2 & R2).
      apply bind_run in H as (u3 & s4 & H3 & [-> ->]%ret_run). destruct (ensureUserMapping_repeats t t' _ _ _ _ _ _ _ U2 H3) as (U3 & E3 & R3).
      destruct u2, u3. assert (u1 = userID) as -> by (unfold PromotionPG.verifyUser in H1; by run_inv).
      rewrite Hs in *. split_and!; [done|by do 2 (etrans; [eassumption|])| | | |done].
      + exists row. split; [|done]. eapply import_of_lasts; [|exact Hok]. by do 2 (etrans; [eassumption|]).
      + eapply replays_mono; [|exact R1]. by etrans.
      + by eapply replays_mono.
    - destruct v as [row|]; go_inv; [destruct (im_target_id row); cbn in Hok0; discriminate|]. rewrite <- Hs in *.
      apply bind_run in H as (userID & s2 & H0 & H). destruct (find_or_create_run _ _ _ _ Hu H0) as (U0 & E0).
      apply keeps_find_or_create in H0 as I0.
      apply bind_run in H as (u1 & s3 & H1 & H). destruct (verifyUser_repeats _ _ _ _ _ U0 H1) as (U1 & E1 & R1).
      apply keeps_verifyUser in H1 as I1.
      apply bind_run in H as (u2 & s4 & H2 & H). destruct (ensureMembership_repeats t t' _ _ _ _ _ _ U1 H2) as (U2 & E2 & R2).
      apply keeps_ensureMembership in H2 as I2.
      apply bind_run in H as (u3 & s5 & H3 & H). destruct (insert_import_repeats t t' _ _ _ _ _ _ _ _ _ U2 H3) as (U3 & E3 & R3).
      apply insert_import_run in H3 as (at_ & H3).
      2:{ unfold import_of, same_imports in *. by rewrite I2, I1, I0. }
      apply bind_run in H as (u4 & s6 & H4 & [-> ->]%ret_run). destruct (ensureUserMapping_repeats t t' _ _ _ _ _ _ _ U3 H4) as (U4 & E4 & R4).
      destruct u2, u4. assert (u1 = userID) as -> by (unfold PromotionPG.verifyUser in H1; by run_inv).
      split_and!; [done|by do 4 (etrans; [eassumption|])| | | |done].
      + eexists. split; [by eapply import_of_lasts|done].
      + eapply replays_mono; [|exact R1]. by do 2 (etrans; [eassumption|]).
      + eapply replays_mono; [|exact R2]. by etrans. }
  destruct Hend as (Hu' & Hx & (row & Hrow & Htarget & Hsum) & R1 & R2 & R3). split_and!; [done..|].
  eapply replays_bind with (a := Some (uid, sum)).
  { apply replays_query. intros d2 (Hx2 & _). rewrite (import_of_lasts _ _ _ _ _ _ Hx2 Hrow). cbn. by rewrite Htarget, Hsum. }
  cbn beta iota. rewrite bool_decide_true by done. cbn [negb].
  eapply replays_bind; [exact R1|]. eapply replays_bind; [exact R2|]. eapply replays_bind; [exact R3|]. apply replays_ret.
Qed.

(** *** Balances *)
Lemma verify_adjustment_repeats b table source currency key user equity actor reason uc ec value e1 e2 :
  repeats (verify_adjustment sha256 json_marshal b table source currency key user equity actor reason uc ec value e1 e2)
          (verify_adjustment sha256 json_marshal b table source currency key user equity actor reason uc ec value e1 e2).
Proof.
  unfold verify_adjustment. apply repeats_bind.
  { apply repeats_query. intros d d2 row (Hx & _) H. unfold adjustment_row in *.
    destruct (ledger_txs d !! (currency, key)) as [t|] eqn:Ht; [|done].
    by rewrite (lookup_weaken _ _ _ _ Ht (ex_ledger _ _ Hx)). }
  intros row. destruct (negb _); [apply repeats_failing|]. apply repeats_bind; [apply repeats_lift|]. intros sum.
  apply repeats_bind; [|intros stored; destruct (negb _); [apply repeats_failing|apply repeats_ret]].
  apply repeats_query. intros d d2 r (Hx & _) H. go_inv. destruct v as [row'|]; [|done].
  rewrite (import_of_lasts _ _ _ _ _ _ Hx Hok). exact H.
Qed.

(** The two inserts of an adjustment add its row with its postings. *)
Lemma insert_adjustment_new t id currency key actor reason d d1 :
  insert_adjustment t id currency key actor reason d = Ok (d1, Some id) ->
  ledger_txs d !! (currency, key) = None /\ map_Forall (fun _ r => tx_id r <> id) (ledger_txs d)
  /\ exists a, actor_column actor = Ok a
     /\ d1 = with_ledger_txs (<[(currency, key) := mkLedgerTxRow id "migration_adjustment" SourceSystem a (Some reason) 2 t []]>
               (ledger_txs d)) d.
Proof.
  unfold insert_adjustment. intros H. go_inv. destruct (ledger_txs d !! _) as [r|] eqn:Hk; go_inv; [simplify_eq|].
  simplify_eq. split; [done|]. split; [|eauto]. bool_prop. intros k r Hr Hid.
  match goal with H : ~ map_Exists _ _ |- _ => apply H end. by exists k, r.
Qed.
Lemma insert_entries_new id k row entries d d1 :
  map_Forall (fun _ r => tx_id r <> id) (ledger_txs d) -> tx_id row = id -> tx_postings row = [] ->
  insert_entries id entries (with_ledger_txs (<[k := row]> (ledger_txs d)) d) = Ok d1 ->
  d1 = with_ledger_txs (<[k := mkLedgerTxRow id (tx_type row) (tx_source_type row) (tx_actor row) (tx_reason row) (tx_expected row)
                                (tx_occurred_at row) entries]> (ledger_txs d)) d.
Proof.
  intros Hf <- Hp H. unfold insert_entries in H. go_inv. cbn [ledger_txs with_ledger_txs]. unfold with_ledger_txs at 1.
  cbn. unfold with_ledger_txs. f_equal. rewrite fmap_insert. unfold add_entries at 1. rewrite bool_decide_true, Hp by done. f_equal.
  apply map_eq. intros j. rewrite lookup_fmap. destruct (ledger_txs d !! j) as [r|] eqn:Hj; [|done]. cbn. f_equal.
  unfold add_entries. by rewrite bool_decide_false by by apply (Hf j).
Qed.

(** What [post_adjustment] leaves of its transaction. *)
Definition posted (currency key : string) (entries : list (string * Z)) (d d' : PromDB) : Prop :=
  (ledger_txs d' = ledger_txs d /\ is_Some (ledger_txs d !! (currency, key)))
  \/ (ledger_txs d !! (currency, key) = None
     /\ exists row, ledger_txs d' = <[(currency, key) := row]> (ledger_txs d) /\ tx_postings row = entries).

Section post.
Variables (t t' : Time) (b table source currency key user equity actor reason : string) (up ep : Z) (value : checksummed).
Variable verify : SQL.go PromDB ().
Hypothesis Hverify : repeats verify verify.
Hypothesis Hquiet : forall s s' u, verify s = (s', Ok u) -> db s' = db s.

Lemma post_adjustment_run s s' u :
  unique_rows (db s) ->
  post_adjustment sha256 json_marshal t b table source currency key user equity actor reason up ep value verify s = (s', Ok u) ->
  (unique_rows (db s') /\ extends (db s) (db s'))
  /\ posted currency key [(user, up); (equity, ep)] (db s) (db s')
  /\ (exists a, actor_column actor = Ok a) /\ replays verify (db s') ()
  /\ ledger_accounts (db s') = ledger_accounts (db s) /\ exists s0, db s0 = db s' /\ verify s0 = (s', Ok u).
Proof.
  intros Hu H. unfold post_adjustment in H. apply bind_run in H as (id & s1 & [n Hi]%statement_run & H). destruct id as [id|].
  - assert (id = gen_uuid n) as -> by (unfold insert_adjustment in Hi; go_inv; destruct (_ !! _); go_inv; by simplify_eq).
    apply insert_adjustment_new in Hi as (Hk & Hf & a & Ha & E1).
    apply bind_run in H as (u1 & s2 & H1%exec_run & H). rewrite E1 in H1.
    apply insert_entries_new in H1 as E2; [|done..]. cbn in E2.
    apply bind_run in H as (sum & s3 & [-> Hsum]%lift_run & H). apply bind_run in H as (u2 & s4 & H2 & H).
    assert (U2 : unique_rows (db s2)) by (rewrite E2; by apply (unique_same _ (db s))).
    destruct (insert_import_repeats t t' _ _ _ _ _ _ _ _ _ U2 H2) as (U3 & E3 & _).
    destruct (Hverify _ _ _ U3 H) as (U4 & E4 & R4). pose proof (Hquiet _ _ _ H) as Hs. destruct u.
    assert (Hl : ledger_txs (db s4) = ledger_txs (db s2) /\ ledger_accounts (db s4) = ledger_accounts (db s2)).
    { apply exec_run in H2. unfold insert_import in H2. go_inv. destruct (_ !! _); go_inv; by rewrite <- H2. }
    destruct Hl as [Hl1 Hl2]. split_and!; [done| |right|by exists a|done| |by exists s4].
    + etrans; [|exact E4]. etrans; [|exact E3]. rewrite E2. by apply extends_ledger.
    + split; [done|]. eexists. rewrite Hs, Hl1, E2. split; reflexivity.
    + by rewrite Hs, Hl2, E2.
  - unfold insert_adjustment in Hi. go_inv. destruct (ledger_txs (db s) !! _) as [r|] eqn:Hr; go_inv; simplify_eq.
    rewrite Hi in *. destruct (Hverify s1 _ _ Hu H) as (U1 & E1 & R1). destruct u.
    pose proof (Hquiet _ _ _ H) as Hs. split_and!; [done|done|left; rewrite Hs; eauto|by eauto|done|by rewrite Hs|by exists s1].
Qed.

Lemma post_adjustment_repeats :
  repeats (post_adjustment sha256 json_marshal t b table source currency key user equity actor reason up ep value verify)
          (post_adjustment sha256 json_marshal t' b table source currency key user equity actor reason up ep value verify).
Proof.
  intros s s' [] Hu H. destruct (post_adjustment_run _ _ _ Hu H) as ([U1 E1] & Hp & [a Ha] & R & _ & _). split_and!; [done..|].
  eapply replays_bind with (a := None); [|exact R]. apply replays_statement. intros n d2 (Hx & _).
  assert (Hk : is_Some (ledger_txs (db s') !! (currency, key))).
  { destruct Hp as [[-> Hk]|(_ & row & -> & _)]; [done|]. rewrite lookup_insert_eq. eauto. }
  destruct Hk as [r Hr]. unfold insert_adjustment. rewrite Ha. cbn. by rewrite (lookup_weaken _ _ _ _ Hr (ex_ledger _ _ Hx)).
Qed.
End post.

Lemma verify_adjustment_db b table source currency key user equity actor reason uc ec value e1 e2 s s' u :
  verify_adjustment sha256 json_marshal b table source currency key user equity actor reason uc ec value e1 e2 s = (s', Ok u) ->
  db s' = db s.
Proof. unfold verify_adjustment. intros H. run_inv; simplify_eq. congruence. Qed.

Lemma upsert_repeats w k (check : PromDB -> bool) :
  (forall d d2, extends d d2 -> check d = false -> check d2 = false) ->
  repeats (statement w (fun n d => fail_if (check d) foreign_violation;; upsert_ledger_account k (gen_uuid n) d))
          (statement w (fun n d => fail_if (check d) foreign_violation;; upsert_ledger_account k (gen_uuid n) d)).
Proof.
  intros Hcheck. apply repeats_statement. intros n d d1 id Hu H. go_inv. unfold upsert_ledger_account in *.
  destruct (ledger_accounts d !! k) as [x|] eqn:Hk; go_inv; simplify_eq.
  - split_and!; [done..|]. intros n' d2 (Hx & _). rewrite (Hcheck _ _ Hx Hok). cbn.
    by rewrite (lookup_weaken _ _ _ _ Hk (ex_accounts _ _ Hx)).
  - split_and!; [by apply (unique_same _ d)|by apply extends_account|]. intros n' d2 (Hx & _).
    rewrite (Hcheck d d2); [|etrans; [by apply extends_account|exact Hx]|done]. cbn. by rewrite (lookup_extended _ _ _ _ (ex_accounts _ _ Hx)).
Qed.
Lemma user_exists_lasts uid d d2 : extends d d2 -> negb (user_exists uid d) = false -> negb (user_exists uid d2) = false.
Proof.
  unfold user_exists. intros Hx H. bool_prop. apply negb_false_iff, bool_decide_eq_true. destruct H as [u Hu].
  destruct (ex_users _ _ Hx _ _ Hu) as (u' & H' & _). eauto.
Qed.

Lemma ensureOpeningBalance_repeats t t' b input :
  repeats (ensureOpeningBalance sha256 json_marshal t b input) (ensureOpeningBalance sha256 json_marshal t' b input).
Proof.
  unfold ensureOpeningBalance. apply repeats_bind; [apply repeats_lift|]. intros [up ep].
  apply repeats_bind; [apply upsert_repeats, user_exists_lasts|]. intros user.
  apply repeats_bind; [exact (upsert_repeats _ _ (fun _ => false) (fun _ _ _ H => H))|]. intros equity.
  apply post_adjustment_repeats; [apply verify_adjustment_repeats|intros s s' u; apply verify_adjustment_db].
Qed.
Lemma account_lasts k d d2 id : later d d2 -> must_find (ledger_accounts d !! k) = Ok id -> must_find (ledger_accounts d2 !! k) = Ok id.
Proof.
  intros (Hx & _) H. destruct (ledger_accounts d !! k) eqn:Hk; [|done]. by rewrite (lookup_weaken _ _ _ _ Hk (ex_accounts _ _ Hx)).
Qed.
Lemma ensureSeasonSettlement_repeats t t' b input :
  repeats (ensureSeasonSettlement sha256 json_marshal t b input) (ensureSeasonSettlement sha256 json_marshal t' b input).
Proof.
  unfold ensureSeasonSettlement. apply repeats_bind; [apply repeats_lift|]. intros [up ep].
  apply repeats_bind; [apply repeats_query; intros *; apply account_lasts|]. intros user.
  apply repeats_bind; [apply repeats_query; intros *; apply account_lasts|]. intros equity.
  apply post_adjustment_repeats; [apply verify_adjustment_repeats|intros s s' u; apply verify_adjustment_db].
Qed.

(** *** History *)
Lemma ensureLegacyTransaction_repeats b uid record :
  repeats (ensureLegacyTransaction sha256 json_marshal b uid record) (ensureLegacyTransaction sha256 json_marshal b uid record).
Proof.
  unfold ensureLegacyTransaction. apply repeats_bind; [apply repeats_lift|]. intros sum. apply repeats_bind.
  { apply repeats_exec. intros d d1 Hu H. unfold insert_history_transaction in *. go_inv. rewrite Hok. cbn [mbind result_bind].
    rewrite Hok0. destruct (history_transactions d !! _) as [row|] eqn:Hm; go_inv.
    - subst. split_and!; [done..|]. intros d2 (Hx & _). cbn. by rewrite (lookup_weaken _ _ _ _ Hm (ex_transactions _ _ Hx)).
    - split_and!; [by apply (unique_same _ d)|by apply extends_transaction|]. intros d2 (Hx & _). cbn.
      by rewrite (lookup_extended _ _ _ _ (ex_transactions _ _ Hx)). }
  intros _. apply repeats_bind; [|intros row; destruct (negb _); [apply repeats_failing|apply repeats_ret]].
  apply repeats_query. intros d d2 row (Hx & _) H. destruct (history_transactions d !! _) eqn:Hm; [|done].
  by rewrite (lookup_weaken _ _ _ _ Hm (ex_transactions _ _ Hx)).
Qed.
Lemma ensureLegacyWager_repeats b uid record :
  repeats (ensureLegacyWager sha256 json_marshal b uid record) (ensureLegacyWager sha256 json_marshal b uid record).
Proof.
  unfold ensureLegacyWager. apply repeats_bind; [apply repeats_lift|]. intros sum. apply repeats_bind.
  { apply repeats_exec. intros d d1 Hu H. unfold insert_history_wager in *. go_inv. rewrite Hok. cbn [mbind result_bind].
    rewrite Hok0. cbn [mbind result_bind]. rewrite Hok1. destruct (history_wagers d !! _) as [row|] eqn:Hm; go_inv.
    - subst. split_and!; [done..|]. intros d2 (Hx & _). cbn. by rewrite (lookup_weaken _ _ _ _ Hm (ex_wagers _ _ Hx)).
    - split_and!; [by apply (unique_same _ d)|by apply extends_wager|]. intros d2 (Hx & _). cbn.
      by rewrite (lookup_extended _ _ _ _ (ex_wagers _ _ Hx)). }
  intros _. apply repeats_bind; [|intros row; destruct (negb _); [apply repeats_failing|apply repeats_ret]].
  apply repeats_query. intros d d2 row (Hx & _) H. destruct (history_wagers d !! _) eqn:Hm; [|done].
  by rewrite (lookup_weaken _ _ _ _ Hm (ex_wagers _ _ Hx)).
Qed.

(** *** Completion *)
Lemma record_completion_repeats t t' b sum :
  repeats (statement "%w" (fun _ => record_completion t b sum)) (statement "%w" (fun _ => record_completion t' b sum)).
Proof.
  apply repeats_statement. intros _ d d1 a Hu H. unfold record_completion in *. go_inv. rewrite Hok. cbn [mbind result_bind].
  destruct (import_records d !! _) as [row|] eqn:Hm; go_inv.
  - simplify_eq. split_and!; [done..|]. intros _ d2 (Hx & _). rewrite (lookup_weaken _ _ _ _ Hm (ex_imports _ _ Hx)). by rewrite Hok0.
  - simplify_eq. split_and!; [by apply (unique_same _ d)|by apply extends_import|]. intros _ d2 (Hx & _).
    by rewrite (lookup_extended _ _ _ _ (ex_imports _ _ Hx)).
Qed.

Definition promoted_batch (bid : string) (b : BatchRow) : Prop :=
  ba_state b = "promoted"%string /\ is_Some (ba_completed_at b).
Lemma mark_promoted_id t bid b : promoted_batch bid b -> mark_promoted t b = b.
Proof. destruct b as [a1 a2 st c1 c2 ca]. intros [Hs [x Hx]]. cbn in *. subst. done. Qed.
Lemma mark_promoted_kept t b : kept_batch b (mark_promoted t b).
Proof.
  unfold kept_batch, mark_promoted. destruct (promotable_state (ba_state b)) eqn:Hp; cbn; [|done].
  split_and!; try done. intros Hs. split; [done|]. by intros x ->.
Qed.
Lemma mark_promoted_done t bid b : promotable_state (ba_state b) = true -> promoted_batch bid (mark_promoted t b).
Proof. unfold mark_promoted. intros ->. split; [done|]. cbn. eauto. Qed.
Lemma promoted_kept bid b b' : kept_batch b b' -> promoted_batch bid b -> promoted_batch bid b'.
Proof. intros (_ & _ & _ & _ & Hk) [Hs [x Hx]]. destruct (Hk Hs) as [Hs' Ht]. split; [done|]. rewrite (Ht _ Hx). eauto. Qed.

(** The statements after the completion record. *)
Lemma extends_mark t bid d : extends d (with_batches (alter (mark_promoted t) bid (batches d)) d).
Proof.
  split; cbn; try done; [intros uid u Hu; exists u; by split|]. intros id b Hb.
  destruct (decide (id = bid)) as [->|Hne].
  - exists (mark_promoted t b). rewrite lookup_alter_eq, Hb. split; [done|]. apply mark_promoted_kept.
  - exists b. by rewrite lookup_alter_ne.
Qed.
Lemma unique_mark t bid d : unique_rows d -> unique_rows (with_batches (alter (mark_promoted t) bid (batches d)) d).
Proof.
  intros [H1 H2 H3]. split; cbn; [exact H1|exact H2|]. intros i j x y Hx Hy Hs Hv.
  assert (Ho : forall k z, alter (mark_promoted t) bid (batches d) !! k = Some z -> exists z0, batches d !! k = Some z0
    /\ ba_source_system z0 = ba_source_system z /\ ba_source_version z0 = ba_source_version z).
  { intros k z Hz. rewrite lookup_alter in Hz. case_decide; [subst k|by exists z]. destruct (batches d !! bid) as [z0|]; [|discriminate Hz].
    cbn in Hz. injection Hz as <-. exists z0. destruct (mark_promoted_kept t z0) as (-> & -> & _). done. }
  destruct (Ho _ _ Hx) as (x0 & Hx0 & Ex & Vx). destruct (Ho _ _ Hy) as (y0 & Hy0 & Ey & Vy).
  apply (H3 _ _ _ _ Hx0 Hy0); congruence.
Qed.
Lemma same_batches d : with_batches (batches d) d = d.
Proof. by destruct d. Qed.

Lemma completePromotion_run t t' b input s s' u :
  unique_rows (db s) -> completePromotion t b input s = (s', Ok u) ->
  (unique_rows (db s') /\ extends (db s) (db s') /\ replays (completePromotion t' b input) (db s') ())
  /\ exists bid row, cast b = Ok bid /\ batches (db s') !! bid = Some row /\ promoted_batch bid row.
Proof.
  intros Hu H. unfold completePromotion in H. apply bind_run in H as ([sum target] & s1 & H1 & H).
  destruct (record_completion_repeats t t' _ _ _ _ _ Hu H1) as (U1 & E1 & R1).
  destruct (negb _ || negb _) eqn:Hc in H; [done|].
  apply bind_run in H as (row & s2 & [Hs Hf]%query_run & H). go_inv.
  destruct (negb (promotable_state _)) eqn:Hp in H; [done|]. apply bind_run in H as (u1 & s3 & H3 & H%exec_run).
  rewrite Hok in H. cbn in H. injection H as H. apply negb_false_iff in Hp.
  destruct (batches (db s1) !! v) as [row'|] eqn:Hrow; [|done]. cbn in Hf. simplify_eq.
  assert (H3' : unique_rows (db s3) /\ extends (db s1) (db s3) /\ batches (db s3) = batches (db s1)).
  { case_bool_decide; [apply ret_run in H3 as [-> _]; by rewrite Hs|]. apply exec_run in H3. unfold audit_completion in H3. go_inv.
    rewrite <- H3, Hs. split_and!; [|apply extends_audit|done]. destruct U1 as [? ? ?]. by split. }
  destruct H3' as (U3 & E3 & B3).
  assert (Hmark : batches (db s') !! v = Some (mark_promoted t row)) by (rewrite <- H; cbn; by rewrite lookup_alter_eq, B3, Hrow).
  assert (Hex : extends (db s1) (db s')) by (etrans; [exact E3|]; rewrite <- H; apply extends_mark).
  split; [|exists v, (mark_promoted t row); split_and!; [done..|by apply (mark_promoted_done _ v)]].
  split_and!; [rewrite <- H; by apply unique_mark|by etrans|].
  unfold completePromotion. eapply replays_bind; [eapply replays_mono; [exact Hex|exact R1]|]. cbv beta iota. rewrite Hc.
  apply replays_query_bind. intros d2 (Hx & _). rewrite Hok. destruct (ex_batches _ _ Hx _ _ Hmark) as (row2 & Hr2 & Hk2).
  pose proof (promoted_kept v _ _ Hk2 (mark_promoted_done t v _ Hp)) as Hp2. exists row2. cbn. rewrite Hr2. split; [done|].
  destruct Hp2 as [Hs2 Hc2] eqn:Ep. rewrite Hs2. cbn.
  eapply replays_bind; [apply replays_ret|]. intros s4 (Hx4 & Hl4) Hq4.
  assert (He : exists row4, batches (db s4) !! v = Some row4 /\ promoted_batch v row4).
  { destruct (ex_batches _ _ Hx4 _ _ Hr2) as (row4 & Hr4 & Hk4). exists row4. split; [done|]. by eapply promoted_kept. }
  destruct He as (row4 & Hr4 & Hp4). exists (S (tick s4)). split; [lia|]. apply exec_quiet; [by apply Hq4|].
  rewrite alter_id; [by rewrite same_batches|]. intros x Hx'. rewrite Hr4 in Hx'. injection Hx' as <-. by apply (mark_promoted_id _ v).
Qed.

Lemma postgres_idempotent t t' :
  idempotent pg_lower (postgresRepository pg_lower equal_fold sha256 json_marshal t)
    (postgresRepository pg_lower equal_fold sha256 json_marshal t').
Proof.
  split; cbn.
  - intros b i. apply ensureApprovedUser_repeats.
  - intros b i. apply ensureOpeningBalance_repeats.
  - intros b i. apply ensureSeasonSettlement_repeats.
  - intros b u r. apply ensureLegacyTransaction_repeats.
  - intros b u r. apply ensureLegacyWager_repeats.
  - intros b i s s' [] Hu H. by destruct (completePromotion_run t t' _ _ _ _ _ Hu H) as [? _].
Qed.
End repository.
