(* ===== verification/PromotionProps.v ===== *)
(** * What a promotion does

    [Promote] on PostgreSQL can be repeated, closes every account it opens,
    and so does the command around it. *)
From S2P Require Import Prelude GoStrings GoTime Float64 SQL Keeping Ledger Corrections Identity Base64 Session IdentityDB.
From S2P Require Import LegacyBook Promotion PromotionPG PromotionRepeat PromotionStore.
Import Corrections.LedgerKeys.

(** ** The keys *)
Definition balance_types : list string := ["user_cash"%string; "user_free_play"%string].
Definition key_bytes (b middle : string) (id : Z) (t : string) : list ascii :=
  (((bytes "legacy-book:" ++ bytes b) ++ colon :: bytes middle) ++ colon :: bytes (sprint_d id)) ++ colon :: bytes t.
Lemma opening_key_bytes b id t : bytes (opening_key b id t) = key_bytes b "user" id t.
Proof. unfold opening_key, key_bytes. rewrite !bytes_app, <- !(assoc_L (++)). done. Qed.
Lemma closing_key_bytes b id t : bytes (closing_key b id t) = key_bytes b "settlement" id t.
Proof. unfold closing_key, key_bytes. rewrite !bytes_app, <- !(assoc_L (++)). done. Qed.
Lemma key_bytes_inj b m id t b' m' id' t' :
  t ∈ balance_types -> t' ∈ balance_types -> m ∈ ["user"%string; "settlement"%string] -> m' ∈ ["user"%string; "settlement"%string] ->
  key_bytes b m id t = key_bytes b' m' id' t' -> b = b' /\ m = m' /\ id = id' /\ t = t'.
Proof.
  intros Ht Ht' Hm Hm' H.
  assert (Hc : forall x, x ∈ balance_types ++ ["user"%string; "settlement"%string] -> colon ∉ bytes x).
  { intros x Hx. repeat (apply elem_of_cons in Hx as [->|Hx]; [apply (bool_decide_unpack _); by vm_compute|]). by apply elem_of_nil in Hx. }
  unfold key_bytes in H. apply last_colon_inj in H as [H E1]; [|apply Hc, elem_of_app; by left..].
  apply last_colon_inj in H as [H E2]; [|apply decimal_no_colon, sprint_d_decimal..].
  apply last_colon_inj in H as [H E3]; [|apply Hc, elem_of_app; by right..].
  apply (inj (bytes "legacy-book:" ++.)) in H. split_and!; [by apply bytes_inj..|by apply sprint_d_inj, bytes_inj|by apply bytes_inj].
Qed.
Lemma opening_inj b id t b' id' t' : t ∈ balance_types -> t' ∈ balance_types ->
  opening_key b id t = opening_key b' id' t' -> b = b' /\ id = id' /\ t = t'.
Proof.
  intros Ht Ht' H. apply (f_equal bytes) in H. rewrite !opening_key_bytes in H.
  apply key_bytes_inj in H as (-> & _ & -> & ->); [done|done|done|by left..].
Qed.
Lemma closing_inj b id t b' id' t' : t ∈ balance_types -> t' ∈ balance_types ->
  closing_key b id t = closing_key b' id' t' -> b = b' /\ id = id' /\ t = t'.
Proof.
  intros Ht Ht' H. apply (f_equal bytes) in H. rewrite !closing_key_bytes in H.
  apply key_bytes_inj in H as (-> & _ & -> & ->); [done|done|done|by right; left..].
Qed.
Lemma opening_not_closing b id t b' id' t' : t ∈ balance_types -> t' ∈ balance_types -> opening_key b id t <> closing_key b' id' t'.
Proof.
  intros Ht Ht' H. apply (f_equal bytes) in H. rewrite opening_key_bytes, closing_key_bytes in H.
  apply key_bytes_inj in H as (_ & H & _); [done|done|done|by left|by right; left].
Qed.

Lemma key_ne (c a b : string) : a <> b -> (c, a) <> (c, b).
Proof. intros H Hk. apply pair_equal_spec in Hk as [_ Hk]. done. Qed.
#[local] Opaque opening_key closing_key.

(** ** Balances *)
(** [coalesce(sum(amount_cents), 0)] over an account's postings. *)
Definition ledger_balance (account : string) (d : PromDB) : Z :=
  sumZ (fun kr => cents_on account (tx_postings kr.2)) (map_to_list (ledger_txs d)).
(** Every opening balance has its season settlement. *)
Definition paired (d : PromDB) : Prop :=
  forall currency b id t, t ∈ balance_types ->
  is_Some (ledger_txs d !! (currency, opening_key b id t)) <-> is_Some (ledger_txs d !! (currency, closing_key b id t)).

Lemma balance_insert account k row d d' :
  ledger_txs d !! k = None -> ledger_txs d' = <[k := row]> (ledger_txs d) ->
  ledger_balance account d' = ledger_balance account d + cents_on account (tx_postings row).
Proof.
  intros Hk Hd. unfold ledger_balance. rewrite Hd, (sumZ_perm _ _ _ (map_to_list_insert _ _ row Hk)), sumZ_cons. cbn. lia.
Qed.
Lemma cents_opposite account u e x :
  cents_on account [(u, x); (e, - x)] + cents_on account [(u, - x); (e, - - x)] = 0.
Proof. unfold cents_on. cbn. destruct (bool_decide (u = account)), (bool_decide (e = account)); cbn; rewrite ?sumZ_cons, ?sumZ_nil; cbn; lia. Qed.

(** An opening and a settlement posted together, or found together. *)
Lemma posted_pair currency b id t u e x d d1 d2 :
  t ∈ balance_types -> paired d ->
  posted currency (opening_key b id t) [(u, x); (e, - x)] d d1 ->
  posted currency (closing_key b id t) [(u, - x); (e, - - x)] d1 d2 ->
  paired d2 /\ forall account, ledger_balance account d2 = ledger_balance account d.
Proof.
  intros Ht Hp [[E1 S1]|(N1 & r1 & E1 & P1)] H2.
  - assert (S2 : is_Some (ledger_txs d1 !! (currency, closing_key b id t))) by (rewrite E1; exact (proj1 (Hp _ _ _ _ Ht) S1)).
    destruct H2 as [[E2 _]|(N2 & _)]; [|rewrite N2 in S2; by destruct S2].
    split; [|intros account; unfold ledger_balance; by rewrite E2, E1]. intros c b' id' t' Ht'. rewrite E2, E1. exact (Hp _ _ _ _ Ht').
  - assert (N : ledger_txs d !! (currency, closing_key b id t) = None).
    { apply eq_None_not_Some. intros Hs. apply (proj2 (Hp _ _ _ _ Ht)) in Hs. rewrite N1 in Hs. by destruct Hs. }
    destruct H2 as [[E2 S2]|(N2 & r2 & E2 & P2)].
    { rewrite E1, lookup_insert_ne, N in S2; [by destruct S2|]. apply key_ne. by apply opening_not_closing. }
    split.
    + intros c b' id' t' Ht'. rewrite E2, E1. destruct (decide ((currency, b, id, t) = (c, b', id', t'))) as [[= <- <- <- <-]|Hne].
      * rewrite lookup_insert_eq, lookup_insert_ne, lookup_insert_eq; [split; eauto|].
        apply key_ne, not_eq_sym. by apply opening_not_closing.
      * rewrite !lookup_insert_ne; [exact (Hp _ _ _ _ Ht')|..]; intros Hk; apply pair_equal_spec in Hk as [<- H].
        all: first [ apply opening_inj in H as (<- & <- & <-); [|done..]; by apply Hne
                   | apply closing_inj in H as (<- & <- & <-); [|done..]; by apply Hne
                   | by apply opening_not_closing in H
                   | symmetry in H; by apply opening_not_closing in H ].
    + intros account. rewrite (balance_insert account _ r2 d1 d2 N2 E2), (balance_insert account _ r1 d d1 N1 E1), P1, P2.
      pose proof (cents_opposite account u e x). lia.
Qed.

(** ** What one balance leaves *)
Definition entered (currency key a e : string) (x : Z) (d : PromDB) : Prop :=
  exists r, ledger_txs d !! (currency, key) = Some r /\ tx_expected r = 2
    /\ length (entries_on a e (tx_postings r)) = 2%nat
    /\ cents_on a (entries_on a e (tx_postings r)) = x /\ cents_on e (entries_on a e (tx_postings r)) = - x.
(** A balance posted on the user's account against the equity account, and
    taken off again. *)
Definition booked (currency b : string) (id : Z) (uid t : string) (amount : Z) (d : PromDB) : Prop :=
  exists a e, ledger_accounts d !! (Some uid, t, currency) = Some a /\ ledger_accounts d !! equity_key currency = Some e
    /\ entered currency (opening_key b id t) a e amount d /\ entered currency (closing_key b id t) a e (- amount) d.

Lemma entered_lasts currency key a e x d d' : extends d d' -> entered currency key a e x d -> entered currency key a e x d'.
Proof. intros Hx (r & Hr & H). exists r. split; [|done]. by apply (lookup_weaken _ _ _ _ Hr), ex_ledger. Qed.
Lemma booked_lasts currency b id uid t x d d' : extends d d' -> booked currency b id uid t x d -> booked currency b id uid t x d'.
Proof.
  intros Hx (a & e & Ha & He & H1 & H2). exists a, e.
  split_and!; [by apply (lookup_weaken _ _ _ _ Ha), ex_accounts|by apply (lookup_weaken _ _ _ _ He), ex_accounts|by eapply entered_lasts..].
Qed.

(** In a committed ledger the transaction is exactly the two postings. *)
Lemma entered_exactly currency key a e x d :
  ledger_balanced d = true -> x <> 0 -> entered currency key a e x d ->
  exists r, ledger_txs d !! (currency, key) = Some r /\ tx_postings r ≡ₚ [(a, x); (e, - x)].
Proof.
  intros Hb Hx (r & Hr & Hn & Hl & Ha & He). exists r. split; [done|].
  unfold ledger_balanced in Hb. bool_prop. destruct (Hb _ _ Hr) as (Hlen & _ & _). rewrite Hn in Hlen.
  destruct (tx_postings r) as [|[u p] [|[v q] [|]]]; cbn [length] in Hlen; try lia. clear Hlen Hr Hb.
  destruct (decide (a = e)) as [->|Hne]; [exfalso; lia|].
  assert (Hw : forall w : string * Z, w = (a, w.2) \/ w = (e, w.2) \/ entries_on a e [w] = []).
  { intros [w c]. unfold entries_on. cbn. repeat case_bool_decide; subst; eauto. }
  assert (Hone : forall w : string * Z, (length (entries_on a e [w]) <= 1)%nat).
  { intros w. unfold entries_on. cbn. destruct (_ || _); cbn; lia. }
  assert (Hcons : forall w l, entries_on a e (w :: l) = entries_on a e [w] ++ entries_on a e l).
  { intros w l. unfold entries_on. cbn. by destruct (_ || _). }
  rewrite Hcons in Hl, Ha, He. rewrite length_app in Hl. pose proof (Hone (u, p)). pose proof (Hone (v, q)).
  destruct (Hw (u, p)) as [[= ->]|[[= ->]|E]]; [| |rewrite E in Hl; cbn [length] in Hl; lia];
    (destruct (Hw (v, q)) as [[= ->]|[[= ->]|E]]; [| |rewrite E in Hl; cbn [length] in Hl; lia]);
    clear -Hx Hne Ha He; unfold entries_on, cents_on in *;
    cbn in Ha, He; repeat (case_bool_decide; [|try congruence]; cbn in Ha, He; try congruence);
    repeat (case_bool_decide; try congruence; cbn in Ha, He); unfold sumZ in Ha, He; cbn in Ha, He.
  - lia.
  - replace p with x by lia. by replace q with (- x) by lia.
  - replace p with (- x) by lia. replace q with x by lia. apply perm_swap.
  - lia.
Qed.

(** ** The operations *)
Section operations.
Context {E : environment}.
Context (pg_lower : string -> string) (equal_fold : string -> string -> bool).
Context (sha256 : list ascii -> Digest) (json_marshal : checksummed -> result (list ascii)).
#[local] Abbreviation unique_rows := (unique_rows pg_lower).

(** Balances only move in pairs. *)
Definition whole (d : PromDB) : Prop := unique_rows d /\ paired d.
Definition neutral (d d' : PromDB) : Prop :=
  whole d -> whole d' /\ extends d d' /\ forall account, ledger_balance account d' = ledger_balance account d.
#[export] Instance neutral_preorder : PreOrder neutral.
Proof.
  split; [intros d Hw; by split_and!|]. intros d1 d2 d3 H1 H2 Hw. destruct (H1 Hw) as (W1 & E1 & B1). destruct (H2 W1) as (W2 & E2 & B2).
  split_and!; [apply W2..|by etrans|intros account; by rewrite B2, B1].
Qed.

(** A loop each of whose rounds leaves something that lasts, and keeps
    something about the loop's state. *)
Lemma foldM_each {A S} (f : S -> A -> SQL.go PromDB S) (I : S -> PromDB -> Prop) (P : A -> PromDB -> Prop) l :
  (forall x d d', extends d d' -> P x d -> P x d') ->
  (forall x st s s' st', x ∈ l -> whole (db s) -> I st (db s) -> f st x s = (s', Ok st') ->
     neutral (db s) (db s') /\ I st' (db s') /\ P x (db s')) ->
  forall st s s' st', whole (db s) -> I st (db s) -> foldM f st l s = (s', Ok st') ->
  neutral (db s) (db s') /\ I st' (db s') /\ Forall (fun x => P x (db s')) l.
Proof.
  intros HP. induction l as [|x l IH]; intros Hf st s s' st' Hw Hi H; cbn in H.
  - apply ret_run in H as [-> ->]. by split_and!.
  - apply bind_run in H as (st1 & s1 & H1 & H). destruct (Hf x st s s1 st1) as (N1 & I1 & P1); [by left|done..|].
    destruct (N1 Hw) as (W1 & _ & _). destruct (IH (fun x st s s' st' Hx => Hf x st s s' st' (ltac:(by right))) st1 s1 s' st' W1 I1 H)
      as (N2 & I2 & P2). destruct (N2 W1) as (_ & E2 & _).
    split_and!; [by etrans|done|]. constructor; [by eapply HP|done].
Qed.

(** What leaves the ledger alone is neutral. *)
Definition same_ledger (d d' : PromDB) : Prop := ledger_txs d' = ledger_txs d.
#[local] Instance same_ledger_preorder : PreOrder same_ledger.
Proof. split; [done|]. intros x y z H1 H2. unfold same_ledger in *. congruence. Qed.
Lemma repeats_neutral {A} (m m' : SQL.go PromDB A) s s' a :
  repeats pg_lower m m' -> keeps same_ledger m -> m s = (s', Ok a) -> neutral (db s) (db s').
Proof.
  intros Hm Hk H [Hu Hp]. destruct (Hm _ _ _ Hu H) as (Hu' & Hx & _). apply Hk in H. unfold same_ledger in H.
  split; [split; [done|]|split; [done|]].
  - intros c b id t Ht. rewrite H. exact (Hp _ _ _ _ Ht).
  - intros account. unfold ledger_balance. by rewrite H.
Qed.

(** *** One balance *)
Lemma verify_entered b table source currency key a e actor reason x y value e1 e2 s s' u :
  verify_adjustment sha256 json_marshal b table source currency key a e actor reason x y value e1 e2 s = (s', Ok u) ->
  y = - x -> entered currency key a e x (db s).
Proof.
  unfold verify_adjustment. intros H ->. apply bind_run in H as (row & s1 & [_ Hr]%query_run & H).
  destruct (negb _) eqn:Hm in H; [done|]. clear H. unfold adjustment_row in Hr.
  destruct (ledger_txs (db s) !! (currency, key)) as [r|] eqn:Hl; [|done]. cbn in Hr. case_bool_decide; [done|]. cbn in Hr. simplify_eq.
  unfold adjustment_matches in Hm. bool_prop. exists r. split_and!; [done..|lia|done|done].
Qed.

Lemma upsert_run w k (check : PromDB -> bool) s s' id :
  statement w (fun n d => fail_if (check d) foreign_violation;; upsert_ledger_account k (gen_uuid n) d) s = (s', Ok id) ->
  ledger_accounts (db s') !! k = Some id /\ ledger_txs (db s') = ledger_txs (db s).
Proof.
  intros [n H]%statement_run. go_inv. unfold upsert_ledger_account in H. destruct (ledger_accounts (db s) !! k) as [x|] eqn:Hk; go_inv; simplify_eq.
  - rewrite <- H. done.
  - rewrite <- H. cbn. by rewrite lookup_insert_eq.
Qed.

Lemma ensureOpeningBalance_run t b input s s' u :
  unique_rows (db s) -> ensureOpeningBalance sha256 json_marshal t b input s = (s', Ok u) ->
  (unique_rows (db s') /\ extends (db s) (db s'))
  /\ exists a e, ledger_accounts (db s') !! (Some (OB_UserID input), OB_AccountType input, OB_Currency input) = Some a
     /\ ledger_accounts (db s') !! equity_key (OB_Currency input) = Some e
     /\ posted (OB_Currency input) (OB_IdempotencyKey input) [(a, OB_AmountCents input); (e, - OB_AmountCents input)] (db s) (db s')
     /\ entered (OB_Currency input) (OB_IdempotencyKey input) a e (OB_AmountCents input) (db s').
Proof.
  intros Hu H. destruct u. pose proof (ensureOpeningBalance_repeats pg_lower sha256 json_marshal t t b input _ _ _ Hu H) as (U & X & _).
  split; [done|]. unfold ensureOpeningBalance in H.
  apply bind_run in H as ([up ep] & s0 & [-> Hp]%lift_run & H). unfold openingPostings in Hp. go_inv. simplify_eq.
  apply bind_run in H as (a & s1 & H1 & H). pose proof (upsert_repeats pg_lower _ _ _ (user_exists_lasts _) _ _ _ Hu H1) as (U1 & X1 & _).
  apply upsert_run in H1 as [Ka L1].
  apply bind_run in H as (e & s2 & H2 & H).
  pose proof (upsert_repeats pg_lower _ _ (fun _ => false) (fun _ _ _ H => H) _ _ _ U1 H2) as (U2 & X2 & _).
  apply (upsert_run _ _ (fun _ => false)) in H2 as [Ke L2].
  destruct (post_adjustment_run pg_lower sha256 json_marshal t t b _ _ _ _ a e _ _ _ _ _ _ (verify_adjustment_repeats _ _ _ _ _ _ _ _ _ _ _ _ _ _ _ _ _)
              (fun s s' u => verify_adjustment_db _ _ _ _ _ _ _ _ _ _ _ _ _ _ _ _ s s' u) _ _ _ U2 H) as (_ & Hpo & _ & _ & Hacc & s3 & Hs3 & Hv).
  exists a, e. rewrite Hacc. split_and!.
  - by apply (lookup_weaken _ _ _ _ Ka), ex_accounts.
  - done.
  - unfold posted in *. by rewrite L2, L1 in Hpo.
  - rewrite <- Hs3. by eapply verify_entered.
Qed.
Lemma ensureSeasonSettlement_run t b input s s' u :
  unique_rows (db s) -> ensureSeasonSettlement sha256 json_marshal t b input s = (s', Ok u) ->
  (unique_rows (db s') /\ extends (db s) (db s'))
  /\ exists a e, ledger_accounts (db s') !! (Some (SS_UserID input), SS_AccountType input, SS_Currency input) = Some a
     /\ ledger_accounts (db s') !! equity_key (SS_Currency input) = Some e
     /\ posted (SS_Currency input) (SS_IdempotencyKey input) [(a, - SettledCents input); (e, - - SettledCents input)] (db s) (db s')
     /\ entered (SS_Currency input) (SS_IdempotencyKey input) a e (- SettledCents input) (db s').
Proof.
  intros Hu H. destruct u. pose proof (ensureSeasonSettlement_repeats pg_lower sha256 json_marshal t t b input _ _ _ Hu H) as (U & X & _).
  split; [done|]. unfold ensureSeasonSettlement in H.
  apply bind_run in H as ([up ep] & s0 & [-> Hp]%lift_run & H). unfold settlementPostings, openingPostings in Hp. go_inv. simplify_eq.
  apply bind_run in H as (a & s1 & [E1 Ka]%query_run & H). apply bind_run in H as (e & s2 & [E2 Ke]%query_run & H).
  assert (U2 : unique_rows (db s2)) by by rewrite E2, E1.
  destruct (post_adjustment_run pg_lower sha256 json_marshal t t b _ _ _ _ a e _ _ _ _ _ _ (verify_adjustment_repeats _ _ _ _ _ _ _ _ _ _ _ _ _ _ _ _ _)
              (fun s s' u => verify_adjustment_db _ _ _ _ _ _ _ _ _ _ _ _ _ _ _ _ s s' u) _ _ _ U2 H) as (_ & Hpo & _ & _ & Hacc & s3 & Hs3 & Hv).
  exists a, e. rewrite Hacc, E2, E1 in *. split_and!.
  - by destruct (ledger_accounts (db s) !! (Some _, _, _)); simplify_eq/=.
  - by destruct (ledger_accounts (db s) !! equity_key _); simplify_eq/=.
  - done.
  - rewrite <- Hs3. eapply verify_entered; [exact Hv|lia].
Qed.

Variables (t : Time) (options : PromoteOptions).
#[local] Abbreviation repo := (postgresRepository pg_lower equal_fold sha256 json_marshal t).

(** The amount of a balance, when it is not zero, is booked. *)
Definition balance_booked (user : UserReconciliation) (uid : string) (balance : string * Z * Z * Z) (d : PromDB) : Prop :=
  let '(accountType, amount, _, _) := balance in
  amount <> 0 -> booked (PO_Currency options) (BatchID options) (UR_LegacyUserID user) uid accountType amount d.

Lemma promote_balance_run user uid balance res s s' res' :
  balance.1.1.1 ∈ balance_types -> whole (db s) ->
  promote_balance repo options user uid res balance s = (s', Ok res') ->
  neutral (db s) (db s') /\ balance_booked user uid balance (db s').
Proof.
  destruct balance as [[[accountType amount] net] diff]. cbn [fst]. intros Ht [Hu Hp] H. unfold promote_balance in H.
  destruct (Z.eqb_spec amount 0) as [->|Hne]; [apply ret_run in H as [-> _]; split; [reflexivity|by intros ?]|].
  apply bind_run in H as (u1 & s1 & H1%wrapped_run & H). apply bind_run in H as (u2 & s2 & H2%wrapped_run & [-> _]%ret_run).
  destruct (ensureOpeningBalance_run _ _ _ _ _ _ Hu H1) as ((U1 & X1) & a & e & Ka & Ke & P1 & E1).
  destruct (ensureSeasonSettlement_run _ _ _ _ _ _ U1 H2) as ((U2 & X2) & a' & e' & Ka' & Ke' & P2 & E2).
  cbn [OB_UserID OB_AccountType OB_Currency OB_IdempotencyKey OB_AmountCents opening_input closing_input SS_UserID SS_AccountType
       SS_Currency SS_IdempotencyKey SettledCents] in *.
  pose proof (lookup_weaken _ _ _ _ Ka (ex_accounts _ _ X2)) as Ka2. pose proof (lookup_weaken _ _ _ _ Ke (ex_accounts _ _ X2)) as Ke2.
  rewrite Ka2 in Ka'. rewrite Ke2 in Ke'. injection Ka' as <-. injection Ke' as <-.
  destruct (posted_pair _ _ _ _ _ _ _ _ _ _ Ht Hp P1 P2) as [Hp2 Hb]. split.
  - intros _. split; [by split|]. split; [by etrans|done].
  - intros _. exists a, e. split_and!; [done|done|by eapply entered_lasts|done].
Qed.

(** *** One user *)
Lemma keeps_ledger_user b input : keeps same_ledger (EnsureApprovedUser repo b input).
Proof.
  cbn. unfold ensureApprovedUser, find_or_create_user, PromotionPG.verifyUser, ensureMembership, ensureUserMapping, verifyUserMapping.
  keeps; first [apply keeps_exec; [apply _|]; intros d1 d2 H | apply keeps_statement; [apply _|]; intros n d1 d2 x H; go_inv].
  all: try (unfold insert_mapping, insert_import in H; go_inv; destruct (_ !! _) in H; go_inv; subst; done).
  all: try (unfold insert_role in Hok0; go_inv; simplify_eq; done).
  all: try (unfold insert_promoted_user in H; go_inv; simplify_eq; done).
Qed.
Lemma keeps_ledger_transaction b uid record : keeps same_ledger (EnsureLegacyTransaction repo b uid record).
Proof.
  cbn. unfold ensureLegacyTransaction. keeps. apply keeps_exec; [apply _|]. intros d d' H.
  unfold insert_history_transaction in H. go_inv. destruct (_ !! _) in H; go_inv; by subst.
Qed.
Lemma keeps_ledger_wager b uid record : keeps same_ledger (EnsureLegacyWager repo b uid record).
Proof.
  cbn. unfold ensureLegacyWager. keeps. apply keeps_exec; [apply _|]. intros d d' H.
  unfold insert_history_wager in H. go_inv. destruct (_ !! _) in H; go_inv; by subst.
Qed.
Lemma keeps_ledger_complete b input : keeps same_ledger (CompletePromotion repo b input).
Proof.
  cbn. unfold completePromotion. keeps; first [apply keeps_exec; [apply _|]; intros d1 d2 H | apply keeps_statement; [apply _|]; intros n d1 d2 x H; go_inv].
  - unfold record_completion in H. go_inv. destruct (_ !! _) in H; go_inv; by simplify_eq.
  - unfold audit_completion in H. go_inv. by subst.
  - go_inv. by subst.
Qed.

(** The user a legacy user was promoted to. *)
Definition mapped (id : Z) (uid : string) (d : PromDB) : Prop := exists row, user_mappings d !! id = Some row /\ mp_user row = uid.
Lemma mapped_lasts id uid d d' : extends d d' -> mapped id uid d -> mapped id uid d'.
Proof. intros Hx (row & Hr & Hu). exists row. split; [|done]. by apply (lookup_weaken _ _ _ _ Hr), ex_mappings. Qed.
Lemma ensureUserMapping_run b uid sum input s s' u :
  ensureUserMapping t b uid sum input s = (s', Ok u) -> mapped (UI_LegacyUserID input) uid (db s').
Proof.
  unfold ensureUserMapping, verifyUserMapping. intros H. apply bind_run in H as (u1 & s1 & _ & H).
  apply bind_run in H as (row & s2 & [Hs Hr]%query_run & H). destruct (negb _) eqn:Hm in H; [done|]. apply ret_run in H as [-> _].
  rewrite Hs. exists row. destruct (user_mappings (db s1) !! _); simplify_eq/=. split; [done|].
  unfold mapping_matches in Hm. by bool_prop.
Qed.
Lemma ensureApprovedUser_mapped b input s s' uid :
  EnsureApprovedUser repo b input s = (s', Ok uid) -> mapped (UI_LegacyUserID input) uid (db s').
Proof.
  cbn. unfold ensureApprovedUser. intros H. apply bind_run in H as (sum & s0 & _ & H). apply bind_run in H as (found & s1 & _ & H).
  destruct found as [[userID stored]|]; [destruct (negb _) in H; [done|]|apply bind_run in H as (userID & s2 & _ & H)];
    apply bind_run in H as (u1 & s3 & _ & H); apply bind_run in H as (u2 & s4 & _ & H); [|apply bind_run in H as (u3 & s5 & _ & H)];
    apply bind_run in H as (u4 & s6 & H1%ensureUserMapping_run & [-> ->]%ret_run); done.
Qed.

Definition user_booked (user : UserReconciliation) (d : PromDB) : Prop :=
  exists uid, mapped (UR_LegacyUserID user) uid d /\ Forall (fun balance => balance_booked user uid balance d) (balances user).
Lemma balance_booked_lasts user uid balance d d' : extends d d' -> balance_booked user uid balance d -> balance_booked user uid balance d'.
Proof. destruct balance as [[[ty amount] net] diff]. cbn. intros Hx H Hne. eapply booked_lasts; [exact Hx|]. by apply H. Qed.
Lemma user_booked_lasts user d d' : extends d d' -> user_booked user d -> user_booked user d'.
Proof.
  intros Hx (uid & Hm & Hf). exists uid. split; [by eapply mapped_lasts|]. eapply Forall_impl; [exact Hf|].
  intros balance. by apply balance_booked_lasts.
Qed.
(** The loops' map of user identifiers agrees with the stored mappings. *)
Definition ids_mapped (st : PromotionResult * gmap Z string) (d : PromDB) : Prop :=
  forall id uid, st.2 !! id = Some uid -> mapped id uid d.

Lemma promote_user_run user st s s' st' :
  whole (db s) -> ids_mapped st (db s) -> promote_user repo options st user s = (s', Ok st') ->
  neutral (db s) (db s') /\ ids_mapped st' (db s') /\ user_booked user (db s').
Proof.
  destruct st as [res ids]. intros Hw Hi H. unfold promote_user in H. destruct (negb _) in H; [done|].
  apply bind_run in H as (uid & s1 & H1%wrapped_run & H).
  pose proof (repeats_neutral _ _ _ _ _ (im_user _ _ _ (postgres_idempotent pg_lower equal_fold sha256 json_marshal t t) _ _)
                (keeps_ledger_user _ _) H1) as N1. destruct (N1 Hw) as (W1 & X1 & _).
  apply ensureApprovedUser_mapped in H1. apply bind_run in H as (res2 & s2 & H2 & [-> ->]%ret_run).
  destruct (foldM_each (promote_balance repo options user uid) (fun _ _ => True) (balance_booked user uid) (balances user)
              (fun x d d' => balance_booked_lasts user uid x d d')) with (st := count_user res) (s := s1) (s' := s2) (st' := res2)
    as (N2 & _ & F2); [|done..|].
  { intros balance st s3 s4 st4 Hin W3 _ H3. destruct (promote_balance_run user uid balance st s3 s4 st4) as [N3 B3]; [|done..|by split_and!].
    unfold balances in Hin. repeat (apply elem_of_cons in Hin as [->|Hin]; [cbn; by repeat (first [by left|right])|]). by apply elem_of_nil in Hin. }
  destruct (N2 W1) as (_ & X2 & _). split; [by etrans|]. split.
  - intros id uid'. cbn. rewrite lookup_insert_Some. intros [[<- <-]|[_ Hid]]; [by eapply mapped_lasts|].
    eapply mapped_lasts; [|by apply Hi]. by etrans.
  - exists uid. split; [by eapply mapped_lasts|done].
Qed.

(** *** History rows *)
Definition transaction_stored (record : TransactionRecord) (d : PromDB) : Prop :=
  exists uid sum row, mapped (TR_LegacyUserID record) uid d /\ history_transactions d !! SourceTransactionID record = Some row
    /\ same_transaction (BatchID options) uid record sum row = true.
Definition wager_stored (record : WagerRecord) (d : PromDB) : Prop :=
  exists uid sum row, mapped (WR_LegacyUserID record) uid d /\ history_wagers d !! SourceWagerID record = Some row
    /\ same_wager (BatchID options) uid record sum row = true.
Lemma transaction_stored_lasts record d d' : extends d d' -> transaction_stored record d -> transaction_stored record d'.
Proof.
  intros Hx (uid & sum & row & Hm & Hr & Hs). exists uid, sum, row.
  split_and!; [by eapply mapped_lasts|by apply (lookup_weaken _ _ _ _ Hr), ex_transactions|done].
Qed.
Lemma wager_stored_lasts record d d' : extends d d' -> wager_stored record d -> wager_stored record d'.
Proof.
  intros Hx (uid & sum & row & Hm & Hr & Hs). exists uid, sum, row.
  split_and!; [by eapply mapped_lasts|by apply (lookup_weaken _ _ _ _ Hr), ex_wagers|done].
Qed.

(** A user found in the loops' map. *)
Lemma promoted_user_mapped ids id d :
  (forall id uid, ids !! id = Some uid -> mapped id uid d) -> promoted_user ids id <> ""%string -> mapped id (promoted_user ids id) d.
Proof. intros Hi. unfold promoted_user. destruct (ids !! id) as [uid|] eqn:Hid; [intros _; by apply Hi|done]. Qed.
Lemma ids_last (ids : gmap Z string) d d' : extends d d' ->
  (forall id uid, ids !! id = Some uid -> mapped id uid d) -> forall id uid, ids !! id = Some uid -> mapped id uid d'.
Proof. intros Hx Hi id uid Hid. eapply mapped_lasts; [exact Hx|]. by apply Hi. Qed.

Lemma promote_transaction_run ids record (res : PromotionResult) s s' res' :
  whole (db s) -> (forall id uid, ids !! id = Some uid -> mapped id uid (db s)) ->
  promote_transaction repo options ids res record s = (s', Ok res') ->
  neutral (db s) (db s') /\ (forall id uid, ids !! id = Some uid -> mapped id uid (db s')) /\ transaction_stored record (db s').
Proof.
  intros Hw Hi H. unfold promote_transaction in H. case_bool_decide as Hne; [done|].
  apply bind_run in H as (u & s1 & H1%wrapped_run & [-> _]%ret_run).
  pose proof (repeats_neutral _ _ _ _ _ (im_transaction _ _ _ (postgres_idempotent pg_lower equal_fold sha256 json_marshal t t) _ _ _)
                (keeps_ledger_transaction _ _ _) H1) as N1. destruct (N1 Hw) as (_ & X1 & _).
  split_and!; [done|by eapply ids_last|]. cbn in H1. unfold ensureLegacyTransaction in H1.
  apply bind_run in H1 as (sum & s2 & _ & H1). apply bind_run in H1 as (u1 & s3 & _ & H1).
  apply bind_run in H1 as (row & s4 & [Hs Hr]%query_run & H1). destruct (negb _) eqn:Hm in H1; [done|]. apply ret_run in H1 as [-> _].
  exists (promoted_user ids (TR_LegacyUserID record)), sum, row. rewrite Hs in *. split_and!.
  - eapply mapped_lasts; [exact X1|]. by apply promoted_user_mapped.
  - by destruct (history_transactions (db s3) !! _); simplify_eq/=.
  - by apply negb_false_iff in Hm.
Qed.
Lemma promote_wager_run ids record (res : PromotionResult) s s' res' :
  whole (db s) -> (forall id uid, ids !! id = Some uid -> mapped id uid (db s)) ->
  promote_wager repo options ids res record s = (s', Ok res') ->
  neutral (db s) (db s') /\ (forall id uid, ids !! id = Some uid -> mapped id uid (db s')) /\ wager_stored record (db s').
Proof.
  intros Hw Hi H. unfold promote_wager in H. case_bool_decide as Hne; [done|].
  apply bind_run in H as (u & s1 & H1%wrapped_run & [-> _]%ret_run).
  pose proof (repeats_neutral _ _ _ _ _ (im_wager _ _ _ (postgres_idempotent pg_lower equal_fold sha256 json_marshal t t) _ _ _)
                (keeps_ledger_wager _ _ _) H1) as N1. destruct (N1 Hw) as (_ & X1 & _).
  split_and!; [done|by eapply ids_last|]. cbn in H1. unfold ensureLegacyWager in H1.
  apply bind_run in H1 as (sum & s2 & _ & H1). apply bind_run in H1 as (u1 & s3 & _ & H1).
  apply bind_run in H1 as (row & s4 & [Hs Hr]%query_run & H1). destruct (negb _) eqn:Hm in H1; [done|]. apply ret_run in H1 as [-> _].
  exists (promoted_user ids (WR_LegacyUserID record)), sum, row. rewrite Hs in *. split_and!.
  - eapply mapped_lasts; [exact X1|]. by apply promoted_user_mapped.
  - by destruct (history_wagers (db s3) !! _); simplify_eq/=.
  - by apply negb_false_iff in Hm.
Qed.

(** *** The whole report *)
Record report_stored (report : Report) (d : PromDB) : Prop := mkReportStored {
  rs_users : Forall (fun user => user_booked user d) (Report_Users report);
  rs_transactions : Forall (fun r => transaction_stored r d) (Report_Transactions report);
  rs_wagers : Forall (fun r => wager_stored r d) (Report_Wagers report);
  rs_batch : exists bid row, cast (BatchID options) = Ok bid /\ batches d !! bid = Some row /\ promoted_batch bid row
}.

Lemma promotion_run report s s' res :
  whole (db s) -> promotion report options repo s = (s', Ok res) -> neutral (db s) (db s') /\ report_stored report (db s').
Proof.
  intros Hw H. unfold promotion in H. apply bind_run in H as ([res1 ids] & s1 & H1 & H).
  assert (H0 : ids_mapped (mkPromotionResult 0 0 0 0 0 0 0, ∅) (db s)) by (intros id uid; cbn; by rewrite lookup_empty).
  destruct (foldM_each (promote_user repo options) ids_mapped user_booked (Report_Users report) user_booked_lasts
              (fun user st s s' st' _ => promote_user_run user st s s' st') _ _ _ _ Hw H0 H1)
    as (N1 & I1 & F1).
  destruct (N1 Hw) as (W1 & X1 & _). apply bind_run in H as (res2 & s2 & H2 & H).
  destruct (foldM_each (promote_transaction repo options ids) (fun _ d => forall id uid, ids !! id = Some uid -> mapped id uid d)
              transaction_stored (Report_Transactions report) transaction_stored_lasts
              (fun r st s s' st' _ => promote_transaction_run ids r st s s' st') _ _ _ _ W1 I1 H2) as (N2 & I2 & F2).
  destruct (N2 W1) as (W2 & X2 & _). apply bind_run in H as (res3 & s3 & H3 & H).
  destruct (foldM_each (promote_wager repo options ids) (fun _ d => forall id uid, ids !! id = Some uid -> mapped id uid d)
              wager_stored (Report_Wagers report) wager_stored_lasts
              (fun r st s s' st' _ => promote_wager_run ids r st s s' st') _ _ _ _ W2 I2 H3) as (N3 & _ & F3).
  destruct (N3 W2) as (W3 & X3 & _). apply bind_run in H as (u & s4 & H4%wrapped_run & [-> _]%ret_run).
  pose proof (repeats_neutral _ _ _ _ _ (im_complete _ _ _ (postgres_idempotent pg_lower equal_fold sha256 json_marshal t t) _ _)
                (keeps_ledger_complete _ _) H4) as N4. destruct (N4 W3) as (_ & X4 & _).
  split; [by do 3 (etrans; [eassumption|])|]. split.
  - eapply Forall_impl; [exact F1|]. intros user. apply user_booked_lasts. by do 2 (etrans; [eassumption|]).
  - eapply Forall_impl; [exact F2|]. intros r. apply transaction_stored_lasts. by etrans.
  - eapply Forall_impl; [exact F3|]. intros r. by apply wager_stored_lasts.
  - destruct (completePromotion_run pg_lower t t _ _ _ _ _ (proj1 W3) H4) as (_ & Hb). exact Hb.
Qed.
End operations.

(** ** [Promote] on PostgreSQL *)
Section promote.
Context {E : environment}.
Context (pg_lower : string -> string) (equal_fold : string -> string -> bool).
Context (sha256 : list ascii -> Digest) (json_marshal : checksummed -> result (list ascii)).
#[local] Abbreviation unique_rows := (unique_rows pg_lower).
#[local] Abbreviation later := (later pg_lower).
#[local] Abbreviation replays := (replays pg_lower).
#[local] Abbreviation store pool := (Some (PostgresStore pg_lower equal_fold sha256 json_marshal pool)).

(** A promotion fails and changes nothing, or commits what its body did. *)
Lemma Promote_cases pool report options s s' r :
  Promote (store pool) report options s = (s', r) ->
  ((exists e, r = Err e) /\ db s' = db s)
  \/ exists t options' s0 s1 result, check_promotion report options = Ok options' /\ (r = Ok result \/ exists e, r = Err e)
     /\ db s0 = db s /\ db s' = db s1 /\ ledger_balanced (db s1) = true
     /\ promotion report options' (postgresRepository pg_lower equal_fold sha256 json_marshal t) s0 = (s1, Ok result).
Proof.
  unfold Promote. cbn [PostgresStore WithinTransaction]. unfold mbind at 1, go_bind at 1, lift.
  destruct (check_promotion report options) as [options'|]; [|intros [= <- <-]; left; eauto].
  unfold withinTransaction. intros [H|[(s0 & s1 & a & _ & Hrun & _)|(s0 & s1 & w & a & Hs & Hrun & Hd & Hr & Hb)]]%transaction_cases; [by left|..];
    apply bind_run in Hrun as (t & s2 & ->%tx_now_run & Hrun); apply bind_run in Hrun as (u & s3 & [H3 _]%query_run & Hrun);
    apply bind_run in Hrun as (res & s4 & Hrun & H4); apply ret_run in H4 as [-> H4]; [done|]. injection H4 as -> ->.
  right. exists t, options', s3, s4, res. split_and!; try done; [|congruence]. destruct Hr as [->|(e & -> & _)]; eauto.
Qed.

(** The two ledger transactions of one balance. *)
Definition opened_and_closed (currency b : string) (id : Z) (uid accountType : string) (amount : Z) (d : PromDB) : Prop :=
  exists a e opening closing,
    ledger_accounts d !! (Some uid, accountType, currency) = Some a /\ ledger_accounts d !! equity_key currency = Some e
    /\ ledger_txs d !! (currency, opening_key b id accountType) = Some opening
    /\ tx_postings opening ≡ₚ [(a, amount); (e, - amount)]
    /\ ledger_txs d !! (currency, closing_key b id accountType) = Some closing
    /\ tx_postings closing ≡ₚ [(a, - amount); (e, amount)].
Lemma booked_exactly currency b id uid ty amount d :
  ledger_balanced d = true -> amount <> 0 -> booked currency b id uid ty amount d -> opened_and_closed currency b id uid ty amount d.
Proof.
  intros Hb Hne (a & e & Ha & He & H1 & H2). apply entered_exactly in H1 as (o & Ho & Po); [|done..].
  apply entered_exactly in H2 as (c & Hc & Pc); [|done|lia]. rewrite Z.opp_involutive in Pc. by exists a, e, o, c.
Qed.

Lemma check_promotion_options report options options' :
  check_promotion report options = Ok options' -> BatchID options' = BatchID options /\ PO_Currency options' = "CAD"%string.
Proof.
  unfold check_promotion. intros H. go_inv. subst. bool_prop. split; [|done]. unfold with_currency. by case_bool_decide.
Qed.

Definition promoted_user_row (b : string) (d : PromDB) (user : UserReconciliation) : Prop :=
  exists uid, mapped (UR_LegacyUserID user) uid d
    /\ forall accountType amount, (accountType, amount) ∈ [("user_cash"%string, ClosingCashCents user);
                                                           ("user_free_play"%string, ClosingFreePlayCents user)] ->
       amount <> 0 -> opened_and_closed "CAD" b (UR_LegacyUserID user) uid accountType amount d.

(** C25. A promotion moves no balance, and records the whole archive.  From a
    database in which every opening balance has its settlement (one without
    migrated balances, to begin with), whatever a promotion is asked for and
    whichever of its statements fail, every account's ledger balance is what it
    was and every opening balance still has its settlement.  When it succeeds,
    every user of the report is mapped to a user, each non-zero closing balance
    stands in the ledger as exactly two transactions, the opening posting on
    that user's account against the equity account and its exact inverse; every
    transaction and wager of the report is stored with its terms under its
    user, and the batch is promoted. *)
Theorem promotions_open_and_close_every_account pool report options s s' r :
  unique_rows (db s) -> paired (db s) -> Promote (store pool) report options s = (s', r) ->
  (unique_rows (db s') /\ paired (db s') /\ forall account, ledger_balance account (db s') = ledger_balance account (db s))
  /\ (forall result, r = Ok result ->
      Forall (promoted_user_row (BatchID options) (db s')) (Report_Users report)
      /\ Forall (fun record => transaction_stored options record (db s')) (Report_Transactions report)
      /\ Forall (fun record => wager_stored options record (db s')) (Report_Wagers report)
      /\ exists bid row, cast (BatchID options) = Ok bid /\ batches (db s') !! bid = Some row /\ ba_state row = "promoted"%string).
Proof.
  intros Hu Hp H. destruct (Promote_cases _ _ _ _ _ _ H) as [[[e ->] ->]|(t & options' & s0 & s1 & result & Hc & _ & Hs0 & -> & Hb & Hrun)];
    [by split|].
  assert (Hw : whole pg_lower (db s0)) by (rewrite Hs0; by split).
  destruct (promotion_run _ _ _ _ _ _ _ _ _ _ Hw Hrun) as [N [Ru Rt Rw (bid & row & Hbid & Hrow & Hst & _)]].
  destruct (N Hw) as ((U1 & P1) & _ & B1). rewrite Hs0 in B1. split; [done|]. intros _ _.
  apply check_promotion_options in Hc as [Hbatch Hcur]. rewrite Hbatch in *. split_and!.
  - eapply Forall_impl; [exact Ru|]. intros user (uid & Hm & Hbal). exists uid. split; [done|]. intros ty amount Hin Hne.
    apply booked_exactly; [done..|]. unfold balances in Hbal. rewrite !Forall_cons in Hbal. destruct Hbal as (H1 & H2 & _).
    unfold balance_booked in H1, H2. rewrite Hcur, Hbatch in H1, H2.
    apply elem_of_cons in Hin as [[= -> ->]|[[= -> ->]|[]%elem_of_nil]%elem_of_cons]; auto.
  - eapply Forall_impl; [exact Rt|]. intros record. unfold transaction_stored. by rewrite Hbatch.
  - eapply Forall_impl; [exact Rw|]. intros record. unfold wager_stored. by rewrite Hbatch.
  - by exists bid, row.
Qed.

(** ** Repeating a promotion *)
Lemma Promote_repeats pool report options :
  repeats pg_lower (Promote (store pool) report options) (Promote (store pool) report options).
Proof.
  intros s s' result Hu H. destruct pool.
  2:{ unfold Promote in H. apply bind_run in H as (o & s1 & _ & H). done. }
  destruct (Promote_cases _ _ _ _ _ _ H) as [[[e [=]] _]|(t & options' & s0 & s1 & res & Hc & [[= <-]|[e [=]]] & Hs0 & Hs1 & Hb & Hrun)].
  rewrite <- Hs0 in Hu |- *. rewrite Hs1.
  destruct (promotion_repeats pg_lower report options' _ _ (postgres_idempotent pg_lower equal_fold sha256 json_marshal t t) _ _ _ Hu Hrun)
    as (U1 & X1 & _).
  split_and!; [done..|]. intros s2 Hl Hq. set (at_ := timestamptz (clock (S (tick s2)))).
  destruct (promotion_repeats pg_lower report options' _ _ (postgres_idempotent pg_lower equal_fold sha256 json_marshal t at_) _ _ _ Hu Hrun)
    as (_ & _ & R). destruct (R (SQL.mkSession (db s2) (S (S (tick s2))))) as (n & Hn & Hr); [done|intros k ?; apply Hq; cbn in *; lia|].
  exists (S n). cbn in Hn. split; [lia|]. unfold Promote, mbind at 1, go_bind at 1, lift. rewrite Hc. cbn [PostgresStore WithinTransaction].
  unfold withinTransaction. apply (transaction_quiet _ _ _ _ s2 (SQL.mkSession (db s2) n) "%w" result); cbn [db tick].
  - by apply Hq.
  - apply Hq. lia.
  - unfold tx_now at 1, mbind at 1, go_bind at 1. cbn [tick].
    rewrite (bind_quiet _ _ _ _ _ (query_quiet "%w" _ () (SQL.mkSession (db s2) (S (tick s2))) (Hq _ (Nat.le_succ_diag_r _)) eq_refl)).
    fold at_. by rewrite (bind_quiet _ _ _ _ _ Hr).
  - apply Hl.
Qed.

(** ** The command *)
Context (unicode_lower : string -> string) (report_json : Report -> result (list ascii)) (lookup : string -> option string).
#[local] Abbreviation run := (runLegacyBook pg_lower equal_fold sha256 json_marshal unicode_lower report_json lookup).

Definition same_archive (d d' : PromDB) : Prop :=
  archived_users d' = archived_users d /\ archived_transactions d' = archived_transactions d /\ archived_bets d' = archived_bets d.
Lemma attempt_query {A} (f : PromDB -> result A) s s' r a :
  attempt (query "%w" f) s = (s', Ok r) -> r = Ok a -> db s' = db s /\ f (db s) = Ok a.
Proof. intros H ->. by apply attempt_run, query_run in H. Qed.
Lemma read_report_run s s' report :
  read_report unicode_lower s = (s', Ok report) ->
  db s' = db s /\ forall d, same_archive (db s) d -> replays (read_report unicode_lower) d report.
Proof.
  unfold read_report. cbn [negb PostgresSource_Users PostgresSource_Transactions PostgresSource_Wagers]. intros H.
  apply bind_run in H as (us & s1 & H1 & H). apply bind_run in H as (ts & s2 & H2 & H). apply bind_run in H as (ws & s3 & H3 & H).
  apply lift_run in H as [-> H]. apply wrap_err_Ok in H. pose proof H as Hrec. unfold Reconcile in H. cbn [Users Transactions Wagers] in H.
  destruct us as [us|]; [|done]. destruct ts as [ts|]; [|done]. destruct ws as [ws|]; [|done]. clear H.
  apply attempt_query with (a := us) in H1 as [E1 F1]; [|done]. apply attempt_query with (a := ts) in H2 as [E2 F2]; [|done].
  apply attempt_query with (a := ws) in H3 as [E3 F3]; [|done]. split; [congruence|]. rewrite E2, E1 in F3. rewrite E1 in F2.
  intros d (A1 & A2 & A3).
  assert (Hl : forall d2, later d d2 -> source_users d2 = Ok us /\ source_transactions d2 = Ok ts /\ source_wagers d2 = Ok ws).
  { intros d2 ([(B1 & B2 & B3) _ _ _ _ _ _ _ _ _] & _). unfold source_users, source_transactions, source_wagers in *.
    by rewrite B1, B2, B3, A1, A2, A3. }
  eapply replays_bind; [apply replays_attempt, replays_query; intros d2 Hd2; by apply Hl|].
  eapply replays_bind; [apply replays_attempt, replays_query; intros d2 Hd2; by apply Hl|].
  eapply replays_bind; [apply replays_attempt, replays_query; intros d2 Hd2; by apply Hl|].
  apply replays_lift. by apply wrap_err_Ok.
Qed.

Definition actor_row (d : PromDB) : result string :=
  must_find (fst <$> find_row (fun u => bool_decide (iu_email u = Some legacyMigrationActorEmail)
                                        && bool_decide (iu_status u = UserDisabled)) (id_users (people d))).
Lemma actor_lasts d d2 uid : later d d2 -> actor_row d = Ok uid -> actor_row d2 = Ok uid.
Proof.
  intros (Hx & Hu & _) H. unfold actor_row in *. destruct (find_row _ _) as [[k u]|] eqn:Hf in H; [|done]. cbn in H. injection H as ->.
  apply find_row_Some in Hf as [Hk Hc]. bool_prop. destruct (ex_users _ _ Hx _ _ Hk) as (u2 & Hk2 & K1 & K2 & _).
  rewrite (find_row_unique _ _ uid u2); [done..| |].
  - by rewrite K1, K2, !bool_decide_true.
  - intros k' x' Hk' Hx'. bool_prop. eapply (one_email _ _ Hu _ _ _ _ (pg_lower legacyMigrationActorEmail)); [exact Hk'|exact Hk2|..].
    + by match goal with H : iu_email x' = _ |- _ => rewrite H end.
    + by rewrite K1; match goal with H : iu_email u = _ |- _ => rewrite H end.
Qed.

(** The batch of a report. *)
Definition batch_for (version : string) (report : Report) (b : BatchRow) : Prop :=
  ba_source_system b = SourceSystem /\ ba_source_version b = version /\ ba_source_counts b = source_counts report
  /\ ba_reconciliation b = reconciliation report.
Lemma upsert_batch_run id version report d d1 bid :
  unique_rows d -> upsert_batch id version report d = Ok (d1, Some bid) ->
  unique_rows d1 /\ (people d1 = people d /\ ledger_txs d1 = ledger_txs d) /\ same_archive d d1 /\ exists b, batches d1 !! bid = Some b /\ batch_for version report b.
Proof.
  intros [Hr He Hb] H. unfold upsert_batch in H. destruct (batch_of version d) as [[k b]|] eqn:Hf.
  - destruct (bool_decide (ba_state b = "rolled_back"%string)); [done|]. injection H as <- <-. apply find_row_Some in Hf as [Hk Hc]. bool_prop.
    split_and!; [|done|done|done|exists (renew_batch report b); cbn; rewrite lookup_insert_eq; by split_and!].
    split; [exact Hr|exact He|]. cbn. intros i j x y [[<- <-]|[? Hx]]%lookup_insert_Some [[<- <-]|[? Hy]]%lookup_insert_Some; cbn; try done.
    + intros Hs Hv. by apply (Hb _ _ _ _ Hk Hy).
    + intros Hs Hv. by apply (Hb _ _ _ _ Hx Hk).
    + by apply Hb.
  - go_inv. simplify_eq. unfold batch_exists in *. bool_prop. fresh_rows.
    split_and!; [|done|done|done|eexists; cbn; rewrite lookup_insert_eq; by split_and!].
    assert (Hno : forall k x, batches d !! k = Some x -> ba_source_system x = SourceSystem -> ba_source_version x = version -> False).
    { intros k x Hk Hs Hv. pose proof (find_row_None _ _ _ _ Hf Hk) as Hn. cbn in Hn. by rewrite !bool_decide_true in Hn. }
    split; [exact Hr|exact He|]. cbn. intros i j x y [[<- <-]|[? Hx]]%lookup_insert_Some [[<- <-]|[? Hy]]%lookup_insert_Some; cbn; try done.
    + intros Hs Hv. exfalso. by eapply Hno.
    + intros Hs Hv. exfalso. by eapply Hno.
    + by apply Hb.
Qed.
Lemma batch_replays version report d bid b :
  batches d !! bid = Some b -> batch_for version report b -> promoted_batch bid b ->
  replays (ensureLegacyMigrationBatch version report) d bid.
Proof.
  intros Hb (B1 & B2 & B3 & B4) Hp. unfold ensureLegacyMigrationBatch.
  eapply replays_bind with (a := Some bid); [|apply replays_ret]. apply replays_statement. intros n d2 (Hx & Hu & _).
  destruct (ex_batches _ _ Hx _ _ Hb) as (b2 & Hb2 & Hk). pose proof (promoted_kept _ _ _ Hk Hp) as [Hs [ct Hct]].
  destruct Hk as (K1 & K2 & K3 & K4 & _). unfold upsert_batch, batch_of.
  rewrite (find_row_unique _ _ bid b2); [|done| |].
  - rewrite Hs. cbn. replace (renew_batch report b2) with b2; [by rewrite insert_id, same_batches|].
    unfold renew_batch. rewrite (bool_decide_true _ Hs), <- B3, <- K3, <- B4, <- K4, <- Hs. by destruct b2.
  - by rewrite K1, K2, B1, B2, !bool_decide_true.
  - intros k' x' Hk' Hc. bool_prop. eapply (one_batch _ _ Hu); [exact Hk'|exact Hb2|congruence|congruence].
Qed.

(** C29. Running the legacy promotion again changes nothing.  Suppose [cabot
    legacy-book-promote] succeeded, in a database in which every opening balance
    had its settlement.  Run it again in any later state of the database: rows
    were added to any table, members keep their name, email, status and role,
    the archive is the same, and no statement fails.  It then succeeds, reports
    the same batch, version, figures and counts, and leaves every table exactly
    as it is: no user, membership, posting, audit entry or history row is
    written twice. *)
Theorem legacy_promotions_repeat s s' out s2 :
  unique_rows (db s) -> paired (db s) -> run true s = (s', Ok out) ->
  (forall id b, batches (db s') !! id = Some b -> uuid_cast id = Some id) ->
  later (db s') (db s2) -> quiet (tick s2) ->
  exists n, run true s2 = (SQL.mkSession (db s2) n, Ok out).
Proof.
  intros Hu Hpair H Hcanon Hl Hq. unfold runLegacyBook in H. cbn [negb] in H.
  apply bind_run in H as (u1 & s1 & [E1 _]%query_run & H). apply bind_run in H as (report & s3 & H3 & H).
  apply read_report_run in H3 as [E3 R3]. apply bind_run in H as (u4 & s4 & [E4 _]%query_run & H).
  apply bind_run in H as (json & s5 & [-> Hj]%lift_run & H). set (version := of_bytes _) in H.
  destruct (negb (Promotable report)) eqn:Hprom in H; [done|]. destruct (bool_decide (TrimSpace _ = ""%string)) eqn:He1 in H; [done|].
  destruct (negb (bool_decide (TrimSpace _ = version))) eqn:He2 in H; [done|].
  apply bind_run in H as (actor & s6 & [E6 Ha]%query_run & H). apply bind_run in H as (bid & s7 & H7%wrapped_run & H).
  unfold ensureLegacyMigrationBatch in H7. apply bind_run in H7 as (obid & s8 & [n8 H8]%statement_run & H7).
  destruct obid as [bid'|]; [|done]. apply ret_run in H7 as [-> ->].
  assert (U6 : unique_rows (db s6)) by (by rewrite E6, E4, E3, E1). apply upsert_batch_run in H8 as (U8 & P8 & A8 & b & Hb & Hfor); [|done].
  destruct P8 as [P8 L8]. apply bind_run in H as (result & s9 & H9%wrapped_run & [-> ->]%ret_run).
  destruct (Promote_repeats _ _ _ _ _ _ U8 H9) as (_ & X9 & R9).
  assert (Hpb : exists row, batches (db s9) !! bid' = Some row /\ batch_for version report row /\ promoted_batch bid' row).
  { destruct (ex_batches _ _ X9 _ _ Hb) as (row & Hrow & K1 & K2 & K3 & K4 & _).
    exists row. split; [done|]. split; [destruct Hfor as (B1 & B2 & B3 & B4); unfold batch_for; by rewrite K1, K2, K3, K4|].
    destruct (Promote_cases _ _ _ _ _ _ H9) as [[[e [=]] _]|(t & options' & sa & sb & res & Hc & _ & Ea & Eb & _ & Hrun)].
    destruct (promotion_run pg_lower equal_fold sha256 json_marshal t options' report sa sb res) as [_ [_ _ _ (bid2 & row2 & C2 & Q2 & Z2)]]; [|done|].
    - rewrite Ea. split; [done|]. intros c b' id ty Hty. rewrite L8, E6, E4, E3, E1. exact (Hpair _ _ _ _ Hty).
    - apply check_promotion_options in Hc as [Hbid _]. rewrite Hbid in C2. cbn in C2. apply cast_Ok in C2. rewrite (Hcanon _ _ Hrow) in C2.
      injection C2 as <-. rewrite Eb in Hrow. rewrite Hrow in Q2. by injection Q2 as <-. }
  destruct Hpb as (row & Hrow & Hfor' & Hpr).
  assert (Harch : same_archive (db s1) (db s9)).
  { destruct (ex_archive _ _ X9) as (A1 & A2 & A3). destruct A8 as (A4 & A5 & A6). unfold same_archive.
    by rewrite A1, A2, A3, A4, A5, A6, E6, E4, E3. }
  assert (Hact : forall d2, later (db s9) d2 -> actor_row d2 = Ok actor).
  { intros d2 Hd2. apply (actor_lasts (db s8)); [|unfold actor_row; by rewrite P8, E6].
    destruct Hd2 as (X & Hd2). split; [by etrans|done]. }
  enough (R : replays (run true) (db s9) (PromotionOutput bid' version report result)).
  { destruct (R s2 Hl Hq) as (n & _ & Hr). by exists n. }
  unfold runLegacyBook. cbn [negb].
  eapply replays_bind; [by apply replays_query|]. eapply replays_bind; [by apply R3|]. eapply replays_bind; [by apply replays_query|].
  eapply replays_bind; [by apply replays_lift|]. fold version. rewrite Hprom, He1, He2.
  eapply replays_bind; [by apply replays_query|]. eapply replays_bind; [by apply replays_wrapped, (batch_replays version report _ _ row)|].
  eapply replays_bind; [by apply replays_wrapped|]. apply replays_ret.
Qed.
End promote.
