(* ===== verification/PromotionExample.v ===== *)
(** * A promoted archive

    Two members with balances, transactions and a wager: reconciled, promoted,
    and promoted again.  The witnesses of [PromotionProps], and what a repeated
    promotion does to a membership revoked in between. *)
From S2P Require Import Prelude GoStrings GoTime Float64 SQL Sample Ledger Identity Base64 Session IdentityDB.
From S2P Require Import LegacyBook Promotion PromotionPG PromotionRepeat PromotionProps.

Definition no_people : IdDB := mkIdDB ∅ ∅ ∅ ∅ ∅ [].
(** The disabled user the command acts as. *)
Definition importer : IdUserRow :=
  mkIdUserRow "Legacy import" (Some legacyMigrationActorEmail) UserDisabled None column_credit_limit.
Definition archived_at : Time := mkTime 63839966400000000000 true.
Definition archive : PromDB :=
  mkPromDB
    [mkArchivedUser 900001 (Some "Migration Member"%string) (Some "member@example.test"%string) (Some "user"%string)
       (Some "10.00"%string) (Some "0"%string);
     mkArchivedUser 900002 (Some "Migration Admin"%string) (Some "admin@example.test"%string) (Some "admin"%string)
       (Some "-5.00"%string) None]
    [mkArchivedTransaction 910001 (Some 900001) (Some "8.00"%string) (Some "credit"%string) (Some "Fixture credit"%string) (Some archived_at);
     mkArchivedTransaction 910002 (Some 900002) (Some "-5.00"%string) (Some "debit"%string) None (Some archived_at)]
    [mkArchivedBet 920001 (Some 900001) (Some "2.00"%string) (Some "Fixture wager"%string) (Some "150"%string) (Some archived_at)
       (Some "win"%string) (Some true)]
    (with_id_users {[ admin := importer ]} no_people) ∅ ∅ ∅ ∅ ∅ ∅ ∅.

Definition ex_sha256 (_ : list ascii) : Digest := repeat "A"%char 32.
Definition ex_version : string := of_bytes (hex (byte_val <$> ex_sha256 [])).
Definition ex_lookup (name : string) : option string :=
  if bool_decide (name = ExpectedVersionVariable) then Some ex_version else None.
Definition same_text (s : string) : string := s.
Definition same_fold (s t : string) : bool := bool_decide (s = t).
#[local] Abbreviation ex_run :=
  (runLegacyBook same_text same_fold ex_sha256 (fun _ => Ok []) same_text (fun _ => Ok []) ex_lookup).

Definition promoted_once := ex_run true (SQL.mkSession archive 0).
Definition archive_report : Report :=
  match (read_report same_text (SQL.mkSession archive 0)).2 with Ok r => r | Err _ => ex_report end.
Definition ex_output : legacy_output :=
  PromotionOutput (gen_uuid 6) ex_version archive_report (mkPromotionResult 2 2 2 0 2 2 1).
Lemma promoted_is : promoted_once.2 = Ok ex_output.
Proof. by vm_compute. Qed.

Lemma ex_unique (d : PromDB) :
  pairwise (fun x y => mb_live x && mb_live y && bool_decide (mb_user x = mb_user y)) (memberships (people d)) = true ->
  pairwise (fun x y => bool_decide (is_Some (iu_email x) /\ iu_email x = iu_email y)) (id_users (people d)) = true ->
  pairwise (fun x y => bool_decide (ba_source_system x = ba_source_system y) && bool_decide (ba_source_version x = ba_source_version y))
    (batches d) = true ->
  unique_rows same_text d.
Proof.
  intros Hm Hu Hb. split.
  - intros i j x y Hi Hj Hx Hy Hxy. apply (pairwise_spec _ _ i j x y Hm Hi Hj). by rewrite Hx, Hy, bool_decide_true.
  - intros i j x y e Hi Hj Hx Hy. apply (pairwise_spec _ _ i j x y Hu Hi Hj). apply bool_decide_true.
    destruct (iu_email x), (iu_email y); try done. cbn in *. unfold same_text in *. split; [eauto|congruence].
  - intros i j x y Hi Hj Hs Hv. apply (pairwise_spec _ _ i j x y Hb Hi Hj). by rewrite !bool_decide_true.
Qed.
Lemma archive_paired : paired archive.
Proof. intros c b id ty _. split; intros [x Hx]; discriminate (eq_trans (eq_sym Hx) (lookup_empty _)). Qed.
Lemma archive_unique : unique_rows same_text archive.
Proof. apply ex_unique; by vm_compute. Qed.

Lemma legacy_promotions_repeat_witness :
  promoted_once.2 = Ok ex_output /\ exists n, ex_run true promoted_once.1 = (SQL.mkSession (db promoted_once.1) n, Ok ex_output).
Proof.
  split; [exact promoted_is|].
  apply (legacy_promotions_repeat same_text same_fold ex_sha256 (fun _ => Ok []) same_text (fun _ => Ok []) ex_lookup
           (SQL.mkSession archive 0) promoted_once.1 _ promoted_once.1).
  - exact archive_unique.
  - exact archive_paired.
  - exact (run_of _ _ _ promoted_is).
  - assert (Hc : bool_decide (map_Forall (fun id _ => uuid_cast id = Some id) (batches (db promoted_once.1))) = true) by by vm_compute.
    apply bool_decide_eq_true in Hc. exact Hc.
  - split; [reflexivity|]. split; [apply ex_unique; by vm_compute|by vm_compute].
  - intros k _. reflexivity.
Defined.

(** The report's promotion into a batch. *)
Definition validated : PromDB :=
  with_batches {[ sid "c" := mkBatchRow SourceSystem ex_version "validated" [] ([], []) None ]} archive.
Definition archive_options : PromoteOptions := mkPromoteOptions (sid "c") "CAD" admin ex_version.
Definition archive_promotion :=
  Promote (Some (PostgresStore same_text same_fold ex_sha256 (fun _ => Ok []) true)) archive_report archive_options
    (SQL.mkSession validated 0).
Lemma promotions_open_and_close_every_account_witness :
  (paired (db archive_promotion.1) /\ forall account, ledger_balance account (db archive_promotion.1) = 0)
  /\ archive_promotion.2 = Ok (mkPromotionResult 2 2 2 0 2 2 1)
  /\ Forall (promoted_user_row (sid "c") (db archive_promotion.1)) (Report_Users archive_report).
Proof.
  assert (Hr : archive_promotion.2 = Ok (mkPromotionResult 2 2 2 0 2 2 1)) by by vm_compute.
  destruct (promotions_open_and_close_every_account same_text same_fold ex_sha256 (fun _ => Ok []) true archive_report archive_options
              (SQL.mkSession validated 0) archive_promotion.1 archive_promotion.2) as [(_ & Hp & Hb) Hd].
  - apply ex_unique; by vm_compute.
  - intros c b id ty _. split; intros [x Hx]; discriminate (eq_trans (eq_sym Hx) (lookup_empty _)).
  - apply surjective_pairing.
  - split; [|split; [exact Hr|exact (proj1 (Hd _ Hr))]]. split; [exact Hp|]. intros account. rewrite Hb. reflexivity.
Defined.

(** A membership revoked after the promotion is granted again when the
    promotion is repeated. *)
Definition revoke (m : MembershipRow) : MembershipRow :=
  mkMembershipRow (mb_user m) (mb_role m) (mb_granted_by m) (mb_granted_at m) (Some (archived_at, admin, "left the group"%string)).
Definition everyone_left : PromDB :=
  let d := db promoted_once.1 in with_people (with_memberships (revoke <$> memberships (people d)) (people d)) d.
Definition live_members (d : PromDB) : nat := length (List.filter (fun kr => mb_live kr.2) (map_to_list (memberships (people d)))).
Lemma repeating_readmits_former_members :
  live_members everyone_left = 0%nat
  /\ live_members (db (ex_run true (SQL.mkSession everyone_left 100)).1) = 2%nat
  /\ is_Ok (ex_run true (SQL.mkSession everyone_left 100)).2 = true.
Proof. split_and!; by vm_compute. Qed.
