(* ===== verification/PrivateStore.v ===== *)
(** * internal/privatepg: readers.go and bookpulse.go

    What the private pages read: a member's overview, ledger and wagers, the
    book's reconciliation and its dashboard, each query as one read of the
    tables of the betting store.  The columns and tables no other part of the
    store reads (account names, posting identifiers, the promoted history of
    the legacy book) are a record of their own.  Text is ordered bytewise where
    the database uses its collation. *)
From S2P Require Import Prelude GoStrings GoTime Decimal SQL Web PrivateWeb Ledger Events Betting Placement Settlement PromotionPG BettingDB StoreSteps AdjustStore ReadersStore.

(** The names of accounts and the identifiers of postings (of a transaction and
    an account), and the tables a promotion of the legacy book fills. *)
Record Elsewhere := mkElsewhere {
  account_name : string -> string;
  posting_id : string -> string -> string;
  past_transactions : gmap Z HistoryTransaction;
  past_wagers : gmap Z HistoryWager;
  past_mappings : gmap Z MappingRow
}.
(** [privatepg.Settings] *)
Record Settings := mkSettings { AutoApproveDefaultCents : Z }.

Definition activeWagerPreview : nat := 6.
Definition openWagerLimit : nat := 500.

(** ** Sums over the tables *)
Definition all_wagers (d : DB) : list Wager := wr_wager <$> (map_to_list (wager_rows d)).*2.
Definition stakes (l : list Wager) : Z := sumZ (fun w => Cents (Stake w)) l.
Definition count {A} (l : list A) : Z := Z.of_nat (length l).

(** The accounts of one kind, and what some postings leave on them: the join
    of [ledger_postings] with [ledger_accounts]. *)
Definition accounts_where (p : account_key -> bool) (d : DB) : list (account_key * string) :=
  List.filter (fun kr => p kr.1) (map_to_list (accounts d)).
Definition moved (p : account_key -> bool) (ps : list Posting) (d : DB) : Z :=
  sumZ (fun kr => net kr.2 ps) (accounts_where p d).
Definition system_kind (type_ : string) (cur : Currency) (k : account_key) : bool :=
  bool_decide (k.1.2 = type_) && bool_decide (k.2 = cur).
Definition owned_by (user : string) (k : account_key) : bool := bool_decide (k.1.1 = Some user).
(** The postings of the transactions that are bets. *)
Definition bet_postings (d : DB) : list Posting :=
  List.filter (fun r => bet_type (Tx_Type (lt_transaction r))) (ledger d) ≫= row_postings.

Definition countToInt (value : Z) : result Z :=
  fail_if ((value <? 0) || (MaxInt64 <? value)) (Errorf "database count %d is outside int range");;
  Ok value.

(** ** The dashboard's arithmetic *)

(** The house's net on a market's worst and best outcomes. *)
Definition swing_step (swing : Z * Z) (outcome : ExposureOutcome) : Z * Z :=
  let n := Cents (HouseNet outcome) in
  (if n <? swing.1 then n else swing.1, if swing.2 <? n then n else swing.2).
Definition marketSwing (market : MarketExposure) : Z * Z :=
  match Outcomes market with
  | [] => (0, 0)
  | outcome :: rest => foldl swing_step (Cents (HouseNet outcome), Cents (HouseNet outcome)) rest
  end.

(** The standings' bars as percentages of the largest result. *)
Definition magnitude (player : PlayerResult) : Z :=
  let net := Cents (PL_Net player) in if net <? 0 then wrap64 (- net) else net.
Definition set_BarPercent (n : Z) (p : PlayerResult) : PlayerResult :=
  mkPlayerResult (PL_UserID p) (PL_Name p) (PL_Net p) (Won p) (Lost p) (Pushed p) (PL_Open p) (PL_Handle p) n.
Definition scalePlayerBars (players : list PlayerResult) : list PlayerResult * Z :=
  let scale := foldl (fun scale p => if scale <? magnitude p then magnitude p else scale) 0 players in
  if scale =? 0 then (players, 0)
  else ((fun p => set_BarPercent (quot64 (wrap64 (magnitude p * 100)) scale) p) <$> players, scale).

(** ** Exposure *)
Definition set_HouseNet (n : Money) (o : ExposureOutcome) : ExposureOutcome :=
  mkExposureOutcome (EO_Selection o) (EO_Wagers o) (EO_Stake o) (Payout o) n (Worst o).
Definition set_Worst (o : ExposureOutcome) : ExposureOutcome :=
  mkExposureOutcome (EO_Selection o) (EO_Wagers o) (EO_Stake o) (Payout o) (HouseNet o) true.
Definition set_Outcomes (l : list ExposureOutcome) (m : MarketExposure) : MarketExposure :=
  mkMarketExposure (ME_Market m) (ME_State m) (ME_ClosesAt m) (ME_Wagers m) (ME_Stake m) l.

(** One row of [exposureSQL]: a selection with the accepted action on it. *)
Record exposure_join := mkExposureJoin {
  xj_market : string; xj_title : string; xj_state : string; xj_closes_at : Time; xj_selection : string; xj_terms : string;
  xj_count : Z; xj_stake : Z; xj_payout : Z
}.
Definition carries_risk (m : Market) : bool :=
  bool_decide (Market_State m = MarketOpen) || bool_decide (Market_State m = MarketClosed)
  || bool_decide (Market_State m = MarketSettlementPending).
Definition backing (cur : Currency) (market selection : string) (d : DB) : list Wager :=
  List.filter (fun w => bool_decide (Wager_MarketID w = market) && bool_decide (Wager_SelectionID w = selection)
                        && is_accepted w && bool_decide (Money_Currency (Stake w) = cur)) (all_wagers d).
Definition paid_out (w : Wager) : Z := Cents (Stake w) + Cents (PotentialProfit w).
Definition exposure_group (cur : Currency) (d : DB) (x : (string * MarketRow) * (string * SelectionRow)) : result exposure_join :=
  let '((marketID, r), (selectionID, s)) := x in
  let m := mr_market r in
  let action := backing cur marketID selectionID d in
  stake ← scan_int64 (stakes action);
  mapM (fun w => scan_int64 (paid_out w)) action;;
  payout ← scan_int64 (sumZ paid_out action);
  Ok (mkExposureJoin marketID (Title m) (MarketState_text (Market_State m)) (ClosesAt m) selectionID (DisplayTerms (sr_selection s))
        (count action) stake payout).
Definition exposure_keys (j : exposure_join) : list sort_key :=
  [ByZ (nanos (xj_closes_at j)); ByText (xj_market j); ByText (xj_selection j)].
Definition risky_selections (d : DB) : list ((string * MarketRow) * (string * SelectionRow)) :=
  List.filter (fun kr : string * MarketRow => carries_risk (mr_market kr.2)) (map_to_list (markets d)) ≫= fun kr =>
  pair kr <$> selections_joined false kr.1 d.
Definition exposure_joins (cur : Currency) (d : DB) : result (list exposure_join) :=
  rows ← mapM (exposure_group cur d) (risky_selections d);
  Ok (order_by exposure_keys rows).

Definition add_outcome (j : exposure_join) (n : Z) (m : MarketExposure) : MarketExposure :=
  mkMarketExposure (ME_Market m) (ME_State m) (ME_ClosesAt m) (wrap64 (ME_Wagers m + n))
    (mkMoney (wrap64 (Cents (ME_Stake m) + xj_stake j)) (Money_Currency (ME_Stake m)))
    (Outcomes m ++ [mkExposureOutcome (xj_terms j) n (mkMoney (xj_stake j) bookCurrency) (mkMoney (xj_payout j) bookCurrency)
                      (mkMoney 0 "") false]).
(** [for rows.Next()]: the markets so far and the position of each. *)
Fixpoint scan_exposure (rows : list exposure_join) (found : list MarketExposure) (index : gmap string nat)
    : result (list MarketExposure) :=
  match rows with
  | [] => Ok found
  | j :: rest =>
      let '(found, index, position) :=
        match index !! xj_market j with
        | Some position => (found, index, position)
        | None => (found ++ [mkMarketExposure (xj_title j) (xj_state j) (UTC (xj_closes_at j)) 0 (mkMoney 0 bookCurrency) []],
                   <[xj_market j := length found]> index, length found)
        end in
      n ← countToInt (xj_count j);
      scan_exposure rest (alter (add_outcome j n) position found) index
  end.

(** What the house keeps of the market's stakes when an outcome wins, and the
    first outcome that is the worst one, where they differ. *)
Definition house_nets (m : MarketExposure) : MarketExposure :=
  set_Outcomes ((fun o => set_HouseNet (mkMoney (wrap64 (Cents (ME_Stake m) - Cents (Payout o))) bookCurrency) o) <$> Outcomes m) m.
Fixpoint mark_first (worst : Z) (l : list ExposureOutcome) : list ExposureOutcome :=
  match l with
  | [] => []
  | o :: rest => if Cents (HouseNet o) =? worst then set_Worst o :: rest else o :: mark_first worst rest
  end.
Definition mark_worst (m : MarketExposure) : MarketExposure :=
  let '(worst, best) := marketSwing m in
  if worst =? best then m else set_Outcomes (mark_first worst (Outcomes m)) m.

Section readers.
Context {E : environment} (el : Elsewhere) (settings : Settings).
Implicit Types (d : DB).

Definition exposureRows : go (list MarketExposure) :=
  rows ← query "query market exposure: %w" (exposure_joins bookCurrency);
  result ← lift (scan_exposure rows [] ∅);
  mret ((fun m => mark_worst (house_nets m)) <$> result).

(** ** Open wagers, players and balances *)
Definition newest_wager_first (w : Wager) : list sort_key := [ByZ (- nanos (PlacedAt w)); ByTextDesc (Wager_ID w)].

Definition open_wager_join d (w : Wager) : option (Wager * UserRow * MarketRow) :=
  u ← users d !! Wager_UserID w;
  m ← markets d !! Wager_MarketID w;
  Some (w, u, m).
Definition open_wager_row (j : Wager * UserRow * MarketRow) : result OpenWagerRow :=
  let '(w, u, m) := j in
  currency ← wrap_err "open wager currency: %w" (ParseCurrency (Money_Currency (Stake w)));
  odds ← wrap_err "open wager odds: %w" (NewAmericanOdds (AcceptedOdds w));
  Ok (mkOpenWagerRow (UTC (PlacedAt w)) (Wager_UserID w) (display_name u) (Title (mr_market m)) (AcceptedTerms w) odds
        (mkMoney (Cents (Stake w)) currency) (mkMoney (Cents (PotentialProfit w)) currency)).
Definition openWagerRows : go (list OpenWagerRow) :=
  rows ← query "query open wagers: %w" (fun d =>
    Ok (take openWagerLimit (order_by (fun j : Wager * UserRow * MarketRow => newest_wager_first j.1.1)
          (omap (open_wager_join d) (List.filter is_accepted (all_wagers d))))));
  lift (mapM open_wager_row rows).

Definition outstandingRows : go (list OutstandingRow) :=
  query "query outstanding balances: %w" (fun d =>
    let found := merge_sort owes_more (omap (member_balance bookCurrency d) (map_to_list (accounts d))) in
    fail_if (existsb (fun r => negb (bool_decide (int64 (Cents (MBR_Balance r))))) found) (Errorf "bigint out of range");;
    Ok ((fun r => mkOutstandingRow (MBR_UserID r) (MBR_Name r) (MBR_Balance r)) <$> found)).

(** A member's wagers with each of their settlements, of which none supersedes
    another: the column is never written. *)
Definition wager_results d (w : Wager) : list (Wager * option SettlementResult) :=
  match List.filter (fun r => bool_decide (WS_WagerID (wsr_settlement r) = Wager_ID w)) (wager_settlements d) with
  | [] => [(w, None)]
  | l => (fun r => (w, Some (WS_Result (wsr_settlement r)))) <$> l
  end.
Definition member_record (user : string) d : list (Wager * option SettlementResult) :=
  List.filter (fun w => bool_decide (Wager_UserID w = user)) (all_wagers d) ≫= wager_results d.
Definition in_action (w : Wager) : bool := is_accepted w || bool_decide (Wager_State w = WagerSettled).
Definition with_result (p : SettlementResult -> bool) (x : Wager * option SettlementResult) : bool :=
  match x.2 with Some r => p r | None => false end.
(** One row of [playerResultsSQL], before its [WHERE]. *)
Definition player_result d (ku : string * UserRow) : result PlayerResult :=
  let record := member_record ku.1 d in
  netCents ← scan_int64 (moved (owned_by ku.1) (bet_postings d) d);
  handleCents ← scan_int64 (sumZ (fun x => Cents (Stake x.1)) (List.filter (fun x => in_action x.1) record));
  Ok (mkPlayerResult ku.1 (display_name ku.2) (mkMoney netCents bookCurrency)
        (count (List.filter (with_result (fun r => bool_decide (r = ResultWin))) record))
        (count (List.filter (with_result (fun r => bool_decide (r = ResultLoss))) record))
        (count (List.filter (with_result (fun r => bool_decide (r = ResultPush) || bool_decide (r = ResultVoid))) record))
        (count (List.filter (fun x => is_accepted x.1) record)) (mkMoney handleCents bookCurrency) 0).
Definition had_action (p : PlayerResult) : bool := (0 <? Cents (PL_Handle p)) || negb (Cents (PL_Net p) =? 0).
Definition standing_keys (p : PlayerResult) : list sort_key := [ByZ (- Cents (PL_Net p)); ByText (PL_Name p)].
Definition convert_counts (p : PlayerResult) : result PlayerResult :=
  won ← countToInt (Won p);
  lost ← countToInt (Lost p);
  pushed ← countToInt (Pushed p);
  open ← countToInt (PL_Open p);
  Ok (mkPlayerResult (PL_UserID p) (PL_Name p) (PL_Net p) won lost pushed open (PL_Handle p) 0).
Definition playerResults : go (list PlayerResult) :=
  rows ← query "query player results: %w" (fun d =>
    found ← mapM (player_result d) (map_to_list (users d));
    Ok (order_by standing_keys (List.filter had_action found)));
  lift (mapM convert_counts rows).

(** ** The dashboard *)
Record book_totals := mkBookTotals {
  bt_as_of : Time; bt_house : Z; bt_escrow : Z; bt_handle : Z; bt_pending_stake : Z; bt_open_markets : Z; bt_pending : Z;
  bt_open : Z
}.
Definition in_book (cur : Currency) (p : Wager -> bool) d : list Wager :=
  List.filter (fun w => p w && bool_decide (Money_Currency (Stake w) = cur)) (all_wagers d).
Definition is_pending (w : Wager) : bool := bool_decide (Wager_State w = WagerPending).
Definition bookTotals (cur : Currency) (as_of : Time) d : result book_totals :=
  house ← scan_int64 (moved (system_kind "house_clearing" cur) (bet_postings d) d);
  escrow ← scan_int64 (moved (system_kind "wager_escrow" cur) (all_postings d) d);
  handle ← scan_int64 (stakes (in_book cur in_action d));
  pending ← scan_int64 (stakes (in_book cur is_pending d));
  Ok (mkBookTotals as_of house escrow handle pending
        (count (List.filter (fun r => bool_decide (Market_State (mr_market r) = MarketOpen)) (map_to_list (markets d)).*2))
        (count (List.filter is_pending (all_wagers d))) (count (List.filter is_accepted (all_wagers d)))).

Definition in_cad (cents : Z) : Money := mkMoney cents bookCurrency.
Definition swings (exposure : list MarketExposure) : Z * Z :=
  foldl (fun acc market => let '(worst, best) := marketSwing market in (wrap64 (acc.1 + worst), wrap64 (acc.2 + best))) (0, 0) exposure.
(** What members owe the book and what it owes them. *)
Definition owed (acc : Z * Z) (row : OutstandingRow) : Z * Z :=
  let cents := Cents (OR_Balance row) in
  if cents <? 0 then (wrap64 (acc.1 - cents), acc.2) else (acc.1, wrap64 (acc.2 + cents)).

Definition Readers_BookPulse : go BookPulse :=
  totals ← statement "load book totals: %w" (fun n d => t ← bookTotals bookCurrency (timestamptz (clock n)) d; Ok (d, t));
  openMarkets ← lift (countToInt (bt_open_markets totals));
  pendingWagers ← lift (countToInt (bt_pending totals));
  openWagers ← lift (countToInt (bt_open totals));
  exposure ← exposureRows;
  let '(worst, best) := swings exposure in
  openRows ← openWagerRows;
  results ← playerResults;
  let '(players, scale) := scalePlayerBars results in
  outstanding ← outstandingRows;
  let '(toBook, byBook) := foldl owed (0, 0) outstanding in
  mret (mkBookPulse (bt_as_of totals) (in_cad (bt_house totals)) (in_cad (bt_escrow totals)) (in_cad (bt_handle totals))
          (in_cad worst) (in_cad best) openMarkets pendingWagers (in_cad (bt_pending_stake totals)) openWagers exposure openRows
          players (in_cad scale) outstanding (in_cad toBook) (in_cad byBook)).

(** ** A member's balances *)
Definition requireUserID (userID : string) : result unit := fail_if (is_blank userID) (Errorf "user ID is required").
Definition balanceLabel (accountType : string) : string :=
  if bool_decide (accountType = "user_cash"%string) then "Available cash"
  else if bool_decide (accountType = "user_free_play"%string) then "Free play" else "Account balance".
Definition balanceNote (accountType : string) (cents : Z) : string :=
  if bool_decide (accountType = "user_cash"%string) then
    (if cents <? 0 then "Owed to the book, drawn against your credit limit" else "Settled cash held with the book")
  else if bool_decide (accountType = "user_free_play"%string) then "Promotional balance" else "".

Definition balance_row (x : account_key * string * Z) : result BalanceRow :=
  let '((k, account), cents) := x in
  currency ← ParseCurrency (TrimSpace k.2);
  amount ← NewMoney cents currency;
  Ok (mkBalanceRow (balanceLabel k.1.2) (account_name el account) (balanceNote k.1.2 cents) amount).
Definition balance_keys (x : account_key * string * Z) : list sort_key := [ByText x.1.1.1.2; ByText x.1.1.2; ByText x.1.2].
Definition balanceRows (userID : string) : go (list BalanceRow) :=
  rows ← query "%w" (fun d =>
    u ← cast userID;
    found ← mapM (fun kr => cents ← scan_int64 (balance_of kr.2 d); Ok (kr, cents)) (accounts_where (owned_by u) d);
    Ok (order_by balance_keys found));
  lift (mapM balance_row rows).

(** ** A member's ledger *)
Definition TransactionType_text (t : TransactionType) : string :=
  match t with
  | TransactionWagerAcceptance => "wager_acceptance" | TransactionWagerWin => "wager_win" | TransactionWagerLoss => "wager_loss"
  | TransactionWagerRefund => "wager_refund" | TransactionAdminAdjustment => "admin_adjustment"
  | TransactionMigrationAdjust => "migration_adjustment" | TransactionReversal => "reversal" | TransactionOther text => text
  end.
(** [initcap(replace(t, '_', ' '))] of an ASCII text. *)
Definition upper_byte (a : ascii) : ascii := if is_lower a then ascii_of_nat (nat_of_ascii a - 32) else a.
Definition lower_byte (a : ascii) : ascii := if between 65 90 a then ascii_of_nat (nat_of_ascii a + 32) else a.
Fixpoint initcap (inside : bool) (l : list ascii) : list ascii :=
  match l with
  | [] => []
  | a :: l =>
      (if inside then lower_byte a else upper_byte a) :: initcap (is_lower a || between 65 90 a || is_digit a) l
  end.
Definition type_words (t : TransactionType) : string :=
  of_bytes (initcap false ((fun a => if byte_is 95 a then " "%char else a) <$> bytes (TransactionType_text t))).

Definition bet_label d (w : Wager) : option string :=
  m ← markets d !! Wager_MarketID w;
  Some (Title (mr_market m) ++ " — " ++ AcceptedTerms w)%string.
(** The wager a transaction accepted, or settled; the columns are unique. *)
Definition accepted_by_transaction (id : string) d : option string :=
  head (omap (fun r => if bool_decide (acceptance_ledger_transaction_id r = Some id) then bet_label d (wr_wager r) else None)
          (map_to_list (wager_rows d)).*2).
Definition settled_by_transaction (id : string) d : option string :=
  head (omap (fun r => if bool_decide (wsr_ledger_transaction_id r = id)
                       then w ← wager_rows d !! WS_WagerID (wsr_settlement r); bet_label d (wr_wager w) else None) (wager_settlements d)).
Definition reference_label (id : string) d : string :=
  match accepted_by_transaction id d with
  | Some label => label
  | None => default ""%string (settled_by_transaction id d)
  end.

(** One row of [ledgerRowsSQL]. *)
Record ledger_join := mkLedgerJoin {
  lj_at : Time; lj_description : string; lj_type : string; lj_reference : string; lj_label : string; lj_account : string;
  lj_amount : Z; lj_currency : Currency; lj_running : Z; lj_has_running : bool; lj_rank : Z; lj_id : string; lj_row_id : string
}.
(** The postings of an account in the order of its window. *)
Definition history_keys (account : string) (r : LedgerRow * Posting) : list sort_key :=
  [ByZ (nanos (lt_occurred_at r.1)); ByText (lt_id r.1); ByText (posting_id el (lt_id r.1) account)].
Definition postings_on (account : string) d : list (LedgerRow * Posting) :=
  ledger d ≫= fun r => pair r <$> List.filter (fun p => bool_decide (AccountID p = account)) (row_postings r).
Definition account_history (account : string) d : list (LedgerRow * Posting) := order_by (history_keys account) (postings_on account d).
(** [sum(...) OVER (... ROWS BETWEEN UNBOUNDED PRECEDING AND CURRENT ROW)] *)
Fixpoint running (sum : Z) (l : list (LedgerRow * Posting)) : list (LedgerRow * Posting * Z) :=
  match l with
  | [] => []
  | x :: rest => let sum := sum + Cents (Amount x.2) in (x, sum) :: running sum rest
  end.
Definition ledger_entry d (account : string) (x : LedgerRow * Posting * Z) : result ledger_join :=
  let '((r, p), sum) := x in
  let t := lt_transaction r in
  sum ← scan_int64 sum;
  Ok (mkLedgerJoin (lt_occurred_at r)
        (if bool_decide (Tx_Reason t = ""%string) then type_words (Tx_Type t) else Tx_Reason t)
        (TransactionType_text (Tx_Type t))
        (Tx_SourceType t ++ ":" ++ (if bool_decide (Tx_SourceID t = ""%string) then lt_id r else Tx_SourceID t))
        (reference_label (lt_id r) d) (account_name el account) (Cents (Amount p)) (Tx_Currency t) sum true 0 (lt_id r)
        (posting_id el (lt_id r) account)).
Definition past_entry (kr : Z * HistoryTransaction) : ledger_join :=
  let '(id, h) := kr in
  mkLedgerJoin (ht_occurred_at h) (ht_description h) ("legacy_" ++ ht_type h) ("legacy-transaction:" ++ sprint_d id) "" "Legacy archive"
    (ht_amount h) (ht_currency h) 0 false 1 "" (sprint_d id).
Definition ledger_keys (j : ledger_join) : list sort_key :=
  [ByZ (- nanos (lj_at j)); ByZ (lj_rank j); ByTextDesc (lj_id j); ByTextDesc (lj_row_id j)].
(** [LIMIT NULLIF(limit, 0)] *)
Definition limited {A} (limit : nat) (l : list A) : list A := match limit with O => l | _ => take limit l end.
Definition member_postings (user : string) d : list (string * (LedgerRow * Posting * Z)) :=
  accounts_where (owned_by user) d ≫= fun kr => pair kr.2 <$> running 0 (account_history kr.2 d).
Definition ledger_joins (user : string) (limit : nat) d : result (list ledger_join) :=
  entries ← mapM (fun x => ledger_entry d x.1 x.2) (member_postings user d);
  let past := past_entry <$> List.filter (fun kr => bool_decide (ht_user kr.2 = user)) (map_to_list (past_transactions el)) in
  Ok (limited limit (order_by ledger_keys (entries ++ past))).
Definition ledger_row (j : ledger_join) : result PrivateWeb.LedgerRow :=
  currency ← ParseCurrency (TrimSpace (lj_currency j));
  amount ← NewMoney (lj_amount j) currency;
  balance ← NewMoney (lj_running j) currency;
  Ok (PrivateWeb.mkLedgerRow (timestamptz (lj_at j)) (lj_description j) (lj_type j) (lj_reference j) (lj_label j) (lj_account j)
        amount balance (lj_has_running j)).
Definition ledgerRows (userID : string) (limit : nat) : go (list PrivateWeb.LedgerRow) :=
  rows ← query "%w" (fun d => u ← cast userID; ledger_joins u limit d);
  lift (mapM ledger_row rows).
Definition LedgerRows (userID : string) : go (list PrivateWeb.LedgerRow) :=
  lift (requireUserID userID);;
  wrapped "load ledger rows: %w" (ledgerRows userID 0).

(** ** A member's wagers *)

(** The last settlement recorded for a wager. *)
Definition last_result d (id : string) : option SettlementResult :=
  (fun r => WS_Result (wsr_settlement r))
  <$> last (List.filter (fun r => bool_decide (WS_WagerID (wsr_settlement r) = id)) (wager_settlements d)).
Definition wager_status d (w : Wager) : string :=
  if bool_decide (Wager_State w = WagerSettled) then
    match last_result d (Wager_ID w) with
    | Some ResultWin => "Won" | Some ResultLoss => "Lost" | Some ResultPush => "Push" | Some ResultVoid => "Void"
    | _ => "Settled"
    end
  else WagerState_text (Wager_State w).
(** One row of [wagersSQL]. *)
Record wager_line := mkWagerLine {
  wl_at : Time; wl_market : string; wl_selection : string; wl_odds : Z; wl_stake : Z; wl_currency : Currency; wl_profit : Z;
  wl_status : string; wl_legacy : bool; wl_rank : Z; wl_id : string
}.
Definition wager_entry d (w : Wager) : option wager_line :=
  m ← markets d !! Wager_MarketID w;
  Some (mkWagerLine (PlacedAt w) (Title (mr_market m)) (AcceptedTerms w) (AcceptedOdds w) (Cents (Stake w)) (Money_Currency (Stake w))
          (Cents (PotentialProfit w)) (wager_status d w) false 0 (Wager_ID w)).
Definition past_wager (kr : Z * HistoryWager) : wager_line :=
  let '(id, h) := kr in
  mkWagerLine (hw_placed_at h) "Legacy archive" (hw_terms h) (hw_odds h) (hw_stake h) (hw_currency h) 0
    (if hw_approved h then "legacy_" ++ hw_result h else "legacy_unapproved") true 1 (sprint_d id).
Definition wager_line_keys (x : wager_line) : list sort_key := [ByZ (- nanos (wl_at x)); ByZ (wl_rank x); ByTextDesc (wl_id x)].
Definition member_wagers (user : string) d : list Wager := List.filter (fun w => bool_decide (Wager_UserID w = user)) (all_wagers d).
Definition wager_lines (user : string) d : list wager_line :=
  order_by wager_line_keys
    (omap (wager_entry d) (member_wagers user d)
     ++ (past_wager <$> List.filter (fun kr => bool_decide (hw_user kr.2 = user)) (map_to_list (past_wagers el)))).
Definition wager_row (x : wager_line) : result PrivateWeb.WagerRow :=
  currency ← wrap_err "wager currency: %w" (ParseCurrency (TrimSpace (wl_currency x)));
  stake ← wrap_err "wager stake: %w" (NewMoney (wl_stake x) currency);
  odds ← wrap_err "wager odds: %w" (NewAmericanOdds (wl_odds x));
  profit ← wrap_err "wager potential profit: %w"
             (if wl_legacy x then Profit odds stake else NewMoney (wl_profit x) currency);
  Ok (PrivateWeb.mkWagerRow (timestamptz (wl_at x)) (wl_market x) (wl_selection x) odds stake profit (wl_status x) false zeroTime).
Definition WagerRows (userID : string) : go (list PrivateWeb.WagerRow) :=
  lift (requireUserID userID);;
  rows ← query "query wagers: %w" (fun d => u ← cast userID; Ok (wager_lines u d));
  lift (mapM wager_row rows).

(** The wagers a member has riding. *)
Definition riding_join d (w : Wager) : option (Wager * MarketRow) := m ← markets d !! Wager_MarketID w; Some (w, m).
Definition riding_row (j : Wager * MarketRow) : result PrivateWeb.WagerRow :=
  let '(w, m) := j in
  currency ← wrap_err "active wager currency: %w" (ParseCurrency (TrimSpace (Money_Currency (Stake w))));
  stake ← wrap_err "active wager stake: %w" (NewMoney (Cents (Stake w)) currency);
  odds ← wrap_err "active wager odds: %w" (NewAmericanOdds (AcceptedOdds w));
  profit ← wrap_err "active wager potential profit: %w" (NewMoney (Cents (PotentialProfit w)) currency);
  Ok (PrivateWeb.mkWagerRow (timestamptz (PlacedAt w)) (Title (mr_market m)) (AcceptedTerms w) odds stake profit
        (if is_pending w then "Pending approval" else "Open") (is_pending w) (timestamptz (ClosesAt (mr_market m)))).
Definition activeWagerRows (userID : string) (limit : nat) : go (list PrivateWeb.WagerRow) :=
  rows ← query "%w" (fun d =>
    u ← cast userID;
    Ok (limited limit (order_by (fun j : Wager * MarketRow => newest_wager_first j.1)
          (omap (riding_join d) (List.filter (fun w => is_pending w || is_accepted w) (member_wagers u d))))));
  lift (mapM riding_row rows).

(** ** The overview *)
Record member_counts := mkMemberCounts {
  mc_open : Z; mc_pending : Z; mc_settled : Z; mc_open_stake : Z; mc_open_profit : Z; mc_pending_stake : Z
}.
Definition dashboardCounts (user : string) d : result member_counts :=
  let mine := member_wagers user d in
  let open := List.filter is_accepted mine in
  let pending := List.filter is_pending mine in
  openStake ← scan_int64 (stakes open);
  openProfit ← scan_int64 (sumZ (fun w => Cents (PotentialProfit w)) open);
  pendingStake ← scan_int64 (stakes pending);
  Ok (mkMemberCounts (count open) (count pending)
        (count (List.filter (fun w => bool_decide (Wager_State w = WagerSettled)) mine)
         + count (List.filter (fun kr => bool_decide (hw_user kr.2 = user) && hw_approved kr.2) (map_to_list (past_wagers el))))
        openStake openProfit pendingStake).
(** The credit limit, the cash balance in the book's currency and the
    member's own threshold. *)
Definition creditLine (user : string) d : result (Z * Z * option Z) :=
  u ← must_find (users d !! user);
  cash ← scan_int64 (default 0 ((fun a => balance_of a d) <$> accounts d !! (Some user, "user_cash"%string, bookCurrency)));
  Ok (credit_limit_cents u, cash, wager_auto_approve_max_cents u).

Definition Readers_DashboardSummary (userID : string) : go DashboardSummary :=
  lift (requireUserID userID);;
  balances ← wrapped "load balances: %w" (balanceRows userID);
  counts ← query "load wager summary: %w" (fun d => u ← cast userID; dashboardCounts u d);
  openCount ← lift (countToInt (mc_open counts));
  pendingCount ← lift (countToInt (mc_pending counts));
  settledCount ← lift (countToInt (mc_settled counts));
  recent ← wrapped "load recent ledger activity: %w" (ledgerRows userID 5);
  active ← wrapped "load active wagers: %w" (activeWagerRows userID activeWagerPreview);
  '(creditLimit, cashBalance, autoApproveOverride) ← query "load credit line: %w" (fun d => u ← cast userID; creditLine u d);
  mret (mkDashboardSummary balances openCount pendingCount settledCount recent (in_cad creditLimit)
          (in_cad (wrap64 (creditLimit + cashBalance))) (in_cad (default (AutoApproveDefaultCents settings) autoApproveOverride))
          (bool_decide (autoApproveOverride <> None)) (in_cad (mc_open_stake counts)) (in_cad (mc_open_profit counts))
          (in_cad (mc_pending_stake counts)) active (Z.max (openCount + pendingCount - count active) 0)).

(** ** Reconciliation *)

(** One row of [transaction_checks]: do the postings fail the ledger's own
    rules? *)
Definition mismatches d (r : LedgerRow) : Z :=
  sumZ (fun p => count (List.filter (fun kr : account_key * string =>
          bool_decide (kr.2 = AccountID p) && negb (bool_decide (kr.1.2 = Tx_Currency (lt_transaction r)))) (map_to_list (accounts d))))
    (row_postings r).
Definition unbalanced d (r : LedgerRow) : bool :=
  negb (count (row_postings r) =? expected_posting_count r) || negb (sumZ posting_cents (row_postings r) =? 0)
  || negb (mismatches d r =? 0).
Definition outbox_count (state : OutboxState) d : Z :=
  count (List.filter (fun r => bool_decide (OutboxPG.row_state r = state)) (map_to_list (outbox d)).*2).
Definition migrationDifference : result Z :=
  scan_int64 (sumZ mp_difference (List.filter (fun r => bool_decide (mp_state r = "promoted"%string)) (map_to_list (past_mappings el)).*2)).

Definition Readers_ReconciliationSummary : go AdminReconciliationSummary :=
  '(asOf, counts, difference) ← statement "load reconciliation summary: %w" (fun n d =>
    difference ← migrationDifference;
    Ok (d, (timestamptz (clock n),
            (count (ledger d), count (List.filter (unbalanced d) (ledger d)), outbox_count OutboxPending d, outbox_count OutboxFailed d),
            difference)));
  let '(transactions, bad, pending, failed) := counts in
  transactions ← lift (countToInt transactions);
  bad ← lift (countToInt bad);
  pending ← lift (countToInt pending);
  failed ← lift (countToInt failed);
  mret (mkAdminReconciliationSummary asOf (bad =? 0) transactions bad pending failed (mkMoney difference CAD)).

(** ** The readers behind the pages *)
Definition private_answers : answers (E := private_call) DB := fun X c =>
  match c in private_call X return go X with
  | QDashboardSummary u => Readers_DashboardSummary u
  | QLedgerRows u => LedgerRows u
  | QWagerRows u => WagerRows u
  | QReconciliationSummary => Readers_ReconciliationSummary
  | QBookPulse => Readers_BookPulse
  end.
End readers.
