(* ===== verification/PrivateStoreProps.v ===== *)
(** * What the private pages show is the book

    The dashboard of internal/privatepg against the ledger: the figures add up,
    the reconciliation finds nothing, exposure is what grading would move, and a
    member's running balances end at the balance. *)
From S2P Require Import Prelude GoStrings GoTime Decimal SQL Web PrivateWeb Ledger Events Payloads Betting Placement Settlement SettlementProps Book PricingStore PromotionPG.
From S2P Require Import BettingDB StoreSteps ParlayStore MarketStore AdjustStore ReadersStore StoreRefinement PrivateStore.

(** ** Lists *)
Lemma mapM_Forall2 {A B} (f : A -> result B) l rs : mapM f l = Ok rs -> Forall2 (fun x r => f x = Ok r) l rs.
Proof. revert rs. induction l as [|x l IH]; intros rs H; cbn in H; go_inv; [constructor|]. constructor; [done|by apply IH]. Qed.
Lemma Forall2_sumZ {A B} (P : A -> B -> Prop) (f : A -> Z) (g : B -> Z) l rs :
  Forall2 P l rs -> (forall x r, P x r -> f x = g r) -> sumZ f l = sumZ g rs.
Proof. intros H HP. induction H as [|x r l rs Hx _ IH]; [done|]. rewrite !sumZ_cons. rewrite (HP _ _ Hx). lia. Qed.

(** ** Whose account is whose *)

(** An account is a member's, of a member there is, or one of the book's own. *)
Definition known_accounts (d : DB) : Prop := forall owner type_ cur id,
  accounts d !! (owner, type_, cur) = Some id ->
  match owner with Some u => is_Some (users d !! u) /\ member_account type_ = true | None => house_account type_ end.
Lemma known_accounts_grow d d' : accounts_grow d d' -> known_accounts d -> known_accounts d'.
Proof.
  intros [_ _ Hh Ho Hu] Hk [u|] t c i Hi.
  - rewrite Hu. apply Ho in Hi as [Hi|Hi]; [by apply (Hk (Some u) t c i)|done].
  - apply Hh in Hi as [Hi|Hi]; [by apply (Hk None t c i)|done].
Qed.

(** A database some commands led to, from one without bets. *)
Record booked (d0 d : DB) : Prop := {
  bo_fresh : fresh_db d0;
  bo_known : known_accounts d0;
  bo_steps : store_steps d0 d;
  bo_checked : deferred_constraints d = true
}.

Section booked.
Context (d0 d : DB) (Hb : booked d0 d).

Lemma booked_inj : accounts_inj d.
Proof. eapply ag_inj; [apply store_steps_accounts, Hb|apply (bo_fresh _ _ Hb)]. Qed.
Lemma booked_known : known_accounts d.
Proof. eapply known_accounts_grow; [apply store_steps_accounts, Hb|apply (bo_known _ _ Hb)]. Qed.
Lemma booked_rows : Forall (fun r => ledger_row_ok d r = true) (ledger d).
Proof.
  pose proof (bo_checked _ _ Hb) as Hd. unfold deferred_constraints in Hd. rewrite forallb_forall in Hd.
  apply Forall_forall. intros r Hr%list_elem_of_In. by apply Hd.
Qed.
Lemma booked_plain : settle_ups_plain d.
Proof.
  eapply so_settle_ups, store_steps_ok; [apply Hb|]. pose proof (bo_fresh _ _ Hb). split; [by apply fresh_keyed|by apply fresh_settle_ups].
Qed.

(** A posting is on one account, and on no other. *)
Lemma booked_posting r p : r ∈ ledger d -> p ∈ row_postings r ->
  exists owner type_, accounts d !! (owner, type_, Tx_Currency (lt_transaction r)) = Some (AccountID p).
Proof.
  intros Hr Hp. pose proof booked_rows as Hok. rewrite Forall_forall in Hok. apply Hok in Hr. unfold ledger_row_ok in Hr. bool_prop.
  match goal with Hx : forallb _ _ = true |- _ => rewrite forallb_forall in Hx; apply list_elem_of_In, Hx in Hp end.
  by apply account_in_spec.
Qed.

Lemma moved_everywhere (rows : list LedgerRow) : (forall r, r ∈ rows -> r ∈ ledger d) ->
  sumZ (fun kr => net kr.2 (rows ≫= row_postings)) (map_to_list (accounts d)) = sumZ posting_cents (rows ≫= row_postings).
Proof.
  intros Hrows. unfold net. rewrite sumZ_swap. apply sumZ_ext. intros p Hp.
  apply list_elem_of_bind in Hp as (r & Hp & Hr). destruct (booked_posting r p) as (o & t & Hk); [by apply Hrows|done|].
  apply (sumZ_one (fun kr => bool_decide (AccountID p = kr.2)) _ (o, t, Tx_Currency (lt_transaction r), AccountID p)).
  - apply NoDup_map_to_list.
  - by apply elem_of_map_to_list.
  - intros [k id] Hin%elem_of_map_to_list. rewrite bool_decide_eq_true. cbn. split; [|by intros [= _ ->]].
    intros <-. by rewrite (booked_inj _ _ _ Hin Hk).
Qed.

Lemma bet_rows_balance : sumZ posting_cents (bet_postings d) = 0.
Proof.
  unfold bet_postings. rewrite sumZ_bind. apply sumZ_zero. intros r [Hr _]%filter_bool_elem.
  pose proof booked_rows as Hok. rewrite Forall_forall in Hok. apply Hok in Hr. unfold ledger_row_ok in Hr. bool_prop. done.
Qed.

(** Only bets touch escrow. *)
Lemma escrow_of_bets k id : accounts d !! k = Some id -> k.1.2 = "wager_escrow"%string ->
  net id (all_postings d) = net id (bet_postings d).
Proof.
  intros Hk Ht. unfold all_postings, bet_postings, net. fold row_postings. rewrite !sumZ_bind, sumZ_filter. apply sumZ_ext.
  intros r Hr. destruct (bet_type _) eqn:Eb; [done|]. fold (net id (row_postings r)). apply net_absent.
  pose proof booked_plain as Hp. unfold settle_ups_plain in Hp. rewrite Forall_forall in Hp. eapply Forall_impl.
  - apply (Hp r Hr). unfold nobodys_bet, wager_source, parlay_source. by rewrite Eb.
  - intros p (k' & Hk' & Hne) Heq. apply Hne. rewrite Heq in Hk'. by rewrite (booked_inj _ _ _ Hk' Hk).
Qed.
Lemma escrow_moved cur : moved (system_kind "wager_escrow" cur) (all_postings d) d = moved (system_kind "wager_escrow" cur) (bet_postings d) d.
Proof.
  apply sumZ_ext. intros [k id] [Hin Hp]%filter_bool_elem. apply elem_of_map_to_list in Hin. unfold system_kind in Hp. cbn in Hp. bool_prop.
  by apply (escrow_of_bets k).
Qed.

(** *** The accounts of a book in one currency *)
Definition one_currency : Prop := forall k id, accounts d !! k = Some id -> k.2 = bookCurrency.

Lemma kinds_sum (Hone : one_currency) (g : account_key * string -> Z) :
  sumZ g (map_to_list (accounts d))
  = sumZ g (accounts_where (system_kind "house_clearing" bookCurrency) d)
    + sumZ g (accounts_where (system_kind "wager_escrow" bookCurrency) d)
    + sumZ (fun ku => sumZ g (accounts_where (owned_by ku.1) d)) (map_to_list (users d)).
Proof.
  unfold accounts_where. rewrite !sumZ_filter.
  rewrite (sumZ_ext (fun ku : string * UserRow => _) (fun ku => sumZ (fun kr => if owned_by ku.1 kr.1 then g kr else 0) (map_to_list (accounts d))))
    by (intros; apply sumZ_filter).
  rewrite sumZ_swap, <- !sumZ_plus. apply sumZ_ext. intros [[[o t] c] id] Hin%elem_of_map_to_list.
  pose proof (booked_known _ _ _ _ Hin) as Hk. apply Hone in Hin as Hc. cbn in Hc. subst c. unfold system_kind, owned_by. cbn [fst snd].
  rewrite (bool_decide_true (bookCurrency = bookCurrency)), !andb_true_r by done. destruct o as [u|].
  - destruct Hk as [[row Hu] Ht].
    assert (Hne : bool_decide (t = "house_clearing"%string) = false /\ bool_decide (t = "wager_escrow"%string) = false).
    { unfold member_account in Ht. apply orb_prop in Ht as [Ht|Ht]; bool_prop; by subst. }
    destruct Hne as [-> ->]. symmetry. apply (sumZ_one (fun ku : string * UserRow => bool_decide (Some u = Some ku.1)) _ (u, row)).
    + apply NoDup_map_to_list.
    + by apply elem_of_map_to_list.
    + intros [u' row'] Hin'%elem_of_map_to_list. rewrite bool_decide_eq_true. cbn. split; [intros [= <-]; congruence|by intros [= -> _]].
  - rewrite sumZ_zero by done. destruct Hk as [->| ->]; repeat case_bool_decide; (done || lia).
Qed.

(** Bets move money between the house, escrow and the members. *)
Lemma bets_balance : one_currency ->
  moved (system_kind "house_clearing" bookCurrency) (bet_postings d) d + moved (system_kind "wager_escrow" bookCurrency) (all_postings d) d
  + sumZ (fun ku => moved (owned_by ku.1) (bet_postings d) d) (map_to_list (users d)) = 0.
Proof.
  intros Hone. rewrite escrow_moved. unfold moved. rewrite <- kinds_sum by done.
  transitivity (sumZ posting_cents (bet_postings d)); [|apply bet_rows_balance]. apply moved_everywhere. by intros r [Hr _]%filter_bool_elem.
Qed.

Lemma escrow_kind cur k : is_Some (accounts d !! k) -> system_kind "wager_escrow" cur k = true -> k = escrow_key cur.
Proof.
  intros [id Hk] Hs. unfold system_kind in Hs. bool_prop. destruct k as [[[u|] t] c]; cbn in *; subst; [|done].
  by destruct (booked_known _ _ _ _ Hk) as [_ Ht].
Qed.

(** The balance of the escrow accounts of a currency, whether or not there is
    one. *)
Lemma escrow_open_stakes cur :
  moved (system_kind "wager_escrow" cur) (all_postings d) d = total (held <$> book_wagers cur d) + parlay_stakes cur d.
Proof.
  unfold moved, accounts_where. rewrite sumZ_filter. destruct (accounts d !! escrow_key cur) as [escrow|] eqn:He.
  - rewrite <- (proj1 (escrow_of_steps d0 d cur escrow (bo_fresh _ _ Hb) (bo_steps _ _ Hb) (bo_checked _ _ Hb) He)).
    rewrite (sumZ_ext _ (fun kr => if system_kind "wager_escrow" cur kr.1 then balance_of escrow d else 0)).
    + apply (sumZ_one (fun kr : account_key * string => system_kind "wager_escrow" cur kr.1) _ (escrow_key cur, escrow)).
      * apply NoDup_map_to_list.
      * by apply elem_of_map_to_list.
      * intros [k id] Hin%elem_of_map_to_list. cbn. split; [|intros [= -> _]; unfold system_kind; cbn; by rewrite !bool_decide_true].
        intros Hk. apply escrow_kind in Hk as Hkey; [|by exists id]. subst. congruence.
    + intros [k id] Hin%elem_of_map_to_list. cbn. destruct (system_kind _ _ k) eqn:Hk; [|done].
      apply escrow_kind in Hk; [|by exists id]. subst. rewrite He in Hin. by injection Hin as ->.
  - rewrite sumZ_zero.
    + set (e := fresh ((map_to_list (accounts d)).*2)).
      assert (Hn : forall p, net e (List.filter p (ledger d) ≫= row_postings) = 0).
      { intros p. apply net_absent, Forall_forall. intros q (r & Hq & [Hr _]%filter_bool_elem)%list_elem_of_bind Heq.
        destruct (booked_posting r q Hr Hq) as (o & t & Hk%elem_of_map_to_list). apply (infinite_is_fresh ((map_to_list (accounts d)).*2)).
        apply list_elem_of_fmap. eexists. split; [|exact Hk]. by rewrite Heq. }
      assert (Hc : compat e cur d) by (intros id Hid; congruence).
      destruct (store_steps_simulated e cur d0 d empty_book Hc (bo_steps _ _ Hb) (fresh_holds cur d0 (bo_fresh _ _ Hb))) as (b & Hr & [Hw Hbal _]).
      pose proof (bk_escrow _ _ _ (reachable_ok _ _ _ Hr)) as Hbk. rewrite Hw, Hbal, book_balances_lookup, Hn in Hbk.
      pose proof (store_steps_parlays_covered e cur d0 d Hc (bo_steps _ _ Hb) (fresh_covered e cur d0 (bo_fresh _ _ Hb))) as Hp.
      unfold parlays_covered, parlay_postings_of in Hp. rewrite Hn in Hp. lia.
    + intros [k id] Hin%elem_of_map_to_list. cbn. destruct (system_kind _ _ k) eqn:Hk; [|done].
      apply escrow_kind in Hk; [|by exists id]. congruence.
Qed.
End booked.

(** ** The figures *)
Section figures.
Context {E : environment} (el : Elsewhere) (settings : Settings).

Lemma player_result_Ok d ku p : player_result d ku = Ok p -> Cents (PL_Net p) = moved (owned_by ku.1) (bet_postings d) d.
Proof. unfold player_result. intros H. go_inv. simplify_eq. by match goal with Hx : scan_int64 (moved _ _ _) = Ok _ |- _ => apply scan_int64_Ok in Hx as [-> _] end. Qed.

Lemma playerResults_net s s' players : playerResults s = (s', Ok players) ->
  db s' = db s
  /\ sumZ (fun p => Cents (PL_Net p)) players = sumZ (fun ku => moved (owned_by ku.1) (bet_postings (db s)) (db s)) (map_to_list (users (db s))).
Proof.
  unfold playerResults. intros H. run_inv. split; [done|]. go_inv.
  match goal with Hx : mapM (player_result _) _ = Ok ?l, Hy : mapM convert_counts _ = Ok _ |- _ =>
    apply mapM_Forall2 in Hx; apply mapM_Forall2 in Hy; rename Hx into Hfound; rename Hy into Hrows end.
  simplify_eq. erewrite <- (Forall2_sumZ _ (fun p => Cents (PL_Net p)) _ _ _ Hrows).
  2:{ intros p r Hr. unfold convert_counts in Hr. go_inv. by simplify_eq. }
  rewrite order_by_perm, sumZ_filter. symmetry. erewrite (Forall2_sumZ _ _ _ _ _ Hfound); [|intros ku p Hp; symmetry; by apply player_result_Ok].
  apply sumZ_ext. intros p _. unfold had_action. destruct (0 <? _); [done|]. by destruct (Z.eqb_spec (Cents (PL_Net p)) 0).
Qed.

Lemma scalePlayerBars_net players : sumZ (fun p => Cents (PL_Net p)) (scalePlayerBars players).1 = sumZ (fun p => Cents (PL_Net p)) players.
Proof. unfold scalePlayerBars. destruct (_ =? 0); [done|]. cbn. by rewrite sumZ_map. Qed.

Lemma exposureRows_run s s' rows : exposureRows s = (s', Ok rows) ->
  db s' = db s /\ exists joins found, exposure_joins bookCurrency (db s) = Ok joins /\ scan_exposure joins [] ∅ = Ok found
    /\ rows = (fun m => mark_worst (house_nets m)) <$> found.
Proof. unfold exposureRows. intros H. run_inv. simplify_eq. eauto 10. Qed.

Lemma bookTotals_Ok cur at_ d t : bookTotals cur at_ d = Ok t ->
  bt_house t = moved (system_kind "house_clearing" cur) (bet_postings d) d
  /\ bt_escrow t = moved (system_kind "wager_escrow" cur) (all_postings d) d.
Proof.
  unfold bookTotals. intros H. go_inv. simplify_eq. cbn.
  repeat match goal with Hx : scan_int64 _ = Ok _ |- _ => apply scan_int64_Ok in Hx as [-> _] end. done.
Qed.

(** What a successful reading of the dashboard took from the tables. *)
Lemma BookPulse_run s s' pulse : Readers_BookPulse s = (s', Ok pulse) ->
  let d := db s in
  db s' = d
  /\ Cents (HouseResult pulse) = moved (system_kind "house_clearing" bookCurrency) (bet_postings d) d
  /\ Cents (Escrow pulse) = moved (system_kind "wager_escrow" bookCurrency) (all_postings d) d
  /\ sumZ (fun p => Cents (PL_Net p)) (Players pulse) = sumZ (fun ku => moved (owned_by ku.1) (bet_postings d) d) (map_to_list (users d))
  /\ (exists s1 s2, db s1 = d /\ exposureRows s1 = (s2, Ok (Exposure pulse))).
Proof.
  unfold Readers_BookPulse. intros H. cbn zeta. run_inv. apply statement_run in Hrun as (n & Ht). go_inv.
  apply bookTotals_Ok in Hok as (Hh & He). apply playerResults_net in Hrun1 as [Hd1 Hnet].
  apply exposureRows_run in Hrun3 as Hx. destruct Hx as [Hd3 _].
  unfold openWagerRows, outstandingRows in *. run_inv. cbn.
  assert (H5s : db s5 = db s) by congruence. rewrite H5s in Hnet.
  split_and!; [congruence|done..| |by exists s0, s4]. rewrite <- Hnet. by rewrite <- (scalePlayerBars_net a5), Hm0.
Qed.
End figures.

(** ** Reconciliation *)
Lemma booked_balanced d0 d r : booked d0 d -> r ∈ ledger d -> unbalanced d r = false.
Proof.
  intros Hb Hr. pose proof (booked_rows _ _ Hb) as Hok. rewrite Forall_forall in Hok. pose proof (Hok _ Hr) as Hrow.
  unfold ledger_row_ok in Hrow. bool_prop. unfold unbalanced, count, row_postings.
  repeat match goal with Hx : Z.of_nat _ = _ |- _ => rewrite Hx | Hx : sumZ posting_cents _ = 0 |- _ => rewrite Hx end.
  rewrite Z.eqb_refl. cbn. rewrite negb_false_iff, Z.eqb_eq. unfold mismatches. apply sumZ_zero. intros p Hp.
  destruct (booked_posting _ _ Hb r p Hr Hp) as (o & t & Hk). unfold count.
  rewrite (filter_none _ (map_to_list (accounts d))); [done|]. apply Forall_forall. intros [[[o' t'] c] id] Hin%elem_of_map_to_list. cbn.
  destruct (bool_decide_reflect (id = AccountID p)) as [->|]; [|done]. pose proof (booked_inj _ _ Hb _ _ _ Hin Hk) as [= _ _ ->].
  by rewrite bool_decide_true.
Qed.

Lemma ReconciliationSummary_run `{E : environment} el d0 s s' r :
  booked d0 (db s) -> Readers_ReconciliationSummary el s = (s', Ok r) -> LedgerBalanced r = true /\ UnbalancedTransactions r = 0.
Proof.
  intros Hb H. unfold Readers_ReconciliationSummary in H. run_inv. apply statement_run in Hrun as (n & Hq). go_inv. simplify_eq. cbn.
  rewrite (filter_none (unbalanced (db s))) in *; [|apply Forall_forall; intros; by eapply booked_balanced].
  match goal with Hx : countToInt (count []) = Ok _ |- _ => cbn in Hx; by injection Hx as <- end.
Qed.

(** ** The dashboard *)
Section dashboard.
Context {E : environment} {HE : environment_ok E}.
Context (st : Store) (sides : string -> option (string * string)).
Context (unmarshal : string -> result MatchResultVerifiedPayload) (unmarshal_pricing : string -> result pricing_payload).
Context (el : Elsewhere) (settings : Settings).
Abbreviation run := (run_commands st sides unmarshal unmarshal_pricing).

Lemma run_commands_booked cs s :
  fresh_db (db s) -> known_accounts (db s) -> Forall command_ok cs -> booked (db s) (db (run cs s)).
Proof.
  intros Hf Hk Hc. split; [done|done|by apply fresh_steps|]. apply run_commands_consistent, fr_constraints, Hf.
Qed.

(** C12. The dashboard adds up.  After any commands from a database without
    bets, whose ledger accounts are its members' or the book's own, the
    reconciliation an administrator reads finds the ledger balanced and counts
    no bad transaction, and in the dashboard the escrow shown is exactly the
    stakes of the accepted wagers and parlays in the book's currency.  In a book
    of one currency with no accepted wager or parlay left, the house's result
    and the members' results sum to zero: once everything is decided, every cent
    the house shows as lost is a member's gain. *)
Theorem dashboard_adds_up cs s s' summary s'' pulse :
  fresh_db (db s) -> known_accounts (db s) -> Forall command_ok cs ->
  let d := db (run cs s) in
  Readers_ReconciliationSummary el (run cs s) = (s', Ok summary) ->
  Readers_BookPulse (run cs s) = (s'', Ok pulse) ->
  LedgerBalanced summary = true /\ UnbalancedTransactions summary = 0
  /\ Cents (Escrow pulse) = total (held <$> book_wagers bookCurrency d) + parlay_stakes bookCurrency d
  /\ (one_currency d -> total (held <$> book_wagers bookCurrency d) + parlay_stakes bookCurrency d = 0 ->
      Cents (HouseResult pulse) + sumZ (fun p => Cents (PL_Net p)) (Players pulse) = 0).
Proof.
  intros Hf Hk Hc d Hsum Hpulse. assert (Hb : booked (db s) d) by by apply run_commands_booked.
  destruct (ReconciliationSummary_run el _ _ _ _ Hb Hsum) as [H1 H2].
  apply BookPulse_run in Hpulse as (_ & Hh & He & Hp & _). fold d in Hh, He, Hp.
  rewrite He, (escrow_open_stakes _ _ Hb). split_and!; [done..|]. intros Hone Hnone.
  pose proof (bets_balance _ _ Hb Hone) as Hbal. rewrite (escrow_open_stakes _ _ Hb) in Hbal. lia.
Qed.
End dashboard.

(** * The dashboard's exposure is what grading moves

    The rows of one market are gathered under one heading, and what the
    dashboard says the house keeps when a selection wins is what grading that
    selection as the only winner posts to house clearing. *)

(** ** Gathering the rows of a market *)
Definition of_market (k : string) (rows : list exposure_join) : list exposure_join :=
  List.filter (fun j => bool_decide (xj_market j = k)) rows.
Definition heading (j : exposure_join) : MarketExposure :=
  mkMarketExposure (xj_title j) (xj_state j) (UTC (xj_closes_at j)) 0 (mkMoney 0 bookCurrency) [].
Definition gather (m : MarketExposure) (rows : list exposure_join) : MarketExposure :=
  foldl (fun m j => add_outcome j (xj_count j) m) m rows.
Definition gathered (rows : list exposure_join) : option MarketExposure :=
  match rows with [] => None | j :: _ => Some (gather (heading j) rows) end.

Lemma of_market_snoc k rows j :
  of_market k (rows ++ [j]) = if bool_decide (xj_market j = k) then of_market k rows ++ [j] else of_market k rows.
Proof. unfold of_market. rewrite List.filter_app. cbn. case_bool_decide; [done|apply app_nil_r]. Qed.
Lemma gathered_snoc rows j m : gathered rows = Some m -> gathered (rows ++ [j]) = Some (add_outcome j (xj_count j) m).
Proof. destruct rows as [|i rows]; [done|]. cbn [gathered app]. intros [= <-]. unfold gather. rewrite app_comm_cons, foldl_app. done. Qed.
Lemma countToInt_Ok n m : countToInt n = Ok m -> m = n.
Proof. unfold countToInt. intros H. by go_inv. Qed.

Record scanned (rows : list exposure_join) (found : list MarketExposure) (index : gmap string nat) : Prop := {
  sc_found : forall k i, index !! k = Some i -> exists m, gathered (of_market k rows) = Some m /\ found !! i = Some m;
  sc_none : forall k, index !! k = None -> of_market k rows = [];
  sc_inj : forall k k' i, index !! k = Some i -> index !! k' = Some i -> k = k'
}.
Lemma scanned_lt rows found index k i : scanned rows found index -> index !! k = Some i -> (i < length found)%nat.
Proof. intros [Hf _ _] Hi. apply Hf in Hi as (m & _ & Hm). by apply lookup_lt_Some in Hm. Qed.

Lemma scanned_old rows found index j i : scanned rows found index -> index !! xj_market j = Some i ->
  scanned (rows ++ [j]) (alter (add_outcome j (xj_count j)) i found) index.
Proof.
  intros Hs Hi. pose proof Hs as [Hf Hn Hinj]. split; [|intros k Hk|done].
  - intros k i' Hk. rewrite of_market_snoc. case_bool_decide as Hkj.
    + subst k. rewrite Hi in Hk. injection Hk as <-. destruct (Hf _ _ Hi) as (m & Hm & Hl).
      exists (add_outcome j (xj_count j) m). split; [by apply gathered_snoc|]. by rewrite list_lookup_alter_eq, Hl.
    + destruct (Hf _ _ Hk) as (m & Hm & Hl). exists m. split; [done|]. rewrite list_lookup_alter_ne; [done|].
      intros ->. by apply Hkj, (Hinj _ _ i').
  - rewrite of_market_snoc, bool_decide_false by congruence. by apply Hn.
Qed.
Lemma scanned_new rows found index j : scanned rows found index -> index !! xj_market j = None ->
  scanned (rows ++ [j]) (alter (add_outcome j (xj_count j)) (length found) (found ++ [heading j])) (<[xj_market j := length found]> index).
Proof.
  intros Hs Hi. pose proof Hs as [Hf Hn Hinj]. split.
  - intros k i. rewrite lookup_insert_Some, of_market_snoc. intros [[<- <-]|[Hne Hk]].
    + rewrite bool_decide_true, (Hn _ Hi) by done. eexists. split; [done|].
      rewrite list_lookup_alter_eq, lookup_app_r, Nat.sub_diag by done. done.
    + rewrite bool_decide_false by done. destruct (Hf _ _ Hk) as (m & Hm & Hl). exists m. split; [done|].
      pose proof (scanned_lt _ _ _ _ _ Hs Hk). rewrite list_lookup_alter_ne by lia. by rewrite lookup_app_l.
  - intros k. rewrite lookup_insert_None. intros [Hk Hne]. rewrite of_market_snoc, bool_decide_false by done. by apply Hn.
  - intros k k' i. rewrite !lookup_insert_Some. intros [[<- <-]|[H1 Hk]] [[<- E2]|[H2 Hk']]; [done| | |by eapply Hinj].
    + apply (scanned_lt _ _ _ _ _ Hs) in Hk'. lia.
    + apply (scanned_lt _ _ _ _ _ Hs) in Hk. lia.
Qed.

Lemma scan_exposure_spec rest : forall rows found index out,
  scanned rows found index -> scan_exposure rest found index = Ok out -> exists index', scanned (rows ++ rest) out index'.
Proof.
  induction rest as [|j rest IH]; intros rows found index out Hs H; cbn [scan_exposure] in H.
  - injection H as <-. exists index. by rewrite app_nil_r.
  - destruct (index !! xj_market j) as [i|] eqn:Hi; apply bind_Ok in H as (n & ->%countToInt_Ok & H).
    + apply (IH (rows ++ [j])) in H; [by rewrite <- app_assoc in H|by apply scanned_old].
    + apply (IH (rows ++ [j])) in H; [by rewrite <- app_assoc in H|by apply scanned_new].
Qed.
Lemma scan_exposure_gathers rows found j : scan_exposure rows [] ∅ = Ok found -> j ∈ rows ->
  exists m, m ∈ found /\ gathered (of_market (xj_market j) rows) = Some m.
Proof.
  intros H Hj. apply (scan_exposure_spec rows []) in H as (index & [Hf Hn _]).
  - cbn [app] in *. destruct (index !! xj_market j) as [i|] eqn:Hi.
    + destruct (Hf _ _ Hi) as (m & Hm & Hl). exists m. split; [by eapply list_elem_of_lookup_2|done].
    + apply Hn in Hi. assert (Hin : j ∈ of_market (xj_market j) rows) by (apply filter_bool_elem; by rewrite bool_decide_true).
      rewrite Hi in Hin. by apply not_elem_of_nil in Hin.
  - split; [by intros k i ?|done|by intros k k' i ?].
Qed.

(** ** What is gathered *)
Lemma gather_fields rows m :
  ME_Market (gather m rows) = ME_Market m
  /\ Outcomes (gather m rows) = Outcomes m ++ ((fun j => mkExposureOutcome (xj_terms j) (xj_count j) (mkMoney (xj_stake j) bookCurrency)
                                                  (mkMoney (xj_payout j) bookCurrency) (mkMoney 0 "") false) <$> rows)
  /\ wrap64 (Cents (ME_Stake (gather m rows))) = wrap64 (Cents (ME_Stake m) + sumZ xj_stake rows).
Proof.
  revert m. induction rows as [|j rows IH]; intros m; cbn [gather foldl].
  - by rewrite app_nil_r, Z.add_0_r.
  - destruct (IH (add_outcome j (xj_count j) m)) as (H1 & H2 & H3). fold (gather (add_outcome j (xj_count j) m) rows).
    rewrite H1, H2, H3. cbn [add_outcome ME_Market Outcomes ME_Stake Cents fmap list_fmap]. rewrite <- app_assoc. split_and!; [done|done|].
    rewrite sumZ_cons, Z.add_assoc. apply wrap64_add.
Qed.

Lemma Forall2_find_l {A B} (P : A -> B -> Prop) l rs x : Forall2 P l rs -> x ∈ l -> exists y, y ∈ rs /\ P x y.
Proof. intros H [i Hi]%list_elem_of_lookup. destruct (Forall2_lookup_l _ _ _ _ _ H Hi) as (y & Hy & Hp). exists y. split; [by eapply list_elem_of_lookup_2|done]. Qed.
Lemma Forall2_find_r {A B} (P : A -> B -> Prop) l rs y : Forall2 P l rs -> y ∈ rs -> exists x, x ∈ l /\ P x y.
Proof. intros H%Forall2_flip. exact (Forall2_find_l _ _ _ _ H). Qed.

(** ** One outcome of a market *)
Section row.
Context (d : DB) (k : string) (r : MarketRow) (Hk : markets d !! k = Some r) (Hrisk : carries_risk (mr_market r) = true).
Abbreviation sels := (selections_joined false k d).

Definition on_market (w : Wager) : bool :=
  bool_decide (Wager_MarketID w = k) && is_accepted w && bool_decide (Money_Currency (Stake w) = bookCurrency).

Lemma risky_of_market :
  List.filter (fun x : (string * MarketRow) * (string * SelectionRow) => bool_decide (x.1.1 = k)) (risky_selections d) ≡ₚ pair (k, r) <$> sels.
Proof.
  unfold risky_selections.
  assert (Hin : (k, r) ∈ List.filter (fun kr : string * MarketRow => carries_risk (mr_market kr.2)) (map_to_list (markets d))).
  { apply filter_bool_elem. split; [by apply elem_of_map_to_list|done]. }
  assert (Hnd : NoDup (List.filter (fun kr : string * MarketRow => carries_risk (mr_market kr.2)) (map_to_list (markets d))).*1).
  { apply NoDup_fmap_filter, NoDup_fst_map_to_list. }
  induction (List.filter _ (map_to_list (markets d))) as [|[k' r'] l IH]; [by apply elem_of_nil in Hin|].
  rewrite bind_cons, List.filter_app. cbn in Hnd. apply NoDup_cons in Hnd as [Hn Hnd]. cbn [fst].
  destruct (decide (k' = k)) as [->|Hne].
  - assert (r' = r) as ->.
    { apply elem_of_cons in Hin as [[= ->]|Hin]; [done|]. exfalso. apply Hn, list_elem_of_fmap. by exists (k, r). }
    rewrite (filter_all _ (pair (k, r) <$> sels)), (filter_none _ (l ≫= _)), app_nil_r; [done|..].
    + apply Forall_forall. intros [[k2 r2] x] ([k3 r3] & Hx & Hl)%list_elem_of_bind. apply list_elem_of_fmap in Hx as (? & [= -> -> ->] & _).
      cbn. apply bool_decide_eq_false. intros ->. apply Hn, list_elem_of_fmap. by exists (k, r3).
    + apply Forall_forall. intros x (y & -> & _)%list_elem_of_fmap. cbn. by rewrite bool_decide_true.
  - rewrite (filter_none _ (pair (k', r') <$> _)); cbn [app].
    + apply IH; [|done]. apply elem_of_cons in Hin as [[= -> _]|Hin]; done.
    + apply Forall_forall. intros x (y & -> & _)%list_elem_of_fmap. cbn. by rewrite bool_decide_false.
Qed.

Definition group_row (x : (string * MarketRow) * (string * SelectionRow)) (j : exposure_join) : Prop :=
  exposure_group bookCurrency d x = Ok j.
Lemma group_row_fields x j : group_row x j ->
  xj_market j = x.1.1 /\ xj_title j = Title (mr_market x.1.2) /\ xj_terms j = DisplayTerms (sr_selection x.2.2)
  /\ xj_stake j = stakes (backing bookCurrency x.1.1 x.2.1 d) /\ xj_payout j = sumZ paid_out (backing bookCurrency x.1.1 x.2.1 d).
Proof.
  unfold group_row. destruct x as [[m mr] [s sr]]. cbn. intros H. go_inv. simplify_eq. cbn.
  repeat match goal with Hx : scan_int64 _ = Ok _ |- _ => apply scan_int64_Ok in Hx as [-> _] end. done.
Qed.

(** The rows of one market are its selections'. *)
Lemma market_rows joins : exposure_joins bookCurrency d = Ok joins ->
  exists js, of_market k joins ≡ₚ js /\ Forall2 group_row (pair (k, r) <$> sels) js.
Proof.
  unfold exposure_joins. intros H. go_inv. simplify_eq. apply mapM_Forall2 in Hok. fold group_row in Hok.
  unfold of_market.
  assert (Hf : Forall2 group_row (List.filter (fun x => bool_decide (x.1.1 = k)) (risky_selections d))
                 (List.filter (fun j => bool_decide (xj_market j = k)) v)).
  { induction Hok as [|x j l l' Hx _ IH]; [constructor|]. cbn. apply group_row_fields in Hx as Hm. destruct Hm as [-> _].
    case_bool_decide; [by constructor|done]. }
  destruct (Permutation_Forall2 risky_of_market Hf) as (js & Hp & Hjs). exists js. split; [|done].
  etrans; [apply filter_bool_perm, order_by_perm|exact Hp].
Qed.

Lemma mark_first_keeps worst l o : o ∈ l -> exists o', o' ∈ mark_first worst l /\ EO_Selection o' = EO_Selection o /\ HouseNet o' = HouseNet o.
Proof.
  induction l as [|x l IH]; [by intros ?%elem_of_nil|]. cbn. rewrite elem_of_cons. intros [->|Ho]; destruct (_ =? worst).
  - exists (set_Worst x). split; [by left|done].
  - exists x. split; [by left|done].
  - exists o. split; [by right|done].
  - destruct (IH Ho) as (o' & Ho' & Hf). exists o'. split; [by right|done].
Qed.
Lemma mark_worst_keeps m o : o ∈ Outcomes m ->
  exists o', o' ∈ Outcomes (mark_worst m) /\ EO_Selection o' = EO_Selection o /\ HouseNet o' = HouseNet o.
Proof. unfold mark_worst. destruct (marketSwing m) as [worst best]. intros Ho. destruct (_ =? _); [by exists o|by apply mark_first_keeps]. Qed.
Lemma mark_worst_market m : ME_Market (mark_worst m) = ME_Market m.
Proof. unfold mark_worst. destruct (marketSwing m) as [worst best]. by destruct (_ =? _). Qed.

Lemma wrap64_sub_l a b p : wrap64 a = wrap64 b -> wrap64 (a - p) = wrap64 (b - p).
Proof. intros H. by rewrite <- !Z.add_opp_r, <- (wrap64_add a), H, wrap64_add. Qed.

(** The heading of a market and the house's net on one of its outcomes. *)
Lemma exposure_outcome joins found id sr :
  exposure_joins bookCurrency d = Ok joins -> scan_exposure joins [] ∅ = Ok found -> (id, sr) ∈ sels ->
  exists x o, x ∈ (fun m => mark_worst (house_nets m)) <$> found /\ o ∈ Outcomes x
    /\ ME_Market x = Title (mr_market r) /\ EO_Selection o = DisplayTerms (sr_selection sr)
    /\ Cents (HouseNet o) = wrap64 (sumZ (fun s => stakes (backing bookCurrency k s.1 d)) sels - sumZ paid_out (backing bookCurrency k id d)).
Proof.
  intros Hj Hs Hin. destruct (market_rows _ Hj) as (js & Hp & Hjs).
  assert (Hall : forall j, j ∈ js -> xj_market j = k /\ xj_title j = Title (mr_market r)).
  { intros j Hjj. destruct (Forall2_find_r _ _ _ _ Hjs Hjj) as (x & (y & -> & _)%list_elem_of_fmap & Hg).
    apply group_row_fields in Hg as (-> & -> & _). done. }
  destruct (Forall2_find_l _ _ _ (k, r, (id, sr)) Hjs) as (j & Hjj & Hg); [apply list_elem_of_fmap; by exists (id, sr)|].
  apply group_row_fields in Hg as (Hm & _ & Ht & _ & Hpay). cbn [fst snd] in *.
  assert (Hstakes : sumZ xj_stake (of_market k joins) = sumZ (fun s => stakes (backing bookCurrency k s.1 d)) sels).
  { rewrite (sumZ_perm _ _ _ Hp). symmetry. rewrite <- (Forall2_sumZ _ (fun x => stakes (backing bookCurrency x.1.1 x.2.1 d)) _ _ _ Hjs).
    - by rewrite sumZ_map.
    - intros x j' Hg. by apply group_row_fields in Hg as (_ & _ & _ & -> & _). }
  rewrite <- Hp in Hjj. assert (Hjin : j ∈ joins) by by apply filter_bool_elem in Hjj as [? _].
  destruct (scan_exposure_gathers _ _ _ Hs Hjin) as (m & Hfound & Hgat). rewrite Hm in Hgat.
  destruct (of_market k joins) as [|j0 rest] eqn:Eo; [done|]. assert (Hm0 : gather (heading j0) (j0 :: rest) = m) by (by injection Hgat).
  destruct (gather_fields (j0 :: rest) (heading j0)) as (Hmk & Hout & Hstk). rewrite Hm0 in Hmk, Hout, Hstk.
  destruct (Hall j0) as [_ Ht0]; [rewrite <- Hp; by left|].
  set (o := mkExposureOutcome (xj_terms j) (xj_count j) (mkMoney (xj_stake j) bookCurrency) (mkMoney (xj_payout j) bookCurrency) (mkMoney 0 "") false).
  assert (Ho : o ∈ Outcomes m) by (rewrite Hout; apply list_elem_of_fmap; by exists j).
  destruct (mark_worst_keeps (house_nets m) (set_HouseNet (mkMoney (wrap64 (Cents (ME_Stake m) - Cents (Payout o))) bookCurrency) o))
    as (o' & Ho' & Hsel & Hnet); [cbn; apply list_elem_of_fmap; by exists o|].
  exists (mark_worst (house_nets m)), o'. split_and!.
  - apply list_elem_of_fmap. by exists m.
  - done.
  - rewrite mark_worst_market. cbn. by rewrite Hmk.
  - by rewrite Hsel.
  - rewrite Hnet. cbn. rewrite <- Hpay, <- Hstakes. by apply wrap64_sub_l.
Qed.
End row.

(** ** Grading one selection as the only winner *)
Definition result_for (winner selection : string) : SettlementResult := if bool_decide (selection = winner) then ResultWin else ResultLoss.
Definition sole_winner (winner : string) (sels : list (string * SelectionRow)) : gmap string SettlementResult :=
  list_to_map ((fun s => (s.1, result_for winner s.1)) <$> sels).
Lemma sole_winner_lookup winner sels s res : sole_winner winner sels !! s = Some res ->
  res = result_for winner s /\ exists row, (s, row) ∈ sels.
Proof. intros ([s' row] & [= -> ->] & Hin)%elem_of_list_to_map_2%list_elem_of_fmap. split; [done|by exists row]. Qed.

(** What house clearing gains on a wager. *)
Definition house_gain (winner : string) (w : Wager) : Z :=
  Cents (Stake w) - (if bool_decide (Wager_SelectionID w = winner) then paid_out w else 0).
Definition settlements_net (account : string) (r : SettleMarketResult) : Z :=
  sumZ (fun ws => net account (Tx_Postings (WS_Transaction ws))) (SMR_Settlements r).

Lemma settleWager_house winner w refs msid wsid version actor at_ eid ws w' ev :
  good_wager w -> priced w ->
  NoDup [SAR_EscrowAccountID refs; SAR_HouseClearingAccountID refs; SAR_UserFundingAccountID refs] ->
  settleWager w (result_for winner (Wager_SelectionID w)) refs msid wsid version actor at_ eid 1 = Ok (ws, w', ev) ->
  net (SAR_HouseClearingAccountID refs) (Tx_Postings (WS_Transaction ws)) = house_gain winner w.
Proof.
  intros Hg Hp Hnd H. apply settleWager_Ok in H as (_ & _ & _ & -> & _); [|done].
  pose proof (good_wager_facts w Hg) as (_ & Hs & _). pose proof (settlement_net w (result_for winner (Wager_SelectionID w)) refs
    (effective_divisor (result_for winner (Wager_SelectionID w)) 1) (SAR_HouseClearingAccountID refs) Hnd) as Hn.
  cbn [settlement_record WS_Transaction Tx_Postings]. rewrite Hn. rewrite !NoDup_cons in Hnd. destruct Hnd as (Hne & _).
  rewrite bool_decide_false by set_solver. rewrite bool_decide_true by done. unfold house_gain, result_for, paid_out.
  clear Hn. repeat case_bool_decide; cbn -[Z.div]; try done.
  unfold riding, effective_divisor. cbn -[Z.div]. rewrite Z.div_1_r, (proj2 (Z.eqb_neq _ _)) by lia. by rewrite Hp.
Qed.

Section grading.
Context (d0 d : DB) (Hb : booked d0 d).

Lemma booked_wager i row : wager_rows d !! i = Some row -> good_wager (wagerRow row) /\ priced (wagerRow row).
Proof.
  intros Hr. set (cur := Money_Currency (Stake (wr_wager row))). set (escrow := default ""%string (accounts d !! escrow_key cur)).
  destruct (store_steps_simulated escrow cur d0 d empty_book) as (b & Hrb & [Hw _ _]).
  - intros j Hj. unfold escrow. by rewrite Hj.
  - apply Hb.
  - apply fresh_holds, Hb.
  - assert (Hl : wagers b !! i = Some (wagerRow row)) by (rewrite Hw; by apply wagers_of_currency).
    split; [|by eapply reachable_priced]. by destruct (bk_wagers _ _ _ (reachable_ok _ _ _ Hrb) _ _ Hl) as ([Hg _] & _).
Qed.
Lemma booked_keyed : keyed d.
Proof. eapply store_steps_keyed; [apply Hb|]. apply fresh_keyed, Hb. Qed.

(** The grading of the market's stored wagers that makes [winner] its only
    winner, whichever members' accounts it pays. *)
Record sole_winner_command (k winner house : string) (c : SettleMarketCommand) : Prop := {
  sw_wagers : SMC_Wagers c = wagers_of k d;
  sw_outcome : Outcome c = sole_winner winner (selections_joined false k d);
  sw_heat : DeadHeat c = false;
  sw_refs : map_Forall (fun _ refs => SAR_HouseClearingAccountID refs = house
              /\ NoDup [SAR_EscrowAccountID refs; SAR_HouseClearingAccountID refs; SAR_UserFundingAccountID refs]) (SMC_Refs c)
}.

Lemma sole_winner_moves k winner house c res : sole_winner_command k winner house c -> SettleMarket c = Ok res ->
  settlements_net house res = sumZ (house_gain winner) (List.filter is_accepted (wagers_of k d))
  /\ Forall (fun w => exists row, (Wager_SelectionID w, row) ∈ selections_joined false k d) (List.filter is_accepted (wagers_of k d)).
Proof.
  intros [Hw Ho Hh Hrefs] H. apply SettleMarket_Ok in H as (divisor & rs & Hd & Hrs & _ & _ & Hset & _).
  unfold deadHeatDivisor in Hd. rewrite Hh in Hd. cbn in Hd. go_inv. simplify_eq. rewrite Hw in Hrs.
  assert (Hone : Forall2 (fun w g => house_gain winner w = net house (Tx_Postings (WS_Transaction g.2.1.1))
      /\ exists row, (Wager_SelectionID w, row) ∈ selections_joined false k d) (sort_by Wager_ID (List.filter is_accepted (wagers_of k d))) rs).
  { eapply Forall2_good; [|intros w g _ Hg; exact Hg|].
    - apply sorted_accepted_good, Forall_forall. intros w Hin.
      destruct (proj2 (wagers_of_rows k d booked_keyed) w Hin) as (row & Hrow & <-). by eapply booked_wager.
    - apply Forall2_same_length_lookup. split; [by eapply Forall2_length|]. intros i w g Hi Hgi.
      pose proof (Forall2_lookup_lr _ _ _ _ _ _ Hrs Hi Hgi) as Hstep. cbn in Hstep.
      apply list_elem_of_lookup_2 in Hi. rewrite sort_by_perm in Hi. apply filter_bool_elem in Hi as [Hin _].
      destruct (proj2 (wagers_of_rows k d booked_keyed) w Hin) as (row & Hrow & <-). apply booked_wager in Hrow as [Hg Hp].
      unfold settle_one in Hstep. rewrite Ho in Hstep. destruct (sole_winner _ _ !! _) as [outcome|] eqn:El; [|done].
      apply sole_winner_lookup in El as [-> Hsel]. split; [|done]. go_inv. destruct v as [[refs sid] eid]. go_inv. simplify_eq.
      match goal with Hx : wager_refs _ _ _ _ = _ |- _ => apply wager_refs_Ok in Hx; apply Hrefs in Hx as [<- Hnd] end.
      destruct v as [[ws w'] ev]. cbn [fst snd] in *. symmetry. by eapply settleWager_house. }
  split.
  - unfold settlements_net. rewrite Hset, sumZ_map. rewrite <- (sumZ_perm _ _ _ (sort_by_perm Wager_ID _)).
    symmetry. eapply Forall2_sumZ; [exact Hone|]. by intros w g [? _].
  - apply Forall_forall. intros w Hin. rewrite <- (sort_by_perm Wager_ID) in Hin. by destruct (Forall2_find_l _ _ _ _ Hone Hin) as (g & _ & _ & ?).
Qed.

(** *** The same wagers counted two ways *)
Lemma market_sum k f :
  (forall row, f (wagerRow row) = f (wr_wager row)) ->
  Forall (fun w => Money_Currency (Stake w) = bookCurrency) (List.filter is_accepted (wagers_of k d)) ->
  sumZ f (List.filter is_accepted (wagers_of k d)) = sumZ f (List.filter (on_market k) (all_wagers d)).
Proof.
  intros Hf Hcad. assert (Hp : List.filter is_accepted (wagers_of k d)
      ≡ₚ List.filter is_accepted (List.filter (fun w => bool_decide (Wager_MarketID w = k)) (wagerRow <$> (map_to_list (wager_rows d)).*2)))
    by apply filter_bool_perm, sort_by_perm.
  rewrite (sumZ_perm _ _ _ Hp). unfold all_wagers. rewrite !sumZ_filter, (sumZ_map _ wagerRow), (sumZ_map _ wr_wager). apply sumZ_ext. intros row Hrow.
  rewrite Hf. unfold on_market. change (is_accepted (wagerRow row)) with (is_accepted (wr_wager row)).
  change (Wager_MarketID (wagerRow row)) with (Wager_MarketID (wr_wager row)).
  destruct (bool_decide (Wager_MarketID (wr_wager row) = k)) eqn:Em; [|done]. destruct (is_accepted (wr_wager row)) eqn:Ea; [|done].
  rewrite bool_decide_true; [done|]. rewrite Forall_forall in Hcad. apply (Hcad (wagerRow row)). rewrite Hp.
  apply filter_bool_elem. split; [|done]. apply filter_bool_elem. split; [|done]. apply list_elem_of_fmap. by exists row.
Qed.

Lemma gain_split k winner : sumZ (house_gain winner) (List.filter (on_market k) (all_wagers d))
  = sumZ (fun w => Cents (Stake w)) (List.filter (on_market k) (all_wagers d)) - sumZ paid_out (backing bookCurrency k winner d).
Proof.
  unfold backing. rewrite !sumZ_filter. apply Z.add_move_r. rewrite <- sumZ_plus. apply sumZ_ext. intros w _. unfold on_market, house_gain.
  destruct (bool_decide (Wager_MarketID w = k)), (bool_decide (Wager_SelectionID w = winner)), (is_accepted w),
    (bool_decide (Money_Currency (Stake w) = bookCurrency)); cbn; lia.
Qed.

Lemma selections_cover k :
  (forall w, w ∈ List.filter (on_market k) (all_wagers d) -> exists row, (Wager_SelectionID w, row) ∈ selections_joined false k d) ->
  sumZ (fun s => stakes (backing bookCurrency k s.1 d)) (selections_joined false k d)
  = sumZ (fun w => Cents (Stake w)) (List.filter (on_market k) (all_wagers d)).
Proof.
  intros Hsel. unfold stakes, backing. rewrite (sumZ_filter _ (on_market k)).
  rewrite (sumZ_ext (fun s : string * SelectionRow => _) _ _ (fun s _ => sumZ_filter _ _ _)), sumZ_swap. apply sumZ_ext. intros w Hw.
  destruct (on_market k w) eqn:Eo.
  - destruct (Hsel w) as [row Hin]; [by apply filter_bool_elem|]. apply (sumZ_one _ _ (Wager_SelectionID w, row)).
    + apply (NoDup_fmap_1 fst), NoDup_fmap_filter, NoDup_fst_map_to_list.
    + done.
    + intros [s row'] Hin'. unfold on_market in Eo. bool_prop. rewrite (bool_decide_true (Wager_MarketID w = k)),
        (bool_decide_true (Money_Currency (Stake w) = bookCurrency)) by done. match goal with Hx : is_accepted w = true |- _ => rewrite Hx end.
      cbn. rewrite !andb_true_r, bool_decide_eq_true. split; [intros <-|by intros [= -> _]].
      f_equal. unfold selections_joined in *. apply filter_bool_elem in Hin as [Hin%elem_of_map_to_list _], Hin' as [Hin'%elem_of_map_to_list _]. congruence.
  - apply sumZ_zero. intros s _. unfold on_market in Eo.
    destruct (bool_decide (Wager_MarketID w = k)), (bool_decide (Wager_SelectionID w = s.1)), (is_accepted w),
      (bool_decide (Money_Currency (Stake w) = bookCurrency)); done.
Qed.
End grading.

(** ** The dashboard and the grading *)
Section exposure.
Context {E : environment} {HE : environment_ok E}.
Context (st : Store) (sides : string -> option (string * string)).
Context (unmarshal : string -> result MatchResultVerifiedPayload) (unmarshal_pricing : string -> result pricing_payload).
Abbreviation run := (run_commands st sides unmarshal unmarshal_pricing).

(** C13. The exposure shown is the money grading moves.  After any commands from
    a database without bets, take a market the dashboard shows, its accepted
    wagers in the book's currency, and one of its selections: the dashboard
    has a row for the selection under the market's title, and the house's net
    it shows there is, as 64-bit cents, exactly what every successful grading
    of the stored wagers with that selection as the only winner posts to house
    clearing, whichever members' accounts the grading pays. *)
Theorem exposure_is_what_grading_moves cs s s' pulse k r id sr :
  fresh_db (db s) -> known_accounts (db s) -> Forall command_ok cs ->
  let d := db (run cs s) in
  Readers_BookPulse (run cs s) = (s', Ok pulse) ->
  markets d !! k = Some r -> carries_risk (mr_market r) = true -> (id, sr) ∈ selections_joined false k d ->
  Forall (fun w => Money_Currency (Stake w) = bookCurrency) (List.filter is_accepted (wagers_of k d)) ->
  exists x o, x ∈ Exposure pulse /\ o ∈ Outcomes x
    /\ ME_Market x = Title (mr_market r) /\ EO_Selection o = DisplayTerms (sr_selection sr)
    /\ forall house c res, sole_winner_command d k id house c -> SettleMarket c = Ok res ->
         Cents (HouseNet o) = wrap64 (settlements_net house res).
Proof.
  intros Hf Hka Hc d Hpulse Hk Hrisk Hin Hcad. assert (Hb : booked (db s) d) by by apply run_commands_booked.
  apply BookPulse_run in Hpulse as (_ & _ & _ & _ & s1 & s2 & Hd1 & Hx). fold d in Hd1.
  apply exposureRows_run in Hx as (_ & joins & found & Hj & Hs & Hrows). rewrite Hd1 in Hj.
  destruct (exposure_outcome d k r Hk Hrisk joins found id sr Hj Hs Hin) as (x & o & Hx & Ho & Hm & Hsel & Hnet).
  exists x, o. split_and!; [by rewrite Hrows|done..|]. intros house c res Hcmd Hres.
  destruct (sole_winner_moves _ _ Hb _ _ _ _ _ Hcmd Hres) as [-> Hsels]. rewrite Hnet. f_equal.
  rewrite (market_sum d k (house_gain id)) by done. rewrite gain_split. f_equal. apply selections_cover.
  intros w [Hw Hon]%filter_bool_elem. unfold all_wagers in Hw. apply list_elem_of_fmap in Hw as (row & -> & Hrow).
  rewrite Forall_forall in Hsels. apply (Hsels (wagerRow row)). unfold on_market in Hon. bool_prop.
  apply filter_bool_elem. split; [|done]. unfold wagers_of. rewrite sort_by_perm. apply filter_bool_elem.
  split; [apply list_elem_of_fmap; by exists row|]. cbn. by apply bool_decide_eq_true.
Qed.
End exposure.
