(* ===== verification/PrivateStoreExample.v ===== *)
(** * The dashboard of a concrete book

    The witnesses of [PrivateStoreProps] and [Exposure], on the run of
    [StoreExample]; and a book of two currencies, whose players do not add up. *)
From S2P Require Import Prelude GoStrings GoTime SQL Sample Web PrivateWeb Ledger Events Betting Placement Settlement SettlementProps Book PromotionPG.
From S2P Require Import BettingDB StoreSteps WagerStore ParlayStore MarketStore AdjustStore ReadersStore StoreRefinement StoreExample PrivateStore PrivateStoreProps.

Definition nothing_elsewhere : Elsewhere := mkElsewhere (fun _ => "Cash"%string) String.append ∅ ∅ ∅.
Lemma sample_known : known_accounts sample_db.
Proof. intros o t c i Hi. discriminate (eq_trans (eq_sym Hi) (lookup_empty _)). Qed.

Abbreviation settled_book := (run (history ++ settlement) start).
Definition one_currency_b (d : DB) : bool := forallb (fun kr : account_key * string => bool_decide (kr.1.2 = bookCurrency)) (map_to_list (accounts d)).
Lemma one_currency_of d : one_currency_b d = true -> one_currency d.
Proof.
  unfold one_currency_b. rewrite forallb_forall. intros H k id Hk.
  refine (bool_decide_eq_true_1 _ (H (k, id) _)). by apply list_elem_of_In, elem_of_map_to_list.
Qed.

Definition summary_read : AdminReconciliationSummary := Eval vm_compute in
  match (Readers_ReconciliationSummary nothing_elsewhere settled_book).2 with
  | Ok r => r | Err _ => mkAdminReconciliationSummary zeroTime false 0 0 0 0 (mkMoney 0 CAD)
  end.
Definition no_pulse : BookPulse :=
  let z := mkMoney 0 CAD in mkBookPulse zeroTime z z z z z 0 0 z 0 [] [] [] z [] z z.
Definition pulse_of (s : session) : BookPulse := match (Readers_BookPulse s).2 with Ok p => p | Err _ => no_pulse end.
Definition settled_pulse : BookPulse := Eval vm_compute in pulse_of settled_book.
Lemma summary_run : Readers_ReconciliationSummary nothing_elsewhere settled_book = ((Readers_ReconciliationSummary nothing_elsewhere settled_book).1, Ok summary_read).
Proof. apply run_of. by vm_compute. Qed.
Lemma settled_pulse_run : Readers_BookPulse settled_book = ((Readers_BookPulse settled_book).1, Ok settled_pulse).
Proof. apply run_of. by vm_compute. Qed.
Lemma settled_one_currency : one_currency (db settled_book).
Proof. apply one_currency_of. by vm_compute. Qed.

(** The second match is decided too, and nothing rides any more. *)
Definition decision : list command :=
  [CSettleMarket (mkSettleMarketRequest (sid "2") {[ sid "5" := ResultLoss; sid "6" := ResultWin ]} Sample.admin "measured" "" false)].
Abbreviation decided_book := (run ((history ++ settlement) ++ decision) start).
Lemma decision_ok : Forall command_ok ((history ++ settlement) ++ decision).
Proof. by repeat constructor. Qed.
Definition decided_pulse : BookPulse := Eval vm_compute in pulse_of decided_book.
Definition decided_summary : AdminReconciliationSummary := Eval vm_compute in
  match (Readers_ReconciliationSummary nothing_elsewhere decided_book).2 with
  | Ok r => r | Err _ => mkAdminReconciliationSummary zeroTime false 0 0 0 0 (mkMoney 0 CAD)
  end.
Lemma decided_summary_run : Readers_ReconciliationSummary nothing_elsewhere decided_book = ((Readers_ReconciliationSummary nothing_elsewhere decided_book).1, Ok decided_summary).
Proof. apply run_of. by vm_compute. Qed.
Lemma decided_pulse_run : Readers_BookPulse decided_book = ((Readers_BookPulse decided_book).1, Ok decided_pulse).
Proof. apply run_of. by vm_compute. Qed.
Lemma decided_one_currency : one_currency (db decided_book).
Proof. apply one_currency_of. by vm_compute. Qed.
Lemma nothing_rides : total (held <$> book_wagers bookCurrency (db decided_book)) + parlay_stakes bookCurrency (db decided_book) = 0.
Proof. by vm_compute. Qed.

(** Alice won 30.00 of the house on her first bet, with 6.00 and 5.00 still
    riding; both are lost in the end. *)
Lemma dashboard_adds_up_witness :
  (LedgerBalanced summary_read = true /\ Cents (Escrow settled_pulse) = 1100
   /\ total (held <$> book_wagers bookCurrency (db settled_book)) + parlay_stakes bookCurrency (db settled_book) = 1100)
  /\ Cents (HouseResult decided_pulse) = -1900 /\ ((fun p => Cents (PL_Net p)) <$> Players decided_pulse) = [1900]
  /\ Cents (HouseResult decided_pulse) + sumZ (fun p => Cents (PL_Net p)) (Players decided_pulse) = 0.
Proof.
  destruct (dashboard_adds_up sample_store no_matches no_bytes no_pricing nothing_elsewhere (history ++ settlement) start
    _ summary_read _ settled_pulse fresh_sample_db sample_known history_ok summary_run settled_pulse_run)
    as (Hl & _ & He & _).
  destruct (dashboard_adds_up sample_store no_matches no_bytes no_pricing nothing_elsewhere ((history ++ settlement) ++ decision) start
    _ decided_summary _ decided_pulse fresh_sample_db sample_known decision_ok decided_summary_run decided_pulse_run)
    as (_ & _ & _ & Hone).
  split; [split; [exact Hl|split; [reflexivity|exact (eq_sym He)]]|].
  split; [reflexivity|]. split; [reflexivity|]. exact (Hone decided_one_currency nothing_rides).
Defined.

(** ** Exposure *)
Abbreviation riding_book := (run history start).
Definition payee : SettlementAccountRefs := mkSettlementAccountRefs "alice" "escrow" "house".
(** Match 2, closed, graded for Ann. *)
Definition ann_wins : SettleMarketCommand :=
  mkSettleMarketCommand (mkMarket (sid "2") MarketMatch (sid "d") "Match 2" MarketClosed "CAD" zeroTime (mkTime (64000000000 * Second) true))
    [mkSelection (sid "5") (sid "2") "ann" "ann" 200 "" true; mkSelection (sid "6") (sid "2") "bob" "bob" (-110) "" true]
    (sole_winner (sid "5") (selections_joined false (sid "2") (db riding_book))) (wagers_of (sid "2") (db riding_book))
    {[ sid "9" := payee ]} {[ sid "9" := "settlement-9" ]} {[ sid "9" := sid "e" ]} "settlement-1" 1 Sample.admin (mkTime (64000000001 * Second) true)
    (sid "f") false false 0.
Lemma ann_wins_alone : sole_winner_command (db riding_book) (sid "2") (sid "5") "house" ann_wins.
Proof.
  split; [done..|]. cbn [ann_wins SMC_Refs]. intros i refs [<- <-]%lookup_singleton_Some. split; [done|]. apply (bool_decide_unpack _). by vm_compute.
Qed.

Lemma ann_wins_graded : (settlements_net "house" <$> SettleMarket ann_wins) = Ok (-1400).
Proof. by vm_compute. Qed.
Definition riding_pulse : BookPulse := Eval vm_compute in pulse_of riding_book.
Lemma riding_pulse_run : Readers_BookPulse riding_book = ((Readers_BookPulse riding_book).1, Ok riding_pulse).
Proof. apply run_of. by vm_compute. Qed.
Definition second_match : MarketRow := sample_market (sid "2") (sid "d") "Match 2".
Lemma second_match_open : markets (db riding_book) !! sid "2" = Some second_match.
Proof. by vm_compute. Qed.
Lemma ann_offered : (sid "5", sample_selection (sid "5") (sid "2") "ann" 200) ∈ selections_joined false (sid "2") (db riding_book).
Proof. apply filter_bool_elem. split; [apply elem_of_map_to_list; by vm_compute|by vm_compute]. Qed.
Lemma riding_in_cad : Forall (fun w => Money_Currency (Stake w) = bookCurrency) (List.filter is_accepted (wagers_of (sid "2") (db riding_book))).
Proof. apply (bool_decide_unpack _). by vm_compute. Qed.

(** If Ann wins, Alice's 7.00 at +200 costs the house 14.00. *)
Lemma exposure_is_what_grading_moves_witness :
  exists x o, x ∈ Exposure riding_pulse /\ o ∈ Outcomes x /\ ME_Market x = "Match 2"%string /\ EO_Selection o = "ann"%string
    /\ Cents (HouseNet o) = -1400.
Proof.
  destruct (exposure_is_what_grading_moves sample_store no_matches no_bytes no_pricing history start _ riding_pulse (sid "2") second_match (sid "5") _
    fresh_sample_db sample_known history_ok1 riding_pulse_run second_match_open eq_refl ann_offered riding_in_cad)
    as (x & o & Hx & Ho & Hm & Ht & Hnet).
  exists x, o. split; [exact Hx|]. split; [exact Ho|]. split; [exact Hm|]. split; [exact Ht|].
  destruct (SettleMarket ann_wins) as [res|e] eqn:Es; [|discriminate (eq_trans (eq_sym ann_wins_graded) (f_equal _ Es))].
  rewrite (Hnet _ _ _ ann_wins_alone Es). pose proof ann_wins_graded as Hg. rewrite Es in Hg. injection Hg as ->. reflexivity.
Defined.

(** ** Two currencies *)

(** Alice again, with an American match beside the others. *)
Definition usd_db : DB :=
  let m := mkMarketRow (mkMarket (sid "2") MarketMatch (sid "d") "Match 2" MarketOpen "USD" zeroTime (mkTime (64000000000 * Second) true))
             Sample.admin false None (Some 50000) (mkTime (63800000000 * Second) true) in
  mkDB (users sample_db) (<[sid "2" := m]> (markets sample_db)) (selections sample_db) ∅ ∅ ∅ [] [] [] [] ∅ [] [] [] ∅.
Definition usd_history : list command :=
  [CPlaceWager (mkPlaceWagerRequest (sid "9") alice (sid "2") (sid "5") FundingUserCash 700 "USD" "bet-2" "");
   CAcceptWager (sid "9") Sample.admin].
(** The dashboard shows no Canadian money at stake, and Alice down seven
    Canadian dollars: her row adds up every currency. *)
Example players_mix_currencies :
  let pulse := pulse_of (run usd_history (mkSession usd_db 0)) in
  Escrow pulse = mkMoney 0 CAD /\ (PL_Net <$> Players pulse) = [mkMoney (-700) CAD]
  /\ one_currency_b (db (run usd_history (mkSession usd_db 0))) = false.
Proof. by vm_compute. Qed.
